(* ===== verification/_CoqProject ===== *)
-Q . S2P
Prelude.v
Param.v
Bytes.v
Sleeplock.v
Spinlock.v
Seg.v
SpinlockExcl.v
Bio.v
BioInv.v
BioSpec.v
Log.v
LogInv.v
LogCrash.v
Blocks.v
LogBlocks.v
Memory.v
Kalloc.v
Vm.v
VmInv.v
VmUser.v
VmKern.v
Fs.v
FsInodes.v
FsBlocks.v
FsFiles.v
FsPath.v
FsWrite.v
Ring.v
Hoare.v
Kernel.v
Proc.v
Console.v
Pipe.v
File.v
Fork.v
Syscall.v
Sysproc.v
Sysfile.v
Exec.v
Trap.v
Machine.v
ProcInv.v
Frame.v
Sched.v
PipeSpec.v
ConsoleSpec.v
KernelInv.v
FileInv.v
Sizes.v
Ulib.v
Grep.v
Sh.v
ShSpec.v
ShRound.v
Umalloc.v
UmallocSpec.v
ShRun.v
ShMain.v
UserProgs.v
Commands.v
Mp.v
Ide.v
IdeSpec.v
Boot.v
Apic.v
ApicSpec.v
Mkfs.v
MkfsSpec.v
MkfsImage.v
BootImage.v
