(* ===== verification/Prelude.v ===== *)
(** * A verification library of the modified xv6-public kernel

    ** The program

    The repository is the xv6 teaching kernel for the x86 with added system
    calls: memory statistics (getmemsize, getvpages, getptentries), process
    priorities with a priority scheduler, file system statistics
    (getfsinfo) and shutdown.  All sources are under src/xv6-public/.  The
    parts and the way they rest on one another:

    - kalloc.c hands out physical pages; vm.c builds page tables from them;
    - memide.c (the in-memory variant of the disk) or ide.c (the driver of a
      real one) stores blocks; bio.c caches them; log.c makes groups of block
      writes atomic; fs.c builds inodes, directories and paths on the log;
    - spinlock.c and sleeplock.c protect shared data; proc.c keeps the
      processes, the scheduler, sleep and wakeup;
    - pipe.c and file.c are what descriptors refer to; console.c, kbd.c and
      uart.c are the terminal;
    - syscall.c, sysproc.c, sysfile.c and exec.c are the system calls, and
      trap.c enters them and handles interrupts;
    - bootmain.c loads the kernel, mp.c finds the processors, and lapic.c,
      ioapic.c and picirq.c set up their interrupts;
    - mkfs.c builds the image of the file system on the host;
    - user programs rest on ulib.c, printf.c and umalloc.c; sh.c is the shell.

    ** The model

    Code is a function in the monad [M] of this file: from a state to [Ok]
    with a value and a state, or to one of the ends without a value: [Panic]
    (a call of panic), [Fault] (an access to memory that is not there, or
    behaviour C leaves undefined), [Blocked] (the process would sleep on a
    lock another one holds) and [OutOfFuel].  Machine integers are [Z] with
    the wrap-around written out ([u8], [u16], [u32], [s16], [s32]).  A
    pointer into a table is an index, a null pointer [None]; kernel memory is
    a map from addresses to bytes, so page tables, the free list, trap frames
    and the ELF image are the bytes the code reads and writes.

    A spin lock brackets an atomic step, so the operations are functions of
    the state; Spinlock and SpinlockExcl show that the lock gives the
    exclusion this relies on.  A call that sleeps ends its step with the local
    state it resumes from, and Machine resumes it.

    Loops that are not structural take fuel, always an upper bound computed
    from the data (the bytes left, the pages of the range, the length of a
    list); the theorems that say a call returns show that the bound is enough.

    ** Files

    - Prelude: integers, results, the monad, tactics and hints, lists.
    - Param, Bytes, Memory: param.h, memlayout.h, mmu.h; little-endian
      fields; byte memory and string.c.
    - Seg: the descriptors of mmu.h, seginit and the task state of vm.c, tvinit
      and idtinit of trap.c, and how the processor reads them.
    - Sleeplock, Spinlock, SpinlockExcl: sleeplock.c; spinlock.c with the
      per-CPU interrupt state; interleavings of acquire and release.
    - Bio, BioInv, BioSpec: bio.c and iderw of memide.c; the invariant that
      ties buffers to blocks; coherence and replacement.
    - Log, LogInv, LogCrash: log.c; the logical contents of a disk with a
      log; crashes, recovery, durability.
    - Blocks, LogBlocks: the class [BlockOps] of the block operations fs.c
      uses with the laws [BlockSpec], and what they give for reading and
      changing a block; its instance by the log, and sequences of changes.
    - Kalloc, Vm, VmInv, VmUser, VmKern: kalloc.c; vm.c; the invariant of an
      address space; its user and kernel parts.
    - Fs, FsInodes, FsBlocks, FsFiles, FsPath, FsWrite: fs.c over [BlockOps];
      inodes in their blocks; bitmap, inode table and statistics; inode cache,
      reading files, directories, path elements; the walk of a path; the
      blocks a file owns, and writing.
    - Kernel: struct proc, cpu, file, pipe, the console and the state [kst].
    - Proc, Console, Pipe, File, Fork, Syscall, Sysproc, Sysfile, Exec, Trap:
      the C files of these names (Fork: userinit, fork, exit, wait, forkret
      of proc.c).
    - Machine: the kernel as a transition system.
    - Hoare: triples for the monad; Frame: what most kernel code leaves
      alone.
    - ProcInv, Sched, KernelInv: the invariant of the process table, the
      scheduler's promises, and the invariance under every trap.
    - Ring, PipeSpec, ConsoleSpec: ring buffers with wrapping counters; pipes
      as queues; the console as a line editor and a screen.
    - FileInv, Sizes: open files and their counts; sizes of processes and
      the arguments of system calls.
    - Ulib, Umalloc, UmallocSpec: ulib.c and printf.c; the allocator of
      umalloc.c on the bytes of a process, and its blocks.
    - Grep, UserProgs, Commands: grep.c; wc.c, cat.c, echo.c and the names of
      ls.c; ls.c, rm.c, mkdir.c, ln.c and kill.c over the class [Calls] of
      system calls.
    - Sh, ShSpec, ShRound: the parser of sh.c, its safety, and printing and
      parsing; ShRun, ShMain: the processes of the shell as trees of system
      calls, what commands mean, and scripts.
    - Ide, IdeSpec: ide.c over the class [AtaOps] of the port instructions;
      the class [AtaSpec] of what an ATA disk does, and the queue of requests.
    - Boot: bootmain.c over the same classes; Mp: mp.c.
    - Apic, ApicSpec: lapic.c, ioapic.c and picirq.c over the class [ApicOps]
      of registers and ports; the laws of a clock and of an I/O APIC.
    - Mkfs, MkfsSpec, MkfsImage: mkfs.c, the files on the image while it is
      built, and the kernel's view of the finished image.
    - BootImage: the kernel's file system started on that image.

    ** Theorems

    - Log: a crash at any block write during commit, followed by any number of
      crashes during recovery, leaves all or none of a transaction; what a
      finished transaction wrote is on the disk and survives later crashes;
      three operations that begin_op admits to an empty log, and that change
      the blocks they are entitled to, make log_write panic.
    - Buffer cache: a block has one buffer, with its current contents, and
      the least recently used free one is recycled.
    - Memory: the allocator refines a stack of distinct pages; growing,
      shrinking, copying and freeing an address space change exactly the
      mappings they should, lose no page and free none twice.
    - File system: block allocation and free, reference counts of inodes,
      file contents, directory search, statistics; a path is resolved as the
      directories on the disk say, with one reference to the result and every
      lock released; a write changes the bytes it should and no other file, and
      is read back; the image mkfs builds is one the kernel finds well-formed;
      started on it, through recovery, caches and path lookup, the kernel reads
      back every file by its name.
    - Locks and scheduling: mutual exclusion; nesting of interrupt-disable;
      the scheduler picks a process of the highest priority, the first from
      where its scan was left, and within a bounded number of passes.
    - Protection: through the descriptor tables user code gets flat segments
      of its level, enters the kernel only at the vectors and on its kernel
      stack, and raises no interrupt but the system call.
    - Kernel: in every reachable state the process table is consistent, the
      counts of open files are exact, and the memory a system call accepts
      from its caller is the caller's.
    - Pipes and console: reads and writes of a pipe refine a bounded queue, up
      to one wakeup that is lost; the input handlers refine a line editor;
      output stays on the screen, and numbers print exactly.
    - Disk and boot: the IDE driver serves its queue in order, leaving buffer
      and sector equal unless the command failed, and one request has the
      effect of the in-memory disk the buffer cache is proved with; the boot
      loader puts the segments of the kernel in memory; mpinit records the
      processors of the table, and never ends on an unknown entry; the date
      read from a running clock, whose registers hold anything during an
      update, is one it showed; an interrupt is routed as it was enabled.
    - User programs: malloc and free keep the blocks in use disjoint and
      whole, for requests of up to 2^31-16 bytes, above which the arithmetic
      of malloc overflows; grep prints the matching lines, wc counts, and ls
      lists the entries of a directory; the shell's parser is safe on every
      line and inverts printing, and a script runs with the descriptors its
      redirections and pipes call for.

    ** Not modelled

    The assembly entry points (bootasm.S, entry.S, entryother.S, swtch.S,
    trapasm.S, usys.S), which have no C semantics: what the C code relies on
    of them is in Machine, Trap and Seg.  main.c, which is the order of the
    initialisation calls and the start of the other processors; the parts that
    concern the file system are put together in BootImage.  Of the modelled
    files: the checks of sched on locks and interrupts, whose state is in
    Spinlock and not in the kernel's; the initialisation of the console and
    the serial port, and the messages vm.c and fs.c print.  devsw is an
    argument of the file system code: the console's read and write are
    modelled in Console, on the kernel's state, and not linked to readi and
    writei.  An interrupt of the disk without a finished command is not among
    the events of IdeSpec.  The main function of grep.c, which opens files for
    the modelled loop; init.c, which never ends; and programs that only print
    or make one system call (clear.c, exit.c, zombie.c, meminfo.c, fs_demo.c).
    The test programs (usertests.c and the like) are checks of the kernel and
    not part of it. *)

From Stdlib Require Export ZArith Lia.
From stdpp Require Export base numbers list gmap strings.

#[global] Open Scope Z_scope.

(** ** Machine integers

    A C [uint], [ushort] or [uchar] is a [Z] in range; arithmetic that can
    leave the range is reduced explicitly. *)

Definition u8 (z : Z) : Z := z mod 2 ^ 8.
Definition u16 (z : Z) : Z := z mod 2 ^ 16.
Definition u32 (z : Z) : Z := z mod 2 ^ 32.

(** Reinterpretation of a 32-bit (16-bit) pattern as a signed [int]
    ([short]). *)
Definition s32 (z : Z) : Z :=
  let w := u32 z in if w <? 2 ^ 31 then w else w - 2 ^ 32.
Definition s16 (z : Z) : Z :=
  let w := u16 z in if w <? 2 ^ 15 then w else w - 2 ^ 16.

(** [w & f] as a condition. *)
Definition has (w f : Z) : bool := negb (Z.land w f =? 0).

(** ** Results of kernel code

    [Panic] is a call of [panic] with its message; [Fault] is an
    invalid memory access or undefined behaviour of C; [Blocked] is a call that cannot continue
    before another thread acts; [OutOfFuel] is a loop stopped by the bound
    of its model, and never a behaviour of the code. *)

Inductive result (A : Type) : Type :=
| Ok (a : A)
| Panic (msg : string)
| Fault
| Blocked
| OutOfFuel.
Arguments Ok {A} _.
Arguments Panic {A} _.
Arguments Fault {A}.
Arguments Blocked {A}.
Arguments OutOfFuel {A}.

Definition M (S A : Type) : Type := S -> result (A * S).

Definition ret {S A} (a : A) : M S A := fun s => Ok (a, s).
Definition bind {S A B} (c : M S A) (k : A -> M S B) : M S B :=
  fun s => match c s with
           | Ok (a, s') => k a s'
           | Panic msg => Panic msg
           | Fault => Fault
           | Blocked => Blocked
           | OutOfFuel => OutOfFuel
           end.
Definition panic {S A} (msg : string) : M S A := fun _ => Panic msg.
Definition fault {S A} : M S A := fun _ => Fault.
Definition blocked {S A} : M S A := fun _ => Blocked.
Definition out_of_fuel {S A} : M S A := fun _ => OutOfFuel.
Definition get {S} : M S S := fun s => Ok (s, s).
Definition put {S} (s : S) : M S unit := fun _ => Ok (tt, s).
Definition gets {S A} (f : S -> A) : M S A := fun s => Ok (f s, s).
Definition modify {S} (f : S -> S) : M S unit := fun s => Ok (tt, f s).

(** Code of a component run on its part of a larger state. *)
Definition zoom {S T A} (get : S -> T) (put : T -> S -> S) (c : M T A) : M S A :=
  fun s => match c (get s) with
           | Ok (a, t) => Ok (a, put t s)
           | Panic msg => Panic msg
           | Fault => Fault
           | Blocked => Blocked
           | OutOfFuel => OutOfFuel
           end.

Declare Scope xv6_scope.
Delimit Scope xv6_scope with xv6.
#[global] Open Scope xv6_scope.

Notation "'let!' x ':=' c 'in' k" := (bind c (fun x => k))
  (at level 10, x pattern, c at level 200, k at level 200) : xv6_scope.
Notation "'do!' c 'in' k" := (bind c (fun _ => k))
  (at level 10, c at level 200, k at level 200) : xv6_scope.

(** ** Running code

    [mrun] performs the leading primitive steps of a goal about a run;
    [mrun E] then performs the next call, whose run is the equation [E]. *)

Lemma bind_Ok {S A B} (c : M S A) (k : A -> M S B) s a s' :
  c s = Ok (a, s') -> bind c k s = k a s'.
Proof. unfold bind. by intros ->. Qed.

Lemma bind_inv {S A B} (c : M S A) (k : A -> M S B) s b s' :
  bind c k s = Ok (b, s') -> exists a s1, c s = Ok (a, s1) /\ k a s1 = Ok (b, s').
Proof. unfold bind. destruct (c s) as [[a s1]| | | |]; intros H; [eauto|done..]. Qed.

Lemma bind_Panic {S A B} (c : M S A) (k : A -> M S B) s msg :
  c s = Panic msg -> bind c k s = Panic msg.
Proof. unfold bind. by intros ->. Qed.

Lemma bind_bind {S A B C} (c : M S A) (k : A -> M S B) (k' : B -> M S C) s :
  bind (bind c k) k' s = bind c (fun a => bind (k a) k') s.
Proof. unfold bind. by destruct (c s) as [[]| | | |]. Qed.

Lemma bind_ret {S A B} (a : A) (k : A -> M S B) s : bind (ret a) k s = k a s.
Proof. done. Qed.

Lemma bind_get {S B} (k : S -> M S B) s : bind get k s = k s s.
Proof. done. Qed.

Lemma bind_put {S B} (t : S) (k : unit -> M S B) s : bind (put t) k s = k tt t.
Proof. done. Qed.

Lemma bind_gets {S A B} (f : S -> A) (k : A -> M S B) s :
  bind (gets f) k s = k (f s) s.
Proof. done. Qed.

Lemma bind_modify {S B} (f : S -> S) (k : unit -> M S B) s :
  bind (modify f) k s = k tt (f s).
Proof. done. Qed.

Lemma zoom_Ok {S T A} (g : S -> T) (p : T -> S -> S) (c : M T A) s a t :
  c (g s) = Ok (a, t) -> zoom g p c s = Ok (a, p t s).
Proof. unfold zoom. by intros ->. Qed.

Create Rewrite HintDb run.
#[export] Hint Rewrite @bind_bind @bind_ret @bind_get @bind_put @bind_gets
  @bind_modify : run.

Tactic Notation "mrun" := autorewrite with run; cbv beta.
Tactic Notation "mrun" constr(E) :=
  autorewrite with run; cbv beta; rewrite (bind_Ok _ _ _ _ _ E).

(** ** Loops over tables

    [find_idx f l] is the index of the first element of [l] that satisfies
    [f]: the shape of every "for(p = table; p < &table[N]; p++) if(...)"
    search of the kernel. *)

Fixpoint find_idx {A} (f : A -> bool) (l : list A) : option nat :=
  match l with
  | [] => None
  | x :: l => if f x then Some 0%nat else S <$> find_idx f l
  end.

(** [f] applied [n] times. *)
Fixpoint times {A} (n : nat) (f : A -> A) (x : A) : A :=
  match n with
  | O => x
  | S n => f (times n f x)
  end.

(** ** Lemmas on integers *)

Lemma u32_range z : 0 <= u32 z < 2 ^ 32.
Proof. apply Z.mod_pos_bound; lia. Qed.

Lemma u32_small z : 0 <= z < 2 ^ 32 -> u32 z = z.
Proof. apply Z.mod_small. Qed.

Lemma u8_range z : 0 <= u8 z < 2 ^ 8.
Proof. apply Z.mod_pos_bound; lia. Qed.

Lemma u8_small z : 0 <= z < 2 ^ 8 -> u8 z = z.
Proof. apply Z.mod_small. Qed.

Lemma u32_idemp z : u32 (u32 z) = u32 z.
Proof. apply u32_small, u32_range. Qed.

Lemma s32_range z : - 2 ^ 31 <= s32 z < 2 ^ 31.
Proof.
  unfold s32. pose proof (u32_range z).
  destruct (Z.ltb_spec (u32 z) (2 ^ 31)); lia.
Qed.

Lemma s32_small z : - 2 ^ 31 <= z < 2 ^ 31 -> s32 z = z.
Proof.
  intros H. unfold s32, u32.
  destruct (decide (0 <= z)) as [Hz|Hz].
  - rewrite Z.mod_small by lia. destruct (Z.ltb_spec z (2 ^ 31)); lia.
  - replace (z mod 2 ^ 32) with (z + 2 ^ 32).
    + destruct (Z.ltb_spec (z + 2 ^ 32) (2 ^ 31)); lia.
    + apply Z.mod_unique with (q := -1); lia.
Qed.

(** ** Lemmas on bits *)

Lemma has_bit w n : 0 <= n -> has w (2 ^ n) = Z.testbit w n.
Proof.
  intros Hn. unfold has.
  destruct (Z.testbit w n) eqn:E.
  - apply negb_true_iff, Z.eqb_neq. intros H.
    assert (Hb : Z.testbit (Z.land w (2 ^ n)) n = false)
      by (rewrite H; apply Z.bits_0).
    rewrite Z.land_spec, E, Z.pow2_bits_true in Hb by lia. done.
  - apply negb_false_iff, Z.eqb_eq, Z.bits_inj'. intros k Hk.
    rewrite Z.land_spec, Z.bits_0, Z.pow2_bits_eqb by lia.
    destruct (Z.eqb_spec n k) as [<-|]; [by rewrite E|apply andb_false_r].
Qed.

(** ** Lemmas on [find_idx] *)

Lemma find_idx_Some {A} (f : A -> bool) (l : list A) i :
  find_idx f l = Some i <->
  exists x, l !! i = Some x /\ f x = true /\
    forall j y, (j < i)%nat -> l !! j = Some y -> f y = false.
Proof.
  revert i. induction l as [|x l IH]; intros i; simpl.
  - split; [done|]. intros (x & H & _). by rewrite lookup_nil in H.
  - destruct (f x) eqn:Hx.
    + split.
      * intros [= <-]. exists x. repeat split; auto. intros; lia.
      * intros (y & Hy & Hfy & Hlt). destruct i as [|i]; [done|].
        specialize (Hlt 0%nat x ltac:(lia) eq_refl). congruence.
    + rewrite fmap_Some. split.
      * intros (k & Hk & ->). apply IH in Hk as (y & Hy & Hfy & Hlt).
        exists y. repeat split; auto.
        intros [|j] z Hj Hz; simpl in *; [congruence|].
        apply (Hlt j z); [lia|done].
      * intros (y & Hy & Hfy & Hlt). destruct i as [|i].
        { simpl in Hy. congruence. }
        exists i. split; [|done]. apply IH. exists y.
        repeat split; auto. intros j z Hj Hz.
        apply (Hlt (S j) z); [lia|done].
Qed.

Lemma find_idx_None {A} (f : A -> bool) (l : list A) :
  find_idx f l = None <-> forall i x, l !! i = Some x -> f x = false.
Proof.
  induction l as [|x l IH]; simpl.
  - split; [|done]. intros _ i x H. by rewrite lookup_nil in H.
  - destruct (f x) eqn:Hx.
    + split; [done|]. intros H. specialize (H 0%nat x eq_refl). congruence.
    + rewrite fmap_None, IH. split.
      * intros H [|i] y Hy; simpl in *; [congruence|]. eauto.
      * intros H i y Hy. apply (H (S i) y Hy).
Qed.

Lemma find_idx_lt {A} (f : A -> bool) (l : list A) i :
  find_idx f l = Some i -> (i < length l)%nat.
Proof.
  intros (x & Hx & _)%find_idx_Some. by eapply lookup_lt_Some.
Qed.

(** ** Table updates *)

Lemma alter_at {A} `{Inhabited A} (f : A -> A) (l : list A) i j :
  (i < length l)%nat ->
  alter f i l !!! j = if decide (i = j) then f (l !!! i) else l !!! j.
Proof.
  intros Hi. rewrite list_lookup_total_alter.
  destruct (decide (i = j)) as [->|Hne].
  - by rewrite decide_True.
  - rewrite decide_False; [done|]. by intros [? _].
Qed.

Lemma alter_at_eq {A} `{Inhabited A} (f : A -> A) (l : list A) i :
  (i < length l)%nat -> alter f i l !!! i = f (l !!! i).
Proof. intros Hi. rewrite alter_at by done. by rewrite decide_True. Qed.

Lemma alter_at_ne {A} `{Inhabited A} (f : A -> A) (l : list A) i j :
  i <> j -> alter f i l !!! j = l !!! j.
Proof.
  intros Hne. rewrite list_lookup_total_alter. rewrite decide_False; [done|].
  by intros [? _].
Qed.

Lemma alter_alter {A} (f g : A -> A) (l : list A) i :
  alter f i (alter g i l) = alter (fun x => f (g x)) i l.
Proof.
  apply list_eq. intros j. destruct (decide (i = j)) as [<-|Hne].
  - rewrite !list_lookup_alter_eq. by destruct (l !! i).
  - by rewrite !list_lookup_alter_ne.
Qed.

Lemma alter_ext {A} `{Inhabited A} (f g : A -> A) (l : list A) i :
  f (l !!! i) = g (l !!! i) -> alter f i l = alter g i l.
Proof.
  intros H'. apply list_alter_ext; [|done]. intros x Hx.
  by rewrite (list_lookup_total_correct _ _ _ Hx) in H'.
Qed.

Lemma alter_id {A} `{Inhabited A} (f : A -> A) (l : list A) i :
  f (l !!! i) = l !!! i -> alter f i l = l.
Proof.
  intros H'. rewrite (alter_ext f id) by done. apply list_eq. intros j.
  destruct (decide (i = j)) as [<-|Hne].
  - rewrite list_lookup_alter_eq. by destruct (l !! i).
  - by rewrite list_lookup_alter_ne.
Qed.

(** ** Counting

    [countZ p lo n] is the number of [a] in [lo, lo + n) with [p a]. *)

Fixpoint countZ (p : Z -> bool) (lo : Z) (n : nat) : Z :=
  match n with
  | O => 0
  | S n => (if p lo then 1 else 0) + countZ p (lo + 1) n
  end.

Lemma countZ_app p lo n m :
  countZ p lo (n + m) = countZ p lo n + countZ p (lo + Z.of_nat n) m.
Proof.
  revert lo. induction n as [|n IH]; intros lo; cbn [countZ Nat.add].
  - by rewrite Z.add_0_r.
  - rewrite IH. replace (lo + 1 + Z.of_nat n) with (lo + Z.of_nat (S n)) by lia. lia.
Qed.

Lemma countZ_ext p q lo n :
  (forall a, lo <= a < lo + Z.of_nat n -> p a = q a) -> countZ p lo n = countZ q lo n.
Proof.
  revert lo. induction n as [|n IH]; intros lo H; cbn [countZ]; [done|].
  rewrite H by lia. rewrite (IH (lo + 1)); [done|]. intros a Ha. apply H. lia.
Qed.

(** Changing one element of the range changes the count by one. *)
Lemma countZ_flip p q lo n b :
  lo <= b < lo + Z.of_nat n -> p b = true -> q b = false ->
  (forall a, lo <= a < lo + Z.of_nat n -> a <> b -> p a = q a) ->
  countZ p lo n = countZ q lo n + 1.
Proof.
  intros Hb Hp Hq Hpq.
  replace n with (Z.to_nat (b - lo) + S (n - S (Z.to_nat (b - lo))))%nat by lia.
  rewrite !countZ_app. cbn [countZ].
  replace (lo + Z.of_nat (Z.to_nat (b - lo))) with b by lia. rewrite Hp, Hq.
  rewrite (countZ_ext p q lo) by (intros a Ha; apply Hpq; lia).
  rewrite (countZ_ext p q (b + 1)) by (intros a Ha; apply Hpq; lia). lia.
Qed.
