(* ===== verification/Param.v ===== *)
(** * Constants and address arithmetic (param.h, traps.h, memlayout.h, mmu.h)

    The compile-time parameters of the kernel, the layout of kernel memory,
    the address macros of the x86 page tables, and the linker symbols the
    code refers to. *)

From S2P Require Import Prelude.

(** ** param.h *)

Definition NPROC : Z := 64.
Definition KSTACKSIZE : Z := 4096.
Definition NCPU : Z := 8.
Definition NOFILE : Z := 16.
Definition NFILE : Z := 100.
Definition NINODE : Z := 50.
Definition NDEV : Z := 10.
Definition ROOTDEV : Z := 1.
Definition MAXARG : Z := 32.
Definition MAXOPBLOCKS : Z := 10.
Definition LOGSIZE : Z := MAXOPBLOCKS * 3.
Definition NBUF : Z := MAXOPBLOCKS * 3.
Definition FSSIZE : Z := 1000.

(** ** fs.h and buf.h *)

Definition ROOTINO : Z := 1.
Definition BSIZE : Z := 512.
Definition NDIRECT : Z := 12.
Definition NINDIRECT : Z := BSIZE / 4.
Definition MAXFILE : Z := NDIRECT + NINDIRECT.
Definition DIRSIZ : Z := 14.
Definition BPB : Z := BSIZE * 8.
Definition B_VALID : Z := 0x2.
Definition B_DIRTY : Z := 0x4.

(** ** traps.h *)

Definition T_SYSCALL : Z := 64.
Definition T_IRQ0 : Z := 32.
Definition IRQ_TIMER : Z := 0.
Definition IRQ_KBD : Z := 1.
Definition IRQ_COM1 : Z := 4.
Definition IRQ_IDE : Z := 14.
Definition IRQ_ERROR : Z := 19.
Definition IRQ_SPURIOUS : Z := 31.

(** ** memlayout.h *)

Definition EXTMEM : Z := 0x100000.
Definition PHYSTOP : Z := 0xE000000.
Definition DEVSPACE : Z := 0xFE000000.
Definition KERNBASE : Z := 0x80000000.
Definition KERNLINK : Z := KERNBASE + EXTMEM.
Definition V2P (a : Z) : Z := u32 (a - KERNBASE).
Definition P2V (a : Z) : Z := u32 (a + KERNBASE).

(** ** mmu.h *)

Definition FL_IF : Z := 0x200.

(** ** Segments (mmu.h) *)

Definition SEG_KCODE : Z := 1.
Definition SEG_KDATA : Z := 2.
Definition SEG_UCODE : Z := 3.
Definition SEG_UDATA : Z := 4.
Definition SEG_TSS : Z := 5.
Definition NSEGS : Z := 6.
Definition DPL_USER : Z := 3.
Definition STA_X : Z := 0x8.
Definition STA_W : Z := 0x2.
Definition STA_R : Z := 0x2.
Definition STS_T32A : Z := 0x9.
Definition STS_IG32 : Z := 0xE.
Definition STS_TG32 : Z := 0xF.
Definition NPDENTRIES : Z := 1024.
Definition NPTENTRIES : Z := 1024.
Definition PGSIZE : Z := 4096.
Definition PTXSHIFT : Z := 12.
Definition PDXSHIFT : Z := 22.
Definition PDX (va : Z) : Z := Z.land (Z.shiftr va PDXSHIFT) 0x3FF.
Definition PTX (va : Z) : Z := Z.land (Z.shiftr va PTXSHIFT) 0x3FF.
Definition PGADDR (d t o : Z) : Z :=
  u32 (Z.lor (Z.lor (Z.shiftl d PDXSHIFT) (Z.shiftl t PTXSHIFT)) o).
Definition PGROUNDUP (sz : Z) : Z :=
  Z.land (u32 (sz + PGSIZE - 1)) (Z.lnot (PGSIZE - 1)).
Definition PGROUNDDOWN (a : Z) : Z := Z.land a (Z.lnot (PGSIZE - 1)).
Definition PTE_P : Z := 0x001.
Definition PTE_W : Z := 0x002.
Definition PTE_U : Z := 0x004.
Definition PTE_ADDR (pte : Z) : Z := Z.land pte (Z.lnot 0xFFF).
Definition PTE_FLAGS (pte : Z) : Z := Z.land pte 0xFFF.

(** ** Linker symbols

    [end] and [data] are placed by kernel.ld, which is not part of the C
    sources; the code relies on [end] lying above the kernel text. *)

Class Image := { img_end : Z; img_data : Z }.
Class ImageOk (I : Image) := {
  img_end_ok : KERNLINK < img_end <= KERNBASE + PHYSTOP;
  img_data_ok : KERNLINK < img_data < img_end;
  img_data_aligned : img_data mod PGSIZE = 0
}.

(** A kernel whose image is one megabyte long. *)
Definition demo_image : Image :=
  {| img_end := KERNLINK + 0x100000; img_data := KERNLINK + 0x8000 |}.

Lemma demo_image_ok : ImageOk demo_image.
Proof. split; vm_compute; auto; split; congruence. Qed.

(** Arithmetic with the constants above unfolded. *)
Ltac consts :=
  unfold PGSIZE, NPTENTRIES, NPDENTRIES, KERNLINK, KERNBASE, PHYSTOP, EXTMEM,
    DEVSPACE, KSTACKSIZE, NPROC, NOFILE, NFILE, NINODE, LOGSIZE, NBUF,
    MAXOPBLOCKS, FSSIZE, PTE_P, PTE_W, PTE_U in *.
Ltac clia := consts; lia.

(** ** Lemmas on the address macros *)

Lemma land_lnot_ones a n :
  0 <= n -> Z.land a (Z.lnot (Z.ones n)) = a - a mod 2 ^ n.
Proof.
  intros Hn. rewrite <- Z.ldiff_land, Z.ldiff_ones_r by lia.
  rewrite Z.shiftl_mul_pow2, Z.shiftr_div_pow2 by lia.
  pose proof (Z.div_mod a (2 ^ n) ltac:(lia)). lia.
Qed.

Lemma PGROUNDDOWN_mod a : PGROUNDDOWN a = a - a mod PGSIZE.
Proof. apply (land_lnot_ones a 12). lia. Qed.

Lemma PTE_ADDR_mod a : PTE_ADDR a = a - a mod PGSIZE.
Proof. apply (land_lnot_ones a 12). lia. Qed.

Lemma PTE_FLAGS_mod a : PTE_FLAGS a = a mod PGSIZE.
Proof. apply (Z.land_ones a 12). lia. Qed.

Lemma PGROUNDUP_mod sz :
  PGROUNDUP sz = u32 (sz + PGSIZE - 1) - u32 (sz + PGSIZE - 1) mod PGSIZE.
Proof. apply (land_lnot_ones _ 12). lia. Qed.

Lemma PGROUNDUP_spec sz :
  0 <= sz <= 2 ^ 32 - PGSIZE ->
  sz <= PGROUNDUP sz < sz + PGSIZE /\ PGROUNDUP sz mod PGSIZE = 0.
Proof.
  intros H. rewrite PGROUNDUP_mod. unfold PGSIZE in *.
  rewrite u32_small by lia.
  pose proof (Z.mod_pos_bound (sz + 4096 - 1) 4096 ltac:(lia)).
  split; [lia|]. rewrite Zminus_mod_idemp_r.
  by rewrite Z.sub_diag.
Qed.

Lemma PDX_div va : 0 <= va < 2 ^ 32 -> PDX va = va / 2 ^ 22.
Proof.
  intros H. unfold PDX. change 0x3FF with (Z.ones 10).
  rewrite Z.land_ones, Z.shiftr_div_pow2 by (unfold PDXSHIFT; lia).
  change PDXSHIFT with 22. apply Z.mod_small.
  split; [apply Z.div_pos; lia|]. apply Z.div_lt_upper_bound; lia.
Qed.

Lemma PTX_div va : PTX va = (va / 2 ^ 12) mod 2 ^ 10.
Proof.
  unfold PTX. change 0x3FF with (Z.ones 10).
  by rewrite Z.land_ones, Z.shiftr_div_pow2 by (unfold PTXSHIFT; lia).
Qed.

Lemma PDX_range va : 0 <= va < 2 ^ 32 -> 0 <= PDX va < NPDENTRIES.
Proof.
  intros H. rewrite PDX_div by done. unfold NPDENTRIES.
  split; [apply Z.div_pos; lia|]. apply Z.div_lt_upper_bound; lia.
Qed.

Lemma PTX_range va : 0 <= PTX va < NPTENTRIES.
Proof. rewrite PTX_div. apply (Z.mod_pos_bound _ (2 ^ 10)). lia. Qed.

(** The two indices and the offset determine the address. *)
Lemma va_split va :
  0 <= va < 2 ^ 32 ->
  va = PDX va * 2 ^ 22 + PTX va * 2 ^ 12 + va mod PGSIZE.
Proof.
  intros H. rewrite PDX_div, PTX_div by done. unfold PGSIZE.
  change (2 ^ 22) with (2 ^ 12 * 2 ^ 10). rewrite <- Z.div_div by lia.
  change 4096 with (2 ^ 12).
  pose proof (Z.div_mod va (2 ^ 12) ltac:(lia)).
  pose proof (Z.div_mod (va / 2 ^ 12) (2 ^ 10) ltac:(lia)). lia.
Qed.

(** A page-aligned address combined with flags below a page. *)
Lemma lor_aligned a f :
  a mod PGSIZE = 0 -> 0 <= f < PGSIZE -> Z.lor a f = a + f.
Proof.
  intros Ha Hf. symmetry. apply Z.add_nocarry_lor.
  apply Z.bits_inj'. intros n Hn. rewrite Z.land_spec, Z.bits_0.
  destruct (decide (n < 12)).
  - replace a with ((a / 2 ^ 12) * 2 ^ 12).
    + rewrite Z.mul_pow2_bits_low by lia. done.
    + change (2 ^ 12) with PGSIZE.
      pose proof (Z.div_mod a PGSIZE ltac:(done)). lia.
  - rewrite <- (Z.mod_small f (2 ^ 12)) by (unfold PGSIZE in *; lia).
    rewrite Z.mod_pow2_bits_high by lia. apply andb_false_r.
Qed.

Lemma PTE_ADDR_lor a f :
  a mod PGSIZE = 0 -> 0 <= f < PGSIZE -> PTE_ADDR (Z.lor a f) = a.
Proof.
  intros Ha Hf. rewrite lor_aligned, PTE_ADDR_mod by done.
  rewrite <- Zplus_mod_idemp_l, Ha. rewrite Z.mod_small; lia.
Qed.

Lemma PTE_FLAGS_lor a f :
  a mod PGSIZE = 0 -> 0 <= f < PGSIZE -> PTE_FLAGS (Z.lor a f) = f.
Proof.
  intros Ha Hf. rewrite lor_aligned, PTE_FLAGS_mod by done.
  rewrite <- Zplus_mod_idemp_l, Ha. rewrite Z.mod_small; lia.
Qed.
