(* ===== verification/Bytes.v ===== *)
(** * Little-endian fields of byte arrays

    Disk blocks hold C structures; a field of [k] bytes at offset [o] is read
    and written little-endian, as the x86 does. *)

From S2P Require Import Prelude.

Fixpoint to_le (k : nat) (v : Z) : list Z :=
  match k with
  | O => []
  | S k => u8 v :: to_le k (v / 2 ^ 8)
  end.

Fixpoint of_le (bs : list Z) : Z :=
  match bs with
  | [] => 0
  | b :: bs => b + 2 ^ 8 * of_le bs
  end.

Definition getn (k o : nat) (d : list Z) : Z := of_le (take k (drop o d)).
Definition setn (k o : nat) (v : Z) (d : list Z) : list Z :=
  take o d ++ to_le k v ++ drop (o + k) d.

Lemma to_le_length k v : length (to_le k v) = k.
Proof. revert v. induction k as [|k IH]; intros v; simpl; auto. Qed.

Lemma of_to_le k v : of_le (to_le k v) = v mod 2 ^ (8 * Z.of_nat k).
Proof.
  revert v. induction k as [|k IH]; intros v; cbn [to_le of_le].
  - by rewrite Z.mul_0_r, Z.mod_1_r.
  - rewrite IH. unfold u8.
    replace (8 * Z.of_nat (S k)) with (8 + 8 * Z.of_nat k) by lia.
    rewrite Z.pow_add_r by lia.
    rewrite Z.rem_mul_r by (try apply Z.pow_nonzero; try apply Z.pow_pos_nonneg; lia).
    lia.
Qed.

Lemma to_of_le bs :
  Forall (fun b => 0 <= b < 2 ^ 8) bs -> to_le (length bs) (of_le bs) = bs.
Proof.
  induction 1 as [|b bs Hb _ IH]; [done|]. cbn [length to_le of_le].
  assert (E1 : u8 (b + 2 ^ 8 * of_le bs) = b).
  { unfold u8. rewrite Z.mul_comm, Z.mod_add by lia. by apply Z.mod_small. }
  assert (E2 : (b + 2 ^ 8 * of_le bs) / 2 ^ 8 = of_le bs).
  { rewrite Z.mul_comm, Z.div_add by lia. rewrite Z.div_small by done. lia. }
  by rewrite E1, E2, IH.
Qed.

Lemma of_le_range bs :
  Forall (fun b => 0 <= b < 2 ^ 8) bs -> 0 <= of_le bs < 2 ^ (8 * Z.of_nat (length bs)).
Proof.
  induction 1 as [|b bs Hb _ IH]; cbn [length of_le]; [lia|].
  replace (8 * Z.of_nat (S (length bs))) with (8 + 8 * Z.of_nat (length bs)) by lia.
  rewrite Z.pow_add_r by lia. lia.
Qed.

Lemma setn_length k o v d : (o + k <= length d)%nat -> length (setn k o v d) = length d.
Proof.
  intros H. unfold setn. rewrite !length_app, length_take, to_le_length, length_drop. lia.
Qed.

Lemma getn_setn_eq k o v d :
  (o + k <= length d)%nat -> getn k o (setn k o v d) = v mod 2 ^ (8 * Z.of_nat k).
Proof.
  intros H. unfold getn, setn.
  rewrite drop_app_length' by (rewrite length_take; lia).
  rewrite take_app_length' by (symmetry; apply to_le_length). apply of_to_le.
Qed.

Lemma getn_setn_ne k o k' o' v d :
  (o + k <= length d)%nat -> (o' + k' <= o \/ o + k <= o')%nat ->
  getn k' o' (setn k o v d) = getn k' o' d.
Proof.
  intros H Hd. unfold getn. f_equal. apply list_eq. intros i.
  destruct (decide (i < k')%nat) as [Hi|Hi].
  - rewrite !lookup_take_lt, !lookup_drop by lia. unfold setn. destruct Hd as [Hd|Hd].
    + rewrite lookup_app_l by (rewrite length_take; lia). by rewrite lookup_take_lt by lia.
    + rewrite lookup_app_r by (rewrite length_take; lia).
      rewrite lookup_app_r by (rewrite to_le_length, length_take; lia).
      rewrite lookup_drop, to_le_length, length_take. f_equal. lia.
  - by rewrite !lookup_take_ge by lia.
Qed.

(** Words of a block: the block as an array of [uint]. *)
Definition getw (d : list Z) (i : nat) : Z := getn 4 (4 * i) d.
Definition setw (d : list Z) (i : nat) (v : Z) : list Z := setn 4 (4 * i) v d.

Lemma setw_length d i v : (4 * i + 4 <= length d)%nat -> length (setw d i v) = length d.
Proof. apply setn_length. Qed.

Lemma getw_setw d i v j :
  (4 * i + 4 <= length d)%nat ->
  getw (setw d i v) j = if decide (i = j) then u32 v else getw d j.
Proof.
  intros H. unfold getw, setw. destruct (decide (i = j)) as [<-|Hne].
  - by rewrite getn_setn_eq.
  - apply getn_setn_ne; [done|lia].
Qed.
