(* ===== verification/Sleeplock.v ===== *)
(** * Sleep locks (sleeplock.c)

    A sleep lock records whether it is held and the pid of the holder.  The
    spin lock inside it makes each operation atomic, so an operation is one
    function of the lock; [acquiresleep] on a held lock sleeps, which is the
    result [None]. *)

From S2P Require Import Prelude.

Record sleeplock := { sl_locked : bool; sl_pid : Z }.

Definition initsleeplock : sleeplock := {| sl_locked := false; sl_pid := 0 |}.

Definition acquiresleep (lk : sleeplock) (pid : Z) : option sleeplock :=
  if sl_locked lk then None else Some {| sl_locked := true; sl_pid := pid |}.

Definition releasesleep (lk : sleeplock) : sleeplock :=
  {| sl_locked := false; sl_pid := 0 |}.

Definition holdingsleep (lk : sleeplock) (pid : Z) : bool :=
  sl_locked lk && (sl_pid lk =? pid).
