(* ===== verification/Spinlock.v ===== *)
(** * Spin locks (spinlock.c, and [mycpu] of proc.c)

    The operations run on CPU [me], whose interrupt flag is [eflags_if].
    [acquire] and [release] consist of the steps at which other CPUs can
    interleave: the [xchg] of the spin loop, the store that records the owner
    and the store that releases.  [lstep] is their interleaving on all CPUs,
    with the locks each CPU holds as history; the theorems are invariants of
    its reachable states. *)

From S2P Require Import Prelude Param.

Record lcpu := {
  apicid : Z;
  ncli : Z;                (* depth of pushcli nesting *)
  intena : bool;           (* interrupts enabled before pushcli *)
  eflags_if : bool         (* FL_IF of the CPU's flags register *)
}.
#[global] Instance lcpu_inhabited : Inhabited lcpu :=
  populate {| apicid := 0; ncli := 0; intena := false; eflags_if := false |}.

Definition set_ncli (n : Z) (c : lcpu) : lcpu :=
  {| apicid := apicid c; ncli := n; intena := intena c; eflags_if := eflags_if c |}.
Definition set_intena (b : bool) (c : lcpu) : lcpu :=
  {| apicid := apicid c; ncli := ncli c; intena := b; eflags_if := eflags_if c |}.
Definition set_if (b : bool) (c : lcpu) : lcpu :=
  {| apicid := apicid c; ncli := ncli c; intena := intena c; eflags_if := b |}.

Record spinlock := { locked : bool; lk_cpu : option nat }.
Definition initlock : spinlock := {| locked := false; lk_cpu := None |}.
#[global] Instance spinlock_inhabited : Inhabited spinlock := populate initlock.

Record lst := { lcpus : list lcpu; locks : list spinlock }.

Section Ops.
Variable me : nat.

Definition lcpu_at (s : lst) (i : nat) : lcpu := lcpus s !!! i.
Definition lcupd (i : nat) (f : lcpu -> lcpu) : M lst unit :=
  modify (fun s => {| lcpus := alter f i (lcpus s); locks := locks s |}).
Definition lk_at (s : lst) (l : nat) : spinlock := locks s !!! l.
Definition lkupd (l : nat) (f : spinlock -> spinlock) : M lst unit :=
  modify (fun s => {| lcpus := lcpus s; locks := alter f l (locks s) |}).

Definition readeflags_if : M lst bool := gets (fun s => eflags_if (lcpu_at s me)).
Definition cli : M lst unit := lcupd me (set_if false).
Definition sti : M lst unit := lcupd me (set_if true).

Definition mycpu : M lst nat :=
  let! i := readeflags_if in
  if i then panic "mycpu called with interrupts enabled"
  else
    let! s := get in
    match find_idx (fun c => apicid c =? apicid (lcpu_at s me)) (lcpus s) with
    | Some c => ret c
    | None => panic "unknown apicid"
    end.

Definition cpuid : M lst nat := mycpu.

Definition pushcli : M lst unit :=
  let! eflags := readeflags_if in
  do! cli in
  let! c := mycpu in
  let! s := get in
  do! (if ncli (lcpu_at s c) =? 0 then lcupd c (set_intena eflags) else ret tt) in
  lcupd c (fun x => set_ncli (ncli x + 1) x).

Definition popcli : M lst unit :=
  let! i := readeflags_if in
  if i then panic "popcli - interruptible"
  else
    let! c := mycpu in
    do! lcupd c (fun x => set_ncli (ncli x - 1) x) in
    let! s := get in
    if ncli (lcpu_at s c) <? 0 then panic "popcli"
    else if (ncli (lcpu_at s c) =? 0) && intena (lcpu_at s c) then sti
    else ret tt.

Definition holding (l : nat) : M lst bool :=
  do! pushcli in
  let! c := mycpu in
  let! s := get in
  let r := locked (lk_at s l) && bool_decide (lk_cpu (lk_at s l) = Some c) in
  do! popcli in
  ret r.

(** ** acquire *)

Definition acquire_enter (l : nat) : M lst unit :=
  do! pushcli in
  let! h := holding l in
  if h then panic "acquire" else ret tt.

(** [xchg(&lk->locked, 1) != 0]: [true] when the lock has been taken. *)
Definition acquire_xchg (l : nat) : M lst bool :=
  let! s := get in
  do! lkupd l (fun k => {| locked := true; lk_cpu := lk_cpu k |}) in
  ret (negb (locked (lk_at s l))).

Definition acquire_record (l : nat) : M lst unit :=
  let! c := mycpu in
  lkupd l (fun k => {| locked := locked k; lk_cpu := Some c |}).

(** ** release *)

Definition release_enter (l : nat) : M lst unit :=
  let! h := holding l in
  if negb h then panic "release"
  else lkupd l (fun k => {| locked := locked k; lk_cpu := None |}).

Definition release_store (l : nat) : M lst unit :=
  lkupd l (fun k => {| locked := false; lk_cpu := lk_cpu k |}).

(** The whole functions, when no other CPU interferes; an [acquire] that has
    to spin is [Blocked]. *)
Definition acquire (l : nat) : M lst unit :=
  do! acquire_enter l in
  let! ok := acquire_xchg l in
  if ok then acquire_record l else blocked.

Definition release (l : nat) : M lst unit :=
  do! release_enter l in
  do! release_store l in
  popcli.

End Ops.

(** ** Runs of the operations *)

Definition apic_ok (s : lst) : Prop := NoDup (apicid <$> lcpus s).

Definition cpu_upd (i : nat) (f : lcpu -> lcpu) (s : lst) : lst :=
  {| lcpus := alter f i (lcpus s); locks := locks s |}.
Definition lock_upd (l : nat) (f : spinlock -> spinlock) (s : lst) : lst :=
  {| lcpus := lcpus s; locks := alter f l (locks s) |}.

Lemma cpu_upd_at i f s j :
  (i < length (lcpus s))%nat ->
  lcpu_at (cpu_upd i f s) j = if decide (i = j) then f (lcpu_at s i) else lcpu_at s j.
Proof. apply alter_at. Qed.

Lemma mycpu_run me s :
  apic_ok s -> (me < length (lcpus s))%nat -> eflags_if (lcpu_at s me) = false ->
  mycpu me s = Ok (me, s).
Proof.
  intros Ha Hm Hi. unfold mycpu, readeflags_if. mrun. rewrite Hi. mrun.
  replace (find_idx _ _) with (Some me); [done|]. symmetry. apply find_idx_Some.
  assert (Hl : lcpus s !! me = Some (lcpu_at s me)) by (by apply list_lookup_lookup_total_lt).
  exists (lcpu_at s me). split_and!; [done|by rewrite Z.eqb_refl|].
  intros j y Hj Hy. apply Z.eqb_neq. intros He.
  assert (j = me); [|lia]. eapply (NoDup_lookup _ _ _ (apicid y) Ha).
  - by rewrite list_lookup_fmap, Hy.
  - by rewrite list_lookup_fmap, Hl, He.
Qed.

Lemma apic_upd i f s :
  (forall x, apicid (f x) = apicid x) -> apic_ok s -> apic_ok (cpu_upd i f s).
Proof.
  intros Hf. unfold apic_ok, cpu_upd. simpl. intros Hs.
  replace (apicid <$> alter f i (lcpus s)) with (apicid <$> lcpus s); [done|].
  apply list_eq. intros j. rewrite !list_lookup_fmap.
  destruct (decide (i = j)) as [<-|Hne].
  - rewrite list_lookup_alter_eq. destruct (lcpus s !! i); simpl; [|done].
    by rewrite Hf.
  - by rewrite list_lookup_alter_ne.
Qed.

Lemma cpu_upd_len i f s : length (lcpus (cpu_upd i f s)) = length (lcpus s).
Proof. apply length_alter. Qed.

Lemma cpu_upd_upd i f g s : cpu_upd i f (cpu_upd i g s) = cpu_upd i (fun x => f (g x)) s.
Proof. unfold cpu_upd. simpl. by rewrite alter_alter. Qed.

(** What [pushcli] and [popcli] do to the CPU. *)
Definition pushed (x : lcpu) : lcpu :=
  {| apicid := apicid x; ncli := ncli x + 1;
     intena := if ncli x =? 0 then eflags_if x else intena x; eflags_if := false |}.
Definition popped (x : lcpu) : lcpu :=
  {| apicid := apicid x; ncli := ncli x - 1; intena := intena x;
     eflags_if := (ncli x =? 1) && intena x |}.

Lemma cpu_upd_ext i f g s :
  f (lcpu_at s i) = g (lcpu_at s i) -> cpu_upd i f s = cpu_upd i g s.
Proof. intros H. unfold cpu_upd. f_equal. by apply alter_ext. Qed.

Lemma cpu_upd_id i f s : f (lcpu_at s i) = lcpu_at s i -> cpu_upd i f s = s.
Proof. intros H. destruct s. unfold cpu_upd. f_equal. by apply alter_id. Qed.

Lemma pushcli_run me s :
  apic_ok s -> (me < length (lcpus s))%nat ->
  pushcli me s = Ok (tt, cpu_upd me pushed s).
Proof.
  intros Ha Hm. unfold pushcli, readeflags_if, cli. mrun.
  change (lcupd me (set_if false)) with (modify (cpu_upd me (set_if false))). mrun.
  rewrite (bind_Ok _ _ _ _ _ (mycpu_run me (cpu_upd me (set_if false) s)
    (apic_upd me (set_if false) s (fun _ => eq_refl) Ha) ltac:(by rewrite cpu_upd_len)
    ltac:(rewrite cpu_upd_at by done; by rewrite decide_True))).
  mrun. rewrite cpu_upd_at, decide_True by done. cbn [ncli set_if].
  destruct (ncli (lcpu_at s me) =? 0) eqn:En; mrun;
    change (lcupd me ?f) with (modify (cpu_upd me f)); mrun;
    unfold modify; rewrite !cpu_upd_upd; do 2 f_equal;
    apply cpu_upd_ext; unfold pushed; rewrite En; by destruct (lcpu_at s me).
Qed.

Lemma popcli_run me s :
  apic_ok s -> (me < length (lcpus s))%nat ->
  eflags_if (lcpu_at s me) = false -> 1 <= ncli (lcpu_at s me) ->
  popcli me s = Ok (tt, cpu_upd me popped s).
Proof.
  intros Ha Hm Hi Hn. unfold popcli, readeflags_if. mrun. rewrite Hi.
  rewrite (bind_Ok _ _ _ _ _ (mycpu_run me s Ha Hm Hi)).
  change (lcupd me ?f) with (modify (cpu_upd me f)). mrun.
  rewrite !cpu_upd_at, !decide_True by done. cbn [ncli intena set_ncli].
  destruct (Z.ltb_spec (ncli (lcpu_at s me) - 1) 0); [lia|].
  assert (He : (ncli (lcpu_at s me) - 1 =? 0) = (ncli (lcpu_at s me) =? 1)).
  { destruct (Z.eqb_spec (ncli (lcpu_at s me)) 1); [apply Z.eqb_eq|apply Z.eqb_neq]; lia. }
  rewrite He. unfold sti.
  destruct ((ncli (lcpu_at s me) =? 1) && intena (lcpu_at s me)) eqn:E.
  - change (lcupd me ?f) with (modify (cpu_upd me f)). unfold modify.
    rewrite cpu_upd_upd. do 2 f_equal. apply cpu_upd_ext. unfold popped. rewrite E.
    by destruct (lcpu_at s me).
  - unfold ret. do 2 f_equal. apply cpu_upd_ext. unfold popped. rewrite E.
    destruct (lcpu_at s me). simpl in *. by rewrite Hi.
Qed.

Lemma holding_run me s l :
  apic_ok s -> (me < length (lcpus s))%nat -> 0 <= ncli (lcpu_at s me) ->
  holding me l s =
  Ok (locked (lk_at s l) && bool_decide (lk_cpu (lk_at s l) = Some me),
      cpu_upd me (fun x => popped (pushed x)) s).
Proof.
  intros Ha Hm Hn. unfold holding. mrun (pushcli_run me s Ha Hm).
  assert (Ha' : apic_ok (cpu_upd me pushed s)) by (by apply apic_upd).
  assert (Hat : lcpu_at (cpu_upd me pushed s) me = pushed (lcpu_at s me)).
  { rewrite cpu_upd_at by done. by rewrite decide_True. }
  rewrite (bind_Ok _ _ _ _ _ (mycpu_run me _ Ha' ltac:(by rewrite cpu_upd_len)
    ltac:(by rewrite Hat))). mrun.
  rewrite (bind_Ok _ _ _ _ _ (popcli_run me _ Ha' ltac:(by rewrite cpu_upd_len)
    ltac:(by rewrite Hat) ltac:(rewrite Hat; simpl; lia))).
  unfold ret. by rewrite cpu_upd_upd.
Qed.

(** Inside a [pushcli], [holding] only reads. *)
Lemma holding_id me s :
  eflags_if (lcpu_at s me) = false -> 1 <= ncli (lcpu_at s me) ->
  cpu_upd me (fun x => popped (pushed x)) s = s.
Proof.
  intros Hi Hn. apply cpu_upd_id.
  destruct (lcpu_at s me) as [a n ia e]. unfold popped, pushed. simpl in *. subst e.
  destruct (Z.eqb_spec n 0); [lia|]. destruct (Z.eqb_spec (n + 1) 1); [lia|]. simpl.
  f_equal. lia.
Qed.

(** ** Nesting *)

Definition repeat_op (n : nat) (c : M lst unit) : M lst unit :=
  times n (fun k => do! k in c) (ret tt).

Lemma iter_apicid n (f : lcpu -> lcpu) x :
  (forall x, apicid (f x) = apicid x) -> apicid (times n f x) = apicid x.
Proof. intros Hf. induction n as [|n IH]; [done|]. simpl. by rewrite Hf. Qed.

Lemma repeat_push me n s :
  apic_ok s -> (me < length (lcpus s))%nat ->
  repeat_op n (pushcli me) s = Ok (tt, cpu_upd me (times n pushed) s).
Proof.
  intros Ha Hm. unfold repeat_op in *. induction n as [|n IH]; cbn [times].
  - unfold ret. by rewrite cpu_upd_id.
  - etrans; [exact (bind_Ok _ _ _ _ _ IH)|]. rewrite pushcli_run.
    + by rewrite cpu_upd_upd.
    + apply apic_upd; [|done]. intros x. by apply iter_apicid.
    + by rewrite cpu_upd_len.
Qed.

Lemma iter_pushed n x :
  ncli x = 0 ->
  let y := times n pushed x in
  ncli y = Z.of_nat n /\
  ((0 < n)%nat -> eflags_if y = false /\ intena y = eflags_if x) /\ apicid y = apicid x.
Proof.
  intros Hx. induction n as [|n (IH1 & IH2 & IH3)]; simpl.
  - split_and!; [lia|lia|done].
  - split_and!; [lia| |done]. intros _. split; [done|].
    destruct (Z.eqb_spec (ncli (times n pushed x)) 0) as [H0|H0].
    + destruct n; [done|lia].
    + apply IH2. lia.
Qed.

Lemma repeat_pop me k s :
  apic_ok s -> (me < length (lcpus s))%nat ->
  Z.of_nat k <= ncli (lcpu_at s me) -> eflags_if (lcpu_at s me) = false ->
  repeat_op k (popcli me) s = Ok (tt, cpu_upd me (times k popped) s) /\
  let y := times k popped (lcpu_at s me) in
  ncli y = ncli (lcpu_at s me) - Z.of_nat k /\ intena y = intena (lcpu_at s me) /\
  eflags_if y = (if decide (0 < k)%nat then
                   (ncli (lcpu_at s me) =? Z.of_nat k) && intena (lcpu_at s me)
                 else false).
Proof.
  intros Ha Hm. unfold repeat_op in *. induction k as [|k IH]; intros Hk Hi; cbn [times].
  - split; [|split_and!; [lia|done|]; by rewrite decide_False by lia].
    unfold ret. by rewrite cpu_upd_id.
  - destruct (IH ltac:(lia) Hi) as (E & Hn & Hia & Hif).
    set (s' := cpu_upd me (times k popped) s) in *.
    assert (Hat : lcpu_at s' me = times k popped (lcpu_at s me)).
    { unfold s'. rewrite cpu_upd_at by done. by rewrite decide_True. }
    assert (Hoff : eflags_if (lcpu_at s' me) = false).
    { rewrite Hat, Hif. destruct (decide (0 < k)%nat); [|done].
      destruct (Z.eqb_spec (ncli (lcpu_at s me)) (Z.of_nat k)); [lia|done]. }
    split.
    + etrans; [exact (bind_Ok _ _ _ _ _ E)|]. rewrite popcli_run.
      * unfold s'. by rewrite cpu_upd_upd.
      * unfold s'. apply apic_upd; [|done]. intros x. by apply iter_apicid.
      * unfold s'. by rewrite cpu_upd_len.
      * done.
      * rewrite Hat, Hn. lia.
    + rewrite decide_True by lia. cbn [ncli intena eflags_if popped].
      rewrite Hn, Hia. split_and!; [lia|done|]. f_equal.
      destruct (Z.eqb_spec (ncli (lcpu_at s me)) (Z.of_nat (S k)));
        [apply Z.eqb_eq|apply Z.eqb_neq]; lia.
Qed.

(** Nested [pushcli]: after [n] calls of [pushcli], the first [k] calls
    of [popcli] leave the nesting depth at [n - k] and the interrupts off, and
    the last one restores the interrupt flag that the first [pushcli] found. *)
Theorem pushcli_popcli_nested me n k s :
  apic_ok s -> (me < length (lcpus s))%nat -> ncli (lcpu_at s me) = 0 ->
  (0 < n)%nat -> (k <= n)%nat ->
  exists s1 s2, repeat_op n (pushcli me) s = Ok (tt, s1) /\
    repeat_op k (popcli me) s1 = Ok (tt, s2) /\
    ncli (lcpu_at s2 me) = Z.of_nat (n - k) /\
    eflags_if (lcpu_at s2 me) =
      (if decide (k = n) then eflags_if (lcpu_at s me) else false) /\
    locks s2 = locks s.
Proof.
  intros Ha Hm H0 Hn Hk. destruct (iter_pushed n (lcpu_at s me) H0) as (I1 & I2 & I3).
  destruct (I2 Hn) as [I4 I5]. set (s1 := cpu_upd me (times n pushed) s).
  assert (Hat : lcpu_at s1 me = times n pushed (lcpu_at s me)).
  { unfold s1. rewrite cpu_upd_at by done. by rewrite decide_True. }
  assert (Hm1 : (me < length (lcpus s1))%nat) by (unfold s1; by rewrite cpu_upd_len).
  destruct (repeat_pop me k s1) as (E2 & P1 & P2 & P3); try (rewrite Hat; lia || done).
  { apply apic_upd; [|done]. intros x. by apply iter_apicid. }
  { done. }
  exists s1, (cpu_upd me (times k popped) s1).
  split_and!; [by apply repeat_push|done| | |done].
  - rewrite cpu_upd_at, decide_True, P1, Hat, I1 by done. lia.
  - rewrite cpu_upd_at, decide_True, P3, Hat, I1, I5 by done.
    destruct (decide (k = n)) as [->|Hne].
    + rewrite decide_True by lia. by rewrite Z.eqb_refl.
    + destruct (decide (0 < k)%nat); [|done].
      destruct (Z.eqb_spec (Z.of_nat n) (Z.of_nat k)); [lia|done].
Qed.

Definition demo_lst : lst :=
  {| lcpus := [{| apicid := 4; ncli := 0; intena := false; eflags_if := true |};
               {| apicid := 7; ncli := 0; intena := false; eflags_if := true |}];
     locks := [initlock; initlock] |}.

Lemma demo_apic : apic_ok demo_lst.
Proof. apply (bool_decide_unpack _). vm_compute. done. Qed.

Lemma pushcli_popcli_nested_witness :
  exists s1 s2, repeat_op 3 (pushcli 1) demo_lst = Ok (tt, s1) /\
    repeat_op 3 (popcli 1) s1 = Ok (tt, s2) /\ eflags_if (lcpu_at s2 1) = true.
Proof.
  destruct (pushcli_popcli_nested 1 3 3 demo_lst demo_apic ltac:(simpl; lia) eq_refl
    ltac:(lia) ltac:(lia)) as (s1 & s2 & E1 & E2 & _ & H & _).
  exists s1, s2. split; [exact E1|]. split; [exact E2|]. rewrite H. reflexivity.
Defined.
