(* ===== verification/Seg.v ===== *)
(** * Segments, task state and gates (mmu.h, vm.c: seginit and the descriptors
    of switchuvm, trap.c: tvinit, idtinit)

    The descriptors are structures of bit-fields, packed from the low bit up as
    the compiler lays them out; a value stored in a field keeps its low bits.
    The processor's side: how it reads a descriptor, and what it does on an
    interrupt and on the use of a port. *)

From Stdlib Require Import ZifyNat.
From S2P Require Import Prelude Param Bytes Spinlock.

(** ** Layout *)

(** Bit-fields with their widths, from the low bit up. *)
Fixpoint pack (fs : list (Z * Z)) : Z :=
  match fs with
  | [] => 0
  | (w, v) :: fs => v mod 2 ^ w + 2 ^ w * pack fs
  end.

Record segdesc := {
  lim_15_0 : Z; base_15_0 : Z; base_23_16 : Z; sd_type : Z; sd_s : Z; sd_dpl : Z; sd_p : Z;
  lim_19_16 : Z; avl : Z; sd_rsv1 : Z; db : Z; g : Z; base_31_24 : Z
}.

Definition segdesc_word (d : segdesc) : Z :=
  pack [(16, lim_15_0 d); (16, base_15_0 d); (8, base_23_16 d); (4, sd_type d); (1, sd_s d);
        (2, sd_dpl d); (1, sd_p d); (4, lim_19_16 d); (1, avl d); (1, sd_rsv1 d); (1, db d);
        (1, g d); (8, base_31_24 d)].

Definition SEG (type base lim dpl : Z) : segdesc :=
  {| lim_15_0 := Z.land (Z.shiftr lim 12) 0xffff; base_15_0 := Z.land (u32 base) 0xffff;
     base_23_16 := Z.land (Z.shiftr (u32 base) 16) 0xff; sd_type := type; sd_s := 1;
     sd_dpl := dpl; sd_p := 1; lim_19_16 := Z.shiftr (u32 lim) 28; avl := 0; sd_rsv1 := 0;
     db := 1; g := 1; base_31_24 := Z.shiftr (u32 base) 24 |}.

Definition SEG16 (type base lim dpl : Z) : segdesc :=
  {| lim_15_0 := Z.land lim 0xffff; base_15_0 := Z.land (u32 base) 0xffff;
     base_23_16 := Z.land (Z.shiftr (u32 base) 16) 0xff; sd_type := type; sd_s := 1;
     sd_dpl := dpl; sd_p := 1; lim_19_16 := Z.shiftr (u32 lim) 16; avl := 0; sd_rsv1 := 0;
     db := 1; g := 0; base_31_24 := Z.shiftr (u32 base) 24 |}.

Definition set_type (v : Z) (d : segdesc) : segdesc :=
  {| lim_15_0 := lim_15_0 d; base_15_0 := base_15_0 d; base_23_16 := base_23_16 d;
     sd_type := v; sd_s := sd_s d; sd_dpl := sd_dpl d; sd_p := sd_p d;
     lim_19_16 := lim_19_16 d; avl := avl d; sd_rsv1 := sd_rsv1 d; db := db d; g := g d;
     base_31_24 := base_31_24 d |}.
Definition set_s (v : Z) (d : segdesc) : segdesc :=
  {| lim_15_0 := lim_15_0 d; base_15_0 := base_15_0 d; base_23_16 := base_23_16 d;
     sd_type := sd_type d; sd_s := v; sd_dpl := sd_dpl d; sd_p := sd_p d;
     lim_19_16 := lim_19_16 d; avl := avl d; sd_rsv1 := sd_rsv1 d; db := db d; g := g d;
     base_31_24 := base_31_24 d |}.

(** The fields of [struct taskstate] and their sizes. *)
Definition taskstate : list (string * nat) :=
  [("link", 4); ("esp0", 4); ("ss0", 2); ("padding1", 2); ("esp1", 4); ("ss1", 2);
   ("padding2", 2); ("esp2", 4); ("ss2", 2); ("padding3", 2); ("cr3", 4); ("eip", 4);
   ("eflags", 4); ("eax", 4); ("ecx", 4); ("edx", 4); ("ebx", 4); ("esp", 4); ("ebp", 4);
   ("esi", 4); ("edi", 4); ("es", 2); ("padding4", 2); ("cs", 2); ("padding5", 2);
   ("ss", 2); ("padding6", 2); ("ds", 2); ("padding7", 2); ("fs", 2); ("padding8", 2);
   ("gs", 2); ("padding9", 2); ("ldt", 2); ("padding10", 2); ("t", 2); ("iomb", 2)]%nat.

Definition sizeof_taskstate : nat := sum_list (snd <$> taskstate).

(** A field's offset and size: a field is at a multiple of its size. *)
Fixpoint field_at (fs : list (string * nat)) (name : string) (off : nat) : option (nat * nat) :=
  match fs with
  | [] => None
  | (f, k) :: fs =>
      let off := ((off + k - 1) / k * k)%nat in
      if String.eqb f name then Some (off, k) else field_at fs name (off + k)
  end.

Definition set_field (name : string) (v : Z) (ts : list Z) : list Z :=
  match field_at taskstate name 0 with
  | Some (o, k) => setn k o v ts
  | None => ts
  end.

Record gatedesc := {
  off_15_0 : Z; gd_cs : Z; gd_args : Z; gd_rsv1 : Z; gd_type : Z; gd_s : Z; gd_dpl : Z;
  gd_p : Z; off_31_16 : Z
}.

Definition gatedesc_word (d : gatedesc) : Z :=
  pack [(16, off_15_0 d); (16, gd_cs d); (5, gd_args d); (3, gd_rsv1 d); (4, gd_type d);
        (1, gd_s d); (2, gd_dpl d); (1, gd_p d); (16, off_31_16 d)].

Definition SETGATE (istrap : bool) (sel off d : Z) : gatedesc :=
  {| off_15_0 := Z.land (u32 off) 0xffff; gd_cs := sel; gd_args := 0; gd_rsv1 := 0;
     gd_type := if istrap then STS_TG32 else STS_IG32; gd_s := 0; gd_dpl := d; gd_p := 1;
     off_31_16 := Z.shiftr (u32 off) 16 |}.

(** ** How the processor reads a segment descriptor *)

(** Bits [lo] up to [lo + n] of a word. *)
Definition bits (q lo n : Z) : Z := q / 2 ^ lo mod 2 ^ n.

(** A segment: its base, its last offset, whether it is a code or data
    segment, its type and its privilege level. *)
Record segment := {
  sg_base : Z; sg_last : Z; sg_app : bool; sg_type : Z; sg_dpl : Z
}.

Definition read_segment (q : Z) : option segment :=
  if bits q 47 1 =? 0 then None
  else
    let lim := bits q 0 16 + 2 ^ 16 * bits q 48 4 in
    Some {| sg_base := bits q 16 16 + 2 ^ 16 * bits q 32 8 + 2 ^ 24 * bits q 56 8;
            sg_last := if bits q 55 1 =? 0 then lim else 2 ^ 12 * lim + 0xfff;
            sg_app := bits q 44 1 =? 1; sg_type := bits q 40 4; sg_dpl := bits q 45 2 |}.

(** ** Code *)

(** One CPU's tables and registers, and the table of interrupts; [pd] is the
    operand of the last [lgdt] or [lidt]. *)
Record segst := {
  gdt : list segdesc;
  ts : list Z;
  gdtr : list Z;
  tr : option segment;       (* the task state segment in use *)
  idt : list gatedesc;
  idtr : list Z;
  tickslock : spinlock
}.

Section Code.
(** The addresses of [c->gdt], [c->ts] and [idt], and the entry points of
    vectors.S. *)
Context (gdt_addr ts_addr idt_addr : Z) (vectors : list Z).

Definition set_gdt (i : Z) (d : segdesc) : M segst unit :=
  modify (fun s => {| gdt := <[Z.to_nat i := d]> (gdt s); ts := ts s; gdtr := gdtr s; tr := tr s;
                      idt := idt s; idtr := idtr s; tickslock := tickslock s |}).
Definition set_ts (f : list Z -> list Z) : M segst unit :=
  modify (fun s => {| gdt := gdt s; ts := f (ts s); gdtr := gdtr s; tr := tr s;
                      idt := idt s; idtr := idtr s; tickslock := tickslock s |}).
Definition set_idt (i : nat) (d : gatedesc) : M segst unit :=
  modify (fun s => {| gdt := gdt s; ts := ts s; gdtr := gdtr s; tr := tr s;
                      idt := <[i := d]> (idt s); idtr := idtr s; tickslock := tickslock s |}).

(** The operand: the size less one and the two halves of the address. *)
Definition pd (p size : Z) : list Z := [u16 (size - 1); u16 p; u16 (Z.shiftr (u32 p) 16)].
Definition lgdt (p size : Z) : M segst unit :=
  modify (fun s => {| gdt := gdt s; ts := ts s; gdtr := pd p size; tr := tr s;
                      idt := idt s; idtr := idtr s; tickslock := tickslock s |}).
Definition lidt (p size : Z) : M segst unit :=
  modify (fun s => {| gdt := gdt s; ts := ts s; gdtr := gdtr s; tr := tr s;
                      idt := idt s; idtr := pd p size; tickslock := tickslock s |}).

(** The instruction loads an available task state segment, and marks it busy in
    the table. *)
Definition ltr (sel : Z) : M segst unit :=
  let! s := get in
  match gdt s !! Z.to_nat (sel / 8) with
  | None => fault
  | Some d =>
      match read_segment (segdesc_word d) with
      | None => fault
      | Some t =>
          if sg_app t || negb (sg_type t =? 0x9) then fault
          else
            do! set_gdt (sel / 8) (set_type 0xB d) in
            modify (fun s => {| gdt := gdt s; ts := ts s; gdtr := gdtr s; tr := Some t;
                                idt := idt s; idtr := idtr s; tickslock := tickslock s |})
      end
  end.

Definition seginit : M segst unit :=
  do! set_gdt SEG_KCODE (SEG (Z.lor STA_X STA_R) 0 0xffffffff 0) in
  do! set_gdt SEG_KDATA (SEG STA_W 0 0xffffffff 0) in
  do! set_gdt SEG_UCODE (SEG (Z.lor STA_X STA_R) 0 0xffffffff DPL_USER) in
  do! set_gdt SEG_UDATA (SEG STA_W 0 0xffffffff DPL_USER) in
  lgdt gdt_addr (8 * NSEGS).

(** The task state of [switchuvm], for a kernel stack at [kstack]. *)
Definition load_tss (kstack : Z) : M segst unit :=
  do! set_gdt SEG_TSS (SEG16 STS_T32A ts_addr (Z.of_nat sizeof_taskstate - 1) 0) in
  let! s := get in
  match gdt s !! Z.to_nat SEG_TSS with
  | None => fault
  | Some d =>
      do! set_gdt SEG_TSS (set_s 0 d) in
      do! set_ts (set_field "ss0" (Z.shiftl SEG_KDATA 3)) in
      do! set_ts (set_field "esp0" (u32 (kstack + KSTACKSIZE))) in
      do! set_ts (set_field "iomb" 0xFFFF) in
      ltr (Z.shiftl SEG_TSS 3)
  end.

(** The loop of [tvinit], for [n] gates from [i] on. *)
Fixpoint tvinit_loop (n i : nat) : M segst unit :=
  match n with
  | O => ret tt
  | S n =>
      do! set_idt i (SETGATE false (Z.shiftl SEG_KCODE 3) (vectors !!! i) 0) in
      tvinit_loop n (S i)
  end.

Definition tvinit : M segst unit :=
  do! tvinit_loop 256 0 in
  do! set_idt (Z.to_nat T_SYSCALL)
        (SETGATE true (Z.shiftl SEG_KCODE 3) (vectors !!! Z.to_nat T_SYSCALL) DPL_USER) in
  modify (fun s => {| gdt := gdt s; ts := ts s; gdtr := gdtr s; tr := tr s;
                      idt := idt s; idtr := idtr s; tickslock := initlock |}).

Definition idtinit : M segst unit := lidt idt_addr (8 * 256).
End Code.

(** ** Interrupts and ports *)

Section Hardware.

(** The table that [lgdt] or [lidt] was given: its address and its last byte. *)
Definition read_table (r : list Z) : Z * Z := (r !!! 1%nat + 2 ^ 16 * r !!! 2%nat, r !!! 0%nat).

Definition select (s : segst) (sel : Z) : option segment :=
  gdt s !! Z.to_nat (sel / 8) ≫= fun d => read_segment (segdesc_word d).

(** Where an interrupt continues: the code segment, the instruction, the new
    privilege level, whether interrupts are then off, and the stack. *)
Record entry := { en_cs : Z; en_eip : Z; en_cpl : Z; en_off : bool; en_stack : option (Z * Z) }.

(** Interrupt [n] at privilege level [cpl]; [soft] if it is an [int]
    instruction, for which the gate's level counts.  A higher privilege takes
    its stack from the task state. *)
Definition interrupt (s : segst) (soft : bool) (n cpl : Z) : option entry :=
  q ← gatedesc_word <$> idt s !! Z.to_nat n;
  if bits q 47 1 =? 0 then None
  else if soft && (bits q 45 2 <? cpl) then None
  else
    c ← select s (bits q 16 16);
    if negb (sg_app c) || negb (Z.testbit (sg_type c) 3) then None
    else
      let eip := bits q 0 16 + 2 ^ 16 * bits q 48 16 in
      let off := bits q 40 4 =? 0xE in
      if sg_dpl c <? cpl then
        t ← tr s;
        if sg_last t <? 9 then None
        else Some {| en_cs := bits q 16 16; en_eip := eip; en_cpl := sg_dpl c; en_off := off;
                     en_stack := Some (getn 2 8 (ts s), getn 4 4 (ts s)) |}
      else if sg_dpl c =? cpl then
        Some {| en_cs := bits q 16 16; en_eip := eip; en_cpl := cpl; en_off := off;
                en_stack := None |}
      else None.

(** Whether a user program may use port [p]: with an I/O privilege level of 0
    only if the task state has a clear bit for it. *)
Definition io_allowed (s : segst) (p : Z) : bool :=
  match tr s with
  | None => false
  | Some t =>
      let o := getn 2 102 (ts s) + p / 8 in
      (o + 1 <=? sg_last t) && negb (Z.testbit (ts s !!! Z.to_nat o) (p mod 8))
  end.

End Hardware.

(** ** Lemmas *)

Lemma bits_at (l : list (Z * Z)) k w v :
  Forall (fun f => 0 <= f.1) l -> l !! k = Some (w, v) ->
  bits (pack l) (foldr Z.add 0 (fst <$> take k l)) w = v mod 2 ^ w.
Proof.
  intros HF. revert k. induction HF as [|[w' v'] l Hw HF IH]; intros k Hk; [done|].
  unfold bits. destruct k as [|k].
  - injection Hk as -> ->. cbn. rewrite Z.div_1_r, Z.mul_comm, Z.mod_add by (apply Z.pow_nonzero; simpl in Hw; lia).
    by rewrite Z.mod_mod by (apply Z.pow_nonzero; simpl in Hw; lia).
  - rewrite <- (IH k Hk). unfold bits. f_equal. cbn [take fmap list_fmap foldr pack fst] in *.
    assert (Hs : 0 <= foldr Z.add 0 (fst <$> take k l)).
    { assert (HF' : Forall (fun f : Z * Z => 0 <= f.1) (take k l)) by by apply Forall_take.
      induction HF' as [|x t Hx HF' IHt]; cbn; lia. }
    rewrite Z.pow_add_r, <- Z.div_div by (done || lia || apply Z.pow_nonzero; lia || by apply Z.pow_pos_nonneg).
    f_equal. rewrite Z.mul_comm, Z.div_add by (apply Z.pow_nonzero; lia).
    by rewrite Z.mod_div, Z.add_0_l by (apply Z.pow_nonzero; lia).
Qed.

Ltac field l k := refine (bits_at l k _ _ _ eq_refl); repeat (apply Forall_cons_2; [cbn; lia|]); apply Forall_nil_2.

Lemma segdesc_fields d :
  let q := segdesc_word d in
  bits q 0 16 = lim_15_0 d mod 2 ^ 16 /\ bits q 16 16 = base_15_0 d mod 2 ^ 16 /\
  bits q 32 8 = base_23_16 d mod 2 ^ 8 /\ bits q 40 4 = sd_type d mod 2 ^ 4 /\
  bits q 44 1 = sd_s d mod 2 ^ 1 /\ bits q 45 2 = sd_dpl d mod 2 ^ 2 /\
  bits q 47 1 = sd_p d mod 2 ^ 1 /\ bits q 48 4 = lim_19_16 d mod 2 ^ 4 /\
  bits q 55 1 = g d mod 2 ^ 1 /\ bits q 56 8 = base_31_24 d mod 2 ^ 8.
Proof.
  cbv zeta. unfold segdesc_word.
  match goal with |- context [pack ?l] => set (fs := l) end.
  split_and!; [field fs 0%nat|field fs 1%nat|field fs 2%nat|field fs 3%nat|field fs 4%nat|
    field fs 5%nat|field fs 6%nat|field fs 7%nat|field fs 11%nat|field fs 12%nat].
Qed.

Lemma gatedesc_fields d :
  let q := gatedesc_word d in
  bits q 0 16 = off_15_0 d mod 2 ^ 16 /\ bits q 16 16 = gd_cs d mod 2 ^ 16 /\
  bits q 40 4 = gd_type d mod 2 ^ 4 /\ bits q 45 2 = gd_dpl d mod 2 ^ 2 /\
  bits q 47 1 = gd_p d mod 2 ^ 1 /\ bits q 48 16 = off_31_16 d mod 2 ^ 16.
Proof.
  cbv zeta. unfold gatedesc_word.
  match goal with |- context [pack ?l] => set (fs := l) end.
  split_and!; [field fs 0%nat|field fs 1%nat|field fs 4%nat|field fs 6%nat|field fs 7%nat|field fs 8%nat].
Qed.

Lemma land_ffff x : Z.land x 0xffff = x mod 2 ^ 16.
Proof. by rewrite <- Z.land_ones. Qed.
Lemma land_ff x : Z.land x 0xff = x mod 2 ^ 8.
Proof. by rewrite <- Z.land_ones. Qed.

(** The parts of an address. *)
Lemma halves a :
  0 <= a < 2 ^ 32 ->
  Z.land (u32 a) 0xffff mod 2 ^ 16 + 2 ^ 16 * (Z.shiftr (u32 a) 16 mod 2 ^ 16) = a.
Proof.
  intros Ha. rewrite u32_small, land_ffff, Z.shiftr_div_pow2 by lia.
  change (2 ^ 16) with 65536 in *. change (2 ^ 32) with 4294967296 in *.
  Z.to_euclidean_division_equations. lia.
Qed.

Lemma base_parts a :
  0 <= a < 2 ^ 32 ->
  Z.land (u32 a) 0xffff mod 2 ^ 16 + 2 ^ 16 * (Z.land (Z.shiftr (u32 a) 16) 0xff mod 2 ^ 8) +
  2 ^ 24 * (Z.shiftr (u32 a) 24 mod 2 ^ 8) = a.
Proof.
  intros Ha. rewrite u32_small, land_ffff, land_ff, !Z.shiftr_div_pow2 by lia.
  change (2 ^ 16) with 65536 in *. change (2 ^ 32) with 4294967296 in *.
  change (2 ^ 24) with 16777216 in *. change (2 ^ 8) with 256 in *.
  Z.to_euclidean_division_equations. lia.
Qed.

Lemma read_system type base lim dpl :
  0 <= type < 2 ^ 4 -> 0 <= base < 2 ^ 32 -> 0 <= lim < 2 ^ 20 -> 0 <= dpl < 2 ^ 2 ->
  read_segment (segdesc_word (set_s 0 (SEG16 type base lim dpl))) =
  Some {| sg_base := base; sg_last := lim; sg_app := false; sg_type := type; sg_dpl := dpl |}.
Proof.
  intros Ht Hb Hl Hd. unfold read_segment.
  destruct (segdesc_fields (set_s 0 (SEG16 type base lim dpl)))
    as (F1 & F2 & F3 & F4 & F5 & F6 & F7 & F8 & F9 & F10).
  rewrite F1, F2, F3, F4, F5, F6, F7, F8, F9, F10.
  cbn [set_s SEG16 lim_15_0 base_15_0 base_23_16 sd_type sd_s sd_dpl sd_p lim_19_16 g base_31_24].
  change (1 mod 2 ^ 1 =? 0) with false. change (0 mod 2 ^ 1 =? 0) with true.
  change (0 mod 2 ^ 1 =? 1) with false. cbv iota.
  rewrite base_parts by done. rewrite (Z.mod_small type), (Z.mod_small dpl) by done.
  do 2 f_equal. rewrite land_ffff, u32_small, Z.shiftr_div_pow2 by lia.
  change (2 ^ 16) with 65536. change (2 ^ 4) with 16. change (2 ^ 20) with 1048576 in Hl.
  Z.to_euclidean_division_equations. lia.
Qed.

Lemma read_pd p size :
  0 <= p < 2 ^ 32 -> 0 < size <= 2 ^ 16 -> read_table (pd p size) = (p, size - 1).
Proof.
  intros Hp Hs. unfold read_table, pd. cbn. f_equal.
  - rewrite <- (halves p Hp) at 3. unfold u16. rewrite land_ffff, Z.mod_mod by done.
    by rewrite (u32_small p).
  - apply Z.mod_small. lia.
Qed.

Definition with_idt (t : list gatedesc) (s : segst) : segst :=
  {| gdt := gdt s; ts := ts s; gdtr := gdtr s; tr := tr s; idt := t; idtr := idtr s;
     tickslock := tickslock s |}.

Lemma tvinit_loop_ok vectors n i s :
  (i + n <= length (idt s))%nat ->
  exists t, tvinit_loop vectors n i s = Ok (tt, with_idt t s) /\ length t = length (idt s) /\
    (forall k, (i <= k < i + n)%nat ->
       t !! k = Some (SETGATE false (Z.shiftl SEG_KCODE 3) (vectors !!! k) 0)) /\
    forall k, (k < i)%nat -> t !! k = idt s !! k.
Proof.
  revert i s. induction n as [|n IH]; intros i s Hl.
  - exists (idt s). split_and!; [by destruct s|done|lia|done].
  - cbn [tvinit_loop]. unfold set_idt. rewrite bind_modify.
    set (s1 := Build_segst _ _ _ _ _ _ _).
    destruct (IH (S i) s1) as (t & E & Ht & Hin & Hlo); [cbn; rewrite length_insert; lia|].
    exists t. split_and!.
    + by rewrite E.
    + rewrite Ht. cbn. by rewrite length_insert.
    + intros k Hk. destruct (decide (k = i)) as [->|]; [|apply Hin; lia].
      rewrite Hlo by lia. cbn. by rewrite list_lookup_insert_eq by lia.
    + intros k Hk. rewrite Hlo by lia. cbn. by rewrite list_lookup_insert_ne by lia.
Qed.

(** A 4 GB code or data segment. *)
Definition flat (type dpl : Z) : segment :=
  {| sg_base := 0; sg_last := 0xffffffff; sg_app := true; sg_type := type; sg_dpl := dpl |}.

(** An interrupt from user code through a gate of the kernel. *)
Lemma interrupt_user s soft n istrap v dpl t :
  idt s !! Z.to_nat n = Some (SETGATE istrap 8 v dpl) -> select s 8 = Some (flat 0xA 0) ->
  tr s = Some t -> 9 <= sg_last t -> 0 <= v < 2 ^ 32 -> 0 <= dpl < 2 ^ 2 ->
  interrupt s soft n 3 =
    if soft && (dpl <? 3) then None
    else Some {| en_cs := 8; en_eip := v; en_cpl := 0; en_off := negb istrap;
                 en_stack := Some (getn 2 8 (ts s), getn 4 4 (ts s)) |}.
Proof.
  intros Hi Hs Ht Hl Hv Hd. unfold interrupt. rewrite Hi. cbn [fmap option_fmap option_map mbind option_bind].
  destruct (gatedesc_fields (SETGATE istrap 8 v dpl)) as (F1 & F2 & F3 & F4 & F5 & F6).
  rewrite F1, F2, F3, F4, F5, F6. cbn [SETGATE off_15_0 gd_cs gd_type gd_dpl gd_p off_31_16].
  change (1 mod 2 ^ 1 =? 0) with false. change (8 mod 2 ^ 16) with 8.
  rewrite (Z.mod_small dpl), (halves v) by done. cbv iota.
  destruct (soft && (dpl <? 3)); [done|]. rewrite Hs, Ht. cbn [mbind option_bind flat sg_app sg_type sg_dpl].
  change (negb true || negb (Z.testbit 10 3)) with false. change (0 <? 3) with true. cbv iota.
  destruct (Z.ltb_spec (sg_last t) 9); [lia|]. by destruct istrap.
Qed.

Section Setup.
Context (gdt_addr ts_addr idt_addr kstack : Z) (vectors : list Z) (s : segst).
Hypothesis (Hg : length (gdt s) = Z.to_nat NSEGS) (Ht : length (ts s) = sizeof_taskstate)
  (Hi : length (idt s) = 256%nat) (Hv : length vectors = 256%nat)
  (Hva : Forall (fun v => 0 <= v < 2 ^ 32) vectors)
  (Hga : 0 <= gdt_addr < 2 ^ 32) (Hta : 0 <= ts_addr < 2 ^ 32) (Hia : 0 <= idt_addr < 2 ^ 32).

(** What a CPU does before it runs a process with a kernel stack at [kstack]. *)
Definition setup : M segst unit :=
  do! seginit gdt_addr in
  do! tvinit vectors in
  do! idtinit idt_addr in
  load_tss ts_addr kstack.

Definition task : segment :=
  {| sg_base := ts_addr; sg_last := 103; sg_app := false; sg_type := STS_T32A; sg_dpl := 0 |}.

(** One assignment. *)
Ltac stepm := rewrite ?bind_bind, bind_modify; cbn [gdt ts gdtr tr idt idtr tickslock].

Lemma setup_run : exists s' null t, setup s = Ok (tt, s') /\
  gdt s' = [null; SEG 0xA 0 0xffffffff 0; SEG 0x2 0 0xffffffff 0; SEG 0xA 0 0xffffffff 3;
            SEG 0x2 0 0xffffffff 3; set_type 0xB (set_s 0 (SEG16 STS_T32A ts_addr 103 0))] /\
  ts s' = setn 2 102 0xFFFF (setn 4 4 (u32 (kstack + KSTACKSIZE)) (setn 2 8 16 (ts s))) /\
  gdtr s' = pd gdt_addr 48 /\ tr s' = Some task /\ idtr s' = pd idt_addr 2048 /\
  idt s' = <[64%nat := SETGATE true 8 (vectors !!! 64%nat) 3]> t /\ length t = 256%nat /\
  forall k, (k < 256)%nat -> t !! k = Some (SETGATE false 8 (vectors !!! k) 0).
Proof.
  destruct s as [[|d0 [|d1 [|d2 [|d3 [|d4 [|d5 [|]]]]]]] ts0 gdtr0 tr0 idt0 idtr0 lk0]; try discriminate Hg.
  unfold setup, seginit, tvinit, idtinit, load_tss, ltr, set_gdt, lgdt, lidt, set_ts, set_idt.
  do 5 stepm. rewrite bind_bind.
  match goal with |- context [bind (tvinit_loop vectors 256 0) _ ?s0] => set (s1 := s0) end.
  destruct (tvinit_loop_ok vectors 256 0 s1) as (t & E & Hl & Hall & _); [cbn in *; lia|].
  rewrite (bind_Ok _ _ _ _ _ E). unfold with_idt. subst s1. do 4 stepm. rewrite bind_get.
  cbn [gdt]. match goal with |- context [?l !! Z.to_nat SEG_TSS] =>
    replace (l !! Z.to_nat SEG_TSS) with (Some (SEG16 STS_T32A ts_addr 103 0)) by reflexivity end.
  cbv iota. do 4 stepm. rewrite bind_get.
  cbn [gdt]. match goal with |- context [?l !! Z.to_nat (Z.shiftl SEG_TSS 3 / 8)] =>
    replace (l !! Z.to_nat (Z.shiftl SEG_TSS 3 / 8))
      with (Some (set_s 0 (SEG16 STS_T32A ts_addr 103 0))) by reflexivity end.
  rewrite (read_system STS_T32A ts_addr 103 0) by (done || lia). cbn [sg_app sg_type].
  change (false || negb (STS_T32A =? 9)) with false. cbv iota. stepm.
  eexists _, d0, t. split; [reflexivity|]. cbn [gdt ts gdtr tr idt idtr tickslock].
  split_and!; try reflexivity.
  - by rewrite Hl.
  - intros k Hk. apply Hall. lia.
Qed.

(** (C21) Protection by the descriptor tables. After [seginit], [tvinit],
    [idtinit] and the task state of [switchuvm], a user program runs in flat
    segments of level 3. An interrupt or fault of any vector continues in the
    kernel at level 0, at the entry point of its vector, on the kernel stack of
    the process, with interrupts off except for a system call. With the [int]
    instruction a user program can raise the system call and no other vector,
    and it has access to no port. *)
Theorem descriptor_tables_protect : exists s', setup s = Ok (tt, s') /\
  read_table (gdtr s') = (gdt_addr, 47) /\ read_table (idtr s') = (idt_addr, 2047) /\
  select s' (Z.lor (Z.shiftl SEG_UCODE 3) DPL_USER) = Some (flat (Z.lor STA_X STA_R) 3) /\
  select s' (Z.lor (Z.shiftl SEG_UDATA 3) DPL_USER) = Some (flat STA_W 3) /\
  (forall n, 0 <= n < 256 ->
     let e := {| en_cs := Z.shiftl SEG_KCODE 3; en_eip := vectors !!! Z.to_nat n; en_cpl := 0;
                 en_off := negb (n =? T_SYSCALL);
                 en_stack := Some (Z.shiftl SEG_KDATA 3, u32 (kstack + KSTACKSIZE)) |} in
     interrupt s' false n 3 = Some e /\
     interrupt s' true n 3 = if n =? T_SYSCALL then Some e else None) /\
  forall p, 0 <= p < 2 ^ 16 -> io_allowed s' p = false.
Proof.
  destruct setup_run as (s' & null & t & E & Eg & Et & Egr & Etr & Eir & Ei & Hl & Hall).
  exists s'. split; [done|]. unfold select. rewrite Egr, Eir, Eg.
  rewrite !read_pd by (done || lia).
  split_and!; [done|done|vm_compute; reflexivity|vm_compute; reflexivity| |].
  - intros n Hn. cbv zeta.
    assert (Hk : select s' 8 = Some (flat 0xA 0)) by (unfold select; rewrite Eg; vm_compute; reflexivity).
    assert (Hg1 : idt s' !! Z.to_nat n =
      Some (SETGATE (n =? T_SYSCALL) 8 (vectors !!! Z.to_nat n) (if n =? T_SYSCALL then 3 else 0))).
    { rewrite Ei. destruct (Z.eqb_spec n T_SYSCALL) as [->|Hne].
      - apply list_lookup_insert_eq. rewrite Hl. apply Nat.ltb_lt. reflexivity.
      - change T_SYSCALL with 64 in Hne. rewrite list_lookup_insert_ne by lia. apply Hall. lia. }
    assert (Hvn : 0 <= vectors !!! Z.to_nat n < 2 ^ 32).
    { destruct (lookup_lt_is_Some_2 vectors (Z.to_nat n)) as [v Hx]; [rewrite Hv; lia|].
      rewrite (list_lookup_total_correct _ _ _ Hx). rewrite Forall_lookup in Hva. by apply (Hva (Z.to_nat n)). }
    assert (Hts1 : getn 2 8 (ts s') = 16 /\ getn 4 4 (ts s') = u32 (kstack + KSTACKSIZE)).
    { change sizeof_taskstate with 104%nat in Ht. rewrite Et.
      rewrite !(getn_setn_ne 2 102) by (rewrite ?setn_length; rewrite ?setn_length; lia).
      rewrite (getn_setn_ne 4 4), !getn_setn_eq by (rewrite ?setn_length; lia).
      split; [done|]. apply Z.mod_small. apply Z.mod_pos_bound. done. }
    destruct Hts1 as [Hs0 He0].
    assert (Hd : 0 <= (if n =? T_SYSCALL then 3 else 0) < 2 ^ 2) by (destruct (n =? T_SYSCALL); lia).
    rewrite !(interrupt_user s' _ n _ _ _ _ Hg1 Hk Etr ltac:(done) Hvn Hd), Hs0, He0.
    cbn [andb]. split; [done|]. by destruct (n =? T_SYSCALL).
  - intros p Hp. unfold io_allowed. rewrite Etr. change sizeof_taskstate with 104%nat in Ht.
    rewrite Et, getn_setn_eq by (rewrite !setn_length; rewrite ?setn_length; lia).
    change (0xFFFF mod 2 ^ (8 * Z.of_nat 2)) with 65535. cbn [sg_last task].
    pose proof (Z.div_pos p 8 ltac:(lia) ltac:(lia)).
    destruct (Z.leb_spec (65535 + p / 8 + 1) 103); [lia|done].
Qed.

End Setup.

Definition demo_segst : segst :=
  {| gdt := replicate 6 (SEG 0 0 0 0); ts := replicate 104 0; gdtr := []; tr := None;
     idt := replicate 256 (SETGATE false 0 0 0); idtr := []; tickslock := initlock |}.

Lemma descriptor_tables_protect_witness :
  exists s', setup 0x80114000 0x80113000 0x80115000 0x8dfff000 (replicate 256 0x80106000)
      demo_segst = Ok (tt, s') /\
    interrupt s' true 64 3 = Some {| en_cs := 8; en_eip := 0x80106000; en_cpl := 0;
      en_off := false; en_stack := Some (16, 0x8e000000) |} /\
    interrupt s' true 32 3 = None.
Proof.
  destruct (descriptor_tables_protect 0x80114000 0x80113000 0x80115000 0x8dfff000
    (replicate 256 0x80106000) demo_segst eq_refl eq_refl eq_refl eq_refl
    ltac:(by apply Forall_replicate) ltac:(done) ltac:(done) ltac:(done))
    as (s' & E & _ & _ & _ & _ & Hint & _).
  exists s'. split; [exact E|]. split.
  - exact (proj2 (Hint 64 ltac:(done))).
  - exact (proj2 (Hint 32 ltac:(done))).
Defined.
