(* ===== verification/SpinlockExcl.v ===== *)
(** * Mutual exclusion of spin locks

    The interleavings of [acquire] and [release] on all CPUs.  A thread is the
    kernel code a CPU runs: the locks it holds, the [pushcli] calls it made
    itself, and where it is inside [acquire] or [release]. *)

From stdpp Require Import functions.
From S2P Require Import Prelude Param Spinlock.

Inductive phase :=
| Run
| Spin (l : nat)        (* in the loop of [acquire] *)
| Taken (l : nat)       (* the [xchg] succeeded, the owner is not recorded *)
| Clearing (l : nat)    (* [release] has erased the owner *)
| Cleared (l : nat).    (* [release] has stored 0, [popcli] is left *)

Record thread := { th_ph : phase; th_held : list nat; th_extra : Z }.
Definition idle : thread := {| th_ph := Run; th_held := []; th_extra := 0 |}.

Record lconf := { l_st : lst; l_th : nat -> thread }.

Definition move (c : nat) (t : thread) (s : lst) (x : lconf) : lconf :=
  {| l_st := s; l_th := <[c := t]> (l_th x) |}.

Inductive lstep (x : lconf) : lconf -> Prop :=
| step_push c s' t :
    (c < length (lcpus (l_st x)))%nat -> l_th x c = t -> th_ph t = Run ->
    pushcli c (l_st x) = Ok (tt, s') ->
    lstep x (move c {| th_ph := Run; th_held := th_held t;
                       th_extra := th_extra t + 1 |} s' x)
| step_pop c s' t :
    (c < length (lcpus (l_st x)))%nat -> l_th x c = t -> th_ph t = Run ->
    0 < th_extra t -> popcli c (l_st x) = Ok (tt, s') ->
    lstep x (move c {| th_ph := Run; th_held := th_held t;
                       th_extra := th_extra t - 1 |} s' x)
| step_enter c l s' t :
    (c < length (lcpus (l_st x)))%nat -> (l < length (locks (l_st x)))%nat ->
    l_th x c = t -> th_ph t = Run -> acquire_enter c l (l_st x) = Ok (tt, s') ->
    lstep x (move c {| th_ph := Spin l; th_held := th_held t;
                       th_extra := th_extra t |} s' x)
| step_xchg c l ok s' t :
    (c < length (lcpus (l_st x)))%nat -> (l < length (locks (l_st x)))%nat ->
    l_th x c = t -> th_ph t = Spin l ->
    acquire_xchg l (l_st x) = Ok (ok, s') ->
    lstep x (move c {| th_ph := if ok then Taken l else Spin l; th_held := th_held t;
                       th_extra := th_extra t |} s' x)
| step_record c l s' t :
    (c < length (lcpus (l_st x)))%nat -> (l < length (locks (l_st x)))%nat ->
    l_th x c = t -> th_ph t = Taken l ->
    acquire_record c l (l_st x) = Ok (tt, s') ->
    lstep x (move c {| th_ph := Run; th_held := l :: th_held t;
                       th_extra := th_extra t |} s' x)
| step_release c l s' t :
    (c < length (lcpus (l_st x)))%nat -> (l < length (locks (l_st x)))%nat ->
    l_th x c = t -> th_ph t = Run -> release_enter c l (l_st x) = Ok (tt, s') ->
    lstep x (move c {| th_ph := Clearing l;
                       th_held := filter (fun k => k <> l) (th_held t);
                       th_extra := th_extra t |} s' x)
| step_store c l s' t :
    (c < length (lcpus (l_st x)))%nat -> (l < length (locks (l_st x)))%nat ->
    l_th x c = t -> th_ph t = Clearing l ->
    release_store l (l_st x) = Ok (tt, s') ->
    lstep x (move c {| th_ph := Cleared l; th_held := th_held t;
                       th_extra := th_extra t |} s' x)
| step_done c l s' t :
    (c < length (lcpus (l_st x)))%nat -> l_th x c = t -> th_ph t = Cleared l ->
    popcli c (l_st x) = Ok (tt, s') ->
    lstep x (move c {| th_ph := Run; th_held := th_held t;
                       th_extra := th_extra t |} s' x).

(** The CPUs have been set up, no lock is taken. *)
Definition lstart (x : lconf) : Prop :=
  apic_ok (l_st x) /\ (forall k, k ∈ locks (l_st x) -> k = initlock) /\
  (forall c, (c < length (lcpus (l_st x)))%nat -> ncli (lcpu_at (l_st x) c) = 0) /\
  (forall c, l_th x c = idle).

(** ** The invariant *)

(** The lock is taken by the thread, from the [xchg] to the final store. *)
Definition owns (t : thread) (l : nat) : Prop :=
  l ∈ th_held t \/ th_ph t = Taken l \/ th_ph t = Clearing l.

Definition depth (t : thread) : Z :=
  Z.of_nat (length (th_held t)) + th_extra t + match th_ph t with Run => 0 | _ => 1 end.

(** The lock a thread is acquiring or releasing is not among those it holds. *)
Definition phase_ok (t : thread) : Prop :=
  match th_ph t with
  | Spin l | Taken l | Clearing l => l ∉ th_held t
  | _ => True
  end.

Record cpu_inv (x : lcpu) (t : thread) : Prop := {
  ci_depth : ncli x = depth t;
  ci_extra : 0 <= th_extra t;
  ci_off : 0 < ncli x -> eflags_if x = false;
  ci_nodup : NoDup (th_held t);
  ci_phase : phase_ok t
}.

Record lock_inv (k : spinlock) (th : nat -> thread) (n l : nat) : Prop := {
  ki_locked : locked k = true <-> exists c, (c < n)%nat /\ owns (th c) l;
  ki_uniq : forall c c', (c < n)%nat -> (c' < n)%nat ->
    owns (th c) l -> owns (th c') l -> c = c';
  ki_cpu : forall c, (c < n)%nat -> lk_cpu k = Some c <-> l ∈ th_held (th c)
}.

Record linv (x : lconf) : Prop := {
  li_apic : apic_ok (l_st x);
  li_cpu : forall c, (c < length (lcpus (l_st x)))%nat ->
    cpu_inv (lcpu_at (l_st x) c) (l_th x c);
  li_lock : forall l, (l < length (locks (l_st x)))%nat ->
    lock_inv (lk_at (l_st x) l) (l_th x) (length (lcpus (l_st x))) l
}.

(** A thread changed in a way that does not concern the lock. *)
Definition same_on (l : nat) (t t' : thread) : Prop :=
  (l ∈ th_held t' <-> l ∈ th_held t) /\ (owns t' l <-> owns t l).

Lemma lock_inv_same k th n l c t' :
  same_on l (th c) t' -> lock_inv k th n l -> lock_inv k (<[c := t']> th) n l.
Proof.
  intros Hs [K1 K2 K3].
  assert (Hall : forall d, same_on l (th d) (<[c := t']> th d)).
  { intros d. destruct (decide (c = d)) as [<-|]; [by rewrite fn_lookup_insert|].
    by rewrite fn_lookup_insert_ne. }
  split.
  - etrans; [exact K1|]. apply exist_proper. intros d. by destruct (Hall d) as [_ ->].
  - intros d d' Hd Hd'. destruct (Hall d) as [_ ->], (Hall d') as [_ ->]. by apply K2.
  - intros d Hd. etrans; [by apply K3|]. by destruct (Hall d) as [-> _].
Qed.

Lemma linv_cpu x c f t' :
  linv x -> (c < length (lcpus (l_st x)))%nat -> (forall y, apicid (f y) = apicid y) ->
  cpu_inv (f (lcpu_at (l_st x) c)) t' -> (forall l, same_on l (l_th x c) t') ->
  linv (move c t' (cpu_upd c f (l_st x)) x).
Proof.
  intros HI Hc Hf Ht Hs. split; cbn [l_st l_th move].
  - apply apic_upd; [done|]. apply HI.
  - intros d Hd. rewrite cpu_upd_len in Hd. rewrite cpu_upd_at by done.
    destruct (decide (c = d)) as [<-|Hne].
    + by rewrite fn_lookup_insert.
    + rewrite fn_lookup_insert_ne by done. by apply HI.
  - intros l Hl. rewrite cpu_upd_len. apply lock_inv_same; [done|]. by apply HI.
Qed.

Lemma linv_lock x c l g t' :
  linv x -> (c < length (lcpus (l_st x)))%nat -> (l < length (locks (l_st x)))%nat ->
  cpu_inv (lcpu_at (l_st x) c) t' ->
  lock_inv (g (lk_at (l_st x) l)) (<[c := t']> (l_th x)) (length (lcpus (l_st x))) l ->
  (forall m, m <> l -> same_on m (l_th x c) t') ->
  linv (move c t' (lock_upd l g (l_st x)) x).
Proof.
  intros HI Hc Hl Ht Hk Hm. split; cbn [l_st l_th move].
  - apply HI.
  - intros d Hd. destruct (decide (c = d)) as [<-|Hne].
    + by rewrite fn_lookup_insert.
    + rewrite fn_lookup_insert_ne by done. by apply (li_cpu x HI).
  - intros m Hm'. unfold lk_at, lock_upd in *. cbn [locks lcpus] in *.
    rewrite length_alter in Hm'. rewrite alter_at by done.
    destruct (decide (l = m)) as [<-|Hne]; [done|].
    apply lock_inv_same; [by apply Hm|]. by apply (li_lock x HI).
Qed.

(** A lock whose only possible owner is [c]. *)
Lemma lock_inv_owner k th n l c :
  (c < n)%nat -> (forall d, (d < n)%nat -> d <> c -> ~ owns (th d) l) ->
  (locked k = true <-> owns (th c) l) ->
  (l ∈ th_held (th c) -> lk_cpu k = Some c) ->
  (forall d, (d < n)%nat -> lk_cpu k = Some d -> d = c /\ l ∈ th_held (th c)) ->
  lock_inv k th n l.
Proof.
  intros Hc Hoth Hl Hcpu Hcpu'.
  assert (Hone : forall d, (d < n)%nat -> owns (th d) l -> d = c).
  { intros d Hd Ho. destruct (decide (d = c)); [done|]. by apply Hoth in Ho. }
  split.
  - rewrite Hl. split; [by exists c|]. intros (d & Hd & Ho).
    by rewrite <- (Hone d).
  - intros d d' Hd Hd' H1 H2. by rewrite (Hone d), (Hone d').
  - intros d Hd. split.
    + intros Hk. by destruct (Hcpu' d Hd Hk) as [-> ?].
    + intros Hin. assert (d = c) as -> by (apply Hone; [done|by left]). auto.
Qed.

(** ** Every step preserves it *)

Lemma filter_remove l (h : list nat) :
  NoDup h -> l ∈ h -> S (length (filter (fun k => k <> l) h)) = length h.
Proof.
  intros Hn Hin. apply list_elem_of_split in Hin as (h1 & h2 & ->).
  apply NoDup_app in Hn as (_ & Hd & Hn2). apply NoDup_cons in Hn2 as [Hl2 _].
  assert (Hl1 : l ∉ h1) by (intros Hl; apply (Hd l Hl); set_solver).
  assert (Hid : forall h : list nat, l ∉ h -> filter (fun k => k <> l) h = h).
  { clear. intros h. induction h as [|a h IH]; intros Ha; [done|].
    rewrite filter_cons_True by set_solver. f_equal. apply IH. set_solver. }
  rewrite filter_app, filter_cons_False by naive_solver.
  rewrite !Hid by done. rewrite !length_app. simpl. lia.
Qed.

Section Steps.
Variables (x : lconf) (c : nat).
Hypothesis HI : linv x.
Hypothesis Hc : (c < length (lcpus (l_st x)))%nat.

Let s := l_st x.
Let t := l_th x c.

Lemma busy_cpu :
  0 < depth t -> eflags_if (lcpu_at s c) = false /\ 1 <= ncli (lcpu_at s c).
Proof.
  intros Hd. destruct (li_cpu x HI c Hc) as [D _ Hoff _ _].
  fold s t in D. split; [apply Hoff; fold s; lia|lia].
Qed.

Lemma pushed_inv t' :
  depth t' = depth t + 1 -> 0 <= th_extra t' -> NoDup (th_held t') -> phase_ok t' ->
  cpu_inv (pushed (lcpu_at s c)) t'.
Proof.
  intros Hd He Hn Hp. destruct (li_cpu x HI c Hc) as [D _ _ _ _].
  split; auto. cbn [ncli pushed]. fold s t in D. lia.
Qed.

Lemma popped_inv t' :
  depth t' = depth t - 1 -> 0 <= th_extra t' -> NoDup (th_held t') -> phase_ok t' ->
  cpu_inv (popped (lcpu_at s c)) t'.
Proof.
  intros Hd He Hn Hp. destruct (li_cpu x HI c Hc) as [D _ _ _ _].
  split; auto; cbn [ncli eflags_if popped]; fold s t in D; [lia|].
  intros Hpos. destruct (Z.eqb_spec (ncli (lcpu_at s c)) 1); [lia|done].
Qed.

Lemma held_locked l :
  (l < length (locks s))%nat -> l ∈ th_held t ->
  locked (lk_at s l) = true /\ lk_cpu (lk_at s l) = Some c.
Proof.
  intros Hl Hin. destruct (li_lock x HI l Hl) as [K1 _ K3]. split.
  - apply K1. exists c. split; [done|]. by left.
  - by apply K3.
Qed.

Lemma push_inv s' :
  th_ph t = Run -> pushcli c s = Ok (tt, s') ->
  linv (move c {| th_ph := Run; th_held := th_held t; th_extra := th_extra t + 1 |} s' x).
Proof.
  intros Hr E. rewrite pushcli_run in E by (done || apply HI). injection E as <-.
  destruct (li_cpu x HI c Hc) as [_ He _ Hn _]. fold t in He, Hn.
  apply linv_cpu; auto.
  - apply pushed_inv; [unfold depth; simpl; rewrite Hr; lia|simpl; lia|done|done].
  - intros l. unfold same_on, owns. simpl. fold t. by rewrite Hr.
Qed.

Lemma pop_inv s' t' :
  depth t' = depth t - 1 -> 0 <= th_extra t' -> 0 < depth t -> th_ph t' = Run ->
  (th_ph t = Run \/ exists l, th_ph t = Cleared l) -> th_held t' = th_held t ->
  popcli c s = Ok (tt, s') -> linv (move c t' s' x).
Proof.
  intros Hd He Hpos Hr Hph Hh E. destruct (busy_cpu Hpos) as [Hi Hn].
  rewrite popcli_run in E by (done || apply HI). injection E as <-.
  destruct (li_cpu x HI c Hc) as [_ _ _ Hnd _]. fold t in Hnd.
  apply linv_cpu; auto.
  - apply popped_inv; auto; [by rewrite Hh|]. unfold phase_ok. by rewrite Hr.
  - intros l. unfold same_on, owns. fold t. rewrite Hh, Hr.
    destruct Hph as [Hp|[m Hp]]; rewrite Hp; intuition congruence.
Qed.

Lemma enter_inv l s' :
  (l < length (locks s))%nat -> th_ph t = Run -> acquire_enter c l s = Ok (tt, s') ->
  linv (move c {| th_ph := Spin l; th_held := th_held t; th_extra := th_extra t |} s' x).
Proof.
  intros Hl Hr E. destruct (li_cpu x HI c Hc) as [D He _ Hn _]. fold s t in D, He, Hn.
  assert (Hd : 0 <= depth t) by (unfold depth; rewrite Hr; lia).
  unfold acquire_enter in E.
  rewrite (bind_Ok _ _ _ _ _ (pushcli_run c s (li_apic x HI) Hc)) in E.
  assert (Hat : lcpu_at (cpu_upd c pushed s) c = pushed (lcpu_at s c)).
  { rewrite cpu_upd_at by done. by rewrite decide_True. }
  rewrite (bind_Ok _ _ _ _ _ (holding_run c (cpu_upd c pushed s) l
    (apic_upd c pushed s (fun _ => eq_refl) (li_apic x HI)) ltac:(by rewrite cpu_upd_len)
    ltac:(rewrite Hat; cbn [ncli pushed]; lia))) in E.
  rewrite holding_id in E by (rewrite Hat; cbn [ncli eflags_if pushed]; done || lia).
  change (lk_at (cpu_upd c pushed s) l) with (lk_at s l) in E.
  destruct (locked (lk_at s l) && bool_decide (lk_cpu (lk_at s l) = Some c)) eqn:Eh;
    [done|]. injection E as <-.
  apply linv_cpu; auto.
  - apply pushed_inv; [unfold depth; simpl; rewrite Hr; lia|done|done|].
    unfold phase_ok. simpl. intros Hin.
    destruct (held_locked l Hl Hin) as [E1 E2]. rewrite E1, E2 in Eh.
    by rewrite bool_decide_eq_true_2 in Eh.
  - intros m. unfold same_on, owns. simpl. fold t. rewrite Hr. intuition congruence.
Qed.

(** When [c] owns the lock, or nobody does, nobody else owns it. *)
Lemma others l :
  (l < length (locks s))%nat -> owns t l \/ locked (lk_at s l) = false ->
  forall d, (d < length (lcpus s))%nat -> d <> c -> ~ owns (l_th x d) l.
Proof.
  intros Hl Hor d Hd Hne Ho. destruct (li_lock x HI l Hl) as [K1 K2 _].
  destruct Hor as [Hown|Hf].
  - apply Hne. by apply (K2 d c).
  - assert (locked (lk_at s l) = true) by (apply K1; eauto). congruence.
Qed.

Lemma xchg_inv l ok s' :
  (l < length (locks s))%nat -> th_ph t = Spin l -> acquire_xchg l s = Ok (ok, s') ->
  linv (move c {| th_ph := if ok then Taken l else Spin l; th_held := th_held t;
                  th_extra := th_extra t |} s' x).
Proof.
  intros Hl Hr E. unfold acquire_xchg in E. rewrite bind_get in E.
  unfold lkupd in E. rewrite bind_modify in E. injection E as <- <-.
  destruct (li_cpu x HI c Hc) as [D He Ho Hn Hp]. fold s t in D, He, Ho, Hn, Hp.
  assert (Hnot : l ∉ th_held t) by (unfold phase_ok in Hp; by rewrite Hr in Hp).
  apply linv_lock; auto.
  - split; auto; unfold depth, phase_ok in *; simpl; rewrite Hr in D;
      by destruct (locked (lk_at s l)).
  - pose proof (li_lock x HI l Hl) as HK. fold s in HK.
    destruct (locked (lk_at s l)) eqn:El; simpl.
    + apply lock_inv_same.
      * unfold same_on, owns. simpl. fold t. by rewrite Hr.
      * fold s. replace {| locked := true; lk_cpu := lk_cpu (lk_at s l) |} with (lk_at s l);
          [done|]. destruct (lk_at s l). simpl in *. by subst.
    + apply (lock_inv_owner _ _ _ _ c); auto; rewrite ?fn_lookup_insert.
      * intros d Hd Hne. rewrite fn_lookup_insert_ne by done. apply others; auto.
      * split; [|done]. intros _. right. by left.
      * done.
      * simpl. intros d Hd Hk. apply (ki_cpu _ _ _ _ HK d Hd) in Hk. exfalso.
        assert (locked (lk_at s l) = true); [|congruence].
        apply HK. exists d. split; [done|]. by left.
  - intros m Hm. split; [done|]. unfold owns. simpl. fold t. rewrite Hr.
    destruct (negb _); intuition congruence.
Qed.

Lemma record_inv l s' :
  (l < length (locks s))%nat -> th_ph t = Taken l -> acquire_record c l s = Ok (tt, s') ->
  linv (move c {| th_ph := Run; th_held := l :: th_held t; th_extra := th_extra t |} s' x).
Proof.
  intros Hl Hr E. destruct (li_cpu x HI c Hc) as [D He Ho Hn Hp].
  fold s t in D, He, Ho, Hn, Hp.
  assert (Hnot : l ∉ th_held t) by (unfold phase_ok in Hp; by rewrite Hr in Hp).
  destruct busy_cpu as [Hi _]; [unfold depth; rewrite Hr; lia|].
  unfold acquire_record in E.
  rewrite (bind_Ok _ _ _ _ _ (mycpu_run c s (li_apic x HI) Hc Hi)) in E.
  injection E as <-. pose proof (li_lock x HI l Hl) as HK. fold s in HK.
  assert (Hown : owns t l) by (right; by left).
  apply linv_lock; auto.
  - split; [|done|done|by constructor|done].
    unfold depth in *. rewrite Hr in D. cbn [th_ph th_held th_extra length] in *. fold s. lia.
  - apply (lock_inv_owner _ _ _ _ c); auto; rewrite ?fn_lookup_insert.
    + intros d Hd Hne. rewrite fn_lookup_insert_ne by done. apply others; auto.
    + simpl. split; [|intros _; apply HK; by exists c]. intros _. left. simpl. set_solver.
    + simpl. intros d Hd [= <-]. split; [done|]. set_solver.
  - intros m Hm. unfold same_on, owns. simpl. fold t. rewrite Hr, elem_of_cons.
    intuition congruence.
Qed.

Lemma release_inv l s' :
  (l < length (locks s))%nat -> th_ph t = Run -> release_enter c l s = Ok (tt, s') ->
  linv (move c {| th_ph := Clearing l; th_held := filter (fun k => k <> l) (th_held t);
                  th_extra := th_extra t |} s' x).
Proof.
  intros Hl Hr E. destruct (li_cpu x HI c Hc) as [D He Ho Hn Hp].
  fold s t in D, He, Ho, Hn, Hp. pose proof (li_lock x HI l Hl) as HK. fold s in HK.
  assert (Hd0 : 0 <= depth t) by (unfold depth; rewrite Hr; lia).
  unfold release_enter in E.
  rewrite (bind_Ok _ _ _ _ _ (holding_run c s l (li_apic x HI) Hc
    ltac:(fold s; lia))) in E.
  destruct (locked (lk_at s l) && bool_decide (lk_cpu (lk_at s l) = Some c)) eqn:Eh;
    [|done].
  apply andb_true_iff in Eh as [_ Eh]. apply bool_decide_eq_true in Eh.
  apply (ki_cpu _ _ _ _ HK c Hc) in Eh. fold t in Eh.
  pose proof (filter_remove l (th_held t) Hn Eh) as Hlen.
  destruct busy_cpu as [Hi Hn1]; [unfold depth; rewrite Hr; lia|].
  rewrite holding_id in E by done. injection E as <-.
  assert (Hown : owns t l) by (by left).
  apply linv_lock; auto.
  - split; [|done|done| |].
    + unfold depth in *. rewrite Hr in D. cbn [th_held th_extra th_ph] in *. fold s. lia.
    + by apply NoDup_filter.
    + unfold phase_ok. simpl. rewrite list_elem_of_filter. tauto.
  - apply (lock_inv_owner _ _ _ _ c); auto; rewrite ?fn_lookup_insert.
    + intros d Hd Hne. rewrite fn_lookup_insert_ne by done. apply others; auto.
    + simpl. split; [|intros _; apply HK; by exists c]. intros _. right. by right.
    + simpl. rewrite list_elem_of_filter. tauto.
    + done.
  - intros m Hm. unfold same_on, owns. simpl. fold t. rewrite Hr, list_elem_of_filter.
    intuition congruence.
Qed.

Lemma store_inv l s' :
  (l < length (locks s))%nat -> th_ph t = Clearing l -> release_store l s = Ok (tt, s') ->
  linv (move c {| th_ph := Cleared l; th_held := th_held t; th_extra := th_extra t |} s' x).
Proof.
  intros Hl Hr E. destruct (li_cpu x HI c Hc) as [D He Ho Hn Hp].
  fold s t in D, He, Ho, Hn, Hp. pose proof (li_lock x HI l Hl) as HK. fold s in HK.
  injection E as <-. assert (Hown : owns t l) by (right; by right).
  assert (Hnot : l ∉ th_held t) by (unfold phase_ok in Hp; by rewrite Hr in Hp).
  apply linv_lock; auto.
  - split; [|done..]. unfold depth in *. by rewrite Hr in D.
  - apply (lock_inv_owner _ _ _ _ c); auto; rewrite ?fn_lookup_insert.
    + intros d Hd Hne. rewrite fn_lookup_insert_ne by done. apply others; auto.
    + simpl. split; [done|]. unfold owns. simpl. intuition congruence.
    + done.
    + simpl. intros d Hd Hk. apply (ki_cpu _ _ _ _ HK d Hd) in Hk.
      assert (d = c) as -> by (apply (ki_uniq _ _ _ _ HK); auto; by left). done.
  - intros m Hm. unfold same_on, owns. simpl. fold t. rewrite Hr. intuition congruence.
Qed.

End Steps.

Lemma linv_start x : lstart x -> linv x.
Proof.
  intros (Ha & Hk & Hn & Ht). split; auto.
  - intros c Hc. rewrite Ht. split; [by apply Hn|done| |constructor|done].
    rewrite Hn by done. lia.
  - intros l Hl. assert (Hlk : lk_at (l_st x) l = initlock).
    { apply Hk, list_elem_of_lookup_total. by exists l. }
    rewrite Hlk. split; simpl.
    + split; [done|]. intros (c & _ & Ho). rewrite Ht in Ho. unfold owns in Ho.
      simpl in Ho. set_solver.
    + intros c c' _ _ Ho. rewrite Ht in Ho. unfold owns in Ho. simpl in Ho. set_solver.
    + intros c Hc. rewrite Ht. simpl. split; [done|set_solver].
Qed.

Lemma linv_step x y : linv x -> lstep x y -> linv y.
Proof.
  intros HI Hs. destruct Hs as [c s' t Hc <- Hr E|c s' t Hc <- Hr He E|
    c l s' t Hc Hl <- Hr E|c l ok s' t Hc Hl <- Hr E|c l s' t Hc Hl <- Hr E|
    c l s' t Hc Hl <- Hr E|c l s' t Hc Hl <- Hr E|c l s' t Hc <- Hr E].
  - by apply push_inv.
  - apply (pop_inv x c HI Hc); auto; unfold depth; simpl; rewrite ?Hr; lia.
  - by apply enter_inv.
  - by apply xchg_inv.
  - by apply record_inv.
  - by apply release_inv.
  - by apply store_inv.
  - pose proof (ci_extra _ _ (li_cpu x HI c Hc)).
    apply (pop_inv x c HI Hc); auto; [..|eauto]; unfold depth; simpl; rewrite ?Hr; lia.
Qed.

(** (C10) Mutual exclusion: in every state that CPUs running [acquire] and
    [release] can reach, at most one of them has a given lock, from the [xchg]
    that took it to the store that frees it; the lock's fields say so; and a
    CPU that has or waits for a lock has its interrupts off. *)
Theorem spinlock_mutual_exclusion x y :
  lstart x -> rtc lstep x y ->
  (forall l c d, (l < length (locks (l_st y)))%nat ->
     (c < length (lcpus (l_st y)))%nat -> (d < length (lcpus (l_st y)))%nat ->
     owns (l_th y c) l -> owns (l_th y d) l -> c = d) /\
  (forall l, (l < length (locks (l_st y)))%nat ->
     locked (lk_at (l_st y) l) = true <->
     exists c, (c < length (lcpus (l_st y)))%nat /\ owns (l_th y c) l) /\
  (forall c, (c < length (lcpus (l_st y)))%nat ->
     th_ph (l_th y c) <> Run \/ th_held (l_th y c) <> [] ->
     eflags_if (lcpu_at (l_st y) c) = false).
Proof.
  intros H0 Hr. assert (HI : linv y).
  { apply linv_start in H0. clear - H0 Hr.
    induction Hr as [|x y z Hs _ IH]; [done|]. apply IH. by eapply linv_step. }
  split_and!.
  - intros l c d Hl Hc Hd. by apply (li_lock y HI l Hl).
  - intros l Hl. by apply (li_lock y HI l Hl).
  - intros c Hc Hb. destruct (li_cpu y HI c Hc) as [D He Hoff _ _]. apply Hoff.
    rewrite D. unfold depth. destruct Hb as [Hb|Hb].
    + destruct (th_ph (l_th y c)); [done|lia..].
    + destruct (th_held (l_th y c)); [done|]. cbn [length].
      destruct (th_ph (l_th y c)); lia.
Qed.

(** The start of two CPUs with two locks, and CPU 0 in the loop of
    [acquire]. *)
Definition demo_lconf : lconf := {| l_st := demo_lst; l_th := fun _ => idle |}.

Lemma spinlock_mutual_exclusion_witness :
  exists y, rtc lstep demo_lconf y /\ th_ph (l_th y 0) = Taken 1 /\
    locked (lk_at (l_st y) 1) = true /\ eflags_if (lcpu_at (l_st y) 0) = false.
Proof.
  assert (H0 : lstart demo_lconf).
  { split_and!; [exact demo_apic| | |done].
    - intros k Hk. simpl in Hk. set_solver.
    - intros [|[|c]] Hc; simpl in *; [done|done|lia]. }
  destruct (acquire_enter 0 1 demo_lst) as [[[] s1]| | | |] eqn:E1; try discriminate.
  destruct (acquire_xchg 1 s1) as [[ok s2]| | | |] eqn:E2; try discriminate.
  set (y1 := move 0 {| th_ph := Spin 1; th_held := []; th_extra := 0 |} s1 demo_lconf).
  set (y2 := move 0 {| th_ph := if ok then Taken 1 else Spin 1; th_held := [];
                       th_extra := 0 |} s2 y1).
  assert (Hr : rtc lstep demo_lconf y2).
  { eapply rtc_l; [|eapply rtc_l; [|apply rtc_refl]].
    - apply (step_enter demo_lconf 0 1 s1 idle); simpl; auto; lia.
    - vm_compute in E1. injection E1 as E1.
      apply (step_xchg y1 0 1 ok s2 {| th_ph := Spin 1; th_held := []; th_extra := 0 |});
        auto; try (subst s1; simpl; lia). }
  vm_compute in E1. injection E1 as E1. subst s1. vm_compute in E2.
  injection E2 as E2 E3. subst ok.
  exists y2. split; [exact Hr|]. split; [reflexivity|].
  destruct (spinlock_mutual_exclusion demo_lconf y2 H0 Hr) as (_ & Hl & Hoff).
  split.
  - apply Hl.
    + subst s2. simpl. lia.
    + exists 0%nat. split; [subst s2; simpl; lia|]. right. left. reflexivity.
  - apply Hoff; [subst s2; simpl; lia|]. left. discriminate.
Defined.
