(* ===== verification/Bio.v ===== *)
(** * Buffer cache (bio.c, memide.c)

    The cache is the array of [NBUF] buffers and the list head, linked
    through [prev] and [next]; buffer pointers are indices, and [HEAD] is
    [&bcache.head].  [bcache.lock] makes the list operations atomic.  The
    calling process is [cur], its pid; a call that would sleep on another
    holder's lock is [Blocked].  The disk is the array of blocks memide.c
    keeps in memory; [hist] is a history variable with the contents of the
    disk before each block write, newest first, which no operation reads. *)

From S2P Require Import Prelude Param Sleeplock.

Abbreviation block := (list Z).

Record buf := {
  flags : Z;
  dev : Z;
  blockno : Z;
  lock : sleeplock;
  refcnt : Z;
  prev : nat;
  next : nat;
  data : block
}.

(** The zero-initialised static buffer. *)
Definition buf0 : buf :=
  {| flags := 0; dev := 0; blockno := 0; lock := initsleeplock; refcnt := 0;
     prev := 0; next := 0; data := replicate (Z.to_nat BSIZE) 0 |}.
#[global] Instance buf_inhabited : Inhabited buf := populate buf0.

Definition set_flags (v : Z) (b : buf) : buf :=
  {| flags := v; dev := dev b; blockno := blockno b; lock := lock b;
     refcnt := refcnt b; prev := prev b; next := next b; data := data b |}.
Definition set_lock (v : sleeplock) (b : buf) : buf :=
  {| flags := flags b; dev := dev b; blockno := blockno b; lock := v;
     refcnt := refcnt b; prev := prev b; next := next b; data := data b |}.
Definition set_refcnt (v : Z) (b : buf) : buf :=
  {| flags := flags b; dev := dev b; blockno := blockno b; lock := lock b;
     refcnt := v; prev := prev b; next := next b; data := data b |}.
Definition set_prev (v : nat) (b : buf) : buf :=
  {| flags := flags b; dev := dev b; blockno := blockno b; lock := lock b;
     refcnt := refcnt b; prev := v; next := next b; data := data b |}.
Definition set_next (v : nat) (b : buf) : buf :=
  {| flags := flags b; dev := dev b; blockno := blockno b; lock := lock b;
     refcnt := refcnt b; prev := prev b; next := v; data := data b |}.
Definition set_data (v : block) (b : buf) : buf :=
  {| flags := flags b; dev := dev b; blockno := blockno b; lock := lock b;
     refcnt := refcnt b; prev := prev b; next := next b; data := v |}.
Definition recycle (d n : Z) (b : buf) : buf :=
  {| flags := 0; dev := d; blockno := n; lock := lock b;
     refcnt := 1; prev := prev b; next := next b; data := data b |}.

Record bstate := {
  bufs : list buf;
  disk : list block;
  hist : list (list block);
  cur : Z
}.

Definition HEAD : nat := Z.to_nat NBUF.

Definition bat (s : bstate) (i : nat) : buf := bufs s !!! i.
Definition set_bufs (bs : list buf) (s : bstate) : bstate :=
  {| bufs := bs; disk := disk s; hist := hist s; cur := cur s |}.
Definition upd_st (i : nat) (f : buf -> buf) (s : bstate) : bstate :=
  set_bufs (alter f i (bufs s)) s.
Definition upd (i : nat) (f : buf -> buf) : M bstate unit :=
  modify (upd_st i f).

(** ** binit *)

Definition binit_step (b : nat) : M bstate unit :=
  let! hn := gets (fun s => next (bat s HEAD)) in
  do! upd b (set_next hn) in
  do! upd b (set_prev HEAD) in
  do! upd b (set_lock initsleeplock) in
  let! hn := gets (fun s => next (bat s HEAD)) in
  do! upd hn (set_prev b) in
  upd HEAD (set_next b).

Fixpoint binit_loop (bs : list nat) : M bstate unit :=
  match bs with
  | [] => ret tt
  | b :: bs => do! binit_step b in binit_loop bs
  end.

Definition binit : M bstate unit :=
  do! upd HEAD (set_prev HEAD) in
  do! upd HEAD (set_next HEAD) in
  binit_loop (seq 0 HEAD).

(** ** bget *)

(** The first scan of [bget]: the cached buffer of the block, if any. *)
Fixpoint bget_cached (fuel : nat) (d n : Z) (b : nat) : M bstate (option nat) :=
  if decide (b = HEAD) then ret None
  else
    match fuel with
    | O => out_of_fuel
    | S f =>
        let! x := gets (fun s => bat s b) in
        if (dev x =? d) && (blockno x =? n) then ret (Some b)
        else bget_cached f d n (next x)
    end.

(** The second scan: the least recently used buffer nobody needs. *)
Fixpoint bget_free (fuel : nat) (b : nat) : M bstate (option nat) :=
  if decide (b = HEAD) then ret None
  else
    match fuel with
    | O => out_of_fuel
    | S f =>
        let! x := gets (fun s => bat s b) in
        if (refcnt x =? 0) && negb (has (flags x) B_DIRTY) then ret (Some b)
        else bget_free f (prev x)
    end.

(** [acquiresleep(&b->lock)] by the current process. *)
Definition lock_buf (b : nat) : M bstate unit :=
  let! s := get in
  match acquiresleep (lock (bat s b)) (cur s) with
  | Some lk => upd b (set_lock lk)
  | None => blocked
  end.

Definition bget (d n : Z) : M bstate nat :=
  let! first := gets (fun s => next (bat s HEAD)) in
  let! c := bget_cached HEAD d n first in
  match c with
  | Some b =>
      do! upd b (fun x => set_refcnt (u32 (refcnt x + 1)) x) in
      do! lock_buf b in
      ret b
  | None =>
      let! last := gets (fun s => prev (bat s HEAD)) in
      let! c := bget_free HEAD last in
      match c with
      | Some b =>
          do! upd b (recycle d n) in
          do! lock_buf b in
          ret b
      | None => panic "bget: no buffers"
      end
  end.

(** ** memide.c *)

Definition holding_buf (b : nat) (s : bstate) : bool :=
  holdingsleep (lock (bat s b)) (cur s).

Definition write_disk (n : Z) (d : block) (s : bstate) : bstate :=
  {| bufs := bufs s; disk := <[Z.to_nat n := d]> (disk s);
     hist := disk s :: hist s; cur := cur s |}.

Definition iderw (b : nat) : M bstate unit :=
  let! s := get in
  let x := bat s b in
  if negb (holding_buf b s) then panic "iderw: buf not locked"
  else if Z.land (flags x) (Z.lor B_VALID B_DIRTY) =? B_VALID
  then panic "iderw: nothing to do"
  else if negb (dev x =? 1) then panic "iderw: request not for disk 1"
  else if Z.of_nat (length (disk s)) <=? blockno x
  then panic "iderw: block out of range"
  else
    do! (if has (flags x) B_DIRTY then
           do! upd b (set_flags (Z.land (flags x) (Z.lnot B_DIRTY))) in
           modify (write_disk (blockno x) (data x))
         else upd b (set_data (disk s !!! Z.to_nat (blockno x)))) in
    upd b (fun x => set_flags (Z.lor (flags x) B_VALID) x).

(** ** bread, bwrite, brelse *)

Definition bread (d n : Z) : M bstate nat :=
  let! b := bget d n in
  let! s := get in
  do! (if has (flags (bat s b)) B_VALID then ret tt else iderw b) in
  ret b.

Definition bwrite (b : nat) : M bstate unit :=
  let! s := get in
  if negb (holding_buf b s) then panic "bwrite"
  else
    do! upd b (fun x => set_flags (Z.lor (flags x) B_DIRTY) x) in
    iderw b.

Definition unlink_buf (b : nat) : M bstate unit :=
  let! x := gets (fun s => bat s b) in
  do! upd (next x) (set_prev (prev x)) in
  let! x := gets (fun s => bat s b) in
  upd (prev x) (set_next (next x)).

Definition push_buf (b : nat) : M bstate unit :=
  let! hn := gets (fun s => next (bat s HEAD)) in
  do! upd b (set_next hn) in
  do! upd b (set_prev HEAD) in
  let! hn := gets (fun s => next (bat s HEAD)) in
  do! upd hn (set_prev b) in
  upd HEAD (set_next b).

Definition brelse (b : nat) : M bstate unit :=
  let! s := get in
  if negb (holding_buf b s) then panic "brelse"
  else
    do! upd b (fun x => set_lock (releasesleep (lock x)) x) in
    do! upd b (fun x => set_refcnt (u32 (refcnt x - 1)) x) in
    let! x := gets (fun s => bat s b) in
    if refcnt x =? 0 then do! unlink_buf b in push_buf b
    else ret tt.

