(* ===== verification/BioInv.v ===== *)
(** * The buffer cache keeps the blocks of the disk

    [bio s v D H l] relates a cache state to what its clients see: [v] gives
    the current contents of every block, [D] is the set of blocks pinned by
    [B_DIRTY], [H] the set of blocks the current process holds and [l] the
    buffers from most to least recently used. *)

From S2P Require Import Prelude Param Sleeplock Bio.

(** ** The list of buffers *)

Definition linked (s : bstate) (p : nat * nat) : Prop :=
  next (bat s p.1) = p.2 /\ prev (bat s p.2) = p.1.

(** The links of a path from [a] to [b] through [l]. *)
Definition links (a : nat) (l : list nat) (b : nat) : list (nat * nat) :=
  zip (a :: l) (l ++ [b]).

Definition ring (s : bstate) (l : list nat) : Prop :=
  Forall (linked s) (links HEAD l HEAD).

Lemma links_app a l1 x l2 b :
  links a (l1 ++ x :: l2) b = links a l1 x ++ links x l2 b.
Proof.
  revert a. induction l1 as [|y l1 IH]; intros a; [done|].
  unfold links in *. simpl in *. by rewrite IH.
Qed.

Lemma links_elem a l b u v :
  (u, v) ∈ links a l b -> u ∈ a :: l /\ v ∈ l ++ [b].
Proof.
  unfold links. intros H. split; [by eapply elem_of_zip_l|by eapply elem_of_zip_r].
Qed.

(** Removing a node [x] between [l1] and [l2] replaces its two links by one. *)
Lemma links_cut a l1 l2 b :
  exists p A n B, (forall x, links a l1 x = A ++ [(p, x)]) /\
    (forall x, links x l2 b = (x, n) :: B) /\
    links a (l1 ++ l2) b = A ++ (p, n) :: B /\
    (p ∈ a :: l1) /\ (n ∈ l2 ++ [b]) /\
    (forall u v, (u, v) ∈ A -> u ∈ a :: l1 /\ v ∈ l1) /\
    (forall u v, (u, v) ∈ B -> u ∈ l2 /\ v ∈ l2 ++ [b]).
Proof.
  assert (H1 : exists p A, (forall x, links a l1 x = A ++ [(p, x)]) /\
    (p ∈ a :: l1) /\ forall u v, (u, v) ∈ A -> u ∈ a :: l1 /\ v ∈ l1).
  { destruct l1 as [|p l1 _] using rev_ind.
    - exists a, []. split_and!; [done|by left|]. by intros u v ?%elem_of_nil.
    - exists p, (links a l1 p). split_and!.
      + intros x. by rewrite links_app.
      + rewrite elem_of_cons, elem_of_app, list_elem_of_singleton. auto.
      + intros u v [Hu Hv]%links_elem. split; [|done].
        rewrite elem_of_cons, elem_of_app in *. tauto. }
  destruct H1 as (p & A & H1 & Hp & HA). exists p, A. destruct l2 as [|n l2].
  - exists b, []. rewrite app_nil_r. split_and!; auto; [by left|].
    by intros u v ?%elem_of_nil.
  - exists n, (links n l2 b). split_and!; auto; [|by left|].
    + by rewrite links_app, H1, <- app_assoc.
    + intros u v [Hu Hv]%links_elem. split; [done|]. simpl.
      rewrite elem_of_cons. by right.
Qed.

(** ** Reading an updated state *)

Lemma bat_upd s i f j :
  (i < length (bufs s))%nat ->
  bat (upd_st i f s) j = if decide (i = j) then f (bat s i) else bat s j.
Proof.
  intros Hi. unfold bat, upd_st. simpl. rewrite list_lookup_total_alter.
  repeat case_decide; naive_solver.
Qed.

Lemma upd_length s i f : length (bufs (upd_st i f s)) = length (bufs s).
Proof. apply length_alter. Qed.

(** Updates that keep the pointers keep the ring. *)
Lemma ring_ext s s' l :
  (forall i, next (bat s' i) = next (bat s i) /\ prev (bat s' i) = prev (bat s i)) ->
  ring s l -> ring s' l.
Proof.
  intros He HR. eapply Forall_impl; [exact HR|]. intros [u v] [H1 H2].
  split; simpl in *; [by rewrite (proj1 (He u))|by rewrite (proj2 (He v))].
Qed.

Lemma ring_split s l1 i l2 :
  ring s (l1 ++ i :: l2) ->
  Forall (linked s) (links HEAD l1 i) /\ Forall (linked s) (links i l2 HEAD).
Proof. unfold ring. by rewrite links_app, Forall_app. Qed.

Definition unlinked (s : bstate) (i : nat) : bstate :=
  let x := bat s i in
  upd_st (prev x) (set_next (next x)) (upd_st (next x) (set_prev (prev x)) s).

Definition pushed (s : bstate) (i : nat) : bstate :=
  let h := next (bat s HEAD) in
  upd_st HEAD (set_next i)
    (upd_st h (set_prev i) (upd_st i (set_prev HEAD) (upd_st i (set_next h) s))).

(** [unlinked] and [pushed] on the fields other than the pointers. *)
Definition same_bufs (s s' : bstate) : Prop :=
  length (bufs s') = length (bufs s) /\ disk s' = disk s /\ hist s' = hist s /\
  cur s' = cur s /\
  forall i, flags (bat s' i) = flags (bat s i) /\ dev (bat s' i) = dev (bat s i) /\
    blockno (bat s' i) = blockno (bat s i) /\ lock (bat s' i) = lock (bat s i) /\
    refcnt (bat s' i) = refcnt (bat s i) /\ data (bat s' i) = data (bat s i).

Lemma same_bufs_trans s1 s2 s3 :
  same_bufs s1 s2 -> same_bufs s2 s3 -> same_bufs s1 s3.
Proof.
  intros (L1 & D1 & T1 & C1 & F1) (L2 & D2 & T2 & C2 & F2).
  split_and!; try congruence. intros i. specialize (F1 i). specialize (F2 i).
  intuition congruence.
Qed.

Lemma same_bufs_ptr s i f :
  (forall x, flags (f x) = flags x /\ dev (f x) = dev x /\
     blockno (f x) = blockno x /\ lock (f x) = lock x /\ refcnt (f x) = refcnt x /\
     data (f x) = data x) ->
  same_bufs s (upd_st i f s).
Proof.
  intros Hf. split_and!; auto; [apply upd_length|]. intros j.
  unfold bat, upd_st. simpl. rewrite list_lookup_total_alter.
  case_decide as Hd; [|done]. destruct Hd as [-> _]. apply Hf.
Qed.

Lemma unlinked_same s i : same_bufs s (unlinked s i).
Proof.
  eapply same_bufs_trans; [|unfold unlinked; by apply same_bufs_ptr].
  by apply same_bufs_ptr.
Qed.

Lemma pushed_same s i : same_bufs s (pushed s i).
Proof.
  unfold pushed. do 3 (eapply same_bufs_trans; [|by apply same_bufs_ptr]).
  by apply same_bufs_ptr.
Qed.

Lemma unlink_buf_run s i :
  next (bat s i) <> i -> (next (bat s i) < length (bufs s))%nat ->
  unlink_buf i s = Ok (tt, unlinked s i).
Proof.
  intros Hn Hl. unfold unlink_buf, upd, gets, modify, bind, unlinked.
  do 2 f_equal. rewrite bat_upd by done. by rewrite decide_False.
Qed.

Lemma push_buf_run s i :
  i <> HEAD -> (i < length (bufs s))%nat -> push_buf i s = Ok (tt, pushed s i).
Proof.
  intros Hn Hl. unfold push_buf, upd, gets, modify, bind, pushed.
  assert (E : bat (upd_st i (set_prev HEAD)
    (upd_st i (set_next (next (bat s HEAD))) s)) HEAD = bat s HEAD).
  { rewrite !bat_upd by (rewrite ?upd_length; done). by rewrite !decide_False. }
  by rewrite E.
Qed.

Lemma ring_unlink s l1 i l2 :
  ring s (l1 ++ i :: l2) -> NoDup (HEAD :: l1 ++ i :: l2) ->
  (forall j, j ∈ HEAD :: l1 ++ i :: l2 -> (j < length (bufs s))%nat) ->
  ring (unlinked s i) (l1 ++ l2) /\ next (bat s i) <> i /\
  (next (bat s i) < length (bufs s))%nat.
Proof.
  intros [R1 R2]%ring_split Hnd Hlt.
  destruct (links_cut HEAD l1 l2 HEAD)
    as (p & A & n & B & HA & HB & Hcut & Hp & Hn & HAin & HBin).
  rewrite HA in R1. rewrite HB in R2.
  apply Forall_app in R1 as [RA [[Hp1 Hp2] _]%Forall_cons].
  apply Forall_cons in R2 as [[Hn1 Hn2] RB]. simpl in *.
  assert (Hi : (i ∉ HEAD :: l1) /\ (i ∉ l2 ++ [HEAD])).
  { rewrite NoDup_cons, NoDup_app, NoDup_cons in Hnd.
    rewrite elem_of_app, elem_of_cons in Hnd.
    destruct Hnd as (Hh & _ & Hnd & Hnd2 & _). split.
    - intros [->|Hi]%elem_of_cons; [tauto|]. apply (Hnd i Hi), elem_of_cons. by left.
    - intros [?|[->|?%elem_of_nil]%elem_of_cons]%elem_of_app; tauto. }
  assert (Hpl : (p < length (bufs s))%nat /\ (n < length (bufs s))%nat).
  { rewrite elem_of_cons in Hp. rewrite elem_of_app, list_elem_of_singleton in Hn.
    split; apply Hlt; rewrite elem_of_cons, elem_of_app, elem_of_cons; tauto. }
  assert (Hpi : p <> i /\ n <> i) by (split; intros ->; tauto).
  rewrite Hn1. split; [|split; [tauto|apply Hpl]].
  unfold ring, unlinked. rewrite Hn1, Hp2, Hcut.
  set (s1 := upd_st n (set_prev p) s). set (s2 := upd_st p (set_next n) s1).
  assert (E : forall j, bat s2 j = if decide (p = j)
      then set_next n (if decide (n = p) then set_prev p (bat s n) else bat s p)
      else if decide (n = j) then set_prev p (bat s n) else bat s j).
  { intros j. subst s2 s1. rewrite !bat_upd by (rewrite ?upd_length; tauto). done. }
  assert (Hkeep : forall u v, linked s (u, v) -> u <> i -> v <> i -> linked s2 (u, v)).
  { intros u v [H1 H2] Hu Hv. simpl in *.
    split; simpl; rewrite E; repeat case_decide; subst; simpl; congruence. }
  rewrite Forall_forall in RA, RB. apply Forall_app. split; [|apply Forall_cons; split].
  - apply Forall_forall. intros [u v] Huv. pose proof (HAin u v Huv) as [H1 H2].
    apply Hkeep; [by apply RA|intros ->; tauto|].
    intros ->. apply (proj1 Hi), elem_of_cons. by right.
  - split; simpl; rewrite E; repeat case_decide; subst; simpl; congruence.
  - apply Forall_forall. intros [u v] Huv. pose proof (HBin u v Huv) as [H1 H2].
    apply Hkeep; [by apply RB| |intros ->; tauto].
    intros ->. apply (proj2 Hi), elem_of_app. by left.
Qed.

Lemma ring_relink s l i :
  ring s l -> NoDup (HEAD :: i :: l) ->
  (forall j, j ∈ HEAD :: i :: l -> (j < length (bufs s))%nat) ->
  ring (pushed s i) (i :: l).
Proof.
  intros HR Hnd Hlt.
  destruct (links_cut HEAD [] l HEAD)
    as (p & A & n & B & _ & HB & _ & _ & Hn & _ & HBin).
  unfold ring in *. rewrite HB in HR. apply Forall_cons in HR as [[Hh1 Hh2] RB].
  simpl in Hh1, Hh2. rewrite !NoDup_cons, elem_of_cons in Hnd.
  destruct Hnd as (Hhi & Hil & _).
  assert (HH : (HEAD < length (bufs s))%nat) by (apply Hlt; by left).
  assert (Hi : (i < length (bufs s))%nat) by (apply Hlt; right; by left).
  assert (Hnl : (n < length (bufs s))%nat).
  { apply Hlt. rewrite elem_of_app, list_elem_of_singleton in Hn.
    rewrite !elem_of_cons. tauto. }
  assert (Hni : n <> i).
  { rewrite elem_of_app, list_elem_of_singleton in Hn.
    intros ->. destruct Hn as [|Hn]; [done|]. apply Hhi. by left. }
  change (links HEAD (i :: l) HEAD) with ((HEAD, i) :: links i l HEAD).
  rewrite HB. unfold pushed. rewrite Hh1.
  set (s' := upd_st HEAD _ _).
  assert (E : forall j, bat s' j =
    let b1 := fun j => if decide (i = j)
       then set_prev HEAD (set_next n (bat s i)) else bat s j in
    let b2 := fun j => if decide (n = j) then set_prev i (b1 n) else b1 j in
    if decide (HEAD = j) then set_next i (b2 HEAD) else b2 j).
  { intros j. subst s'. rewrite !bat_upd by (rewrite ?upd_length; tauto).
    simpl. repeat case_decide; subst; done. }
  simpl in E. rewrite Forall_forall in RB.
  apply Forall_cons; split; [|apply Forall_cons; split].
  - split; simpl; rewrite E; repeat case_decide; subst; simpl; naive_solver.
  - split; simpl; rewrite E; repeat case_decide; subst; simpl; naive_solver.
  - apply Forall_forall. intros [u v] Huv. pose proof (HBin u v Huv) as [H1 H2].
    destruct (RB _ Huv) as [L1 L2]. simpl in L1, L2.
    assert (u <> HEAD) by (intros ->; tauto).
    assert (u <> i) by (intros ->; tauto).
    assert (v <> i).
    { intros ->. rewrite elem_of_app, list_elem_of_singleton in H2.
      destruct H2 as [|H2]; [done|]. apply Hhi. by left. }
    split; simpl; rewrite E; repeat case_decide; subst; simpl; congruence.
Qed.

(** ** The scans of [bget] *)

Lemma bget_cached_run fuel d n s l x :
  Forall (linked s) (links x l HEAD) -> HEAD ∉ l -> (length l <= fuel)%nat ->
  bget_cached fuel d n (next (bat s x)) s =
  Ok (List.find (fun i => (dev (bat s i) =? d) && (blockno (bat s i) =? n)) l, s).
Proof.
  revert fuel x. induction l as [|y l IH]; intros fuel x HL Hni Hf.
  - apply Forall_cons in HL as [[H1 _] _]. simpl in H1. rewrite H1.
    destruct fuel; cbn [bget_cached bget_free]; by rewrite decide_True.
  - change (links x (y :: l) HEAD) with ((x, y) :: links y l HEAD) in HL.
    apply Forall_cons in HL as [[H1 _] HL]. simpl in H1, Hf. rewrite H1.
    rewrite elem_of_cons in Hni. destruct fuel as [|fuel]; [lia|].
    cbn [bget_cached]. rewrite decide_False by (intros ->; tauto).
    unfold bind, gets. cbn [List.find].
    destruct ((dev (bat s y) =? d) && (blockno (bat s y) =? n)); [done|].
    apply IH; [done|tauto|lia].
Qed.

Definition evictable (s : bstate) (i : nat) : bool :=
  (refcnt (bat s i) =? 0) && negb (has (flags (bat s i)) B_DIRTY).

Lemma bget_free_run fuel s l x :
  Forall (linked s) (links HEAD l x) -> HEAD ∉ l -> (length l <= fuel)%nat ->
  bget_free fuel (prev (bat s x)) s = Ok (List.find (evictable s) (rev l), s).
Proof.
  revert fuel x. induction l as [|y l IH] using rev_ind; intros fuel x HL Hni Hf.
  - apply Forall_cons in HL as [[_ H1] _]. simpl in H1. rewrite H1.
    destruct fuel; cbn [bget_cached bget_free]; by rewrite decide_True.
  - rewrite links_app, Forall_app in HL. destruct HL as [HL HL2].
    apply Forall_cons in HL2 as [[_ H1] _]. simpl in H1. rewrite H1.
    rewrite elem_of_app, list_elem_of_singleton in Hni.
    rewrite length_app in Hf. simpl in Hf. destruct fuel as [|fuel]; [lia|].
    rewrite rev_app_distr. cbn [bget_free rev app List.find].
    rewrite decide_False by (intros ->; tauto). unfold bind, gets. fold (evictable s y).
    destruct (evictable s y); [done|]. apply IH; [done|tauto|lia].
Qed.

(** ** The invariant *)

(** Buffer [i] is the cached copy of block [n]. *)
Definition isbuf (s : bstate) (i : nat) (n : Z) : Prop :=
  (i < HEAD)%nat /\ dev (bat s i) = 1 /\ blockno (bat s i) = n.

Definition nblocks (s : bstate) : Z := Z.of_nat (length (disk s)).

Definition held_lock (s : bstate) : sleeplock :=
  {| sl_locked := true; sl_pid := cur s |}.

Record bio (s : bstate) (v : Z -> block) (D H : gset Z) (l : list nat) : Prop := {
  bi_len : length (bufs s) = S HEAD;
  bi_ring : ring s l;
  bi_perm : l ≡ₚ seq 0 HEAD;
  bi_uniq : forall i j n, isbuf s i n -> isbuf s j n -> i = j;
  bi_unused : forall i, (i < HEAD)%nat -> dev (bat s i) <> 1 ->
    flags (bat s i) = 0 /\ refcnt (bat s i) = 0 /\ lock (bat s i) = initsleeplock;
  bi_cached : forall n, n ∈ D ∪ H -> exists i, isbuf s i n;
  bi_flags : forall i n, isbuf s i n ->
    flags (bat s i) = if decide (n ∈ D) then Z.lor B_VALID B_DIRTY else B_VALID;
  bi_lock : forall i n, isbuf s i n ->
    lock (bat s i) = (if decide (n ∈ H) then held_lock s else initsleeplock) /\
    refcnt (bat s i) = (if decide (n ∈ H) then 1 else 0);
  bi_data : forall i n, isbuf s i n -> data (bat s i) = v n;
  bi_range : forall i n, isbuf s i n -> 0 <= n < nblocks s;
  bi_disk : forall n, 0 <= n < nblocks s -> n ∉ D ∪ H ->
    v n = disk s !!! Z.to_nat n;
  bi_size : forall n, 0 <= n < nblocks s -> length (v n) = Z.to_nat BSIZE;
  bi_dsize : forall n, 0 <= n < nblocks s ->
    length (disk s !!! Z.to_nat n) = Z.to_nat BSIZE
}.

(** Changing only the links keeps the invariant. *)
Lemma bio_relink s v D H l s' l' :
  bio s v D H l -> same_bufs s s' -> ring s' l' -> l' ≡ₚ l -> bio s' v D H l'.
Proof.
  intros [] (EL & ED & ET & EC & EF) HR HP.
  assert (HI : forall i n, isbuf s' i n <-> isbuf s i n).
  { intros i n. unfold isbuf. destruct (EF i) as (_ & -> & -> & _). done. }
  assert (HN : nblocks s' = nblocks s) by (unfold nblocks; by rewrite ED).
  assert (HK : held_lock s' = held_lock s) by (unfold held_lock; by rewrite EC).
  split; rewrite ?HN, ?ED, ?HK; auto; try congruence.
  - by rewrite HP.
  - intros i j n. rewrite !HI. eauto.
  - intros i Hi. destruct (EF i) as (-> & -> & _ & -> & -> & _). eauto.
  - intros n Hn. destruct (bi_cached0 n Hn) as [i Hi]. exists i. by apply HI.
  - intros i n Hi%HI. destruct (EF i) as (-> & _). eauto.
  - intros i n Hi%HI. destruct (EF i) as (_ & _ & _ & -> & -> & _). eauto.
  - intros i n Hi%HI. destruct (EF i) as (_ & _ & _ & _ & _ & ->). eauto.
  - intros i n Hi%HI. eauto.
Qed.

(** One buffer [i] changes, and now holds block [n]; the block it held
    before, if another, was neither pinned nor held. *)
Lemma bio_change s v D H l s' i x v' D' H' n :
  bio s v D H l -> (i < HEAD)%nat ->
  (forall j, bat s' j = if decide (i = j) then x else bat s j) ->
  length (bufs s') = length (bufs s) -> cur s' = cur s ->
  length (disk s') = length (disk s) ->
  next x = next (bat s i) -> prev x = prev (bat s i) ->
  dev x = 1 -> blockno x = n -> 0 <= n < nblocks s ->
  (forall j, isbuf s j n -> j = i) ->
  (forall m, isbuf s i m -> m <> n -> m ∉ D ∪ H) ->
  (forall m, m <> n -> (m ∈ D' <-> m ∈ D) /\ (m ∈ H' <-> m ∈ H) /\
     v' m = v m /\
     (0 <= m < nblocks s -> disk s' !!! Z.to_nat m = disk s !!! Z.to_nat m)) ->
  flags x = (if decide (n ∈ D') then Z.lor B_VALID B_DIRTY else B_VALID) ->
  lock x = (if decide (n ∈ H') then held_lock s else initsleeplock) ->
  refcnt x = (if decide (n ∈ H') then 1 else 0) ->
  data x = v' n ->
  (n ∉ D' ∪ H' -> v' n = disk s' !!! Z.to_nat n) ->
  length (v' n) = Z.to_nat BSIZE ->
  length (disk s' !!! Z.to_nat n) = Z.to_nat BSIZE ->
  bio s' v' D' H' l.
Proof.
  intros HB Hi EB EL EC ED Hnx Hpv Hd Hn Hr Hu Hold Hm Hf Hl Hrc Hdt Hdk Hs1 Hs2.
  assert (HN : nblocks s' = nblocks s) by (unfold nblocks; by rewrite ED).
  assert (HK : held_lock s' = held_lock s) by (unfold held_lock; by rewrite EC).
  assert (HI : forall j m, isbuf s' j m ->
    (j = i /\ m = n /\ bat s' j = x) \/
    (j <> i /\ m <> n /\ isbuf s j m /\ bat s' j = bat s j)).
  { intros j m. unfold isbuf. rewrite EB. destruct (decide (i = j)) as [Hd'|Hd'].
    - intros (_ & _ & E). left. split_and!; congruence.
    - intros (H1 & H2 & H3). right. split_and!; auto.
      intros ->. apply Hd'. symmetry. apply (Hu j). by split_and!. }
  assert (Hin : isbuf s' i n).
  { unfold isbuf. rewrite EB, decide_True by done. auto. }
  split; rewrite ?HN, ?HK.
  - rewrite EL. apply HB.
  - apply (ring_ext s); [|apply HB]. intros j. rewrite EB.
    destruct (decide (i = j)) as [<-|]; auto.
  - apply HB.
  - intros j k m [(-> & -> & _)|(? & ? & Hj & _)]%HI [(-> & E & _)|(? & ? & Hk & _)]%HI;
      try done. by apply (bi_uniq _ _ _ _ _ HB j k m).
  - intros j Hj. rewrite EB.
    destruct (decide (i = j)); [by rewrite Hd|].
    by apply (bi_unused _ _ _ _ _ HB).
  - intros m Hmin. destruct (decide (m = n)) as [->|Hne]; [by exists i|].
    destruct (Hm m Hne) as (M1 & M2 & _).
    assert (Hin0 : m ∈ D ∪ H) by (rewrite elem_of_union in *; tauto).
    destruct (bi_cached _ _ _ _ _ HB m Hin0) as [j Hj]. exists j.
    destruct (decide (i = j)) as [<-|Hij]; [by destruct (Hold m Hj Hne)|].
    unfold isbuf. rewrite EB, decide_False by done. exact Hj.
  - intros j m [(-> & -> & ->)|(_ & Hne & Hj & ->)]%HI; [done|].
    rewrite (bi_flags _ _ _ _ _ HB j m Hj). destruct (Hm m Hne) as (M1 & _).
    destruct (decide (m ∈ D)), (decide (m ∈ D')); tauto.
  - intros j m [(-> & -> & ->)|(_ & Hne & Hj & ->)]%HI; [done|].
    destruct (bi_lock _ _ _ _ _ HB j m Hj) as [-> ->].
    destruct (Hm m Hne) as (_ & M1 & _).
    destruct (decide (m ∈ H)), (decide (m ∈ H')); tauto.
  - intros j m [(-> & -> & ->)|(_ & Hne & Hj & ->)]%HI; [done|].
    rewrite (bi_data _ _ _ _ _ HB j m Hj). symmetry. by apply Hm.
  - intros j m [(-> & -> & _)|(_ & Hne & Hj & _)]%HI; [done|].
    by apply (bi_range _ _ _ _ _ HB j m).
  - intros m Hmr Hmn. destruct (decide (m = n)) as [->|Hne]; [by apply Hdk|].
    destruct (Hm m Hne) as (M1 & M2 & M3 & M4). rewrite M3, M4 by done.
    apply (bi_disk _ _ _ _ _ HB); [done|]. rewrite elem_of_union in *. tauto.
  - intros m Hmr. destruct (decide (m = n)) as [->|Hne]; [done|].
    destruct (Hm m Hne) as (_ & _ & M3 & _). rewrite M3.
    by apply (bi_size _ _ _ _ _ HB).
  - intros m Hmr. destruct (decide (m = n)) as [->|Hne]; [done|].
    destruct (Hm m Hne) as (_ & _ & _ & M4). rewrite M4 by done.
    by apply (bi_dsize _ _ _ _ _ HB).
Qed.

(** ** Holding a block: reading and changing its contents, pinning it *)

Definition fupd (v : Z -> block) (n : Z) (d : block) (m : Z) : block :=
  if decide (m = n) then d else v m.

Lemma bio_set_data s v D H l i n d :
  bio s v D H l -> isbuf s i n -> n ∈ H -> length d = Z.to_nat BSIZE ->
  bio (upd_st i (set_data d) s) (fupd v n d) D H l.
Proof.
  intros HB Hi Hn Hd. pose proof Hi as (Hlt & Hdv & Hbn).
  destruct (bi_lock _ _ _ _ _ HB i n Hi) as [Hl Hr].
  assert (Hr' := bi_range _ _ _ _ _ HB i n Hi).
  eapply (bio_change _ _ _ _ _ _ i (set_data d (bat s i)) _ _ _ n HB); auto.
  - intros j. rewrite bat_upd; [done|]. rewrite (bi_len _ _ _ _ _ HB). lia.
  - apply upd_length.
  - intros j Hj. by apply (bi_uniq _ _ _ _ _ HB j i n).
  - intros m (_ & _ & Hm). congruence.
  - intros m Hne. unfold fupd. by rewrite decide_False.
  - by apply (bi_flags _ _ _ _ _ HB).
  - unfold fupd. by rewrite decide_True.
  - intros Hno. rewrite elem_of_union in Hno. tauto.
  - unfold fupd. by rewrite decide_True.
  - by apply (bi_dsize _ _ _ _ _ HB).
Qed.

(** What [log_write] does to the buffer. *)
Lemma bio_pin s v D H l i n :
  bio s v D H l -> isbuf s i n -> n ∈ H ->
  bio (upd_st i (fun x => set_flags (Z.lor (flags x) B_DIRTY) x) s) v
    (D ∪ {[n]}) H l.
Proof.
  intros HB Hi Hn. pose proof Hi as (Hlt & Hdv & Hbn).
  destruct (bi_lock _ _ _ _ _ HB i n Hi) as [Hl Hr].
  assert (Hr' := bi_range _ _ _ _ _ HB i n Hi).
  eapply (bio_change _ _ _ _ _ _ i
    (set_flags (Z.lor (flags (bat s i)) B_DIRTY) (bat s i)) _ _ _ n HB); auto.
  - intros j. rewrite bat_upd; [done|]. rewrite (bi_len _ _ _ _ _ HB). lia.
  - apply upd_length.
  - intros j Hj. by apply (bi_uniq _ _ _ _ _ HB j i n).
  - intros m (_ & _ & Hm). congruence.
  - intros m Hne. rewrite elem_of_union, elem_of_singleton. tauto.
  - simpl. rewrite (bi_flags _ _ _ _ _ HB i n Hi).
    rewrite (decide_True (P := n ∈ D ∪ {[n]})) by set_solver.
    by destruct (decide (n ∈ D)).
  - by apply (bi_data _ _ _ _ _ HB).
  - intros Hno. rewrite elem_of_union in Hno. tauto.
  - by apply (bi_size _ _ _ _ _ HB).
  - by apply (bi_dsize _ _ _ _ _ HB).
Qed.

(** ** bread *)

Lemma bio_mem s v D H l i : bio s v D H l -> i ∈ l <-> (i < HEAD)%nat.
Proof.
  intros HB. rewrite (bi_perm _ _ _ _ _ HB), elem_of_seq. lia.
Qed.

Lemma bio_nodup s v D H l : bio s v D H l -> NoDup (HEAD :: l).
Proof.
  intros HB. apply NoDup_cons. rewrite (bio_mem _ _ _ _ _ _ HB). split; [lia|].
  rewrite (bi_perm _ _ _ _ _ HB). apply NoDup_seq.
Qed.

Lemma bio_lt s v D H l i :
  bio s v D H l -> i ∈ HEAD :: l -> (i < length (bufs s))%nat.
Proof.
  intros HB [->|Hi]%elem_of_cons; rewrite (bi_len _ _ _ _ _ HB); [lia|].
  apply (bio_mem _ _ _ _ _ _ HB) in Hi. lia.
Qed.

Lemma bget_cached_ok s v D H l n :
  bio s v D H l ->
  (exists i, isbuf s i n /\
     bget_cached HEAD 1 n (next (bat s HEAD)) s = Ok (Some i, s)) \/
  ((forall i, ~ isbuf s i n) /\
     bget_cached HEAD 1 n (next (bat s HEAD)) s = Ok (None, s)).
Proof.
  intros HB. rewrite (bget_cached_run _ _ _ _ l).
  - destruct (List.find _ l) as [i|] eqn:E; [left|right].
    + apply List.find_some in E as [Hi E]. exists i. split; [|done].
      apply list_elem_of_In, (bio_mem _ _ _ _ _ _ HB) in Hi.
      apply andb_true_iff in E as [E1%Z.eqb_eq E2%Z.eqb_eq]. by split_and!.
    + split; [|done]. intros i (Hi & Hd & Hn).
      apply (bio_mem _ _ _ _ _ _ HB), list_elem_of_In in Hi.
      eapply List.find_none in E; [|exact Hi]. by rewrite Hd, Hn, !Z.eqb_refl in E.
  - apply HB.
  - pose proof (bio_nodup _ _ _ _ _ HB) as Hnd. by apply NoDup_cons in Hnd as [? _].
  - rewrite (bi_perm _ _ _ _ _ HB), length_seq. lia.
Qed.

Lemma has_dirty (b : bool) :
  has (if b then Z.lor B_VALID B_DIRTY else B_VALID) B_DIRTY = b.
Proof. by destruct b. Qed.

Lemma evictable_spec s v D H l i n :
  bio s v D H l -> isbuf s i n -> evictable s i = true <-> n ∉ D ∪ H.
Proof.
  intros HB Hi. unfold evictable. rewrite (bi_flags _ _ _ _ _ HB i n Hi).
  destruct (bi_lock _ _ _ _ _ HB i n Hi) as [_ ->]. rewrite elem_of_union.
  destruct (decide (n ∈ D)), (decide (n ∈ H)); vm_compute; intuition congruence.
Qed.

(** Some buffer can be recycled unless pinned and held blocks fill the cache. *)
Lemma evictable_exists s v D H l :
  bio s v D H l -> (size (D ∪ H) < HEAD)%nat ->
  exists i, (i < HEAD)%nat /\ evictable s i = true.
Proof.
  intros HB Hsz. destruct (decide (Exists (fun i => evictable s i = true) (seq 0 HEAD)))
    as [He|Hne].
  { apply Exists_exists in He as (i & Hi%elem_of_seq & He). exists i. split; [lia|done]. }
  exfalso. rewrite <- Forall_Exists_neg, Forall_seq in Hne.
  set (ns := (fun i => blockno (bat s i)) <$> seq 0 HEAD).
  assert (Hbuf : forall i, (i < HEAD)%nat ->
    isbuf s i (blockno (bat s i)) /\ blockno (bat s i) ∈ D ∪ H).
  { intros i Hi. destruct (decide (dev (bat s i) = 1)) as [Hd|Hd].
    - assert (Hb : isbuf s i (blockno (bat s i))) by done. split; [done|].
      destruct (decide (blockno (bat s i) ∈ D ∪ H)); [done|].
      exfalso. apply (Hne i ltac:(lia)), (evictable_spec _ _ _ _ _ _ _ HB Hb). done.
    - exfalso. apply (Hne i ltac:(lia)). unfold evictable.
      by destruct (bi_unused _ _ _ _ _ HB i Hi Hd) as (-> & -> & _). }
  assert (Hnd : NoDup ns).
  { apply NoDup_fmap_2_strong; [|apply NoDup_seq].
    intros i j Hi%elem_of_seq Hj%elem_of_seq Hij.
    apply (bi_uniq _ _ _ _ _ HB i j (blockno (bat s i))); [apply Hbuf; lia|].
    rewrite Hij. apply Hbuf. lia. }
  assert (Hsub : list_to_set ns ⊆ D ∪ H).
  { intros n Hn. rewrite elem_of_list_to_set in Hn.
    apply list_elem_of_fmap in Hn as (i & -> & Hi%elem_of_seq). apply Hbuf. lia. }
  apply subseteq_size in Hsub. rewrite size_list_to_set in Hsub by done.
  unfold ns in Hsub. rewrite length_fmap, length_seq in Hsub. lia.
Qed.

Lemma bget_free_ok s v D H l :
  bio s v D H l -> (size (D ∪ H) < HEAD)%nat ->
  exists i, (i < HEAD)%nat /\ evictable s i = true /\
    bget_free HEAD (prev (bat s HEAD)) s = Ok (Some i, s).
Proof.
  intros HB Hsz. rewrite (bget_free_run _ _ l).
  - destruct (evictable_exists _ _ _ _ _ HB Hsz) as (k & Hk & He).
    destruct (List.find _ (rev l)) as [i|] eqn:E.
    + apply List.find_some in E as [Hi%in_rev E]. exists i.
      apply list_elem_of_In, (bio_mem _ _ _ _ _ _ HB) in Hi. done.
    + apply (bio_mem _ _ _ _ _ _ HB), list_elem_of_In, in_rev in Hk.
      eapply List.find_none in E; [|exact Hk]. congruence.
  - apply HB.
  - pose proof (bio_nodup _ _ _ _ _ HB) as Hnd. by apply NoDup_cons in Hnd as [? _].
  - rewrite (bi_perm _ _ _ _ _ HB), length_seq. lia.
Qed.

(** What an operation on buffers leaves alone. *)
Record same_disk (s s' : bstate) : Prop := {
  sd_disk : disk s' = disk s;
  sd_hist : hist s' = hist s;
  sd_cur : cur s' = cur s
}.

Lemma lock_buf_run i s :
  lock (bat s i) = initsleeplock ->
  lock_buf i s = Ok (tt, upd_st i (set_lock (held_lock s)) s).
Proof.
  intros Hl. unfold lock_buf, bind, get. by rewrite Hl.
Qed.

Definition hit_buf (s : bstate) (i : nat) : bstate :=
  upd_st i (set_lock (held_lock s))
    (upd_st i (fun x => set_refcnt (u32 (refcnt x + 1)) x) s).

Lemma bget_hit s v D H l i n :
  bio s v D H l -> isbuf s i n -> n ∉ H ->
  bget_cached HEAD 1 n (next (bat s HEAD)) s = Ok (Some i, s) ->
  bread 1 n s = Ok (i, hit_buf s i) /\ bio (hit_buf s i) v D (H ∪ {[n]}) l /\
  forall j m, isbuf s j m -> isbuf (hit_buf s i) j m.
Proof.
  intros HB Hi Hn E. pose proof Hi as (Hlt & Hdv & Hbn).
  assert (Hlen : (i < length (bufs s))%nat) by (rewrite (bi_len _ _ _ _ _ HB); lia).
  destruct (bi_lock _ _ _ _ _ HB i n Hi) as [Hl Hr].
  rewrite decide_False in Hl by done. rewrite decide_False in Hr by done.
  pose proof (bi_flags _ _ _ _ _ HB i n Hi) as Hf.
  set (s1 := upd_st i (fun x => set_refcnt (u32 (refcnt x + 1)) x) s).
  set (x := set_lock (held_lock s) (set_refcnt 1 (bat s i))).
  assert (E1 : bat s1 i = set_refcnt 1 (bat s i)).
  { unfold s1. rewrite bat_upd, decide_True, Hr by done. done. }
  assert (E2 : forall j, bat (hit_buf s i) j = if decide (i = j) then x else bat s j).
  { intros j. unfold hit_buf. fold s1.
    rewrite bat_upd by (unfold s1; by rewrite upd_length). rewrite E1.
    destruct (decide (i = j)) as [<-|Hne]; [done|].
    unfold s1. by rewrite bat_upd, decide_False. }
  split; [|split].
  - unfold bread, bget. mrun. mrun E. mrun. unfold upd. mrun. fold s1.
    mrun (lock_buf_run i s1 ltac:(by rewrite E1)). mrun.
    change (upd_st i (set_lock (held_lock s1)) s1) with (hit_buf s i).
    rewrite E2, decide_True by done. simpl. rewrite Hf.
    by destruct (decide (n ∈ D)).
  - eapply (bio_change _ _ _ _ _ _ i x _ _ _ n HB); auto.
    + unfold hit_buf. by rewrite !upd_length.
    + by apply (bi_range _ _ _ _ _ HB i n).
    + intros j Hj. by apply (bi_uniq _ _ _ _ _ HB j i n).
    + intros m (_ & _ & Hm). congruence.
    + intros m Hne. rewrite elem_of_union, elem_of_singleton. tauto.
    + rewrite decide_True by set_solver. done.
    + rewrite decide_True by set_solver. done.
    + by apply (bi_data _ _ _ _ _ HB).
    + set_solver.
    + apply (bi_size _ _ _ _ _ HB), (bi_range _ _ _ _ _ HB i n Hi).
    + apply (bi_dsize _ _ _ _ _ HB), (bi_range _ _ _ _ _ HB i n Hi).
  - intros j m. unfold isbuf. rewrite E2.
    by destruct (decide (i = j)) as [<-|].
Qed.

Definition miss_buf (s : bstate) (i : nat) (n : Z) : bstate :=
  upd_st i (fun x => set_flags (Z.lor (flags x) B_VALID) x)
    (upd_st i (set_data (disk s !!! Z.to_nat n))
      (upd_st i (set_lock (held_lock s)) (upd_st i (recycle 1 n) s))).

(** The buffer after the miss. *)
Definition missed (s : bstate) (i : nat) (n : Z) : buf :=
  {| flags := B_VALID; dev := 1; blockno := n; lock := held_lock s;
     refcnt := 1; prev := prev (bat s i); next := next (bat s i);
     data := disk s !!! Z.to_nat n |}.

Lemma bat_missed s i n j :
  (i < length (bufs s))%nat -> bat (miss_buf s i n) j = if decide (i = j) then missed s i n else bat s j.
Proof.
  intros Hlen. unfold miss_buf. rewrite !bat_upd by (by rewrite ?upd_length).
  rewrite !(decide_True (P := i = i)) by done. by destruct (decide (i = j)).
Qed.

Lemma bread_miss_run s i n :
  (i < length (bufs s))%nat -> lock (bat s i) = initsleeplock -> 0 <= n < nblocks s ->
  bget_cached HEAD 1 n (next (bat s HEAD)) s = Ok (None, s) ->
  bget_free HEAD (prev (bat s HEAD)) s = Ok (Some i, s) ->
  bread 1 n s = Ok (i, miss_buf s i n).
Proof.
  intros Hlen Hlk Hn Ec Ef.
  set (s1 := upd_st i (recycle 1 n) s). set (s2 := upd_st i (set_lock (held_lock s)) s1).
  assert (E1 : bat s1 i = recycle 1 n (bat s i)) by (unfold s1; by rewrite bat_upd, decide_True).
  assert (E2 : bat s2 i = set_lock (held_lock s) (recycle 1 n (bat s i))).
  { unfold s2. rewrite bat_upd, decide_True, E1 by (done || unfold s1; by rewrite upd_length). done. }
  unfold bread, bget. mrun. mrun Ec. mrun. mrun Ef. unfold upd at 1. mrun. fold s1.
  mrun (lock_buf_run i s1 ltac:(by rewrite E1)). mrun.
  change (upd_st i (set_lock (held_lock s1)) s1) with s2.
  rewrite E2. change (has _ B_VALID) with false. cbv match.
  unfold iderw, holding_buf. mrun. rewrite E2.
  cbn [lock set_lock recycle flags dev blockno data].
  unfold holdingsleep, held_lock. cbn [sl_locked sl_pid].
  change (cur s2) with (cur s). rewrite Z.eqb_refl. cbn [andb negb].
  change (disk s2) with (disk s). change (Z.land 0 _ =? B_VALID) with false.
  change (1 =? 1) with true. cbn [negb].
  unfold nblocks in Hn. destruct (Z.leb_spec (Z.of_nat (length (disk s))) n); [lia|].
  change (has 0 B_DIRTY) with false. cbv match. unfold upd. by mrun.
Qed.

Lemma bget_miss s v D H l i n :
  bio s v D H l -> (forall j, ~ isbuf s j n) -> 0 <= n < nblocks s ->
  (i < HEAD)%nat -> evictable s i = true ->
  bget_cached HEAD 1 n (next (bat s HEAD)) s = Ok (None, s) ->
  bget_free HEAD (prev (bat s HEAD)) s = Ok (Some i, s) ->
  bread 1 n s = Ok (i, miss_buf s i n) /\
  bio (miss_buf s i n) v D (H ∪ {[n]}) l /\ isbuf (miss_buf s i n) i n /\
  forall j m, j <> i -> isbuf s j m -> isbuf (miss_buf s i n) j m.
Proof.
  intros HB Hno Hn Hlt He Ec Ef.
  assert (Hlen : (i < length (bufs s))%nat) by (rewrite (bi_len _ _ _ _ _ HB); lia).
  assert (Hout : n ∉ D ∪ H).
  { intros Hin. destruct (bi_cached _ _ _ _ _ HB n Hin) as [j Hj]. by apply (Hno j). }
  assert (Hlk : lock (bat s i) = initsleeplock).
  { destruct (decide (dev (bat s i) = 1)) as [Hd|Hd]; [|by apply (bi_unused _ _ _ _ _ HB)].
    assert (Hb : isbuf s i (blockno (bat s i))) by done.
    destruct (bi_lock _ _ _ _ _ HB i _ Hb) as [Hl _].
    apply (evictable_spec _ _ _ _ _ _ _ HB Hb) in He. rewrite decide_False in Hl; [done|]. set_solver. }
  pose proof (fun j => bat_missed s i n j Hlen) as E3. split; [by apply bread_miss_run|]. split.
  - eapply (bio_change _ _ _ _ _ _ i (missed s i n) _ _ _ n HB); auto.
    + unfold miss_buf. by rewrite !upd_length.
    + intros j Hj. by apply Hno in Hj.
    + intros m Hm Hne. by apply (evictable_spec _ _ _ _ _ _ _ HB Hm).
    + intros m Hne. rewrite elem_of_union, elem_of_singleton. tauto.
    + rewrite decide_False by set_solver. done.
    + rewrite decide_True by set_solver. done.
    + rewrite decide_True by set_solver. done.
    + symmetry. by apply (bi_disk _ _ _ _ _ HB).
    + set_solver.
    + by apply (bi_size _ _ _ _ _ HB).
    + by apply (bi_dsize _ _ _ _ _ HB).
  - split; [unfold isbuf; by rewrite E3, decide_True|].
    intros j m Hij. unfold isbuf. by rewrite E3, decide_False.
Qed.

(** [bread] returns a locked buffer with the current contents of the block,
    whether it was cached or not, and changes no block. *)
Lemma bread_ok s v D H l n :
  bio s v D H l -> 0 <= n < nblocks s -> n ∉ H ->
  (size (D ∪ H ∪ {[n]}) <= HEAD)%nat ->
  exists i s', bread 1 n s = Ok (i, s') /\ bio s' v D (H ∪ {[n]}) l /\
    isbuf s' i n /\ same_disk s s' /\
    (forall j m, m ∈ D ∪ H -> isbuf s j m -> isbuf s' j m).
Proof.
  intros HB Hn HnH Hsz.
  destruct (bget_cached_ok _ _ _ _ _ n HB) as [(i & Hi & E)|[Hno E]].
  - destruct (bget_hit _ _ _ _ _ _ _ HB Hi HnH E) as (R & HB' & Hi').
    exists i, (hit_buf s i). split_and!; auto. done.
  - assert (Hout : n ∉ D ∪ H).
    { intros Hin. destruct (bi_cached _ _ _ _ _ HB n Hin) as [j Hj].
      by apply (Hno j). }
    rewrite size_union, size_singleton in Hsz by set_solver.
    destruct (bget_free_ok _ _ _ _ _ HB) as (i & Hlt & He & E2); [lia|].
    destruct (bget_miss _ _ _ _ _ i n HB Hno Hn Hlt He E E2) as (R & HB' & Hi' & Hj').
    exists i, (miss_buf s i n). split_and!; auto; [done|].
    intros j m Hm Hj. apply Hj'; [|done].
    intros ->. by apply (evictable_spec _ _ _ _ _ _ _ HB Hj) in He.
Qed.

Lemma holding_ok s v D H l i n :
  bio s v D H l -> isbuf s i n -> n ∈ H -> holding_buf i s = true.
Proof.
  intros HB Hi Hn. unfold holding_buf.
  destruct (bi_lock _ _ _ _ _ HB i n Hi) as [-> _]. rewrite decide_True by done.
  unfold holdingsleep, held_lock. simpl. apply Z.eqb_refl.
Qed.

(** ** bwrite *)

Definition written (s : bstate) (i : nat) (n : Z) (d : block) : bstate :=
  upd_st i (fun x => set_flags (Z.lor (flags x) B_VALID) x)
    (write_disk n d (upd_st i (set_flags B_VALID)
       (upd_st i (fun x => set_flags (Z.lor (flags x) B_DIRTY) x) s))).

Lemma bat_written s i n d j :
  (i < length (bufs s))%nat ->
  bat (written s i n d) j = if decide (i = j) then set_flags B_VALID (bat s i) else bat s j.
Proof.
  intros Hi. unfold written. set (s1 := upd_st i _ s).
  set (s3 := write_disk n d (upd_st i (set_flags B_VALID) s1)).
  assert (E3 : forall k, bat s3 k = if decide (i = k) then set_flags B_VALID (bat s i) else bat s k).
  { intros k. change (bat s3 k) with (bat (upd_st i (set_flags B_VALID) s1) k). subst s1.
    rewrite bat_upd, !bat_upd by (by rewrite ?upd_length). rewrite (decide_True (P := i = i)) by done.
    by destruct (decide (i = k)). }
  rewrite bat_upd, !E3, (decide_True (P := i = i)) by
    (done || change (i < length (bufs (upd_st i (set_flags B_VALID) s1)))%nat; subst s1; by rewrite !upd_length).
  by destruct (decide (i = j)).
Qed.

Lemma bwrite_run s v D H l i n :
  bio s v D H l -> isbuf s i n -> n ∈ H -> bwrite i s = Ok (tt, written s i n (v n)).
Proof.
  intros HB Hi Hn. pose proof Hi as (Hlt & Hdv & Hbn).
  assert (Hlen : (i < length (bufs s))%nat) by (rewrite (bi_len _ _ _ _ _ HB); lia).
  destruct (bi_lock _ _ _ _ _ HB i n Hi) as [Hl Hr]. pose proof (bi_range _ _ _ _ _ HB i n Hi) as Hrg.
  set (s1 := upd_st i (fun x => set_flags (Z.lor (flags x) B_DIRTY) x) s).
  assert (E1 : bat s1 i = set_flags (Z.lor B_VALID B_DIRTY) (bat s i)).
  { unfold s1. rewrite bat_upd, decide_True, (bi_flags _ _ _ _ _ HB i n Hi) by done. by destruct (decide (n ∈ D)). }
  unfold bwrite. mrun. rewrite (holding_ok _ _ _ _ _ _ _ HB Hi Hn). cbn [negb].
  unfold upd at 1. mrun. fold s1. unfold iderw, holding_buf. mrun. rewrite E1.
  cbn [lock set_flags flags dev blockno data]. rewrite Hl, decide_True by done.
  unfold holdingsleep, held_lock. cbn [sl_locked sl_pid].
  change (cur s1) with (cur s). rewrite Z.eqb_refl. cbn [andb negb].
  change (Z.land (Z.lor B_VALID B_DIRTY) _ =? B_VALID) with false. cbv match.
  rewrite Hdv, Hbn, (bi_data _ _ _ _ _ HB i n Hi). change (disk s1) with (disk s). cbn [Z.eqb negb].
  unfold nblocks in Hrg. change (1 =? 1) with true. cbn [negb].
  destruct (Z.leb_spec (Z.of_nat (length (disk s))) n); [lia|].
  change (has _ B_DIRTY) with true. cbv match. unfold upd. by mrun.
Qed.

(** [bwrite] writes the block through to the disk, in one block write. *)
Lemma bwrite_ok s v D H l i n :
  bio s v D H l -> isbuf s i n -> n ∈ H ->
  exists s', bwrite i s = Ok (tt, s') /\ bio s' v (D ∖ {[n]}) H l /\
    disk s' = <[Z.to_nat n := v n]> (disk s) /\ hist s' = disk s :: hist s /\
    cur s' = cur s /\ (forall j m, isbuf s j m -> isbuf s' j m).
Proof.
  intros HB Hi Hn. pose proof Hi as (Hlt & Hdv & Hbn).
  assert (Hlen : (i < length (bufs s))%nat) by (rewrite (bi_len _ _ _ _ _ HB); lia).
  destruct (bi_lock _ _ _ _ _ HB i n Hi) as [Hl Hr]. pose proof (bi_range _ _ _ _ _ HB i n Hi) as Hrg.
  pose proof (bi_data _ _ _ _ _ HB i n Hi) as Hdt. pose proof (fun j => bat_written s i n (v n) j Hlen) as E2.
  exists (written s i n (v n)). split_and!; [by eapply bwrite_run| |done..|].
  - eapply (bio_change _ _ _ _ _ _ i (set_flags B_VALID (bat s i)) _ _ _ n HB); auto.
    + unfold written. rewrite upd_length.
      change (length (bufs (upd_st i (set_flags B_VALID) (upd_st i (fun x => set_flags (Z.lor (flags x) B_DIRTY) x) s))) = length (bufs s)).
      by rewrite !upd_length.
    + apply length_insert.
    + intros j Hj. by apply (bi_uniq _ _ _ _ _ HB j i n).
    + intros m (_ & _ & Hm). congruence.
    + intros m Hne. rewrite elem_of_difference, elem_of_singleton.
      split_and!; [tauto|done|done|]. intros Hm. simpl.
      rewrite list_lookup_total_insert_ne; [done|]. unfold nblocks in *. lia.
    + rewrite decide_False by set_solver. done.
    + intros Hno. simpl. rewrite list_lookup_total_insert_eq; [done|]. unfold nblocks in *. lia.
    + by apply (bi_size _ _ _ _ _ HB).
    + simpl. rewrite list_lookup_total_insert_eq; [by apply (bi_size _ _ _ _ _ HB)|]. unfold nblocks in *. lia.
  - intros j m Hj. unfold isbuf in *. rewrite E2. by destruct (decide (i = j)) as [<-|].
Qed.

(** ** brelse *)

Definition released (s : bstate) (i : nat) : bstate :=
  upd_st i (fun x => set_refcnt (u32 (refcnt x - 1)) x)
    (upd_st i (fun x => set_lock (releasesleep (lock x)) x) s).

Lemma bio_released s v D H l i n :
  bio s v D H l -> isbuf s i n -> n ∈ H ->
  (n ∈ D \/ v n = disk s !!! Z.to_nat n) ->
  bio (released s i) v D (H ∖ {[n]}) l /\ refcnt (bat (released s i) i) = 0 /\
  (forall j m, isbuf s j m -> isbuf (released s i) j m).
Proof.
  intros HB Hi Hn Hd. pose proof Hi as (Hlt & Hdv & Hbn).
  assert (Hlen : (i < length (bufs s))%nat) by (rewrite (bi_len _ _ _ _ _ HB); lia).
  destruct (bi_lock _ _ _ _ _ HB i n Hi) as [Hl Hr].
  rewrite decide_True in Hr by done.
  pose proof (bi_range _ _ _ _ _ HB i n Hi) as Hrg.
  set (x := set_refcnt 0 (set_lock initsleeplock (bat s i))).
  assert (E : forall j, bat (released s i) j = if decide (i = j) then x else bat s j).
  { intros j. unfold released. rewrite !bat_upd by (by rewrite ?upd_length).
    rewrite !(decide_True (P := i = i)) by done.
    destruct (decide (i = j)); [|done]. unfold set_refcnt at 1. simpl. by rewrite Hr. }
  split_and!.
  - eapply (bio_change _ _ _ _ _ _ i x _ _ _ n HB); auto.
    + unfold released. by rewrite !upd_length.
    + intros j Hj. by apply (bi_uniq _ _ _ _ _ HB j i n).
    + intros m (_ & _ & Hm). congruence.
    + intros m Hne. rewrite elem_of_difference, elem_of_singleton. tauto.
    + by apply (bi_flags _ _ _ _ _ HB).
    + rewrite decide_False by set_solver. done.
    + rewrite decide_False by set_solver. done.
    + by apply (bi_data _ _ _ _ _ HB).
    + rewrite elem_of_union. simpl. tauto.
    + by apply (bi_size _ _ _ _ _ HB).
    + by apply (bi_dsize _ _ _ _ _ HB).
  - by rewrite E, decide_True.
  - intros j m Hj. unfold isbuf in *. rewrite E. by destruct (decide (i = j)) as [<-|].
Qed.

Lemma move_to_front (l1 l2 : list nat) i :
  NoDup (l1 ++ i :: l2) ->
  i :: l1 ++ l2 = i :: filter (fun j => j <> i) (l1 ++ i :: l2).
Proof.
  intros (N1 & N2 & N3)%NoDup_app. apply NoDup_cons in N3 as [N3 N4].
  assert (Hk : forall k : list nat, i ∉ k -> filter (fun j => j <> i) k = k).
  { intros k Hk. induction k as [|j k IH]; [done|]. rewrite elem_of_cons in Hk.
    rewrite filter_cons_True by (intros ->; tauto). rewrite IH by tauto. done. }
  rewrite filter_app, filter_cons_False by naive_solver. rewrite !Hk; auto.
  intros Hi. apply (N2 i Hi). by left.
Qed.

(** [brelse] unlocks the buffer and makes it the most recently used. *)
Lemma brelse_ok s v D H l i n :
  bio s v D H l -> isbuf s i n -> n ∈ H ->
  (n ∈ D \/ v n = disk s !!! Z.to_nat n) ->
  exists s', brelse i s = Ok (tt, s') /\
    bio s' v D (H ∖ {[n]}) (i :: filter (fun j => j <> i) l) /\
    same_disk s s' /\ (forall j m, isbuf s j m -> isbuf s' j m).
Proof.
  intros HB Hi Hn Hd. pose proof Hi as (Hlt & _).
  destruct (bio_released _ _ _ _ _ _ _ HB Hi Hn Hd) as (HB2 & Hr & Hib).
  set (s2 := released s i) in *.
  pose proof (bio_nodup _ _ _ _ _ HB) as Hnd.
  assert (Hil : i ∈ l) by (by apply (bio_mem _ _ _ _ _ _ HB)).
  apply list_elem_of_split in Hil as (l1 & l2 & ->).
  destruct (ring_unlink s2 l1 i l2) as (R & Hne & Hnl);
    [apply HB2|done|intros j; apply (bio_lt _ _ _ _ _ _ HB2)|].
  set (s3 := unlinked s2 i) in *.
  pose proof (unlinked_same s2 i) as S3. fold s3 in S3.
  assert (Hlt2 : forall j, j ∈ HEAD :: i :: l1 ++ l2 -> (j < length (bufs s3))%nat).
  { intros j Hj. destruct S3 as (-> & _). apply (bio_lt _ _ _ _ _ _ HB2).
    rewrite !elem_of_cons, !elem_of_app, ?elem_of_cons in *. tauto. }
  assert (Hnd2 : NoDup (HEAD :: i :: l1 ++ l2)) by (by rewrite Permutation_middle).
  pose proof (ring_relink s3 (l1 ++ l2) i R Hnd2 Hlt2) as R4.
  pose proof (pushed_same s3 i) as S4. set (s4 := pushed s3 i) in *.
  pose proof (same_bufs_trans _ _ _ S3 S4) as S24.
  assert (HiH : i <> HEAD) by (intros ->; lia).
  exists s4. split_and!.
  - unfold brelse. mrun. rewrite (holding_ok _ _ _ _ _ _ _ HB Hi Hn). cbn [negb].
    unfold upd. mrun. fold s2. change (bat _ i) with (bat s2 i). rewrite Hr.
    cbn [Z.eqb]. mrun (unlink_buf_run s2 i Hne Hnl). fold s3.
    apply push_buf_run; [done|]. apply Hlt2. right. by left.
  - apply NoDup_cons in Hnd as [_ Hnd]. rewrite <- move_to_front by done.
    eapply bio_relink; [exact HB2|exact S24|exact R4|]. by rewrite Permutation_middle.
  - destruct S24 as (_ & ED & ET & EC & _). by split; rewrite ?ED, ?ET, ?EC.
  - intros j m Hj%Hib. destruct S24 as (_ & _ & _ & _ & EF).
    unfold isbuf in *. destruct (EF j) as (_ & -> & -> & _). done.
Qed.

(** ** binit *)

(** The static, zero-initialised cache before [binit]. *)
Definition boot (d : list block) (pid : Z) : bstate :=
  {| bufs := replicate (S HEAD) buf0; disk := d; hist := []; cur := pid |}.

Definition linked_buf (p n : nat) : buf := set_prev p (set_next n buf0).

(** The list [binit] builds, most recently inserted first. *)
Definition init_bufs : list buf :=
  [linked_buf 1 HEAD] ++
  ((fun i => linked_buf (S i) (pred i)) <$> seq 1 (HEAD - 1)) ++
  [linked_buf 0 (pred HEAD)].

Lemma binit_run d pid :
  binit (boot d pid) =
  Ok (tt, {| bufs := init_bufs; disk := d; hist := []; cur := pid |}).
Proof. vm_compute. reflexivity. Qed.

Lemma init_bufs_ok :
  Forall (fun x => flags x = 0 /\ dev x = 0 /\ refcnt x = 0 /\ lock x = initsleeplock)
    init_bufs.
Proof. repeat (constructor; [done|]). constructor. Qed.

Lemma binit_ok d pid :
  (forall b, b ∈ d -> length b = Z.to_nat BSIZE) ->
  exists s, binit (boot d pid) = Ok (tt, s) /\
    bio s (fun n => d !!! Z.to_nat n) ∅ ∅ (rev (seq 0 HEAD)) /\
    disk s = d /\ hist s = [] /\ cur s = pid.
Proof.
  intros Hd. eexists. split; [apply binit_run|]. split; [|done].
  set (s := {| bufs := init_bufs |}).
  assert (Hall : forall i, (i < HEAD)%nat -> flags (bat s i) = 0 /\ dev (bat s i) = 0 /\
    refcnt (bat s i) = 0 /\ lock (bat s i) = initsleeplock).
  { intros i Hi. unfold bat. change (bufs s) with init_bufs.
    assert (Hl : (i < length init_bufs)%nat) by (change (length init_bufs) with (S HEAD); lia).
    pose proof init_bufs_ok as HF. rewrite Forall_lookup in HF.
    apply lookup_lt_is_Some in Hl as [x Hx]. rewrite (list_lookup_total_correct _ _ _ Hx).
    by apply (HF i). }
  assert (Hno : forall i n, ~ isbuf s i n).
  { intros i n (Hi & Hdv & _). destruct (Hall i Hi) as (_ & E & _). congruence. }
  assert (Hsz : forall n, 0 <= n < nblocks s -> length (d !!! Z.to_nat n) = Z.to_nat BSIZE).
  { intros n Hn. apply Hd, list_elem_of_lookup_total. exists (Z.to_nat n).
    unfold nblocks in Hn. simpl in Hn. split; [lia|done]. }
  split; auto; try (intros i n Hi; by apply Hno in Hi).
  - unfold ring. change HEAD with 30%nat. unfold s. repeat (constructor; [done|]). done.
  - symmetry. apply Permutation_rev.
  - intros i j n Hi. by apply Hno in Hi.
  - intros i Hi Hd1. destruct (Hall i Hi) as (? & _ & ? & ?). auto.
  - intros n Hn. set_solver.
Qed.
