(* ===== verification/BioSpec.v ===== *)
(** * What the buffer cache promises

    Coherence and replacement, over the invariant of [BioInv]: the buffers of
    [l], most recently used first, hold the current contents [v] of their
    blocks; [D] are the blocks pinned by the log and [H] those the process
    holds. *)

From S2P Require Import Prelude Param Sleeplock Bio BioInv.

(** The buffer [bget] recycles: the evictable one used least recently. *)
Definition lru_victim (s : bstate) (l : list nat) : option nat :=
  List.find (evictable s) (rev l).

Lemma bget_free_lru s v D H l :
  bio s v D H l ->
  bget_free HEAD (prev (bat s HEAD)) s = Ok (lru_victim s l, s).
Proof.
  intros HB. apply bget_free_run.
  - apply HB.
  - pose proof (bio_nodup _ _ _ _ _ HB) as Hnd. by apply NoDup_cons in Hnd as [? _].
  - rewrite (bi_perm _ _ _ _ _ HB), length_seq. lia.
Qed.

(** (C11) [bread] returns the only buffer of the block, locked by the caller
    and with the block's current contents, and does not change the disk. A
    block that is cached keeps its buffer; for one that is not, the least
    recently used buffer that is neither referenced nor dirty is recycled,
    and the call panics exactly if there is none. *)
Theorem bread_lru s v D H l n :
  bio s v D H l -> 0 <= n < nblocks s -> n ∉ H ->
  (exists i s', bread 1 n s = Ok (i, s') /\ bio s' v D (H ∪ {[n]}) l /\
     isbuf s' i n /\ (forall j, isbuf s' j n -> j = i) /\ data (bat s' i) = v n /\
     disk s' = disk s /\ hist s' = hist s /\
     (isbuf s i n \/ ((forall j, ~ isbuf s j n) /\ lru_victim s l = Some i))) \/
  (bread 1 n s = Panic "bget: no buffers" /\ (forall j, ~ isbuf s j n) /\
   forall j, (j < HEAD)%nat -> evictable s j = false).
Proof.
  intros HB Hn HnH. destruct (bget_cached_ok _ _ _ _ _ n HB) as [(i & Hi & E)|[Hno E]].
  - left. destruct (bget_hit _ _ _ _ _ _ _ HB Hi HnH E) as (R & HB' & Hi').
    exists i, (hit_buf s i). split_and!; auto.
    + intros j Hj. apply (bi_uniq _ _ _ _ _ HB' j i n); auto.
    + apply (bi_data _ _ _ _ _ HB' i n). auto.
  - pose proof (bget_free_lru _ _ _ _ _ HB) as E2.
    destruct (lru_victim s l) as [i|] eqn:Ev.
    + left. pose proof Ev as Hv. apply List.find_some in Hv as [Hi%in_rev He].
      apply list_elem_of_In, (bio_mem _ _ _ _ _ _ HB) in Hi.
      destruct (bget_miss _ _ _ _ _ i n HB Hno Hn Hi He E E2) as (R & HB' & Hi' & _).
      exists i, (miss_buf s i n). split_and!; auto.
      * intros j Hj. apply (bi_uniq _ _ _ _ _ HB' j i n); auto.
      * by apply (bi_data _ _ _ _ _ HB' i n).
    + right. split_and!; auto.
      * unfold bread, bget. mrun. mrun E. mrun. mrun E2. done.
      * intros j Hj. apply (bio_mem _ _ _ _ _ _ HB), list_elem_of_In, in_rev in Hj.
        by eapply List.find_none in Ev.
Qed.

Lemma bread_lru_witness :
  exists s i s', bread 1 0 s = Ok (i, s') /\ data (bat s' i) = replicate 512 7.
Proof.
  destruct (binit_ok [replicate 512 7] 1) as (s & E & HB & Hd & _).
  { intros b ->%list_elem_of_singleton. by rewrite length_replicate. }
  destruct (bread_lru s _ _ _ _ 0 HB) as
    [(i & s' & R & _ & _ & _ & Hdata & _)|(_ & _ & Hall)].
  - unfold nblocks. rewrite Hd. simpl. lia.
  - apply not_elem_of_empty.
  - exists s, i, s'. split; [exact R|]. rewrite Hdata. reflexivity.
  - exfalso. destruct (evictable_exists _ _ _ _ _ HB) as (k & Hk & He).
    + rewrite (left_id_L ∅ (∪)), size_empty. unfold HEAD. change NBUF with 30. lia.
    + rewrite (Hall k Hk) in He. discriminate.
Defined.

(** [brelse] gives the buffer up and makes it the most recently used
    one; the order of the others is unchanged, and so are the disk and the
    contents of every block. *)
Theorem brelse_mru s v D H l i n :
  bio s v D H l -> isbuf s i n -> n ∈ H ->
  (n ∈ D \/ v n = disk s !!! Z.to_nat n) ->
  exists s', brelse i s = Ok (tt, s') /\
    bio s' v D (H ∖ {[n]}) (i :: filter (fun j => j <> i) l) /\
    disk s' = disk s /\ hist s' = hist s /\ (forall j m, isbuf s j m -> isbuf s' j m).
Proof.
  intros HB Hi Hn Hd. destruct (brelse_ok _ _ _ _ _ _ _ HB Hi Hn Hd)
    as (s' & E & HB' & [] & Hb). eauto 10.
Qed.

Lemma brelse_mru_witness :
  exists s i s' s'', bread 1 0 s = Ok (i, s') /\ brelse i s' = Ok (tt, s'') /\
    next (bat s'' HEAD) = i.
Proof.
  destruct (binit_ok [replicate 512 7] 1) as (s & E & HB & Hd & _).
  { intros b ->%list_elem_of_singleton. by rewrite length_replicate. }
  destruct (bread_ok s _ _ _ _ 0 HB) as (i & s' & R & HB' & Hi & [Hdk _ _] & _).
  - unfold nblocks. rewrite Hd. simpl. lia.
  - apply not_elem_of_empty.
  - rewrite !(left_id_L ∅ (∪)), size_singleton. unfold HEAD. change NBUF with 30. lia.
  - destruct (brelse_mru s' _ _ _ _ i 0 HB' Hi) as (s'' & R2 & HB2 & _).
    + apply elem_of_union_r, elem_of_singleton. reflexivity.
    + right. rewrite Hdk, Hd. reflexivity.
    + exists s, i, s', s''. split; [exact R|]. split; [exact R2|].
      pose proof (bi_ring _ _ _ _ _ HB2) as Hr. apply Forall_cons in Hr as [[Hr _] _].
      exact Hr.
Defined.
