(* ===== verification/Log.v ===== *)
(** * The log (log.c)

    The log state is [struct log] with the buffer cache below it.
    [log.lock] makes [begin_op], [log_write] and the bookkeeping of [end_op]
    atomic; a [begin_op] that would sleep is [Blocked], and is retried when
    another operation has changed the state, so the [wakeup] calls have no
    counterpart here. *)

From S2P Require Import Prelude Param Bytes Sleeplock Bio.

Record logst := {
  lb : bstate;           (* the buffer cache *)
  log_start : Z;
  log_size : Z;
  outstanding : Z;
  committing : bool;
  log_dev : Z;
  lh_n : Z;              (* log.lh.n *)
  lh_block : list Z      (* log.lh.block *)
}.

Definition set_lb (b : bstate) (s : logst) : logst :=
  {| lb := b; log_start := log_start s; log_size := log_size s;
     outstanding := outstanding s; committing := committing s;
     log_dev := log_dev s; lh_n := lh_n s; lh_block := lh_block s |}.
Definition set_ops (o : Z) (c : bool) (s : logst) : logst :=
  {| lb := lb s; log_start := log_start s; log_size := log_size s;
     outstanding := o; committing := c;
     log_dev := log_dev s; lh_n := lh_n s; lh_block := lh_block s |}.
Definition set_lh (n : Z) (bs : list Z) (s : logst) : logst :=
  {| lb := lb s; log_start := log_start s; log_size := log_size s;
     outstanding := outstanding s; committing := committing s;
     log_dev := log_dev s; lh_n := n; lh_block := bs |}.
Definition set_geom (start size d : Z) (s : logst) : logst :=
  {| lb := lb s; log_start := start; log_size := size;
     outstanding := outstanding s; committing := committing s;
     log_dev := d; lh_n := lh_n s; lh_block := lh_block s |}.

(** Calls into the buffer cache. *)
Definition io {A} (c : M bstate A) : M logst A :=
  fun s => match c (lb s) with
           | Ok (a, b) => Ok (a, set_lb b s)
           | Panic msg => Panic msg
           | Fault => Fault
           | Blocked => Blocked
           | OutOfFuel => OutOfFuel
           end.

Definition bufdata (b : nat) : M logst block := gets (fun s => data (bat (lb s) b)).
Definition setdata (b : nat) (d : block) : M logst unit := io (upd b (set_data d)).

(** [bread] of an [int] block number, which its parameter takes as [uint]. *)
Definition bread_int (d n : Z) : M logst nat := io (bread d (u32 n)).

(** [log.lh.block[i]]; an index outside the array is a memory error. *)
Definition lh_get (i : Z) : M logst Z :=
  fun s => match lh_block s !! Z.to_nat i with
           | Some b => Ok (b, s)
           | None => Fault
           end.

(** ** Copying between the log and the home locations *)

Fixpoint install_loop (k : nat) (tail : Z) : M logst unit :=
  match k with
  | O => ret tt
  | S k =>
      let! s := get in
      let! lbuf := bread_int (log_dev s) (log_start s + tail + 1) in
      let! home := lh_get tail in
      let! dbuf := bread_int (log_dev s) home in
      let! d := bufdata lbuf in
      do! setdata dbuf d in
      do! io (bwrite dbuf) in
      do! io (brelse lbuf) in
      do! io (brelse dbuf) in
      install_loop k (tail + 1)
  end.

Definition install_trans : M logst unit :=
  let! n := gets lh_n in install_loop (Z.to_nat n) 0.

Fixpoint write_log_loop (k : nat) (tail : Z) : M logst unit :=
  match k with
  | O => ret tt
  | S k =>
      let! s := get in
      let! to := bread_int (log_dev s) (log_start s + tail + 1) in
      let! home := lh_get tail in
      let! from := bread_int (log_dev s) home in
      let! d := bufdata from in
      do! setdata to d in
      do! io (bwrite to) in
      do! io (brelse from) in
      do! io (brelse to) in
      write_log_loop k (tail + 1)
  end.

Definition write_log : M logst unit :=
  let! n := gets lh_n in write_log_loop (Z.to_nat n) 0.

(** ** The header block *)

(** [log.lh.block[i] = lh->block[i]]; beyond [LOGSIZE] entries this writes
    past the array. *)
Fixpoint read_head_loop (k i : nat) (d : block) : M logst unit :=
  match k with
  | O => ret tt
  | S k =>
      let! s := get in
      if decide (i < length (lh_block s))%nat then
        do! put (set_lh (lh_n s) (<[i := s32 (getw d (S i))]> (lh_block s)) s) in
        read_head_loop k (S i) d
      else fault
  end.

Definition read_head : M logst unit :=
  let! s := get in
  let! b := bread_int (log_dev s) (log_start s) in
  let! d := bufdata b in
  do! modify (fun s => set_lh (s32 (getw d 0)) (lh_block s) s) in
  let! n := gets lh_n in
  do! read_head_loop (Z.to_nat n) 0 d in
  io (brelse b).

Fixpoint head_words (d : block) (i : nat) (bs : list Z) : block :=
  match bs with
  | [] => d
  | b :: bs => head_words (setw d (S i) b) (S i) bs
  end.

Definition write_head : M logst unit :=
  let! s := get in
  let! b := bread_int (log_dev s) (log_start s) in
  let! d := bufdata b in
  do! setdata b (head_words (setw d 0 (lh_n s)) 0
                   (take (Z.to_nat (lh_n s)) (lh_block s))) in
  do! io (bwrite b) in
  io (brelse b).

Definition clear_lh : M logst unit := modify (fun s => set_lh 0 (lh_block s) s).

Definition recover_from_log : M logst unit :=
  do! read_head in
  do! install_trans in
  do! clear_lh in
  write_head.

(** ** The super block (readsb of fs.c) and initlog *)

Record superblock := {
  sb_size : Z;
  sb_nblocks : Z;
  sb_ninodes : Z;
  sb_nlog : Z;
  sb_logstart : Z;
  sb_inodestart : Z;
  sb_bmapstart : Z
}.

Definition sb_of_block (d : block) : superblock :=
  {| sb_size := getw d 0; sb_nblocks := getw d 1; sb_ninodes := getw d 2;
     sb_nlog := getw d 3; sb_logstart := getw d 4; sb_inodestart := getw d 5;
     sb_bmapstart := getw d 6 |}.

Definition readsb (d : Z) : M bstate superblock :=
  let! b := bread d 1 in
  let! x := gets (fun s => data (bat s b)) in
  do! brelse b in
  ret (sb_of_block x).

Definition sizeof_logheader : Z := 4 + 4 * LOGSIZE.

Definition initlog (d : Z) : M logst unit :=
  if BSIZE <=? sizeof_logheader then panic "initlog: too big logheader"
  else
    let! sb := io (readsb d) in
    do! modify (set_geom (s32 (sb_logstart sb)) (s32 (sb_nlog sb)) d) in
    recover_from_log.

(** ** Transactions *)

Definition begin_op : M logst unit :=
  let! s := get in
  if committing s then blocked
  else if LOGSIZE <? lh_n s + (outstanding s + 1) * MAXOPBLOCKS then blocked
  else put (set_ops (outstanding s + 1) (committing s) s).

Definition commit : M logst unit :=
  let! n := gets lh_n in
  if 0 <? n then
    do! write_log in
    do! write_head in
    do! install_trans in
    do! clear_lh in
    write_head
  else ret tt.

Definition end_op : M logst unit :=
  do! modify (fun s => set_ops (outstanding s - 1) (committing s) s) in
  let! s := get in
  if committing s then panic "log.committing"
  else if outstanding s =? 0 then
    do! put (set_ops (outstanding s) true s) in
    do! commit in
    modify (fun s => set_ops (outstanding s) false s)
  else ret tt.

Definition log_write (b : nat) : M logst unit :=
  let! s := get in
  if (LOGSIZE <=? lh_n s) || (log_size s - 1 <=? lh_n s)
  then panic "too big a transaction"
  else if outstanding s <? 1 then panic "log_write outside of trans"
  else
    let n := blockno (bat (lb s) b) in
    let i := match find_idx (Z.eqb n) (take (Z.to_nat (lh_n s)) (lh_block s)) with
             | Some i => i
             | None => Z.to_nat (lh_n s)
             end in
    do! put (set_lh (if decide (i = Z.to_nat (lh_n s)) then lh_n s + 1 else lh_n s)
               (<[i := n]> (lh_block s)) s) in
    io (upd b (fun x => set_flags (Z.lor (flags x) B_DIRTY) x)).
