(* ===== verification/LogInv.v ===== *)
(** * Crash safety of the log

    The disk below the log is described by its logical contents: what the
    home blocks hold once the transaction in the log, if the header says there
    is one, has been installed. *)

From S2P Require Import Prelude Param Bytes Sleeplock Bio BioInv Log.

(** ** Calls into the cache *)

Lemma io_Ok {A} (c : M bstate A) s a b :
  c (lb s) = Ok (a, b) -> io c s = Ok (a, set_lb b s).
Proof. unfold io. by intros ->. Qed.

(** Two blocks read by the process that holds no other. *)
Lemma two_reads s v D l x y :
  bio s v D ∅ l -> x <> y -> 0 <= x < nblocks s -> 0 <= y < nblocks s ->
  (size (D ∪ {[x]} ∪ {[y]}) <= HEAD)%nat ->
  exists i j s1 s2, bread 1 x s = Ok (i, s1) /\ bread 1 y s1 = Ok (j, s2) /\
    bio s2 v D ({[x]} ∪ {[y]}) l /\ isbuf s2 i x /\ isbuf s2 j y /\ same_disk s s2.
Proof.
  intros HB Hxy Hx Hy Hsz.
  destruct (bread_ok _ _ _ _ _ x HB) as (i & s1 & E1 & HB1 & Hi & [D1 T1 C1] & _);
    [done|set_solver| |].
  { rewrite (right_id_L ∅ (∪) D). etrans; [|exact Hsz].
    apply subseteq_size. set_solver. }
  rewrite (left_id_L ∅ (∪) {[x]}) in HB1.
  assert (HN : nblocks s1 = nblocks s) by (unfold nblocks; by rewrite D1).
  destruct (bread_ok _ _ _ _ _ y HB1) as (j & s2 & E2 & HB2 & Hj & [D2 T2 C2] & Hst);
    [by rewrite HN|set_solver|done|].
  exists i, j, s1, s2. split_and!; auto.
  - apply Hst; [set_solver|done].
  - split; congruence.
Qed.

(** Copying block [x] to block [y] through their buffers, and writing it. *)
Lemma copy_write s v D l x y i j :
  bio s v D ({[x]} ∪ {[y]}) l -> x <> y -> isbuf s i x -> isbuf s j y ->
  (x ∈ D \/ v x = disk s !!! Z.to_nat x) ->
  exists s4 s5 s6 l',
    bwrite j (upd_st j (set_data (data (bat s i))) s) = Ok (tt, s4) /\
    brelse i s4 = Ok (tt, s5) /\ brelse j s5 = Ok (tt, s6) /\
    bio s6 (fupd v y (v x)) (D ∖ {[y]}) ∅ l' /\
    disk s6 = <[Z.to_nat y := v x]> (disk s) /\ hist s6 = disk s :: hist s /\
    cur s6 = cur s.
Proof.
  intros HB Hxy Hi Hj Hx. rewrite (bi_data _ _ _ _ _ HB i x Hi).
  pose proof (bi_range _ _ _ _ _ HB i x Hi) as Hrx.
  pose proof (bi_range _ _ _ _ _ HB j y Hj) as Hry.
  assert (Hyx : fupd v y (v x) y = v x) by (unfold fupd; by rewrite decide_True).
  assert (Hxx : fupd v y (v x) x = v x) by (unfold fupd; by rewrite decide_False).
  pose proof (bio_set_data _ _ _ _ _ j y (v x) HB Hj ltac:(set_solver)
    (bi_size _ _ _ _ _ HB x Hrx)) as HB3.
  set (s3 := upd_st j (set_data (v x)) s) in *.
  assert (Hst3 : forall k m, isbuf s k m -> isbuf s3 k m).
  { intros k m (Hk & Hd & Hb). unfold isbuf, s3. rewrite bat_upd.
    - by destruct (decide (j = k)) as [<-|].
    - destruct Hj as (Hlt & _). rewrite (bi_len _ _ _ _ _ HB). lia. }
  destruct (bwrite_ok _ _ _ _ _ j y HB3 (Hst3 _ _ Hj) ltac:(set_solver))
    as (s4 & E4 & HB4 & D4 & T4 & C4 & Hst4). rewrite Hyx in D4.
  change (disk s3) with (disk s) in D4, T4. change (hist s3) with (hist s) in T4.
  assert (Dx4 : disk s4 !!! Z.to_nat x = disk s !!! Z.to_nat x).
  { rewrite D4. apply list_lookup_total_insert_ne. lia. }
  destruct (brelse_ok _ _ _ _ _ i x HB4 (Hst4 _ _ (Hst3 _ _ Hi)) ltac:(set_solver))
    as (s5 & E5 & HB5 & [D5 T5 C5] & Hst5).
  { rewrite Hxx, Dx4. destruct Hx; [left|by right]. set_solver. }
  destruct (brelse_ok _ _ _ _ _ j y HB5 (Hst5 _ _ (Hst4 _ _ (Hst3 _ _ Hj))))
    as (s6 & E6 & HB6 & [D6 T6 C6] & _); [set_solver| |].
  { right. rewrite Hyx, D5, D4. symmetry. apply list_lookup_total_insert_eq.
    unfold nblocks in Hry. lia. }
  exists s4, s5, s6. eexists. split_and!; [done..| | | |].
  - replace (({[x]} ∪ {[y]}) ∖ {[x]} ∖ {[y]}) with (∅ : gset Z) in HB6 by set_solver.
    exact HB6.
  - congruence.
  - congruence.
  - change (cur s3) with (cur s) in C4. congruence.
Qed.

(** ** The disks an execution goes through *)

(** Every disk from [b] to [b'], both included, satisfies [P]. *)
Definition visited (P : list block -> Prop) (b b' : bstate) : Prop :=
  exists new, hist b' = new ++ hist b /\ Forall P new /\ P (disk b').

Lemma visited_refl (P : list block -> Prop) b b' :
  same_disk b b' -> P (disk b) -> visited P b b'.
Proof. intros [D1 T1 _] HP. exists []. rewrite D1, T1. auto. Qed.

Lemma visited_trans P b1 b2 b3 : visited P b1 b2 -> visited P b2 b3 -> visited P b1 b3.
Proof.
  intros (n1 & E1 & F1 & H1) (n2 & E2 & F2 & H2). exists (n2 ++ n1).
  rewrite E2, E1, app_assoc. split_and!; auto. by apply Forall_app.
Qed.

Lemma visited_impl (P Q : list block -> Prop) b b' :
  (forall d, P d -> Q d) -> visited P b b' -> visited Q b b'.
Proof.
  intros HPQ (n & E & F & H). exists n. split_and!; auto.
  eapply Forall_impl; [exact F|done].
Qed.

Lemma visited_write (P : list block -> Prop) b b' :
  hist b' = disk b :: hist b -> P (disk b) -> P (disk b') -> visited P b b'.
Proof. intros E H1 H2. exists [disk b]. split_and!; auto. Qed.

Lemma bio_ext s v v' D H l :
  (forall n, 0 <= n < nblocks s -> v' n = v n) -> bio s v D H l -> bio s v' D H l.
Proof.
  intros E HB. split; try apply HB.
  - intros i n Hi. rewrite E by (by apply (bi_range _ _ _ _ _ HB i n)).
    by apply (bi_data _ _ _ _ _ HB).
  - intros n Hn. rewrite E by done. by apply (bi_disk _ _ _ _ _ HB).
  - intros n Hn. rewrite E by done. by apply (bi_size _ _ _ _ _ HB).
Qed.

(** ** The copying loops *)

Section copy_loop.

(** A loop that copies block [x t] to block [y t]. *)
Variable loop : nat -> Z -> M logst unit.
Variables x y : nat -> Z.
Variable I : logst -> Prop.
Variable lim : nat.
Hypothesis loop_0 : forall t s, loop 0 t s = Ok (tt, s).
Hypothesis I_lb : forall s b, I s -> I (set_lb b s).
Hypothesis loop_S : forall k t s v D l,
  (t < lim)%nat -> I s -> bio (lb s) v D ∅ l -> x t <> y t ->
  0 <= x t < nblocks (lb s) -> 0 <= y t < nblocks (lb s) -> nblocks (lb s) <= 2 ^ 32 ->
  (size (D ∪ {[x t]} ∪ {[y t]}) <= HEAD)%nat ->
  exists b l', loop (S k) (Z.of_nat t) s = loop k (Z.of_nat (S t)) (set_lb b s) /\
    bio b (fupd v (y t) (v (x t))) (D ∖ {[y t]}) ∅ l' /\
    disk b = <[Z.to_nat (y t) := v (x t)]> (disk (lb s)) /\
    hist b = disk (lb s) :: hist (lb s) /\ cur b = cur (lb s).

Lemma copy_loop P k t s v D l :
  (t + k <= lim)%nat -> I s -> bio (lb s) v D ∅ l -> nblocks (lb s) <= 2 ^ 32 ->
  (forall i, (t <= i < t + k)%nat ->
     0 <= x i < nblocks (lb s) /\ 0 <= y i < nblocks (lb s) /\
     (size (D ∪ {[x i]} ∪ {[y i]}) <= HEAD)%nat) ->
  (forall i j, (t <= i < t + k)%nat -> (t <= j < t + k)%nat -> x i <> y j) ->
  (forall i j, (t <= i < t + k)%nat -> (t <= j < t + k)%nat -> y i = y j -> i = j) ->
  (forall d i, (t <= i < t + k)%nat -> P d -> P (<[Z.to_nat (y i) := v (x i)]> d)) ->
  P (disk (lb s)) ->
  exists b v' D' l', loop k (Z.of_nat t) s = Ok (tt, set_lb b s) /\
    bio b v' D' ∅ l' /\ visited P (lb s) b /\ nblocks b = nblocks (lb s) /\
    cur b = cur (lb s) /\
    (forall i, (t <= i < t + k)%nat -> v' (y i) = v (x i)) /\
    (forall n, (forall i, (t <= i < t + k)%nat -> n <> y i) -> v' n = v n) /\
    (forall n, n ∈ D' <-> n ∈ D /\ forall i, (t <= i < t + k)%nat -> n <> y i).
Proof.
  revert t s v D l. induction k as [|k IH]; intros t s v D l Hlim HI HB Hnb Hr Hxy Hinj HP HP0.
  - exists (lb s), v, D, l. rewrite loop_0. destruct s. split_and!; auto; try lia.
    + by apply visited_refl.
    + intros n. split; [|naive_solver]. intros ?. split; [done|]. intros i Hi. lia.
  - destruct (Hr t ltac:(lia)) as (Hx & Hy & Hsz).
    destruct (loop_S k t s v D l ltac:(lia) HI HB (Hxy t t ltac:(lia) ltac:(lia)) Hx Hy Hnb Hsz)
      as (b & l' & E & HB' & Ed & Eh & Ec).
    assert (HN : nblocks b = nblocks (lb s)).
    { unfold nblocks. by rewrite Ed, length_insert. }
    assert (Hvx : forall i, (S t <= i < S t + k)%nat ->
      fupd v (y t) (v (x t)) (x i) = v (x i)).
    { intros i Hi. unfold fupd. rewrite decide_False; [done|]. apply Hxy; lia. }
    destruct (IH (S t) (set_lb b s) _ _ _ ltac:(lia) (I_lb s b HI) HB')
      as (b2 & v2 & D2 & l2 & E2 & HB2 & HV & HN2 & Hc2 & Hv1 & Hv2 & HD2).
    + cbn [lb set_lb]. by rewrite HN.
    + intros i Hi. cbn [lb set_lb]. rewrite HN.
      destruct (Hr i ltac:(lia)) as (? & ? & Hs). split_and!; try lia.
      etrans; [|exact Hs]. apply subseteq_size. set_solver.
    + intros i j Hi Hj. apply Hxy; lia.
    + intros i j Hi Hj. apply Hinj; lia.
    + intros d i Hi Hd. rewrite Hvx by done. apply HP; [lia|done].
    + cbn [lb set_lb]. rewrite Ed. apply HP; [lia|done].
    + exists b2, v2, D2, l2. rewrite E, E2. cbn [lb set_lb] in *.
      split_and!; auto; try congruence.
      * eapply visited_trans; [|exact HV]. apply visited_write; [done..|].
        rewrite Ed. apply HP; [lia|done].
      * intros i Hi. destruct (decide (i = t)) as [->|Hne].
        -- rewrite Hv2; [unfold fupd; by rewrite decide_True|].
           intros i Hi' Heq. apply Hinj in Heq; lia.
        -- rewrite Hv1 by lia. apply Hvx. lia.
      * intros n Hn. rewrite Hv2 by (intros; apply Hn; lia).
        unfold fupd. rewrite decide_False; [done|]. apply Hn. lia.
      * intros n. rewrite HD2, elem_of_difference, elem_of_singleton. split.
        -- intros [[Hn Hne] Hi]. split; [done|]. intros i Hi'.
           destruct (decide (i = t)) as [->|]; [done|]. apply Hi. lia.
        -- intros [Hn Hi]. split; [split; [done|apply Hi; lia]|].
           intros i Hi'. apply Hi. lia.
Qed.

End copy_loop.

Section log.
Variables (st : Z) (bs : list Z).

(** The log geometry and the list of logged blocks. *)
Definition logged (s : logst) : Prop :=
  log_dev s = 1 /\ log_start s = st /\ lh_block s = bs.

Lemma logged_lb s b : logged s -> logged (set_lb b s).
Proof. done. Qed.

Lemma lh_get_run s t b :
  logged s -> bs !! t = Some b -> lh_get (Z.of_nat t) s = Ok (b, s).
Proof. intros (_ & _ & E) Hb. unfold lh_get. by rewrite E, Nat2Z.id, Hb. Qed.

Lemma setdata_run s i d :
  setdata i d s = Ok (tt, set_lb (upd_st i (set_data d) (lb s)) s).
Proof. done. Qed.

Lemma bread_int_run s d n i b :
  0 <= n < 2 ^ 32 -> bread d n (lb s) = Ok (i, b) -> bread_int d n s = Ok (i, set_lb b s).
Proof. intros Hn E. unfold bread_int. rewrite u32_small by done. by apply io_Ok. Qed.

Lemma bufdata_run s i : bufdata i s = Ok (data (bat (lb s) i), s).
Proof. done. Qed.

Lemma source_clean s v D l n :
  bio s v D ∅ l -> 0 <= n < nblocks s -> n ∈ D \/ v n = disk s !!! Z.to_nat n.
Proof.
  intros HB Hn. destruct (decide (n ∈ D)); [by left|right].
  apply (bi_disk _ _ _ _ _ HB); [done|set_solver].
Qed.

Lemma install_step k t s v D l :
  let x := st + Z.of_nat t + 1 in let y := bs !!! t in
  (t < length bs)%nat -> logged s -> bio (lb s) v D ∅ l -> x <> y ->
  0 <= x < nblocks (lb s) -> 0 <= y < nblocks (lb s) -> nblocks (lb s) <= 2 ^ 32 ->
  (size (D ∪ {[x]} ∪ {[y]}) <= HEAD)%nat ->
  exists b l', install_loop (S k) (Z.of_nat t) s =
      install_loop k (Z.of_nat (S t)) (set_lb b s) /\
    bio b (fupd v y (v x)) (D ∖ {[y]}) ∅ l' /\
    disk b = <[Z.to_nat y := v x]> (disk (lb s)) /\
    hist b = disk (lb s) :: hist (lb s) /\ cur b = cur (lb s).
Proof.
  intros x y Ht Hlg HB Hne Hx Hy Hnb Hsz. pose proof Hlg as (Hdev & Hst & Hbs).
  assert (Hlk : bs !! t = Some y) by (by apply list_lookup_lookup_total_lt).
  destruct (two_reads _ _ _ _ x y HB Hne Hx Hy Hsz)
    as (i & j & s1 & s2 & E1 & E2 & HB2 & Hi & Hj & [D2 T2 C2]).
  destruct (copy_write _ _ _ _ x y i j HB2 Hne Hi Hj)
    as (s4 & s5 & s6 & l' & E4 & E5 & E6 & HB6 & D6 & T6 & C6).
  { rewrite D2. by apply (source_clean _ _ _ _ _ HB). }
  exists s6, l'. split_and!; [|done|congruence|congruence|congruence].
  cbn [install_loop]. mrun. rewrite Hdev, Hst.
  mrun (bread_int_run s 1 x _ _ ltac:(lia) E1).
  mrun (lh_get_run (set_lb s1 s) t y Hlg Hlk).
  mrun (bread_int_run (set_lb s1 s) 1 y _ _ ltac:(lia) E2).
  mrun (bufdata_run (set_lb s2 (set_lb s1 s)) i).
  mrun (setdata_run (set_lb s2 (set_lb s1 s)) j (data (bat s2 i))).
  set (q := set_lb _ (set_lb s2 _)).
  mrun (io_Ok (bwrite j) q _ _ E4).
  mrun (io_Ok (brelse i) (set_lb s4 q) _ _ E5).
  mrun (io_Ok (brelse j) (set_lb s5 (set_lb s4 q)) _ _ E6).
  by replace (Z.of_nat t + 1) with (Z.of_nat (S t)) by lia.
Qed.

Lemma write_log_step k t s v D l :
  let x := bs !!! t in let y := st + Z.of_nat t + 1 in
  (t < length bs)%nat -> logged s -> bio (lb s) v D ∅ l -> x <> y ->
  0 <= x < nblocks (lb s) -> 0 <= y < nblocks (lb s) -> nblocks (lb s) <= 2 ^ 32 ->
  (size (D ∪ {[x]} ∪ {[y]}) <= HEAD)%nat ->
  exists b l', write_log_loop (S k) (Z.of_nat t) s =
      write_log_loop k (Z.of_nat (S t)) (set_lb b s) /\
    bio b (fupd v y (v x)) (D ∖ {[y]}) ∅ l' /\
    disk b = <[Z.to_nat y := v x]> (disk (lb s)) /\
    hist b = disk (lb s) :: hist (lb s) /\ cur b = cur (lb s).
Proof.
  intros x y Ht Hlg HB Hne Hx Hy Hnb Hsz. pose proof Hlg as (Hdev & Hst & Hbs).
  assert (Hlk : bs !! t = Some x) by (by apply list_lookup_lookup_total_lt).
  destruct (two_reads _ _ _ _ y x HB (not_eq_sym Hne) Hy Hx)
    as (j & i & s1 & s2 & E1 & E2 & HB2 & Hj & Hi & [D2 T2 C2]).
  { by rewrite <- (assoc_L (∪)), (comm_L (∪) {[y]}), (assoc_L (∪)). }
  rewrite (comm_L (∪) {[y]}) in HB2.
  destruct (copy_write _ _ _ _ x y i j HB2 Hne Hi Hj)
    as (s4 & s5 & s6 & l' & E4 & E5 & E6 & HB6 & D6 & T6 & C6).
  { rewrite D2. by apply (source_clean _ _ _ _ _ HB). }
  exists s6, l'. split_and!; [|done|congruence|congruence|congruence].
  cbn [write_log_loop]. mrun. rewrite Hdev, Hst.
  mrun (bread_int_run s 1 y _ _ ltac:(lia) E1).
  mrun (lh_get_run (set_lb s1 s) t x Hlg Hlk).
  mrun (bread_int_run (set_lb s1 s) 1 x _ _ ltac:(lia) E2).
  mrun (bufdata_run (set_lb s2 (set_lb s1 s)) i).
  mrun (setdata_run (set_lb s2 (set_lb s1 s)) j (data (bat s2 i))).
  set (q := set_lb _ (set_lb s2 _)).
  mrun (io_Ok (bwrite j) q _ _ E4).
  mrun (io_Ok (brelse i) (set_lb s4 q) _ _ E5).
  mrun (io_Ok (brelse j) (set_lb s5 (set_lb s4 q)) _ _ E6).
  by replace (Z.of_nat t + 1) with (Z.of_nat (S t)) by lia.
Qed.

End log.

(** ** The header block *)

Definition head (d : block) (n : Z) (bs : list Z) : block :=
  head_words (setw d 0 n) 0 bs.

Lemma head_words_spec d i bs :
  (4 * (i + length bs) + 4 <= length d)%nat ->
  length (head_words d i bs) = length d /\
  forall j, getw (head_words d i bs) j =
    if decide (i < j <= i + length bs)%nat then u32 (bs !!! (j - i - 1)%nat) else getw d j.
Proof.
  revert d i. induction bs as [|b bs IH]; intros d i Hl; cbn [head_words length] in *.
  - split; [done|]. intros j. by rewrite decide_False by lia.
  - destruct (IH (setw d (S i) b) (S i)) as [HL HW]; [rewrite setw_length; lia|].
    rewrite setw_length in HL by lia. split; [done|]. intros j. rewrite HW.
    rewrite getw_setw by lia. destruct (decide (S i = j)) as [<-|Hne].
    + rewrite decide_False, decide_True by lia.
      by replace (S i - i - 1)%nat with 0%nat by lia.
    + destruct (decide (S i < j <= S i + length bs)%nat).
      * rewrite decide_True by lia.
        replace (j - i - 1)%nat with (S (j - S i - 1))%nat by lia. done.
      * by rewrite decide_False by lia.
Qed.

Lemma head_spec d n bs :
  length d = Z.to_nat BSIZE -> (length bs <= Z.to_nat LOGSIZE)%nat ->
  length (head d n bs) = Z.to_nat BSIZE /\ getw (head d n bs) 0 = u32 n /\
  forall i, (i < length bs)%nat -> getw (head d n bs) (S i) = u32 (bs !!! i).
Proof.
  intros Hd Hb. change (Z.to_nat BSIZE) with 512%nat in *.
  change (Z.to_nat LOGSIZE) with 30%nat in *.
  assert (Hs : length (setw d 0 n) = 512%nat) by (rewrite setw_length; lia).
  destruct (head_words_spec (setw d 0 n) 0 bs) as [HL HW]; [lia|].
  unfold head. split_and!; [lia|..].
  - rewrite HW, decide_False, getw_setw by lia. by rewrite decide_True.
  - intros i Hi. rewrite HW, decide_True by lia. do 2 f_equal. lia.
Qed.

Lemma write_head_ok s v D l :
  nblocks (lb s) <= 2 ^ 32 -> log_dev s = 1 -> bio (lb s) v D ∅ l -> 0 <= log_start s < nblocks (lb s) ->
  log_start s ∉ D -> (size (D ∪ {[log_start s]}) <= HEAD)%nat ->
  lh_n s <= Z.of_nat (length (lh_block s)) <= LOGSIZE ->
  let h := head (v (log_start s)) (lh_n s) (take (Z.to_nat (lh_n s)) (lh_block s)) in
  exists b l', write_head s = Ok (tt, set_lb b s) /\
    bio b (fupd v (log_start s) h) D ∅ l' /\
    disk b = <[Z.to_nat (log_start s) := h]> (disk (lb s)) /\
    hist b = disk (lb s) :: hist (lb s) /\ cur b = cur (lb s).
Proof.
  intros Hnb Hdev HB Hr HD Hsz Hn h. set (st := log_start s) in *.
  destruct (bread_ok _ _ _ _ _ st HB Hr) as (i & s1 & E1 & HB1 & Hi & [D1 T1 C1] & _);
    [set_solver|by rewrite (right_id_L ∅ (∪) D)|].
  rewrite (left_id_L ∅ (∪) {[st]}) in HB1.
  pose proof (bi_data _ _ _ _ _ HB1 i st Hi) as Hdt.
  assert (Hh : length h = Z.to_nat BSIZE).
  { apply head_spec; [by apply (bi_size _ _ _ _ _ HB)|]. rewrite length_take. lia. }
  pose proof (bio_set_data _ _ _ _ _ i st h HB1 Hi ltac:(set_solver) Hh) as HB3.
  set (s3 := upd_st i (set_data h) s1) in *.
  assert (Hi3 : isbuf s3 i st).
  { pose proof Hi as (Hlt & Hd & Hb). unfold isbuf, s3. rewrite bat_upd.
    - by rewrite decide_True.
    - rewrite (bi_len _ _ _ _ _ HB1). lia. }
  assert (Hst : fupd v st h st = h) by (unfold fupd; by rewrite decide_True).
  destruct (bwrite_ok _ _ _ _ _ i st HB3 Hi3 ltac:(set_solver))
    as (s4 & E4 & HB4 & D4 & T4 & C4 & Hst4). rewrite Hst in D4.
  change (disk s3) with (disk s1) in D4, T4. change (hist s3) with (hist s1) in T4.
  destruct (brelse_ok _ _ _ _ _ i st HB4 (Hst4 _ _ Hi3) ltac:(set_solver))
    as (s5 & E5 & HB5 & [D5 T5 C5] & _).
  { right. rewrite Hst, D4, D1. symmetry. apply list_lookup_total_insert_eq.
    unfold nblocks in Hr. lia. }
  exists s5. eexists. split_and!; [| |congruence|congruence|].
  - unfold write_head. mrun. rewrite Hdev. fold st. mrun (bread_int_run s 1 st _ _ ltac:(lia) E1).
    mrun (bufdata_run (set_lb s1 s) i). cbn [lb set_lb]. rewrite Hdt. fold h.
    mrun (setdata_run (set_lb s1 s) i h). set (q := set_lb _ (set_lb s1 s)).
    mrun (io_Ok (bwrite i) q _ _ E4). by rewrite (io_Ok (brelse i) (set_lb s4 q) _ _ E5).
  - replace (D ∖ {[st]}) with D in HB5 by set_solver.
    replace ({[st]} ∖ {[st]}) with (∅ : gset Z) in HB5 by set_solver. exact HB5.
  - change (cur s3) with (cur s1) in C4. congruence.
Qed.

(** ** The logical contents of a disk *)

Definition hdr_n (st : Z) (dk : list block) : Z := s32 (getw (dk !!! Z.to_nat st) 0).
Definition hdr_block (st : Z) (dk : list block) (i : nat) : Z :=
  s32 (getw (dk !!! Z.to_nat st) (S i)).
Definition hdr_blocks (st : Z) (dk : list block) : list Z :=
  hdr_block st dk <$> seq 0 (Z.to_nat (hdr_n st dk)).

Definition logical (st : Z) (dk : list block) (b : Z) : block :=
  match find_idx (Z.eqb b) (hdr_blocks st dk) with
  | Some i => dk !!! Z.to_nat (st + Z.of_nat i + 1)
  | None => dk !!! Z.to_nat b
  end.

(** The blocks the log protects: those after the log. *)
Definition home (st sz : Z) (dk : list block) (b : Z) : Prop :=
  st + sz <= b < Z.of_nat (length dk).

Record wf_disk (st sz : Z) (dk : list block) : Prop := {
  wd_start : 2 <= st;
  wd_size : 0 < sz <= LOGSIZE;
  wd_len : st + sz <= Z.of_nat (length dk) < 2 ^ 31;
  wd_blocks : Forall (fun b => length b = Z.to_nat BSIZE) dk;
  wd_sb : let sb := sb_of_block (dk !!! 1%nat) in
    sb_logstart sb = st /\ sb_nlog sb = sz;
  wd_n : 0 <= hdr_n st dk < sz;
  wd_nodup : NoDup (hdr_blocks st dk);
  wd_home : Forall (home st sz dk) (hdr_blocks st dk)
}.

Lemma read_head_loop_ok k i d s :
  (i + k <= length (lh_block s))%nat ->
  exists bs, read_head_loop k i d s = Ok (tt, set_lh (lh_n s) bs s) /\
    length bs = length (lh_block s) /\
    forall j, (j < length bs)%nat -> bs !!! j =
      if decide (i <= j < i + k)%nat then s32 (getw d (S j)) else lh_block s !!! j.
Proof.
  revert i s. induction k as [|k IH]; intros i s Hl; cbn [read_head_loop].
  - exists (lh_block s). destruct s. split_and!; auto. intros j _.
    by rewrite decide_False by lia.
  - mrun. rewrite decide_True by lia. mrun.
    set (s1 := set_lh _ _ s). destruct (IH (S i) s1) as (bs & E & HL & Hbs).
    { unfold s1. cbn [lh_block set_lh]. rewrite length_insert. lia. }
    exists bs. rewrite E. unfold s1 in *. cbn [lh_block set_lh] in *.
    rewrite length_insert in HL. split_and!; auto. intros j Hj. rewrite Hbs by done.
    destruct (decide (S i <= j < S i + k)%nat).
    + by rewrite decide_True by lia.
    + destruct (decide (j = i)) as [->|Hne].
      * rewrite decide_True by lia. apply list_lookup_total_insert_eq. lia.
      * rewrite decide_False by lia. by apply list_lookup_total_insert_ne.
Qed.

Lemma read_head_ok s v l :
  nblocks (lb s) <= 2 ^ 32 -> log_dev s = 1 -> bio (lb s) v ∅ ∅ l -> 0 <= log_start s < nblocks (lb s) ->
  0 <= hdr_n (log_start s) (disk (lb s)) <= LOGSIZE ->
  length (lh_block s) = Z.to_nat LOGSIZE ->
  exists b l' bs, read_head s =
      Ok (tt, set_lh (hdr_n (log_start s) (disk (lb s))) bs (set_lb b s)) /\
    bio b v ∅ ∅ l' /\ same_disk (lb s) b /\ length bs = Z.to_nat LOGSIZE /\
    take (Z.to_nat (hdr_n (log_start s) (disk (lb s)))) bs =
    hdr_blocks (log_start s) (disk (lb s)).
Proof.
  intros Hnb Hdev HB Hr Hn Hl. set (st := log_start s) in *.
  destruct (bread_ok _ _ _ _ _ st HB Hr) as (i & s1 & E1 & HB1 & Hi & [D1 T1 C1] & _);
    [set_solver|by rewrite !(left_id_L ∅ (∪)), size_singleton; vm_compute; lia|].
  rewrite (left_id_L ∅ (∪) {[st]}) in HB1.
  assert (Hv : v st = disk (lb s) !!! Z.to_nat st)
    by (apply (bi_disk _ _ _ _ _ HB); [done|set_solver]).
  pose proof (bi_data _ _ _ _ _ HB1 i st Hi) as Hdt. rewrite Hv in Hdt.
  set (d := disk (lb s) !!! Z.to_nat st) in *.
  set (n := hdr_n st (disk (lb s))) in *.
  set (s2 := set_lh n (lh_block s) (set_lb s1 s)).
  destruct (read_head_loop_ok (Z.to_nat n) 0 d s2) as (bs & E2 & HL & Hbs);
    [cbn [lh_block s2 set_lh set_lb]; lia|].
  destruct (brelse_ok _ _ _ _ _ i st HB1 Hi ltac:(set_solver))
    as (s5 & E5 & HB5 & [D5 T5 C5] & _); [right; by rewrite D1|].
  exists s5. eexists. exists bs. split_and!.
  - unfold read_head. mrun. rewrite Hdev. fold st. mrun (bread_int_run s 1 st _ _ ltac:(lia) E1).
    mrun (bufdata_run (set_lb s1 s) i). cbn [lb set_lb]. rewrite Hdt. mrun.
    change (s32 (getw d 0)) with n. fold s2. change (lh_n s2) with n. mrun E2.
    by rewrite (io_Ok (brelse i) (set_lh (lh_n s2) bs s2) _ _ E5).
  - replace ({[st]} ∖ {[st]}) with (∅ : gset Z) in HB5 by set_solver. exact HB5.
  - split; congruence.
  - rewrite HL. done.
  - cbn [lh_block s2 set_lh set_lb] in *. apply list_eq_same_length with (n := Z.to_nat n).
    + unfold hdr_blocks. fold n. by rewrite length_fmap, length_seq.
    + rewrite length_take. lia.
    + intros j a b Hj Ha Hb. apply lookup_take_Some in Ha as [Ha _].
      unfold hdr_blocks in Hb. fold n in Hb. rewrite list_lookup_fmap, lookup_seq_lt in Hb
        by lia. injection Hb as <-.
      pose proof (lookup_lt_Some _ _ _ Ha) as Hlt.
      apply list_lookup_total_correct in Ha. rewrite <- Ha, Hbs by done.
      by rewrite decide_True by lia.
Qed.

Definition sized (d : list block) : Prop :=
  Forall (fun b => length b = Z.to_nat BSIZE) d.

(** What the home blocks hold after a transaction that gives the blocks [bs]
    the contents [w], on top of [c]. *)
Definition newc (bs : list Z) (w : nat -> block) (c : Z -> block) (b : Z) : block :=
  match find_idx (Z.eqb b) bs with Some i => w i | None => c b end.

(** A disk whose log holds that transaction, whatever has been installed. *)
Record committed (st sz : Z) (bs : list Z) (w : nat -> block) (c : Z -> block)
  (dk0 d : list block) : Prop := {
  cm_len : length d = length dk0;
  cm_sized : sized d;
  cm_sb : d !!! 1%nat = dk0 !!! 1%nat;
  cm_n : hdr_n st d = Z.of_nat (length bs);
  cm_blocks : hdr_blocks st d = bs;
  cm_log : forall i, (i < length bs)%nat -> d !!! Z.to_nat (st + Z.of_nat i + 1) = w i;
  cm_rest : forall b, home st sz d b -> b ∉ bs -> d !!! Z.to_nat b = c b
}.

(** A disk on which only the body of the log has changed since [dk0]. *)
Record pending (st sz : Z) (dk0 d : list block) : Prop := {
  pe_len : length d = length dk0;
  pe_sized : sized d;
  pe_sb : d !!! 1%nat = dk0 !!! 1%nat;
  pe_head : d !!! Z.to_nat st = dk0 !!! Z.to_nat st;
  pe_rest : forall b, home st sz d b -> d !!! Z.to_nat b = dk0 !!! Z.to_nat b
}.

Lemma logical_none st d b : hdr_n st d = 0 -> logical st d b = d !!! Z.to_nat b.
Proof. intros H. unfold logical, hdr_blocks. by rewrite H. Qed.

Lemma find_eqb_Some b bs i :
  find_idx (Z.eqb b) bs = Some i -> bs !! i = Some b /\ (i < length bs)%nat.
Proof.
  intros H. pose proof (find_idx_lt _ _ _ H).
  apply find_idx_Some in H as (x & Hx & E%Z.eqb_eq & _). by subst.
Qed.

Lemma find_eqb_None b bs : find_idx (Z.eqb b) bs = None <-> b ∉ bs.
Proof.
  rewrite find_idx_None. split.
  - intros H [i Hi]%list_elem_of_lookup. specialize (H i b Hi). by rewrite Z.eqb_refl in H.
  - intros H i x Hx. apply Z.eqb_neq. intros ->. apply H. by eapply list_elem_of_lookup_2.
Qed.

Lemma find_eqb_nth bs i b :
  NoDup bs -> bs !! i = Some b -> find_idx (Z.eqb b) bs = Some i.
Proof.
  intros Hnd Hi. destruct (find_idx (Z.eqb b) bs) as [j|] eqn:E.
  - apply find_eqb_Some in E as [Hj _]. f_equal. by eapply NoDup_lookup.
  - apply find_eqb_None in E. by destruct E; eapply list_elem_of_lookup_2.
Qed.

Lemma logical_committed st sz bs w c dk0 d b :
  committed st sz bs w c dk0 d -> home st sz d b -> logical st d b = newc bs w c b.
Proof.
  intros HC Hb. unfold logical, newc. rewrite (cm_blocks _ _ _ _ _ _ _ HC).
  destruct (find_idx (Z.eqb b) bs) as [i|] eqn:E.
  - apply find_eqb_Some in E as [_ Hi]. by apply (cm_log _ _ _ _ _ _ _ HC).
  - apply find_eqb_None in E. by apply (cm_rest _ _ _ _ _ _ _ HC).
Qed.

Lemma hdr_ext st d d' :
  d' !!! Z.to_nat st = d !!! Z.to_nat st ->
  hdr_n st d' = hdr_n st d /\ hdr_blocks st d' = hdr_blocks st d.
Proof.
  intros E. unfold hdr_blocks, hdr_n, hdr_block. by rewrite E.
Qed.

Lemma committed_install st sz bs w c dk0 d i b :
  2 <= st -> Z.of_nat (length bs) < sz -> Forall (home st sz dk0) bs -> NoDup bs ->
  committed st sz bs w c dk0 d -> bs !! i = Some b ->
  length (w i) = Z.to_nat BSIZE -> committed st sz bs w c dk0 (<[Z.to_nat b := w i]> d).
Proof.
  intros Hst Hn Hh Hnd HC Hi Hw. rewrite Forall_lookup in Hh.
  pose proof (Hh i b Hi) as Hb. unfold home in Hb.
  assert (Hlen : length (<[Z.to_nat b := w i]> d) = length dk0)
    by (rewrite length_insert; apply HC).
  assert (Hne : forall a, 0 <= a < st + sz ->
    <[Z.to_nat b := w i]> d !!! Z.to_nat a = d !!! Z.to_nat a).
  { intros a Ha. apply list_lookup_total_insert_ne. lia. }
  destruct (hdr_ext st d (<[Z.to_nat b := w i]> d)) as [E1 E2]; [apply Hne; lia|].
  split; auto.
  - apply Forall_insert; [apply HC|done].
  - rewrite <- (cm_sb _ _ _ _ _ _ _ HC). apply (Hne 1). lia.
  - rewrite E1. apply HC.
  - rewrite E2. apply HC.
  - intros j Hj. rewrite Hne by lia. by apply (cm_log _ _ _ _ _ _ _ HC).
  - intros a Ha Hin. rewrite list_lookup_total_insert_ne.
    + apply (cm_rest _ _ _ _ _ _ _ HC); [|done]. unfold home in *.
      by rewrite length_insert in Ha.
    + intros E. assert (a = b) as -> by (unfold home in *; lia).
      apply Hin. by eapply list_elem_of_lookup_2.
Qed.

Lemma pending_log st sz dk0 d a x :
  0 <= st -> st < a < st + sz -> st <> 1 -> a <> 1 -> length x = Z.to_nat BSIZE ->
  pending st sz dk0 d -> pending st sz dk0 (<[Z.to_nat a := x]> d).
Proof.
  intros Hst Ha Hn1 Hn2 Hx HP.
  assert (Hne : forall b, 0 <= b -> b <> a ->
    <[Z.to_nat a := x]> d !!! Z.to_nat b = d !!! Z.to_nat b).
  { intros b Hb Hba. apply list_lookup_total_insert_ne. lia. }
  split.
  - rewrite length_insert. apply HP.
  - apply Forall_insert; [apply HP|done].
  - rewrite <- (pe_sb _ _ _ _ HP). apply (Hne 1); lia.
  - rewrite <- (pe_head _ _ _ _ HP). apply Hne; lia.
  - intros b Hb. unfold home in Hb. rewrite length_insert in Hb.
    rewrite <- (pe_rest _ _ _ _ HP) by done. apply Hne; lia.
Qed.

Lemma logged_size (D : gset Z) (bs : list Z) x y :
  D ⊆ list_to_set bs -> y ∈ bs -> NoDup bs -> (length bs < HEAD)%nat ->
  (size (D ∪ {[x]} ∪ {[y]}) <= HEAD)%nat.
Proof.
  intros HD Hy Hnd Hl.
  assert (Hs : D ∪ {[x]} ∪ {[y]} ⊆ list_to_set bs ∪ {[x]}).
  { intros a. rewrite !elem_of_union, !elem_of_singleton, elem_of_list_to_set.
    intros [[Ha%HD|]|]; subst; auto. left. by apply elem_of_list_to_set in Ha. }
  apply subseteq_size in Hs.
  assert (Hb : size (list_to_set bs : gset Z) = length bs) by by apply size_list_to_set.
  assert (Hu : (size (list_to_set bs ∪ {[x]} : gset Z) <= length bs + 1)%nat).
  { rewrite size_union_alt, Hb. apply Nat.add_le_mono_l.
    etrans; [apply subseteq_size, subseteq_difference_l; reflexivity|].
    by rewrite size_singleton. }
  lia.
Qed.

(** A list of blocks to log: distinct, after the log, and fitting in it. *)
Record loggable (st sz : Z) (dk : list block) (bs : list Z) : Prop := {
  lg_start : 2 <= st;
  lg_size : sz <= LOGSIZE;
  lg_n : Z.of_nat (length bs) < sz;
  lg_top : st + sz <= Z.of_nat (length dk);
  lg_len : Z.of_nat (length dk) < 2 ^ 31;
  lg_home : Forall (home st sz dk) bs;
  lg_nodup : NoDup bs
}.

Lemma loggable_nil st sz dk :
  2 <= st -> 0 < sz <= LOGSIZE -> st + sz <= Z.of_nat (length dk) < 2 ^ 31 ->
  loggable st sz dk [].
Proof.
  intros H1 H2 H3.
  split; try lia; [simpl; lia|apply Forall_nil_2|apply NoDup_nil_2].
Qed.

Lemma loggable_pair st sz dk bs i j b :
  loggable st sz dk bs -> bs !! i = Some b -> (j < length bs)%nat ->
  st + sz <= b < Z.of_nat (length dk) /\ st + Z.of_nat j + 1 < st + sz /\
  2 <= st /\ sz <= LOGSIZE.
Proof.
  intros [] Hi Hj. rewrite Forall_lookup in lg_home0.
  pose proof (lg_home0 i b Hi) as Hb. unfold home in Hb. lia.
Qed.

Lemma install_ok st sz bs w c dk0 s v D l full :
  loggable st sz dk0 bs -> logged st full s -> lh_n s = Z.of_nat (length bs) ->
  take (length bs) full = bs -> bio (lb s) v D ∅ l -> D ⊆ list_to_set bs ->
  committed st sz bs w c dk0 (disk (lb s)) ->
  (forall i, (i < length bs)%nat -> v (st + Z.of_nat i + 1) = w i) ->
  exists b v' l', install_trans s = Ok (tt, set_lb b s) /\ bio b v' ∅ ∅ l' /\
    visited (committed st sz bs w c dk0) (lb s) b /\
    (forall a, home st sz dk0 a -> v' a = newc bs w v a) /\ v' st = v st /\
    nblocks b = nblocks (lb s) /\ cur b = cur (lb s).
Proof.
  intros HL Hlg Hn Hfull HB HD HC Hw.
  assert (HN : nblocks (lb s) = Z.of_nat (length dk0))
    by (unfold nblocks; by rewrite (cm_len _ _ _ _ _ _ _ HC)).
  assert (Hy : forall i, (i < length bs)%nat -> bs !! i = Some (full !!! i)).
  { intros i Hi. rewrite <- Hfull at 1. rewrite lookup_take_lt by done.
    apply list_lookup_lookup_total_lt. rewrite <- Hfull, length_take in Hi. lia. }
  pose proof (lg_size _ _ _ _ HL) as Hsz. pose proof (lg_n _ _ _ _ HL) as Hlt.
  pose proof (lg_top _ _ _ _ HL) as Htop. pose proof (lg_nodup _ _ _ _ HL) as Hnd.
  change LOGSIZE with 30 in Hsz.
  assert (Hhead : (length bs < HEAD)%nat) by (change HEAD with 30%nat; lia).
  destruct (copy_loop install_loop (fun i => st + Z.of_nat i + 1) (fun i => full !!! i)
    (logged st full) (length full) ltac:(done) (logged_lb st full)
    (install_step st full) (committed st sz bs w c dk0) (length bs) 0 s v D l)
    as (b & v' & D' & l' & E & HB' & HV & HNb & Hc & Hv1 & Hv2 & HD').
  - rewrite <- Hfull, length_take. lia.
  - done.
  - done.
  - rewrite HN. pose proof (lg_len _ _ _ _ HL). lia.
  - intros i Hi. destruct (loggable_pair _ _ _ _ i i _ HL (Hy i ltac:(lia)))
      as (? & ? & ? & _); [lia|]. rewrite HN. split_and!; try lia.
    apply (logged_size D bs); auto. apply list_elem_of_lookup. exists i. apply Hy. lia.
  - intros i j Hi Hj. destruct (loggable_pair _ _ _ _ j i _ HL (Hy j ltac:(lia)));
      lia.
  - intros i j Hi Hj Hij. eapply NoDup_lookup; [exact Hnd|apply Hy; lia|].
    rewrite Hij. apply Hy. lia.
  - intros d i Hi Hd. rewrite Hw by lia.
    eapply committed_install; eauto; [apply HL|apply HL|apply Hy; lia|].
    rewrite <- Hw by lia. apply (bi_size _ _ _ _ _ HB). rewrite HN.
    pose proof (lg_start _ _ _ _ HL). lia.
  - exact HC.
  - assert (D' = ∅) as ->.
    { apply set_eq. intros n. rewrite HD'. split; [|set_solver].
      intros [Hd Hno]. apply HD, elem_of_list_to_set, list_elem_of_lookup in Hd as [i Hi].
      exfalso. pose proof (lookup_lt_Some _ _ _ Hi). apply (Hno i ltac:(lia)).
      rewrite Hy in Hi by done. by injection Hi. }
    exists b, v', l'. unfold install_trans. mrun. rewrite Hn, Nat2Z.id.
    split_and!; auto.
    + intros a Ha. unfold newc. destruct (find_idx (Z.eqb a) bs) as [i|] eqn:Ei.
      * apply find_eqb_Some in Ei as [Hi Hil]. rewrite Hy in Hi by done.
        injection Hi as <-. rewrite Hv1 by lia. apply Hw. lia.
      * apply find_eqb_None in Ei. apply Hv2. intros i Hi ->.
        apply Ei, list_elem_of_lookup. exists i. apply Hy. lia.
    + apply Hv2. intros i Hi. destruct (loggable_pair _ _ _ _ i i _ HL
        (Hy i ltac:(lia))); lia.
Qed.

Lemma write_log_ok st sz bs dk0 s v D l full :
  loggable st sz dk0 bs -> logged st full s -> lh_n s = Z.of_nat (length bs) ->
  take (length bs) full = bs -> bio (lb s) v D ∅ l -> D ⊆ list_to_set bs ->
  pending st sz dk0 (disk (lb s)) ->
  exists b v' l', write_log s = Ok (tt, set_lb b s) /\ bio b v' D ∅ l' /\
    visited (pending st sz dk0) (lb s) b /\
    (forall i, (i < length bs)%nat -> v' (st + Z.of_nat i + 1) = v (bs !!! i)) /\
    (forall a, home st sz dk0 a -> v' a = v a) /\ v' st = v st /\
    nblocks b = nblocks (lb s) /\ cur b = cur (lb s).
Proof.
  intros HL Hlg Hn Hfull HB HD HC.
  assert (HN : nblocks (lb s) = Z.of_nat (length dk0))
    by (unfold nblocks; by rewrite (pe_len _ _ _ _ HC)).
  assert (Hy : forall i, (i < length bs)%nat -> bs !! i = Some (full !!! i)).
  { intros i Hi. rewrite <- Hfull at 1. rewrite lookup_take_lt by done.
    apply list_lookup_lookup_total_lt. rewrite <- Hfull, length_take in Hi. lia. }
  pose proof (lg_size _ _ _ _ HL) as Hsz. pose proof (lg_n _ _ _ _ HL) as Hlt.
  pose proof (lg_top _ _ _ _ HL) as Htop. pose proof (lg_nodup _ _ _ _ HL) as Hnd.
  pose proof (lg_start _ _ _ _ HL) as Hst. change LOGSIZE with 30 in Hsz.
  assert (Hhead : (length bs < HEAD)%nat) by (change HEAD with 30%nat; lia).
  destruct (copy_loop write_log_loop (fun i => full !!! i) (fun i => st + Z.of_nat i + 1)
    (logged st full) (length full) ltac:(done) (logged_lb st full)
    (write_log_step st full) (pending st sz dk0) (length bs) 0 s v D l)
    as (b & v' & D' & l' & E & HB' & HV & HNb & Hc & Hv1 & Hv2 & HD').
  - rewrite <- Hfull, length_take. lia.
  - done.
  - done.
  - rewrite HN. pose proof (lg_len _ _ _ _ HL). lia.
  - intros i Hi. destruct (loggable_pair _ _ _ _ i i _ HL (Hy i ltac:(lia)))
      as (? & ? & ? & _); [lia|]. rewrite HN. split_and!; try lia.
    rewrite <- (assoc_L (∪)), (comm_L (∪) {[full !!! i]}), (assoc_L (∪)).
    apply (logged_size D bs); auto. apply list_elem_of_lookup. exists i. apply Hy. lia.
  - intros i j Hi Hj. destruct (loggable_pair _ _ _ _ i j _ HL (Hy i ltac:(lia)));
      lia.
  - lia.
  - intros d i Hi Hd. apply pending_log; auto; try lia.
    apply (bi_size _ _ _ _ _ HB). rewrite HN.
    destruct (loggable_pair _ _ _ _ i i _ HL (Hy i ltac:(lia))); lia.
  - exact HC.
  - assert (D' = D) as ->.
    { apply set_eq. intros n. rewrite HD'. split; [by intros [? _]|].
      intros Hin. split; [done|]. intros i Hi ->.
      apply HD, elem_of_list_to_set, list_elem_of_lookup in Hin as [j Hj].
      destruct (loggable_pair _ _ _ _ j i _ HL Hj); lia. }
    exists b, v', l'. unfold write_log. mrun. rewrite Hn, Nat2Z.id.
    split_and!; auto.
    + intros i Hi. rewrite Hv1 by lia. f_equal. symmetry.
      by apply list_lookup_total_correct, Hy.
    + intros a Ha. apply Hv2. intros i Hi ->. unfold home in Ha. lia.
    + apply Hv2. intros i Hi. lia.
Qed.

(** ** Commit *)

Lemma getw_u32 d n bs :
  length d = Z.to_nat BSIZE -> (length bs <= Z.to_nat LOGSIZE)%nat ->
  - 2 ^ 31 <= n < 2 ^ 31 -> s32 (getw (head d n bs) 0) = n.
Proof.
  intros Hd Hb Hn. destruct (head_spec d n bs Hd Hb) as (_ & -> & _).
  unfold s32. rewrite u32_idemp. by apply s32_small.
Qed.

(** Writing the header of [bs] makes a pending transaction committed. *)
Lemma pending_head st sz bs w c dk0 d old :
  loggable st sz dk0 bs -> Z.of_nat (length dk0) < 2 ^ 31 ->
  pending st sz dk0 d -> length old = Z.to_nat BSIZE ->
  (forall i, (i < length bs)%nat -> d !!! Z.to_nat (st + Z.of_nat i + 1) = w i) ->
  (forall b, home st sz d b -> b ∉ bs -> c b = dk0 !!! Z.to_nat b) ->
  committed st sz bs w c dk0
    (<[Z.to_nat st := head old (Z.of_nat (length bs)) bs]> d).
Proof.
  intros HL Hlen HP Hold Hw Hc. set (h := head _ _ _).
  pose proof (lg_size _ _ _ _ HL) as Hsz. pose proof (lg_n _ _ _ _ HL) as Hlt.
  pose proof (lg_top _ _ _ _ HL) as Htop. pose proof (lg_start _ _ _ _ HL) as Hst.
  assert (Hbl : (length bs <= Z.to_nat LOGSIZE)%nat) by lia.
  destruct (head_spec old (Z.of_nat (length bs)) bs Hold Hbl) as (Hh & H0 & Hi).
  fold h in Hh, H0, Hi. set (d' := <[Z.to_nat st := h]> d).
  assert (Hd' : d' !!! Z.to_nat st = h).
  { apply list_lookup_total_insert_eq. rewrite (pe_len _ _ _ _ HP). lia. }
  assert (Hne : forall b, 0 <= b -> b <> st -> d' !!! Z.to_nat b = d !!! Z.to_nat b).
  { intros b Hb Hbs. apply list_lookup_total_insert_ne. lia. }
  assert (Hn : hdr_n st d' = Z.of_nat (length bs)).
  { unfold hdr_n. rewrite Hd'. apply getw_u32; auto. change LOGSIZE with 30 in Hsz. lia. }
  split; auto.
  - unfold d'. rewrite length_insert. apply HP.
  - apply Forall_insert; [apply HP|done].
  - rewrite <- (pe_sb _ _ _ _ HP). apply (Hne 1); lia.
  - unfold hdr_blocks. rewrite Hn, Nat2Z.id. apply list_eq. intros i.
    rewrite list_lookup_fmap. destruct (decide (i < length bs)%nat) as [Hib|Hib].
    + rewrite lookup_seq_lt by done. simpl. unfold hdr_block. rewrite Hd', Hi by done.
      rewrite list_lookup_lookup_total_lt by done. f_equal.
      pose proof (list_lookup_lookup_total_lt _ _ Hib) as Hlk.
      destruct (loggable_pair _ _ _ _ i i _ HL Hlk) as (? & _); [done|].
      unfold s32. rewrite u32_idemp. apply s32_small. lia.
    + rewrite lookup_seq_ge by lia. symmetry. apply lookup_ge_None. lia.
  - intros i Hib. rewrite Hne by lia. by apply Hw.
  - intros b Hb Hin. unfold home in Hb. unfold d' in Hb. rewrite length_insert in Hb.
    rewrite Hne by lia. rewrite (pe_rest _ _ _ _ HP) by done. symmetry. by apply Hc.
Qed.

(** The last step of commit and recovery: emptying the log. *)
Lemma erase_ok st sz bs w c dk0 s v l :
  loggable st sz dk0 bs -> log_dev s = 1 -> log_start s = st ->
  length (lh_block s) = Z.to_nat LOGSIZE -> bio (lb s) v ∅ ∅ l ->
  committed st sz bs w c dk0 (disk (lb s)) ->
  (forall a, home st sz dk0 a -> v a = newc bs w c a) ->
  exists b v' l', (do! clear_lh in write_head) s =
      Ok (tt, set_lh 0 (lh_block s) (set_lb b s)) /\
    bio b v' ∅ ∅ l' /\ (forall a, home st sz dk0 a -> v' a = newc bs w c a) /\
    hist b = disk (lb s) :: hist (lb s) /\ cur b = cur (lb s) /\
    length (disk b) = length dk0 /\ sized (disk b) /\
    disk b !!! 1%nat = dk0 !!! 1%nat /\ hdr_n st (disk b) = 0 /\
    (forall a, home st sz dk0 a -> disk b !!! Z.to_nat a = newc bs w c a).
Proof.
  intros HL Hdev Hs Hlh HB HC Hv.
  pose proof (lg_start _ _ _ _ HL) as Hst. pose proof (lg_top _ _ _ _ HL) as Htop.
  pose proof (lg_n _ _ _ _ HL) as Hn.
  assert (HN : nblocks (lb s) = Z.of_nat (length dk0))
    by (unfold nblocks; by rewrite (cm_len _ _ _ _ _ _ _ HC)).
  set (s1 := set_lh 0 (lh_block s) s).
  destruct (write_head_ok s1 v ∅ l) as (b & l' & E & HB' & Ed & Eh & Ec); [|done|done|..].
  { cbn [lb s1 set_lh]. rewrite HN. pose proof (lg_len _ _ _ _ HL). lia. }
  { cbn [log_start s1 set_lh lb]. rewrite HN, Hs. lia. }
  { set_solver. }
  { rewrite (left_id_L ∅ (∪)), size_singleton. change HEAD with 30%nat. lia. }
  { cbn [lh_block lh_n s1 set_lh]. rewrite Hlh. change LOGSIZE with 30. lia. }
  cbn [lh_block lh_n log_start lb s1 set_lh] in *. rewrite Hs in *.
  change (take (Z.to_nat 0) (lh_block s)) with (@nil Z) in *.
  set (h := head (v st) 0 []) in *.
  assert (Hvs : length (v st) = Z.to_nat BSIZE)
    by (apply (bi_size _ _ _ _ _ HB); rewrite HN; lia).
  assert (Hh : length h = Z.to_nat BSIZE) by (apply head_spec; simpl; auto; lia).
  assert (Hne : forall a, 0 <= a -> a <> st ->
    disk b !!! Z.to_nat a = disk (lb s) !!! Z.to_nat a).
  { intros a Ha Hast. rewrite Ed. apply list_lookup_total_insert_ne. lia. }
  exists b, (fupd v st h), l'. split_and!; [| exact HB' | |done|done|..].
  - unfold clear_lh. mrun. fold s1. rewrite E. done.
  - intros a Ha. unfold fupd. unfold home in Ha.
    rewrite decide_False by lia. by apply Hv.
  - rewrite Ed, length_insert. apply HC.
  - rewrite Ed. apply Forall_insert; [apply HC|done].
  - rewrite <- (cm_sb _ _ _ _ _ _ _ HC). apply (Hne 1); lia.
  - unfold hdr_n. rewrite Ed, list_lookup_total_insert_eq.
    + apply getw_u32; simpl; auto; lia.
    + rewrite (cm_len _ _ _ _ _ _ _ HC). lia.
  - intros a Ha. unfold home in Ha. rewrite Hne by lia. rewrite <- Hv by done.
    symmetry. apply (bi_disk _ _ _ _ _ HB); [rewrite HN; lia|set_solver].
Qed.

(** Disks that hold one of the two sides of a transaction. *)
Definition holds (st sz : Z) (nb : nat) (c : Z -> block) (d : list block) : Prop :=
  wf_disk st sz d /\ length d = nb /\ forall a, home st sz d a -> logical st d a = c a.

Lemma wf_committed st sz bs w c dk0 d :
  loggable st sz dk0 bs -> Z.of_nat (length dk0) < 2 ^ 31 ->
  (let sb := sb_of_block (dk0 !!! 1%nat) in sb_logstart sb = st /\ sb_nlog sb = sz) ->
  committed st sz bs w c dk0 d -> wf_disk st sz d.
Proof.
  intros HL Hlen Hsb HC. pose proof (lg_n _ _ _ _ HL). pose proof (lg_top _ _ _ _ HL).
  split; auto.
  - apply HL.
  - pose proof (lg_size _ _ _ _ HL). lia.
  - rewrite (cm_len _ _ _ _ _ _ _ HC). lia.
  - apply HC.
  - by rewrite (cm_sb _ _ _ _ _ _ _ HC).
  - rewrite (cm_n _ _ _ _ _ _ _ HC). lia.
  - rewrite (cm_blocks _ _ _ _ _ _ _ HC). apply HL.
  - rewrite (cm_blocks _ _ _ _ _ _ _ HC). unfold home.
    rewrite (cm_len _ _ _ _ _ _ _ HC). apply HL.
Qed.

Lemma wf_empty st sz d :
  2 <= st -> 0 < sz <= LOGSIZE -> st + sz <= Z.of_nat (length d) < 2 ^ 31 -> sized d ->
  (let sb := sb_of_block (d !!! 1%nat) in sb_logstart sb = st /\ sb_nlog sb = sz) ->
  hdr_n st d = 0 -> wf_disk st sz d.
Proof.
  intros Hst Hsz Hlen Hs Hsb Hn.
  assert (Hb : hdr_blocks st d = []) by (unfold hdr_blocks; by rewrite Hn).
  split; auto; rewrite ?Hn, ?Hb; [lia|apply NoDup_nil_2|apply Forall_nil_2].
Qed.

Lemma committed_holds st sz bs w c0 dk0 c d :
  loggable st sz dk0 bs -> Z.of_nat (length dk0) < 2 ^ 31 ->
  (let sb := sb_of_block (dk0 !!! 1%nat) in sb_logstart sb = st /\ sb_nlog sb = sz) ->
  (forall a, home st sz dk0 a -> newc bs w c0 a = c a) ->
  committed st sz bs w c0 dk0 d -> holds st sz (length dk0) c d.
Proof.
  intros HL Hlen Hsb Hnew Hd. split; [by apply (wf_committed st sz bs w c0 dk0)|]. split; [apply Hd|].
  intros a Ha. rewrite (logical_committed _ _ _ _ _ _ _ _ Hd Ha).
  apply Hnew. unfold home in *. by rewrite (cm_len _ _ _ _ _ _ _ Hd) in Ha.
Qed.

(** With an empty log the blocks are those on the disk. *)
Lemma erased_holds st sz dk0 c d :
  wf_disk st sz dk0 -> length d = length dk0 -> sized d -> d !!! 1%nat = dk0 !!! 1%nat -> hdr_n st d = 0 ->
  (forall a, home st sz dk0 a -> d !!! Z.to_nat a = c a) -> holds st sz (length dk0) c d.
Proof.
  intros [W1 W2 W3 _ W5 _ _ _] Hl Hs Hsb Hn Hd. split; [|split; [exact Hl|]].
  - apply wf_empty; auto; [by rewrite Hl|by rewrite Hsb].
  - intros a Ha. rewrite logical_none by done. apply Hd. unfold home in *. by rewrite Hl in Ha.
Qed.

Lemma pending_holds st sz dk0 d :
  wf_disk st sz dk0 -> hdr_n st dk0 = 0 -> pending st sz dk0 d ->
  holds st sz (length dk0) (fun a => dk0 !!! Z.to_nat a) d.
Proof.
  intros HW Hn Hd. destruct (hdr_ext st dk0 d (pe_head _ _ _ _ Hd)) as [Hn0 _].
  apply erased_holds; auto; [apply Hd..|congruence|]. intros a Ha. apply (pe_rest _ _ _ _ Hd).
  unfold home in *. by rewrite (pe_len _ _ _ _ Hd).
Qed.

(** ** Recovery *)

Lemma recover_ok st sz s v l :
  log_dev s = 1 -> log_start s = st -> length (lh_block s) = Z.to_nat LOGSIZE ->
  bio (lb s) v ∅ ∅ l -> wf_disk st sz (disk (lb s)) ->
  let c := logical st (disk (lb s)) in
  exists b v' l' full, recover_from_log s = Ok (tt, set_lh 0 full (set_lb b s)) /\
    length full = Z.to_nat LOGSIZE /\
    bio b v' ∅ ∅ l' /\ visited (holds st sz (length (disk (lb s))) c) (lb s) b /\
    hdr_n st (disk b) = 0 /\
    (forall a, home st sz (disk (lb s)) a ->
       disk b !!! Z.to_nat a = c a /\ v' a = c a) /\
    length (disk b) = length (disk (lb s)) /\ cur b = cur (lb s).
Proof.
  intros Hdev Hs Hlh HB HW c. set (dk0 := disk (lb s)) in *.
  pose proof HW as [W1 W2 W3 W4 W5 W6 W7 W8].
  set (bs := hdr_blocks st dk0) in *.
  assert (Hbl : length bs = Z.to_nat (hdr_n st dk0))
    by (unfold bs, hdr_blocks; by rewrite length_fmap, length_seq).
  assert (HL : loggable st sz dk0 bs) by (split; auto; lia).
  destruct (read_head_ok s v l) as (b1 & l1 & full & E1 & HB1 & [D1 T1 C1] & HF & HT); [|done|done|..].
  { unfold nblocks. fold dk0. pose proof (lg_len _ _ _ _ HL). lia. }
  { unfold nblocks. fold dk0. rewrite Hs. lia. }
  { rewrite Hs. fold dk0. lia. }
  { done. }
  rewrite Hs in E1, HT. fold dk0 in D1, HT, E1. fold bs in HT. rewrite <- Hbl in HT.
  set (s1 := set_lh (hdr_n st dk0) full (set_lb b1 s)) in *.
  set (w := fun i : nat => dk0 !!! Z.to_nat (st + Z.of_nat i + 1)).
  set (c0 := fun a : Z => dk0 !!! Z.to_nat a).
  assert (HC : committed st sz bs w c0 dk0 dk0) by (split; auto; lia).
  assert (Hv : forall a, 0 <= a < Z.of_nat (length dk0) -> v a = dk0 !!! Z.to_nat a).
  { intros a Ha. apply (bi_disk _ _ _ _ _ HB); [done|set_solver]. }
  destruct (install_ok st sz bs w c0 dk0 s1 v ∅ l1 full HL)
    as (b2 & v2 & l2 & E2 & HB2 & HV2 & Hn2 & Hst2 & HN2 & Hc2); auto.
  { split_and!; auto. }
  { cbn [lh_n s1 set_lh]. lia. }
  { set_solver. }
  { cbn [lb s1 set_lh set_lb]. by rewrite D1. }
  { intros i Hi. apply Hv. lia. }
  destruct HV2 as (new2 & T2 & F2 & P2). cbn [lb s1 set_lh set_lb] in T2.
  destruct (erase_ok st sz bs w c0 dk0 (set_lb b2 s1) v2 l2 HL Hdev Hs HF HB2 P2)
    as (b3 & v3 & l3 & E3 & HB3 & Hv3 & T3 & C3 & L3 & S3 & Sb3 & N3 & Hd3).
  { intros a Ha. rewrite Hn2 by done. unfold newc. destruct (find_idx _ _); [done|].
    apply Hv. unfold home in Ha. lia. }
  cbn [lb set_lb] in T3.
  pose proof (fun d => committed_holds st sz bs w c0 dk0 c d HL (proj2 W3) W5 (fun a _ => eq_refl)) as Hcm.
  exists b3, v3, l3, full. split_and!; auto.
  - unfold recover_from_log. mrun E1. fold s1. mrun E2. exact E3.
  - exists (disk b2 :: new2). rewrite T3, T2, T1. split_and!; [done| |].
    + apply Forall_cons. split; [by apply Hcm|].
      eapply Forall_impl; [exact F2|exact Hcm].
    + by apply erased_holds.
  - change (cur (lb (set_lb b2 s1))) with (cur b2) in C3. cbn [lb s1 set_lh set_lb] in Hc2.
    congruence.
Qed.

(** ** Transactions *)

(** The log between transactions or inside one: the blocks [bs] are logged
    and pinned, everything else is on disk, and the log on disk is empty. *)
Record txn (st sz : Z) (s : logst) (bs : list Z) (v : Z -> block) (H : gset Z)
  (l : list nat) : Prop := {
  tx_dev : log_dev s = 1;
  tx_start : log_start s = st;
  tx_size : log_size s = sz;
  tx_lh : length (lh_block s) = Z.to_nat LOGSIZE;
  tx_n : lh_n s = Z.of_nat (length bs);
  tx_take : take (length bs) (lh_block s) = bs;
  tx_log : loggable st sz (disk (lb s)) bs;
  tx_bio : bio (lb s) v (list_to_set bs) H l;
  tx_disk : wf_disk st sz (disk (lb s));
  tx_empty : hdr_n st (disk (lb s)) = 0
}.

Lemma txn_wf st sz s bs v H l :
  txn st sz s bs v H l -> loggable st sz (disk (lb s)) bs /\
  Z.of_nat (length (disk (lb s))) < 2 ^ 31 /\
  (let sb := sb_of_block (disk (lb s) !!! 1%nat) in
   sb_logstart sb = st /\ sb_nlog sb = sz).
Proof.
  intros HT. pose proof (tx_disk _ _ _ _ _ _ _ HT) as HW.
  split_and!; [apply HT| |apply HW..]. pose proof (wd_len _ _ _ HW). lia.
Qed.

Lemma loggable_low st sz dk bs a :
  loggable st sz dk bs -> a < st + sz -> a ∉ (list_to_set bs : gset Z).
Proof.
  intros HL Ha Hin%elem_of_list_to_set. pose proof (lg_home _ _ _ _ HL) as Hh.
  rewrite Forall_forall in Hh. specialize (Hh a Hin). unfold home in Hh. lia.
Qed.

Lemma loggable_head st sz dk bs :
  loggable st sz dk bs -> bs <> [] -> (size (list_to_set bs ∪ {[st]} : gset Z) <= HEAD)%nat.
Proof.
  intros HL Hne. pose proof (lg_n _ _ _ _ HL). pose proof (lg_size _ _ _ _ HL) as Hsz.
  destruct bs as [|b bs]; [done|].
  etrans; [|apply (logged_size (list_to_set (b :: bs)) (b :: bs) st b); [done|by left|apply HL|]].
  - apply subseteq_size. set_solver.
  - change HEAD with 30%nat. change LOGSIZE with 30 in Hsz. lia.
Qed.

(** The new contents of the blocks are those in the cache. *)
Lemma newc_cached st sz b bs v l a :
  bio b v (list_to_set bs) ∅ l -> 0 <= st + sz -> home st sz (disk b) a ->
  newc bs (fun i => v (bs !!! i)) (fun a => disk b !!! Z.to_nat a) a = v a.
Proof.
  intros HB Hst Ha. unfold newc. destruct (find_idx (Z.eqb a) bs) as [i|] eqn:Ei.
  - apply find_eqb_Some in Ei as [Hi _]. by rewrite (list_lookup_total_correct _ _ _ Hi).
  - apply find_eqb_None in Ei. symmetry. apply (bi_disk _ _ _ _ _ HB).
    + unfold home in Ha. unfold nblocks. lia.
    + rewrite elem_of_union, elem_of_list_to_set. set_solver.
Qed.

(** The disks of a commit: first those on which the transaction has not
    happened, then those on which it has. *)
Lemma commit_ok st sz s bs v l :
  txn st sz s bs v ∅ l -> bs <> [] ->
  let dk0 := disk (lb s) in
  exists b v' l' new1 new0,
    commit s = Ok (tt, set_lh 0 (lh_block s) (set_lb b s)) /\
    txn st sz (set_lh 0 (lh_block s) (set_lb b s)) [] v' ∅ l' /\
    (forall a, home st sz dk0 a -> v' a = v a) /\
    length (disk b) = length dk0 /\ cur b = cur (lb s) /\
    hist b = new1 ++ new0 ++ hist (lb s) /\
    Forall (holds st sz (length dk0) (fun a => dk0 !!! Z.to_nat a)) new0 /\
    Forall (holds st sz (length dk0) v) (disk b :: new1).
Proof.
  intros HT Hne dk0. pose proof (txn_wf _ _ _ _ _ _ _ HT) as (HL & Hlen & Hsb).
  pose proof HT as [T1 T2 T3 T4 T5 T6 _ HB HW T10]. fold dk0 in HL, Hlen, Hsb, HW, T10.
  pose proof (wd_len _ _ _ HW) as Hlen2. pose proof (lg_start _ _ _ _ HL) as Hst.
  pose proof (lg_n _ _ _ _ HL) as Hn. pose proof (lg_size _ _ _ _ HL) as Hsz.
  assert (Hnb : nblocks (lb s) = Z.of_nat (length dk0)) by done.
  assert (HP0 : pending st sz dk0 dk0) by (split; auto; apply HW).
  destruct (write_log_ok st sz bs dk0 s v (list_to_set bs) l (lh_block s) HL)
    as (b1 & v1 & l1 & E1 & HB1 & (newa & A1 & A2 & A3) & Hv1a & Hv1b & Hv1c & HN1 & Hc1); auto; [by split_and!|].
  set (s1 := set_lb b1 s) in *. pose proof (fun a => loggable_low _ _ _ _ a HL) as HstD.
  destruct (write_head_ok s1 v1 (list_to_set bs) l1) as (b2 & l2 & E2 & HB2 & D2 & H2 & C2);
    [cbn [s1 set_lb lb]; rewrite HN1, Hnb; lia|exact T1|exact HB1|..];
    cbn [log_start lh_block lh_n s1 set_lb lb]; rewrite ?T2;
    [rewrite HN1, Hnb; lia|apply HstD; lia|by eapply loggable_head|rewrite T4, T5; lia|].
  cbn [lh_block lh_n log_start lb s1 set_lb] in HB2, D2, H2, C2. rewrite T2, T5, Nat2Z.id, T6 in HB2, D2.
  set (w := fun i : nat => v (bs !!! i)). set (c := fun a : Z => dk0 !!! Z.to_nat a).
  set (h := head (v1 st) (Z.of_nat (length bs)) bs) in *.
  assert (HC2 : committed st sz bs w c dk0 (disk b2)).
  { rewrite D2. apply pending_head; auto.
    - apply (bi_size _ _ _ _ _ HB1). rewrite HN1, Hnb. lia.
    - intros i Hi. rewrite <- (bi_disk _ _ _ _ _ HB1); [by apply Hv1a|rewrite HN1, Hnb; lia|].
      rewrite elem_of_union. intros [Hin|Hin]; [|set_solver]. revert Hin. apply HstD. lia. }
  set (s2 := set_lb b2 s1) in *.
  destruct (install_ok st sz bs w c dk0 s2 (fupd v1 st h) (list_to_set bs) l2 (lh_block s) HL)
    as (b3 & v3 & l3 & E3 & HB3 & (newc3 & B1 & B2 & B3) & Hv3 & Hv3s & HN3 & Hc3); auto; [by split_and!| |].
  { intros i Hi. unfold fupd. rewrite decide_False by lia. by rewrite Hv1a. }
  cbn [lb s2 set_lb] in B1.
  assert (Hnewv : forall a, home st sz dk0 a -> newc bs w c a = v a) by (intros a Ha; by apply (newc_cached st sz _ _ _ l); [|lia|]).
  destruct (erase_ok st sz bs w c dk0 (set_lb b3 s2) v3 l3 HL T1 T2 T4 HB3 B3)
    as (b4 & v4 & l4 & E4 & HB4 & Hv4 & A4 & C4 & L4 & S4 & Sb4 & N4 & Hd4).
  { intros a Ha. rewrite Hv3, Hnewv by done. unfold newc, w.
    destruct (find_idx (Z.eqb a) bs) as [i|] eqn:Ei.
    - apply find_eqb_Some in Ei as [Hi _]. by rewrite (list_lookup_total_correct _ _ _ Hi).
    - unfold fupd. unfold home in Ha. rewrite decide_False by lia. by apply Hv1b. }
  cbn [lb set_lb] in A4.
  pose proof (fun d => committed_holds st sz bs w c dk0 v d HL Hlen Hsb Hnewv) as Hcm.
  pose proof (fun d => pending_holds st sz dk0 d HW T10) as Hpe.
  assert (H4 : holds st sz (length dk0) v (disk b4)).
  { apply erased_holds; auto. intros a Ha. by rewrite Hd4, Hnewv. }
  exists b4, v4, l4, (disk b3 :: newc3), (disk b1 :: newa). split_and!; auto.
  - unfold commit. mrun. rewrite T5.
    destruct (Z.ltb_spec 0 (Z.of_nat (length bs))) as [_|Hle]; [|destruct bs; [done|simpl in Hle; lia]].
    mrun E1. fold s1. mrun E2. fold s2. mrun E3. exact E4.
  - split; auto; [|apply H4]. apply loggable_nil; auto; cbn [lb set_lh set_lb]; lia.
  - intros a Ha. rewrite Hv4 by done. by apply Hnewv.
  - cbn [lb set_lb s2 s1] in *. congruence.
  - by rewrite A4, B1, H2, A1.
  - apply Forall_cons. split; [by apply Hpe|]. eapply Forall_impl; [exact A2|exact Hpe].
  - apply Forall_cons. split; [done|]. apply Forall_cons. split; [by apply Hcm|].
    eapply Forall_impl; [exact B2|exact Hcm].
Qed.
