(* ===== verification/LogCrash.v ===== *)
(** * Crashes, recovery and transactions of the log

    A crash keeps only the disk.  [reboot] is what the kernel does with a disk
    it finds: [binit] and [initlog], which recovers the log. *)

From S2P Require Import Prelude Param Bytes Sleeplock Bio BioInv Log LogInv.

(** The static, zero-initialised [struct log]. *)
Definition log0 (b : bstate) : logst :=
  {| lb := b; log_start := 0; log_size := 0; outstanding := 0; committing := false;
     log_dev := 0; lh_n := 0; lh_block := replicate (Z.to_nat LOGSIZE) 0 |}.

(** The boot of a kernel that finds the disk [dk]; the first process, which
    runs [initlog], has pid [pid]. *)
Definition reboot (dk : list block) (pid : Z) : result (unit * logst) :=
  (do! io binit in initlog ROOTDEV) (log0 (boot dk pid)).

Lemma readsb_ok s v l :
  bio s v ∅ ∅ l -> 1 < nblocks s ->
  exists s' l', readsb 1 s = Ok (sb_of_block (v 1), s') /\ bio s' v ∅ ∅ l' /\
    same_disk s s'.
Proof.
  intros HB Hn.
  destruct (bread_ok _ _ _ _ _ 1 HB) as (i & s1 & E1 & HB1 & Hi & [D1 T1 C1] & _);
    [lia|set_solver|by rewrite !(left_id_L ∅ (∪)), size_singleton; vm_compute; lia|].
  rewrite (left_id_L ∅ (∪) {[1]}) in HB1.
  destruct (brelse_ok _ _ _ _ _ i 1 HB1 Hi ltac:(set_solver))
    as (s5 & E5 & HB5 & [D5 T5 C5] & _).
  { right. rewrite D1. apply (bi_disk _ _ _ _ _ HB); [lia|set_solver]. }
  exists s5. eexists. split_and!.
  - unfold readsb. mrun E1. mrun. rewrite (bi_data _ _ _ _ _ HB1 i 1 Hi). mrun E5. done.
  - replace ({[1]} ∖ {[1]}) with (∅ : gset Z) in HB5 by set_solver. exact HB5.
  - split; congruence.
Qed.

Lemma initlog_ok st sz dk b0 l0 :
  wf_disk st sz dk -> bio b0 (fun n => dk !!! Z.to_nat n) ∅ ∅ l0 -> disk b0 = dk ->
  exists s v l new, initlog ROOTDEV (log0 b0) = Ok (tt, s) /\ txn st sz s [] v ∅ l /\
    hist (lb s) = new ++ hist b0 /\
    Forall (holds st sz (length dk) (logical st dk)) (disk (lb s) :: new) /\
    (forall a, home st sz dk a ->
       disk (lb s) !!! Z.to_nat a = logical st dk a /\ v a = logical st dk a) /\
    length (disk (lb s)) = length dk /\ outstanding s = 0 /\ committing s = false.
Proof.
  intros HW HB0 D0. pose proof HW as [W1 W2 W3 W4 W5 _ _ _].
  assert (HN0 : nblocks b0 = Z.of_nat (length dk)) by (unfold nblocks; by rewrite D0).
  destruct (readsb_ok _ _ _ HB0) as (b1 & l1 & E1 & HB1 & [D1 T1 C1]); [lia|].
  set (s1 := set_geom st sz 1 (set_lb b1 (log0 b0))).
  assert (Dd : disk (lb s1) = dk) by (unfold s1; simpl; congruence).
  destruct (recover_ok st sz s1 (fun n => dk !!! Z.to_nat n) l1)
    as (b2 & v2 & l2 & full & E2 & HF & HB2 & HV & HN2 & Hd & HL2 & HC2); auto.
  { by rewrite Dd. }
  rewrite Dd in *. destruct HV as (new & Th & Fn & P2).
  assert (Th0 : hist (lb s1) = hist b0) by (unfold s1; simpl; congruence). rewrite Th0 in Th.
  exists (set_lh 0 full (set_lb b2 s1)), v2, l2, new. split_and!; auto.
  - unfold initlog. change (BSIZE <=? sizeof_logheader) with false. cbv match.
    mrun (io_Ok (readsb ROOTDEV) (log0 b0) _ _ E1). mrun.
    change (dk !!! Z.to_nat 1) with (dk !!! 1%nat). destruct W5 as [-> ->].
    change LOGSIZE with 30 in W2. rewrite !s32_small by lia. exact E2.
  - destruct P2 as [P2 _]. split; auto.
    apply loggable_nil; auto. cbn [lb set_lh set_lb]. lia.
Qed.

Lemma reboot_ok st sz dk pid :
  wf_disk st sz dk ->
  exists s v l, reboot dk pid = Ok (tt, s) /\ txn st sz s [] v ∅ l /\
    Forall (holds st sz (length dk) (logical st dk)) (disk (lb s) :: hist (lb s)) /\
    (forall a, home st sz dk a ->
       disk (lb s) !!! Z.to_nat a = logical st dk a /\ v a = logical st dk a) /\
    length (disk (lb s)) = length dk /\ outstanding s = 0 /\ committing s = false.
Proof.
  intros HW. destruct (binit_ok dk pid) as (b0 & E0 & HB0 & D0 & T0 & C0).
  { intros b Hb. pose proof (wd_blocks _ _ _ HW) as W4. rewrite Forall_forall in W4. by apply W4. }
  destruct (initlog_ok st sz dk b0 _ HW HB0 D0) as (s & v & l & new & E & HT & Hh & HF & Hrest).
  rewrite T0, app_nil_r in Hh. subst new. exists s, v, l. split_and!; auto; [|apply Hrest..].
  unfold reboot. mrun (io_Ok binit (log0 (boot dk pid)) _ _ E0). exact E.
Qed.

(** What can be on the disk when the system is up again after a crash that
    left [dk]: the reboot itself may crash at any of its block writes, any
    number of times. *)
Inductive recovered : list block -> list block -> Prop :=
| rec_done dk pid s : reboot dk pid = Ok (tt, s) -> recovered dk (disk (lb s))
| rec_crash dk pid s dk1 dk2 :
    reboot dk pid = Ok (tt, s) -> dk1 ∈ hist (lb s) ->
    recovered dk1 dk2 -> recovered dk dk2.

Lemma recovered_ok st sz c dk dk' :
  recovered dk dk' -> holds st sz (length dk) c dk ->
  forall a, home st sz dk a -> dk' !!! Z.to_nat a = c a.
Proof.
  intros HR. revert c. induction HR as [dk pid s E|dk pid s dk1 dk2 E Hin HR IH];
    intros c (HW & _ & Hc) a Ha;
    destruct (reboot_ok st sz dk pid HW) as (s' & v & l & E' & HT & HF & Hd & HL & _);
    rewrite E in E'; injection E' as <-.
  - rewrite (proj1 (Hd a Ha)). by apply Hc.
  - apply Forall_cons in HF as [_ HF]. rewrite Forall_forall in HF.
    pose proof (HF _ Hin) as Hh. rewrite <- (Hc a Ha).
    pose proof Hh as (_ & HL1 & _). rewrite <- HL1 in Hh. apply (IH _ Hh).
    unfold home. by rewrite HL1.
Qed.

Lemma recovered_total st sz dk : wf_disk st sz dk -> exists dk', recovered dk dk'.
Proof.
  intros HW. destruct (reboot_ok st sz dk 1 HW) as (s & v & l & E & _).
  exists (disk (lb s)). by eapply rec_done.
Qed.

(** (C1) [commit] is atomic with respect to crashes. Whatever block write of
    [commit] the system crashes at, and however often the following reboots
    crash during recovery, once the system is up the blocks outside the log
    all have their contents from before the transaction or all have the
    contents the transaction gave them; recovery always succeeds, and after
    [commit] has returned the outcome is always the new contents. *)
Theorem commit_crash_atomic st sz s bs v l :
  txn st sz s bs v ∅ l -> bs <> [] ->
  let old := fun a => disk (lb s) !!! Z.to_nat a in
  exists s' new, commit s = Ok (tt, s') /\ hist (lb s') = new ++ hist (lb s) /\
    (forall dk, dk ∈ disk (lb s') :: new ->
       (exists dk', recovered dk dk') /\
       forall dk', recovered dk dk' ->
         (forall a, home st sz (disk (lb s)) a -> dk' !!! Z.to_nat a = old a) \/
         (forall a, home st sz (disk (lb s)) a -> dk' !!! Z.to_nat a = v a)) /\
    (forall dk', recovered (disk (lb s')) dk' ->
       forall a, home st sz (disk (lb s)) a -> dk' !!! Z.to_nat a = v a).
Proof.
  intros HT Hne old.
  destruct (commit_ok _ _ _ _ _ _ HT Hne)
    as (b & v' & l' & new1 & new0 & E & _ & _ & HL & _ & Hh & F0 & F1).
  exists (set_lh 0 (lh_block s) (set_lb b s)), (new1 ++ new0).
  assert (HR : forall c dk dk', holds st sz (length (disk (lb s))) c dk ->
    recovered dk dk' ->
    forall a, home st sz (disk (lb s)) a -> dk' !!! Z.to_nat a = c a).
  { intros c dk dk' Hd HR a Ha. pose proof Hd as (_ & Hl & _).
    rewrite <- Hl in Hd. apply (recovered_ok _ _ _ _ _ HR Hd). unfold home.
    by rewrite Hl. }
  pose proof F1 as F1'. apply Forall_cons in F1' as [Fb _].
  rewrite Forall_forall in F0, F1. split_and!; auto.
  - cbn [lb set_lh set_lb]. by rewrite Hh, app_assoc.
  - intros dk Hin.
    assert (Hcase : dk ∈ disk b :: new1 \/ dk ∈ new0).
    { cbn [lb set_lh set_lb] in Hin. rewrite elem_of_cons, elem_of_app in *. tauto. }
    destruct Hcase as [Hd%F1|Hd%F0]; (split; [eapply recovered_total; apply Hd|]);
      intros dk' Hr; [right|left]; by apply (HR _ dk dk').
  - intros dk' Hr. by apply (HR v (disk b)).
Qed.

(** ** Operations inside a transaction *)

(** The logged blocks after a write to [n]: absorbed if already there. *)
Definition absorb (bs : list Z) (n : Z) : list Z :=
  if decide (n ∈ bs) then bs else bs ++ [n].

Lemma absorb_lh bs n (full : list Z) :
  take (length bs) full = bs -> (length bs < length full)%nat ->
  let i := match find_idx (Z.eqb n) (take (length bs) full) with
           | Some i => i | None => length bs end in
  (if decide (i = length bs) then Z.of_nat (length bs) + 1
   else Z.of_nat (length bs)) = Z.of_nat (length (absorb bs n)) /\
  take (length (absorb bs n)) (<[i := n]> full) = absorb bs n.
Proof.
  intros Ht Hl. rewrite Ht. unfold absorb. cbv zeta.
  destruct (find_idx (Z.eqb n) bs) as [i|] eqn:E.
  - apply find_eqb_Some in E as [Hi Hil].
    rewrite (decide_True (P := n ∈ bs)) by (by eapply list_elem_of_lookup_2).
    rewrite decide_False by lia. split; [done|].
    rewrite list_insert_id; [done|]. rewrite <- Ht, lookup_take_lt in Hi by lia. done.
  - apply find_eqb_None in E. rewrite (decide_False (P := n ∈ bs)) by done.
    rewrite decide_True by done. rewrite length_app. simpl. split; [lia|].
    rewrite Nat.add_1_r, (take_S_r _ _ n).
    + by rewrite take_insert_ge, Ht by lia.
    + apply list_lookup_insert_eq. lia.
Qed.

Lemma log_write_ok st sz s bs v H l i n :
  txn st sz s bs v H l -> isbuf (lb s) i n -> n ∈ H ->
  home st sz (disk (lb s)) n -> 1 <= outstanding s -> Z.of_nat (length bs) < sz - 1 ->
  exists s', log_write i s = Ok (tt, s') /\ txn st sz s' (absorb bs n) v H l /\
    same_disk (lb s) (lb s') /\ outstanding s' = outstanding s /\
    committing s' = committing s /\
    (forall j m, isbuf (lb s) j m -> isbuf (lb s') j m).
Proof.
  intros HT Hi HnH Hn Ho Hlen. pose proof HT as [T1 T2 T3 T4 T5 T6 HL HB HW T10].
  pose proof (lg_size _ _ _ _ HL) as Hsz. change LOGSIZE with 30 in *.
  change (Z.to_nat 30) with 30%nat in T4.
  pose proof (absorb_lh bs n (lh_block s) T6 ltac:(lia)) as [A1 A2].
  set (ix := match find_idx (Z.eqb n) (take (length bs) (lh_block s)) with
             | Some i => i | None => length bs end) in *.
  assert (Hmem : forall a, a ∈ absorb bs n <-> a ∈ bs \/ a = n).
  { intros a. unfold absorb. destruct (decide (n ∈ bs)); [naive_solver|].
    by rewrite elem_of_app, list_elem_of_singleton. }
  eexists. split_and!.
  - unfold log_write. mrun. change LOGSIZE with 30. rewrite T3, T5.
    destruct (Z.leb_spec 30 (Z.of_nat (length bs))); [lia|].
    destruct (Z.leb_spec (sz - 1) (Z.of_nat (length bs))); [lia|]. cbn [orb].
    destruct (Z.ltb_spec (outstanding s) 1); [lia|].
    rewrite (proj2 (proj2 Hi)), Nat2Z.id. fold ix. rewrite A1. mrun.
    rewrite (io_Ok _ _ tt (upd_st i (fun x => set_flags (Z.lor (flags x) B_DIRTY) x) (lb s)));
      done.
  - split; auto.
    + cbn [lh_block set_lb set_lh]. by rewrite length_insert.
    + cbn [lb set_lb set_lh]. change (disk (upd_st _ _ (lb s))) with (disk (lb s)).
      destruct HL as [L1 L2 L3 L4 L7 L5 L6].
      assert (Hlab : (length (absorb bs n) <= length bs + 1)%nat).
      { unfold absorb. destruct (decide (n ∈ bs)); [lia|]. rewrite length_app. simpl. lia. }
      split; auto; try lia.
      * rewrite Forall_forall in *. intros a [Ha|Ha]%Hmem; [by apply L5|by subst].
      * unfold absorb. destruct (decide (n ∈ bs)); [done|].
        apply NoDup_app. split_and!; [done| |apply NoDup_singleton].
        intros a Ha Ha'. apply list_elem_of_singleton in Ha'. by subst.
    + replace (list_to_set (absorb bs n) : gset Z) with (list_to_set bs ∪ {[n]} : gset Z).
      * by apply bio_pin.
      * apply set_eq. intros a.
        rewrite elem_of_union, elem_of_singleton, !elem_of_list_to_set. by rewrite Hmem.
  - done.
  - done.
  - done.
  - intros j m Hj. cbn [lb set_lb set_lh]. unfold isbuf in *. rewrite bat_upd.
    + by destruct (decide (i = j)) as [<-|].
    + destruct Hi as (Hlt & _). rewrite (bi_len _ _ _ _ _ HB). lia.
Qed.

(** [begin_op] admits an operation only if the log has [MAXOPBLOCKS] blocks
    for it and for every operation in progress. *)
Lemma begin_op_ok s :
  (begin_op s = Blocked /\
     (committing s = true \/ LOGSIZE < lh_n s + (outstanding s + 1) * MAXOPBLOCKS)) \/
  (begin_op s = Ok (tt, set_ops (outstanding s + 1) (committing s) s) /\
   committing s = false /\ lh_n s + (outstanding s + 1) * MAXOPBLOCKS <= LOGSIZE).
Proof.
  unfold begin_op. mrun. destruct (committing s); [by left; auto|].
  destruct (Z.ltb_spec LOGSIZE (lh_n s + (outstanding s + 1) * MAXOPBLOCKS)).
  - left. split; [done|]. by right.
  - right. split_and!; [done|done|lia].
Qed.

Lemma txn_ops st sz s bs v H l o c :
  txn st sz s bs v H l -> txn st sz (set_ops o c s) bs v H l.
Proof. intros []. by split. Qed.

Lemma end_op_last st sz s bs v l :
  txn st sz s bs v ∅ l -> committing s = false -> outstanding s = 1 ->
  exists s' v' l', end_op s = Ok (tt, s') /\ txn st sz s' [] v' ∅ l' /\
    outstanding s' = 0 /\ committing s' = false /\
    length (disk (lb s')) = length (disk (lb s)) /\
    (forall a, home st sz (disk (lb s)) a ->
       v' a = v a /\ disk (lb s') !!! Z.to_nat a = v a).
Proof.
  intros HT Hc Ho. pose proof (txn_ops _ _ _ _ _ _ _ 0 true HT) as HT1.
  set (s1 := set_ops 0 true s) in *.
  assert (Hrun : forall r, commit s1 = Ok (tt, r) ->
    end_op s = Ok (tt, set_ops (outstanding r) false r)).
  { intros r E. unfold end_op. mrun. cbn [committing outstanding set_ops].
    rewrite Hc, Ho. change (1 - 1 =? 0) with true. cbv match. mrun.
    match goal with |- bind commit _ ?x = _ => change x with s1 end. mrun E. done. }
  assert (Hhome : forall r w k a, txn st sz r [] w ∅ k ->
    length (disk (lb r)) = length (disk (lb s)) -> home st sz (disk (lb s)) a ->
    disk (lb r) !!! Z.to_nat a = w a).
  { intros r w k a HR Hl Ha. symmetry.
    pose proof (lg_start _ _ _ _ (tx_log _ _ _ _ _ _ _ HT)) as Hst.
    pose proof (lg_n _ _ _ _ (tx_log _ _ _ _ _ _ _ HT)) as Hsz.
    apply (bi_disk _ _ _ _ _ (tx_bio _ _ _ _ _ _ _ HR)); [|set_solver].
    unfold nblocks, home in *. rewrite Hl. lia. }
  destruct (decide (bs = [])) as [->|Hne].
  - assert (E : commit s1 = Ok (tt, s1)).
    { unfold commit. mrun. by rewrite (tx_n _ _ _ _ _ _ _ HT1). }
    exists (set_ops 0 false s1), v, l. split_and!; auto.
    + exact (Hrun _ E).
    + by apply txn_ops.
    + intros a Ha. split; [done|]. by apply (Hhome s v l).
  - destruct (commit_ok _ _ _ _ _ _ HT1 Hne)
      as (b & v' & l' & new1 & new0 & E & HT' & Hv & HL & _).
    eexists _, v', l'. split_and!; [exact (Hrun _ E)|by apply txn_ops|done|done|exact HL|].
    intros a Ha. split; [by apply Hv|]. rewrite <- Hv by done.
    by apply (Hhome (set_lh 0 (lh_block s1) (set_lb b s1)) v' l').
Qed.

(** Outside a transaction every crash keeps the blocks. *)
Lemma txn_survives st sz s v l dk' a :
  txn st sz s [] v ∅ l -> recovered (disk (lb s)) dk' -> home st sz (disk (lb s)) a ->
  dk' !!! Z.to_nat a = disk (lb s) !!! Z.to_nat a.
Proof.
  intros HT HR Ha. apply (recovered_ok st sz (fun a => disk (lb s) !!! Z.to_nat a) _ _ HR); [|done].
  split_and!; [apply HT|done|]. intros b _. apply logical_none, HT.
Qed.

(** (C4) The [end_op] that ends the last operation of a transaction makes it
    durable: it returns with the log empty and no operation outstanding, the
    contents of every block outside the log are unchanged and all of them are
    on the disk.  A crash afterwards does not lose them: however often the
    reboots crash in turn, the system comes up again, and then every block has
    the contents it had in the transaction. *)
Theorem end_op_durable st sz s bs v l :
  txn st sz s bs v ∅ l -> committing s = false -> outstanding s = 1 ->
  exists s' v' l', end_op s = Ok (tt, s') /\ txn st sz s' [] v' ∅ l' /\
    outstanding s' = 0 /\ committing s' = false /\
    length (disk (lb s')) = length (disk (lb s)) /\
    (forall a, home st sz (disk (lb s)) a ->
       v' a = v a /\ disk (lb s') !!! Z.to_nat a = v a) /\
    (exists dk', recovered (disk (lb s')) dk') /\
    (forall dk' a, recovered (disk (lb s')) dk' -> home st sz (disk (lb s)) a ->
       dk' !!! Z.to_nat a = v a).
Proof.
  intros HT Hc Ho. destruct (end_op_last _ _ _ _ _ _ HT Hc Ho) as (s' & v' & l' & E & HT' & Ho' & Hc' & HL & Hv).
  exists s', v', l'. split_and!; auto.
  - eapply recovered_total, HT'.
  - intros dk' a HR Ha. rewrite <- (proj2 (Hv a Ha)). apply (txn_survives st sz s' v' l'); [done|done|].
    unfold home in *. by rewrite HL.
Qed.
