(* ===== verification/Blocks.v ===== *)
(** * The interface between the log and the file system

    fs.c works on blocks through five operations: [bread], reading and
    changing the data of the buffer it returns, [log_write] and [brelse].
    [BlockOps] names them, and [BlockSpec] is what the log and the buffer
    cache promise about them in terms of a view of the disk: its current
    contents, the blocks held and changed by the process, and the blocks
    logged by the transaction. *)

From S2P Require Import Prelude Param Bytes.

Abbreviation blk := (list Z).

Class BlockOps (S : Type) := {
  bread : Z -> Z -> M S nat;
  bdata : nat -> S -> blk;
  bset : nat -> blk -> M S unit;
  log_write : nat -> M S unit;
  brelse : nat -> M S unit
}.

Record dview := {
  dv : Z -> blk;         (* contents of every block *)
  dv_held : gset Z;      (* blocks held by the process *)
  dv_mod : gset Z;       (* blocks changed since they were read or logged *)
  dv_log : list Z;       (* blocks logged by the transaction *)
  dv_open : bool;        (* inside a transaction *)
  dv_lo : Z;             (* first block the log protects *)
  dv_n : Z;              (* number of blocks *)
  dv_cap : Z             (* number of blocks a transaction can log *)
}.

Definition set_held (h : gset Z) (V : dview) : dview :=
  {| dv := dv V; dv_held := h; dv_mod := dv_mod V; dv_log := dv_log V;
     dv_open := dv_open V; dv_lo := dv_lo V; dv_n := dv_n V; dv_cap := dv_cap V |}.
Definition set_blk (n : Z) (d : blk) (V : dview) : dview :=
  {| dv := fun m => if decide (m = n) then d else dv V m; dv_held := dv_held V;
     dv_mod := dv_mod V ∪ {[n]}; dv_log := dv_log V;
     dv_open := dv_open V; dv_lo := dv_lo V; dv_n := dv_n V; dv_cap := dv_cap V |}.
Definition set_log (n : Z) (V : dview) : dview :=
  {| dv := dv V; dv_held := dv_held V; dv_mod := dv_mod V ∖ {[n]};
     dv_log := if decide (n ∈ dv_log V) then dv_log V else dv_log V ++ [n];
     dv_open := dv_open V; dv_lo := dv_lo V; dv_n := dv_n V; dv_cap := dv_cap V |}.

(** [n] can be read: buffers are left for it besides the pinned and held. *)
Definition readable (V : dview) (n : Z) : Prop :=
  0 <= n < dv_n V /\ (n ∉ dv_held V) /\
  (size (list_to_set (dv_log V) ∪ dv_held V ∪ {[n]} : gset Z) <= Z.to_nat NBUF)%nat.

(** [n] can be logged. *)
Definition loggable1 (V : dview) (n : Z) : Prop :=
  dv_lo V <= n < dv_n V /\ dv_open V = true /\
  Z.of_nat (length (dv_log V)) < dv_cap V.

Class BlockSpec (S : Type) `{BlockOps S} := {
  bk_rep : S -> dview -> Prop;
  bk_ref : S -> nat -> Z -> Prop;      (* the buffer holds the block *)
  bk_size : forall s V n, bk_rep s V -> 0 <= n < dv_n V ->
    length (dv V n) = Z.to_nat BSIZE;
  bread_spec : forall s V n, bk_rep s V -> readable V n ->
    exists i s', bread ROOTDEV n s = Ok (i, s') /\
      bk_rep s' (set_held (dv_held V ∪ {[n]}) V) /\ bk_ref s' i n /\
      forall j m, m ∈ dv_held V -> bk_ref s j m -> bk_ref s' j m;
  bdata_spec : forall s V i n, bk_rep s V -> bk_ref s i n -> n ∈ dv_held V ->
    bdata i s = dv V n;
  bset_spec : forall s V i n d, bk_rep s V -> bk_ref s i n -> n ∈ dv_held V ->
    length d = Z.to_nat BSIZE ->
    exists s', bset i d s = Ok (tt, s') /\ bk_rep s' (set_blk n d V) /\
      forall j m, bk_ref s j m -> bk_ref s' j m;
  log_write_spec : forall s V i n, bk_rep s V -> bk_ref s i n -> n ∈ dv_held V ->
    loggable1 V n ->
    exists s', log_write i s = Ok (tt, s') /\ bk_rep s' (set_log n V) /\
      forall j m, bk_ref s j m -> bk_ref s' j m;
  brelse_spec : forall s V i n, bk_rep s V -> bk_ref s i n -> n ∈ dv_held V ->
    n ∉ dv_mod V ->
    exists s', brelse i s = Ok (tt, s') /\
      bk_rep s' (set_held (dv_held V ∖ {[n]}) V) /\
      forall j m, bk_ref s j m -> bk_ref s' j m
}.

(** ** Reading and changing a block *)

(** A block changed and logged. *)
Definition put_blk (n : Z) (d : blk) (V : dview) : dview :=
  {| dv := fun m => if decide (m = n) then d else dv V m; dv_held := dv_held V;
     dv_mod := dv_mod V;
     dv_log := if decide (n ∈ dv_log V) then dv_log V else dv_log V ++ [n];
     dv_open := dv_open V; dv_lo := dv_lo V; dv_n := dv_n V; dv_cap := dv_cap V |}.

(** Buffers and log space for [k] more blocks. *)
Record room (V : dview) (k : Z) : Prop := {
  rm_open : dv_open V = true;
  rm_log : Z.of_nat (length (dv_log V)) + k <= dv_cap V;
  rm_buf : Z.of_nat (length (dv_log V)) + k + Z.of_nat (size (dv_held V)) < NBUF;
  rm_mod : dv_mod V = ∅
}.

(** Buffers to read one block. *)
Definition rroom (V : dview) : Prop :=
  Z.of_nat (length (dv_log V)) + Z.of_nat (size (dv_held V)) < NBUF /\ dv_mod V = ∅.

Lemma room_rroom V k : room V k -> 0 <= k -> rroom V.
Proof. intros [] Hk. split; [lia|done]. Qed.

Lemma room_le V k k' : room V k -> k' <= k -> room V k'.
Proof. intros [] Hk. split; auto; lia. Qed.

Lemma put_log_le n d V :
  (length (dv_log V) <= length (dv_log (put_blk n d V)) <= length (dv_log V) + 1)%nat.
Proof. simpl. destruct (decide _); [lia|]. rewrite length_app. simpl. lia. Qed.

Lemma room_put n d V k : room V (k + 1) -> room (put_blk n d V) k.
Proof.
  intros [R1 R2 R3 R4]. pose proof (put_log_le n d V). split; auto.
  - cbn [dv_cap put_blk]. lia.
  - change (dv_held (put_blk n d V)) with (dv_held V). lia.
Qed.

Lemma readable_room V n :
  rroom V -> 0 <= n < dv_n V -> n ∉ dv_held V -> readable V n.
Proof.
  intros [Hr _] Hn Hh. split_and!; auto; try lia.
  assert (H1 : (size (list_to_set (dv_log V) : gset Z) <= length (dv_log V))%nat).
  { generalize (dv_log V) as l. induction l as [|a l IH]; [done|].
    cbn [list_to_set length]. rewrite size_union_alt, size_singleton.
    etrans; [apply Nat.add_le_mono_l, subseteq_size, subseteq_difference_l; reflexivity|].
    lia. }
  assert (H2 : (size (list_to_set (dv_log V) ∪ dv_held V ∪ {[n]} : gset Z) <=
    size (list_to_set (dv_log V) : gset Z) + size (dv_held V) + 1)%nat).
  { rewrite !size_union_alt.
    assert (A1 : (size (dv_held V ∖ list_to_set (dv_log V)) <= size (dv_held V))%nat)
      by (apply subseteq_size; set_solver).
    assert (A2 : (size ({[n]} ∖ (list_to_set (dv_log V) ∪ dv_held V)) <= 1)%nat).
    { etrans; [apply subseteq_size, subseteq_difference_l; reflexivity|].
      by rewrite size_singleton. }
    lia. }
  lia.
Qed.

Lemma set_held_back n V :
  n ∉ dv_held V ->
  set_held ((dv_held V ∪ {[n]}) ∖ {[n]}) (set_held (dv_held V ∪ {[n]}) V) = V.
Proof.
  intros Hn. destruct V. unfold set_held. simpl in *. f_equal. set_solver.
Qed.

Section Change.
Context {S : Type} `{BS : BlockSpec S}.

(** The buffers of the blocks held stay theirs. *)
Definition keeps (V : dview) (b b' : S) : Prop :=
  forall j m, m ∈ dv_held V -> bk_ref b j m -> bk_ref b' j m.

(** Reading a block: [bread], its data, [brelse]. *)
Lemma read_block_keeps b V n :
  bk_rep b V -> rroom V -> 0 <= n < dv_n V -> n ∉ dv_held V ->
  exists i b1 b2, bread ROOTDEV n b = Ok (i, b1) /\ bdata i b1 = dv V n /\
    brelse i b1 = Ok (tt, b2) /\ bk_rep b2 V /\ keeps V b b2.
Proof.
  intros HR Hr Hn Hh.
  destruct (bread_spec b V n HR (readable_room V n Hr Hn Hh))
    as (i & b1 & E1 & HR1 & Hi & Hk1).
  assert (Hin : n ∈ dv_held (set_held (dv_held V ∪ {[n]}) V)) by (simpl; set_solver).
  destruct (brelse_spec b1 _ i n HR1 Hi Hin) as (b2 & E2 & HR2 & Hk2).
  { destruct Hr as [_ Hm]. simpl. rewrite Hm. set_solver. }
  exists i, b1, b2. split_and!; auto.
  - by rewrite (bdata_spec b1 _ i n HR1 Hi Hin).
  - cbn [dv_held set_held] in HR2. by rewrite set_held_back in HR2.
  - intros j m Hm Hj. by apply Hk2, Hk1.
Qed.

Lemma read_block b V n :
  bk_rep b V -> rroom V -> 0 <= n < dv_n V -> n ∉ dv_held V ->
  exists i b1 b2, bread ROOTDEV n b = Ok (i, b1) /\ bdata i b1 = dv V n /\
    brelse i b1 = Ok (tt, b2) /\ bk_rep b2 V.
Proof.
  intros HR Hr Hn Hh. destruct (read_block_keeps b V n HR Hr Hn Hh) as (i & b1 & b2 & E1 & E2 & E3 & HR' & _).
  by exists i, b1, b2.
Qed.

(** Changing a block that is held: new data, [log_write], [brelse]. *)
Lemma change_held b V i n d :
  bk_rep b (set_held (dv_held V ∪ {[n]}) V) -> bk_ref b i n -> room V 1 ->
  dv_lo V <= n < dv_n V -> n ∉ dv_held V -> length d = Z.to_nat BSIZE ->
  exists b2 b3 b4, bset i d b = Ok (tt, b2) /\ log_write i b2 = Ok (tt, b3) /\
    brelse i b3 = Ok (tt, b4) /\ bk_rep b4 (put_blk n d V) /\ keeps V b b4.
Proof.
  intros HR Hi Hr Hn Hh Hd. set (V1 := set_held (dv_held V ∪ {[n]}) V) in *.
  assert (Hin : n ∈ dv_held V1) by (simpl; set_solver).
  destruct (bset_spec b V1 i n d HR Hi Hin Hd) as (b2 & E2 & HR2 & Hs2).
  destruct (log_write_spec b2 _ i n HR2 (Hs2 _ _ Hi) Hin) as (b3 & E3 & HR3 & Hs3).
  { destruct Hr. split_and!; simpl; auto; lia. }
  destruct (brelse_spec b3 _ i n HR3 (Hs3 _ _ (Hs2 _ _ Hi)) Hin) as (b4 & E4 & HR4 & Hs4).
  { simpl. set_solver. }
  exists b2, b3, b4. split_and!; auto.
  - replace (put_blk n d V) with
      (set_held (dv_held (set_log n (set_blk n d V1)) ∖ {[n]})
         (set_log n (set_blk n d V1))); [done|].
    destruct Hr as [_ _ _ Hm]. destruct V. simpl in *. subst.
    unfold put_blk, set_held, set_log, set_blk. simpl. f_equal; set_solver.
  - intros j m Hm Hj. by apply Hs4, Hs3, Hs2.
Qed.

(** Changing a block: [bread], new data, [log_write], [brelse]. *)
Lemma change_block_keeps b V n (f : blk -> blk) :
  bk_rep b V -> room V 1 -> dv_lo V <= n < dv_n V -> 0 <= dv_lo V ->
  n ∉ dv_held V -> length (f (dv V n)) = Z.to_nat BSIZE ->
  exists i b1 b2 b3 b4, bread ROOTDEV n b = Ok (i, b1) /\ bdata i b1 = dv V n /\
    bset i (f (dv V n)) b1 = Ok (tt, b2) /\ log_write i b2 = Ok (tt, b3) /\
    brelse i b3 = Ok (tt, b4) /\ bk_rep b4 (put_blk n (f (dv V n)) V) /\ keeps V b b4.
Proof.
  intros HR Hr Hn Hlo Hh Hf.
  pose proof (room_rroom V 1 Hr ltac:(lia)) as Hrr.
  destruct (bread_spec b V n HR (readable_room V n Hrr ltac:(lia) Hh))
    as (i & b1 & E1 & HR1 & Hi & Hs1).
  destruct (change_held b1 V i n (f (dv V n)) HR1 Hi Hr Hn Hh Hf)
    as (b2 & b3 & b4 & E2 & E3 & E4 & HR4 & Hs4).
  exists i, b1, b2, b3, b4. split_and!; auto.
  - apply (bdata_spec b1 _ i n HR1 Hi). simpl. set_solver.
  - intros j m Hm Hj. by apply Hs4, Hs1.
Qed.

Lemma change_block b V n (f : blk -> blk) :
  bk_rep b V -> room V 1 -> dv_lo V <= n < dv_n V -> 0 <= dv_lo V ->
  n ∉ dv_held V -> length (f (dv V n)) = Z.to_nat BSIZE ->
  exists i b1 b2 b3 b4, bread ROOTDEV n b = Ok (i, b1) /\ bdata i b1 = dv V n /\
    bset i (f (dv V n)) b1 = Ok (tt, b2) /\ log_write i b2 = Ok (tt, b3) /\
    brelse i b3 = Ok (tt, b4) /\ bk_rep b4 (put_blk n (f (dv V n)) V).
Proof.
  intros HR Hr Hn Hlo Hh Hf.
  destruct (change_block_keeps b V n f HR Hr Hn Hlo Hh Hf)
    as (i & b1 & b2 & b3 & b4 & E1 & E2 & E3 & E4 & E5 & HR' & _).
  by exists i, b1, b2, b3, b4.
Qed.
End Change.
