(* ===== verification/LogBlocks.v ===== *)
(** * The log implements the block interface *)

From S2P Require Import Prelude Param Bytes Sleeplock Bio BioInv Log LogInv LogCrash.
From S2P Require Import Blocks.

#[export] Instance log_ops : BlockOps logst := {
  bread d n := io (Bio.bread d n);
  bdata i s := data (bat (lb s) i);
  bset i d := setdata i d;
  log_write := Log.log_write;
  brelse i := io (Bio.brelse i)
}.

(** The view of a log state: the blocks the process has changed and not logged
    are the only ones that are neither logged nor equal to the disk. *)
Definition log_rep (s : logst) (V : dview) : Prop :=
  exists st l, txn st (dv_cap V + 1) s (dv_log V) (dv V) (dv_held V) l /\
    dv_lo V = st + dv_cap V + 1 /\ dv_n V = nblocks (lb s) /\
    dv_open V = (1 <=? outstanding s) /\
    forall n, 0 <= n < dv_n V -> n ∉ dv_log V -> n ∉ dv_mod V ->
      dv V n = disk (lb s) !!! Z.to_nat n.

Definition log_ref (s : logst) (i : nat) (n : Z) : Prop := isbuf (lb s) i n.

Lemma txn_lb st sz s bs v H l b v' H' l' :
  txn st sz s bs v H l -> bio b v' (list_to_set bs) H' l' ->
  disk b = disk (lb s) -> txn st sz (set_lb b s) bs v' H' l'.
Proof. intros [] HB Hd. split; cbn [lb set_lb]; rewrite ?Hd; auto. Qed.

Lemma log_rep_bio s V : log_rep s V ->
  exists l, bio (lb s) (dv V) (list_to_set (dv_log V)) (dv_held V) l.
Proof. intros (st & l & HT & _). exists l. apply HT. Qed.

Lemma log_bread s V n :
  log_rep s V -> readable V n ->
  exists i s', io (Bio.bread ROOTDEV n) s = Ok (i, s') /\
    log_rep s' (set_held (dv_held V ∪ {[n]}) V) /\ log_ref s' i n /\
    forall j m, m ∈ dv_held V -> log_ref s j m -> log_ref s' j m.
Proof.
  intros (st & l & HT & Hlo & Hnb & Hop & Hcl) (Hn & Hh & Hsz).
  destruct (bread_ok _ _ _ _ _ n (tx_bio _ _ _ _ _ _ _ HT))
    as (i & b & E & HB & Hi & [D1 T1 C1] & Hst); [by rewrite <- Hnb|done|done|].
  exists i, (set_lb b s). split_and!.
  - exact (io_Ok _ _ _ _ E).
  - exists st, l. split_and!; auto.
    + by apply (txn_lb _ _ _ _ _ _ _ _ _ _ _ HT HB D1).
    + unfold nblocks in *. cbn [lb set_lb dv_n set_held]. by rewrite D1.
    + cbn [lb set_lb dv_n set_held dv_log dv_mod dv]. by rewrite D1.
  - done.
  - intros j m Hm Hj. apply Hst; [|done]. set_solver.
Qed.

Lemma log_set s V i n d :
  log_rep s V -> log_ref s i n -> n ∈ dv_held V -> length d = Z.to_nat BSIZE ->
  exists s', setdata i d s = Ok (tt, s') /\ log_rep s' (set_blk n d V) /\
    forall j m, log_ref s j m -> log_ref s' j m.
Proof.
  intros (st & l & HT & Hlo & Hnb & Hop & Hcl) Hi Hn Hd.
  pose proof (tx_bio _ _ _ _ _ _ _ HT) as HB0.
  pose proof (bio_set_data _ _ _ _ _ i n d HB0 Hi Hn Hd) as HB.
  eexists. split; [apply setdata_run|]. split.
  - exists st, l. split_and!; auto.
    + apply (txn_lb _ _ _ _ _ _ _ _ _ _ _ HT HB). done.
    + cbn [lb set_lb dv_n set_blk dv_log dv_mod dv].
      intros m Hm Hl Hmod. rewrite decide_False by set_solver.
      apply Hcl; [done|done|set_solver].
  - intros j m Hj. unfold log_ref, isbuf in *. cbn [lb set_lb]. rewrite bat_upd.
    + by destruct (decide (i = j)) as [<-|].
    + destruct Hi as (Hlt & _). rewrite (bi_len _ _ _ _ _ HB0). lia.
Qed.

Lemma log_log s V i n :
  log_rep s V -> log_ref s i n -> n ∈ dv_held V -> loggable1 V n ->
  exists s', Log.log_write i s = Ok (tt, s') /\ log_rep s' (set_log n V) /\
    forall j m, log_ref s j m -> log_ref s' j m.
Proof.
  intros (st & l & HT & Hlo & Hnb & Hop & Hcl) Hi Hn (Hr & Ho & Hc).
  rewrite Ho in Hop. symmetry in Hop. apply Z.leb_le in Hop.
  destruct (log_write_ok _ _ _ _ _ _ _ i n HT Hi Hn)
    as (s' & E & HT' & [D1 T1 C1] & O1 & _ & Hst).
  { unfold home, nblocks in *. lia. }
  { done. }
  { lia. }
  exists s'. split_and!; auto. exists st, l. split_and!; auto.
  - cbn [dv_n set_log]. unfold nblocks in *. by rewrite D1.
  - cbn [dv_open set_log]. rewrite O1, Ho. symmetry. by apply Z.leb_le.
  - cbn [dv_n set_log dv_log dv_mod dv]. rewrite D1. intros m Hm Hl Hmod.
    destruct (decide (n ∈ dv_log V)) as [Hin|Hin].
    + apply Hcl; auto. intros Hm'. apply Hmod. assert (m <> n) by congruence. set_solver.
    + rewrite elem_of_app, list_elem_of_singleton in Hl.
      apply Hcl; [done|tauto|]. set_solver.
Qed.

Lemma log_rel s V i n :
  log_rep s V -> log_ref s i n -> n ∈ dv_held V -> n ∉ dv_mod V ->
  exists s', io (Bio.brelse i) s = Ok (tt, s') /\
    log_rep s' (set_held (dv_held V ∖ {[n]}) V) /\
    forall j m, log_ref s j m -> log_ref s' j m.
Proof.
  intros (st & l & HT & Hlo & Hnb & Hop & Hcl) Hi Hn Hmod.
  pose proof (tx_bio _ _ _ _ _ _ _ HT) as HB0.
  destruct (brelse_ok _ _ _ _ _ i n HB0 Hi Hn) as (b & E & HB & [D1 T1 C1] & Hst).
  { destruct (decide (n ∈ dv_log V)) as [Hin|Hin].
    - left. by apply elem_of_list_to_set.
    - right. apply Hcl; auto. rewrite Hnb. by apply (bi_range _ _ _ _ _ HB0 i n). }
  exists (set_lb b s). split_and!.
  - exact (io_Ok _ _ _ _ E).
  - exists st. eexists. split_and!; auto.
    + by apply (txn_lb _ _ _ _ _ _ _ _ _ _ _ HT HB D1).
    + cbn [lb set_lb dv_n set_held]. unfold nblocks in *. by rewrite D1.
    + cbn [lb set_lb dv_n set_held dv_log dv_mod dv]. by rewrite D1.
  - exact Hst.
Qed.

#[export] Instance log_spec : BlockSpec logst.
Proof.
  refine {| bk_rep := log_rep; bk_ref := log_ref |}.
  - intros s V n (st & l & HT & _ & Hnb & _) Hn.
    apply (bi_size _ _ _ _ _ (tx_bio _ _ _ _ _ _ _ HT)). by rewrite <- Hnb.
  - exact log_bread.
  - intros s V i n (st & l & HT & _) Hi _.
    apply (bi_data _ _ _ _ _ (tx_bio _ _ _ _ _ _ _ HT) i n Hi).
  - exact log_set.
  - exact log_log.
  - exact log_rel.
Defined.

(** ** A five-block disk: boot block, super block, a log of two blocks and one
    block of data *)

Definition zero_block : block := replicate (Z.to_nat BSIZE) 0.
Definition demo_sb : block := setw (setw (setw zero_block 0 5) 3 2) 4 2.
Definition demo_dk : list block :=
  [zero_block; demo_sb; zero_block; zero_block; zero_block].

Lemma demo_wf : wf_disk 2 2 demo_dk.
Proof.
  apply wf_empty; [lia|vm_compute; done|vm_compute; done| |vm_compute; done|
    vm_compute; done].
  repeat (apply Forall_cons; split; [vm_compute; reflexivity|]). apply Forall_nil_2.
Qed.

(** The state of a transaction that has written block 4. *)
Lemma demo_txn :
  exists s v l, txn 2 2 s [4] v ∅ l /\ v 4 = setw zero_block 0 7 /\
    length (disk (lb s)) = 5%nat.
Proof.
  destruct (reboot_ok 2 2 demo_dk 1 demo_wf)
    as (s & v & l & _ & HT & _ & _ & HL & _ & _).
  apply (txn_ops _ _ _ _ _ _ _ 1 false) in HT.
  set (s0 := set_ops 1 false s) in *.
  assert (HL0 : nblocks (lb s0) = 5) by (unfold nblocks; simpl; rewrite HL; done).
  set (V := {| dv := v; dv_held := ∅; dv_mod := ∅; dv_log := []; dv_open := true;
    dv_lo := 4; dv_n := 5; dv_cap := 1 |}).
  assert (HR : log_rep s0 V).
  { exists 2, l. split_and!; auto. intros n Hn _ _.
    apply (bi_disk _ _ _ _ _ (tx_bio _ _ _ _ _ _ _ HT)); [by rewrite HL0|set_solver]. }
  assert (Hrd : readable V 4).
  { split_and!; [simpl; lia..|set_solver|]. cbn [dv_log dv_held V list_to_set].
    rewrite !(left_id_L ∅ (∪)), size_singleton. vm_compute. lia. }
  destruct (log_bread s0 V 4 HR Hrd) as (i & s1 & _ & HR1 & Hi1 & _).
  destruct (log_set s1 _ i 4 (setw zero_block 0 7) HR1 Hi1) as (s2 & _ & HR2 & Hst2);
    [cbn [dv_held set_held V]; set_solver|vm_compute; done|].
  destruct (log_log s2 _ i 4 HR2 (Hst2 _ _ Hi1)) as (s3 & E3 & HR3 & Hst3);
    [cbn [dv_held set_held set_blk V]; set_solver|split_and!; simpl; lia || done|].
  destruct (log_rel s3 _ i 4 HR3 (Hst3 _ _ (Hst2 _ _ Hi1))) as (s4 & E4 & HR4 & _);
    [cbn [dv_held set_held set_blk set_log V]; set_solver|
     cbn [dv_mod set_held set_blk set_log V]; set_solver|].
  destruct HR4 as (st & l4 & HT4 & Hlo & Hnb & _ & Hcl).
  cbn [dv_cap dv_log dv dv_held dv_lo set_held set_blk set_log V dv_n dv_mod] in *.
  assert (st = 2) as -> by lia.
  exists s4. do 2 eexists. split_and!; [exact HT4|done|].
  unfold nblocks in Hnb. lia.
Qed.

Lemma commit_crash_atomic_witness :
  exists s s', commit s = Ok (tt, s') /\
    (exists dk', recovered (disk (lb s')) dk') /\
    forall dk', recovered (disk (lb s')) dk' -> dk' !!! 4%nat = setw zero_block 0 7.
Proof.
  destruct demo_txn as (s & v & l & HT & Hv & HL).
  destruct (commit_crash_atomic 2 2 s [4] v l HT) as (s' & new & E & _ & Hall & Hlast);
    [discriminate|].
  exists s, s'. split; [exact E|]. split; [apply Hall; by left|].
  intros dk' Hr. rewrite <- Hv. apply (Hlast dk' Hr 4).
  unfold home. rewrite HL. lia.
Defined.

Lemma end_op_durable_witness :
  exists s s', end_op s = Ok (tt, s') /\ outstanding s' = 0 /\
    (exists dk', recovered (disk (lb s')) dk') /\
    forall dk', recovered (disk (lb s')) dk' -> dk' !!! 4%nat = setw zero_block 0 7.
Proof.
  destruct demo_txn as (s & v & l & HT & Hv & HL).
  destruct (end_op_durable 2 2 (set_ops 1 false s) [4] v l
    (txn_ops _ _ _ _ _ _ _ 1 false HT) eq_refl eq_refl)
    as (s' & v' & l' & E & _ & Ho & _ & _ & _ & Ht & Hd).
  exists (set_ops 1 false s), s'. split; [exact E|]. split; [exact Ho|]. split; [exact Ht|].
  intros dk' HR. rewrite <- Hv. apply (Hd dk' 4 HR). unfold home. cbn [lb set_ops]. rewrite HL. lia.
Defined.

(** The view of the log outside a transaction, in an operation. *)
Definition idle_view (v : Z -> block) (st sz n : Z) : dview :=
  {| dv := v; dv_held := ∅; dv_mod := ∅; dv_log := []; dv_open := true;
     dv_lo := st + sz; dv_n := n; dv_cap := sz - 1 |}.

Lemma idle_rep st sz s v l :
  txn st sz s [] v ∅ l -> 1 <= outstanding s -> log_rep s (idle_view v st sz (nblocks (lb s))).
Proof.
  intros HT Ho. exists st, l. cbn [dv dv_held dv_mod dv_log dv_open dv_lo dv_n dv_cap idle_view].
  replace (sz - 1 + 1) with sz by lia. split_and!; auto; [lia|symmetry; by apply Z.leb_le|].
  intros n Hn _ _. apply (bi_disk _ _ _ _ _ (tx_bio _ _ _ _ _ _ _ HT)); [done|set_solver].
Qed.

(** The view of the disk in the first operation after a reboot. *)
Lemma reboot_view st sz dk :
  wf_disk st sz dk ->
  exists s V, log_rep s V /\ dv_held V = ∅ /\ dv_mod V = ∅ /\ dv_log V = [] /\
    dv_open V = true /\ dv_lo V = st + sz /\ dv_n V = Z.of_nat (length dk) /\
    dv_cap V = sz - 1 /\
    forall a, st + sz <= a < Z.of_nat (length dk) -> dv V a = logical st dk a.
Proof.
  intros HW. destruct (reboot_ok st sz dk 1 HW) as (s & v & l & _ & HT & _ & Hd & HL & _).
  apply (txn_ops _ _ _ _ _ _ _ 1 false) in HT.
  exists (set_ops 1 false s), (idle_view v st sz (nblocks (lb s))).
  split_and!; try done; [by apply (idle_rep _ _ _ _ _ HT)|unfold nblocks; cbn; by rewrite HL|].
  intros a Ha. cbn [dv idle_view]. by apply Hd.
Qed.

(** ** More operations than the log holds *)

(** What an operation does to change a block. *)
Definition update (u : Z * block) : M logst unit :=
  let! b := io (Bio.bread ROOTDEV u.1) in
  do! setdata b u.2 in
  do! Log.log_write b in
  io (Bio.brelse b).
Fixpoint updates (us : list (Z * block)) : M logst unit :=
  match us with
  | [] => ret tt
  | u :: us => do! update u in updates us
  end.

Definition fits (V : dview) (u : Z * block) : Prop :=
  dv_lo V <= u.1 < dv_n V /\ length u.2 = Z.to_nat BSIZE.

Lemma update_ok s V u :
  log_rep s V -> dv_held V = ∅ -> 0 <= dv_lo V -> room V 1 -> fits V u ->
  exists s', update u s = Ok (tt, s') /\ log_rep s' (put_blk u.1 u.2 V).
Proof.
  intros HR Hh Hlo Hr [Hu Hd].
  destruct (change_block (BS := log_spec) s V u.1 (fun _ => u.2) HR Hr Hu Hlo) as (i & b1 & b2 & b3 & b4 & E1 & _ & E2 & E3 & E4 & HR4);
    [rewrite Hh; apply not_elem_of_empty|done|].
  cbn [bread bset log_write brelse log_ops] in E1, E2, E3, E4.
  exists b4. split; [|exact HR4]. unfold update. mrun E1. mrun E2. mrun E3. exact E4.
Qed.

Lemma updates_ok us : forall s V,
  log_rep s V -> dv_held V = ∅ -> 0 <= dv_lo V -> room V (Z.of_nat (length us)) -> Forall (fits V) us ->
  NoDup us.*1 -> (forall u, u ∈ us -> u.1 ∉ dv_log V) ->
  exists s' V', updates us s = Ok (tt, s') /\ log_rep s' V' /\ dv_log V' = dv_log V ++ us.*1 /\
    dv_held V' = ∅ /\ dv_mod V' = dv_mod V /\ dv_lo V' = dv_lo V /\ dv_n V' = dv_n V /\ dv_cap V' = dv_cap V.
Proof.
  induction us as [|u us IH]; intros s V HR Hh Hlo Hr Hf Hnd Hnew; cbn [updates].
  { exists s, V. rewrite app_nil_r. by split_and!. }
  apply Forall_cons in Hf as [Hu Hf]. cbn [fmap list_fmap] in Hnd. apply NoDup_cons in Hnd as [Hn Hnd].
  cbn [length] in Hr. destruct (update_ok s V u HR Hh Hlo) as (s1 & E1 & HR1); [by apply (room_le _ _ 1 Hr); lia|done|].
  assert (Hlog : dv_log (put_blk u.1 u.2 V) = dv_log V ++ [u.1]).
  { cbn [dv_log put_blk]. rewrite decide_False; [done|]. apply Hnew. by left. }
  destruct (IH s1 _ HR1) as (s' & V' & E & HR' & HL & Hrest); auto.
  { apply room_put. apply (room_le _ _ _ Hr). lia. }
  { intros x Hx. rewrite Hlog, elem_of_app, list_elem_of_singleton. intros [Hx'|Hx'].
    - by apply (Hnew x); [right|].
    - apply Hn. rewrite <- Hx'. by apply list_elem_of_fmap_2. }
  exists s', V'. split; [mrun E1; exact E|]. split; [done|]. split; [|exact Hrest].
  rewrite HL, Hlog. cbn [fmap list_fmap]. by rewrite <- app_assoc.
Qed.

Lemma updates_app us us' s s1 : updates us s = Ok (tt, s1) -> updates (us ++ us') s = updates us' s1.
Proof.
  revert s. induction us as [|u us IH]; intros s E; cbn [updates app] in *; [by injection E as ->|].
  apply bind_inv in E as ([] & s2 & E2 & E). mrun E2. by apply IH.
Qed.

(** The log is full: the next block makes [log_write] panic. *)
Lemma update_full s V u :
  log_rep s V -> dv_held V = ∅ -> 0 <= dv_lo V -> rroom V -> fits V u ->
  Z.of_nat (length (dv_log V)) = dv_cap V -> update u s = Panic "too big a transaction".
Proof.
  intros HR Hh Hlo Hr [Hu Hd] Hfull.
  destruct (log_bread s V u.1 HR) as (i & s1 & E1 & HR1 & Hi & _).
  { apply readable_room; [done|lia|]. rewrite Hh. apply not_elem_of_empty. }
  destruct (log_set s1 _ i u.1 u.2 HR1 Hi) as (s2 & E2 & HR2 & _); [set_solver|done|].
  unfold update. mrun E1. mrun E2. destruct HR2 as (st & l & HT & _).
  cbn [dv_cap dv_log set_blk set_held] in HT. unfold Log.log_write. mrun.
  rewrite (tx_n _ _ _ _ _ _ _ HT), (tx_size _ _ _ _ _ _ _ HT).
  destruct (Z.leb_spec (dv_cap V + 1 - 1) (Z.of_nat (length (dv_log V)))); [|lia]. by rewrite orb_true_r.
Qed.

Definition begin3 : M logst unit := do! begin_op in do! begin_op in begin_op.

Lemma begin3_run s :
  committing s = false -> outstanding s = 0 -> lh_n s = 0 -> begin3 s = Ok (tt, set_ops 3 false s).
Proof.
  intros Hc Ho Hn.
  assert (Hgo : forall o, 0 <= o < 3 ->
    begin_op (set_ops o false s) = Ok (tt, set_ops (o + 1) false s)).
  { intros o Hr. destruct (begin_op_ok (set_ops o false s)) as [[_ [?|Hl]]|[E _]];
      [done| |exact E]. cbn [lh_n outstanding set_ops] in Hl. rewrite Hn in Hl.
    unfold LOGSIZE, MAXOPBLOCKS in Hl. lia. }
  assert (E0 : s = set_ops 0 false s) by (destruct s; simpl in *; by subst).
  unfold begin3. rewrite E0 at 1. mrun (Hgo 0 ltac:(lia)). mrun (Hgo 1 ltac:(lia)).
  exact (Hgo 2 ltac:(lia)).
Qed.

(** (C33) The space check of [begin_op] and the one of [log_write] do not
    agree. On a log of [LOGSIZE] blocks, as mkfs makes it, and empty, three
    operations are admitted at once, each entitled to [MAXOPBLOCKS] blocks.
    Let them change that many distinct blocks each, in whatever order: the
    first [LOGSIZE - 1] changes are logged, and the last one makes [log_write]
    panic. *)
Theorem begin_op_overcommits st s v l us :
  txn st LOGSIZE s [] v ∅ l -> committing s = false -> outstanding s = 0 ->
  Z.of_nat (length us) = 3 * MAXOPBLOCKS -> NoDup us.*1 ->
  Forall (fun u => home st LOGSIZE (disk (lb s)) u.1 /\ length u.2 = Z.to_nat BSIZE) us ->
  (exists s', (do! begin3 in updates (take (Z.to_nat (LOGSIZE - 1)) us)) s = Ok (tt, s')) /\
  (do! begin3 in updates us) s = Panic "too big a transaction".
Proof.
  intros HT Hc Ho Hlen Hnd Hus. pose proof (tx_n _ _ _ _ _ _ _ HT) as Hn. cbn [length] in Hn.
  pose proof (begin3_run s Hc Ho Hn) as E3. apply (txn_ops _ _ _ _ _ _ _ 3 false) in HT.
  set (s3 := set_ops 3 false s) in *. pose proof (idle_rep _ _ _ _ _ HT ltac:(done)) as HR.
  set (V := idle_view v st LOGSIZE (nblocks (lb s3))) in *.
  pose proof (lg_start _ _ _ _ (tx_log _ _ _ _ _ _ _ HT)) as Hst.
  assert (Hf : Forall (fits V) us) by (eapply Forall_impl; [exact Hus|]; by intros u [Hu Hd]; split).
  change (3 * MAXOPBLOCKS) with 30 in Hlen. change (Z.to_nat (LOGSIZE - 1)) with 29%nat.
  destruct (lookup_lt_is_Some_2 us 29) as [u Hu]; [lia|].
  assert (Eus : us = take 29 us ++ [u]).
  { rewrite <- (take_drop 29 us) at 1. f_equal. apply list_eq. intros [|k]; rewrite lookup_drop; [exact Hu|].
    rewrite !lookup_ge_None_2; [done|cbn; lia|lia]. }
  assert (Hd : Forall (fits V) (take 29 us) /\ fits V u) by (rewrite Eus in Hf; apply Forall_app in Hf as [? Hx];
    by apply Forall_cons in Hx as [? _]).
  assert (Hl : length (take 29 us) = 29%nat) by (rewrite length_take; lia).
  assert (Hlo : 0 <= dv_lo V) by (change (0 <= st + 30); lia).
  destruct (updates_ok (take 29 us) s3 V HR) as (s' & V' & E & HR' & HL & Hh' & Hm' & Hlo' & Hn' & Hc');
    [done|done|rewrite Hl; by split|apply Hd| |by intros x _; apply not_elem_of_nil|].
  { rewrite Eus, fmap_app in Hnd. by apply NoDup_app in Hnd as (? & _). }
  split; [exists s'; mrun E3; exact E|].
  assert (Hll : length (dv_log V') = 29%nat) by (rewrite HL; cbn [dv_log V idle_view app]; by rewrite length_fmap, Hl).
  mrun E3. rewrite Eus at 1.
  rewrite (updates_app _ _ _ _ E). cbn [updates]. unfold bind.
  rewrite (update_full s' V' u); [done|done|done|by rewrite Hlo'| | |].
  - split; [rewrite Hll, Hh', size_empty; done|by rewrite Hm'].
  - destruct Hd as [_ [Hd1 Hd2]]. split; [by rewrite Hlo', Hn'|done].
  - rewrite Hll, Hc'. done.
Qed.

(** A disk with a log of 30 blocks and 30 blocks of data. *)
Definition demo_big : list block :=
  [zero_block; setw (setw (setw zero_block 0 62) 3 30) 4 2] ++ replicate 60 zero_block.

Lemma demo_big_wf : wf_disk 2 30 demo_big.
Proof.
  apply wf_empty; [lia|vm_compute; done|vm_compute; done| |vm_compute; done|vm_compute; done].
  repeat (apply Forall_cons; split; [vm_compute; reflexivity|]). apply Forall_nil_2.
Qed.

Lemma begin_op_overcommits_witness :
  exists s, (do! begin3 in updates ((fun n => (n, zero_block)) <$> seqZ 32 30)) s =
    Panic "too big a transaction".
Proof.
  destruct (reboot_ok 2 30 demo_big 1 demo_big_wf) as (s & v & l & _ & HT & _ & _ & HL & Ho & Hc).
  exists s. apply (begin_op_overcommits 2 s v l); [exact HT|exact Hc|exact Ho|reflexivity| |].
  - rewrite <- list_fmap_compose. cbn. rewrite list_fmap_id. apply NoDup_seqZ.
  - apply Forall_fmap, Forall_forall. intros n Hn%elem_of_seqZ. split; [|reflexivity].
    unfold home. rewrite HL. change (Z.of_nat (length demo_big)) with 62. cbn [fst]. change LOGSIZE with 30. lia.
Defined.
