(* ===== verification/Memory.v ===== *)
(** * Byte memory and the kernel string routines (string.c)

    Physical memory as the kernel addresses it: bytes at 32-bit addresses,
    32-bit words in little-endian order, and the routines of string.c on it.
    [memset] and [memmove] work on memory; the routines that only read
    ([memcmp], [strncmp], [strlen]) take a pointer as the function from an
    offset to the byte there, and [strncpy], [safestrcpy] yield the bytes
    they store at [s[0]], [s[1]], ... *)

From S2P Require Import Prelude.

Abbreviation mem := (gmap Z Z).

Definition ld8 (m : mem) (a : Z) : Z := u8 (default 0 (m !! a)).
Definition st8 (m : mem) (a v : Z) : mem := <[a := v]> m.

Definition ld16 (m : mem) (a : Z) : Z := ld8 m a + 2 ^ 8 * ld8 m (a + 1).
Definition ld32 (m : mem) (a : Z) : Z :=
  ld8 m a + 2 ^ 8 * ld8 m (a + 1) + 2 ^ 16 * ld8 m (a + 2)
  + 2 ^ 24 * ld8 m (a + 3).
Definition st32 (m : mem) (a v : Z) : mem :=
  st8 (st8 (st8 (st8 m a v) (a + 1) (v / 2 ^ 8)) (a + 2) (v / 2 ^ 16))
      (a + 3) (v / 2 ^ 24).

Module Str.

(** x86.h: [rep stosb] and [rep stosl]. *)
Fixpoint stosb (m : mem) (addr data : Z) (cnt : nat) : mem :=
  match cnt with
  | O => m
  | S k => stosb (st8 m addr data) (u32 (addr + 1)) data k
  end.

Fixpoint stosl (m : mem) (addr data : Z) (cnt : nat) : mem :=
  match cnt with
  | O => m
  | S k => stosl (st32 m addr data) (u32 (addr + 4)) data k
  end.

Definition memset (m : mem) (dst c n : Z) : mem :=
  if (dst mod 4 =? 0) && (n mod 4 =? 0) then
    let c := Z.land c 255 in
    stosl m dst
      (Z.lor (Z.lor (Z.lor (Z.shiftl c 24) (Z.shiftl c 16))
                    (Z.shiftl c 8)) c)
      (Z.to_nat (n / 4))
  else stosb m dst c (Z.to_nat n).

(** The two loops of [memmove]. *)
Fixpoint move_down (m : mem) (d s : Z) (n : nat) : mem :=
  match n with
  | O => m
  | S k => let d := u32 (d - 1) in let s := u32 (s - 1) in
           move_down (st8 m d (ld8 m s)) d s k
  end.

Fixpoint move_up (m : mem) (d s : Z) (n : nat) : mem :=
  match n with
  | O => m
  | S k => move_up (st8 m d (ld8 m s)) (u32 (d + 1)) (u32 (s + 1)) k
  end.

Definition memmove (m : mem) (dst src n : Z) : mem :=
  let s := src in let d := dst in
  if (s <? d) && (u32 (s + n) >? d) then
    move_down m (u32 (d + n)) (u32 (s + n)) (Z.to_nat n)
  else move_up m d s (Z.to_nat n).

Definition memcpy (m : mem) (dst src n : Z) : mem := memmove m dst src n.

Fixpoint memcmp (s1 s2 : nat -> Z) (i n : nat) : Z :=
  match n with
  | O => 0
  | S k => if negb (s1 i =? s2 i) then s1 i - s2 i
           else memcmp s1 s2 (S i) k
  end.

Fixpoint strncmp (p q : nat -> Z) (i n : nat) : Z :=
  match n with
  | O => 0
  | S k => if negb (p i =? 0) && (p i =? q i) then strncmp p q (S i) k
           else p i - q i
  end.

(** Bytes stored by [strncpy(s, t, n)]: copied bytes, then zero padding. *)
Fixpoint strncpy (t : nat -> Z) (i n : nat) : list Z :=
  match n with
  | O => []
  | S k => if negb (t i =? 0) then t i :: strncpy t (S i) k
           else t i :: replicate k 0
  end.

(** Bytes stored by the loop of [safestrcpy]; [n] is the value before
    [--n]. *)
Fixpoint safestrcpy_loop (t : nat -> Z) (i n : nat) : list Z :=
  match n with
  | O => []
  | S k => if (0 <? Z.of_nat k) then
             if negb (t i =? 0) then t i :: safestrcpy_loop t (S i) k
             else [t i; 0]
           else [0]
  end.

Definition safestrcpy (t : nat -> Z) (n : Z) : list Z :=
  if n <=? 0 then [] else safestrcpy_loop t 0 (Z.to_nat n).

(** The scan of [strlen] from offset [n]; [fuel] bounds the scan. *)
Fixpoint strlen (s : nat -> Z) (n fuel : nat) : option nat :=
  match fuel with
  | O => None
  | S f => if s n =? 0 then Some n else strlen s (S n) f
  end.

End Str.

(** A byte list seen as a C string: NUL from its end on. *)
Definition cstr (l : list Z) : nat -> Z := fun i => nth i l 0.

(** ** Memory lemmas *)

Lemma ld8_range m a : 0 <= ld8 m a < 2 ^ 8.
Proof. apply u8_range. Qed.

Lemma ld8_st8 m a b v :
  ld8 (st8 m a v) b = if decide (a = b) then u8 v else ld8 m b.
Proof.
  unfold ld8, st8. rewrite lookup_insert. by destruct (decide (a = b)).
Qed.

Lemma ld8_st8_eq m a v : ld8 (st8 m a v) a = u8 v.
Proof. rewrite ld8_st8. by rewrite decide_True. Qed.

Lemma ld8_st8_ne m a b v : a <> b -> ld8 (st8 m a v) b = ld8 m b.
Proof. intros H. rewrite ld8_st8. by rewrite decide_False. Qed.

Lemma ld32_ext m m' a b :
  (forall i, 0 <= i < 4 -> ld8 m (a + i) = ld8 m' (b + i)) ->
  ld32 m a = ld32 m' b.
Proof.
  intros H. unfold ld32.
  pose proof (H 0 ltac:(lia)) as H0. rewrite !Z.add_0_r in H0.
  rewrite H0, (H 1), (H 2), (H 3) by lia. done.
Qed.

Lemma ld32_range m a : 0 <= ld32 m a < 2 ^ 32.
Proof.
  unfold ld32. pose proof (ld8_range m a). pose proof (ld8_range m (a + 1)).
  pose proof (ld8_range m (a + 2)). pose proof (ld8_range m (a + 3)). lia.
Qed.

Lemma ld8_st32_ne m a b v : ~ (a <= b < a + 4) -> ld8 (st32 m a v) b = ld8 m b.
Proof. intros H. unfold st32. rewrite !ld8_st8_ne by lia. done. Qed.

Lemma ld8_st32 m a i v :
  0 <= i < 4 -> ld8 (st32 m a v) (a + i) = u8 (v / 2 ^ (8 * i)).
Proof.
  intros H. unfold st32.
  assert (i = 0 \/ i = 1 \/ i = 2 \/ i = 3) as [->|[->|[->| ->]]] by lia;
    rewrite !ld8_st8; repeat case_decide; try lia; try done.
  by rewrite Z.div_1_r.
Qed.

Lemma u32_bytes v :
  u8 v + 2 ^ 8 * u8 (v / 2 ^ 8) + 2 ^ 16 * u8 (v / 2 ^ 16)
  + 2 ^ 24 * u8 (v / 2 ^ 24) = u32 v.
Proof.
  unfold u8, u32.
  change (2 ^ 32) with (2 ^ 8 * (2 ^ 8 * (2 ^ 8 * 2 ^ 8))).
  change (2 ^ 24) with (2 ^ 8 * (2 ^ 8 * 2 ^ 8)).
  change (2 ^ 16) with (2 ^ 8 * 2 ^ 8).
  rewrite !Z.rem_mul_r, <- !Z.div_div by lia.
  generalize (v mod 2 ^ 8), (v / 2 ^ 8 mod 2 ^ 8),
    (v / 2 ^ 8 / 2 ^ 8 mod 2 ^ 8), (v / 2 ^ 8 / 2 ^ 8 / 2 ^ 8 mod 2 ^ 8).
  lia.
Qed.

Lemma ld32_st32_eq m a v : ld32 (st32 m a v) a = u32 v.
Proof.
  unfold ld32. rewrite <- u32_bytes.
  pose proof (ld8_st32 m a 0 v ltac:(lia)) as H0.
  rewrite Z.add_0_r in H0. rewrite H0, !ld8_st32 by lia.
  by rewrite Z.div_1_r.
Qed.

Lemma ld32_st32_ne m a b v :
  ~ (a - 4 < b < a + 4) -> ld32 (st32 m a v) b = ld32 m b.
Proof.
  intros H. apply ld32_ext. intros i Hi. apply ld8_st32_ne. lia.
Qed.

(** ** Filling memory *)

Lemma ld8_stosb m dst c cnt a :
  0 <= dst -> dst + Z.of_nat cnt <= 2 ^ 32 ->
  ld8 (Str.stosb m dst c cnt) a =
  if decide (dst <= a < dst + Z.of_nat cnt) then u8 c else ld8 m a.
Proof.
  revert m dst. induction cnt as [|k IH]; intros m dst Hd Hn; simpl.
  - by rewrite decide_False by lia.
  - destruct k as [|k'].
    + simpl. rewrite ld8_st8. repeat case_decide; try lia; done.
    + rewrite u32_small by lia. rewrite IH by lia. rewrite ld8_st8.
      repeat case_decide; try lia; done.
Qed.

Lemma memset_word_check :
  forallb (fun w => forallb (fun i =>
    u8 (Z.lor (Z.lor (Z.lor (Z.shiftl w 24) (Z.shiftl w 16))
                     (Z.shiftl w 8)) w / 2 ^ (8 * i)) =? w)
    (seqZ 0 4)) (seqZ 0 256) = true.
Proof. vm_compute. reflexivity. Qed.

Lemma memset_word c i :
  0 <= i < 4 ->
  let w := Z.land c 255 in
  u8 (Z.lor (Z.lor (Z.lor (Z.shiftl w 24) (Z.shiftl w 16))
                   (Z.shiftl w 8)) w / 2 ^ (8 * i)) = u8 c.
Proof.
  intros Hi w.
  assert (Hw : 0 <= w < 2 ^ 8 /\ u8 c = w).
  { subst w. change 255 with (Z.ones 8). rewrite Z.land_ones by lia.
    split; [apply Z.mod_pos_bound; lia|done]. }
  destruct Hw as [Hw ->].
  pose proof memset_word_check as Hc. rewrite forallb_forall in Hc.
  specialize (Hc w). rewrite <- list_elem_of_In, elem_of_seqZ in Hc.
  specialize (Hc ltac:(lia)). rewrite forallb_forall in Hc.
  specialize (Hc i). rewrite <- list_elem_of_In, elem_of_seqZ in Hc.
  apply Z.eqb_eq, Hc. lia.
Qed.

Lemma ld8_stosl m dst w c cnt a :
  (forall i, 0 <= i < 4 -> u8 (w / 2 ^ (8 * i)) = c) ->
  0 <= dst -> dst + 4 * Z.of_nat cnt <= 2 ^ 32 ->
  ld8 (Str.stosl m dst w cnt) a =
  if decide (dst <= a < dst + 4 * Z.of_nat cnt) then c else ld8 m a.
Proof.
  intros Hw. revert m dst. induction cnt as [|k IH]; intros m dst Hd Hn.
  - simpl. by rewrite decide_False by lia.
  - assert (Hst : ld8 (st32 m dst w) a =
      if decide (dst <= a < dst + 4) then c else ld8 m a).
    { case_decide as Ha.
      - replace a with (dst + (a - dst)) by lia.
        rewrite ld8_st32 by lia. apply Hw. lia.
      - by rewrite ld8_st32_ne by lia. }
    cbn [Str.stosl]. destruct k as [|k'].
    + simpl. rewrite Hst. repeat case_decide; try lia; done.
    + rewrite u32_small by lia. rewrite IH by lia. rewrite Hst.
      repeat case_decide; try lia; done.
Qed.

Lemma memset_spec m dst c n a :
  0 <= dst -> 0 <= n -> dst + n <= 2 ^ 32 ->
  ld8 (Str.memset m dst c n) a =
  if decide (dst <= a < dst + n) then u8 c else ld8 m a.
Proof.
  intros Hd Hn Hle. unfold Str.memset.
  destruct ((dst mod 4 =? 0) && (n mod 4 =? 0)) eqn:E.
  - apply andb_true_iff in E as [_ E]. apply Z.eqb_eq in E.
    pose proof (Z.div_mod n 4 ltac:(lia)).
    rewrite (ld8_stosl _ _ _ (u8 c));
      [|intros i Hi; by apply memset_word|lia|lia].
    repeat case_decide; try lia; done.
  - rewrite ld8_stosb by lia. repeat case_decide; try lia; done.
Qed.

(** ** Moving memory *)

Lemma ld8_move_up m d s n a :
  0 <= d -> d + Z.of_nat n <= 2 ^ 32 -> 0 <= s -> s + Z.of_nat n <= 2 ^ 32 ->
  d <= s \/ s + Z.of_nat n <= d ->
  ld8 (Str.move_up m d s n) a =
  if decide (d <= a < d + Z.of_nat n) then ld8 m (s + (a - d)) else ld8 m a.
Proof.
  revert m d s. induction n as [|k IH]; intros m d s Hd Hdn Hs Hsn Hov; simpl.
  - by rewrite decide_False by lia.
  - assert (Hu : u8 (ld8 m s) = ld8 m s) by (apply u8_small, ld8_range).
    destruct k as [|k'].
    + simpl. rewrite ld8_st8. repeat case_decide; try lia; try done.
      subst. rewrite Hu. f_equal. lia.
    + rewrite !u32_small by lia. rewrite IH by lia. rewrite !ld8_st8.
      repeat case_decide; try lia; subst; rewrite ?Hu; f_equal; lia.
Qed.

Lemma ld8_move_down m d s n a :
  0 <= s < d -> d + Z.of_nat n <= 2 ^ 32 ->
  ld8 (Str.move_down m (u32 (d + Z.of_nat n)) (u32 (s + Z.of_nat n)) n) a =
  if decide (d <= a < d + Z.of_nat n) then ld8 m (s + (a - d)) else ld8 m a.
Proof.
  intros Hsd. revert m. induction n as [|k IH]; intros m Hn; cbn [Str.move_down].
  - by rewrite decide_False by lia.
  - assert (Hstep : forall x, 0 <= x -> x + Z.of_nat (S k) <= 2 ^ 32 ->
      u32 (u32 (x + Z.of_nat (S k)) - 1) = u32 (x + Z.of_nat k)).
    { intros x Hx Hle. unfold u32. rewrite Zminus_mod_idemp_l.
      f_equal. lia. }
    rewrite !Hstep by lia. rewrite IH by lia.
    rewrite (u32_small (d + _)), (u32_small (s + _)) by lia.
    rewrite !ld8_st8.
    assert (Hu : forall x, u8 (ld8 m x) = ld8 m x)
      by (intros; apply u8_small, ld8_range).
    repeat case_decide; try lia; subst; rewrite ?Hu; f_equal; lia.
Qed.

Lemma ld8_memmove m dst src n a :
  0 <= dst -> 0 <= src -> 0 <= n ->
  dst + n <= 2 ^ 32 -> src + n <= 2 ^ 32 ->
  ld8 (Str.memmove m dst src n) a =
  if decide (dst <= a < dst + n) then ld8 m (src + (a - dst)) else ld8 m a.
Proof.
  intros Hd Hs Hn Hdn Hsn. unfold Str.memmove.
  destruct (Z.ltb_spec src dst) as [Hlt|Hge]; simpl.
  - rewrite (u32_small (src + n)) by lia.
    rewrite Z.gtb_ltb. destruct (Z.ltb_spec dst (src + n)) as [Hov|Hno].
    + rewrite <- (Z2Nat.id n) at 1 2 by lia.
      rewrite <- (u32_small (src + Z.of_nat (Z.to_nat n))) by lia.
      rewrite ld8_move_down by lia. repeat case_decide; try lia; done.
    + rewrite ld8_move_up by lia. repeat case_decide; try lia; done.
  - rewrite ld8_move_up by lia. repeat case_decide; try lia; done.
Qed.

(** [memmove] copies as if through a temporary: the destination range
    holds the old contents of the source range and every other byte is
    unchanged, whether the two ranges overlap or not. *)
Theorem memmove_spec m dst src n a :
  0 <= dst -> 0 <= src -> 0 <= n ->
  dst + n <= 2 ^ 32 -> src + n <= 2 ^ 32 ->
  ld8 (Str.memmove m dst src n) a =
  if decide (dst <= a < dst + n) then ld8 m (src + (a - dst)) else ld8 m a.
Proof. apply ld8_memmove. Qed.

Lemma memmove_spec_witness :
  ld8 (Str.memmove (st8 (st8 ∅ 100 7) 101 8) 101 100 2) 102 = 8.
Proof.
  rewrite (memmove_spec (st8 (st8 ∅ 100 7) 101 8) 101 100 2 102);
    [reflexivity|lia..].
Defined.

(** ** Names *)

(** The characters of [t] before its NUL, at most [n] of them. *)
Fixpoint cprefix (t : nat -> Z) (i n : nat) : list Z :=
  match n with
  | O => []
  | S k => if t i =? 0 then [] else t i :: cprefix t (S i) k
  end.

Lemma strncmp_eq0 p q i n :
  Str.strncmp p q i n = 0 <-> cprefix p i n = cprefix q i n.
Proof.
  revert i. induction n as [|k IH]; intros i; simpl; [done|].
  destruct (Z.eqb_spec (p i) 0) as [Hp|Hp]; simpl.
  - destruct (Z.eqb_spec (q i) 0) as [Hq|Hq]; [split; [done|lia]|].
    split; [lia|done].
  - destruct (Z.eqb_spec (p i) (q i)) as [Hpq|Hpq]; simpl.
    + rewrite IH, <- Hpq. destruct (Z.eqb_spec (p i) 0); [done|].
      split; [by intros ->|by intros [=]].
    + destruct (Z.eqb_spec (q i) 0) as [Hq|Hq]; split; try lia; try done.
      intros [=]; lia.
Qed.

Lemma cprefix_shift t t' i j n :
  (forall k, (k < n)%nat -> t (i + k)%nat = t' (j + k)%nat) ->
  cprefix t i n = cprefix t' j n.
Proof.
  revert i j. induction n as [|n IH]; intros i j H; simpl; [done|].
  pose proof (H 0%nat ltac:(lia)) as H0. rewrite !Nat.add_0_r in H0.
  rewrite H0. destruct (t' j =? 0); [done|]. f_equal. apply IH.
  intros k Hk. specialize (H (S k) ltac:(lia)).
  by rewrite <- !Nat.add_succ_comm in H.
Qed.

Lemma length_strncpy t i n : length (Str.strncpy t i n) = n.
Proof.
  revert i. induction n as [|n IH]; intros i; simpl; [done|].
  destruct (negb (t i =? 0)); simpl; [by rewrite IH|].
  by rewrite length_replicate.
Qed.

Lemma cprefix_strncpy t i n :
  cprefix (cstr (Str.strncpy t i n)) 0 n = cprefix t i n.
Proof.
  revert i. induction n as [|n IH]; intros i; simpl; [done|].
  unfold cstr at 1 2. destruct (Z.eqb_spec (t i) 0) as [H|H]; simpl.
  - rewrite H. done.
  - destruct (Z.eqb_spec (t i) 0); [done|]. f_equal. rewrite <- IH.
    apply cprefix_shift. intros k Hk. done.
Qed.

(** Directory names: a name stored with [strncpy] in an [n]-byte field
    fills exactly that field, and [strncmp] over [n] bytes finds it equal to
    a name [u] exactly when [u] and the stored name have the same first [n]
    characters (up to their NUL). *)
Theorem strncpy_strncmp t u n :
  length (Str.strncpy t 0 n) = n /\
  (Str.strncmp u (cstr (Str.strncpy t 0 n)) 0 n = 0 <->
   cprefix u 0 n = cprefix t 0 n).
Proof.
  split; [apply length_strncpy|].
  by rewrite strncmp_eq0, cprefix_strncpy.
Qed.

Lemma length_safestrcpy_loop t i n :
  (length (Str.safestrcpy_loop t i n) <= n)%nat.
Proof.
  revert i. induction n as [|n IH]; intros i; [done|].
  cbn [Str.safestrcpy_loop]. specialize (IH (S i)).
  destruct (Z.ltb_spec 0 (Z.of_nat n)); [|simpl; lia].
  destruct (negb (t i =? 0)); simpl; lia.
Qed.

Lemma safestrcpy_loop_SS t i n :
  Str.safestrcpy_loop t i (S (S n)) =
  if t i =? 0 then [t i; 0] else t i :: Str.safestrcpy_loop t (S i) (S n).
Proof.
  change (Str.safestrcpy_loop t i (S (S n))) with
    (if 0 <? Z.of_nat (S n) then
       if negb (t i =? 0) then t i :: Str.safestrcpy_loop t (S i) (S n)
       else [t i; 0]
     else [0]).
  by destruct (t i =? 0).
Qed.

Lemma cprefix_S t i n :
  cprefix t i (S n) = if t i =? 0 then [] else t i :: cprefix t (S i) n.
Proof. done. Qed.

Lemma safestrcpy_loop_prefix t i n :
  cprefix (cstr (Str.safestrcpy_loop t i (S n))) 0 (S n) = cprefix t i n.
Proof.
  revert i. induction n as [|n IH]; intros i; [done|].
  rewrite safestrcpy_loop_SS, cprefix_S, (cprefix_S t).
  destruct (Z.eqb_spec (t i) 0) as [H|H].
  - unfold cstr. simpl. by rewrite H.
  - unfold cstr at 1 2. cbn [nth].
    destruct (Z.eqb_spec (t i) 0); [done|]. f_equal.
    rewrite <- IH. apply cprefix_shift. intros k Hk. done.
Qed.

Lemma safestrcpy_loop_nul t i n :
  (length (cprefix t i n) < length (Str.safestrcpy_loop t i (S n)))%nat.
Proof.
  revert i. induction n as [|n IH]; intros i; [simpl; lia|].
  specialize (IH (S i)). rewrite safestrcpy_loop_SS, cprefix_S.
  destruct (t i =? 0); cbn [length]; lia.
Qed.

(** [safestrcpy(s, t, n)] with a positive [n] stores at most [n] bytes,
    and what it stores is the string [t] cut to its first [n - 1]
    characters with its NUL inside the bytes stored. *)
Theorem safestrcpy_spec t n :
  0 < n ->
  (length (Str.safestrcpy t n) <= Z.to_nat n)%nat /\
  cprefix (cstr (Str.safestrcpy t n)) 0 (Z.to_nat n)
  = cprefix t 0 (Z.to_nat n - 1) /\
  (length (cprefix t 0 (Z.to_nat n - 1)) < length (Str.safestrcpy t n))%nat.
Proof.
  intros Hn. unfold Str.safestrcpy.
  destruct (Z.leb_spec n 0); [lia|].
  destruct (Z.to_nat n) as [|k] eqn:Hk; [lia|].
  replace (S k - 1)%nat with k by lia.
  repeat split.
  - apply length_safestrcpy_loop.
  - apply safestrcpy_loop_prefix.
  - apply safestrcpy_loop_nul.
Qed.

Lemma safestrcpy_spec_witness :
  cprefix (cstr (Str.safestrcpy (cstr [104; 105; 33]) 3)) 0 3 = [104; 105].
Proof.
  destruct (safestrcpy_spec (cstr [104; 105; 33]) 3) as (_ & H & _);
    [lia|exact H].
Defined.

Lemma strlen_spec s n k fuel :
  (forall i, (i < k)%nat -> s (n + i)%nat <> 0) -> s (n + k)%nat = 0 ->
  (k < fuel)%nat -> Str.strlen s n fuel = Some (n + k)%nat.
Proof.
  revert n k. induction fuel as [|f IH]; intros n k Hlt Hk Hf; [lia|]. simpl.
  destruct k as [|k].
  - rewrite Nat.add_0_r in *. by rewrite Hk.
  - pose proof (Hlt 0%nat ltac:(lia)) as H0. rewrite Nat.add_0_r in H0.
    destruct (Z.eqb_spec (s n) 0); [done|].
    rewrite (IH (S n) k); [f_equal; lia| | |lia].
    + intros i Hi. rewrite Nat.add_succ_comm. apply Hlt. lia.
    + by rewrite Nat.add_succ_comm.
Qed.
