(* ===== verification/Kalloc.v ===== *)
(** * Physical page allocator (kalloc.c)

    The free list is threaded through the free pages themselves: the first
    word of a free page is the address of the next one.  [kmem_inv] relates
    the allocator to the list of free pages it stands for.  The acquire and
    release of [kmem.lock] delimit one atomic step, so the operations below
    are such steps; [use_lock] is kept because [kinit2] sets it. *)

From S2P Require Import Prelude Param Memory.

Record pmem := { pm_mem : mem; freelist : Z; use_lock : bool }.

Definition set_mem (m : mem) (pm : pmem) : pmem :=
  {| pm_mem := m; freelist := freelist pm; use_lock := use_lock pm |}.
Definition set_freelist (p : Z) (pm : pmem) : pmem :=
  {| pm_mem := pm_mem pm; freelist := p; use_lock := use_lock pm |}.
Definition set_use_lock (b : bool) (pm : pmem) : pmem :=
  {| pm_mem := pm_mem pm; freelist := freelist pm; use_lock := b |}.

Section Kalloc.
Context `{I : Image}.

Definition kfree (v : Z) : M pmem unit :=
  if negb (v mod PGSIZE =? 0) || (v <? img_end) || (PHYSTOP <=? V2P v)
  then panic "kfree"
  else
    do! modify (fun pm => set_mem (Str.memset (pm_mem pm) v 1 PGSIZE) pm) in
    do! modify (fun pm => set_mem (st32 (pm_mem pm) v (freelist pm)) pm) in
    modify (set_freelist v).

Definition kalloc : M pmem Z :=
  let! r := gets freelist in
  do! (if negb (r =? 0)
       then modify (fun pm => set_freelist (ld32 (pm_mem pm) r) pm)
       else ret tt) in
  ret r.

(** The loop of [freerange] from [p]; [fuel] bounds its iterations. *)
Fixpoint freerange_loop (fuel : nat) (p vend : Z) : M pmem unit :=
  if u32 (p + PGSIZE) <=? vend then
    match fuel with
    | O => out_of_fuel
    | S f => do! kfree p in freerange_loop f (u32 (p + PGSIZE)) vend
    end
  else ret tt.

Definition freerange (vstart vend : Z) : M pmem unit :=
  freerange_loop (Z.to_nat (vend / PGSIZE)) (PGROUNDUP vstart) vend.

Definition kinit1 (vstart vend : Z) : M pmem unit :=
  do! modify (set_use_lock false) in freerange vstart vend.

Definition kinit2 (vstart vend : Z) : M pmem unit :=
  do! freerange vstart vend in modify (set_use_lock true).

(** ** The list of free pages *)

Definition page_ok (v : Z) : Prop :=
  v mod PGSIZE = 0 /\ img_end <= v /\ v + PGSIZE <= KERNBASE + PHYSTOP.

Fixpoint chain (m : mem) (p : Z) (l : list Z) : Prop :=
  match l with
  | [] => p = 0
  | r :: l => p = r /\ chain m (ld32 m r) l
  end.

Record kmem_inv (pm : pmem) (l : list Z) : Prop := {
  inv_chain : chain (pm_mem pm) (freelist pm) l;
  inv_nodup : NoDup l;
  inv_pages : Forall page_ok l
}.

(** Memory is unchanged outside the page at [v]. *)
Definition same_outside (v : Z) (m m' : mem) : Prop :=
  forall a, ~ (v <= a < v + PGSIZE) -> ld8 m' a = ld8 m a.

(** The pages [freerange] is to free, in ascending order. *)
Definition pages_from (p : Z) (n : nat) : list Z :=
  (fun i => p + Z.of_nat i * PGSIZE) <$> seq 0 n.

(** ** Lemmas *)

Context `{!ImageOk I}.

Lemma page_range v : page_ok v -> KERNBASE < v /\ v + PGSIZE < 2 ^ 32.
Proof. intros (H1 & H2 & H3). pose proof img_end_ok. clia. Qed.

Lemma page_disjoint v w a :
  page_ok v -> page_ok w -> v <> w -> v <= a < v + PGSIZE ->
  ~ (w <= a < w + PGSIZE).
Proof.
  intros [Hv _] [Hw _] Hne Ha Hb. apply Hne. unfold PGSIZE in *.
  pose proof (Z.div_mod v 4096 ltac:(lia)).
  pose proof (Z.div_mod w 4096 ltac:(lia)).
  assert (v / 4096 = w / 4096) by nia. lia.
Qed.

Lemma page_ok_guard v :
  0 <= v < 2 ^ 32 ->
  (negb (v mod PGSIZE =? 0) || (v <? img_end) || (PHYSTOP <=? V2P v)) = false
  <-> page_ok v.
Proof.
  intros Hv. pose proof img_end_ok as He. unfold page_ok, V2P.
  rewrite !orb_false_iff, negb_false_iff, Z.eqb_eq, Z.ltb_ge, Z.leb_gt.
  split.
  - intros [[H1 H2] H3]. rewrite u32_small in H3 by clia.
    repeat split; auto. unfold PGSIZE, KERNBASE, PHYSTOP in *.
    pose proof (Z.div_mod v 4096 ltac:(lia)). nia.
  - intros (H1 & H2 & H3). rewrite u32_small by clia.
    repeat split; auto. clia.
Qed.

Lemma page_ok_guard_true v :
  page_ok v ->
  (negb (v mod PGSIZE =? 0) || (v <? img_end) || (PHYSTOP <=? V2P v)) = false.
Proof.
  intros H. apply page_ok_guard; [|done]. apply page_range in H. clia.
Qed.

Lemma chain_frame m m' p l :
  chain m p l -> (forall r, r ∈ l -> ld32 m' r = ld32 m r) -> chain m' p l.
Proof.
  revert p. induction l as [|r l IH]; intros p; simpl; [done|].
  intros [-> Hc] Hf. split; [done|]. rewrite Hf by set_solver.
  apply IH; [done|]. intros r' Hr'. apply Hf. set_solver.
Qed.

Lemma same_outside_ld32 v w m m' :
  same_outside v m m' -> page_ok v -> page_ok w -> v <> w ->
  forall o, 0 <= o <= PGSIZE - 4 -> ld32 m' (w + o) = ld32 m (w + o).
Proof.
  intros Hs Hv Hw Hne o Ho. apply ld32_ext. intros i Hi. apply Hs.
  apply (page_disjoint w v); auto. lia.
Qed.

Lemma kmem_inv_frame pm l v m' :
  kmem_inv pm l -> page_ok v -> v ∉ l -> same_outside v (pm_mem pm) m' ->
  kmem_inv (set_mem m' pm) l.
Proof.
  intros [Hc Hn Hp] Hv Hni Hs. split; [|done..]. simpl.
  eapply chain_frame; [exact Hc|]. intros r Hr.
  rewrite <- (Z.add_0_r r). eapply same_outside_ld32; eauto; [| |clia].
  - rewrite Forall_forall in Hp. auto.
  - intros ->. done.
Qed.

Lemma kfree_mem v pm pm' :
  page_ok v -> kfree v pm = Ok (tt, pm') ->
  same_outside v (pm_mem pm) (pm_mem pm').
Proof.
  intros Hv. unfold kfree. rewrite page_ok_guard_true by done.
  intros [= <-] a Ha. simpl. pose proof (page_range v Hv).
  rewrite ld8_st32_ne by clia.
  rewrite memset_spec by clia. by rewrite decide_False by clia.
Qed.

Lemma kfree_ok pm l v :
  kmem_inv pm l -> page_ok v -> v ∉ l ->
  exists pm', kfree v pm = Ok (tt, pm') /\ kmem_inv pm' (v :: l) /\
              use_lock pm' = use_lock pm.
Proof.
  intros Hinv Hv Hni. pose proof (page_range v Hv) as Hr.
  destruct (kfree v pm) as [[[] pm']| | | |] eqn:E;
    unfold kfree in E; rewrite page_ok_guard_true in E by done;
    try discriminate.
  exists pm'. assert (Hs : same_outside v (pm_mem pm) (pm_mem pm')).
  { apply kfree_mem; [done|]. unfold kfree.
    by rewrite page_ok_guard_true. }
  injection E as <-. split; [done|]. split; [|done].
  destruct (kmem_inv_frame _ _ _ _ Hinv Hv Hni Hs) as [Hc Hn Hp].
  destruct Hinv as [Hc0 _ _]. simpl in *.
  split; [|by constructor|by constructor]. simpl.
  split; [done|]. rewrite ld32_st32_eq.
  rewrite u32_small; [done|].
  destruct l as [|r l]; simpl in Hc0; [subst; lia|].
  destruct Hc0 as [-> _]. apply Forall_cons in Hp as [Hr' _].
  apply page_range in Hr'. clia.
Qed.

Lemma kalloc_nil pm : kmem_inv pm [] -> kalloc pm = Ok (0, pm).
Proof.
  intros [Hc _ _]. simpl in Hc. unfold kalloc, bind, gets. rewrite Hc. done.
Qed.

Lemma kalloc_cons pm r l :
  kmem_inv pm (r :: l) ->
  exists pm', kalloc pm = Ok (r, pm') /\ kmem_inv pm' l /\ page_ok r /\
              (r ∉ l) /\ pm_mem pm' = pm_mem pm /\ use_lock pm' = use_lock pm.
Proof.
  intros [[Hf Hc] [Hni Hn]%NoDup_cons [Hp Hps]%Forall_cons].
  unfold kalloc, bind, gets. rewrite Hf.
  pose proof (page_range r Hp) as Hr.
  destruct (Z.eqb_spec r 0); [clia|]. simpl.
  eexists. split; [done|]. repeat split; auto; by destruct Hp as (?&?&?).
Qed.

(** (C30) The allocator is a stack of free pages.  [kalloc] returns 0 exactly
    when no page is free and otherwise takes the most recently freed page,
    leaving memory alone; [kfree] panics exactly on an address that is not
    a page between [end] and the top of physical memory, and otherwise puts
    the page on the stack and changes no byte outside it. *)
Theorem kalloc_kfree_refine pm l :
  kmem_inv pm l ->
  (exists pm', kalloc pm = Ok (hd 0 l, pm') /\ kmem_inv pm' (tl l) /\
               pm_mem pm' = pm_mem pm) /\
  (forall v, 0 <= v < 2 ^ 32 ->
     (kfree v pm = Panic "kfree" <-> ~ page_ok v) /\
     (page_ok v -> v ∉ l ->
      exists pm', kfree v pm = Ok (tt, pm') /\ kmem_inv pm' (v :: l) /\
                  same_outside v (pm_mem pm) (pm_mem pm'))).
Proof.
  intros Hinv. split.
  - destruct l as [|r l].
    + exists pm. by rewrite kalloc_nil.
    + destruct (kalloc_cons _ _ _ Hinv) as (pm' & ? & ? & _ & _ & ? & _).
      eauto.
  - intros v Hv. split.
    + rewrite <- (page_ok_guard v Hv). unfold kfree.
      destruct (_ || _); [|done]. split; [by intros _ ?|done].
    + intros Hp Hni. destruct (kfree_ok _ _ _ Hinv Hp Hni) as (pm' & ? & ? & _).
      exists pm'. split; [done|]. split; [done|]. by apply kfree_mem.
Qed.

(** ** Initialisation *)

Lemma pages_from_S p n :
  pages_from p (S n) = p :: pages_from (p + PGSIZE) n.
Proof.
  unfold pages_from. rewrite <- cons_seq, fmap_cons. f_equal; [lia|].
  rewrite <- fmap_S_seq, <- list_fmap_compose. apply list_fmap_ext.
  intros i x _. simpl. clia.
Qed.

Lemma elem_of_pages_from p n v :
  p mod PGSIZE = 0 ->
  v ∈ pages_from p n <->
  v mod PGSIZE = 0 /\ p <= v < p + Z.of_nat n * PGSIZE.
Proof.
  intros Hp. unfold pages_from. rewrite list_elem_of_fmap.
  setoid_rewrite elem_of_seq. split.
  - intros (i & -> & Hi). split; [|clia].
    rewrite Z.mod_add by done. done.
  - intros [Hv Hb]. exists (Z.to_nat ((v - p) / PGSIZE)).
    assert (Hd : (v - p) mod PGSIZE = 0)
      by (rewrite Zminus_mod, Hv, Hp; done).
    pose proof (Z.div_mod (v - p) PGSIZE ltac:(done)) as E.
    rewrite Hd in E. unfold PGSIZE in *.
    pose proof (Z.div_pos (v - p) 4096 ltac:(lia) ltac:(lia)). lia.
Qed.

Lemma freerange_loop_ok n fuel p vend pm l :
  kmem_inv pm l -> p mod PGSIZE = 0 -> img_end <= p ->
  p + Z.of_nat n * PGSIZE <= vend < p + Z.of_nat n * PGSIZE + PGSIZE ->
  vend <= KERNBASE + PHYSTOP -> (n <= fuel)%nat ->
  (forall v, v ∈ l -> ~ (p <= v < vend)) ->
  exists pm', freerange_loop fuel p vend pm = Ok (tt, pm') /\
    kmem_inv pm' (rev (pages_from p n) ++ l) /\ use_lock pm' = use_lock pm.
Proof.
  pose proof img_end_ok as He.
  revert fuel p pm l.
  induction n as [|n IH]; intros fuel p pm l Hinv Hp Hge Hv Hle Hf Hdis.
  - exists pm. destruct fuel; simpl;
      (rewrite u32_small by clia);
      (destruct (Z.leb_spec (p + PGSIZE) vend); [clia|done]).
  - destruct fuel as [|fuel]; [lia|]. cbn [freerange_loop].
    rewrite u32_small by clia.
    destruct (Z.leb_spec (p + PGSIZE) vend); [|clia].
    assert (page_ok p) by (repeat split; auto; clia).
    destruct (kfree_ok pm l p) as (pm1 & E1 & Hinv1 & Hu1); auto.
    { intros Hin. apply (Hdis p Hin). clia. }
    destruct (IH fuel (p + PGSIZE) pm1 (p :: l)) as (pm2 & E2 & Hinv2 & Hu2);
      auto; try clia.
    { rewrite <- Zplus_mod_idemp_l, Hp. done. }
    { intros v [->|Hin]%elem_of_cons; [clia|].
      specialize (Hdis v Hin). clia. }
    exists pm2. unfold bind. rewrite E1. split; [done|].
    rewrite pages_from_S. simpl rev. rewrite <- (assoc_L (++)). simpl.
    split; [done|]. congruence.
Qed.

Lemma freerange_ok vstart vend pm l :
  kmem_inv pm l -> img_end <= vstart <= vend ->
  vend <= KERNBASE + PHYSTOP -> vend mod PGSIZE = 0 ->
  (forall v, v ∈ l -> ~ (vstart <= v < vend)) ->
  exists pm' l', freerange vstart vend pm = Ok (tt, pm') /\ kmem_inv pm' l' /\
    use_lock pm' = use_lock pm /\
    forall v, v ∈ l' <-> v ∈ l \/ (v mod PGSIZE = 0 /\ vstart <= v < vend).
Proof.
  intros Hinv Hs Hle Hal Hdis. pose proof img_end_ok as He.
  pose proof (PGROUNDUP_spec vstart ltac:(clia)) as [Hup Hupal].
  set (p := PGROUNDUP vstart) in *.
  assert (Hpv : p <= vend).
  { unfold PGSIZE in *. pose proof (Z.div_mod p 4096 ltac:(lia)).
    pose proof (Z.div_mod vend 4096 ltac:(lia)). nia. }
  set (n := Z.to_nat ((vend - p) / PGSIZE)).
  assert (Hn : p + Z.of_nat n * PGSIZE = vend).
  { assert (Hd : (vend - p) mod PGSIZE = 0)
      by (rewrite Zminus_mod, Hal, Hupal; done).
    pose proof (Z.div_mod (vend - p) PGSIZE ltac:(done)).
    pose proof (Z.div_pos (vend - p) PGSIZE ltac:(lia) ltac:(done)).
    unfold n. rewrite Z2Nat.id by lia. lia. }
  destruct (freerange_loop_ok n (Z.to_nat (vend / PGSIZE)) p vend pm l)
    as (pm' & E & Hinv' & Hu); auto; try clia.
  { apply Z2Nat.inj_le; [apply Z.div_pos; clia..|].
    apply Z.div_le_mono; clia. }
  { intros v Hin. specialize (Hdis v Hin). lia. }
  exists pm', (rev (pages_from p n) ++ l). split; [done|].
  split; [done|]. split; [done|]. intros v.
  rewrite elem_of_app, list_elem_of_In, <- in_rev, <- list_elem_of_In.
  rewrite elem_of_pages_from by done. rewrite Hn.
  assert (v mod PGSIZE = 0 -> vstart <= v -> p <= v).
  { intros Hv Hvs. unfold PGSIZE in *. pose proof (Z.div_mod p 4096 ltac:(lia)).
    pose proof (Z.div_mod v 4096 ltac:(lia)). nia. }
  destruct (decide (v ∈ l)); [tauto|].
  split; [intros [?|?]; [right; lia|tauto]|intros [?|?]; [tauto|left; lia]].
Qed.

(** The two phases of [main]: the pages of the first four megabytes, then
    the rest of physical memory. *)
Definition init_memory : M pmem unit :=
  do! kinit1 img_end (P2V (4 * 1024 * 1024)) in
  kinit2 (P2V (4 * 1024 * 1024)) (P2V PHYSTOP).

(** After both initialisation phases the free list holds exactly the
    pages between [end] and the top of physical memory, each once, and the
    allocator takes its lock from then on. *)
Theorem init_memory_complete m :
  img_end <= P2V (4 * 1024 * 1024) ->
  exists pm l,
    init_memory {| pm_mem := m; freelist := 0; use_lock := false |}
    = Ok (tt, pm) /\
    kmem_inv pm l /\ use_lock pm = true /\ (forall v, v ∈ l <-> page_ok v).
Proof.
  intros Hend. pose proof img_end_ok as He.
  set (pm0 := {| pm_mem := m; freelist := 0; use_lock := false |}).
  assert (H0 : kmem_inv (set_use_lock false pm0) [])
    by (split; [done|constructor|constructor]).
  change (P2V (4 * 1024 * 1024)) with 0x80400000 in *.
  destruct (freerange_ok img_end 0x80400000 _ [] H0)
    as (pm1 & l1 & E1 & Hinv1 & _ & Hl1); [clia|clia|done|set_solver|].
  destruct (freerange_ok 0x80400000 (P2V PHYSTOP) pm1 l1 Hinv1)
    as (pm2 & l2 & E2 & Hinv2 & _ & Hl2);
    [by split|done|done| |].
  { intros v Hv%Hl1. destruct Hv as [Hv|Hv]; [set_solver|lia]. }
  exists (set_use_lock true pm2), l2.
  unfold init_memory, kinit1, kinit2, bind, modify.
  change (P2V (4 * 1024 * 1024)) with 0x80400000.
  rewrite E1, E2. split; [done|]. split; [by destruct Hinv2|].
  split; [done|]. intros v. rewrite Hl2, Hl1. unfold page_ok.
  change (P2V PHYSTOP) with (KERNBASE + PHYSTOP).
  split; [|intros (Hv1 & Hv2 & Hv3)].
  - intros [[?|?]|[Hv ?]]; [set_solver|clia|]. split; [done|].
    pose proof (Z.div_mod v PGSIZE ltac:(done)) as Hd. rewrite Hv in Hd.
    unfold PGSIZE, KERNBASE, PHYSTOP in *. lia.
  - destruct (decide (v < 0x80400000)); [left; right|right]; clia.
Qed.

End Kalloc.

Lemma kalloc_kfree_refine_witness :
  kfree (I := demo_image) 0x81000001
    {| pm_mem := ∅; freelist := 0; use_lock := false |} = Panic "kfree".
Proof.
  assert (H0 : kmem_inv (I := demo_image)
    {| pm_mem := ∅; freelist := 0; use_lock := false |} [])
    by (split; [reflexivity|constructor|constructor]).
  destruct (kalloc_kfree_refine (I := demo_image)
    (ImageOk0 := demo_image_ok) _ _ H0) as [_ H].
  apply (H 0x81000001); [lia|]. intros [Hm _]. vm_compute in Hm. lia.
Defined.

Lemma init_memory_complete_witness :
  exists pm l,
    init_memory (I := demo_image)
      {| pm_mem := ∅; freelist := 0; use_lock := false |} = Ok (tt, pm) /\
    kmem_inv (I := demo_image) pm l /\ use_lock pm = true /\
    (forall v, v ∈ l <-> page_ok (I := demo_image) v).
Proof.
  apply (init_memory_complete (I := demo_image)
    (ImageOk0 := demo_image_ok) ∅). vm_compute. congruence.
Defined.
