(* ===== verification/Vm.v ===== *)
(** * Virtual memory (vm.c)

    Two-level page tables in physical memory.  The definitions follow vm.c
    on the byte memory of [Memory] and the allocator of [Kalloc]; the
    abstract view is [pte_of], the page table entry of an address read
    through both levels, and [as_inv], which gives every page an address
    space owns exactly one role. *)

From S2P Require Import Prelude Param Memory Kalloc.

Definition load (a : Z) : M pmem Z := gets (fun pm => ld32 (pm_mem pm) a).
Definition store (a v : Z) : M pmem unit :=
  modify (fun pm => set_mem (st32 (pm_mem pm) a v) pm).
Definition mset (a c n : Z) : M pmem unit :=
  modify (fun pm => set_mem (Str.memset (pm_mem pm) a c n) pm).
Definition mmove (d s n : Z) : M pmem unit :=
  modify (fun pm => set_mem (Str.memmove (pm_mem pm) d s n) pm).

(** Bytes of a kernel buffer copied to memory at [a]. *)
Fixpoint st_bytes (m : mem) (a : Z) (l : list Z) : mem :=
  match l with
  | [] => m
  | b :: l => st_bytes (st8 m a b) (a + 1) l
  end.

Section Vm.
Context `{I : Image}.

Definition walkpgdir (pgdir va : Z) (alloc : bool) : M pmem Z :=
  let pde := u32 (pgdir + 4 * PDX va) in
  let! pdv := load pde in
  if has pdv PTE_P then
    let pgtab := P2V (PTE_ADDR pdv) in
    ret (u32 (pgtab + 4 * PTX va))
  else if negb alloc then ret 0
  else
    let! pgtab := kalloc in
    if pgtab =? 0 then ret 0
    else
      do! mset pgtab 0 PGSIZE in
      do! store pde (Z.lor (Z.lor (Z.lor (V2P pgtab) PTE_P) PTE_W) PTE_U) in
      ret (u32 (pgtab + 4 * PTX va)).

(** The loop of [mappages]; [true] is the return value 0, [false] is -1. *)
Fixpoint mappages_loop (fuel : nat) (pgdir a last pa perm : Z) : M pmem bool :=
  match fuel with
  | O => out_of_fuel
  | S f =>
      let! pte := walkpgdir pgdir a true in
      if pte =? 0 then ret false
      else
        let! v := load pte in
        if has v PTE_P then panic "remap"
        else
          do! store pte (Z.lor (Z.lor pa perm) PTE_P) in
          if a =? last then ret true
          else mappages_loop f pgdir (u32 (a + PGSIZE)) last
                 (u32 (pa + PGSIZE)) perm
  end.

Definition mappages (pgdir va size pa perm : Z) : M pmem bool :=
  let a := PGROUNDDOWN va in
  let last := PGROUNDDOWN (u32 (va + size - 1)) in
  mappages_loop (S (Z.to_nat (u32 (last - a) / PGSIZE))) pgdir a last pa perm.

(** ** Unmapping *)

Fixpoint deallocuvm_loop (fuel : nat) (pgdir a oldsz : Z) : M pmem unit :=
  if a <? oldsz then
    match fuel with
    | O => out_of_fuel
    | S f =>
        let! pte := walkpgdir pgdir a false in
        if pte =? 0 then
          let a := u32 (PGADDR (PDX a + 1) 0 0 - PGSIZE) in
          deallocuvm_loop f pgdir (u32 (a + PGSIZE)) oldsz
        else
          let! v := load pte in
          do! (if has v PTE_P then
                 let pa := PTE_ADDR v in
                 if pa =? 0 then panic "kfree"
                 else do! kfree (P2V pa) in store pte 0
               else ret tt) in
          deallocuvm_loop f pgdir (u32 (a + PGSIZE)) oldsz
    end
  else ret tt.

Definition deallocuvm (pgdir oldsz newsz : Z) : M pmem Z :=
  if oldsz <=? newsz then ret oldsz
  else
    do! deallocuvm_loop (S (Z.to_nat (oldsz / PGSIZE))) pgdir
          (PGROUNDUP newsz) oldsz in
    ret newsz.

(** The second loop of [freevm], over the entries from [i] on. *)
Fixpoint freevm_loop (n : nat) (pgdir i : Z) : M pmem unit :=
  match n with
  | O => ret tt
  | S n =>
      let! v := load (u32 (pgdir + 4 * i)) in
      do! (if has v PTE_P then kfree (P2V (PTE_ADDR v)) else ret tt) in
      freevm_loop n pgdir (i + 1)
  end.

Definition freevm (pgdir : Z) : M pmem unit :=
  if pgdir =? 0 then panic "freevm: no pgdir"
  else
    do! deallocuvm pgdir KERNBASE 0 in
    do! freevm_loop (Z.to_nat NPDENTRIES) pgdir 0 in
    kfree pgdir.

(** ** Kernel mappings *)

Record kmap := { virt : Z; phys_start : Z; phys_end : Z; kperm : Z }.

Definition kmaps : list kmap :=
  [ {| virt := KERNBASE; phys_start := 0; phys_end := EXTMEM; kperm := PTE_W |};
    {| virt := KERNLINK; phys_start := V2P KERNLINK;
       phys_end := V2P img_data; kperm := 0 |};
    {| virt := img_data; phys_start := V2P img_data; phys_end := PHYSTOP;
       kperm := PTE_W |};
    {| virt := DEVSPACE; phys_start := DEVSPACE; phys_end := 0;
       kperm := PTE_W |} ].

Fixpoint setupkvm_loop (pgdir : Z) (ks : list kmap) : M pmem Z :=
  match ks with
  | [] => ret pgdir
  | k :: ks =>
      let! ok := mappages pgdir (virt k) (u32 (phys_end k - phys_start k))
                   (phys_start k) (kperm k) in
      if ok then setupkvm_loop pgdir ks
      else do! freevm pgdir in ret 0
  end.

Definition setupkvm : M pmem Z :=
  let! pgdir := kalloc in
  if pgdir =? 0 then ret 0
  else
    do! mset pgdir 0 PGSIZE in
    if DEVSPACE <? P2V PHYSTOP then panic "PHYSTOP too high"
    else setupkvm_loop pgdir kmaps.

(** ** User memory *)

(** [kalloc] can return 0 here, and the code writes through it. *)
Definition inituvm (pgdir : Z) (init : list Z) : M pmem unit :=
  if PGSIZE <=? Z.of_nat (length init) then panic "inituvm: more than a page"
  else
    let! mem := kalloc in
    if mem =? 0 then fault else
    do! mset mem 0 PGSIZE in
    do! mappages pgdir 0 PGSIZE (V2P mem) (Z.lor PTE_W PTE_U) in
    modify (fun pm => set_mem (st_bytes (pm_mem pm) mem init) pm).

Fixpoint allocuvm_loop (fuel : nat) (pgdir a oldsz newsz : Z) : M pmem Z :=
  if a <? newsz then
    match fuel with
    | O => out_of_fuel
    | S f =>
        let! mem := kalloc in
        if mem =? 0 then
          do! deallocuvm pgdir newsz oldsz in ret 0
        else
          do! mset mem 0 PGSIZE in
          let! ok := mappages pgdir a PGSIZE (V2P mem) (Z.lor PTE_W PTE_U) in
          if ok then allocuvm_loop f pgdir (u32 (a + PGSIZE)) oldsz newsz
          else
            do! deallocuvm pgdir newsz oldsz in
            do! kfree mem in
            ret 0
    end
  else ret newsz.

Definition allocuvm (pgdir oldsz newsz : Z) : M pmem Z :=
  if KERNBASE <=? newsz then ret 0
  else if newsz <? oldsz then ret oldsz
  else allocuvm_loop (S (Z.to_nat (newsz / PGSIZE))) pgdir (PGROUNDUP oldsz)
         oldsz newsz.

Definition clearpteu (pgdir uva : Z) : M pmem unit :=
  let! pte := walkpgdir pgdir uva false in
  if pte =? 0 then panic "clearpteu"
  else let! v := load pte in store pte (Z.land v (Z.lnot PTE_U)).

Fixpoint copyuvm_loop (fuel : nat) (pgdir d i sz : Z) : M pmem Z :=
  if i <? sz then
    match fuel with
    | O => out_of_fuel
    | S f =>
        let! pte := walkpgdir pgdir i false in
        if pte =? 0 then panic "copyuvm: pte should exist"
        else
          let! v := load pte in
          if negb (has v PTE_P) then panic "copyuvm: page not present"
          else
            let pa := PTE_ADDR v in
            let flags := PTE_FLAGS v in
            let! mem := kalloc in
            if mem =? 0 then do! freevm d in ret 0
            else
              do! mmove mem (P2V pa) PGSIZE in
              let! ok := mappages d i PGSIZE (V2P mem) flags in
              if ok then copyuvm_loop f pgdir d (u32 (i + PGSIZE)) sz
              else
                do! kfree mem in
                do! freevm d in
                ret 0
    end
  else ret d.

Definition copyuvm (pgdir sz : Z) : M pmem Z :=
  let! d := setupkvm in
  if d =? 0 then ret 0
  else copyuvm_loop (S (Z.to_nat (sz / PGSIZE))) pgdir d 0 sz.

(** [walkpgdir] can return 0 here, and the code dereferences it. *)
Definition uva2ka (pgdir uva : Z) : M pmem Z :=
  let! pte := walkpgdir pgdir uva false in
  if pte =? 0 then fault
  else
    let! v := load pte in
    if negb (has v PTE_P) then ret 0
    else if negb (has v PTE_U) then ret 0
    else ret (P2V (PTE_ADDR v)).

(** [copyout] of the bytes [buf]; [true] is 0 and [false] is -1. *)
Fixpoint copyout_loop (fuel : nat) (pgdir va : Z) (buf : list Z) (len : Z)
  : M pmem bool :=
  if 0 <? len then
    match fuel with
    | O => out_of_fuel
    | S f =>
        let va0 := PGROUNDDOWN va in
        let! pa0 := uva2ka pgdir va0 in
        if pa0 =? 0 then ret false
        else
          let n := PGSIZE - (va - va0) in
          let n := if n >? len then len else n in
          do! modify (fun pm =>
                set_mem (st_bytes (pm_mem pm) (pa0 + (va - va0))
                           (take (Z.to_nat n) buf)) pm) in
          copyout_loop f pgdir (u32 (va0 + PGSIZE)) (drop (Z.to_nat n) buf)
            (len - n)
    end
  else ret true.

Definition copyout (pgdir va : Z) (buf : list Z) (len : Z) : M pmem bool :=
  copyout_loop (S (Z.to_nat (len / PGSIZE + 1))) pgdir va buf len.

End Vm.
