(* ===== verification/VmInv.v ===== *)
(** * Address space invariant

    The abstract view of a page table and the invariant of an address
    space: every page that belongs to it has one role (page directory, page
    table number [i], or the frame of one user address), memory agrees with
    the roles, and no page of it is free. *)

From S2P Require Import Prelude Param Memory Kalloc Vm.

(** ** The abstract view *)

(** Page table page of directory entry [i], if present. *)
Definition tab_of (m : mem) (pgdir i : Z) : option Z :=
  let w := ld32 m (pgdir + 4 * i) in
  if has w PTE_P then Some (P2V (PTE_ADDR w)) else None.

(** The page table entry of [va], 0 when there is no table for it. *)
Definition pte_of (m : mem) (pgdir va : Z) : Z :=
  match tab_of m pgdir (PDX va) with
  | Some t => ld32 m (t + 4 * PTX va)
  | None => 0
  end.

(** The page [va] is mapped to, as a kernel address. *)
Definition frame_of (m : mem) (pgdir va : Z) : option Z :=
  let w := pte_of m pgdir va in
  if has w PTE_P then Some (P2V (PTE_ADDR w)) else None.

(** A page-aligned user address. *)
Definition uaddr (va : Z) : Prop := va mod PGSIZE = 0 /\ 0 <= va < KERNBASE.

Inductive prole := RDir | RTab (i : Z) | RFrame (va : Z).

Section VmInv.
Context `{I : Image}.

Record as_inv (pm : pmem) (l : list Z) (pgdir : Z) (G : gmap Z prole)
  : Prop := {
  as_kmem : kmem_inv pm l;
  as_pages : forall f r, G !! f = Some r -> page_ok f /\ f ∉ l;
  as_dir : forall f, G !! f = Some RDir <-> f = pgdir;
  as_tab : forall i t, 0 <= i < NPDENTRIES ->
    tab_of (pm_mem pm) pgdir i = Some t <-> G !! t = Some (RTab i);
  as_tab_range : forall i t, G !! t = Some (RTab i) -> 0 <= i < NPDENTRIES;
  as_frame : forall va f, uaddr va ->
    frame_of (pm_mem pm) pgdir va = Some f <-> G !! f = Some (RFrame va);
  as_frame_range : forall va f, G !! f = Some (RFrame va) -> uaddr va
}.

(** Memory is unchanged outside the pages of [P]. *)
Definition same_except (P : Z -> Prop) (m m' : mem) : Prop :=
  forall a, (forall p, page_ok p -> p <= a < p + PGSIZE -> ~ P p) ->
            ld8 m' a = ld8 m a.

(** The pages that mapping a page can write: free pages, and the directory
    and tables of the address space. *)
Definition structural (l : list Z) (G : gmap Z prole) (p : Z) : Prop :=
  p ∈ l \/ G !! p = Some RDir \/ exists i, G !! p = Some (RTab i).

Context `{!ImageOk I}.

(** ** Flags and addresses *)

Lemma has_P w : has w PTE_P = Z.testbit w 0.
Proof. apply (has_bit w 0). lia. Qed.

Lemma has_P_lor x : has (Z.lor x PTE_P) PTE_P = true.
Proof. rewrite has_P, Z.lor_spec. apply orb_true_r. Qed.

Lemma has_0 f : has 0 f = false.
Proof. done. Qed.

Lemma page_V2P f :
  page_ok f ->
  V2P f = f - KERNBASE /\ V2P f mod PGSIZE = 0 /\ 0 < V2P f < 2 ^ 31 /\
  P2V (V2P f) = f.
Proof.
  intros Hf. pose proof (page_range f Hf) as Hr. destruct Hf as [Ha [He Ht]].
  unfold P2V, V2P. rewrite (u32_small (f - KERNBASE)) by clia.
  rewrite u32_small by clia. pose proof img_end_ok.
  repeat split; try clia. rewrite Zminus_mod, Ha. done.
Qed.

(** A page table entry that maps the page [f]. *)
Lemma pte_bounds f perm :
  page_ok f -> 0 <= perm < PGSIZE ->
  exists k, Z.lor (Z.lor (V2P f) perm) PTE_P = V2P f + k /\ 0 <= k < PGSIZE /\
            k = Z.lor perm PTE_P.
Proof.
  intros Hf Hp. pose proof (page_V2P f Hf) as (_ & Hal & _ & _).
  exists (Z.lor perm PTE_P).
  assert (Hk : 0 <= Z.lor perm PTE_P < PGSIZE).
  { split; [apply Z.lor_nonneg; clia|]. unfold PGSIZE in *.
    destruct (decide (perm = 0)) as [->|]; [done|].
    apply (Z.log2_lt_pow2 _ 12).
    - assert (0 < Z.lor perm PTE_P); [|done].
      assert (0 <= Z.lor perm PTE_P) by (apply Z.lor_nonneg; clia).
      destruct (decide (Z.lor perm PTE_P = 0)) as [H0|]; [|lia].
      apply Z.lor_eq_0_iff in H0. lia.
    - rewrite Z.log2_lor by clia. apply Z.max_lub_lt; [|done].
      apply Z.log2_lt_pow2; lia. }
  split; [|done]. rewrite <- Z.lor_assoc. by apply lor_aligned.
Qed.

Lemma pte_value f perm :
  page_ok f -> 0 <= perm < PGSIZE ->
  let w := Z.lor (Z.lor (V2P f) perm) PTE_P in
  0 <= w < 2 ^ 32 /\ has w PTE_P = true /\ P2V (PTE_ADDR w) = f /\
  PTE_FLAGS w = Z.lor perm PTE_P.
Proof.
  intros Hf Hp w. pose proof (page_V2P f Hf) as (_ & Hal & Hb & Hpv).
  destruct (pte_bounds f perm Hf Hp) as (k & Hw & Hk & Hk').
  split; [subst w; rewrite Hw; clia|].
  split; [apply has_P_lor|].
  subst w. rewrite <- Z.lor_assoc, <- Hk'.
  rewrite PTE_ADDR_lor, PTE_FLAGS_lor by done. done.
Qed.

(** The value [walkpgdir] stores in a directory entry. *)
Lemma pde_value t :
  page_ok t ->
  let w := Z.lor (Z.lor (Z.lor (V2P t) PTE_P) PTE_W) PTE_U in
  0 <= w < 2 ^ 32 /\ has w PTE_P = true /\ P2V (PTE_ADDR w) = t.
Proof.
  intros Ht w.
  assert (w = Z.lor (Z.lor (V2P t) 6) PTE_P) as ->.
  { subst w. unfold PTE_P, PTE_W, PTE_U. rewrite <- !Z.lor_assoc. done. }
  pose proof (pte_value t 6 Ht ltac:(done)) as (? & ? & ? & _). done.
Qed.

(** ** Frames of memory *)

Lemma page_unique p q a :
  page_ok p -> page_ok q -> p <= a < p + PGSIZE -> q <= a < q + PGSIZE ->
  p = q.
Proof.
  intros Hp Hq Hpa Hqa. destruct (decide (p = q)); [done|].
  by destruct (page_disjoint p q a).
Qed.

Lemma same_except_weaken (P Q : Z -> Prop) m m' :
  same_except P m m' -> (forall p, P p -> Q p) -> same_except Q m m'.
Proof. intros H HPQ a Ha. apply H. intros p Hp Hpa HP. by eapply Ha; eauto. Qed.

Lemma same_except_refl P m : same_except P m m.
Proof. by intros a _. Qed.

Lemma same_except_trans P m1 m2 m3 :
  same_except P m1 m2 -> same_except P m2 m3 -> same_except P m1 m3.
Proof. intros H1 H2 a Ha. by rewrite H2, H1. Qed.

Lemma same_except_ld8 P m m' q o :
  same_except P m m' -> page_ok q -> ~ P q -> 0 <= o < PGSIZE ->
  ld8 m' (q + o) = ld8 m (q + o).
Proof.
  intros Hs Hq HP Ho. apply Hs. intros p Hp Hpa HPp.
  rewrite (page_unique p q (q + o)) in HPp by (done || clia). done.
Qed.

Lemma same_except_ld32 P m m' q o :
  same_except P m m' -> page_ok q -> ~ P q -> 0 <= o <= PGSIZE - 4 ->
  ld32 m' (q + o) = ld32 m (q + o).
Proof.
  intros Hs Hq HP Ho. apply ld32_ext. intros i Hi.
  rewrite <- Z.add_assoc. apply (same_except_ld8 P); auto. lia.
Qed.

Lemma st32_same_except m p o v :
  page_ok p -> 0 <= o <= PGSIZE - 4 -> same_except (eq p) m (st32 m (p + o) v).
Proof.
  intros Hp Ho a Ha. apply ld8_st32_ne. intros Hin.
  apply (Ha p); [done|clia|done].
Qed.

Lemma memset_same_except m p c :
  page_ok p -> same_except (eq p) m (Str.memset m p c PGSIZE).
Proof.
  intros Hp a Ha. pose proof (page_range p Hp).
  rewrite memset_spec by clia. rewrite decide_False; [done|].
  intros Hin. by apply (Ha p).
Qed.

Lemma kfree_same_except v pm pm' :
  page_ok v -> kfree v pm = Ok (tt, pm') ->
  same_except (eq v) (pm_mem pm) (pm_mem pm').
Proof.
  intros Hv E a Ha. apply (kfree_mem _ _ _ Hv E). intros Hin.
  by apply (Ha v).
Qed.

Lemma ld32_st32_word m p q i j v :
  page_ok p -> page_ok q -> 0 <= i < NPTENTRIES -> 0 <= j < NPTENTRIES ->
  p <> q \/ i <> j ->
  ld32 (st32 m (p + 4 * i) v) (q + 4 * j) = ld32 m (q + 4 * j).
Proof.
  intros Hp Hq Hi Hj Hne. destruct (decide (p = q)) as [->|Hpq].
  - apply ld32_st32_ne. lia.
  - apply (same_except_ld32 (eq p)); auto; [|clia].
    apply st32_same_except; [done|clia].
Qed.

Lemma kmem_inv_except P pm l m' :
  kmem_inv pm l -> same_except P (pm_mem pm) m' -> (forall p, p ∈ l -> ~ P p) ->
  kmem_inv (set_mem m' pm) l.
Proof.
  intros [Hc Hn Hp] Hs HP. split; [|done..]. simpl.
  eapply chain_frame; [exact Hc|]. intros r Hr.
  rewrite <- (Z.add_0_r r). rewrite Forall_forall in Hp.
  eapply same_except_ld32; eauto. clia.
Qed.

(** ** The view of an address space under memory updates *)

Lemma as_dir_page pm l pgdir G :
  as_inv pm l pgdir G -> page_ok pgdir /\ pgdir ∉ l.
Proof.
  intros H. apply (as_pages _ _ _ _ H pgdir RDir).
  by apply (as_dir _ _ _ _ H).
Qed.

Lemma as_tab_page pm l pgdir G i t :
  as_inv pm l pgdir G -> 0 <= i < NPDENTRIES ->
  tab_of (pm_mem pm) pgdir i = Some t ->
  page_ok t /\ (t ∉ l) /\ t <> pgdir /\ G !! t = Some (RTab i).
Proof.
  intros H Hi Ht. apply (as_tab _ _ _ _ H) in Ht; [|done].
  pose proof (as_pages _ _ _ _ H _ _ Ht) as [? ?].
  split_and!; auto. intros ->.
  pose proof (proj2 (as_dir _ _ _ _ H pgdir) eq_refl). congruence.
Qed.

Lemma view_except P pm l pgdir G m' :
  as_inv pm l pgdir G -> same_except P (pm_mem pm) m' ->
  (forall p, P p -> G !! p <> Some RDir /\ forall i, G !! p <> Some (RTab i)) ->
  (forall i, 0 <= i < NPDENTRIES ->
     tab_of m' pgdir i = tab_of (pm_mem pm) pgdir i) /\
  (forall va, 0 <= va < 2 ^ 32 ->
     pte_of m' pgdir va = pte_of (pm_mem pm) pgdir va).
Proof.
  intros H Hs HP. destruct (as_dir_page _ _ _ _ H) as [Hd _].
  assert (Htab : forall i, 0 <= i < NPDENTRIES ->
    tab_of m' pgdir i = tab_of (pm_mem pm) pgdir i).
  { intros i Hi. unfold tab_of. rewrite (same_except_ld32 P (pm_mem pm)); auto.
    - intros HPd. apply (HP pgdir HPd). by apply (as_dir _ _ _ _ H).
    - clia. }
  split; [done|]. intros va Hva. unfold pte_of.
  pose proof (PDX_range va Hva) as Hx. pose proof (PTX_range va).
  rewrite Htab by done.
  destruct (tab_of (pm_mem pm) pgdir (PDX va)) as [t|] eqn:Et; [|done].
  destruct (as_tab_page _ _ _ _ _ _ H Hx Et) as (Ht & _ & _ & Hr).
  apply (same_except_ld32 P); auto; [|clia].
  intros HPt. by apply (HP t HPt) in Hr.
Qed.

Lemma frame_ext m m' pgdir va :
  pte_of m' pgdir va = pte_of m pgdir va ->
  frame_of m' pgdir va = frame_of m pgdir va.
Proof. unfold frame_of. by intros ->. Qed.

Lemma uaddr_range va : uaddr va -> 0 <= va < 2 ^ 32.
Proof. intros [_ H]. clia. Qed.

Lemma as_inv_except P pm l pgdir G m' :
  as_inv pm l pgdir G -> same_except P (pm_mem pm) m' ->
  (forall p, P p -> ~ structural l G p) ->
  as_inv (set_mem m' pm) l pgdir G.
Proof.
  intros H Hs HP.
  destruct (view_except P _ _ _ _ _ H Hs) as [Htab Hpte].
  { intros p Hp. apply HP in Hp. unfold structural in Hp.
    split; [naive_solver|]. intros i Hi. apply Hp. eauto. }
  split; simpl.
  - eapply kmem_inv_except; [by apply H|done|]. intros p Hp HPp.
    apply (HP p HPp). by left.
  - apply H.
  - apply H.
  - intros i t Hi. rewrite Htab by done. by apply H.
  - apply H.
  - intros va f Hva. erewrite frame_ext; [by apply H|].
    apply Hpte. by apply uaddr_range.
  - apply H.
Qed.

(** Storing a page table entry changes the entry of one address. *)
Lemma view_st_pte pm l pgdir G va t w :
  as_inv pm l pgdir G -> 0 <= va < 2 ^ 32 -> va mod PGSIZE = 0 ->
  tab_of (pm_mem pm) pgdir (PDX va) = Some t -> 0 <= w < 2 ^ 32 ->
  let m' := st32 (pm_mem pm) (t + 4 * PTX va) w in
  (forall i, 0 <= i < NPDENTRIES ->
     tab_of m' pgdir i = tab_of (pm_mem pm) pgdir i) /\
  pte_of m' pgdir va = w /\
  (forall va', 0 <= va' < 2 ^ 32 -> va' mod PGSIZE = 0 -> va' <> va ->
     pte_of m' pgdir va' = pte_of (pm_mem pm) pgdir va').
Proof.
  intros H Hva Hal Et Hw m'. destruct (as_dir_page _ _ _ _ H) as [Hd _].
  pose proof (PDX_range va Hva) as Hx. pose proof (PTX_range va) as Hy.
  destruct (as_tab_page _ _ _ _ _ _ H Hx Et) as (Ht & _ & Htd & Hrole).
  assert (Htab : forall i, 0 <= i < NPDENTRIES ->
    tab_of m' pgdir i = tab_of (pm_mem pm) pgdir i).
  { intros i Hi. unfold tab_of, m'. rewrite ld32_st32_word; auto. }
  split; [done|]. unfold pte_of. split.
  - rewrite Htab, Et by done. unfold m'. rewrite ld32_st32_eq.
    by apply u32_small.
  - intros va' Hva' Hal' Hne. pose proof (PDX_range va' Hva') as Hx'.
    rewrite Htab by done.
    destruct (tab_of (pm_mem pm) pgdir (PDX va')) as [t'|] eqn:Et'; [|done].
    destruct (as_tab_page _ _ _ _ _ _ H Hx' Et') as (Ht' & _ & _ & Hrole').
    apply ld32_st32_word; auto; [apply PTX_range|].
    destruct (decide (t = t')) as [<-|]; [|by left]. right.
    assert (PDX va = PDX va') as HX by congruence. intros HY. apply Hne.
    rewrite (va_split va'), (va_split va) by done. rewrite HX, HY. lia.
Qed.

(** ** Walking the page directory *)

Lemma tab_addr_small t va :
  page_ok t -> u32 (t + 4 * PTX va) = t + 4 * PTX va.
Proof.
  intros Ht. pose proof (page_range t Ht). pose proof (PTX_range va).
  apply u32_small. clia.
Qed.

Lemma dir_addr_small d va :
  page_ok d -> 0 <= va < 2 ^ 32 -> u32 (d + 4 * PDX va) = d + 4 * PDX va.
Proof.
  intros Hd Hva. pose proof (page_range d Hd). pose proof (PDX_range va Hva).
  apply u32_small. clia.
Qed.

Lemma walk_present pm l pgdir G va t alloc :
  as_inv pm l pgdir G -> 0 <= va < 2 ^ 32 ->
  tab_of (pm_mem pm) pgdir (PDX va) = Some t ->
  walkpgdir pgdir va alloc pm = Ok (t + 4 * PTX va, pm).
Proof.
  intros H Hva Et. destruct (as_dir_page _ _ _ _ H) as [Hd _].
  pose proof (as_tab_page _ _ _ _ _ _ H (PDX_range va Hva) Et) as (Ht & _).
  unfold walkpgdir, bind, load, gets. rewrite dir_addr_small by done.
  unfold tab_of in Et. destruct (has _ PTE_P); [|done].
  injection Et as Et. rewrite Et. by rewrite tab_addr_small.
Qed.

Lemma walk_absent pm l pgdir G va :
  as_inv pm l pgdir G -> 0 <= va < 2 ^ 32 ->
  tab_of (pm_mem pm) pgdir (PDX va) = None ->
  walkpgdir pgdir va false pm = Ok (0, pm).
Proof.
  intros H Hva Et. destruct (as_dir_page _ _ _ _ H) as [Hd _].
  unfold walkpgdir, bind, load, gets. rewrite dir_addr_small by done.
  unfold tab_of in Et. by destruct (has _ PTE_P).
Qed.

Lemma walk_full pm pgdir G va :
  as_inv pm [] pgdir G -> 0 <= va < 2 ^ 32 ->
  tab_of (pm_mem pm) pgdir (PDX va) = None ->
  walkpgdir pgdir va true pm = Ok (0, pm).
Proof.
  intros H Hva Et. destruct (as_dir_page _ _ _ _ H) as [Hd _].
  unfold walkpgdir, bind, load, gets. rewrite dir_addr_small by done.
  unfold tab_of in Et. destruct (has _ PTE_P); [done|]. simpl.
  rewrite kalloc_nil by apply H. done.
Qed.

Lemma ld32_memset0 m p o :
  page_ok p -> 0 <= o <= PGSIZE - 4 ->
  ld32 (Str.memset m p 0 PGSIZE) (p + o) = 0.
Proof.
  intros Hp Ho. pose proof (page_range p Hp).
  transitivity (ld32 ∅ (p + o)); [|done].
  apply ld32_ext. intros i Hi. rewrite memset_spec by clia.
  by rewrite decide_True by clia.
Qed.

Lemma as_free pm l pgdir G p : as_inv pm l pgdir G -> p ∈ l -> G !! p = None.
Proof.
  intros H Hp. destruct (G !! p) as [r|] eqn:E; [|done].
  by apply (as_pages _ _ _ _ H) in E as [_ ?].
Qed.

(** Memory after [walkpgdir] has installed the new page table [t]. *)
Definition new_table (m : mem) (pgdir i t : Z) : mem :=
  st32 (Str.memset m t 0 PGSIZE) (pgdir + 4 * i)
    (Z.lor (Z.lor (Z.lor (V2P t) PTE_P) PTE_W) PTE_U).

Lemma new_table_except m pgdir i t :
  page_ok pgdir -> page_ok t -> 0 <= i < NPDENTRIES ->
  same_except (fun p => p = t \/ p = pgdir) m (new_table m pgdir i t).
Proof.
  intros Hd Ht Hi. unfold new_table.
  eapply same_except_trans; eapply same_except_weaken.
  - by apply memset_same_except.
  - intros p <-. by left.
  - apply st32_same_except; [done|clia].
  - intros p <-. by right.
Qed.

Lemma new_table_view pm t l pgdir G i :
  as_inv pm (t :: l) pgdir G -> 0 <= i < NPDENTRIES ->
  tab_of (pm_mem pm) pgdir i = None ->
  let m' := new_table (pm_mem pm) pgdir i t in
  tab_of m' pgdir i = Some t /\
  (forall j, 0 <= j < NPDENTRIES -> j <> i ->
     tab_of m' pgdir j = tab_of (pm_mem pm) pgdir j) /\
  (forall va, 0 <= va < 2 ^ 32 ->
     pte_of m' pgdir va = pte_of (pm_mem pm) pgdir va).
Proof.
  intros H Hi Et m'. destruct (as_dir_page _ _ _ _ H) as [Hd Hdl].
  assert (Ht : page_ok t).
  { destruct (as_kmem _ _ _ _ H) as [_ _ Hp].
    by apply Forall_cons in Hp as [? _]. }
  assert (Htd : t <> pgdir) by set_solver.
  destruct (pde_value t Ht) as (Hw & HwP & Hwa).
  assert (Hi' : tab_of m' pgdir i = Some t).
  { unfold tab_of, m', new_table. rewrite ld32_st32_eq, u32_small by done.
    by rewrite HwP, Hwa. }
  assert (Hj : forall j, 0 <= j < NPDENTRIES -> j <> i ->
    tab_of m' pgdir j = tab_of (pm_mem pm) pgdir j).
  { intros j Hj Hji. unfold tab_of, m', new_table.
    rewrite ld32_st32_word by (done || clia || auto).
    rewrite (same_except_ld32 (eq t) (pm_mem pm)); auto; [|clia].
    by apply memset_same_except. }
  split; [done|]. split; [done|]. intros va Hva. unfold pte_of.
  pose proof (PDX_range va Hva) as Hx. pose proof (PTX_range va) as Hy.
  destruct (decide (PDX va = i)) as [->|Hne].
  - rewrite Hi', Et. unfold m', new_table.
    rewrite ld32_st32_word by (done || auto).
    apply ld32_memset0; [done|clia].
  - rewrite Hj by done.
    destruct (tab_of (pm_mem pm) pgdir (PDX va)) as [t'|] eqn:Et'; [|done].
    destruct (as_tab_page _ _ _ _ _ _ H Hx Et') as (Ht' & Hl' & Hd' & _).
    apply (same_except_ld32 (fun p => p = t \/ p = pgdir)); auto;
      [by apply new_table_except| |clia].
    intros [->| ->]; set_solver.
Qed.

Lemma walk_new pm t l pgdir G va :
  as_inv pm (t :: l) pgdir G -> 0 <= va < 2 ^ 32 ->
  tab_of (pm_mem pm) pgdir (PDX va) = None ->
  exists pm', walkpgdir pgdir va true pm = Ok (t + 4 * PTX va, pm') /\
    pm_mem pm' = new_table (pm_mem pm) pgdir (PDX va) t /\
    as_inv pm' l pgdir (<[t := RTab (PDX va)]> G).
Proof.
  intros H Hva Et. destruct (as_dir_page _ _ _ _ H) as [Hd Hdl].
  pose proof (PDX_range va Hva) as Hx.
  destruct (kalloc_cons _ _ _ (as_kmem _ _ _ _ H))
    as (pm1 & E1 & Hk1 & Ht & Htl & Hm1 & _).
  pose proof (as_free _ _ _ _ t H ltac:(set_solver)) as HGt.
  destruct (new_table_view _ _ _ _ _ _ H Hx Et) as (Hti & Htj & Hpte).
  exists (set_mem (new_table (pm_mem pm) pgdir (PDX va) t) pm1).
  split; [|split; [done|]].
  { unfold walkpgdir, bind, load, gets. rewrite dir_addr_small by done.
    pose proof Et as Et0. unfold tab_of in Et0.
    destruct (has _ PTE_P); [done|]. simpl. rewrite E1.
    pose proof (page_range t Ht).
    destruct (Z.eqb_spec t 0); [clia|]. unfold mset, store, modify. simpl.
    rewrite Hm1, tab_addr_small by done. done. }
  split; simpl.
  - eapply kmem_inv_except; [done| |].
    + rewrite Hm1. by apply new_table_except.
    + intros p Hp [->| ->]; set_solver.
  - intros f r [[<- <-]|[Hne Hf]]%lookup_insert_Some; [done|].
    apply (as_pages _ _ _ _ H) in Hf as [? ?]. set_solver.
  - intros f. rewrite lookup_insert_Some, <- (as_dir _ _ _ _ H f).
    split; [naive_solver|]. intros Hf. right. split; [congruence|done].
  - intros j t' Hj. rewrite lookup_insert_Some.
    destruct (decide (j = PDX va)) as [->|Hne].
    + rewrite Hti. split; [naive_solver|].
      intros [[? _]|[_ Hf]]; [congruence|].
      apply (as_tab _ _ _ _ H) in Hf; [congruence|done].
    + rewrite Htj, (as_tab _ _ _ _ H) by done.
      split; [|naive_solver]. intros Hf. right. split; [congruence|done].
  - intros j t' [[_ [= <-]]|[_ Hf]]%lookup_insert_Some; [done|].
    by eapply as_tab_range.
  - intros va' f Hva'. erewrite frame_ext by by apply Hpte, uaddr_range.
    rewrite (as_frame _ _ _ _ H), lookup_insert_Some by done.
    split; [|naive_solver]. intros Hf. right. split; [congruence|done].
  - intros va' f [[_ [=]]|[_ Hf]]%lookup_insert_Some.
    by eapply as_frame_range.
Qed.

(** ** Mapping and unmapping one page *)

Lemma frame_pte_none m pgdir va :
  frame_of m pgdir va = None <-> has (pte_of m pgdir va) PTE_P = false.
Proof. unfold frame_of. by destruct (has _ _). Qed.

Lemma as_st_pte_kmem pm l pgdir G i t j w :
  as_inv pm l pgdir G -> G !! t = Some (RTab i) -> 0 <= j < NPTENTRIES ->
  kmem_inv (set_mem (st32 (pm_mem pm) (t + 4 * j) w) pm) l.
Proof.
  intros H Hr Hj. apply (as_pages _ _ _ _ H) in Hr as [Ht Hl].
  eapply kmem_inv_except; [apply H|apply st32_same_except; [done|clia]|].
  intros p Hp <-. done.
Qed.

Lemma as_map pm l pgdir G va t f w :
  as_inv pm l pgdir G -> uaddr va ->
  tab_of (pm_mem pm) pgdir (PDX va) = Some t ->
  frame_of (pm_mem pm) pgdir va = None ->
  page_ok f -> f ∉ l -> G !! f = None ->
  0 <= w < 2 ^ 32 -> has w PTE_P = true -> P2V (PTE_ADDR w) = f ->
  as_inv (set_mem (st32 (pm_mem pm) (t + 4 * PTX va) w) pm) l pgdir
    (<[f := RFrame va]> G).
Proof.
  intros H Hu Et Hno Hf Hfl HGf Hw HwP Hwa.
  pose proof (uaddr_range va Hu) as Hva. pose proof (PDX_range va Hva) as Hx.
  destruct (as_tab_page _ _ _ _ _ _ H Hx Et) as (Ht & Htl & Htd & Hr).
  destruct (view_st_pte _ _ _ _ _ _ w H Hva (proj1 Hu) Et Hw)
    as (Htab & Hpte & Hpte').
  split; simpl.
  - eapply as_st_pte_kmem; eauto. apply PTX_range.
  - intros g r [[<- <-]|[Hne Hg]]%lookup_insert_Some; [done|].
    by apply (as_pages _ _ _ _ H) in Hg.
  - intros g. rewrite lookup_insert_Some, <- (as_dir _ _ _ _ H g).
    split; [naive_solver|]. intros Hg. right. split; [congruence|done].
  - intros i t' Hi. rewrite Htab, (as_tab _ _ _ _ H), lookup_insert_Some
      by done.
    split; [|naive_solver]. intros Hg. right. split; [congruence|done].
  - intros i t' [[_ [=]]|[_ Hg]]%lookup_insert_Some. by eapply as_tab_range.
  - intros va' g Hu'. rewrite lookup_insert_Some.
    destruct (decide (va' = va)) as [->|Hne].
    + unfold frame_of. rewrite Hpte, HwP, Hwa. split; [naive_solver|].
      intros [[-> _]|[_ Hg]]; [done|].
      apply (as_frame _ _ _ _ H) in Hg; [congruence|done].
    + erewrite frame_ext; [|apply Hpte'; auto; [by apply uaddr_range|apply Hu']].
      rewrite (as_frame _ _ _ _ H) by done.
      split; [|naive_solver]. intros Hg. right. split; [congruence|done].
  - intros va' g [[_ [= <-]]|[_ Hg]]%lookup_insert_Some; [done|].
    by eapply as_frame_range.
Qed.

(** A kernel mapping leaves the roles alone. *)
Lemma as_map_kernel pm l pgdir G va t w :
  as_inv pm l pgdir G -> KERNBASE <= va < 2 ^ 32 -> va mod PGSIZE = 0 ->
  tab_of (pm_mem pm) pgdir (PDX va) = Some t -> 0 <= w < 2 ^ 32 ->
  as_inv (set_mem (st32 (pm_mem pm) (t + 4 * PTX va) w) pm) l pgdir G.
Proof.
  intros H Hk Hal Et Hw.
  assert (Hva : 0 <= va < 2 ^ 32) by clia.
  pose proof (PDX_range va Hva) as Hx.
  destruct (as_tab_page _ _ _ _ _ _ H Hx Et) as (Ht & Htl & Htd & Hr).
  destruct (view_st_pte _ _ _ _ _ _ w H Hva Hal Et Hw)
    as (Htab & _ & Hpte').
  split; simpl; try apply H.
  - eapply as_st_pte_kmem; eauto. apply PTX_range.
  - intros i t' Hi. rewrite Htab by done. by apply H.
  - intros va' f Hu'. erewrite frame_ext; [by apply H|].
    apply Hpte'; [by apply uaddr_range|apply Hu'|].
    destruct Hu' as [_ ?]. lia.
Qed.

(** [kfree] of the frame of [va], then clearing its entry. *)
Lemma as_unmap pm l pgdir G va t f :
  as_inv pm l pgdir G -> uaddr va ->
  tab_of (pm_mem pm) pgdir (PDX va) = Some t ->
  frame_of (pm_mem pm) pgdir va = Some f ->
  exists pm1, kfree f pm = Ok (tt, pm1) /\
    let pm2 := set_mem (st32 (pm_mem pm1) (t + 4 * PTX va) 0) pm1 in
    as_inv pm2 (f :: l) pgdir (delete f G) /\
    (forall va', 0 <= va' < 2 ^ 32 -> va' mod PGSIZE = 0 ->
       pte_of (pm_mem pm2) pgdir va' =
       if decide (va' = va) then 0 else pte_of (pm_mem pm) pgdir va') /\
    same_except (fun p => p = f \/ p = t) (pm_mem pm) (pm_mem pm2).
Proof.
  intros H Hu Et Hfr. pose proof (uaddr_range va Hu) as Hva.
  pose proof (PDX_range va Hva) as Hx.
  destruct (as_tab_page _ _ _ _ _ _ H Hx Et) as (Ht & Htl & Htd & Hr).
  pose proof Hfr as HGf. apply (as_frame _ _ _ _ H) in HGf; [|done].
  destruct (as_pages _ _ _ _ H _ _ HGf) as [Hf Hfl].
  destruct (kfree_ok _ _ _ (as_kmem _ _ _ _ H) Hf Hfl) as (pm1 & E1 & Hk1 & _).
  pose proof (kfree_same_except _ _ _ Hf E1) as Hs1.
  exists pm1. split; [done|]. intros pm2.
  destruct (view_except _ _ _ _ _ _ H Hs1) as [Htab1 Hpte1].
  { intros p <-. rewrite HGf. split; [done|]. by intros i. }
  assert (H1 : as_inv (set_mem (pm_mem pm1) pm) l pgdir G).
  { eapply as_inv_except; [done|exact Hs1|]. intros p <- [?|[?|[i ?]]];
      [done|congruence|congruence]. }
  assert (Et1 : tab_of (pm_mem pm1) pgdir (PDX va) = Some t)
    by (by rewrite Htab1).
  destruct (view_st_pte _ _ _ _ _ _ 0 H1 Hva (proj1 Hu) Et1 ltac:(lia))
    as (Htab2 & Hpte2 & Hpte2'). simpl in *.
  assert (Hall : forall va', 0 <= va' < 2 ^ 32 -> va' mod PGSIZE = 0 ->
       pte_of (pm_mem pm2) pgdir va' =
       if decide (va' = va) then 0 else pte_of (pm_mem pm) pgdir va').
  { intros va' Hva' Hal'. case_decide; [by subst|].
    simpl. rewrite Hpte2', Hpte1; done. }
  split; [|split; [done|]].
  - split; simpl.
    + eapply kmem_inv_except; [done|apply st32_same_except; [done|]|].
      { pose proof (PTX_range va). clia. }
      intros p Hp <-. apply elem_of_cons in Hp as [->|?]; [congruence|done].
    + intros g r [Hne Hg]%lookup_delete_Some.
      apply (as_pages _ _ _ _ H) in Hg as [? ?]. set_solver.
    + intros g. rewrite lookup_delete_Some, <- (as_dir _ _ _ _ H g).
      split; [naive_solver|]. intros Hg. split; [congruence|done].
    + intros i t' Hi. rewrite Htab2, Htab1, (as_tab _ _ _ _ H),
        lookup_delete_Some by done.
      split; [|naive_solver]. intros Hg. split; [congruence|done].
    + intros i t' [_ Hg]%lookup_delete_Some. by eapply as_tab_range.
    + intros va' g Hu'. rewrite lookup_delete_Some.
      pose proof (Hall va' (uaddr_range _ Hu') (proj1 Hu')) as Hpv.
      case_decide as Hd.
      * subst va'. unfold frame_of. simpl in Hpv. rewrite Hpv, has_0.
        split; [done|]. intros [Hne Hg].
        apply (as_frame _ _ _ _ H) in Hg; [congruence|done].
      * simpl in Hpv. rewrite (frame_ext _ _ _ _ Hpv), (as_frame _ _ _ _ H)
          by done.
        split; [|naive_solver]. intros Hg. split; [congruence|done].
    + intros va' g [_ Hg]%lookup_delete_Some. by eapply as_frame_range.
  - eapply same_except_trans; eapply same_except_weaken.
    + exact Hs1.
    + intros p <-. by left.
    + apply st32_same_except; [exact Ht|]. pose proof (PTX_range va). clia.
    + intros p <-. by right.
Qed.

(** ** A new page directory *)

Lemma as_fresh pm d l :
  kmem_inv pm (d :: l) ->
  exists pm1, kalloc pm = Ok (d, pm1) /\ page_ok d /\
    let pm2 := set_mem (Str.memset (pm_mem pm1) d 0 PGSIZE) pm1 in
    as_inv pm2 l d {[d := RDir]} /\
    (forall va, 0 <= va < 2 ^ 32 -> pte_of (pm_mem pm2) d va = 0) /\
    same_except (eq d) (pm_mem pm) (pm_mem pm2).
Proof.
  intros H. destruct (kalloc_cons _ _ _ H) as (pm1 & E & Hk & Hd & Hdl & Hm & _).
  exists pm1. split; [done|]. split; [done|]. intros pm2.
  assert (Hs : same_except (eq d) (pm_mem pm) (pm_mem pm2)).
  { simpl. rewrite Hm. by apply memset_same_except. }
  assert (Htab : forall i, 0 <= i < NPDENTRIES -> tab_of (pm_mem pm2) d i = None).
  { intros i Hi. unfold tab_of. simpl. rewrite ld32_memset0; [done|done|clia]. }
  assert (Hpte : forall va, 0 <= va < 2 ^ 32 -> pte_of (pm_mem pm2) d va = 0).
  { intros va Hva. unfold pte_of. by rewrite Htab by by apply PDX_range. }
  split; [|done]. split.
  - eapply kmem_inv_except; [done| |].
    + by apply memset_same_except.
    + intros p Hp <-. done.
  - intros f r [<- <-]%lookup_singleton_Some. done.
  - intros f. rewrite lookup_singleton_Some. split; [by intros [-> _]|done].
  - intros i t Hi. rewrite Htab by done. rewrite lookup_singleton_Some.
    split; [done|by intros [_ [=]]].
  - intros i t [_ [=]]%lookup_singleton_Some.
  - intros va f Hu. unfold frame_of. rewrite Hpte by by apply uaddr_range.
    rewrite has_0, lookup_singleton_Some. split; [done|by intros [_ [=]]].
  - intros va f [_ [=]]%lookup_singleton_Some.
Qed.

End VmInv.

(** ** A small machine, for examples

    Three free pages above the image, the first one to become a page
    directory. *)

Definition demo_page (i : Z) : Z := 0x80400000 + i * PGSIZE.

Definition demo_pm : pmem :=
  {| pm_mem := st32 (st32 (st32 ∅ (demo_page 0) (demo_page 1))
                          (demo_page 1) (demo_page 2)) (demo_page 2) 0;
     freelist := demo_page 0; use_lock := true |}.

(** The same machine with page 0 taken as an empty page directory. *)
Definition demo_as : pmem :=
  {| pm_mem := Str.memset (pm_mem demo_pm) (demo_page 0) 0 PGSIZE;
     freelist := demo_page 1; use_lock := true |}.

Lemma demo_kmem_inv :
  kmem_inv (I := demo_image) demo_pm [demo_page 0; demo_page 1; demo_page 2].
Proof.
  split.
  - vm_compute. done.
  - vm_compute. repeat constructor; set_solver.
  - repeat constructor; vm_compute; congruence.
Qed.

Lemma demo_as_inv :
  as_inv (I := demo_image) demo_as [demo_page 1; demo_page 2] (demo_page 0)
    {[demo_page 0 := RDir]} /\
  (forall va, 0 <= va < 2 ^ 32 ->
     pte_of (pm_mem demo_as) (demo_page 0) va = 0).
Proof.
  destruct (as_fresh (I := demo_image) (ImageOk0 := demo_image_ok) _ _ _
    demo_kmem_inv) as (pm1 & E & _ & H).
  assert (pm1 = set_freelist (demo_page 1) demo_pm) as ->.
  { unfold kalloc, bind, gets in E. injection E as <-. done. }
  destruct H as (H1 & H2 & _). split; [exact H1|exact H2].
Qed.
