(* ===== verification/VmUser.v ===== *)
(** * User memory: mapping, growing, shrinking and freeing

    The operations of vm.c on an address space that satisfies [as_inv]. *)

From S2P Require Import Prelude Param Memory Kalloc Vm VmInv.

Section VmUser.
Context `{I : Image}.

(** Effect of removing the user mappings of [a, b): the frames mapped
    there join the free list, nothing else changes. *)
Record unmapped (pgdir a b : Z) (pm : pmem) (l : list Z) (G : gmap Z prole)
  (pm' : pmem) (l' : list Z) (G' : gmap Z prole) : Prop := {
  un_inv : as_inv pm' l' pgdir G';
  un_frame : forall va, uaddr va -> a <= va < b ->
    frame_of (pm_mem pm') pgdir va = None;
  un_other : forall va, 0 <= va < 2 ^ 32 -> va mod PGSIZE = 0 ->
    ~ (a <= va < b) ->
    pte_of (pm_mem pm') pgdir va = pte_of (pm_mem pm) pgdir va;
  un_roles : forall p r, G' !! p = Some r <->
    G !! p = Some r /\ ~ (exists va, r = RFrame va /\ a <= va < b);
  un_free : forall p, p ∈ l' <->
    p ∈ l \/ exists va, a <= va < b /\ G !! p = Some (RFrame va);
  un_mem : same_except (fun p => (exists i, G !! p = Some (RTab i)) \/
    exists va, a <= va < b /\ G !! p = Some (RFrame va))
    (pm_mem pm) (pm_mem pm')
}.

(** Free pages turned into page tables. *)
Record grown (l : list Z) (G : gmap Z prole) (l' : list Z) (G' : gmap Z prole)
  : Prop := {
  gr_sub : forall p, p ∈ l' -> p ∈ l;
  gr_old : forall p r, G !! p = Some r -> G' !! p = Some r;
  gr_new : forall p r, G' !! p = Some r ->
    G !! p = Some r \/ (p ∈ l /\ exists i, r = RTab i);
  gr_all : forall p, p ∈ l -> p ∈ l' \/ is_Some (G' !! p)
}.

(** Every page at [a, b) mapped to a fresh zeroed frame, writable by the
    user; every other mapping and every existing frame unchanged. *)
Record allocated (pgdir a b : Z) (pm : pmem) (l : list Z) (G : gmap Z prole)
  (pm' : pmem) (l' : list Z) (G' : gmap Z prole) : Prop := {
  al_inv : as_inv pm' l' pgdir G';
  al_new : forall va, uaddr va -> a <= va < b ->
    exists f, frame_of (pm_mem pm') pgdir va = Some f /\ f ∈ l /\
      PTE_FLAGS (pte_of (pm_mem pm') pgdir va)
      = Z.lor (Z.lor PTE_W PTE_U) PTE_P /\
      forall o, 0 <= o < PGSIZE -> ld8 (pm_mem pm') (f + o) = 0;
  al_other : forall va, 0 <= va < 2 ^ 32 -> va mod PGSIZE = 0 ->
    ~ (a <= va < b) ->
    pte_of (pm_mem pm') pgdir va = pte_of (pm_mem pm) pgdir va;
  al_sub : forall p, p ∈ l' -> p ∈ l;
  al_old : forall p r, G !! p = Some r -> G' !! p = Some r;
  al_roles : forall p r, G' !! p = Some r -> G !! p = Some r \/ p ∈ l;
  al_all : forall p, p ∈ l -> p ∈ l' \/ is_Some (G' !! p);
  al_mem : same_except (structural l G) (pm_mem pm) (pm_mem pm')
}.

(** The range [a, b) unmapped, no page lost, nothing else changed: the
    result of an allocation that ran out of memory. *)
Record failed (pgdir a b : Z) (pm : pmem) (l : list Z) (G : gmap Z prole)
  (pm' : pmem) (l' : list Z) (G' : gmap Z prole) : Prop := {
  fa_inv : as_inv pm' l' pgdir G';
  fa_frame : forall va, uaddr va -> a <= va < b ->
    frame_of (pm_mem pm') pgdir va = None;
  fa_other : forall va, 0 <= va < 2 ^ 32 -> va mod PGSIZE = 0 ->
    ~ (a <= va < b) ->
    pte_of (pm_mem pm') pgdir va = pte_of (pm_mem pm) pgdir va;
  fa_pages : forall p, p ∈ l' \/ is_Some (G' !! p) <-> p ∈ l \/ is_Some (G !! p);
  fa_mem : same_except (fun p => structural l G p \/
    exists va, a <= va < b /\ G !! p = Some (RFrame va))
    (pm_mem pm) (pm_mem pm')
}.

Context `{!ImageOk I}.

(** Pages are a page apart. *)
Lemma page_gap a b : a mod PGSIZE = 0 -> b mod PGSIZE = 0 -> a < b -> a + PGSIZE <= b.
Proof.
  unfold PGSIZE. intros Ha Hb Hlt. pose proof (Z.div_mod a 4096 ltac:(lia)).
  pose proof (Z.div_mod b 4096 ltac:(lia)). nia.
Qed.

Lemma page_next a : a mod PGSIZE = 0 -> (a + PGSIZE) mod PGSIZE = 0.
Proof. intros Ha. by rewrite <- Zplus_mod_idemp_l, Ha. Qed.

Lemma unmapped_refl pgdir a b pm l G :
  as_inv pm l pgdir G -> b <= a -> unmapped pgdir a b pm l G pm l G.
Proof.
  intros H Hab. split; [done|intros; lia|done|..].
  - intros p r. split; [|tauto]. intros ?. split; [done|].
    intros (va & _ & ?). lia.
  - intros p. split; [by left|]. intros [?|(va & ? & _)]; [done|lia].
  - apply same_except_refl.
Qed.

(** A stretch without mappings can be passed over. *)
Lemma unmapped_skip pgdir a a' b pm l G pm' l' G' :
  as_inv pm l pgdir G -> a <= a' ->
  (forall va, uaddr va -> a <= va < a' -> va < b ->
     frame_of (pm_mem pm) pgdir va = None) ->
  unmapped pgdir a' b pm l G pm' l' G' -> unmapped pgdir a b pm l G pm' l' G'.
Proof.
  intros H Ha Hno [Hinv Hfr Hot Hro Hfe Hm].
  assert (Hrole : forall p va, G !! p = Some (RFrame va) -> a <= va < b ->
    a' <= va < b).
  { intros p va Hp Hv. pose proof (as_frame_range _ _ _ _ H _ _ Hp) as Hu.
    destruct (decide (va < a')); [|lia].
    apply (as_frame _ _ _ _ H) in Hp; [|done].
    rewrite Hno in Hp; [done|done|lia|lia]. }
  split; auto.
  - intros va Hu Hv. destruct (decide (a' <= va)); [apply Hfr; auto; lia|].
    pose proof (Hno va Hu ltac:(lia) ltac:(lia)) as Hn.
    rewrite <- Hn. apply frame_ext. apply Hot; [by apply uaddr_range|apply Hu|].
    lia.
  - intros va Hv Hal Hn. apply Hot; auto. lia.
  - intros p r. rewrite Hro. split; intros [Hp Hn]; split; auto;
      intros (va & -> & Hv); apply Hn; exists va; split; auto; [|lia].
    by eapply Hrole.
  - intros p. rewrite Hfe. split; (intros [?|(va & Hv & Hp)];
      [by left|right; exists va; split; auto]); [lia|by eapply Hrole].
  - eapply same_except_weaken; [exact Hm|].
    intros p [?|(va & Hv & Hp)]; [by left|].
    right. exists va. split; [lia|done].
Qed.

(** One page freed and unmapped, then the rest. *)
Lemma unmapped_step pgdir a b pm l G f pm1 pm' l' G' :
  as_inv pm l pgdir G -> uaddr a -> a < b ->
  frame_of (pm_mem pm) pgdir a = Some f ->
  (forall va, 0 <= va < 2 ^ 32 -> va mod PGSIZE = 0 ->
     pte_of (pm_mem pm1) pgdir va =
     if decide (va = a) then 0 else pte_of (pm_mem pm) pgdir va) ->
  same_except (fun p => p = f \/ exists i, G !! p = Some (RTab i))
    (pm_mem pm) (pm_mem pm1) ->
  unmapped pgdir (a + PGSIZE) b pm1 (f :: l) (delete f G) pm' l' G' ->
  unmapped pgdir a b pm l G pm' l' G'.
Proof.
  intros H Hu Hab Hfr Hpte Hm1 [Hinv Hfr' Hot Hro Hfe Hm].
  pose proof Hfr as HGf. apply (as_frame _ _ _ _ H) in HGf; [|done].
  assert (Hal : forall va, va mod PGSIZE = 0 -> a <= va -> va <> a ->
    a + PGSIZE <= va).
  { intros va Hv Hge Hne. apply page_gap; [apply Hu|done|lia]. }
  assert (Hrole : forall p va, G !! p = Some (RFrame va) -> p <> f ->
    a <= va < b -> a + PGSIZE <= va < b).
  { intros p va Hp Hne Hv. pose proof (as_frame_range _ _ _ _ H _ _ Hp) as Huv.
    split; [|lia]. apply Hal; [apply Huv|lia|]. intros ->.
    apply (as_frame _ _ _ _ H) in Hp; [congruence|done]. }
  split; auto.
  - intros va Hva Hv. destruct (decide (va = a)) as [->|Hne].
    + apply frame_pte_none. rewrite Hot by (apply uaddr_range in Hu;
        (done || clia || apply Hva)).
      rewrite Hpte by (apply uaddr_range in Hu; (done || apply Hva)).
      by rewrite decide_True.
    + apply Hfr'; [done|]. split; [|lia]. apply Hal; [apply Hva|lia|done].
  - intros va Hv Hav Hn. rewrite Hot by (done || clia).
    rewrite Hpte by done. rewrite decide_False; [done|lia].
  - intros p r. rewrite Hro, lookup_delete_Some. split.
    + intros [[Hne Hp] Hn]. split; [done|]. intros (va & -> & Hv).
      apply Hn. exists va. split; [done|]. by eapply Hrole.
    + intros [Hp Hn]. split; [split; [|done]|].
      * intros <-. apply Hn. rewrite HGf in Hp. injection Hp as <-.
        exists a. split; [done|lia].
      * intros (va & -> & Hv). apply Hn. exists va. split; [done|]. clia.
  - intros p. rewrite Hfe, elem_of_cons. split.
    + intros [[->|?]|(va & Hv & [Hne Hp]%lookup_delete_Some)].
      * right. exists a. split; [lia|done].
      * by left.
      * right. exists va. split; [clia|done].
    + intros [?|(va & Hv & Hp)]; [by left; right|].
      destruct (decide (p = f)) as [->|Hne]; [by left; left|].
      right. exists va. split; [by eapply Hrole|].
      by rewrite lookup_delete_ne by done.
  - eapply same_except_trans; eapply same_except_weaken.
    + exact Hm1.
    + intros p [->|?]; [|by left]. right. exists a. split; [lia|done].
    + exact Hm.
    + intros p [[i [_ Hp]%lookup_delete_Some]|
        (va & Hv & [_ Hp]%lookup_delete_Some)]; [left; eauto|].
      right. exists va. split; [clia|done].
Qed.

Lemma PGADDR_next a :
  0 <= a < KERNBASE ->
  let a' := u32 (u32 (PGADDR (PDX a + 1) 0 0 - PGSIZE) + PGSIZE) in
  a' = (PDX a + 1) * 2 ^ 22 /\ a < a' <= KERNBASE /\ a' mod PGSIZE = 0 /\
  forall va, a <= va < a' -> PDX va = PDX a.
Proof.
  intros Ha. pose proof (PDX_div a ltac:(clia)) as Hd.
  assert (Hr : 0 <= PDX a < 512).
  { rewrite Hd. split; [apply Z.div_pos; lia|].
    apply Z.div_lt_upper_bound; clia. }
  assert (Hn : PGADDR (PDX a + 1) 0 0 = (PDX a + 1) * 2 ^ 22).
  { unfold PGADDR, PDXSHIFT, PTXSHIFT. rewrite !Z.lor_0_r.
    rewrite Z.shiftl_mul_pow2 by lia.
    apply u32_small. lia. }
  cbv zeta. rewrite Hn.
  replace (u32 (u32 ((PDX a + 1) * 2 ^ 22 - PGSIZE) + PGSIZE))
    with ((PDX a + 1) * 2 ^ 22)
    by (rewrite (u32_small (_ - PGSIZE)) by clia; rewrite u32_small by clia; lia).
  pose proof (Z.div_mod a (2 ^ 22) ltac:(lia)) as Hdm.
  pose proof (Z.mod_pos_bound a (2 ^ 22) ltac:(lia)).
  split_and!; [done|lia|clia| |].
  - replace ((PDX a + 1) * 2 ^ 22) with ((PDX a + 1) * 2 ^ 10 * PGSIZE) by clia.
    by apply Z.mod_mul.
  - intros va Hva. rewrite PDX_div by clia.
    symmetry. apply (Z.div_unique va (2 ^ 22) _ (va - PDX a * 2 ^ 22)); lia.
Qed.

Lemma frame_addr_nz pm l pgdir G a :
  as_inv pm l pgdir G -> uaddr a ->
  frame_of (pm_mem pm) pgdir a = Some (P2V (PTE_ADDR (pte_of (pm_mem pm) pgdir a))) ->
  PTE_ADDR (pte_of (pm_mem pm) pgdir a) <> 0.
Proof.
  intros H Hu Hfr Hz. apply (as_frame _ _ _ _ H) in Hfr; [|done].
  apply (as_pages _ _ _ _ H) in Hfr as [Hfp _]. apply page_range in Hfp as [Hfp _].
  rewrite Hz in Hfp. vm_compute in Hfp. discriminate.
Qed.

(** The loop of [deallocuvm], with enough fuel, frees the range. *)
Lemma deallocuvm_loop_ok fuel pm l pgdir G a oldsz :
  as_inv pm l pgdir G -> a mod PGSIZE = 0 -> 0 <= a <= KERNBASE ->
  oldsz <= KERNBASE -> oldsz - a <= Z.of_nat fuel * PGSIZE ->
  exists pm' l' G', deallocuvm_loop fuel pgdir a oldsz pm = Ok (tt, pm') /\
    unmapped pgdir a oldsz pm l G pm' l' G'.
Proof.
  revert pm l G a. induction fuel as [|fuel IH]; intros pm l G a H Hal Ha Hold Hfuel; cbn [deallocuvm_loop];
    (destruct (Z.ltb_spec a oldsz) as [Hlt|Hge]; [|by exists pm, l, G; auto using unmapped_refl]); [clia|].
  assert (Hu : uaddr a) by (split; [done|lia]).
  pose proof (uaddr_range a Hu) as Hva. pose proof (PDX_range a Hva) as Hx.
  pose proof (page_next a Hal) as Hnal. pose proof (page_gap a KERNBASE Hal eq_refl (proj2 (proj2 Hu))) as Hnle.
  unfold bind at 1. destruct (tab_of (pm_mem pm) pgdir (PDX a)) as [t|] eqn:Et.
  - rewrite (walk_present _ _ _ _ _ _ _ H Hva Et).
    destruct (as_tab_page _ _ _ _ _ _ H Hx Et) as (Ht & Htl & Htd & Hr).
    pose proof (page_range t Ht) as Htr. pose proof (PTX_range a).
    destruct (Z.eqb_spec (t + 4 * PTX a) 0); [clia|]. unfold bind at 1, load, gets.
    replace (ld32 (pm_mem pm) (t + 4 * PTX a)) with (pte_of (pm_mem pm) pgdir a) by (unfold pte_of; by rewrite Et).
    rewrite (u32_small (a + PGSIZE)) by clia. destruct (has (pte_of (pm_mem pm) pgdir a) PTE_P) eqn:EP.
    + set (f := P2V (PTE_ADDR (pte_of (pm_mem pm) pgdir a))).
      assert (Hfr : frame_of (pm_mem pm) pgdir a = Some f) by (unfold frame_of; by rewrite EP).
      destruct (as_unmap _ _ _ _ _ _ _ H Hu Et Hfr) as (pm1 & E1 & H1 & Hpte1 & Hm1).
      destruct (IH _ _ _ (a + PGSIZE) H1) as (pm' & l' & G' & E2 & Hun); auto; try clia.
      exists pm', l', G'. split.
      * destruct (Z.eqb_spec (PTE_ADDR (pte_of (pm_mem pm) pgdir a)) 0); [by destruct (frame_addr_nz _ _ _ _ _ H Hu Hfr)|].
        unfold bind. fold f. rewrite E1. exact E2.
      * eapply unmapped_step; eauto. eapply same_except_weaken; [exact Hm1|].
        intros p [->| ->]; [by left|right; eauto].
    + destruct (IH _ _ _ (a + PGSIZE) H) as (pm' & l' & G' & E2 & Hun); auto; try clia.
      exists pm', l', G'. split; [exact E2|]. eapply unmapped_skip; [done| |  |exact Hun]; [clia|].
      intros va Huv Hv _. destruct (decide (va = a)) as [->|]; [by apply frame_pte_none|].
      pose proof (page_gap a va Hal (proj1 Huv)). lia.
  - rewrite (walk_absent _ _ _ _ _ H Hva Et). simpl (0 =? 0).
    destruct (PGADDR_next a (proj2 Hu)) as (Hn1 & Hn2 & Hn3 & Hn4).
    cbv zeta. set (a' := u32 (u32 (PGADDR (PDX a + 1) 0 0 - PGSIZE) + PGSIZE)) in *.
    pose proof (page_gap a a' Hal Hn3).
    destruct (IH _ _ _ a' H) as (pm' & l' & G' & E2 & Hun); auto; try clia.
    exists pm', l', G'. split; [exact E2|]. eapply unmapped_skip; [done| | |exact Hun]; [lia|].
    intros va Huv Hv _. apply frame_pte_none. unfold pte_of. by rewrite Hn4, Et.
Qed.

Lemma deallocuvm_ok pm l pgdir G oldsz newsz :
  as_inv pm l pgdir G -> 0 <= newsz < oldsz -> oldsz <= KERNBASE ->
  exists pm' l' G', deallocuvm pgdir oldsz newsz pm = Ok (newsz, pm') /\
    unmapped pgdir (PGROUNDUP newsz) oldsz pm l G pm' l' G'.
Proof.
  intros H Hn Ho. unfold deallocuvm.
  destruct (Z.leb_spec oldsz newsz); [lia|].
  pose proof (PGROUNDUP_spec newsz ltac:(clia)) as [Hup Hal].
  assert (Hk : PGROUNDUP newsz <= KERNBASE).
  { unfold PGSIZE, KERNBASE in *.
    pose proof (Z.div_mod (PGROUNDUP newsz) 4096 ltac:(lia)). lia. }
  destruct (deallocuvm_loop_ok (S (Z.to_nat (oldsz / PGSIZE))) pm l pgdir G
    (PGROUNDUP newsz) oldsz) as (pm' & l' & G' & E & Hun); auto; try lia.
  { pose proof (Z.div_mod oldsz PGSIZE ltac:(done)).
    pose proof (Z.mod_pos_bound oldsz PGSIZE ltac:(done)).
    pose proof (Z.div_pos oldsz PGSIZE ltac:(lia) ltac:(done)).
    rewrite Nat2Z.inj_succ, Z2Nat.id by lia. clia. }
  exists pm', l', G'. split; [|done]. unfold bind. by rewrite E.
Qed.

(** ** Freeing an address space *)

Lemma tab_of_except pgdir pm m' P :
  page_ok pgdir -> same_except P (pm_mem pm) m' -> ~ P pgdir ->
  forall i, 0 <= i < NPDENTRIES ->
  tab_of m' pgdir i = tab_of (pm_mem pm) pgdir i.
Proof.
  intros Hd Hs HP i Hi. unfold tab_of.
  rewrite (same_except_ld32 P (pm_mem pm)); auto. clia.
Qed.

(** The page tables of the entries from [i] on. *)
Definition tabs_from (pm : pmem) (pgdir i p : Z) : Prop :=
  exists j, i <= j < NPDENTRIES /\ tab_of (pm_mem pm) pgdir j = Some p.

Lemma tabs_from_step pm pm1 pgdir i p :
  i < NPDENTRIES ->
  (forall j, i <= j < NPDENTRIES -> tab_of (pm_mem pm1) pgdir j = tab_of (pm_mem pm) pgdir j) ->
  tabs_from pm pgdir i p <-> tab_of (pm_mem pm) pgdir i = Some p \/ tabs_from pm1 pgdir (i + 1) p.
Proof.
  intros Hi Hsame. split.
  - intros (j & Hj & Hp). destruct (decide (j = i)) as [->|]; [by left|]. right. exists j.
    rewrite Hsame by lia. split; [lia|done].
  - intros [Hp|(j & Hj & Hp)]; [exists i; split; [lia|done]|]. rewrite Hsame in Hp by lia.
    exists j. split; [lia|done].
Qed.

Lemma freevm_loop_ok n i pgdir pm l :
  0 <= i -> i + Z.of_nat n = NPDENTRIES -> kmem_inv pm l ->
  page_ok pgdir -> pgdir ∉ l ->
  (forall j t, i <= j < NPDENTRIES -> tab_of (pm_mem pm) pgdir j = Some t ->
     page_ok t /\ (t ∉ l) /\ t <> pgdir) ->
  (forall j k t, i <= j < NPDENTRIES -> i <= k < NPDENTRIES ->
     tab_of (pm_mem pm) pgdir j = Some t ->
     tab_of (pm_mem pm) pgdir k = Some t -> j = k) ->
  exists pm' l', freevm_loop n pgdir i pm = Ok (tt, pm') /\ kmem_inv pm' l' /\
    (forall p, p ∈ l' <-> p ∈ l \/ tabs_from pm pgdir i p) /\
    same_except (tabs_from pm pgdir i) (pm_mem pm) (pm_mem pm').
Proof.
  revert i pm l. induction n as [|n IH]; intros i pm l Hi Hin Hk Hd Hdl Htab Hinj; cbn [freevm_loop].
  { exists pm, l. split_and!; auto using same_except_refl.
    intros p. split; [by left|]. intros [?|(j & ? & _)]; [done|lia]. }
  pose proof (page_range pgdir Hd). unfold bind at 1, load, gets. rewrite u32_small by clia.
  destruct (has (ld32 (pm_mem pm) (pgdir + 4 * i)) PTE_P) eqn:EP.
  - set (t := P2V (PTE_ADDR (ld32 (pm_mem pm) (pgdir + 4 * i)))).
    assert (Et : tab_of (pm_mem pm) pgdir i = Some t) by (unfold tab_of; by rewrite EP).
    destruct (Htab i t ltac:(lia) Et) as (Ht & Htl & Htd).
    destruct (kfree_ok _ _ _ Hk Ht Htl) as (pm1 & E1 & Hk1 & _).
    pose proof (kfree_same_except _ _ _ Ht E1) as Hs1.
    pose proof (tab_of_except pgdir pm _ _ Hd Hs1 Htd) as Hsame.
    assert (Hstep : forall p, tabs_from pm pgdir i p <-> t = p \/ tabs_from pm1 pgdir (i + 1) p).
    { intros p. rewrite (tabs_from_step pm pm1), Et by (try lia; intros; apply Hsame; lia). split; intros [?|?]; auto; left; congruence. }
    destruct (IH (i + 1) pm1 (t :: l)) as (pm' & l' & E2 & Hk' & Hl' & Hs'); auto; try lia.
    { set_solver. }
    { intros j t' Hj. rewrite Hsame by lia. intros Ht'. destruct (Htab j t' ltac:(lia) Ht') as (? & ? & ?).
      split_and!; auto. intros [->|?]%elem_of_cons; [|done].
      assert (i = j) by (apply (Hinj i j t); auto; lia). lia. }
    { intros j k t' Hj Hkk. rewrite !Hsame by lia. apply Hinj; lia. }
    exists pm', l'. split_and!; [unfold bind; fold t; rewrite E1; exact E2|done| |].
    + intros p. rewrite Hl', elem_of_cons, Hstep. naive_solver.
    + eapply same_except_trans; eapply same_except_weaken; [exact Hs1| |exact Hs'|]; intros p Hp; apply Hstep; auto.
  - assert (Et : tab_of (pm_mem pm) pgdir i = None) by (unfold tab_of; by rewrite EP).
    assert (Hstep : forall p, tabs_from pm pgdir i p <-> tabs_from pm pgdir (i + 1) p).
    { intros p. rewrite (tabs_from_step pm pm), Et by (done || lia). split; [by intros [?|?]|by right]. }
    destruct (IH (i + 1) pm l) as (pm' & l' & E2 & Hk' & Hl' & Hs'); auto; try lia.
    { intros j t Hj. apply Htab. lia. }
    { intros j k t Hj Hkk. apply Hinj; lia. }
    exists pm', l'. split_and!; [exact E2|done| |].
    + intros p. by rewrite Hl', Hstep.
    + eapply same_except_weaken; [exact Hs'|]. intros p. apply Hstep.
Qed.

(** After the frames, the tables and the directory are all that is left. *)
Lemma unmapped_all pgdir pm l G pm1 l1 G1 p :
  as_inv pm l pgdir G -> unmapped pgdir 0 KERNBASE pm l G pm1 l1 G1 ->
  (p = pgdir \/ p ∈ l1 \/ tabs_from pm1 pgdir 0 p <-> p ∈ l \/ is_Some (G !! p)) /\
  (tabs_from pm1 pgdir 0 p -> is_Some (G !! p)).
Proof.
  intros H Hun. pose proof (un_inv _ _ _ _ _ _ _ _ _ Hun) as H1.
  assert (Htab : tabs_from pm1 pgdir 0 p -> is_Some (G !! p)).
  { intros (j & Hj & Hp). apply (as_tab _ _ _ _ H1) in Hp; [|done].
    apply (un_roles _ _ _ _ _ _ _ _ _ Hun) in Hp as [Hp _]. eauto. }
  split; [|done]. rewrite (un_free _ _ _ _ _ _ _ _ _ Hun). split.
  - intros [->|[[?|(va & _ & Hp)]|Hp]]; [|by left|right; eauto|right; auto].
    right. exists RDir. by apply (as_dir _ _ _ _ H).
  - intros [?|[r Hp]]; [by right; left; left|]. destruct r as [|i|va].
    + left. by apply (as_dir _ _ _ _ H).
    + right. right. exists i. split; [by apply (as_tab_range _ _ _ _ H _ _ Hp)|].
      apply (as_tab _ _ _ _ H1); [by apply (as_tab_range _ _ _ _ H _ _ Hp)|].
      apply (un_roles _ _ _ _ _ _ _ _ _ Hun). split; [done|]. by intros (va & [=] & _).
    + right. left. right. exists va. split; [|done]. by pose proof (as_frame_range _ _ _ _ H _ _ Hp) as [_ ?].
Qed.

Lemma freevm_ok pm l pgdir G :
  as_inv pm l pgdir G ->
  exists pm' l', freevm pgdir pm = Ok (tt, pm') /\ kmem_inv pm' l' /\
    (forall p, p ∈ l' <-> p ∈ l \/ is_Some (G !! p)) /\
    same_except (fun p => is_Some (G !! p)) (pm_mem pm) (pm_mem pm').
Proof.
  intros H. destruct (as_dir_page _ _ _ _ H) as [Hd Hdl]. pose proof (page_range pgdir Hd) as Hdr.
  destruct (deallocuvm_ok _ _ _ _ KERNBASE 0 H) as (pm1 & l1 & G1 & E1 & Hun); [done|done|].
  change (PGROUNDUP 0) with 0 in Hun. pose proof (un_inv _ _ _ _ _ _ _ _ _ Hun) as H1.
  destruct (as_dir_page _ _ _ _ H1) as [_ Hdl1].
  destruct (freevm_loop_ok (Z.to_nat NPDENTRIES) 0 pgdir pm1 l1) as (pm2 & l2 & E2 & Hk2 & Hl2 & Hs2); auto; try done.
  { apply H1. }
  { intros j t Hj Ht. destruct (as_tab_page _ _ _ _ _ _ H1 Hj Ht) as (? & ? & ? & _). done. }
  { intros j k t Hj Hkk Ht1 Ht2. apply (as_tab _ _ _ _ H1) in Ht1, Ht2; auto. congruence. }
  assert (Hd2 : pgdir ∉ l2).
  { rewrite Hl2. intros [?|(j & Hj & Ht)]; [done|]. by apply (as_tab_page _ _ _ _ _ _ H1 Hj) in Ht as (_ & _ & ? & _). }
  destruct (kfree_ok _ _ _ Hk2 Hd Hd2) as (pm3 & E3 & Hk3 & _).
  exists pm3, (pgdir :: l2). split_and!; [|done| |].
  - unfold freevm. destruct (Z.eqb_spec pgdir 0); [clia|]. unfold bind. rewrite E1, E2. done.
  - intros p. rewrite elem_of_cons, Hl2. apply (unmapped_all _ _ _ _ _ _ _ p H Hun).
  - eapply same_except_trans; [|eapply same_except_trans]; eapply same_except_weaken.
    + apply (un_mem _ _ _ _ _ _ _ _ _ Hun).
    + intros p [[i Hp]|(va & _ & Hp)]; eauto.
    + exact Hs2.
    + intros p. apply (unmapped_all _ _ _ _ _ _ _ p H Hun).
    + exact (kfree_same_except _ _ _ Hd E3).
    + intros p <-. exists RDir. by apply (as_dir _ _ _ _ H).
Qed.

(** ** Mapping *)

Lemma grown_refl l G : grown l G l G.
Proof. split; auto. Qed.

Lemma grown_trans l1 G1 l2 G2 l3 G3 :
  grown l1 G1 l2 G2 -> grown l2 G2 l3 G3 -> grown l1 G1 l3 G3.
Proof.
  intros [S1 O1 N1 A1] [S2 O2 N2 A2]. split; auto.
  - intros p r [Hp|(Hp & i & ->)]%N2; [by apply N1|]. right. split; eauto.
  - intros p [Hp|[r Hp]]%A1; [by apply A2|]. right. eauto.
Qed.

Lemma grown_table t l G i :
  G !! t = None -> grown (t :: l) G l (<[t := RTab i]> G).
Proof.
  intros Ht. split.
  - set_solver.
  - intros p r Hp. rewrite lookup_insert_ne; [done|congruence].
  - intros p r [[<- <-]|[_ Hp]]%lookup_insert_Some; [|by left].
    right. split; [set_solver|eauto].
  - intros p [->|Hp]%elem_of_cons; [|by left].
    right. rewrite lookup_insert_eq. eauto.
Qed.

Lemma structural_grown l G l' G' p :
  grown l G l' G' -> structural l' G' p -> structural l G p.
Proof.
  intros [S O N A]. intros [Hp|[Hp|[i Hp]]].
  - left. auto.
  - apply N in Hp as [Hp|(_ & i & [=])]. right. by left.
  - apply N in Hp as [Hp|(Hp & _)]; [|by left]. right. right. eauto.
Qed.

Lemma walk_alloc pm l pgdir G va :
  as_inv pm l pgdir G -> 0 <= va < 2 ^ 32 ->
  (walkpgdir pgdir va true pm = Ok (0, pm) /\ l = []) \/
  exists t pm' l' G',
    walkpgdir pgdir va true pm = Ok (t + 4 * PTX va, pm') /\
    t + 4 * PTX va <> 0 /\ as_inv pm' l' pgdir G' /\ grown l G l' G' /\
    tab_of (pm_mem pm') pgdir (PDX va) = Some t /\
    (forall va', 0 <= va' < 2 ^ 32 ->
       pte_of (pm_mem pm') pgdir va' = pte_of (pm_mem pm) pgdir va') /\
    same_except (structural l G) (pm_mem pm) (pm_mem pm').
Proof.
  intros H Hva. pose proof (PDX_range va Hva) as Hx.
  pose proof (PTX_range va) as Hy.
  destruct (tab_of (pm_mem pm) pgdir (PDX va)) as [t|] eqn:Et.
  - right. exists t, pm, l, G.
    destruct (as_tab_page _ _ _ _ _ _ H Hx Et) as (Ht & _).
    pose proof (page_range t Ht).
    split_and!; auto using grown_refl, same_except_refl; [|clia].
    by eapply walk_present.
  - destruct l as [|t l]; [left; split; [by eapply walk_full|done]|].
    right. destruct (walk_new _ _ _ _ _ _ H Hva Et) as (pm' & E & Hm & H').
    destruct (new_table_view _ _ _ _ _ _ H Hx Et) as (Hti & _ & Hpte).
    destruct (as_dir_page _ _ _ _ H) as [Hd _].
    assert (Ht : page_ok t).
    { destruct (as_kmem _ _ _ _ H) as [_ _ Hp].
      by apply Forall_cons in Hp as [? _]. }
    pose proof (page_range t Ht).
    exists t, pm', l, (<[t := RTab (PDX va)]> G). rewrite Hm.
    split_and!; auto; [clia| |].
    + apply grown_table. eapply as_free; [done|set_solver].
    + eapply same_except_weaken; [by apply new_table_except|].
      intros p [->| ->]; [left; set_solver|right; left].
      by apply (as_dir _ _ _ _ H).
Qed.

Lemma PGROUNDDOWN_aligned va : va mod PGSIZE = 0 -> PGROUNDDOWN va = va.
Proof. intros H. rewrite PGROUNDDOWN_mod, H. lia. Qed.

Lemma mappages_range va n :
  va mod PGSIZE = 0 -> 0 <= va ->
  va + Z.of_nat (S n) * PGSIZE <= 2 ^ 32 ->
  let last := PGROUNDDOWN (u32 (va + Z.of_nat (S n) * PGSIZE - 1)) in
  last = va + Z.of_nat n * PGSIZE /\
  S (Z.to_nat (u32 (last - PGROUNDDOWN va) / PGSIZE)) = S n.
Proof.
  intros Hal Hva Hle. cbv zeta.
  rewrite u32_small by clia. rewrite PGROUNDDOWN_mod.
  replace ((va + Z.of_nat (S n) * PGSIZE - 1) mod PGSIZE) with (PGSIZE - 1).
  - rewrite PGROUNDDOWN_aligned by done. split; [clia|].
    rewrite u32_small by clia. f_equal.
    replace (va + Z.of_nat (S n) * PGSIZE - 1 - (PGSIZE - 1) - va)
      with (Z.of_nat n * PGSIZE) by clia.
    rewrite Z.div_mul by done. lia.
  - pose proof (Z.div_mod va PGSIZE ltac:(done)) as Hd. rewrite Hal in Hd.
    apply (Z.mod_unique _ _ (va / PGSIZE + Z.of_nat n)); clia.
Qed.

(** Mapping one fresh page [f] at a user address. *)
Lemma mappages_user pm l pgdir G va f perm :
  as_inv pm l pgdir G -> uaddr va -> frame_of (pm_mem pm) pgdir va = None ->
  page_ok f -> f ∉ l -> G !! f = None -> 0 <= perm < PGSIZE ->
  (mappages pgdir va PGSIZE (V2P f) perm pm = Ok (false, pm) /\ l = []) \/
  exists pm' l' G',
    mappages pgdir va PGSIZE (V2P f) perm pm = Ok (true, pm') /\
    as_inv pm' l' pgdir (<[f := RFrame va]> G') /\ grown l G l' G' /\
    (forall va', 0 <= va' < 2 ^ 32 -> va' mod PGSIZE = 0 ->
       pte_of (pm_mem pm') pgdir va' =
       if decide (va' = va) then Z.lor (Z.lor (V2P f) perm) PTE_P
       else pte_of (pm_mem pm) pgdir va') /\
    same_except (structural l G) (pm_mem pm) (pm_mem pm').
Proof.
  intros H Hu Hno Hf Hfl HGf Hperm. pose proof (uaddr_range va Hu) as Hva.
  pose proof (proj2 Hu) as Huk.
  destruct (mappages_range va 0 (proj1 Hu)) as [Hlast Hfuel]; [lia|clia|].
  change (Z.of_nat 1 * PGSIZE) with PGSIZE in *.
  rewrite Z.mul_0_l, Z.add_0_r in Hlast.
  unfold mappages. cbv zeta. rewrite Hfuel, Hlast, PGROUNDDOWN_aligned by apply Hu.
  cbn [mappages_loop]. unfold bind at 1 4.
  destruct (walk_alloc _ _ _ _ _ H Hva)
    as [[E1 ->]|(t & pm1 & l1 & G1 & E1 & Hnz & H1 & Hg & Et & Hpte & Hs1)].
  { left. rewrite E1. done. }
  right. rewrite E1. destruct (Z.eqb_spec (t + 4 * PTX va) 0); [done|].
  unfold bind, load, gets, store, modify.
  destruct (pte_value f perm Hf Hperm) as (Hw & HwP & Hwa & _).
  assert (Hno1 : frame_of (pm_mem pm1) pgdir va = None)
    by (rewrite <- Hno; by apply frame_ext, Hpte).
  assert (Hv : ld32 (pm_mem pm1) (t + 4 * PTX va) = pte_of (pm_mem pm1) pgdir va)
    by (unfold pte_of; by rewrite Et).
  rewrite Hv. rewrite (proj1 (frame_pte_none _ _ _) Hno1).
  rewrite Z.eqb_refl.
  assert (Hfl1 : f ∉ l1) by (intros Hin; by apply (gr_sub _ _ _ _ Hg) in Hin).
  assert (HGf1 : G1 !! f = None).
  { destruct (G1 !! f) as [r|] eqn:E; [|done].
    apply (gr_new _ _ _ _ Hg) in E as [?|[? _]]; [congruence|done]. }
  pose proof (as_map _ _ _ _ _ _ _ _ H1 Hu Et Hno1 Hf Hfl1 HGf1 Hw HwP Hwa).
  destruct (view_st_pte _ _ _ _ _ _ _ H1 Hva (proj1 Hu) Et Hw)
    as (_ & Hpe & Hpo).
  pose proof (as_tab_page _ _ _ _ _ _ H1 (PDX_range va Hva) Et)
    as (Ht & _ & _ & Hr).
  eexists _, l1, G1. split_and!; [done|done|done| |].
  - intros va' Hva' Hal'. simpl. case_decide; [by subst|].
    rewrite Hpo, Hpte; done.
  - eapply same_except_trans; [exact Hs1|]. simpl.
    eapply same_except_weaken.
    + apply st32_same_except; [exact Ht|]. pose proof (PTX_range va). clia.
    + intros p <-. eapply structural_grown; [exact Hg|]. right. right. eauto.
Qed.

(** ** Taking pages from and returning pages to the allocator *)

Lemma as_pop pm f l pgdir G :
  as_inv pm (f :: l) pgdir G ->
  exists pm', kalloc pm = Ok (f, pm') /\ as_inv pm' l pgdir G /\
    pm_mem pm' = pm_mem pm /\ page_ok f /\ (f ∉ l) /\ G !! f = None.
Proof.
  intros H. destruct (kalloc_cons _ _ _ (as_kmem _ _ _ _ H))
    as (pm' & E & Hk & Hf & Hfl & Hm & _).
  exists pm'. split_and!; auto.
  - destruct H as [_ Hp Hd Ht Htr Hfr Hfrr].
    split; auto; rewrite ?Hm; auto.
    intros g r Hg. apply Hp in Hg as [? ?]. set_solver.
  - eapply as_free; [done|set_solver].
Qed.

Lemma as_push pm f l pgdir G :
  as_inv pm l pgdir G -> page_ok f -> f ∉ l -> G !! f = None ->
  exists pm', kfree f pm = Ok (tt, pm') /\ as_inv pm' (f :: l) pgdir G /\
    (forall va, 0 <= va < 2 ^ 32 ->
       pte_of (pm_mem pm') pgdir va = pte_of (pm_mem pm) pgdir va) /\
    same_except (eq f) (pm_mem pm) (pm_mem pm').
Proof.
  intros H Hf Hfl HGf.
  destruct (kfree_ok _ _ _ (as_kmem _ _ _ _ H) Hf Hfl) as (pm' & E & Hk & _).
  pose proof (kfree_same_except _ _ _ Hf E) as Hs.
  destruct (view_except _ _ _ _ _ _ H Hs) as [Htab Hpte].
  { intros p <-. rewrite HGf. split; [done|]. by intros i. }
  exists pm'. split_and!; auto. destruct H as [_ Hp Hd Ht Htr Hfr Hfrr].
  split; auto.
  - intros g r Hg. pose proof Hg as Hg'. apply Hp in Hg as [? ?].
    split; [done|]. intros [->|?]%elem_of_cons; [congruence|done].
  - intros i t Hi. rewrite Htab by done. auto.
  - intros va g Hu. erewrite frame_ext; [by apply Hfr|].
    by apply Hpte, uaddr_range.
Qed.

Lemma as_zero pm l pgdir G f :
  as_inv pm l pgdir G -> page_ok f -> f ∉ l -> G !! f = None ->
  let m' := Str.memset (pm_mem pm) f 0 PGSIZE in
  as_inv (set_mem m' pm) l pgdir G /\
  (forall va, 0 <= va < 2 ^ 32 -> pte_of m' pgdir va = pte_of (pm_mem pm) pgdir va).
Proof.
  intros H Hf Hfl HGf m'.
  assert (Hs : same_except (eq f) (pm_mem pm) m') by by apply memset_same_except.
  split.
  - eapply as_inv_except; [done|exact Hs|].
    intros p <- [?|[?|[i ?]]]; [done|congruence|congruence].
  - apply (view_except _ _ _ _ _ _ H Hs). intros p <-. rewrite HGf.
    split; [done|]. by intros i.
Qed.

(** ** Growing *)

Lemma unmapped_failed pgdir a b pm l G pm' l' G' :
  unmapped pgdir a b pm l G pm' l' G' -> failed pgdir a b pm l G pm' l' G'.
Proof.
  intros [Hinv Hfr Hot Hro Hfe Hm]. split; auto.
  - intros p. rewrite Hfe. split.
    + intros [[?|(va & _ & Hp)]|[r [Hp _]%Hro]]; eauto.
    + intros [?|[r Hp]]; [eauto|].
      destruct (decide (p ∈ l')) as [Hpl|Hpl]; [rewrite Hfe in Hpl; auto|].
      right. exists r. apply Hro. split; [done|]. intros (va & -> & Hv).
      apply Hpl, Hfe. right. eauto.
  - eapply same_except_weaken; [exact Hm|]. intros p [[i Hp]|?]; [|by right].
    left. right. right. eauto.
Qed.

(** One page allocated at [a], then a failure further on. *)
Lemma failed_step pgdir lo a b pm l G f pm1 l1 G1 pm' l' G' :
  lo <= a < b -> grown l G l1 G1 ->
  (forall va, 0 <= va < 2 ^ 32 -> va mod PGSIZE = 0 -> va <> a ->
     pte_of (pm_mem pm1) pgdir va = pte_of (pm_mem pm) pgdir va) ->
  same_except (structural (f :: l) G) (pm_mem pm) (pm_mem pm1) ->
  failed pgdir lo b pm1 l1 (<[f := RFrame a]> G1) pm' l' G' ->
  failed pgdir lo b pm (f :: l) G pm' l' G'.
Proof.
  intros Ha Hg Hpte Hm1 [Hinv Hfr Hot Hpg Hm].
  assert (Hf : f ∈ f :: l) by set_solver.
  assert (Hsub : forall p, p ∈ l1 -> p ∈ f :: l).
  { intros p Hp%(gr_sub _ _ _ _ Hg). set_solver. }
  assert (Hnew : forall p r, G1 !! p = Some r ->
    G !! p = Some r \/ (p ∈ f :: l /\ exists i, r = RTab i)).
  { intros p r [Hp|[Hp ?]]%(gr_new _ _ _ _ Hg); [by left|].
    right. split; [set_solver|done]. }
  pose proof (gr_old _ _ _ _ Hg) as Hold.
  assert (Hall : forall p, p ∈ f :: l -> p = f \/ p ∈ l1 \/ is_Some (G1 !! p)).
  { intros p [->|Hp]%elem_of_cons; [by left|right].
    by apply (gr_all _ _ _ _ Hg). }
  split; auto.
  - intros va Hv Hal Hn. rewrite Hot by done. apply Hpte; auto. lia.
  - intros p. rewrite Hpg. split.
    + intros [Hp|[r [[<- <-]|[Hne Hp]]%lookup_insert_Some]]; [auto..|].
      apply Hnew in Hp as [Hp|[? _]]; eauto.
    + destruct (decide (p = f)) as [->|Hne].
      { intros _. right. rewrite lookup_insert_eq. eauto. }
      rewrite lookup_insert_ne by done. intros [Hp|[r Hp]]; [|eauto].
      apply Hall in Hp as [?|?]; [done|auto].
  - eapply same_except_trans; eapply same_except_weaken.
    + exact Hm1.
    + auto.
    + exact Hm.
    + intros p [[Hp|[Hp|[i Hp]]]|(va & Hv & Hp)].
      * left. left. auto.
      * apply lookup_insert_Some in Hp as [[_ [=]]|[_ Hp]].
        apply Hnew in Hp as [Hp|(_ & i & [=])]. left. right. by left.
      * apply lookup_insert_Some in Hp as [[_ [=]]|[_ Hp]].
        apply Hnew in Hp as [Hp|[Hp _]]; left; [right; right; eauto|by left].
      * apply lookup_insert_Some in Hp as [[<- _]|[_ Hp]]; [left; by left|].
        apply Hnew in Hp as [Hp|[Hp _]]; [right; eauto|left; by left].
Qed.

Lemma allocated_step pgdir a b pm l G f pm1 l1 G1 pm' l' G' :
  uaddr a -> a < b -> page_ok f -> f ∉ l -> G !! f = None ->
  grown l G l1 G1 -> as_inv pm1 l1 pgdir (<[f := RFrame a]> G1) ->
  (forall va, 0 <= va < 2 ^ 32 -> va mod PGSIZE = 0 ->
     pte_of (pm_mem pm1) pgdir va =
     if decide (va = a)
     then Z.lor (Z.lor (V2P f) (Z.lor PTE_W PTE_U)) PTE_P
     else pte_of (pm_mem pm) pgdir va) ->
  (forall o, 0 <= o < PGSIZE -> ld8 (pm_mem pm1) (f + o) = 0) ->
  same_except (structural (f :: l) G) (pm_mem pm) (pm_mem pm1) ->
  allocated pgdir (a + PGSIZE) b pm1 l1 (<[f := RFrame a]> G1) pm' l' G' ->
  allocated pgdir a b pm (f :: l) G pm' l' G'.
Proof.
  intros Hu Hab Hfp Hfl HGf Hg Hinv1 Hpte Hz Hm1
    [Hinv Hnew Hot Hsub Hold Hro Hall Hm].
  pose proof (uaddr_range a Hu) as Har.
  assert (Hsub1 : forall p, p ∈ l1 -> p ∈ f :: l).
  { intros p Hp%(gr_sub _ _ _ _ Hg). set_solver. }
  assert (HG1f : G1 !! f = None).
  { destruct (G1 !! f) as [r|] eqn:E; [|done].
    apply (gr_new _ _ _ _ Hg) in E as [?|[? _]]; [congruence|done]. }
  assert (Hfl1 : f ∉ l1) by (intros Hin; by apply (gr_sub _ _ _ _ Hg) in Hin).
  destruct (pte_value f (Z.lor PTE_W PTE_U) Hfp ltac:(done))
    as (_ & HwP & Hwa & HwF).
  split; auto.
  - intros va Huv Hv. destruct (decide (va = a)) as [->|Hne].
    + exists f. unfold frame_of. rewrite Hot by (done || apply Hu || clia).
      rewrite Hpte by (done || apply Hu). rewrite decide_True by done.
      rewrite HwP, Hwa, HwF. split_and!; [done|set_solver|done|].
      intros o Ho. rewrite (same_except_ld8 _ _ _ _ _ Hm); auto.
      intros [?|[Hp|[i Hp]]]; [done|..]; rewrite lookup_insert_eq in Hp; done.
    + destruct (Hnew va Huv) as (g & Hg1 & Hg2 & Hg3).
      { split; [|lia]. apply page_gap; [apply Hu|apply Huv|lia]. }
      exists g. auto.
  - intros va Hv Hal Hn. rewrite Hot by (done || clia).
    rewrite Hpte by done. rewrite decide_False; [done|lia].
  - intros p r Hp. apply Hold. rewrite lookup_insert_ne by congruence.
    by apply (gr_old _ _ _ _ Hg).
  - intros p r Hp. apply Hro in Hp as [Hp|?]; [|auto].
    apply lookup_insert_Some in Hp as [[<- _]|[_ Hp]]; [right; set_solver|].
    apply (gr_new _ _ _ _ Hg) in Hp as [?|[? _]]; [by left|right; set_solver].
  - intros p [->|Hp]%elem_of_cons.
    + right. exists (RFrame a). apply Hold, lookup_insert_eq.
    + apply (gr_all _ _ _ _ Hg) in Hp as [Hp|[r Hp]]; [auto|].
      right. exists r. apply Hold. rewrite lookup_insert_ne; [done|congruence].
  - eapply same_except_trans; [exact Hm1|].
    eapply same_except_weaken; [exact Hm|].
    intros p [Hp|[Hp|[i Hp]]]; [left; auto|..];
      apply lookup_insert_Some in Hp as [[_ [=]]|[_ Hp]];
      apply (gr_new _ _ _ _ Hg) in Hp as [Hp|[Hp _]];
      try (left; apply elem_of_cons; by right);
      [right; by left|right; right; eauto].
Qed.

Lemma allocated_refl pgdir a b pm l G :
  as_inv pm l pgdir G -> b <= a -> allocated pgdir a b pm l G pm l G.
Proof.
  intros H Hab. split; auto using same_except_refl. intros; lia.
Qed.

(** A page is taken and zeroed. *)
Record zeroed (f pgdir : Z) (pm : pmem) (l : list Z) (G : gmap Z prole) (pm' : pmem) : Prop := {
  ze_page : page_ok f;
  ze_free : f ∉ l;
  ze_role : G !! f = None;
  ze_inv : as_inv pm' l pgdir G;
  ze_pte : forall va, 0 <= va < 2 ^ 32 -> pte_of (pm_mem pm') pgdir va = pte_of (pm_mem pm) pgdir va;
  ze_mem : same_except (structural (f :: l) G) (pm_mem pm) (pm_mem pm');
  ze_zero : forall o, 0 <= o < PGSIZE -> ld8 (pm_mem pm') (f + o) = 0
}.

Lemma take_zeroed pm f l pgdir G :
  as_inv pm (f :: l) pgdir G ->
  exists pm1, kalloc pm = Ok (f, pm1) /\
    zeroed f pgdir pm l G (set_mem (Str.memset (pm_mem pm1) f 0 PGSIZE) pm1).
Proof.
  intros H. destruct (as_pop _ _ _ _ _ H) as (pm1 & E1 & H1 & Hm1 & Hfp & Hfl & HGf).
  destruct (as_zero _ _ _ _ _ H1 Hfp Hfl HGf) as [H2 Hpte2]. rewrite Hm1 in Hpte2.
  pose proof (page_range f Hfp) as Hfr. exists pm1. split; [done|]. split; auto; simpl; rewrite Hm1; auto.
  - eapply same_except_weaken; [by apply memset_same_except|].
    intros p <-. left. apply elem_of_cons. by left.
  - intros o Ho. rewrite memset_spec by clia. by rewrite decide_True by clia.
Qed.

(** The range is freed again, and then the page that could not be mapped. *)
Lemma allocuvm_undo pm pm2 f pgdir G oldsz newsz :
  zeroed f pgdir pm [] G pm2 -> 0 <= oldsz < newsz -> newsz <= KERNBASE ->
  exists pm4 pm5 l' G', deallocuvm pgdir newsz oldsz pm2 = Ok (oldsz, pm4) /\ kfree f pm4 = Ok (tt, pm5) /\
    failed pgdir (PGROUNDUP oldsz) newsz pm [f] G pm5 l' G'.
Proof.
  intros [Hfp _ HGf H2 Hpte2 Hs2 _] Ho Hn.
  destruct (deallocuvm_ok _ _ _ _ newsz oldsz H2) as (pm4 & l4 & G4 & E4 & Hun); [lia|lia|].
  destruct (unmapped_failed _ _ _ _ _ _ _ _ _ Hun) as [_ Fr Fo Fp Fm].
  assert (Hf4 : (f ∉ l4) /\ G4 !! f = None).
  { split.
    - rewrite (un_free _ _ _ _ _ _ _ _ _ Hun). intros [?%elem_of_nil|(va & _ & ?)]; [done|congruence].
    - destruct (G4 !! f) as [r|] eqn:E; [|done].
      apply (un_roles _ _ _ _ _ _ _ _ _ Hun) in E as [? _]. congruence. }
  destruct (as_push _ f _ _ _ (un_inv _ _ _ _ _ _ _ _ _ Hun) Hfp) as (pm5 & E5 & H5 & Hpte5 & Hs5); [apply Hf4..|].
  exists pm4, pm5, (f :: l4), G4. split; [done|]. split; [done|]. split; auto.
  - intros va Hv1 Hv2. rewrite <- (Fr va Hv1 Hv2). apply frame_ext. by apply Hpte5, uaddr_range.
  - intros va Hv1 Hv2 Hv3. rewrite Hpte5, Fo by done. by apply Hpte2.
  - intros p. rewrite !elem_of_cons, elem_of_nil. specialize (Fp p). rewrite elem_of_nil in Fp. tauto.
  - eapply same_except_trans; [|eapply same_except_trans]; eapply same_except_weaken.
    + exact Hs2.
    + auto.
    + exact Fm.
    + intros p [[Hp|Hp]|Hp]; [by apply elem_of_nil in Hp|left; by right|by right].
    + exact Hs5.
    + intros p <-. left. left. apply elem_of_cons. by left.
Qed.

(** The page is mapped at [a]. *)
Lemma zeroed_mapped f pgdir pm l G pm2 a pm3 :
  zeroed f pgdir pm l G pm2 ->
  (forall va, 0 <= va < 2 ^ 32 -> va mod PGSIZE = 0 ->
     pte_of (pm_mem pm3) pgdir va =
     if decide (va = a) then Z.lor (Z.lor (V2P f) (Z.lor PTE_W PTE_U)) PTE_P else pte_of (pm_mem pm2) pgdir va) ->
  same_except (structural l G) (pm_mem pm2) (pm_mem pm3) ->
  same_except (structural (f :: l) G) (pm_mem pm) (pm_mem pm3) /\
  (forall va, 0 <= va < 2 ^ 32 -> va mod PGSIZE = 0 ->
     pte_of (pm_mem pm3) pgdir va =
     if decide (va = a) then Z.lor (Z.lor (V2P f) (Z.lor PTE_W PTE_U)) PTE_P else pte_of (pm_mem pm) pgdir va) /\
  forall o, 0 <= o < PGSIZE -> ld8 (pm_mem pm3) (f + o) = 0.
Proof.
  intros [Hfp Hfl HGf _ Hpte2 Hs2 Hz] Hpte3 Hs3. split_and!.
  - eapply same_except_trans; [exact Hs2|]. eapply same_except_weaken; [exact Hs3|].
    intros p [Hp|Hp]; [left; apply elem_of_cons; by right|by right].
  - intros va Hv1 Hv2. rewrite Hpte3 by done. case_decide; [done|]. by apply Hpte2.
  - intros o Hoo. rewrite (same_except_ld8 _ _ _ _ _ Hs3); auto.
    intros [?|[?|[i ?]]]; [done|congruence|congruence].
Qed.

Lemma allocuvm_loop_ok fuel pm l pgdir G a oldsz newsz :
  as_inv pm l pgdir G -> a mod PGSIZE = 0 -> PGROUNDUP oldsz <= a ->
  0 <= oldsz -> newsz < KERNBASE -> newsz - a <= Z.of_nat fuel * PGSIZE ->
  0 <= PGROUNDUP oldsz -> oldsz <= PGROUNDUP oldsz -> a <= KERNBASE ->
  (forall va, uaddr va -> a <= va < newsz ->
     frame_of (pm_mem pm) pgdir va = None) ->
  exists r pm' l' G', allocuvm_loop fuel pgdir a oldsz newsz pm = Ok (r, pm') /\
    ((r = newsz /\ allocated pgdir a newsz pm l G pm' l' G') \/
     (r = 0 /\ failed pgdir (PGROUNDUP oldsz) newsz pm l G pm' l' G')).
Proof.
  revert pm l G a. induction fuel as [|fuel IH];
    intros pm l G a H Hal Hlo Ho Hn Hf Hlo0 Hlo1 Hak Hno; cbn [allocuvm_loop];
    (destruct (Z.ltb_spec a newsz) as [Hlt|Hge]; [|by exists newsz, pm, l, G; auto using allocated_refl]); [clia|].
  assert (Hu : uaddr a) by (split; [done|lia]). pose proof (uaddr_range a Hu) as Har.
  destruct l as [|f l].
  { unfold bind at 1. rewrite kalloc_nil by apply H. simpl (0 =? 0).
    destruct (deallocuvm_ok _ _ _ _ newsz oldsz H) as (pm' & l' & G' & E & Hun); [lia|lia|].
    exists 0, pm', l', G'. unfold bind. rewrite E. auto using unmapped_failed. }
  destruct (take_zeroed _ _ _ _ _ H) as (pm1 & E1 & Hz). set (pm2 := set_mem _ pm1) in *.
  pose proof (ze_page _ _ _ _ _ _ Hz) as Hfp. pose proof (page_range f Hfp) as Hfr.
  unfold bind at 1. rewrite E1. destruct (Z.eqb_spec f 0); [clia|]. unfold bind at 1, mset, modify. fold pm2. unfold bind at 1.
  destruct (mappages_user pm2 l pgdir G a f (Z.lor PTE_W PTE_U) (ze_inv _ _ _ _ _ _ Hz))
    as [[E3 ->]|(pm3 & l3 & G3 & E3 & H3 & Hg3 & Hpte3 & Hs3)]; try rewrite E3; try done; try apply Hz.
  { rewrite <- (Hno a Hu) by lia. apply frame_ext. by apply Hz, uaddr_range. }
  - destruct (allocuvm_undo _ _ _ _ _ oldsz newsz Hz) as (pm4 & pm5 & l' & G' & E4 & E5 & Hfa); [lia|lia|].
    exists 0, pm5, l', G'. unfold bind. rewrite E4, E5. auto.
  - destruct (zeroed_mapped _ _ _ _ _ _ _ _ Hz Hpte3 Hs3) as (Hs13 & Hpte13 & Hz3).
    rewrite (u32_small (a + PGSIZE)) by clia.
    destruct (IH pm3 l3 (<[f := RFrame a]> G3) (a + PGSIZE)) as (r & pm' & l' & G' & E & Hres); auto; try clia.
    { by apply page_next. }
    { apply page_gap; [done|done|apply Hu]. }
    { intros va Hv1 Hv2. rewrite <- (Hno va Hv1) by clia. apply frame_ext.
      rewrite Hpte13 by (apply Hv1 || by apply uaddr_range). rewrite decide_False; [done|clia]. }
    exists r, pm', l', G'. split; [exact E|].
    destruct Hres as [[-> Hal']|[-> Hfa]]; [left|right]; (split; [done|]).
    + eapply allocated_step; eauto; apply Hz.
    + eapply failed_step; [|exact Hg3| |exact Hs13|exact Hfa]; [lia|].
      intros va Hv1 Hv2 Hne. rewrite Hpte13 by done. by rewrite decide_False.
Qed.

(** (C7) [allocuvm] on a well-formed address space whose range
    [PGROUNDUP(oldsz), newsz) is unmapped never panics.  It returns [newsz]
    with every page of the range mapped user-writable to a distinct, zeroed
    page taken from the free list, or, out of memory, 0 with the range
    unmapped and no page lost; other mappings and the contents of other
    pages do not change either way. *)
Theorem allocuvm_spec pm l pgdir G oldsz newsz :
  as_inv pm l pgdir G -> 0 <= oldsz <= newsz -> newsz < KERNBASE ->
  (forall va, uaddr va -> PGROUNDUP oldsz <= va < newsz ->
     frame_of (pm_mem pm) pgdir va = None) ->
  exists r pm' l' G', allocuvm pgdir oldsz newsz pm = Ok (r, pm') /\
    ((r = newsz /\
      allocated pgdir (PGROUNDUP oldsz) newsz pm l G pm' l' G') \/
     (r = 0 /\ failed pgdir (PGROUNDUP oldsz) newsz pm l G pm' l' G')).
Proof.
  intros H Ho Hn Hno. unfold allocuvm.
  destruct (Z.leb_spec KERNBASE newsz); [lia|].
  destruct (Z.ltb_spec newsz oldsz); [lia|].
  pose proof (PGROUNDUP_spec oldsz ltac:(clia)) as [Hup Hal].
  assert (Hk : PGROUNDUP oldsz <= KERNBASE).
  { unfold PGSIZE, KERNBASE in *.
    pose proof (Z.div_mod (PGROUNDUP oldsz) 4096 ltac:(lia)). lia. }
  apply allocuvm_loop_ok; auto; try lia.
  pose proof (Z.div_mod newsz PGSIZE ltac:(done)).
  pose proof (Z.mod_pos_bound newsz PGSIZE ltac:(done)).
  pose proof (Z.div_pos newsz PGSIZE ltac:(lia) ltac:(done)).
  rewrite Nat2Z.inj_succ, Z2Nat.id by lia. clia.
Qed.

(** (C8) [deallocuvm] on a well-formed address space frees exactly the frames
    mapped in [PGROUNDUP(newsz), oldsz): they join the free list, their
    mappings disappear, and every other mapping and frame is unchanged.  The
    jump over absent page tables misses no mapping. *)
Theorem deallocuvm_spec pm l pgdir G oldsz newsz :
  as_inv pm l pgdir G -> 0 <= newsz -> 0 <= oldsz <= KERNBASE ->
  (oldsz <= newsz /\ deallocuvm pgdir oldsz newsz pm = Ok (oldsz, pm)) \/
  (newsz < oldsz /\
   exists pm' l' G', deallocuvm pgdir oldsz newsz pm = Ok (newsz, pm') /\
     unmapped pgdir (PGROUNDUP newsz) oldsz pm l G pm' l' G').
Proof.
  intros H Hn Ho. destruct (decide (oldsz <= newsz)) as [Hle|Hgt].
  - left. split; [done|]. unfold deallocuvm.
    by destruct (Z.leb_spec oldsz newsz); [|lia].
  - right. split; [lia|]. apply deallocuvm_ok; auto; lia.
Qed.

(** (C9) [freevm] returns every page of the address space (directory, tables
    and frames) to the free list, each exactly once, never panics on a
    well-formed address space and writes to no other page. *)
Theorem freevm_no_leak pm l pgdir G :
  as_inv pm l pgdir G ->
  exists pm' l', freevm pgdir pm = Ok (tt, pm') /\ kmem_inv pm' l' /\
    (forall p, p ∈ l' <-> p ∈ l \/ is_Some (G !! p)) /\
    same_except (fun p => is_Some (G !! p)) (pm_mem pm) (pm_mem pm').
Proof. apply freevm_ok. Qed.

End VmUser.

Lemma allocuvm_spec_witness :
  exists r pm' l' G',
    allocuvm (I := demo_image) (demo_page 0) 0 4096 demo_as = Ok (r, pm') /\
    ((r = 4096 /\ allocated (I := demo_image) (demo_page 0) (PGROUNDUP 0) 4096
       demo_as [demo_page 1; demo_page 2] {[demo_page 0 := RDir]} pm' l' G') \/
     (r = 0 /\ failed (I := demo_image) (demo_page 0) (PGROUNDUP 0) 4096
       demo_as [demo_page 1; demo_page 2] {[demo_page 0 := RDir]} pm' l' G')).
Proof.
  destruct demo_as_inv as [H1 H2].
  apply (allocuvm_spec (I := demo_image) (ImageOk0 := demo_image_ok)
    demo_as [demo_page 1; demo_page 2] (demo_page 0) {[demo_page 0 := RDir]}
    0 4096); [exact H1|lia|done|].
  intros va Hu _. apply frame_pte_none. rewrite H2; [done|].
  by apply uaddr_range.
Defined.

Lemma deallocuvm_spec_witness :
  exists pm' l' G',
    deallocuvm (I := demo_image) (demo_page 0) 8192 4096 demo_as
    = Ok (4096, pm') /\
    unmapped (I := demo_image) (demo_page 0) (PGROUNDUP 4096) 8192
      demo_as [demo_page 1; demo_page 2] {[demo_page 0 := RDir]} pm' l' G'.
Proof.
  destruct (deallocuvm_spec (I := demo_image) (ImageOk0 := demo_image_ok)
    demo_as [demo_page 1; demo_page 2] (demo_page 0) {[demo_page 0 := RDir]}
    8192 4096) as [[H _]|[_ H]]; [apply demo_as_inv|lia|clia|lia|exact H].
Defined.

Lemma freevm_no_leak_witness :
  exists pm' l', freevm (I := demo_image) (demo_page 0) demo_as
    = Ok (tt, pm') /\ kmem_inv (I := demo_image) pm' l' /\ demo_page 0 ∈ l'.
Proof.
  destruct (freevm_no_leak (I := demo_image) (ImageOk0 := demo_image_ok)
    demo_as _ _ _ (proj1 demo_as_inv)) as (pm' & l' & E & Hk & Hl & _).
  exists pm', l'. split; [exact E|]. split; [exact Hk|].
  apply Hl. right. rewrite lookup_singleton_eq. eauto.
Defined.
