(* ===== verification/VmKern.v ===== *)
(** * Kernel mappings and copying an address space

    [setupkvm] and [copyuvm] of vm.c on the invariant of [VmInv]. *)

From S2P Require Import Prelude Param Memory Kalloc Vm VmInv VmUser.

(** Number of bytes of a kernel mapping. *)
Definition ksize (k : kmap) : Z := u32 (phys_end k - phys_start k).

(** [va] is in the mapping [k]. *)
Definition kreg (k : kmap) (va : Z) : Prop :=
  virt k <= va < virt k + ksize k.

Record wf_kmap (k : kmap) : Prop := {
  wk_virt : virt k mod PGSIZE = 0;
  wk_phys : phys_start k mod PGSIZE = 0;
  wk_size : ksize k mod PGSIZE = 0;
  wk_pos : 0 < ksize k;
  wk_kern : KERNBASE <= virt k;
  wk_top : virt k + ksize k <= 2 ^ 32;
  wk_ptop : 0 <= phys_start k /\ phys_start k + ksize k <= 2 ^ 32;
  wk_perm : 0 <= kperm k < PGSIZE
}.

(** The entry [setupkvm] gives to an address of the mapping [k]. *)
Definition kpte (k : kmap) (va : Z) : Z :=
  Z.lor (Z.lor (phys_start k + (va - virt k)) (kperm k)) PTE_P.

Section VmKern.
Context `{I : Image}.

(** A directory with exactly the kernel mappings: what every address space
    starts as. *)
Definition kernel_mapped (m : mem) (d : Z) : Prop :=
  (forall k va, k ∈ kmaps -> kreg k va -> va mod PGSIZE = 0 ->
     pte_of m d va = kpte k va) /\
  (forall va, 0 <= va < KERNBASE -> va mod PGSIZE = 0 -> pte_of m d va = 0).

Context `{!ImageOk I}.

Lemma pte_word pa perm :
  pa mod PGSIZE = 0 -> 0 <= pa -> pa + PGSIZE <= 2 ^ 32 -> 0 <= perm < PGSIZE ->
  0 <= Z.lor (Z.lor pa perm) PTE_P < 2 ^ 32.
Proof.
  intros Hal Hpa Hle Hp. rewrite <- Z.lor_assoc.
  assert (Hk : 0 <= Z.lor perm PTE_P < PGSIZE).
  { split; [apply Z.lor_nonneg; clia|].
    assert (H : Z.lor perm PTE_P < 2 ^ 12); [|done].
    assert (0 <= Z.lor perm PTE_P) by (apply Z.lor_nonneg; clia).
    destruct (decide (Z.lor perm PTE_P = 0)) as [->|]; [done|].
    apply Z.log2_lt_pow2; [lia|]. rewrite Z.log2_lor by clia.
    apply Z.max_lub_lt; [|done].
    destruct (decide (perm = 0)) as [->|]; [done|].
    apply Z.log2_lt_pow2; clia. }
  rewrite lor_aligned by done. lia.
Qed.

(** One iteration of [mappages] at an unmapped kernel address. *)
Lemma mappages_step_kernel f pm l pgdir G a last pa perm :
  as_inv pm l pgdir G -> a mod PGSIZE = 0 -> KERNBASE <= a < 2 ^ 32 ->
  pa mod PGSIZE = 0 -> 0 <= pa -> pa + PGSIZE <= 2 ^ 32 -> 0 <= perm < PGSIZE ->
  has (pte_of (pm_mem pm) pgdir a) PTE_P = false ->
  (l = [] /\ mappages_loop (S f) pgdir a last pa perm pm = Ok (false, pm)) \/
  exists pm2 l2 G2,
    mappages_loop (S f) pgdir a last pa perm pm =
    (if a =? last then ret true
     else mappages_loop f pgdir (u32 (a + PGSIZE)) last (u32 (pa + PGSIZE)) perm)
      pm2 /\
    as_inv pm2 l2 pgdir G2 /\ grown l G l2 G2 /\
    same_except (structural l G) (pm_mem pm) (pm_mem pm2) /\
    (forall va, 0 <= va < 2 ^ 32 -> va mod PGSIZE = 0 ->
       pte_of (pm_mem pm2) pgdir va =
       if decide (va = a) then Z.lor (Z.lor pa perm) PTE_P
       else pte_of (pm_mem pm) pgdir va).
Proof.
  intros H Hal Hk Hpal Hpa Hple Hperm Hno.
  assert (Hva : 0 <= a < 2 ^ 32) by clia.
  cbn [mappages_loop]. unfold bind at 1 4.
  destruct (walk_alloc _ _ _ _ _ H Hva)
    as [[E1 ->]|(t & pm1 & l1 & G1 & E1 & Hnz & H1 & Hg & Et & Hpte & Hs1)];
    rewrite E1; [by left|right].
  destruct (Z.eqb_spec (t + 4 * PTX a) 0) as [|_]; [done|].
  destruct (as_tab_page _ _ _ _ _ _ H1 (PDX_range a Hva) Et)
    as (Ht & _ & _ & Hr).
  assert (Hv : ld32 (pm_mem pm1) (t + 4 * PTX a) = pte_of (pm_mem pm) pgdir a)
    by (rewrite <- Hpte by done; unfold pte_of; by rewrite Et).
  unfold bind, load, gets, store, modify. rewrite Hv, Hno.
  pose proof (pte_word pa perm Hpal Hpa Hple Hperm) as Hw.
  destruct (view_st_pte _ _ _ _ _ _ _ H1 Hva Hal Et Hw) as (_ & Hpe & Hpo).
  eexists _, l1, G1. split; [reflexivity|]. split_and!; [|done| |].
  - by apply as_map_kernel.
  - eapply same_except_trans; [exact Hs1|]. simpl.
    eapply same_except_weaken.
    + apply st32_same_except; [exact Ht|]. pose proof (PTX_range a). clia.
    + intros p <-. eapply structural_grown; [exact Hg|]. right. right. eauto.
  - intros va Hv1 Hv2. simpl. case_decide; [by subst|].
    rewrite Hpo, Hpte; done.
Qed.

(** The loop of [mappages] over kernel addresses that are not mapped. *)
Lemma mappages_loop_kernel n pm l pgdir G a pa perm :
  as_inv pm l pgdir G -> a mod PGSIZE = 0 -> KERNBASE <= a ->
  a + Z.of_nat (S n) * PGSIZE <= 2 ^ 32 ->
  pa mod PGSIZE = 0 -> 0 <= pa -> pa + Z.of_nat (S n) * PGSIZE <= 2 ^ 32 ->
  0 <= perm < PGSIZE ->
  (forall va, va mod PGSIZE = 0 -> a <= va <= a + Z.of_nat n * PGSIZE ->
     has (pte_of (pm_mem pm) pgdir va) PTE_P = false) ->
  exists ok pm' l' G',
    mappages_loop (S n) pgdir a (a + Z.of_nat n * PGSIZE) pa perm pm
    = Ok (ok, pm') /\ as_inv pm' l' pgdir G' /\ grown l G l' G' /\
    same_except (structural l G) (pm_mem pm) (pm_mem pm') /\
    (forall va, 0 <= va < 2 ^ 32 -> va mod PGSIZE = 0 ->
       ~ (a <= va <= a + Z.of_nat n * PGSIZE) ->
       pte_of (pm_mem pm') pgdir va = pte_of (pm_mem pm) pgdir va) /\
    (ok = true -> forall va, va mod PGSIZE = 0 ->
       a <= va <= a + Z.of_nat n * PGSIZE ->
       pte_of (pm_mem pm') pgdir va
       = Z.lor (Z.lor (pa + (va - a)) perm) PTE_P).
Proof.
  revert pm l G a pa. induction n as [|n IH];
    intros pm l G a pa H Hal Hk Hle Hpal Hpa Hple Hperm Hno.
  - destruct (mappages_step_kernel 0 pm l pgdir G a (a + Z.of_nat 0 * PGSIZE)
      pa perm) as [[-> E]|(pm2 & l2 & G2 & E & H2 & Hg & Hs & Hp)];
      auto; try clia; [apply Hno; [done|clia]|..]; rewrite E.
    { eexists false, pm, [], G.
      split_and!; auto using grown_refl, same_except_refl; done. }
    replace (a =? a + Z.of_nat 0 * PGSIZE) with true
      by (symmetry; apply Z.eqb_eq; lia).
    exists true, pm2, l2, G2. split_and!; auto.
    + intros va Hv1 Hv2 Hv3. rewrite Hp by done. rewrite decide_False; [done|lia].
    + intros _ va Hv1 Hv2. assert (va = a) as -> by lia.
      rewrite Hp by (done || clia). rewrite decide_True by done.
      by rewrite Z.sub_diag, Z.add_0_r.
  - destruct (mappages_step_kernel (S n) pm l pgdir G a
      (a + Z.of_nat (S n) * PGSIZE) pa perm)
      as [[-> E]|(pm2 & l2 & G2 & E & H2 & Hg & Hs & Hp)];
      auto; try clia; [apply Hno; [done|clia]|..]; rewrite E.
    { eexists false, pm, [], G.
      split_and!; auto using grown_refl, same_except_refl; done. }
    destruct (Z.eqb_spec a (a + Z.of_nat (S n) * PGSIZE)); [clia|].
    rewrite !u32_small by clia.
    replace (a + Z.of_nat (S n) * PGSIZE)
      with ((a + PGSIZE) + Z.of_nat n * PGSIZE) by clia.
    destruct (IH pm2 l2 G2 (a + PGSIZE) (pa + PGSIZE))
      as (ok & pm' & l' & G' & E' & H' & Hg' & Hs' & Ho' & Hi'); auto; try clia.
    { rewrite <- Zplus_mod_idemp_l, Hal. done. }
    { rewrite <- Zplus_mod_idemp_l, Hpal. done. }
    { intros va Hv1 Hv2. rewrite Hp by (done || clia).
      rewrite decide_False by clia. apply Hno; [done|clia]. }
    exists ok, pm', l', G'. split_and!; auto.
    + by eapply grown_trans.
    + eapply same_except_trans; [exact Hs|].
      eapply same_except_weaken; [exact Hs'|]. intros p.
      by apply structural_grown.
    + intros va Hv1 Hv2 Hv3. rewrite Ho' by (done || clia).
      rewrite Hp by done. rewrite decide_False; [done|clia].
    + intros Hok va Hv1 Hv2. destruct (decide (va = a)) as [->|Hne].
      * rewrite Ho' by (done || clia). rewrite Hp by (done || clia).
        rewrite decide_True by done. by rewrite Z.sub_diag, Z.add_0_r.
      * assert (a + PGSIZE <= va).
        { unfold PGSIZE in *. pose proof (Z.div_mod va 4096 ltac:(lia)).
          pose proof (Z.div_mod a 4096 ltac:(lia)). nia. }
        rewrite Hi' by (done || clia). do 2 f_equal. lia.
Qed.

Lemma mappages_kernel pm l pgdir G k :
  as_inv pm l pgdir G -> wf_kmap k ->
  (forall va, va mod PGSIZE = 0 -> kreg k va ->
     has (pte_of (pm_mem pm) pgdir va) PTE_P = false) ->
  exists ok pm' l' G',
    mappages pgdir (virt k) (ksize k) (phys_start k) (kperm k) pm
    = Ok (ok, pm') /\ as_inv pm' l' pgdir G' /\ grown l G l' G' /\
    same_except (structural l G) (pm_mem pm) (pm_mem pm') /\
    (forall va, 0 <= va < 2 ^ 32 -> va mod PGSIZE = 0 -> ~ kreg k va ->
       pte_of (pm_mem pm') pgdir va = pte_of (pm_mem pm) pgdir va) /\
    (ok = true -> forall va, va mod PGSIZE = 0 -> kreg k va ->
       pte_of (pm_mem pm') pgdir va = kpte k va).
Proof.
  intros H [Wv Wp Ws Wpos Wk Wt [Wp0 Wpt] Wperm] Hno.
  pose proof (Z.div_mod (ksize k) PGSIZE ltac:(done)) as Hd. rewrite Ws in Hd.
  set (n := Z.to_nat (ksize k / PGSIZE - 1)).
  assert (Hn : ksize k = Z.of_nat (S n) * PGSIZE) by (unfold n; clia).
  assert (Hreg : forall va, va mod PGSIZE = 0 ->
    kreg k va <-> virt k <= va <= virt k + Z.of_nat n * PGSIZE).
  { intros va Hv. unfold kreg. rewrite Hn. unfold PGSIZE in *.
    pose proof (Z.div_mod va 4096 ltac:(lia)).
    pose proof (Z.div_mod (virt k) 4096 ltac:(lia)). lia. }
  unfold mappages. cbv zeta. rewrite Hn.
  destruct (mappages_range (virt k) n Wv) as [Hlast Hfuel]; [clia|clia|].
  rewrite Hfuel, Hlast, PGROUNDDOWN_aligned by done.
  destruct (mappages_loop_kernel n pm l pgdir G (virt k) (phys_start k) (kperm k))
    as (ok & pm' & l' & G' & E & H' & Hg & Hs & Ho & Hi); auto; try clia.
  { intros va Hv1 Hv2. apply Hno; [done|]. by apply Hreg. }
  exists ok, pm', l', G'. split_and!; auto.
  - intros va Hv1 Hv2 Hv3. apply Ho; auto. by rewrite <- Hreg.
  - intros Hok va Hv1 Hv2. apply Hi; auto. by apply Hreg.
Qed.

(** ** setupkvm *)

Lemma V2P_data : V2P img_data = img_data - KERNBASE.
Proof.
  pose proof img_data_ok. pose proof img_end_ok. unfold V2P.
  apply u32_small. clia.
Qed.

Lemma kmaps_wf : Forall wf_kmap kmaps.
Proof.
  pose proof img_data_ok as Hd. pose proof img_end_ok as He.
  pose proof img_data_aligned as Ha.
  assert (Hv : (img_data - KERNBASE) mod PGSIZE = 0)
    by (rewrite Zminus_mod, Ha; done).
  assert (K1 : u32 (EXTMEM - 0) = EXTMEM) by done.
  assert (K2 : u32 (img_data - KERNBASE - EXTMEM) = img_data - KERNBASE - EXTMEM)
    by (apply u32_small; clia).
  assert (K3 : u32 (PHYSTOP - (img_data - KERNBASE))
    = PHYSTOP - (img_data - KERNBASE)) by (apply u32_small; clia).
  assert (K4 : u32 (0 - DEVSPACE) = 2 ^ 32 - DEVSPACE) by done.
  assert (Hm : forall a b, a mod PGSIZE = 0 -> b mod PGSIZE = 0 ->
    (a - b) mod PGSIZE = 0) by (intros a b H1 H2; rewrite Zminus_mod, H1, H2; done).
  unfold kmaps. rewrite V2P_data. change (V2P KERNLINK) with EXTMEM.
  repeat (apply Forall_cons; split); [..|by apply Forall_nil];
    (split; unfold ksize; cbn [virt phys_start phys_end kperm];
     rewrite ?K1, ?K2, ?K3, ?K4; first [done | by apply Hm | by repeat apply Hm | clia]).
Qed.

Definition kdisjoint (k k' : kmap) : Prop := forall va, kreg k va -> ~ kreg k' va.

Lemma kmaps_disjoint : ForallOrdPairs kdisjoint kmaps.
Proof.
  pose proof img_data_ok as Hd. pose proof img_end_ok as He.
  assert (K1 : u32 (EXTMEM - 0) = EXTMEM) by done.
  assert (K2 : u32 (img_data - KERNBASE - EXTMEM) = img_data - KERNBASE - EXTMEM)
    by (apply u32_small; clia).
  assert (K3 : u32 (PHYSTOP - (img_data - KERNBASE))
    = PHYSTOP - (img_data - KERNBASE)) by (apply u32_small; clia).
  unfold kmaps. rewrite V2P_data. change (V2P KERNLINK) with EXTMEM.
  repeat apply FOP_cons; try apply FOP_nil;
    repeat apply List.Forall_cons; try apply List.Forall_nil;
    intros va; unfold kreg, ksize; cbn [virt phys_start phys_end];
    rewrite ?K1, ?K2, ?K3; clia.
Qed.

(** The pages an operation may use are the free pages and those of one
    address space; it neither loses nor invents one. *)
Definition kept (l : list Z) (G : gmap Z prole) (l' : list Z)
  (G' : gmap Z prole) : Prop :=
  forall p, p ∈ l' \/ is_Some (G' !! p) <-> p ∈ l \/ is_Some (G !! p).

Definition owned (l : list Z) (G : gmap Z prole) (p : Z) : Prop :=
  p ∈ l \/ is_Some (G !! p).

Lemma grown_kept l G l' G' : grown l G l' G' -> kept l G l' G'.
Proof.
  intros [S O N A] p. split.
  - intros [Hp|[r Hp]]; [left; auto|]. apply N in Hp as [Hp|[Hp _]]; eauto.
  - intros [Hp|[r Hp]]; [auto|]. right. exists r. auto.
Qed.

Lemma structural_owned l G p : structural l G p -> owned l G p.
Proof. unfold owned. intros [?|[?|[i ?]]]; eauto. Qed.

(** Freeing the whole address space after some growth returns everything. *)
Lemma freevm_kept pm l d G l0 G0 m0 :
  as_inv pm l d G -> kept l0 G0 l G ->
  same_except (owned l0 G0) m0 (pm_mem pm) ->
  exists pm' l', freevm d pm = Ok (tt, pm') /\ kmem_inv pm' l' /\
    (forall p, p ∈ l' <-> owned l0 G0 p) /\
    same_except (owned l0 G0) m0 (pm_mem pm').
Proof.
  intros H Hk Hs. destruct (freevm_ok _ _ _ _ H) as (pm' & l' & E & Hk' & Hl & Hs').
  exists pm', l'. split_and!; auto.
  - intros p. rewrite Hl. apply Hk.
  - eapply same_except_trans; [exact Hs|].
    eapply same_except_weaken; [exact Hs'|]. intros p Hp. apply Hk. by right.
Qed.

Lemma setupkvm_loop_ok ks pm l d G :
  as_inv pm l d G -> Forall wf_kmap ks -> ForallOrdPairs kdisjoint ks ->
  (forall k va, k ∈ ks -> va mod PGSIZE = 0 -> kreg k va ->
     has (pte_of (pm_mem pm) d va) PTE_P = false) ->
  exists r pm' l', setupkvm_loop d ks pm = Ok (r, pm') /\
    ((r = d /\ exists G', as_inv pm' l' d G' /\ grown l G l' G' /\
      same_except (structural l G) (pm_mem pm) (pm_mem pm') /\
      (forall k va, k ∈ ks -> va mod PGSIZE = 0 -> kreg k va ->
         pte_of (pm_mem pm') d va = kpte k va) /\
      (forall va, 0 <= va < 2 ^ 32 -> va mod PGSIZE = 0 ->
         (forall k, k ∈ ks -> ~ kreg k va) ->
         pte_of (pm_mem pm') d va = pte_of (pm_mem pm) d va)) \/
     (r = 0 /\ kmem_inv pm' l' /\
      (forall p, p ∈ l' <-> owned l G p) /\
      same_except (owned l G) (pm_mem pm) (pm_mem pm'))).
Proof.
  revert pm l G. induction ks as [|k ks IH]; intros pm l G H Hwf Hdis Hno.
  { exists d, pm, l. split; [done|]. left. split; [done|]. exists G.
    split_and!; auto using grown_refl, same_except_refl.
    intros k va Hk. by apply elem_of_nil in Hk. }
  apply Forall_cons in Hwf as [Wk Wks]. inversion Hdis as [|? ? Hdk Hdks]; subst.
  cbn [setupkvm_loop]. unfold bind at 1. fold (ksize k).
  destruct (mappages_kernel pm l d G k H Wk)
    as (ok & pm1 & l1 & G1 & E1 & H1 & Hg1 & Hs1 & Ho1 & Hi1).
  { intros va Hv1 Hv2. apply (Hno k); auto. apply elem_of_cons. by left. }
  rewrite E1. rewrite List.Forall_forall in Hdk. destruct ok.
  - destruct (IH pm1 l1 G1 H1 Wks Hdks)
      as (r & pm' & l' & E & [(-> & G' & H' & Hg & Hs & Hi & Ho)|
                              (-> & Hk' & Hl & Hs)]).
    { intros k' va Hk' Hv1 Hv2. pose proof Wks as W'.
      rewrite Forall_forall in W'. specialize (W' k' Hk') as [].
      rewrite Ho1; auto.
      - apply (Hno k'); auto. apply elem_of_cons. by right.
      - unfold kreg in Hv2. clia.
      - intros Hr. apply (Hdk k') in Hv2; [done|by apply list_elem_of_In|done]. }
    + exists d, pm', l'. split; [done|]. left. split; [done|]. exists G'.
      split_and!; auto.
      * by eapply grown_trans.
      * eapply same_except_trans; [exact Hs1|].
        eapply same_except_weaken; [exact Hs|]. intros p.
        by apply structural_grown.
      * intros k' va [->|Hk']%elem_of_cons Hv1 Hv2; [|by apply Hi].
        rewrite Ho; auto.
        -- destruct Wk. unfold kreg in Hv2. clia.
        -- intros k' Hk'. apply (Hdk k'); [by apply list_elem_of_In|done].
      * intros va Hv1 Hv2 Hv3. rewrite Ho; auto.
        -- apply Ho1; auto. apply Hv3, elem_of_cons. by left.
        -- intros k' Hk'. apply Hv3, elem_of_cons. by right.
    + exists 0, pm', l'. split; [done|]. right.
      pose proof (grown_kept _ _ _ _ Hg1) as Hkp. split_and!; auto.
      * intros p. rewrite Hl. apply Hkp.
      * eapply same_except_trans; eapply same_except_weaken.
        -- exact Hs1.
        -- apply structural_owned.
        -- exact Hs.
        -- intros p. apply Hkp.
  - destruct (freevm_kept _ _ _ _ l G (pm_mem pm) H1 (grown_kept _ _ _ _ Hg1))
      as (pm' & l' & E & Hk' & Hl & Hs).
    { eapply same_except_weaken; [exact Hs1|apply structural_owned]. }
    exists 0, pm', l'. unfold bind. rewrite E. eauto 10.
Qed.

Lemma setupkvm_ok pm l :
  kmem_inv pm l ->
  exists r pm' l', setupkvm pm = Ok (r, pm') /\
    same_except (fun p => p ∈ l) (pm_mem pm) (pm_mem pm') /\
    ((r <> 0 /\ exists G', as_inv pm' l' r G' /\ kernel_mapped (pm_mem pm') r /\
        kept l ∅ l' G') \/
     (r = 0 /\ kmem_inv pm' l' /\ forall p, p ∈ l' <-> p ∈ l)).
Proof.
  intros H. unfold setupkvm. destruct l as [|d l].
  { exists 0, pm, []. unfold bind. rewrite kalloc_nil by done. simpl.
    split_and!; auto using same_except_refl. }
  destruct (as_fresh pm d l H) as (pm1 & E1 & Hd & H2 & Hpte & Hs2).
  set (pm2 := set_mem (Str.memset (pm_mem pm1) d 0 PGSIZE) pm1) in *.
  pose proof (page_range d Hd) as Hdr.
  unfold bind at 1. rewrite E1. destruct (Z.eqb_spec d 0); [clia|].
  unfold bind at 1, mset, modify. fold pm2.
  replace (DEVSPACE <? P2V PHYSTOP) with false by done.
  assert (Hown : forall p, owned l {[d := RDir]} p <-> p ∈ d :: l).
  { intros p. unfold owned. rewrite elem_of_cons, lookup_singleton_is_Some.
    naive_solver. }
  destruct (setupkvm_loop_ok kmaps pm2 l d {[d := RDir]} H2 kmaps_wf
    kmaps_disjoint) as (r & pm' & l' & E & Hr).
  { intros k va Hk Hv1 Hv2. pose proof kmaps_wf as W.
    rewrite Forall_forall in W. destruct (W k Hk). unfold kreg in Hv2.
    rewrite Hpte by clia. apply has_0. }
  exists r, pm', l'. rewrite E. split; [done|].
  assert (Hsd : same_except (fun p => p ∈ d :: l) (pm_mem pm) (pm_mem pm2)).
  { eapply same_except_weaken; [exact Hs2|]. intros p <-.
    apply elem_of_cons. by left. }
  destruct Hr as [(-> & G' & H' & Hg & Hs & Hi & Ho)|(-> & Hk' & Hl & Hs)].
  - split; [|left; split; [done|]; exists G'; split_and!; auto].
    + eapply same_except_trans; [exact Hsd|].
      eapply same_except_weaken; [exact Hs|].
      intros p Hp%structural_owned. by apply Hown.
    + split; [intros; by apply Hi|]. intros va Hv Hal.
      rewrite Ho; auto; [apply Hpte; clia|clia|].
      intros k Hk. pose proof kmaps_wf as W. rewrite Forall_forall in W.
      destruct (W k Hk). unfold kreg. clia.
    + intros p. rewrite (grown_kept _ _ _ _ Hg p).
      fold (owned l {[d := RDir]} p). rewrite Hown, lookup_empty.
      split; [by left|]. by intros [?|[? ?]].
  - split; [|right; split_and!; auto].
    + eapply same_except_trans; [exact Hsd|].
      eapply same_except_weaken; [exact Hs|]. intros p. by apply Hown.
    + intros p. by rewrite Hl, Hown.
Qed.

(** ** copyuvm *)

(** An address space is not affected by changes to pages it does not own. *)
Lemma as_inv_other P pm l pgdir G pm' l' :
  as_inv pm l pgdir G -> kmem_inv pm' l' ->
  (forall p, is_Some (G !! p) -> p ∉ l') ->
  same_except P (pm_mem pm) (pm_mem pm') -> (forall p, P p -> G !! p = None) ->
  as_inv pm' l' pgdir G /\
  (forall va, 0 <= va < 2 ^ 32 ->
     pte_of (pm_mem pm') pgdir va = pte_of (pm_mem pm) pgdir va).
Proof.
  intros H Hk Hl Hs HP. destruct (view_except _ _ _ _ _ _ H Hs) as [Htab Hpte].
  { intros p Hp%HP. rewrite Hp. split; [done|]. by intros i. }
  split; [|exact Hpte]. destruct H as [_ Hp Hd Ht Htr Hfr Hfrr]. split; auto.
  - intros f r Hf. split; [by eapply Hp|]. apply Hl. eauto.
  - intros i t Hi. rewrite Htab by done. auto.
  - intros va f Hu. erewrite frame_ext; [by apply Hfr|].
    by apply Hpte, uaddr_range.
Qed.

(** Below [i] the directory [d] has its own copy of every page of [pgdir],
    with the same flags. *)
Definition copied (m : mem) (pgdir d i : Z) : Prop :=
  forall va, uaddr va -> va < i ->
  exists fp fd, frame_of m pgdir va = Some fp /\ frame_of m d va = Some fd /\
    PTE_FLAGS (pte_of m d va) = PTE_FLAGS (pte_of m pgdir va) /\
    forall o, 0 <= o < PGSIZE -> ld8 m (fd + o) = ld8 m (fp + o).

Record copy_inv (pgdir : Z) (GP : gmap Z prole) (sz d : Z) (pm : pmem)
  (l : list Z) (GD : gmap Z prole) (i : Z) : Prop := {
  cp_parent : as_inv pm l pgdir GP;
  cp_child : as_inv pm l d GD;
  cp_sep : forall p, is_Some (GP !! p) -> GD !! p = None;
  cp_mapped : forall va, uaddr va -> va < sz ->
    is_Some (frame_of (pm_mem pm) pgdir va);
  cp_copied : copied (pm_mem pm) pgdir d i;
  cp_rest : forall va, uaddr va -> i <= va -> frame_of (pm_mem pm) d va = None
}.

(** What is copied stays copied while only pages that are neither of the
    parent nor frames of the child are written. *)
Lemma copied_frame Q pgdir GP sz d pm l GD i m' :
  copy_inv pgdir GP sz d pm l GD i -> same_except Q (pm_mem pm) m' ->
  (forall p, Q p -> GP !! p = None /\ forall va, GD !! p <> Some (RFrame va)) ->
  (forall va, uaddr va -> va < i ->
     pte_of m' d va = pte_of (pm_mem pm) d va) ->
  copied m' pgdir d i.
Proof.
  intros H Hs HQ Hd va Hu Hv.
  destruct (cp_copied _ _ _ _ _ _ _ _ H va Hu Hv) as (fp & fd & E1 & E2 & E3 & E4).
  pose proof (uaddr_range va Hu) as Hr.
  destruct (view_except _ _ _ _ _ _ (cp_parent _ _ _ _ _ _ _ _ H) Hs)
    as [_ Hpte].
  { intros p Hp%HQ. destruct Hp as [-> _]. split; [done|]. by intros j. }
  pose proof (proj1 (as_frame _ _ _ _ (cp_parent _ _ _ _ _ _ _ _ H) _ _ Hu) E1)
    as Gp.
  pose proof (proj1 (as_frame _ _ _ _ (cp_child _ _ _ _ _ _ _ _ H) _ _ Hu) E2)
    as Gd.
  pose proof (as_pages _ _ _ _ (cp_parent _ _ _ _ _ _ _ _ H) _ _ Gp) as [Pp _].
  pose proof (as_pages _ _ _ _ (cp_child _ _ _ _ _ _ _ _ H) _ _ Gd) as [Pd _].
  exists fp, fd. split_and!.
  - rewrite <- E1. by apply frame_ext, Hpte.
  - rewrite <- E2. by apply frame_ext, Hd.
  - by rewrite Hd, Hpte.
  - intros o Ho.
    rewrite (same_except_ld8 _ _ _ _ _ Hs Pp), (same_except_ld8 _ _ _ _ _ Hs Pd);
      auto; intros Hq%HQ; destruct Hq as [Hq1 Hq2]; [by apply Hq2 in Gd|congruence].
Qed.

Lemma flags_P w : has w PTE_P = true ->
  0 <= PTE_FLAGS w < PGSIZE /\ Z.lor (PTE_FLAGS w) PTE_P = PTE_FLAGS w.
Proof.
  rewrite has_P. intros Hw. rewrite PTE_FLAGS_mod. split; [apply Z.mod_pos_bound; done|].
  change PGSIZE with (2 ^ 12). apply Z.bits_inj'. intros n Hn.
  rewrite Z.lor_spec. destruct (decide (n = 0)) as [->|].
  - by rewrite Z.mod_pow2_bits_low, Hw by lia.
  - replace (Z.testbit PTE_P n) with false; [by rewrite orb_false_r|].
    symmetry. apply Z.bits_above_log2; [done|]. change (Z.log2 PTE_P) with 0. lia.
Qed.

(** [walkpgdir] finds the entry of a mapped user address. *)
Lemma walk_mapped pm l pgdir G va f :
  as_inv pm l pgdir G -> uaddr va -> frame_of (pm_mem pm) pgdir va = Some f ->
  let v := pte_of (pm_mem pm) pgdir va in
  exists ptr, walkpgdir pgdir va false pm = Ok (ptr, pm) /\ ptr <> 0 /\
    ld32 (pm_mem pm) ptr = v /\ has v PTE_P = true /\ P2V (PTE_ADDR v) = f.
Proof.
  intros H Hu Hf v. pose proof (uaddr_range va Hu) as Hva.
  assert (Hv : has v PTE_P = true /\ P2V (PTE_ADDR v) = f).
  { unfold frame_of in Hf. fold v in Hf. destruct (has v PTE_P); [|done].
    by injection Hf. }
  destruct (tab_of (pm_mem pm) pgdir (PDX va)) as [t|] eqn:Et.
  - destruct (as_tab_page _ _ _ _ _ _ H (PDX_range va Hva) Et) as (Ht & _).
    pose proof (page_range t Ht). pose proof (PTX_range va).
    exists (t + 4 * PTX va). split_and!; [by eapply walk_present|clia| |apply Hv..].
    subst v. unfold pte_of. by rewrite Et.
  - subst v. unfold pte_of in Hv. rewrite Et, has_0 in Hv. by destruct Hv.
Qed.

Lemma memmove_same_except m p q :
  page_ok p -> page_ok q ->
  same_except (eq p) m (Str.memmove m p q PGSIZE) /\
  forall o, 0 <= o < PGSIZE ->
    ld8 (Str.memmove m p q PGSIZE) (p + o) = ld8 m (q + o).
Proof.
  intros Hp Hq. pose proof (page_range p Hp). pose proof (page_range q Hq). split.
  - intros a Ha. rewrite ld8_memmove by clia. rewrite decide_False; [done|].
    intros Hin. by apply (Ha p).
  - intros o Ho. rewrite ld8_memmove by clia. rewrite decide_True by clia.
    f_equal. lia.
Qed.

(** The child's pages are none of the parent's. *)
Lemma copy_apart pgdir GP sz d pm l GD i p :
  copy_inv pgdir GP sz d pm l GD i -> structural l GD p -> GP !! p = None.
Proof.
  intros H Hp. destruct (GP !! p) as [r|] eqn:E; [|done].
  pose proof (as_pages _ _ _ _ (cp_parent _ _ _ _ _ _ _ _ H) _ _ E) as [_ Hpl].
  destruct Hp as [Hp|[Hp|[j Hp]]]; [done|..]; rewrite (cp_sep _ _ _ _ _ _ _ _ H) in Hp; by eauto.
Qed.

Lemma copy_apart_grown pgdir GP sz d pm f l GD i l3 G3 p :
  copy_inv pgdir GP sz d pm (f :: l) GD i -> grown l GD l3 G3 -> is_Some (GP !! p) ->
  (p ∉ l3) /\ (<[f := RFrame i]> G3) !! p = None.
Proof.
  intros H Hg [r Hp]. pose proof (as_pages _ _ _ _ (cp_parent _ _ _ _ _ _ _ _ H) _ _ Hp) as [_ Hpl].
  rewrite elem_of_cons in Hpl. split.
  - intros Hin%(gr_sub _ _ _ _ Hg). tauto.
  - rewrite lookup_insert_ne by (intros ->; tauto). destruct (G3 !! p) as [r'|] eqn:E; [|done].
    apply (gr_new _ _ _ _ Hg) in E as [E|[E _]]; [|tauto].
    rewrite (cp_sep _ _ _ _ _ _ _ _ H) in E; eauto.
Qed.

(** The page of [i] copied into [f] and mapped in [d]. *)
Lemma copy_step_inv pgdir GP sz d pm f l GD i fp pm2 pm3 l3 G3 :
  copy_inv pgdir GP sz d pm (f :: l) GD i -> uaddr i -> i < sz ->
  frame_of (pm_mem pm) pgdir i = Some fp ->
  page_ok f -> f ∉ l -> GD !! f = None ->
  same_except (eq f) (pm_mem pm) (pm_mem pm2) ->
  (forall o, 0 <= o < PGSIZE -> ld8 (pm_mem pm2) (f + o) = ld8 (pm_mem pm) (fp + o)) ->
  as_inv pm3 l3 d (<[f := RFrame i]> G3) -> grown l GD l3 G3 ->
  (forall va, 0 <= va < 2 ^ 32 -> va mod PGSIZE = 0 ->
     pte_of (pm_mem pm3) d va =
     if decide (va = i)
     then Z.lor (Z.lor (V2P f) (PTE_FLAGS (pte_of (pm_mem pm) pgdir i))) PTE_P
     else pte_of (pm_mem pm) d va) ->
  same_except (structural l GD) (pm_mem pm2) (pm_mem pm3) ->
  same_except (structural (f :: l) GD) (pm_mem pm) (pm_mem pm3) ->
  copy_inv pgdir GP sz d pm3 l3 (<[f := RFrame i]> G3) (i + PGSIZE).
Proof.
  intros H Hu Hi Hfp Hf Hfl HGf Hs12 Hcont H3 Hg Hpte Hs23 Hs.
  pose proof (cp_parent _ _ _ _ _ _ _ _ H) as HP.
  pose proof (fun p => copy_apart _ _ _ _ _ _ _ _ p H) as Hnew.
  pose proof (fun p => copy_apart_grown _ _ _ _ _ _ _ _ _ _ _ p H Hg) as Hkeep.
  destruct (as_inv_other _ _ _ _ _ pm3 l3 HP (as_kmem _ _ _ _ H3) (fun p Hp => proj1 (Hkeep p Hp)) Hs Hnew)
    as [HP3 HpteP].
  assert (Hfr : frame_of (pm_mem pm3) pgdir i = Some fp).
  { rewrite <- Hfp. by apply frame_ext, HpteP, uaddr_range. }
  destruct (walk_mapped _ _ _ _ _ _ HP Hu Hfp) as (_ & _ & _ & _ & HvP & Hva).
  destruct (flags_P _ HvP) as [Hfl1 Hfl2].
  destruct (pte_value f _ Hf Hfl1) as (_ & HwP & Hwa & HwF).
  split; auto.
  - intros p Hp. by apply Hkeep.
  - intros va Hv1 Hv2. erewrite frame_ext; [by apply H|].
    by apply HpteP, uaddr_range.
  - intros va Hv1 Hv2. destruct (decide (va = i)) as [->|Hne].
    + exists fp, f. rewrite HpteP by by apply uaddr_range.
      unfold frame_of at 2. rewrite Hpte by (apply Hu || by apply uaddr_range).
      rewrite decide_True by done. rewrite HwP, Hwa, HwF, Hfl2.
      split_and!; auto. intros o Ho.
      apply (as_frame _ _ _ _ HP _ _ Hu) in Hfp.
      pose proof (as_pages _ _ _ _ HP _ _ Hfp) as [Hpp Hpl].
      rewrite (same_except_ld8 _ _ _ _ _ Hs23 Hf), Hcont by
        (done || intros [?|[?|[j ?]]]; congruence).
      rewrite (same_except_ld8 _ _ _ _ _ Hs Hpp); auto.
      intros Hp%Hnew. congruence.
    + assert (Hvi : va < i).
      { pose proof (page_gap i va (proj1 Hu) (proj1 Hv1)). lia. }
      refine (copied_frame _ _ _ _ _ _ _ _ _ _ H Hs _ _ va Hv1 Hvi).
      * intros p Hp. split; [by apply Hnew|]. intros va' Hva'.
        destruct Hp as [Hp|[Hp|[j Hp]]]; [|congruence..].
        rewrite (as_free _ _ _ _ _ (cp_child _ _ _ _ _ _ _ _ H) Hp) in Hva'. done.
      * intros va' Hv3 Hv4. rewrite Hpte by (apply Hv3 || by apply uaddr_range).
        rewrite decide_False; [done|lia].
  - intros va Hv1 Hv2. rewrite <- (cp_rest _ _ _ _ _ _ _ _ H va Hv1) by clia.
    apply frame_ext. rewrite Hpte by (apply Hv1 || by apply uaddr_range).
    rewrite decide_False; [done|clia].
Qed.

Lemma kept_frame f l GD l3 G3 i :
  f ∉ l -> GD !! f = None -> grown l GD l3 G3 ->
  kept (f :: l) GD l3 (<[f := RFrame i]> G3).
Proof.
  intros Hfl HGf Hg p. pose proof (grown_kept _ _ _ _ Hg p) as Hk.
  rewrite elem_of_cons, lookup_insert_is_Some'. naive_solver.
Qed.

(** The page [fp] is copied into the free page [f]. *)
Record page_copied (f fp d : Z) (pm : pmem) (l : list Z) (GD : gmap Z prole) (pm' : pmem) : Prop := {
  pc_page : page_ok f;
  pc_free : f ∉ l;
  pc_role : GD !! f = None;
  pc_inv : as_inv pm' l d GD;
  pc_pte : forall va, 0 <= va < 2 ^ 32 -> pte_of (pm_mem pm') d va = pte_of (pm_mem pm) d va;
  pc_mem : same_except (eq f) (pm_mem pm) (pm_mem pm');
  pc_cont : forall o, 0 <= o < PGSIZE -> ld8 (pm_mem pm') (f + o) = ld8 (pm_mem pm) (fp + o)
}.

Lemma take_copy pm f l d GD fp :
  as_inv pm (f :: l) d GD -> page_ok fp ->
  exists pm1, kalloc pm = Ok (f, pm1) /\
    page_copied f fp d pm l GD (set_mem (Str.memmove (pm_mem pm1) f fp PGSIZE) pm1).
Proof.
  intros HD Hpp. destruct (as_pop _ _ _ _ _ HD) as (pm1 & E1 & H1 & Hm1 & Hfpg & Hfl & HGf).
  destruct (memmove_same_except (pm_mem pm1) f fp Hfpg Hpp) as [Hs2 Hc2].
  exists pm1. split; [done|]. set (pm2 := set_mem (Str.memmove (pm_mem pm1) f fp PGSIZE) pm1) in *.
  change (Str.memmove (pm_mem pm1) f fp PGSIZE) with (pm_mem pm2) in Hs2, Hc2.
  assert (H2 : as_inv pm2 l d GD /\ forall va, 0 <= va < 2 ^ 32 ->
    pte_of (pm_mem pm2) d va = pte_of (pm_mem pm1) d va).
  { apply (as_inv_other (eq f) _ l); auto.
    - eapply kmem_inv_except; [apply H1|exact Hs2|]. by intros p Hp <-.
    - intros p [r Hp]. by apply (as_pages _ _ _ _ H1) in Hp as [_ ?].
    - by intros p <-. }
  rewrite Hm1 in Hs2, Hc2, H2. destruct H2. by split.
Qed.

Lemma page_copied_except f fp d pm l GD pm2 :
  page_copied f fp d pm l GD pm2 -> same_except (structural (f :: l) GD) (pm_mem pm) (pm_mem pm2).
Proof.
  intros Hc. eapply same_except_weaken; [apply Hc|]. intros p <-. left. apply elem_of_cons. by left.
Qed.

(** The page that could not be mapped and the child's directory are freed. *)
Lemma copyuvm_undo f fp d pm GD pm2 :
  page_copied f fp d pm [] GD pm2 ->
  exists pm5 pm' l', kfree f pm2 = Ok (tt, pm5) /\ freevm d pm5 = Ok (tt, pm') /\ kmem_inv pm' l' /\
    (forall p, p ∈ l' <-> owned [f] GD p) /\ same_except (owned [f] GD) (pm_mem pm) (pm_mem pm').
Proof.
  intros Hc. destruct (as_push _ f _ _ _ (pc_inv _ _ _ _ _ _ _ Hc)) as (pm5 & E5 & H5 & _ & Hs5); [apply Hc..|].
  destruct (freevm_kept _ _ _ _ [f] GD (pm_mem pm) H5) as (pm' & l' & E & Hk & Hl & Hs); [by intros p| |].
  { eapply same_except_trans; eapply same_except_weaken; [exact (page_copied_except _ _ _ _ _ _ _ Hc)| |exact Hs5|].
    - apply structural_owned.
    - intros p <-. left. apply elem_of_cons. by left. }
  exists pm5, pm', l'. split_and!; auto.
Qed.

(** The copy is mapped at [i]. *)
Lemma copied_mapped f fp d pm l GD pm2 i w pm3 :
  page_copied f fp d pm l GD pm2 ->
  (forall va, 0 <= va < 2 ^ 32 -> va mod PGSIZE = 0 ->
     pte_of (pm_mem pm3) d va = if decide (va = i) then w else pte_of (pm_mem pm2) d va) ->
  same_except (structural l GD) (pm_mem pm2) (pm_mem pm3) ->
  same_except (structural (f :: l) GD) (pm_mem pm) (pm_mem pm3) /\
  forall va, 0 <= va < 2 ^ 32 -> va mod PGSIZE = 0 ->
    pte_of (pm_mem pm3) d va = if decide (va = i) then w else pte_of (pm_mem pm) d va.
Proof.
  intros Hc Hpte Hs3. split.
  - eapply same_except_trans; [by eapply page_copied_except|]. eapply same_except_weaken; [exact Hs3|].
    intros p [Hp|Hp]; [left; apply elem_of_cons; by right|by right].
  - intros va Hv1 Hv2. rewrite Hpte by done. case_decide; [done|]. by apply Hc.
Qed.

Lemma copyuvm_loop_ok fuel pgdir GP sz d pm l GD i :
  copy_inv pgdir GP sz d pm l GD i -> i mod PGSIZE = 0 -> 0 <= i <= KERNBASE ->
  sz <= KERNBASE -> sz - i <= Z.of_nat fuel * PGSIZE ->
  exists r pm' l', copyuvm_loop fuel pgdir d i sz pm = Ok (r, pm') /\
    same_except (owned l GD) (pm_mem pm) (pm_mem pm') /\
    ((r = d /\ exists j G', sz <= j /\ (j < sz + PGSIZE \/ j = i) /\
        j mod PGSIZE = 0 /\ copy_inv pgdir GP sz d pm' l' G' j /\ kept l GD l' G' /\
        forall va, KERNBASE <= va < 2 ^ 32 -> va mod PGSIZE = 0 ->
          pte_of (pm_mem pm') d va = pte_of (pm_mem pm) d va) \/
     (r = 0 /\ kmem_inv pm' l' /\ forall p, p ∈ l' <-> owned l GD p)).
Proof.
  revert pm l GD i. induction fuel as [|fuel IH]; intros pm l GD i H Hal Hr Hsz Hf; cbn [copyuvm_loop];
    (destruct (Z.ltb_spec i sz) as [Hlt|Hge];
     [|exists d, pm, l; split_and!; auto using same_except_refl; left; split; [done|];
       exists i, GD; split_and!; auto; by intros p]); [clia|].
  assert (Hu : uaddr i) by (split; [done|lia]). pose proof (uaddr_range i Hu) as Hir.
  destruct (cp_mapped _ _ _ _ _ _ _ _ H i Hu Hlt) as [fp Hfp].
  pose proof (cp_parent _ _ _ _ _ _ _ _ H) as HP. pose proof (cp_child _ _ _ _ _ _ _ _ H) as HD.
  destruct (walk_mapped _ _ _ _ _ _ HP Hu Hfp) as (ptr & Ew & Hp0 & Ev & HvP & Hva).
  destruct (flags_P _ HvP) as [Hfl1 _].
  unfold bind at 1. rewrite Ew. destruct (Z.eqb_spec ptr 0); [done|].
  unfold bind at 1, load, gets. rewrite Ev, HvP. cbn [negb]. cbv zeta.
  rewrite Hva. unfold bind at 1. destruct l as [|f l].
  { rewrite kalloc_nil by apply HP. cbn [Z.eqb].
    destruct (freevm_kept _ _ _ _ [] GD (pm_mem pm) HD) as (pm' & l' & E & Hk & Hl & Hs);
      [by intros p|apply same_except_refl|].
    exists 0, pm', l'. unfold bind. rewrite E. split_and!; auto. }
  pose proof (as_pages _ _ _ _ HP fp _ (proj1 (as_frame _ _ _ _ HP _ _ Hu) Hfp)) as [Hpp _].
  destruct (take_copy _ _ _ _ _ fp HD Hpp) as (pm1 & E1 & Hc). rewrite E1.
  pose proof Hc as [Hfpg Hfl HGf H2 Hpte2 Hs2 Hc2]. pose proof (page_range f Hfpg) as Hfr.
  destruct (Z.eqb_spec f 0); [clia|]. unfold bind at 1, mmove, modify. set (pm2 := set_mem _ pm1) in *. unfold bind at 1.
  destruct (mappages_user pm2 l d GD i f (PTE_FLAGS (pte_of (pm_mem pm) pgdir i)))
    as [[E3 ->]|(pm3 & l3 & G3 & E3 & H3 & Hg3 & Hpte3 & Hs3)]; auto.
  { rewrite <- (cp_rest _ _ _ _ _ _ _ _ H i Hu) by lia. by apply frame_ext, Hpte2. }
  - rewrite E3. destruct (copyuvm_undo _ _ _ _ _ _ Hc) as (pm5 & pm' & l' & E5 & E & Hk & Hl & Hs).
    exists 0, pm', l'. unfold bind. rewrite E5, E. split_and!; auto.
  - rewrite E3. destruct (copied_mapped _ _ _ _ _ _ _ _ _ _ Hc Hpte3 Hs3) as [Hs13 Hpte13].
    pose proof (copy_step_inv _ _ _ _ _ _ _ _ _ _ pm2 _ _ _ H Hu Hlt Hfp Hfpg Hfl
      HGf Hs2 Hc2 H3 Hg3 Hpte13 Hs3 Hs13) as Hnext.
    pose proof (kept_frame f l GD l3 G3 i Hfl HGf Hg3) as Hkp. rewrite (u32_small (i + PGSIZE)) by clia.
    destruct (IH pm3 l3 (<[f := RFrame i]> G3) (i + PGSIZE) Hnext) as (r & pm' & l' & E & Hs & Hres); try clia.
    { by apply page_next. }
    { split; [clia|]. apply page_gap; [done|done|apply Hu]. }
    exists r, pm', l'. split; [exact E|]. split.
    { eapply same_except_trans; eapply same_except_weaken; [exact Hs13|apply structural_owned|exact Hs|].
      intros p. apply Hkp. }
    destruct Hres as [(-> & j & G' & Hj & Hj2 & Hj3 & Hc' & Hk & Hp)|(-> & Hk & Hl)].
    + left. split; [done|]. exists j, G'. split_and!; auto; [clia|..].
      * intros p. rewrite (Hk p). apply Hkp.
      * intros va Hv1 Hv2. rewrite Hp, Hpte13 by (done || clia). rewrite decide_False; [done|clia].
    + right. split_and!; auto. intros p. rewrite Hl. apply Hkp.
Qed.

(** (C29) [setupkvm] never panics. It either builds a directory that has
    exactly the kernel mappings of [kmap] and no user page, with every page of
    it taken from the free list, or returns 0 and leaves the set of free pages
    as it was. No byte outside the formerly free pages is written. *)
Theorem setupkvm_spec pm l :
  kmem_inv pm l ->
  exists r pm' l', setupkvm pm = Ok (r, pm') /\
    same_except (fun p => p ∈ l) (pm_mem pm) (pm_mem pm') /\
    ((r <> 0 /\ exists G', as_inv pm' l' r G' /\ kernel_mapped (pm_mem pm') r /\
        kept l ∅ l' G') \/
     (r = 0 /\ kmem_inv pm' l' /\ forall p, p ∈ l' <-> p ∈ l)).
Proof. apply setupkvm_ok. Qed.

Lemma copy_inv_start pm l pgdir GP sz pm1 l1 d GD :
  as_inv pm l pgdir GP ->
  (forall va, uaddr va -> va < sz -> is_Some (frame_of (pm_mem pm) pgdir va)) ->
  as_inv pm1 l1 d GD -> kernel_mapped (pm_mem pm1) d -> kept l ∅ l1 GD ->
  same_except (fun p => p ∈ l) (pm_mem pm) (pm_mem pm1) ->
  copy_inv pgdir GP sz d pm1 l1 GD 0.
Proof.
  intros HP Hmap HD Hk Hkp Hs.
  assert (Hl : forall p, owned l1 GD p -> p ∈ l).
  { intros p Hp%Hkp. rewrite lookup_empty in Hp. by destruct Hp as [?|[? ?]]. }
  destruct (as_inv_other (fun p => p ∈ l) _ _ _ _ pm1 l1 HP (as_kmem _ _ _ _ HD))
    as [HP1 Hpte]; [|exact Hs|..].
  { intros p [r Hp] Hp1. apply (as_pages _ _ _ _ HP) in Hp as [_ Hp].
    apply Hp, Hl. by left. }
  { intros p Hp. by eapply as_free. }
  split; auto.
  - intros p [r Hp]. destruct (GD !! p) eqn:E; [|done].
    apply (as_pages _ _ _ _ HP) in Hp as [_ Hp]. exfalso. apply Hp, Hl.
    right. eauto.
  - intros va Hv1 Hv2. erewrite frame_ext; [by apply Hmap|].
    by apply Hpte, uaddr_range.
  - intros va [_ Hv1] Hv2. lia.
  - intros va Hv1 Hv2. unfold frame_of.
    rewrite (proj2 Hk) by apply Hv1. by rewrite has_0.
Qed.

(** (C6) [copyuvm], on an address space all of whose pages below [sz] are
    mapped, never panics. It either returns a directory with the kernel
    mappings and, below [sz], pages of its own with the parent's contents and
    flags and nothing above, sharing no page with the parent, or returns 0
    and leaves the set of free pages as it was. The parent's address space and
    every page that was not free are unchanged, and no page is lost. *)
Theorem copyuvm_spec pm l pgdir GP sz :
  as_inv pm l pgdir GP -> 0 <= sz <= KERNBASE ->
  (forall va, uaddr va -> va < sz -> is_Some (frame_of (pm_mem pm) pgdir va)) ->
  exists r pm' l', copyuvm pgdir sz pm = Ok (r, pm') /\
    as_inv pm' l' pgdir GP /\
    same_except (fun p => p ∈ l) (pm_mem pm) (pm_mem pm') /\
    ((r <> 0 /\ exists GD, as_inv pm' l' r GD /\
        (forall p, is_Some (GP !! p) -> GD !! p = None) /\ kept l ∅ l' GD /\
        copied (pm_mem pm') pgdir r sz /\
        (forall va, uaddr va -> sz <= va -> frame_of (pm_mem pm') r va = None) /\
        (forall k va, k ∈ kmaps -> kreg k va -> va mod PGSIZE = 0 ->
           pte_of (pm_mem pm') r va = kpte k va)) \/
     (r = 0 /\ forall p, p ∈ l' <-> p ∈ l)).
Proof.
  intros H Hsz Hmap. unfold copyuvm, bind.
  destruct (setupkvm_ok pm l (as_kmem _ _ _ _ H))
    as (d & pm1 & l1 & E1 & Hs1 & [(Hd0 & GD & HD & Hk & Hkp)|(-> & Hk & Hl)]);
    rewrite E1.
  - destruct (Z.eqb_spec d 0); [done|].
    assert (Hown : forall p, owned l1 GD p <-> p ∈ l).
    { intros p. unfold owned. rewrite (Hkp p), lookup_empty.
      split; [by intros [?|[? ?]]|by left]. }
    destruct (copyuvm_loop_ok (S (Z.to_nat (sz / PGSIZE))) pgdir GP sz d pm1 l1 GD 0)
      as (r & pm' & l' & E & Hs & Hres); [by eapply copy_inv_start|done|done|lia| |].
    { pose proof (Z.div_mod sz PGSIZE ltac:(done)).
      pose proof (Z.mod_pos_bound sz PGSIZE ltac:(done)).
      assert (0 <= sz / PGSIZE) by (apply Z.div_pos; clia). clia. }
    assert (Hs' : same_except (fun p => p ∈ l) (pm_mem pm) (pm_mem pm')).
    { eapply same_except_trans; [exact Hs1|].
      eapply same_except_weaken; [exact Hs|]. intros p. apply Hown. }
    exists r, pm', l'. split; [exact E|].
    destruct Hres as [(-> & j & G' & Hj & Hj2 & Hj3 & Hc & Hk2 & Hp)|(-> & Hk2 & Hl)].
    + destruct Hc as [CP CD Cs Cm Cc Cr].
      split_and!; auto. left. split; [done|]. exists G'. split_and!; auto.
      * intros p. rewrite (Hk2 p). apply Hkp.
      * intros va Hv1 Hv2. apply Cc; [done|lia].
      * intros va Hv1 Hv2. destruct (decide (j <= va)) as [|Hn]; [by apply Cr|].
        destruct Hv1 as [Hal _]. unfold PGSIZE in *.
        pose proof (Z.div_mod va 4096 ltac:(lia)).
        pose proof (Z.div_mod j 4096 ltac:(lia)). lia.
      * intros k va Hk3 Hv1 Hv2. pose proof kmaps_wf as W.
        rewrite Forall_forall in W. destruct (W k Hk3).
        rewrite Hp by (done || unfold kreg in Hv1; clia). by apply Hk.
    + split_and!; auto; [|right; split; [done|]; intros p; by rewrite Hl].
      apply (as_inv_other (fun p => p ∈ l) pm l); auto.
      * intros p [r Hp] Hp'. apply (as_pages _ _ _ _ H) in Hp as [_ Hp].
        apply Hp, Hown, Hl, Hp'.
      * intros p Hp. by eapply as_free.
  - exists 0, pm1, l1. split; [done|]. split_and!; auto.
    apply (as_inv_other (fun p => p ∈ l) pm l); auto.
    + intros p [r Hp] Hp'. apply (as_pages _ _ _ _ H) in Hp as [_ Hp].
      by apply Hp, Hl.
    + intros p Hp. by eapply as_free.
Qed.

End VmKern.

(** ** Instances *)

Lemma setupkvm_spec_witness :
  exists r pm', setupkvm (I := demo_image) demo_pm = Ok (r, pm') /\
    same_except (I := demo_image)
      (fun p => p ∈ [demo_page 0; demo_page 1; demo_page 2])
      (pm_mem demo_pm) (pm_mem pm').
Proof.
  destruct (setupkvm_spec (I := demo_image) (ImageOk0 := demo_image_ok)
    demo_pm _ demo_kmem_inv) as (r & pm' & l' & E & Hs & _).
  eauto.
Defined.

Lemma uaddr_0 : uaddr 0.
Proof. done. Qed.

Lemma demo_lt : 0 <= 0 < 4096.
Proof. lia. Qed.

(** An address space with one user page. *)
Lemma demo_user :
  exists pm l G, as_inv (I := demo_image) pm l (demo_page 0) G /\
    is_Some (frame_of (pm_mem pm) (demo_page 0) 0).
Proof.
  destruct demo_as_inv as [H1 H2].
  destruct (allocuvm_loop_ok (I := demo_image) (ImageOk0 := demo_image_ok) 2
    demo_as _ _ _ 0 0 4096 H1) as (r & pm' & l' & G' & E & Hr);
    [done|done|done|done|done|done|done|done| |].
  { intros va Hu _. apply frame_pte_none. rewrite H2; [done|].
    by apply uaddr_range. }
  assert (E' : match allocuvm_loop (I := demo_image) 2 (demo_page 0) 0 0 4096 demo_as
    with Ok (r, _) => r = 4096 | _ => False end) by (vm_compute; reflexivity).
  rewrite E in E'. destruct Hr as [[_ Hal]|[? _]]; [|lia].
  exists pm', l', G'. split; [apply Hal|].
  destruct (al_new _ _ _ _ _ _ _ _ _ Hal 0 uaddr_0 demo_lt) as (f & Hf & _).
  rewrite Hf. exists f. reflexivity.
Qed.

Lemma copyuvm_spec_witness :
  exists pm, is_Some (frame_of (pm_mem pm) (demo_page 0) 0) /\
  exists r pm', copyuvm (I := demo_image) (demo_page 0) 100 pm = Ok (r, pm') /\
    (r <> 0 -> copied (pm_mem pm') (demo_page 0) r 100).
Proof.
  destruct demo_user as (pm & l & G & H & Hf). exists pm. split; [done|].
  destruct (copyuvm_spec (I := demo_image) (ImageOk0 := demo_image_ok)
    pm l (demo_page 0) G 100) as (r & pm' & l' & E & _ & _ & Hr); [done|done| |].
  - intros va [Hal Hu] Hlt. replace va with 0; [done|].
    rewrite Z.mod_small in Hal by clia. done.
  - exists r, pm'. split; [done|]. intros Hr0.
    destruct Hr as [(_ & GD & _ & _ & _ & Hc & _)|[? _]]; done.
Defined.
