(* ===== verification/Fs.v ===== *)
(** * The file system (fs.c)

    The state is the global super block, the inode cache and the block layer
    below, of which only the interface of [Blocks] is used.  An inode pointer
    is an index into [icache]; where the code can return a null pointer the
    result is an option.  [icache.lock] makes the operations on reference
    counts atomic, and [ilock] of an inode held by another process is
    [Blocked].  Memory that the functions fill for their caller is part of
    their result: [readi] returns its value and the bytes it stored. *)

From S2P Require Import Prelude Param Bytes Memory Sleeplock Log Blocks.

(** ** On-disk structures (fs.h) *)

Definition T_DIR : Z := 1.
Definition T_FILE : Z := 2.
Definition T_DEV : Z := 3.

Definition sizeof_dinode : Z := 64.
Definition IPB : Z := BSIZE / sizeof_dinode.
Definition IBLOCK (i : Z) (sb : superblock) : Z := i / IPB + sb_inodestart sb.
Definition BBLOCK (b : Z) (sb : superblock) : Z := b / BPB + sb_bmapstart sb.

Record dinode := {
  d_type : Z; d_major : Z; d_minor : Z; d_nlink : Z; d_size : Z; d_addrs : list Z
}.

Definition short_at (o : nat) (d : blk) : Z := s16 (getn 2 o d).

(** The [k]th dinode of a block. *)
Definition get_dinode (k : nat) (d : blk) : dinode :=
  let o := (64 * k)%nat in
  {| d_type := short_at o d; d_major := short_at (o + 2) d;
     d_minor := short_at (o + 4) d; d_nlink := short_at (o + 6) d;
     d_size := getn 4 (o + 8) d;
     d_addrs := (fun j => getn 4 (o + 12 + 4 * j) d) <$> seq 0 13 |}.

Fixpoint set_addrs (o : nat) (as_ : list Z) (d : blk) : blk :=
  match as_ with
  | [] => d
  | a :: as_ => set_addrs (o + 4) as_ (setn 4 o a d)
  end.

Definition set_dinode (k : nat) (x : dinode) (d : blk) : blk :=
  let o := (64 * k)%nat in
  set_addrs (o + 12) (d_addrs x)
    (setn 4 (o + 8) (d_size x)
      (setn 2 (o + 6) (d_nlink x)
        (setn 2 (o + 4) (d_minor x)
          (setn 2 (o + 2) (d_major x) (setn 2 o (d_type x) d))))).

Definition dinode0 (type : Z) : dinode :=
  {| d_type := type; d_major := 0; d_minor := 0; d_nlink := 0; d_size := 0;
     d_addrs := replicate 13 0 |}.

Definition sizeof_dirent : Z := 16.

(** ** The inode cache *)

Record inode := {
  i_dev : Z;
  inum : Z;
  ref : Z;
  i_lock : sleeplock;
  valid : bool;
  i_d : dinode          (* type, major, minor, nlink, size, addrs *)
}.

Definition inode0 : inode :=
  {| i_dev := 0; inum := 0; ref := 0; i_lock := initsleeplock; valid := false;
     i_d := dinode0 0 |}.
#[global] Instance inode_inhabited : Inhabited inode := populate inode0.

Definition itype (ip : inode) : Z := d_type (i_d ip).
Definition isize (ip : inode) : Z := d_size (i_d ip).

Definition set_ref (r : Z) (ip : inode) : inode :=
  {| i_dev := i_dev ip; inum := inum ip; ref := r; i_lock := i_lock ip;
     valid := valid ip; i_d := i_d ip |}.
Definition set_ilock (l : sleeplock) (ip : inode) : inode :=
  {| i_dev := i_dev ip; inum := inum ip; ref := ref ip; i_lock := l;
     valid := valid ip; i_d := i_d ip |}.
Definition set_valid (v : bool) (ip : inode) : inode :=
  {| i_dev := i_dev ip; inum := inum ip; ref := ref ip; i_lock := i_lock ip;
     valid := v; i_d := i_d ip |}.
Definition set_d (d : dinode) (ip : inode) : inode :=
  {| i_dev := i_dev ip; inum := inum ip; ref := ref ip; i_lock := i_lock ip;
     valid := valid ip; i_d := d |}.

Definition set_type (t : Z) (d : dinode) : dinode :=
  {| d_type := t; d_major := d_major d; d_minor := d_minor d; d_nlink := d_nlink d;
     d_size := d_size d; d_addrs := d_addrs d |}.
Definition set_devno (ma mi : Z) (d : dinode) : dinode :=
  {| d_type := d_type d; d_major := ma; d_minor := mi; d_nlink := d_nlink d;
     d_size := d_size d; d_addrs := d_addrs d |}.
Definition set_nlink (n : Z) (d : dinode) : dinode :=
  {| d_type := d_type d; d_major := d_major d; d_minor := d_minor d; d_nlink := n;
     d_size := d_size d; d_addrs := d_addrs d |}.
Definition set_size (n : Z) (d : dinode) : dinode :=
  {| d_type := d_type d; d_major := d_major d; d_minor := d_minor d;
     d_nlink := d_nlink d; d_size := n; d_addrs := d_addrs d |}.
Definition set_addr (i : nat) (a : Z) (d : dinode) : dinode :=
  {| d_type := d_type d; d_major := d_major d; d_minor := d_minor d;
     d_nlink := d_nlink d; d_size := d_size d; d_addrs := <[i := a]> (d_addrs d) |}.

Record fsst (S : Type) := {
  fs_b : S;                (* the log and buffer cache *)
  fs_sb : superblock;
  icache : list inode;
  fs_pid : Z               (* the calling process *)
}.
Arguments fs_b {S} _.
Arguments fs_sb {S} _.
Arguments icache {S} _.
Arguments fs_pid {S} _.

Definition set_b {S} (b : S) (s : fsst S) : fsst S :=
  {| fs_b := b; fs_sb := fs_sb s; icache := icache s; fs_pid := fs_pid s |}.
Definition set_icache {S} (l : list inode) (s : fsst S) : fsst S :=
  {| fs_b := fs_b s; fs_sb := fs_sb s; icache := l; fs_pid := fs_pid s |}.

(** [struct devsw], two function pointers that can be null: [read] returns its
    value and the bytes it stored, [write] takes the bytes. *)
Record device (S : Type) := {
  dev_read : option (nat -> Z -> M (fsst S) (Z * list Z));
  dev_write : option (nat -> list Z -> Z -> M (fsst S) Z)
}.
Arguments dev_read {S} _.
Arguments dev_write {S} _.

Section Fs.
Context {S : Type} `{BO : BlockOps S}.
Variable devsw : Z -> device S.

(** Calls into the block layer. *)
Definition dio {A} (c : M S A) : M (fsst S) A :=
  fun s => match c (fs_b s) with
           | Ok (a, b) => Ok (a, set_b b s)
           | Panic msg => Panic msg
           | Fault => Fault
           | Blocked => Blocked
           | OutOfFuel => OutOfFuel
           end.

Definition bufd (b : nat) : M (fsst S) blk := gets (fun s => bdata b (fs_b s)).

Definition iat (s : fsst S) (i : nat) : inode := icache s !!! i.
Definition iupd (i : nat) (f : inode -> inode) : M (fsst S) unit :=
  modify (fun s => set_icache (alter f i (icache s)) s).

(** ** Super block *)

Definition readsb (d : Z) : M (fsst S) superblock :=
  let! bp := dio (bread d 1) in
  let! x := bufd bp in
  do! dio (brelse bp) in
  ret (sb_of_block x).

Definition iinit (d : Z) : M (fsst S) unit :=
  do! modify (fun s => set_icache
        ((fun ip => set_ilock initsleeplock ip) <$> icache s) s) in
  let! sb := readsb d in
  modify (fun s => {| fs_b := fs_b s; fs_sb := sb; icache := icache s;
                      fs_pid := fs_pid s |}).

(** ** Blocks *)

Definition bzero (d bno : Z) : M (fsst S) unit :=
  let! bp := dio (bread d bno) in
  do! dio (bset bp (replicate (Z.to_nat BSIZE) 0)) in
  do! dio (log_write bp) in
  dio (brelse bp).

Definition bitmask (bi : Z) : Z := Z.shiftl 1 (bi mod 8).
Definition bit_free (d : blk) (bi : Z) : bool :=
  Z.land (d !!! Z.to_nat (bi / 8)) (bitmask bi) =? 0.
Definition bit_set (d : blk) (bi : Z) : blk :=
  alter (fun x => Z.lor x (bitmask bi)) (Z.to_nat (bi / 8)) d.
Definition bit_clear (d : blk) (bi : Z) : blk :=
  alter (fun x => Z.land x (Z.lnot (bitmask bi))) (Z.to_nat (bi / 8)) d.

(** The inner loop of [balloc]: the first free bit from [bi] on. *)
Fixpoint balloc_scan (fuel : nat) (d : blk) (size b bi : Z) : option Z :=
  match fuel with
  | O => None
  | Datatypes.S f =>
      if (bi <? BPB) && (b + bi <? size) then
        if bit_free d bi then Some bi else balloc_scan f d size b (bi + 1)
      else None
  end.

Fixpoint balloc_loop (fuel : nat) (d b : Z) : M (fsst S) Z :=
  let! size := gets (fun s => sb_size (fs_sb s)) in
  if b <? size then
    match fuel with
    | O => out_of_fuel
    | Datatypes.S f =>
        let! sb := gets fs_sb in
        let! bp := dio (bread d (BBLOCK b sb)) in
        let! x := bufd bp in
        match balloc_scan (Z.to_nat BPB) x size b 0 with
        | Some bi =>
            do! dio (bset bp (bit_set x bi)) in
            do! dio (log_write bp) in
            do! dio (brelse bp) in
            do! bzero d (b + bi) in
            ret (b + bi)
        | None =>
            do! dio (brelse bp) in
            balloc_loop f d (b + BPB)
        end
    end
  else panic "balloc: out of blocks".

Definition balloc (d : Z) : M (fsst S) Z :=
  let! size := gets (fun s => sb_size (fs_sb s)) in
  balloc_loop (Z.to_nat (size / BPB + 1)) d 0.

Definition bfree (d b : Z) : M (fsst S) unit :=
  let! sb := gets fs_sb in
  let! bp := dio (bread d (BBLOCK b sb)) in
  let! x := bufd bp in
  let bi := b mod BPB in
  if bit_free x bi then panic "freeing free block"
  else
    do! dio (bset bp (bit_clear x bi)) in
    do! dio (log_write bp) in
    dio (brelse bp).

(** ** Inodes *)

(** The search of [iget]: the cached entry, and the first empty slot. *)
Definition iget (d n : Z) : M (fsst S) nat :=
  let! s := get in
  match find_idx (fun ip => (0 <? ref ip) && (i_dev ip =? d) && (inum ip =? n))
          (icache s) with
  | Some i => do! iupd i (fun ip => set_ref (ref ip + 1) ip) in ret i
  | None =>
      match find_idx (fun ip => ref ip =? 0) (icache s) with
      | None => panic "iget: no inodes"
      | Some i =>
          do! iupd i (fun ip => {| i_dev := d; inum := n; ref := 1;
                                   i_lock := i_lock ip; valid := false;
                                   i_d := i_d ip |}) in
          ret i
      end
  end.

Fixpoint ialloc_loop (fuel : nat) (d type i : Z) : M (fsst S) nat :=
  let! sb := gets fs_sb in
  if i <? sb_ninodes sb then
    match fuel with
    | O => out_of_fuel
    | Datatypes.S f =>
        let! bp := dio (bread d (IBLOCK i sb)) in
        let! x := bufd bp in
        let k := Z.to_nat (i mod IPB) in
        if d_type (get_dinode k x) =? 0 then
          do! dio (bset bp (set_dinode k (dinode0 type) x)) in
          do! dio (log_write bp) in
          do! dio (brelse bp) in
          iget d i
        else
          do! dio (brelse bp) in
          ialloc_loop f d type (i + 1)
    end
  else panic "ialloc: no inodes".

Definition ialloc (d type : Z) : M (fsst S) nat :=
  let! sb := gets fs_sb in
  ialloc_loop (Z.to_nat (sb_ninodes sb)) d type 1.

Definition iupdate (i : nat) : M (fsst S) unit :=
  let! s := get in
  let ip := iat s i in
  let! bp := dio (bread (i_dev ip) (IBLOCK (inum ip) (fs_sb s))) in
  let! x := bufd bp in
  do! dio (bset bp (set_dinode (Z.to_nat (inum ip mod IPB)) (i_d ip) x)) in
  do! dio (log_write bp) in
  dio (brelse bp).

Definition idup (i : nat) : M (fsst S) nat :=
  do! iupd i (fun ip => set_ref (ref ip + 1) ip) in ret i.

Definition lock_inode (i : nat) : M (fsst S) unit :=
  let! s := get in
  match acquiresleep (i_lock (iat s i)) (fs_pid s) with
  | Some lk => iupd i (set_ilock lk)
  | None => blocked
  end.

Definition unlock_inode (i : nat) : M (fsst S) unit :=
  iupd i (fun ip => set_ilock (releasesleep (i_lock ip)) ip).

Definition ilock (i : nat) : M (fsst S) unit :=
  let! s := get in
  if ref (iat s i) <? 1 then panic "ilock"
  else
    do! lock_inode i in
    let! s := get in
    let ip := iat s i in
    if valid ip then ret tt
    else
      let! bp := dio (bread (i_dev ip) (IBLOCK (inum ip) (fs_sb s))) in
      let! x := bufd bp in
      do! iupd i (set_d (get_dinode (Z.to_nat (inum ip mod IPB)) x)) in
      do! dio (brelse bp) in
      do! iupd i (set_valid true) in
      let! s := get in
      if itype (iat s i) =? 0 then panic "ilock: no type" else ret tt.

Definition iunlock (i : nat) : M (fsst S) unit :=
  let! s := get in
  if negb (holdingsleep (i_lock (iat s i)) (fs_pid s)) || (ref (iat s i) <? 1)
  then panic "iunlock"
  else unlock_inode i.

(** ** Inode contents *)

Definition addr_at (i : nat) (k : Z) (s : fsst S) : Z :=
  d_addrs (i_d (iat s i)) !!! Z.to_nat k.
Definition set_addr_at (i : nat) (k a : Z) : M (fsst S) unit :=
  iupd i (fun ip => set_d (set_addr (Z.to_nat k) a (i_d ip)) ip).

(** [if((addr = ip->addrs[k]) == 0) ip->addrs[k] = addr = balloc(ip->dev)] *)
Definition addr_or_alloc (i : nat) (k : Z) : M (fsst S) Z :=
  let! addr := gets (addr_at i k) in
  if addr =? 0 then
    let! d := gets (fun s => i_dev (iat s i)) in
    let! a := balloc d in
    do! set_addr_at i k a in
    ret a
  else ret addr.

Definition bmap (i : nat) (bn : Z) : M (fsst S) Z :=
  if bn <? NDIRECT then addr_or_alloc i bn
  else
    let bn := bn - NDIRECT in
    if bn <? NINDIRECT then
      let! addr := addr_or_alloc i NDIRECT in
      let! d := gets (fun s => i_dev (iat s i)) in
      let! bp := dio (bread d addr) in
      let! x := bufd bp in
      let addr := getw x (Z.to_nat bn) in
      let! addr :=
        (if addr =? 0 then
           let! a := balloc d in
           let! x := bufd bp in
           do! dio (bset bp (setw x (Z.to_nat bn) a)) in
           do! dio (log_write bp) in
           ret a
         else ret addr) in
      do! dio (brelse bp) in
      ret addr
    else panic "bmap: out of range".

Fixpoint free_direct (n : nat) (i : nat) (k : Z) : M (fsst S) unit :=
  match n with
  | O => ret tt
  | Datatypes.S n =>
      let! s := get in
      do! (if addr_at i k s =? 0 then ret tt
           else
             do! bfree (i_dev (iat s i)) (addr_at i k s) in
             set_addr_at i k 0) in
      free_direct n i (k + 1)
  end.

Fixpoint free_indirect (n : nat) (d : Z) (bp : nat) (j : nat) : M (fsst S) unit :=
  match n with
  | O => ret tt
  | Datatypes.S n =>
      let! x := bufd bp in
      do! (if getw x j =? 0 then ret tt else bfree d (getw x j)) in
      free_indirect n d bp (Datatypes.S j)
  end.

Definition itrunc (i : nat) : M (fsst S) unit :=
  do! free_direct (Z.to_nat NDIRECT) i 0 in
  let! s := get in
  let d := i_dev (iat s i) in
  do! (if addr_at i NDIRECT s =? 0 then ret tt
       else
         let! bp := dio (bread d (addr_at i NDIRECT s)) in
         do! free_indirect (Z.to_nat NINDIRECT) d bp 0 in
         do! dio (brelse bp) in
         do! bfree d (addr_at i NDIRECT s) in
         set_addr_at i NDIRECT 0) in
  do! iupd i (fun ip => set_d (set_size 0 (i_d ip)) ip) in
  iupdate i.

Definition iput (i : nat) : M (fsst S) unit :=
  do! lock_inode i in
  let! s := get in
  let ip := iat s i in
  do! (if valid ip && (d_nlink (i_d ip) =? 0) && (ref ip =? 1) then
         do! itrunc i in
         do! iupd i (fun ip => set_d (set_type 0 (i_d ip)) ip) in
         do! iupdate i in
         iupd i (set_valid false)
       else ret tt) in
  do! unlock_inode i in
  iupd i (fun ip => set_ref (ref ip - 1) ip).

Definition iunlockput (i : nat) : M (fsst S) unit :=
  do! iunlock i in iput i.

Record stat := { st_type : Z; st_dev : Z; st_ino : Z; st_nlink : Z; st_size : Z }.

Definition stati (i : nat) : M (fsst S) stat :=
  gets (fun s => let ip := iat s i in
    {| st_type := itype ip; st_dev := i_dev ip; st_ino := inum ip;
       st_nlink := d_nlink (i_d ip); st_size := isize ip |}).

(** [ip->major < 0 || ip->major >= NDEV] *)
Definition bad_major (ip : inode) : bool :=
  (d_major (i_d ip) <? 0) || (NDEV <=? d_major (i_d ip)).

Fixpoint readi_loop (fuel : nat) (i : nat) (tot off n : Z) (acc : list Z)
  : M (fsst S) (list Z) :=
  if tot <? n then
    match fuel with
    | O => out_of_fuel
    | Datatypes.S f =>
        let! a := bmap i (off / BSIZE) in
        let! d := gets (fun s => i_dev (iat s i)) in
        let! bp := dio (bread d a) in
        let m := Z.min (n - tot) (BSIZE - off mod BSIZE) in
        let! x := bufd bp in
        do! dio (brelse bp) in
        readi_loop f i (tot + m) (u32 (off + m)) n
          (acc ++ take (Z.to_nat m) (drop (Z.to_nat (off mod BSIZE)) x))
    end
  else ret acc.

Definition readi (i : nat) (off n : Z) : M (fsst S) (Z * list Z) :=
  let! s := get in
  let ip := iat s i in
  if itype ip =? T_DEV then
    if bad_major ip then ret (-1, [])
    else match dev_read (devsw (d_major (i_d ip))) with
         | None => ret (-1, [])
         | Some rd => rd i n
         end
  else if (isize ip <? off) || (u32 (off + n) <? off) then ret (-1, [])
  else
    let n := if isize ip <? u32 (off + n) then u32 (isize ip - off) else n in
    let! bs := readi_loop (Z.to_nat (n / BSIZE + 2)) i 0 off n [] in
    ret (n, bs).

(** [memmove(bp->data + o, src, m)] *)
Definition splice (d : blk) (o : nat) (src : list Z) : blk :=
  take o d ++ src ++ drop (o + length src) d.

Fixpoint writei_loop (fuel : nat) (i : nat) (src : list Z) (tot off n : Z)
  : M (fsst S) Z :=
  if tot <? n then
    match fuel with
    | O => out_of_fuel
    | Datatypes.S f =>
        let! a := bmap i (off / BSIZE) in
        let! d := gets (fun s => i_dev (iat s i)) in
        let! bp := dio (bread d a) in
        let m := Z.min (n - tot) (BSIZE - off mod BSIZE) in
        let! x := bufd bp in
        do! dio (bset bp (splice x (Z.to_nat (off mod BSIZE))
                            (take (Z.to_nat m) src))) in
        do! dio (log_write bp) in
        do! dio (brelse bp) in
        writei_loop f i (drop (Z.to_nat m) src) (tot + m) (u32 (off + m)) n
    end
  else ret off.

Definition writei (i : nat) (src : list Z) (off n : Z) : M (fsst S) Z :=
  let! s := get in
  let ip := iat s i in
  if itype ip =? T_DEV then
    if bad_major ip then ret (-1)
    else match dev_write (devsw (d_major (i_d ip))) with
         | None => ret (-1)
         | Some wr => wr i src n
         end
  else if (isize ip <? off) || (u32 (off + n) <? off) then ret (-1)
  else if MAXFILE * BSIZE <? u32 (off + n) then ret (-1)
  else
    let! off := writei_loop (Z.to_nat (n / BSIZE + 2)) i src 0 off n in
    let! s := get in
    do! (if (0 <? n) && (isize (iat s i) <? off) then
           do! iupd i (fun ip => set_d (set_size off (i_d ip)) ip) in
           iupdate i
         else ret tt) in
    ret n.


(** ** Directories *)

(** A directory entry as the 16 bytes of [struct dirent]. *)
Definition de_inum (de : list Z) : Z := getn 2 0 de.
Definition de_name (de : list Z) : list Z := take 14 (drop 2 de).
Definition mk_dirent (n : Z) (name : list Z) : list Z := to_le 2 n ++ name.

Definition namecmp (s t : list Z) : Z :=
  Str.strncmp (cstr s) (cstr t) 0 (Z.to_nat DIRSIZ).

(** The result is the entry's inode and its offset. *)
Fixpoint dirlookup_loop (fuel : nat) (i : nat) (name : list Z) (off : Z)
  : M (fsst S) (option (nat * Z)) :=
  let! s := get in
  if off <? isize (iat s i) then
    match fuel with
    | O => out_of_fuel
    | Datatypes.S f =>
        let! (r, de) := readi i off sizeof_dirent in
        if negb (r =? sizeof_dirent) then panic "dirlookup read"
        else if de_inum de =? 0 then dirlookup_loop f i name (off + sizeof_dirent)
        else if namecmp name (de_name de) =? 0 then
          let! j := iget (i_dev (iat s i)) (de_inum de) in
          ret (Some (j, off))
        else dirlookup_loop f i name (off + sizeof_dirent)
    end
  else ret None.

Definition dirlookup (i : nat) (name : list Z) : M (fsst S) (option (nat * Z)) :=
  let! s := get in
  if negb (itype (iat s i) =? T_DIR) then panic "dirlookup not DIR"
  else dirlookup_loop (Z.to_nat (isize (iat s i) / sizeof_dirent + 1)) i name 0.

Fixpoint dirlink_loop (fuel : nat) (i : nat) (off : Z) : M (fsst S) Z :=
  let! s := get in
  if off <? isize (iat s i) then
    match fuel with
    | O => out_of_fuel
    | Datatypes.S f =>
        let! (r, de) := readi i off sizeof_dirent in
        if negb (r =? sizeof_dirent) then panic "dirlink read"
        else if de_inum de =? 0 then ret off
        else dirlink_loop f i (off + sizeof_dirent)
    end
  else ret off.

(** [true] is 0 and [false] is -1. *)
Definition dirlink (i : nat) (name : list Z) (n : Z) : M (fsst S) bool :=
  let! r := dirlookup i name in
  match r with
  | Some (j, _) => do! iput j in ret false
  | None =>
      let! s := get in
      let! off := dirlink_loop (Z.to_nat (isize (iat s i) / sizeof_dirent + 1)) i 0 in
      let de := mk_dirent n (Str.strncpy (cstr name) 0 (Z.to_nat DIRSIZ)) in
      let! r := writei i de off sizeof_dirent in
      if negb (r =? sizeof_dirent) then panic "dirlink" else ret true
  end.

(** ** Paths

    A path is its characters before the terminating NUL, [name] the array of
    [DIRSIZ] characters. *)

Definition SLASH : Z := 47.

Fixpoint skip_slashes (path : list Z) : list Z :=
  match path with
  | c :: path' => if c =? SLASH then skip_slashes path' else path
  | [] => []
  end.

Fixpoint skip_elem (path : list Z) : list Z * list Z :=
  match path with
  | c :: path' =>
      if c =? SLASH then ([], path)
      else let (s, rest) := skip_elem path' in (c :: s, rest)
  | [] => ([], [])
  end.

Definition skipelem (path name : list Z) : option (list Z * list Z) :=
  let path := skip_slashes path in
  match path with
  | [] => None
  | _ =>
      let (s, path) := skip_elem path in
      let len := length s in
      let name :=
        if (Z.to_nat DIRSIZ <=? len)%nat then take (Z.to_nat DIRSIZ) s
        else s ++ [0] ++ drop (len + 1) name in
      Some (skip_slashes path, name)
  end.

Fixpoint namex_loop (fuel : nat) (path : list Z) (parent : bool) (name : list Z)
  (i : nat) : M (fsst S) (option nat * list Z) :=
  match skipelem path name with
  | None => if parent then do! iput i in ret (None, name) else ret (Some i, name)
  | Some (path, name) =>
      match fuel with
      | O => out_of_fuel
      | Datatypes.S f =>
          do! ilock i in
          let! s := get in
          if negb (itype (iat s i) =? T_DIR) then
            do! iunlockput i in ret (None, name)
          else if parent && bool_decide (path = []) then
            do! iunlock i in ret (Some i, name)
          else
            let! next := dirlookup i name in
            match next with
            | None => do! iunlockput i in ret (None, name)
            | Some (j, _) => do! iunlockput i in namex_loop f path parent name j
            end
      end
  end.

Definition namex (cwd : nat) (path : list Z) (parent : bool) (name : list Z)
  : M (fsst S) (option nat * list Z) :=
  let! i := (match path with
             | c :: _ => if c =? SLASH then iget ROOTDEV ROOTINO else idup cwd
             | [] => idup cwd
             end) in
  namex_loop (length path) path parent name i.

Definition namei (cwd : nat) (path : list Z) : M (fsst S) (option nat) :=
  let! r := namex cwd path false (replicate (Z.to_nat DIRSIZ) 0) in
  ret r.1.

Definition nameiparent (cwd : nat) (path : list Z)
  : M (fsst S) (option nat * list Z) :=
  namex cwd path true (replicate (Z.to_nat DIRSIZ) 0).

(** ** Statistics *)

Record fsinfo := {
  num_files : Z; num_dirs : Z; allocated_inodes : Z; free_disk_blocks : Z
}.

Definition count_inode (t : Z) (fi : fsinfo) : fsinfo :=
  if t =? 0 then fi
  else
    {| num_files := if t =? T_FILE then num_files fi + 1 else num_files fi;
       num_dirs := if t =? T_FILE then num_dirs fi
                   else if t =? T_DIR then num_dirs fi + 1 else num_dirs fi;
       allocated_inodes := allocated_inodes fi + 1;
       free_disk_blocks := free_disk_blocks fi |}.

Fixpoint stats_inodes (fuel : nat) (d i : Z) (fi : fsinfo) : M (fsst S) fsinfo :=
  let! sb := gets fs_sb in
  if i <? sb_ninodes sb then
    match fuel with
    | O => out_of_fuel
    | Datatypes.S f =>
        let! bp := dio (bread d (IBLOCK i sb)) in
        let! x := bufd bp in
        let fi := count_inode (d_type (get_dinode (Z.to_nat (i mod IPB)) x)) fi in
        do! dio (brelse bp) in
        stats_inodes f d (i + 1) fi
    end
  else ret fi.

(** The inner loop over the bits of a bitmap block. *)
Fixpoint count_free (fuel : nat) (d : blk) (size b bi : Z) : Z :=
  match fuel with
  | O => 0
  | Datatypes.S f =>
      if (bi <? BPB) && (b + bi <? size) then
        (if bit_free d bi then 1 else 0) + count_free f d size b (bi + 1)
      else 0
  end.

Fixpoint stats_blocks (fuel : nat) (d b : Z) (fi : fsinfo) : M (fsst S) fsinfo :=
  let! sb := gets fs_sb in
  if b <? sb_size sb then
    match fuel with
    | O => out_of_fuel
    | Datatypes.S f =>
        let! bp := dio (bread d (BBLOCK b sb)) in
        let! x := bufd bp in
        do! dio (brelse bp) in
        stats_blocks f d (b + BPB)
          {| num_files := num_files fi; num_dirs := num_dirs fi;
             allocated_inodes := allocated_inodes fi;
             free_disk_blocks := free_disk_blocks fi
               + count_free (Z.to_nat BPB) x (sb_size sb) b 0 |}
    end
  else ret fi.

Definition get_fs_stats (d : Z) : M (fsst S) fsinfo :=
  let! sb := gets fs_sb in
  let! fi := stats_inodes (Z.to_nat (sb_ninodes sb)) d 1
               {| num_files := 0; num_dirs := 0; allocated_inodes := 0;
                  free_disk_blocks := 0 |} in
  stats_blocks (Z.to_nat (sb_size sb / BPB + 1)) d 0 fi.

End Fs.
