(* ===== verification/FsInodes.v ===== *)
(** * Inodes in their blocks

    Writing an inode into its place in a block and reading it back, and the
    other inodes of the block. *)

From Stdlib Require Import ZifyNat.
From S2P Require Import Prelude Param Bytes Blocks Fs.

Ltac dlia := zify; Z.to_euclidean_division_equations; lia.

Lemma set_addrs_length o as_ d : (o + 4 * length as_ <= length d)%nat -> length (set_addrs o as_ d) = length d.
Proof.
  revert o d. induction as_ as [|a as_ IH]; intros o d Hl; cbn [set_addrs length] in *; [done|].
  rewrite IH; rewrite setn_length; lia.
Qed.

Lemma getn_set_addrs_ne k' o' o as_ d : (o + 4 * length as_ <= length d)%nat ->
  (o' + k' <= o \/ o + 4 * length as_ <= o')%nat -> getn k' o' (set_addrs o as_ d) = getn k' o' d.
Proof.
  revert o d. induction as_ as [|a as_ IH]; intros o d Hl Ho; cbn [set_addrs length] in *; [done|].
  rewrite IH by (rewrite ?setn_length; lia). apply getn_setn_ne; lia.
Qed.

Lemma getn_set_addrs_eq o as_ d j : (o + 4 * length as_ <= length d)%nat -> (j < length as_)%nat ->
  getn 4 (o + 4 * j) (set_addrs o as_ d) = u32 (as_ !!! j).
Proof.
  revert o d j. induction as_ as [|a as_ IH]; intros o d j Hl Hj; cbn [set_addrs length] in *; [lia|].
  destruct j as [|j].
  - rewrite Nat.mul_0_r, Nat.add_0_r, getn_set_addrs_ne by (rewrite ?setn_length; lia). by rewrite getn_setn_eq by lia.
  - replace (o + 4 * S j)%nat with (o + 4 + 4 * j)%nat by lia. rewrite IH by (rewrite ?setn_length; lia). done.
Qed.

Definition is_short (x : Z) : Prop := - 2 ^ 15 <= x < 2 ^ 15.
Record in_range (x : dinode) : Prop := {
  ir_type : is_short (d_type x); ir_major : is_short (d_major x); ir_minor : is_short (d_minor x);
  ir_nlink : is_short (d_nlink x); ir_size : 0 <= d_size x < 2 ^ 32;
  ir_len : length (d_addrs x) = 13%nat; ir_addrs : Forall (fun a => 0 <= a < 2 ^ 32) (d_addrs x)
}.

Lemma short_mod x : is_short x -> s16 (x mod 2 ^ (8 * Z.of_nat 2)) = x.
Proof.
  unfold is_short, s16, u16. intros Hx. change (2 ^ (8 * Z.of_nat 2)) with (2 ^ 16). rewrite Z.mod_mod by lia.
  destruct (Z.ltb_spec (x mod 2 ^ 16) (2 ^ 15)); dlia.
Qed.

(** Lengths of blocks with fields written. *)
Ltac blen := repeat first [lia | rewrite set_addrs_length | rewrite setn_length].

Lemma set_dinode_length k x d : (k < 8)%nat -> length d = 512%nat -> length (d_addrs x) = 13%nat ->
  length (set_dinode k x d) = 512%nat.
Proof. intros Hk Hd Hx. unfold set_dinode. blen. Qed.

Lemma get_set_dinode k x d : (k < 8)%nat -> length d = 512%nat -> in_range x ->
  get_dinode k (set_dinode k x d) = x.
Proof.
  intros Hk Hd [R1 R2 R3 R4 R5 R6 R7]. unfold get_dinode, short_at.
  assert (Ha : (fun j => getn 4 (64 * k + 12 + 4 * j) (set_dinode k x d)) <$> seq 0 13 = d_addrs x).
  { apply list_eq. intros j. rewrite list_lookup_fmap. destruct (decide (j < 13)%nat) as [Hj|Hj].
    - rewrite lookup_seq_lt by done. cbn [fmap option_fmap option_map]. rewrite Nat.add_0_l. unfold set_dinode.
      rewrite getn_set_addrs_eq by blen. destruct (lookup_lt_is_Some_2 (d_addrs x) j) as [a Ea]; [lia|].
      rewrite (list_lookup_total_correct _ _ _ Ea), Ea. f_equal. apply u32_small. by apply (Forall_lookup_1 _ _ _ _ R7 Ea).
    - rewrite lookup_seq_ge, lookup_ge_None_2 by lia. done. }
  rewrite Ha. unfold set_dinode.
  repeat (rewrite getn_set_addrs_ne by blen). repeat first [rewrite getn_setn_eq by blen | rewrite getn_setn_ne by blen].
  rewrite !short_mod by done. change (2 ^ (8 * Z.of_nat 4)) with (2 ^ 32). rewrite Z.mod_small by done. by destruct x.
Qed.

Lemma get_set_dinode_ne k k' x d : (k < 8)%nat -> (k' < 8)%nat -> k <> k' -> length d = 512%nat ->
  length (d_addrs x) = 13%nat -> get_dinode k' (set_dinode k x d) = get_dinode k' d.
Proof.
  intros Hk Hk' Hne Hd Hx. unfold get_dinode, short_at, set_dinode.
  repeat (rewrite getn_set_addrs_ne by blen). repeat (rewrite getn_setn_ne by blen). f_equal.
  apply list_fmap_ext. intros i j Hj. apply lookup_seq in Hj as [-> Hj].
  repeat (rewrite getn_set_addrs_ne by blen). repeat (rewrite getn_setn_ne by blen). done.
Qed.
