(* ===== verification/FsBlocks.v ===== *)
(** * Disk blocks and inodes of the file system

    The operations of fs.c on the bitmap and the inode table, against the
    interface of [Blocks]: every theorem holds for any block layer that keeps
    the promises of [BlockSpec], in particular for the log. *)

From S2P Require Import Prelude Param Bytes Memory Sleeplock Bio Log LogInv LogCrash.
From S2P Require Import Blocks LogBlocks Fs.

(** ** Bits of the free map *)

Lemma bit_free_testbit d bi :
  bit_free d bi = negb (Z.testbit (d !!! Z.to_nat (bi / 8)) (bi mod 8)).
Proof.
  unfold bit_free, bitmask. rewrite Z.shiftl_1_l.
  rewrite <- has_bit by (apply Z.mod_pos_bound; lia). unfold has.
  by rewrite negb_involutive.
Qed.

Lemma bit_neq bi bj :
  bi <> bj -> bi / 8 = bj / 8 -> bi mod 8 <> bj mod 8.
Proof.
  intros Hne Hd Hm. apply Hne. rewrite (Z.div_mod bi 8), (Z.div_mod bj 8) by lia.
  congruence.
Qed.

Lemma bit_free_alter f d bi bj v :
  length d = Z.to_nat BSIZE -> 0 <= bi < BPB -> 0 <= bj ->
  (forall x, Z.testbit (f x) (bi mod 8) = v) ->
  (forall x m, 0 <= m -> m <> bi mod 8 -> Z.testbit (f x) m = Z.testbit x m) ->
  bit_free (alter f (Z.to_nat (bi / 8)) d) bj =
  if decide (bj = bi) then negb v else bit_free d bj.
Proof.
  intros Hl Hbi Hbj Hv Hk. rewrite !bit_free_testbit, list_lookup_total_alter.
  assert (Hlt : (Z.to_nat (bi / 8) < length d)%nat).
  { rewrite Hl. change BPB with 4096 in Hbi. change (Z.to_nat BSIZE) with 512%nat.
    assert (bi / 8 < 512) by (apply Z.div_lt_upper_bound; lia). lia. }
  pose proof (Z.div_pos bi 8 ltac:(lia) ltac:(lia)).
  pose proof (Z.div_pos bj 8 ltac:(lia) ltac:(lia)).
  pose proof (Z.mod_pos_bound bj 8 ltac:(lia)).
  destruct (decide (bj = bi)) as [->|Hne].
  - rewrite decide_True by auto. by rewrite Hv.
  - destruct (decide (Z.to_nat (bi / 8) = Z.to_nat (bj / 8) /\ _)) as [[E _]|_]; [|done].
    rewrite Hk, E; [done|lia|]. apply not_eq_sym, bit_neq; [congruence|lia].
Qed.

Lemma bit_free_set d bi bj :
  length d = Z.to_nat BSIZE -> 0 <= bi < BPB -> 0 <= bj ->
  bit_free (bit_set d bi) bj = if decide (bj = bi) then false else bit_free d bj.
Proof.
  intros Hl Hbi Hbj. unfold bit_set, bitmask.
  pose proof (Z.mod_pos_bound bi 8 ltac:(lia)).
  apply (bit_free_alter _ d bi bj true); auto.
  - intros x. rewrite Z.shiftl_1_l, Z.lor_spec, Z.pow2_bits_true by lia.
    apply orb_true_r.
  - intros x m Hm Hne. rewrite Z.shiftl_1_l, Z.lor_spec, Z.pow2_bits_false by lia.
    apply orb_false_r.
Qed.

Lemma bit_free_clear d bi bj :
  length d = Z.to_nat BSIZE -> 0 <= bi < BPB -> 0 <= bj ->
  bit_free (bit_clear d bi) bj = if decide (bj = bi) then true else bit_free d bj.
Proof.
  intros Hl Hbi Hbj. unfold bit_clear, bitmask.
  pose proof (Z.mod_pos_bound bi 8 ltac:(lia)).
  apply (bit_free_alter _ d bi bj false); auto.
  - intros x. rewrite Z.shiftl_1_l, Z.land_spec, Z.lnot_spec, Z.pow2_bits_true by lia.
    apply andb_false_r.
  - intros x m Hm Hne.
    rewrite Z.shiftl_1_l, Z.land_spec, Z.lnot_spec, Z.pow2_bits_false by lia.
    apply andb_true_r.
Qed.

Lemma balloc_scan_spec fuel d size b bi :
  BPB - bi <= Z.of_nat fuel ->
  match balloc_scan fuel d size b bi with
  | Some k => bi <= k < BPB /\ b + k < size /\ bit_free d k = true /\
      forall j, bi <= j < k -> bit_free d j = false
  | None => forall j, bi <= j < BPB -> b + j < size -> bit_free d j = false
  end.
Proof.
  revert bi. induction fuel as [|f IH]; intros bi Hf; cbn [balloc_scan].
  { intros j Hj. lia. }
  destruct (Z.ltb_spec bi BPB) as [H1|H1]; [|intros j Hj; lia].
  destruct (Z.ltb_spec (b + bi) size) as [H2|H2]; [|intros j Hj; lia].
  cbn [andb]. destruct (bit_free d bi) eqn:E.
  - split_and!; auto; intros; lia.
  - specialize (IH (bi + 1) ltac:(lia)).
    destruct (balloc_scan f d size b (bi + 1)) as [k|].
    + destruct IH as (A1 & A2 & A3 & A4). split_and!; auto; try lia.
      intros j Hj. destruct (decide (j = bi)) as [->|]; [done|]. apply A4. lia.
    + intros j Hj Hs. destruct (decide (j = bi)) as [->|]; [done|]. apply IH; lia.
Qed.

(** ** The free map *)

(** Block [b] is free. *)
Definition bfreeV (V : dview) (sb : superblock) (b : Z) : bool :=
  bit_free (dv V (BBLOCK b sb)) (b mod BPB).

(** First block after the free map. *)
Definition datastart (sb : superblock) : Z :=
  sb_bmapstart sb + (sb_size sb - 1) / BPB + 1.

Record wf_sb (sb : superblock) (V : dview) : Prop := {
  ws_lo : 0 <= dv_lo V;
  ws_size : 0 < sb_size sb <= dv_n V;
  ws_bmap : dv_lo V <= sb_bmapstart sb;
  ws_data : datastart sb <= dv_n V;
  ws_inode : dv_lo V <= sb_inodestart sb;
  ws_ninodes : 0 <= sb_ninodes sb;
  ws_itop : sb_inodestart sb + (sb_ninodes sb - 1) / IPB < sb_bmapstart sb;
  ws_used : forall b, 0 <= b < sb_size sb -> bfreeV V sb b = true -> datastart sb <= b
}.

Lemma BBLOCK_range sb V b :
  wf_sb sb V -> 0 <= b < sb_size sb ->
  sb_bmapstart sb <= BBLOCK b sb < datastart sb /\
  dv_lo V <= BBLOCK b sb < dv_n V.
Proof.
  intros [W1 W2 W3 W4 _ _ _ _] Hb. unfold BBLOCK, datastart in *.
  pose proof (Z.div_pos b BPB ltac:(lia) ltac:(done)).
  pose proof (Z.div_le_mono b (sb_size sb - 1) BPB ltac:(done) ltac:(lia)). lia.
Qed.

Lemma BBLOCK_add sb b k :
  b mod BPB = 0 -> 0 <= k < BPB ->
  BBLOCK (b + k) sb = BBLOCK b sb /\ (b + k) mod BPB = k.
Proof.
  intros Hb Hk. pose proof (Z.div_mod b BPB ltac:(done)) as E. rewrite Hb, Z.add_0_r in E.
  unfold BBLOCK. rewrite E, Z.mul_comm. split.
  - rewrite Z.div_add_l, Z.div_mul by done. rewrite (Z.div_small k) by done. lia.
  - rewrite Z.add_comm, Z.mod_add by done. by apply Z.mod_small.
Qed.

(** The view after block [b] has been marked in use and zeroed. *)
Definition takenV (V : dview) (sb : superblock) (b : Z) : dview :=
  put_blk b (replicate (Z.to_nat BSIZE) 0)
    (put_blk (BBLOCK b sb) (bit_set (dv V (BBLOCK b sb)) (b mod BPB)) V).

Section FsBlocks.
Context {S : Type} `{BS : BlockSpec S}.

Lemma dio_Ok {A} (c : M S A) s a b :
  c (fs_b s) = Ok (a, b) -> dio c s = Ok (a, set_b b s).
Proof. unfold dio. by intros ->. Qed.

Lemma bufd_run (s : fsst S) i : bufd i s = Ok (bdata i (fs_b s), s).
Proof. done. Qed.

Lemma bzero_ok s V n :
  bk_rep (fs_b s) V -> room V 1 -> dv_lo V <= n < dv_n V -> 0 <= dv_lo V ->
  n ∉ dv_held V ->
  exists b, bzero ROOTDEV n s = Ok (tt, set_b b s) /\
    bk_rep b (put_blk n (replicate (Z.to_nat BSIZE) 0) V) /\ keeps V (fs_b s) b.
Proof.
  intros HR Hr Hn Hlo Hh.
  destruct (change_block_keeps (fs_b s) V n (fun _ => replicate (Z.to_nat BSIZE) 0) HR Hr Hn
    Hlo Hh (length_replicate _ _))
    as (i & b1 & b2 & b3 & b4 & E1 & _ & E2 & E3 & E4 & HR4).
  exists b4. split; [|done]. unfold bzero. mrun (dio_Ok _ s _ _ E1).
  mrun (dio_Ok (bset i _) (set_b b1 s) _ _ E2).
  mrun (dio_Ok (log_write i) (set_b b2 (set_b b1 s)) _ _ E3).
  by rewrite (dio_Ok (brelse i) (set_b b3 (set_b b2 (set_b b1 s))) _ _ E4).
Qed.

Lemma bfreeV_block V sb b j :
  b mod BPB = 0 -> 0 <= j < BPB -> bfreeV V sb (b + j) = bit_free (dv V (BBLOCK b sb)) j.
Proof. intros Hal Hj. destruct (BBLOCK_add sb b j Hal Hj) as [E1 E2]. unfold bfreeV. by rewrite E1, E2. Qed.

(** The bit of a free block is set, and the block zeroed. *)
Lemma balloc_take s sb V b k :
  bk_rep (fs_b s) V -> wf_sb sb V -> room V 2 ->
  (forall a, a ∈ dv_held V -> bfreeV V sb a = false /\ ~ (sb_bmapstart sb <= a < datastart sb)) ->
  0 <= b -> b mod BPB = 0 -> 0 <= k < BPB -> b + k < sb_size sb -> bfreeV V sb (b + k) = true ->
  exists i b1 b2 b3 b4 b5, bread ROOTDEV (BBLOCK b sb) (fs_b s) = Ok (i, b1) /\ bdata i b1 = dv V (BBLOCK b sb) /\
    bset i (bit_set (dv V (BBLOCK b sb)) k) b1 = Ok (tt, b2) /\ log_write i b2 = Ok (tt, b3) /\
    brelse i b3 = Ok (tt, b4) /\
    bzero ROOTDEV (b + k) (set_b b4 (set_b b3 (set_b b2 (set_b b1 s)))) = Ok (tt, set_b b5 s) /\
    bk_rep b5 (takenV V sb (b + k)) /\ keeps V (fs_b s) b5.
Proof.
  intros HR HW Hr Hheld Hb Hal Hk Hks Hfree. destruct (BBLOCK_range sb V b HW ltac:(lia)) as [Hbr1 Hbr2].
  destruct (BBLOCK_add sb b k Hal Hk) as [Eb Em]. pose proof (ws_lo _ _ HW) as Hlo.
  assert (Hdata : datastart sb <= b + k) by (apply (ws_used _ _ HW); [lia|done]).
  pose proof (ws_bmap _ _ HW) as Hbm. pose proof (ws_size _ _ HW) as Hsz.
  destruct (change_block_keeps (fs_b s) V (BBLOCK b sb) (fun d => bit_set d k) HR (room_le _ _ 1 Hr ltac:(lia)) Hbr2 Hlo)
    as (i & b1 & b2 & b3 & b4 & E1 & Ed & E2 & E3 & E4 & HR4 & HK4).
  { intros Hin. apply Hheld in Hin as [_ Hin]. by apply Hin. }
  { unfold bit_set. rewrite length_alter. apply (bk_size _ _ _ HR). lia. }
  destruct (bzero_ok (set_b b4 (set_b b3 (set_b b2 (set_b b1 s)))) _ (b + k) HR4) as (b5 & E5 & HR5 & HK5).
  { apply room_put. by apply (room_le _ _ _ Hr). }
  { cbn [dv_lo dv_n put_blk]. lia. }
  { done. }
  { intros Hin. apply Hheld in Hin as [Hin _]. congruence. }
  exists i, b1, b2, b3, b4, b5. split_and!; auto; [unfold takenV; by rewrite Eb, Em|].
  intros j m Hm Hj. by apply HK5, HK4.
Qed.

Lemma balloc_loop_ok fuel s sb V b :
  fs_sb s = sb -> bk_rep (fs_b s) V -> wf_sb sb V -> room V 2 ->
  (forall a, a ∈ dv_held V -> bfreeV V sb a = false /\
     ~ (sb_bmapstart sb <= a < datastart sb)) ->
  0 <= b -> b mod BPB = 0 -> (forall a, 0 <= a < b -> a < sb_size sb ->
    bfreeV V sb a = false) ->
  sb_size sb - b <= Z.of_nat fuel * BPB ->
  (exists k s', balloc_loop fuel ROOTDEV b s = Ok (k, set_b s' s) /\
     0 <= k < sb_size sb /\ bfreeV V sb k = true /\
     (forall a, 0 <= a < k -> bfreeV V sb a = false) /\
     bk_rep s' (takenV V sb k) /\ keeps V (fs_b s) s') \/
  ((forall a, 0 <= a < sb_size sb -> bfreeV V sb a = false) /\
   balloc_loop fuel ROOTDEV b s = Panic "balloc: out of blocks").
Proof.
  revert s b. induction fuel as [|fuel IH];
    intros s b Hsb HR HW Hr Hheld Hb Hal Hused Hf; cbn [balloc_loop]; mrun; rewrite Hsb;
    (destruct (Z.ltb_spec b (sb_size sb)) as [Hlt|Hge]; [|right; split; [intros a Ha; apply Hused; lia|done]]); [lia|].
  mrun. rewrite Hsb. destruct (BBLOCK_range sb V b HW ltac:(lia)) as [Hbr1 Hbr2].
  pose proof (ws_lo _ _ HW) as Hlo. pose proof (room_rroom _ _ Hr ltac:(lia)) as Hrr.
  pose proof (balloc_scan_spec (Z.to_nat BPB) (dv V (BBLOCK b sb)) (sb_size sb) b 0
    ltac:(rewrite Z2Nat.id by done; lia)) as Hscan.
  destruct (balloc_scan _ _ _ _ _) as [k|] eqn:Es.
  - left. destruct Hscan as (Hk & Hks & Hkf & Hkl).
    assert (Hfree : bfreeV V sb (b + k) = true) by (by rewrite bfreeV_block).
    destruct (balloc_take s sb V b k) as (i & b1 & b2 & b3 & b4 & b5 & E1 & Ed & E2 & E3 & E4 & E5 & HR5 & HK5); auto.
    exists (b + k), b5. split_and!; auto; try lia.
    + mrun (dio_Ok _ s _ _ E1). mrun (bufd_run (set_b b1 s) i). cbn [fs_b set_b].
      rewrite Ed, Es. mrun (dio_Ok (bset i _) (set_b b1 s) _ _ E2).
      mrun (dio_Ok (log_write i) (set_b b2 (set_b b1 s)) _ _ E3).
      mrun (dio_Ok (brelse i) (set_b b3 (set_b b2 (set_b b1 s))) _ _ E4). mrun E5. done.
    + intros a Ha. destruct (decide (a < b)) as [Hab|Hab]; [apply Hused; lia|].
      replace a with (b + (a - b)) by lia. rewrite bfreeV_block by (done || lia). apply Hkl. lia.
  - destruct (read_block_keeps (fs_b s) V (BBLOCK b sb) HR Hrr ltac:(lia)) as (i & b1 & b2 & E1 & Ed & E2 & HR2 & HK2).
    { intros Hin. apply Hheld in Hin as [_ Hin]. by apply Hin. }
    mrun (dio_Ok _ s _ _ E1). mrun (bufd_run (set_b b1 s) i). cbn [fs_b set_b].
    rewrite Ed, Es. mrun (dio_Ok (brelse i) (set_b b1 s) _ _ E2).
    destruct (IH (set_b b2 (set_b b1 s)) (b + BPB) Hsb HR2 HW Hr Hheld)
      as [(k & s' & E & Hk & Hkf & Hkl & HRk & HKk)|Hnone]; [..|left|by right].
    + change BPB with 4096. lia.
    + rewrite Z.add_mod, Hal, Z_mod_same_full by done. done.
    + intros a Ha Has. destruct (decide (a < b)) as [Hab|Hab]; [apply Hused; lia|].
      replace a with (b + (a - b)) by lia. rewrite bfreeV_block by (done || lia). apply Hscan; lia.
    + lia.
    + exists k, s'. split_and!; auto; try lia. intros j m Hm Hj. by apply HKk, HK2.
Qed.

Lemma balloc_ok s sb V :
  fs_sb s = sb -> bk_rep (fs_b s) V -> wf_sb sb V -> room V 2 ->
  (forall a, a ∈ dv_held V -> bfreeV V sb a = false /\
     ~ (sb_bmapstart sb <= a < datastart sb)) ->
  (exists k s', balloc ROOTDEV s = Ok (k, set_b s' s) /\
     0 <= k < sb_size sb /\ bfreeV V sb k = true /\
     (forall a, 0 <= a < k -> bfreeV V sb a = false) /\
     bk_rep s' (takenV V sb k) /\ keeps V (fs_b s) s') \/
  ((forall a, 0 <= a < sb_size sb -> bfreeV V sb a = false) /\
   balloc ROOTDEV s = Panic "balloc: out of blocks").
Proof.
  intros Hsb HR HW Hr Hh. unfold balloc. mrun. rewrite Hsb.
  apply balloc_loop_ok; auto; try done; [intros; lia|].
  pose proof (ws_size _ _ HW). pose proof (Z.div_mod (sb_size sb) BPB ltac:(done)).
  pose proof (Z.mod_pos_bound (sb_size sb) BPB ltac:(done)).
  pose proof (Z.div_pos (sb_size sb) BPB ltac:(lia) ltac:(done)).
  rewrite Z2Nat.id by lia. change BPB with 4096 in *. lia.
Qed.

Lemma taken_free V sb b a :
  wf_sb sb V -> (forall n, 0 <= n < dv_n V -> length (dv V n) = Z.to_nat BSIZE) ->
  0 <= b < sb_size sb -> 0 <= a < sb_size sb -> bfreeV V sb b = true ->
  bfreeV (takenV V sb b) sb a = if decide (a = b) then false else bfreeV V sb a.
Proof.
  intros HW Hsz Hb Ha Hf. pose proof (ws_used _ _ HW b Hb Hf) as Hd.
  destruct (BBLOCK_range sb V b HW Hb) as [Hb1 Hb2].
  destruct (BBLOCK_range sb V a HW Ha) as [Ha1 Ha2].
  pose proof (ws_lo _ _ HW). unfold bfreeV, takenV. cbn [dv put_blk].
  rewrite (decide_False (P := BBLOCK a sb = b)) by lia.
  destruct (decide (BBLOCK a sb = BBLOCK b sb)) as [E|E].
  - rewrite bit_free_set.
    + rewrite E. destruct (decide (a = b)) as [->|Hne]; [by rewrite decide_True|].
      rewrite decide_False; [done|]. intros Em. apply Hne. unfold BBLOCK in E.
      rewrite (Z.div_mod a BPB), (Z.div_mod b BPB) by done. rewrite Em.
      replace (a / BPB) with (b / BPB) by lia. done.
    + apply Hsz. lia.
    + apply Z.mod_pos_bound. done.
    + apply Z.mod_pos_bound. done.
  - rewrite decide_False; [done|]. by intros ->.
Qed.

Lemma taken_wf V sb b :
  wf_sb sb V -> (forall n, 0 <= n < dv_n V -> length (dv V n) = Z.to_nat BSIZE) ->
  0 <= b < sb_size sb -> bfreeV V sb b = true -> wf_sb sb (takenV V sb b).
Proof.
  intros HW Hsz Hb Hf. pose proof HW as []. split; auto.
  intros a Ha. rewrite taken_free by done. destruct (decide (a = b)); [done|]. auto.
Qed.

(** ** bfree *)

Definition freedV (V : dview) (sb : superblock) (b : Z) : dview :=
  put_blk (BBLOCK b sb) (bit_clear (dv V (BBLOCK b sb)) (b mod BPB)) V.

Lemma bfree_ok s sb V b :
  fs_sb s = sb -> bk_rep (fs_b s) V -> wf_sb sb V -> room V 1 ->
  0 <= b < sb_size sb -> BBLOCK b sb ∉ dv_held V ->
  (bfreeV V sb b = true /\ bfree ROOTDEV b s = Panic "freeing free block") \/
  (bfreeV V sb b = false /\ exists s', bfree ROOTDEV b s = Ok (tt, set_b s' s) /\
     bk_rep s' (freedV V sb b)).
Proof.
  intros Hsb HR HW Hr Hb Hh. destruct (BBLOCK_range sb V b HW Hb) as [Hb1 Hb2].
  pose proof (ws_lo _ _ HW) as Hlo. unfold bfree. mrun. rewrite Hsb.
  destruct (change_block (fs_b s) V (BBLOCK b sb) (fun d => bit_clear d (b mod BPB))
    HR Hr Hb2 Hlo Hh) as (i & b1 & b2 & b3 & b4 & E1 & Ed & E2 & E3 & E4 & HR4).
  { unfold bit_clear. rewrite length_alter. apply (bk_size _ _ _ HR). lia. }
  mrun (dio_Ok _ s _ _ E1). mrun (bufd_run (set_b b1 s) i). cbn [fs_b set_b].
  rewrite Ed. fold (bfreeV V sb b). destruct (bfreeV V sb b); [by left|right].
  split; [done|]. exists b4. split; [|done].
  mrun (dio_Ok (bset i _) (set_b b1 s) _ _ E2).
  mrun (dio_Ok (log_write i) (set_b b2 (set_b b1 s)) _ _ E3).
  by rewrite (dio_Ok (brelse i) (set_b b3 (set_b b2 (set_b b1 s))) _ _ E4).
Qed.

Lemma freed_free V sb b a :
  wf_sb sb V -> (forall n, 0 <= n < dv_n V -> length (dv V n) = Z.to_nat BSIZE) ->
  0 <= b < sb_size sb -> 0 <= a < sb_size sb ->
  bfreeV (freedV V sb b) sb a = if decide (a = b) then true else bfreeV V sb a.
Proof.
  intros HW Hsz Hb Ha. destruct (BBLOCK_range sb V b HW Hb) as [Hb1 Hb2].
  pose proof (ws_lo _ _ HW). unfold bfreeV, freedV. cbn [dv put_blk].
  destruct (decide (BBLOCK a sb = BBLOCK b sb)) as [E|E].
  - rewrite bit_free_clear.
    + rewrite E. destruct (decide (a = b)) as [->|Hne]; [by rewrite decide_True|].
      rewrite decide_False; [done|]. intros Em. apply Hne. unfold BBLOCK in E.
      rewrite (Z.div_mod a BPB), (Z.div_mod b BPB) by done. rewrite Em.
      replace (a / BPB) with (b / BPB) by lia. done.
    + apply Hsz. lia.
    + apply Z.mod_pos_bound. done.
    + apply Z.mod_pos_bound. done.
  - rewrite decide_False; [done|]. by intros ->.
Qed.

(** ** get_fs_stats *)

(** The type of inode [i] on disk; 0 is free. *)
Definition itypeV (V : dview) (sb : superblock) (i : Z) : Z :=
  d_type (get_dinode (Z.to_nat (i mod IPB)) (dv V (IBLOCK i sb))).

Lemma IBLOCK_range sb V i :
  wf_sb sb V -> 0 <= i < sb_ninodes sb ->
  dv_lo V <= IBLOCK i sb < sb_bmapstart sb /\ IBLOCK i sb < dv_n V.
Proof.
  intros HW Hi. pose proof (ws_itop _ _ HW). pose proof (ws_inode _ _ HW).
  pose proof (ws_data _ _ HW) as Hd. unfold datastart in Hd. unfold IBLOCK.
  pose proof (Z.div_pos i IPB ltac:(lia) ltac:(done)).
  pose proof (Z.div_le_mono i (sb_ninodes sb - 1) IPB ltac:(done) ltac:(lia)).
  pose proof (Z.div_pos (sb_size sb - 1) BPB
    ltac:(pose proof (ws_size _ _ HW); lia) ltac:(done)). lia.
Qed.

Definition add_info (x y : fsinfo) : fsinfo :=
  {| num_files := num_files x + num_files y; num_dirs := num_dirs x + num_dirs y;
     allocated_inodes := allocated_inodes x + allocated_inodes y;
     free_disk_blocks := free_disk_blocks x + free_disk_blocks y |}.

(** The counts of the inodes in [i, i + n). *)
Definition inode_info (V : dview) (sb : superblock) (i : Z) (n : nat) : fsinfo :=
  {| num_files := countZ (fun a => itypeV V sb a =? T_FILE) i n;
     num_dirs := countZ (fun a => itypeV V sb a =? T_DIR) i n;
     allocated_inodes := countZ (fun a => negb (itypeV V sb a =? 0)) i n;
     free_disk_blocks := 0 |}.

Lemma count_inode_info V sb i n fi :
  add_info (count_inode (itypeV V sb i) fi) (inode_info V sb (i + 1) n) =
  add_info fi (inode_info V sb i (Datatypes.S n)).
Proof.
  unfold count_inode, add_info, inode_info, T_FILE, T_DIR. cbn [countZ]. cbv beta.
  generalize (itypeV V sb i) as t. intros t.
  destruct (Z.eqb_spec t 0) as [->|H0]; [cbn; f_equal; lia|].
  destruct (Z.eqb_spec t 2) as [->|H2]; [cbn; f_equal; lia|].
  destruct (Z.eqb_spec t 1) as [->|H1]; cbn; f_equal; lia.
Qed.

Lemma stats_inodes_ok fuel s sb V i fi :
  fs_sb s = sb -> bk_rep (fs_b s) V -> wf_sb sb V -> rroom V -> dv_held V = ∅ ->
  0 <= i -> sb_ninodes sb - i <= Z.of_nat fuel ->
  exists b, stats_inodes fuel ROOTDEV i fi s =
    Ok (add_info fi (inode_info V sb i (Z.to_nat (sb_ninodes sb - i))), set_b b s) /\
    bk_rep b V.
Proof.
  revert s i fi. induction fuel as [|fuel IH]; intros s i fi Hsb HR HW Hr Hh Hi Hf;
    cbn [stats_inodes]; mrun; rewrite Hsb;
    (destruct (Z.ltb_spec i (sb_ninodes sb)) as [Hlt|Hge];
     [|exists (fs_b s); destruct s; replace (Z.to_nat (sb_ninodes sb - i)) with 0%nat by lia;
       split; [|done]; unfold ret, add_info; cbn; destruct fi; cbn; by rewrite !Z.add_0_r]);
    [lia|].
  destruct (IBLOCK_range sb V i HW ltac:(lia)) as [Hr1 Hr2].
  pose proof (ws_lo _ _ HW).
  destruct (read_block (fs_b s) V (IBLOCK i sb) HR Hr ltac:(lia) ltac:(rewrite Hh; set_solver))
    as (bp & b1 & b2 & E1 & Ed & E2 & HR2).
  mrun (dio_Ok _ s _ _ E1). mrun (bufd_run (set_b b1 s) bp). cbn [fs_b set_b].
  rewrite Ed. mrun (dio_Ok (brelse bp) (set_b b1 s) _ _ E2). fold (itypeV V sb i).
  destruct (IH (set_b b2 (set_b b1 s)) (i + 1) (count_inode (itypeV V sb i) fi))
    as (b & E & HRb); auto; try lia.
  exists b. split; [|done]. rewrite E. do 2 f_equal.
  replace (Z.to_nat (sb_ninodes sb - i)) with
    (Datatypes.S (Z.to_nat (sb_ninodes sb - (i + 1)))) by lia.
  apply count_inode_info.
Qed.

Lemma count_free_ok fuel V sb b bi :
  b mod BPB = 0 -> 0 <= bi -> BPB - bi <= Z.of_nat fuel ->
  count_free fuel (dv V (BBLOCK b sb)) (sb_size sb) b bi =
  countZ (bfreeV V sb) (b + bi) (Z.to_nat (Z.min BPB (sb_size sb - b) - bi)).
Proof.
  intros Hal. revert bi. induction fuel as [|fuel IH]; intros bi Hbi Hf;
    cbn [count_free].
  { by replace (Z.to_nat _) with 0%nat by lia. }
  destruct (Z.ltb_spec bi BPB); [|by replace (Z.to_nat _) with 0%nat by lia].
  destruct (Z.ltb_spec (b + bi) (sb_size sb));
    [|by replace (Z.to_nat _) with 0%nat by lia].
  cbn [andb]. rewrite IH by lia.
  replace (Z.to_nat (Z.min BPB (sb_size sb - b) - bi)) with
    (Datatypes.S (Z.to_nat (Z.min BPB (sb_size sb - b) - (bi + 1)))) by lia.
  cbn [countZ]. rewrite Z.add_assoc. f_equal. unfold bfreeV.
  destruct (BBLOCK_add sb b bi Hal ltac:(lia)) as [-> ->]. done.
Qed.

Lemma stats_blocks_ok fuel s sb V b fi :
  fs_sb s = sb -> bk_rep (fs_b s) V -> wf_sb sb V -> rroom V -> dv_held V = ∅ ->
  0 <= b -> b mod BPB = 0 -> sb_size sb - b <= Z.of_nat fuel * BPB ->
  exists s', stats_blocks fuel ROOTDEV b fi s =
    Ok ({| num_files := num_files fi; num_dirs := num_dirs fi;
           allocated_inodes := allocated_inodes fi;
           free_disk_blocks := free_disk_blocks fi +
             countZ (bfreeV V sb) b (Z.to_nat (sb_size sb - b)) |}, set_b s' s) /\
    bk_rep s' V.
Proof.
  revert s b fi. induction fuel as [|fuel IH]; intros s b fi Hsb HR HW Hr Hh Hb Hal Hf;
    cbn [stats_blocks]; mrun; rewrite Hsb;
    (destruct (Z.ltb_spec b (sb_size sb)) as [Hlt|Hge];
     [|exists (fs_b s); destruct s; replace (Z.to_nat (sb_size sb - b)) with 0%nat by lia;
       split; [|done]; unfold ret; cbn; destruct fi; cbn; by rewrite !Z.add_0_r]);
    [lia|].
  destruct (BBLOCK_range sb V b HW ltac:(lia)) as [_ Hr2]. pose proof (ws_lo _ _ HW).
  destruct (read_block (fs_b s) V (BBLOCK b sb) HR Hr ltac:(lia) ltac:(rewrite Hh; set_solver))
    as (bp & b1 & b2 & E1 & Ed & E2 & HR2).
  mrun (dio_Ok _ s _ _ E1). mrun (bufd_run (set_b b1 s) bp). cbn [fs_b set_b].
  rewrite Ed. mrun (dio_Ok (brelse bp) (set_b b1 s) _ _ E2).
  rewrite count_free_ok by (rewrite ?Z2Nat.id by done; auto; lia).
  rewrite Z.add_0_r, Z.sub_0_r. set (fi' := Build_fsinfo _ _ _ _).
  assert (HB : 0 < BPB) by done.
  destruct (IH (set_b b2 (set_b b1 s)) (b + BPB) fi') as (s' & E & HRb); auto; try lia.
  { rewrite Z.add_mod, Hal, Z_mod_same_full by done. done. }
  exists s'. split; [|done]. rewrite E. unfold fi'.
  cbn [num_files num_dirs allocated_inodes free_disk_blocks]. do 3 f_equal.
  destruct (Z.min_spec BPB (sb_size sb - b)) as [[Hm ->]|[Hm ->]].
  - replace (Z.to_nat (sb_size sb - b)) with
      (Z.to_nat BPB + Z.to_nat (sb_size sb - (b + BPB)))%nat by lia.
    rewrite countZ_app, Z2Nat.id by lia. lia.
  - replace (Z.to_nat (sb_size sb - (b + BPB))) with 0%nat by lia. cbn [countZ]. lia.
Qed.

Lemma get_fs_stats_ok s sb V :
  fs_sb s = sb -> bk_rep (fs_b s) V -> wf_sb sb V -> rroom V -> dv_held V = ∅ ->
  exists b, get_fs_stats ROOTDEV s =
    Ok ({| num_files := countZ (fun a => itypeV V sb a =? T_FILE) 1
             (Z.to_nat (sb_ninodes sb - 1));
           num_dirs := countZ (fun a => itypeV V sb a =? T_DIR) 1
             (Z.to_nat (sb_ninodes sb - 1));
           allocated_inodes := countZ (fun a => negb (itypeV V sb a =? 0)) 1
             (Z.to_nat (sb_ninodes sb - 1));
           free_disk_blocks := countZ (bfreeV V sb) 0 (Z.to_nat (sb_size sb)) |},
        set_b b s) /\ bk_rep b V.
Proof.
  intros Hsb HR HW Hr Hh. unfold get_fs_stats. mrun. rewrite Hsb.
  pose proof (ws_size _ _ HW) as Hsz.
  destruct (stats_inodes_ok (Z.to_nat (sb_ninodes sb)) s sb V 1
    {| num_files := 0; num_dirs := 0; allocated_inodes := 0; free_disk_blocks := 0 |})
    as (b1 & E1 & HR1); auto; try lia.
  mrun E1.
  destruct (stats_blocks_ok (Z.to_nat (sb_size sb / BPB + 1)) (set_b b1 s) sb V 0
    (add_info {| num_files := 0; num_dirs := 0; allocated_inodes := 0;
                 free_disk_blocks := 0 |}
       (inode_info V sb 1 (Z.to_nat (sb_ninodes sb - 1))))) as (b2 & E2 & HR2); auto; try done.
  { pose proof (Z.div_mod (sb_size sb) BPB ltac:(done)).
    pose proof (Z.mod_pos_bound (sb_size sb) BPB ltac:(done)).
    pose proof (Z.div_pos (sb_size sb) BPB ltac:(lia) ltac:(done)).
    rewrite Z2Nat.id by lia. change BPB with 4096 in *. lia. }
  exists b2. split; [|done]. rewrite E2, Z.sub_0_r. done.
Qed.

Lemma rep_sizes b V :
  bk_rep b V -> forall n, 0 <= n < dv_n V -> length (dv V n) = Z.to_nat BSIZE.
Proof. intros HR n Hn. by apply (bk_size _ _ _ HR). Qed.

Lemma taken_count V sb b :
  wf_sb sb V -> (forall n, 0 <= n < dv_n V -> length (dv V n) = Z.to_nat BSIZE) ->
  0 <= b < sb_size sb -> bfreeV V sb b = true ->
  countZ (bfreeV (takenV V sb b) sb) 0 (Z.to_nat (sb_size sb)) =
  countZ (bfreeV V sb) 0 (Z.to_nat (sb_size sb)) - 1.
Proof.
  intros HW Hs Hb Hf.
  rewrite (countZ_flip (bfreeV V sb) (bfreeV (takenV V sb b) sb) _ _ b); auto; try lia.
  - rewrite taken_free by done. by rewrite decide_True.
  - intros a Ha Hne. rewrite taken_free by (done || lia). by rewrite decide_False.
Qed.

(** (C31) [balloc] returns the first free block of the disk, never one of the
    metadata blocks. It marks that block and no other as in use, so the
    number of free blocks that [get_fs_stats] reports drops by one, and
    returns it zeroed; every other block but its bitmap block is unchanged.
    If no block is free it panics. *)
Theorem balloc_spec s V :
  let sb := fs_sb s in
  bk_rep (fs_b s) V -> wf_sb sb V -> room V 2 -> dv_held V = ∅ ->
  (exists b s' V', balloc ROOTDEV s = Ok (b, set_b s' s) /\ bk_rep s' V' /\
     wf_sb sb V' /\ datastart sb <= b < sb_size sb /\
     (forall a, 0 <= a < b -> bfreeV V sb a = false) /\
     (forall a, 0 <= a < sb_size sb ->
        bfreeV V' sb a = if decide (a = b) then false else bfreeV V sb a) /\
     dv V' b = replicate (Z.to_nat BSIZE) 0 /\
     (forall a, a <> b -> a <> BBLOCK b sb -> dv V' a = dv V a) /\
     countZ (bfreeV V' sb) 0 (Z.to_nat (sb_size sb)) =
     countZ (bfreeV V sb) 0 (Z.to_nat (sb_size sb)) - 1) \/
  ((forall a, 0 <= a < sb_size sb -> bfreeV V sb a = false) /\
   balloc ROOTDEV s = Panic "balloc: out of blocks").
Proof.
  intros sb HR HW Hr Hh. pose proof (rep_sizes _ _ HR) as Hs.
  destruct (balloc_ok s sb V eq_refl HR HW Hr) as [(b & s' & E & Hb & Hf & Hl & HR' & _)|[Ha E]].
  - intros a Ha. rewrite Hh in Ha. set_solver.
  - left. exists b, s', (takenV V sb b).
    pose proof (ws_used _ _ HW b Hb Hf). split_and!; auto; try lia.
    + by apply taken_wf.
    + intros a Ha. by apply taken_free.
    + unfold takenV. cbn [dv put_blk]. by rewrite decide_True.
    + intros a Ha Hne. unfold takenV. cbn [dv put_blk]. by rewrite !decide_False.
    + by apply taken_count.
  - right. auto.
Qed.

(** [bfree] panics on a free block; on a block in use it clears that
    block's bit in the free map and changes nothing else, so that it undoes
    the effect of [balloc] on the map. *)
Theorem bfree_spec s V b :
  let sb := fs_sb s in
  bk_rep (fs_b s) V -> wf_sb sb V -> room V 1 -> dv_held V = ∅ -> 0 <= b < sb_size sb ->
  (bfreeV V sb b = true /\ bfree ROOTDEV b s = Panic "freeing free block") \/
  (bfreeV V sb b = false /\ exists s' V', bfree ROOTDEV b s = Ok (tt, set_b s' s) /\
     bk_rep s' V' /\
     (forall a, 0 <= a < sb_size sb ->
        bfreeV V' sb a = if decide (a = b) then true else bfreeV V sb a) /\
     (forall a, a <> BBLOCK b sb -> dv V' a = dv V a) /\
     countZ (bfreeV V' sb) 0 (Z.to_nat (sb_size sb)) =
     countZ (bfreeV V sb) 0 (Z.to_nat (sb_size sb)) + 1).
Proof.
  intros sb HR HW Hr Hh Hb. pose proof (rep_sizes _ _ HR) as Hs.
  destruct (bfree_ok s sb V b eq_refl HR HW Hr Hb) as [?|[Hf (s' & E & HR')]];
    [rewrite Hh; set_solver|by left|right].
  split; [done|]. exists s', (freedV V sb b). split_and!; auto.
  - intros a Ha. by apply freed_free.
  - intros a Ha. unfold freedV. cbn [dv put_blk]. by rewrite decide_False.
  - apply countZ_flip with (b := b); auto; try lia.
    + rewrite freed_free by done. by rewrite decide_True.
    + intros a Ha Hne. rewrite freed_free by (done || lia). by rewrite decide_False.
Qed.

(** (C32) [get_fs_stats] returns the exact numbers of regular files,
    directories and allocated inodes among the inodes 1 to ninodes - 1, and of
    free blocks of the disk, and changes no block. *)
Theorem get_fs_stats_spec s V :
  let sb := fs_sb s in
  bk_rep (fs_b s) V -> wf_sb sb V -> rroom V -> dv_held V = ∅ ->
  exists b, get_fs_stats ROOTDEV s =
    Ok ({| num_files := countZ (fun a => itypeV V sb a =? T_FILE) 1
             (Z.to_nat (sb_ninodes sb - 1));
           num_dirs := countZ (fun a => itypeV V sb a =? T_DIR) 1
             (Z.to_nat (sb_ninodes sb - 1));
           allocated_inodes := countZ (fun a => negb (itypeV V sb a =? 0)) 1
             (Z.to_nat (sb_ninodes sb - 1));
           free_disk_blocks := countZ (bfreeV V sb) 0 (Z.to_nat (sb_size sb)) |},
        set_b b s) /\ bk_rep b V.
Proof. intros sb. by apply get_fs_stats_ok. Qed.

End FsBlocks.

(** ** An eight-block file system: boot, super, three log blocks, one block of
    inodes, the free map and one data block *)

Definition demo_sb8 : superblock :=
  {| sb_size := 8; sb_nblocks := 1; sb_ninodes := 8; sb_nlog := 3; sb_logstart := 2;
     sb_inodestart := 5; sb_bmapstart := 6 |}.

Definition demo_fs : list block :=
  [zero_block;
   setw (setw (setw (setw (setw (setw (setw zero_block 0 8) 1 1) 2 8) 3 3) 4 2) 5 5) 6 6;
   zero_block; zero_block; zero_block; zero_block;
   <[0%nat := 127]> zero_block; zero_block].

Lemma demo_fs_wf : wf_disk 2 3 demo_fs.
Proof.
  apply wf_empty; [lia|vm_compute; done|vm_compute; done| |vm_compute; done|
    vm_compute; done].
  repeat (apply Forall_cons; split; [vm_compute; reflexivity|]). apply Forall_nil_2.
Qed.

Lemma demo_sb_wf V :
  dv_lo V = 5 -> dv_n V = 8 -> dv V 6 = <[0%nat := 127]> zero_block -> wf_sb demo_sb8 V.
Proof.
  intros Hlo Hn Hv6. split; rewrite ?Hlo, ?Hn; try (vm_compute; done).
  intros a Ha Hf. change (sb_size demo_sb8) with 8 in Ha.
  change (datastart demo_sb8) with 7. destruct (decide (a < 7)) as [Hlt|]; [|lia].
  exfalso. unfold bfreeV in Hf. replace (BBLOCK a demo_sb8) with 6 in Hf.
  - rewrite Hv6 in Hf.
    assert (Hc7 : a = 0 \/ a = 1 \/ a = 2 \/ a = 3 \/ a = 4 \/ a = 5 \/ a = 6) by lia.
    destruct Hc7 as [->|[->|[->|[->|[->|[->| ->]]]]]]; vm_compute in Hf; discriminate.
  - unfold BBLOCK. rewrite Z.div_small by (change BPB with 4096; lia). done.
Qed.

Lemma demo_fs_rep :
  exists (s : fsst logst) V, fs_sb s = demo_sb8 /\ bk_rep (fs_b s) V /\
    wf_sb demo_sb8 V /\ room V 2 /\ dv_held V = ∅ /\ dv V 6 = <[0%nat := 127]> zero_block.
Proof.
  destruct (reboot_view 2 3 demo_fs demo_fs_wf)
    as (b & V & HR & Hh & Hm & Hl & Ho & Hlo & Hn & Hc & Hv).
  change (Z.of_nat (length demo_fs)) with 8 in *.
  assert (Hv6 : dv V 6 = <[0%nat := 127]> zero_block).
  { rewrite Hv by lia. vm_compute. reflexivity. }
  exists {| fs_b := b; fs_sb := demo_sb8; icache := []; fs_pid := 1 |}, V.
  split_and!; auto using demo_sb_wf.
  split; auto; rewrite Hl, ?Hh, ?Hc, ?size_empty; vm_compute; done.
Qed.

Lemma balloc_spec_witness :
  exists (s : fsst logst) b s', balloc ROOTDEV s = Ok (b, s') /\ b = 7.
Proof.
  destruct demo_fs_rep as (s & V & Hsb & HR & HW & Hr & Hh & Hv).
  destruct (balloc_spec s V HR ltac:(by rewrite Hsb) Hr Hh)
    as [(b & s' & V' & E & _ & _ & Hb & _)|[Hall _]].
  - exists s, b, (set_b s' s). split; [exact E|]. rewrite Hsb in Hb.
    change (datastart demo_sb8) with 7 in Hb. change (sb_size demo_sb8) with 8 in Hb. lia.
  - exfalso. rewrite Hsb in Hall. specialize (Hall 7 ltac:(vm_compute; done)).
    unfold bfreeV in Hall. change (BBLOCK 7 demo_sb8) with 6 in Hall. rewrite Hv in Hall.
    vm_compute in Hall. discriminate.
Defined.

Lemma bfree_spec_witness :
  exists (s : fsst logst), bfree ROOTDEV 7 s = Panic "freeing free block".
Proof.
  destruct demo_fs_rep as (s & V & Hsb & HR & HW & Hr & Hh & Hv). exists s.
  destruct (bfree_spec s V 7 HR ltac:(by rewrite Hsb) (room_le _ _ 1 Hr ltac:(lia)) Hh
    ltac:(rewrite Hsb; vm_compute; done)) as [[_ E]|[Hf _]]; [exact E|].
  exfalso. rewrite Hsb in Hf. unfold bfreeV in Hf.
  change (BBLOCK 7 demo_sb8) with 6 in Hf. rewrite Hv in Hf.
  vm_compute in Hf. discriminate.
Defined.

Lemma get_fs_stats_spec_witness :
  exists (s : fsst logst) fi s', get_fs_stats ROOTDEV s = Ok (fi, s').
Proof.
  destruct demo_fs_rep as (s & V & Hsb & HR & HW & Hr & Hh & Hv).
  destruct (get_fs_stats_spec s V HR ltac:(by rewrite Hsb)
    (room_rroom _ _ Hr ltac:(lia)) Hh) as (b & E & _). eauto.
Defined.
