(* ===== verification/FsFiles.v ===== *)
(** * The inode cache, file contents and directories *)

From S2P Require Import Prelude Param Bytes Memory Sleeplock Bio BioInv Log LogInv.
From S2P Require Import LogCrash Blocks LogBlocks Fs FsBlocks.

(** ** Reference counts *)

Definition is_entry (d n : Z) (ip : inode) : bool :=
  (0 <? ref ip) && (i_dev ip =? d) && (inum ip =? n).

(** No inode is in the cache twice, and no count is negative. *)
Record icache_ok (l : list inode) : Prop := {
  ic_uniq : forall i j d n x y, l !! i = Some x -> l !! j = Some y ->
    is_entry d n x = true -> is_entry d n y = true -> i = j;
  ic_ref : forall i x, l !! i = Some x -> 0 <= ref x
}.

(** References to inode [n] of device [d]. *)
Definition refs (l : list inode) (d n : Z) : Z :=
  match find_idx (is_entry d n) l with
  | Some i => ref (l !!! i)
  | None => 0
  end.

Lemma is_entry_true d n ip :
  is_entry d n ip = true <-> 0 < ref ip /\ i_dev ip = d /\ inum ip = n.
Proof.
  unfold is_entry. rewrite !andb_true_iff, Z.ltb_lt, !Z.eqb_eq. tauto.
Qed.

Lemma refs_at l i x d n :
  icache_ok l -> l !! i = Some x -> is_entry d n x = true -> refs l d n = ref x.
Proof.
  intros Hl Hi Hx. unfold refs. destruct (find_idx (is_entry d n) l) as [j|] eqn:E.
  - apply find_idx_Some in E as (y & Hj & Hy & _).
    assert (i = j) as -> by (by eapply (ic_uniq l Hl)).
    by rewrite (list_lookup_total_correct _ _ _ Hi).
  - rewrite find_idx_None in E. by rewrite (E i x Hi) in Hx.
Qed.

Lemma refs_none l d n :
  (forall i x, l !! i = Some x -> is_entry d n x = false) -> refs l d n = 0.
Proof. intros H. unfold refs. by apply find_idx_None in H as ->. Qed.

(** Replacing one entry: the counts of its old and its new identity change. *)
Lemma icache_insert l i x y :
  icache_ok l -> l !! i = Some x -> 0 <= ref y ->
  (forall j z, l !! j = Some z -> j <> i -> is_entry (i_dev y) (inum y) z = false) ->
  icache_ok (<[i := y]> l) /\
  forall d n, refs (<[i := y]> l) d n =
    if is_entry d n y then ref y
    else if is_entry d n x then 0 else refs l d n.
Proof.
  intros Hl Hi Hy Hfresh. pose proof (lookup_lt_Some _ _ _ Hi) as Hlt.
  assert (Hlk : forall j z, <[i := y]> l !! j = Some z ->
    (j = i /\ z = y) \/ (j <> i /\ l !! j = Some z)).
  { intros j z Hj. destruct (decide (j = i)) as [->|Hne].
    - rewrite list_lookup_insert_eq in Hj by done. left. by injection Hj.
    - rewrite list_lookup_insert_ne in Hj by done. by right. }
  assert (Hent : forall d n, is_entry d n y = true -> d = i_dev y /\ n = inum y).
  { intros d n (_ & <- & <-)%is_entry_true. done. }
  assert (Hok : icache_ok (<[i := y]> l)).
  { split.
    - intros j k d n a b [[-> ->]|[Hj Hja]]%Hlk [[-> ->]|[Hk Hkb]]%Hlk Ha Hb; auto.
      + apply Hent in Ha as [-> ->]. by rewrite (Hfresh k b) in Hb.
      + apply Hent in Hb as [-> ->]. by rewrite (Hfresh j a) in Ha.
      + by eapply (ic_uniq l Hl).
    - intros j a [[_ ->]|[_ Hj]]%Hlk; [done|]. by eapply (ic_ref l Hl). }
  split; [done|]. intros d n. destruct (is_entry d n y) eqn:Ey.
  - apply (refs_at _ i); auto. by rewrite list_lookup_insert_eq.
  - destruct (is_entry d n x) eqn:Ex.
    + apply refs_none. intros j z [[_ ->]|[Hj Hz]]%Hlk; [done|].
      destruct (is_entry d n z) eqn:Ez; [|done].
      destruct Hj. by eapply (ic_uniq l Hl).
    + unfold refs at 2. destruct (find_idx (is_entry d n) l) as [j|] eqn:E.
      * apply find_idx_Some in E as (z & Hj & Hz & _).
        assert (j <> i) by (intros ->; congruence).
        rewrite (list_lookup_total_correct _ _ _ Hj).
        apply (refs_at _ j); auto. by rewrite list_lookup_insert_ne.
      * apply refs_none. intros j z [[_ ->]|[Hj Hz]]%Hlk; [done|].
        rewrite find_idx_None in E. by apply (E j).
Qed.

Section Icache.
Context {S : Type} `{BO : BlockOps S}.

Lemma iupd_run (s : fsst S) i f x :
  icache s !! i = Some x ->
  iupd i f s = Ok (tt, set_icache (<[i := f x]> (icache s)) s).
Proof.
  intros Hi. unfold iupd, modify. do 3 f_equal. rewrite list_insert_alter.
  apply list_alter_ext; [|done]. intros y Hy. congruence.
Qed.

Lemma is_entry_of d n y d' n' :
  i_dev y = d -> inum y = n -> 0 < ref y -> is_entry d' n' y = bool_decide (d' = d /\ n' = n).
Proof.
  intros Hd Hn Hr. case_bool_decide as E.
  - destruct E as [-> ->]. by apply is_entry_true.
  - apply not_true_iff_false. intros (_ & A & B)%is_entry_true. apply E. split; congruence.
Qed.

Lemma iget_ok (s : fsst S) d n :
  icache_ok (icache s) ->
  (exists i x l, iget d n s = Ok (i, set_icache l s) /\ icache_ok l /\
     length l = length (icache s) /\ l !! i = Some x /\
     i_dev x = d /\ inum x = n /\ ref x = refs (icache s) d n + 1 /\
     (refs (icache s) d n = 0 -> valid x = false) /\
     (forall d' n', refs l d' n' = refs (icache s) d' n' +
        if decide (d' = d /\ n' = n) then 1 else 0) /\
     (forall j, j <> i -> l !! j = icache s !! j)) \/
  (iget d n s = Panic "iget: no inodes" /\ refs (icache s) d n = 0 /\
   forall i x, icache s !! i = Some x -> 0 < ref x).
Proof.
  intros Hl. unfold iget. mrun. fold (is_entry d n).
  destruct (find_idx (is_entry d n) (icache s)) as [i|] eqn:E.
  - left. apply find_idx_Some in E as (x & Hi & Hx & _). mrun. rewrite (bind_Ok _ _ _ _ _ (iupd_run s i _ x Hi)).
    set (y := set_ref (ref x + 1) x).
    pose proof (ic_ref _ Hl _ _ Hi) as Hr.
    pose proof (refs_at _ _ _ _ _ Hl Hi Hx) as Hrx.
    pose proof Hx as (Hpos & Hd & Hn)%is_entry_true.
    destruct (icache_insert (icache s) i x y Hl Hi) as [Hok Hrefs].
    { simpl. lia. }
    { intros j z Hj Hne. destruct (is_entry _ _ z) eqn:Ez; [|done].
      destruct Hne. eapply (ic_uniq _ Hl j i d n z x); auto.
      unfold y in Ez. simpl in Ez. by rewrite Hd, Hn in Ez. }
    exists i, y, (<[i := y]> (icache s)). pose proof (lookup_lt_Some _ _ _ Hi).
    split_and!; auto.
    + by rewrite length_insert.
    + by rewrite list_lookup_insert_eq.
    + simpl. lia.
    + simpl. lia.
    + intros d' n'. rewrite Hrefs, (is_entry_of d n y), (is_entry_of d n x) by (done || simpl; lia).
      destruct (decide (d' = d /\ n' = n)) as [[-> ->]|Hne]; [rewrite bool_decide_true by done; simpl; lia|by rewrite bool_decide_false, Z.add_0_r].
    + intros j Hj. by rewrite list_lookup_insert_ne.
  - assert (Hr0 : refs (icache s) d n = 0) by (unfold refs; by rewrite E).
    destruct (find_idx (fun ip => ref ip =? 0) (icache s)) as [i|] eqn:E2.
    + left. apply find_idx_Some in E2 as (x & Hi & Hx%Z.eqb_eq & _).
      mrun. rewrite (bind_Ok _ _ _ _ _ (iupd_run s i _ x Hi)). set (y := {| i_dev := d; inum := n; ref := 1 |}).
      destruct (icache_insert (icache s) i x y Hl Hi) as [Hok Hrefs]; [done| |].
      { intros j z Hj _. rewrite find_idx_None in E. by apply (E j). }
      exists i, y, (<[i := y]> (icache s)). pose proof (lookup_lt_Some _ _ _ Hi).
      split_and!; auto.
      * by rewrite length_insert.
      * by rewrite list_lookup_insert_eq.
      * simpl. lia.
      * intros d' n'. rewrite Hrefs.
        assert (Hex : is_entry d' n' x = false).
        { apply not_true_iff_false. intros (A & _)%is_entry_true. lia. }
        rewrite (is_entry_of d n y), Hex by done. destruct (decide (d' = d /\ n' = n)) as [[-> ->]|Hne]; [rewrite bool_decide_true by done; simpl; lia|by rewrite bool_decide_false, Z.add_0_r].
      * intros j Hj. by rewrite list_lookup_insert_ne.
    + right. split_and!; auto. intros i x Hi. rewrite find_idx_None in E2.
      specialize (E2 i x Hi). apply Z.eqb_neq in E2.
      pose proof (ic_ref _ Hl _ _ Hi). lia.
Qed.

(** [iget] returns the cache entry of the inode: the existing one if
    the inode is cached, else a free one, marked invalid. The inode's
    reference count grows by one and no other count changes, an inode is never
    cached twice, and the function panics only if the inode is not cached and
    every entry is in use. *)
Theorem iget_spec (s : fsst S) d n :
  icache_ok (icache s) ->
  (exists i x l, iget d n s = Ok (i, set_icache l s) /\ icache_ok l /\
     length l = length (icache s) /\ l !! i = Some x /\
     i_dev x = d /\ inum x = n /\ ref x = refs (icache s) d n + 1 /\
     (refs (icache s) d n = 0 -> valid x = false) /\
     (forall d' n', refs l d' n' = refs (icache s) d' n' +
        if decide (d' = d /\ n' = n) then 1 else 0) /\
     (forall j, j <> i -> l !! j = icache s !! j)) \/
  (iget d n s = Panic "iget: no inodes" /\ refs (icache s) d n = 0 /\
   forall i x, icache s !! i = Some x -> 0 < ref x).
Proof. apply iget_ok. Qed.

End Icache.

(** The zero-initialised cache. *)
Definition icache0 : list inode := replicate (Z.to_nat NINODE) inode0.

Lemma icache0_ok : icache_ok icache0.
Proof.
  split.
  - intros i j d n x y [-> _]%lookup_replicate _ [Hx _]%is_entry_true. simpl in Hx. lia.
  - by intros i x [-> _]%lookup_replicate.
Qed.

Lemma iget_spec_witness :
  let s := {| fs_b := log0 (boot [] 1); fs_sb := demo_sb8; icache := icache0;
              fs_pid := 1 |} in
  exists i s', iget ROOTDEV ROOTINO s = Ok (i, s') /\ refs (icache s') ROOTDEV ROOTINO = 1.
Proof.
  intros s. destruct (iget_spec s ROOTDEV ROOTINO icache0_ok)
    as [(i & x & l & E & _ & _ & _ & _ & _ & _ & _ & Hr & _)|(_ & _ & Hall)].
  - exists i, (set_icache l s). split; [exact E|]. cbn [icache set_icache].
    rewrite Hr. vm_compute. reflexivity.
  - specialize (Hall 0%nat inode0 eq_refl). simpl in Hall. lia.
Defined.

(** ** File contents *)

Section Files.
Context {S : Type} `{BS : BlockSpec S}.
Variable devsw : Z -> device S.

(** The address of block [k] of a file, and byte [o] of its contents. *)
Definition blkaddr (V : dview) (d : dinode) (k : Z) : Z :=
  if k <? NDIRECT then d_addrs d !!! Z.to_nat k
  else getw (dv V (d_addrs d !!! Z.to_nat NDIRECT)) (Z.to_nat (k - NDIRECT)).

Definition fbyte (V : dview) (d : dinode) (o : Z) : Z :=
  dv V (blkaddr V d (o / BSIZE)) !!! Z.to_nat (o mod BSIZE).

(** A block that is allocated and not held by the process. *)
Definition good_blk (V : dview) (a : Z) : Prop := 0 < a < dv_n V /\ a ∉ dv_held V.

Lemma good_range V a : good_blk V a -> 0 <= a < dv_n V.
Proof. intros [? _]. lia. Qed.

Record wf_file (V : dview) (ip : inode) : Prop := {
  wfi_dev : i_dev ip = ROOTDEV;
  wfi_size : 0 <= isize ip <= MAXFILE * BSIZE;
  wfi_blk : forall k, 0 <= k -> k * BSIZE < isize ip -> good_blk V (blkaddr V (i_d ip) k);
  wfi_ind : NDIRECT * BSIZE < isize ip ->
    good_blk V (d_addrs (i_d ip) !!! Z.to_nat NDIRECT)
}.

(** What is read of a file: [n] bytes from [off]. *)
Definition fread (V : dview) (d : dinode) (off : Z) (n : nat) : list Z :=
  (fun k => fbyte V d (off + Z.of_nat k)) <$> seq 0 n.

Lemma fread_app V d off n m :
  fread V d off (n + m) = fread V d off n ++ fread V d (off + Z.of_nat n) m.
Proof.
  unfold fread. rewrite seq_app, fmap_app. f_equal. simpl.
  rewrite <- (Nat.add_0_r n) at 1. rewrite <- fmap_add_seq, <- list_fmap_compose.
  apply list_fmap_ext. intros i x _. simpl. f_equal. lia.
Qed.

Lemma addr_or_alloc_ok (s : fsst S) i k :
  addr_at i k s <> 0 -> addr_or_alloc i k s = Ok (addr_at i k s, s).
Proof.
  intros Ha. unfold addr_or_alloc. mrun. by destruct (Z.eqb_spec (addr_at i k s) 0).
Qed.

Lemma bmap_ok (s : fsst S) V i ip k :
  bk_rep (fs_b s) V -> rroom V -> icache s !! i = Some ip -> wf_file V ip ->
  0 <= k -> k * BSIZE < isize ip ->
  exists b, bmap i k s = Ok (blkaddr V (i_d ip) k, set_b b s) /\ bk_rep b V.
Proof.
  intros HR Hr Hi HF Hk0 Hk.
  assert (Hip : iat s i = ip) by (by apply list_lookup_total_correct).
  destruct (wfi_blk V ip HF k Hk0 Hk) as [Hb Hbh]. pose proof (wfi_size V ip HF) as Hsz.
  change (MAXFILE * BSIZE) with 71680 in Hsz. change BSIZE with 512 in Hk.
  unfold bmap, blkaddr in *. change NDIRECT with 12 in *. change NINDIRECT with 128.
  destruct (Z.ltb_spec k 12).
  - rewrite addr_or_alloc_ok; unfold addr_at; rewrite Hip; [|lia].
    exists (fs_b s). split; [|done]. by destruct s.
  - destruct (Z.ltb_spec (k - 12) 128); [|lia].
    assert (Hg : good_blk V (d_addrs (i_d ip) !!! Z.to_nat 12)).
    { apply (wfi_ind V ip HF). change (NDIRECT * BSIZE) with 6144. lia. }
    pose proof Hg as [Ha Hah].
    assert (E1 : addr_or_alloc i 12 s = Ok (d_addrs (i_d ip) !!! Z.to_nat 12, s)).
    { rewrite addr_or_alloc_ok; unfold addr_at; rewrite Hip; [done|lia]. }
    mrun E1. mrun. rewrite Hip, (wfi_dev V ip HF).
    destruct (read_block (fs_b s) V (d_addrs (i_d ip) !!! Z.to_nat 12) HR Hr
      (good_range _ _ Hg) Hah) as (bp & b1 & b2 & Er & Hd & El & HR').
    mrun (dio_Ok _ s _ _ Er). mrun (bufd_run (set_b b1 s) bp). cbn [fs_b set_b].
    rewrite Hd.
    destruct (Z.eqb_spec (getw (dv V (d_addrs (i_d ip) !!! Z.to_nat 12))
      (Z.to_nat (k - 12))) 0); [lia|]. mrun.
    mrun (dio_Ok (brelse bp) (set_b b1 s) _ _ El). eauto.
Qed.

(** The bytes copied from one block. *)
Lemma fread_block V (d : dinode) off m :
  length (dv V (blkaddr V d (off / BSIZE))) = Z.to_nat BSIZE ->
  0 <= off -> 0 <= m <= BSIZE - off mod BSIZE ->
  take (Z.to_nat m) (drop (Z.to_nat (off mod BSIZE)) (dv V (blkaddr V d (off / BSIZE))))
  = fread V d off (Z.to_nat m).
Proof.
  intros Hl Ho Hm. change BSIZE with 512 in *.
  pose proof (Z.mod_pos_bound off 512 ltac:(lia)). pose proof (Z.div_mod off 512 ltac:(lia)).
  apply list_eq_same_length with (n := Z.to_nat m).
  - unfold fread. by rewrite length_fmap, length_seq.
  - rewrite length_take, length_drop, Hl. lia.
  - intros k x y Hk Hx Hy. rewrite lookup_take_lt, lookup_drop in Hx by lia.
    unfold fread in Hy. rewrite list_lookup_fmap, lookup_seq_lt in Hy by lia.
    injection Hy as <-. unfold fbyte. simpl. change BSIZE with 512.
    assert (Hq : (off + Z.of_nat k) / 512 = off / 512).
    { symmetry. apply Z.div_unique with (r := off mod 512 + Z.of_nat k); lia. }
    rewrite Hq. replace ((off + Z.of_nat k) mod 512) with (off mod 512 + Z.of_nat k).
    + rewrite Z2Nat.inj_add, Nat2Z.id by lia.
      by rewrite (list_lookup_total_correct _ _ _ Hx).
    + apply Z.mod_unique with (q := off / 512); lia.
Qed.

Lemma readi_loop_ok fuel (s : fsst S) V i ip tot off n acc :
  bk_rep (fs_b s) V -> rroom V -> icache s !! i = Some ip -> wf_file V ip ->
  0 <= tot <= n -> 0 <= off -> off + (n - tot) <= isize ip ->
  tot = n \/ n - tot + off mod BSIZE <= BSIZE * Z.of_nat fuel ->
  exists b, readi_loop fuel i tot off n acc s =
    Ok (acc ++ fread V (i_d ip) off (Z.to_nat (n - tot)), set_b b s) /\ bk_rep b V.
Proof.
  revert s tot off acc. induction fuel as [|fuel IH]; intros s tot off acc HR Hr Hi HF
    Ht Ho Hle Hfuel; cbn [readi_loop]; (destruct (Z.ltb_spec tot n) as [Hlt|Hge];
    [|exists (fs_b s); destruct s; replace (Z.to_nat (n - tot)) with 0%nat by lia;
      unfold fread; simpl; rewrite app_nil_r; done]).
  all: pose proof (Z.div_mod off BSIZE ltac:(done)) as Hdm;
    pose proof (Z.mod_pos_bound off BSIZE ltac:(done)) as Hmb;
    pose proof (Z.div_pos off BSIZE Ho ltac:(done)) as Hdp;
    pose proof (wfi_size V ip HF) as Hsz; change (MAXFILE * BSIZE) with 71680 in Hsz;
    change BSIZE with 512 in *.
  { lia. }
  destruct (bmap_ok s V i ip (off / 512) HR Hr Hi HF Hdp) as (b1 & E1 & HR1);
    [change BSIZE with 512; lia|].
  assert (Hg : good_blk V (blkaddr V (i_d ip) (off / 512))).
  { apply (wfi_blk V ip HF); [done|change BSIZE with 512; lia]. }
  mrun E1. mrun. cbn [iat icache set_b]. unfold iat. cbn [icache set_b].
  rewrite (list_lookup_total_correct _ _ _ Hi), (wfi_dev V ip HF).
  destruct (read_block b1 V _ HR1 Hr (good_range _ _ Hg) (proj2 Hg))
    as (bp & b2 & b3 & E2 & Ed & E3 & HR3).
  mrun (dio_Ok _ (set_b b1 s) _ _ E2). mrun (bufd_run (set_b b2 (set_b b1 s)) bp).
  cbn [fs_b set_b]. rewrite Ed.
  mrun (dio_Ok (brelse bp) (set_b b2 (set_b b1 s)) _ _ E3).
  set (m := Z.min (n - tot) (512 - off mod 512)).
  rewrite (u32_small (off + m)) by lia.
  destruct (IH (set_b b3 (set_b b2 (set_b b1 s))) (tot + m) (off + m)
    (acc ++ fread V (i_d ip) off (Z.to_nat m))) as (b & E & HRb); auto; try lia.
  { destruct (decide (m = n - tot)) as [->|Hne]; [left; lia|right].
    assert (Hm : (off + m) mod 512 = 0).
    { symmetry. apply Z.mod_unique with (q := off / 512 + 1); lia. }
    rewrite Hm. lia. }
  exists b. split; [|done].
  pose proof (fread_block V (i_d ip) off m (bk_size _ _ _ HR (good_range _ _ Hg)) Ho)
    as Hfb. change BSIZE with 512 in Hfb. rewrite Hfb by lia.
  etrans; [exact E|]. rewrite <- app_assoc.
  replace (Z.to_nat (n - tot)) with (Z.to_nat m + Z.to_nat (n - (tot + m)))%nat by lia.
  rewrite fread_app, Z2Nat.id by lia. done.
Qed.

(** The number of bytes [readi] reads. *)
Definition rlen (size off n : Z) : Z := Z.min n (size - off).

(** [readi] on a file whose blocks are allocated returns the bytes of
    the file from [off], [n] of them or as many as the file has, and that
    number; an offset past the end, or one whose sum with [n] overflows, is
    an error. No block and no inode changes. *)
Theorem readi_ok (s : fsst S) V i ip off n :
  bk_rep (fs_b s) V -> rroom V -> icache s !! i = Some ip -> wf_file V ip ->
  itype ip <> T_DEV -> 0 <= off < 2 ^ 32 -> 0 <= n < 2 ^ 32 ->
  if decide (off <= isize ip /\ off + n < 2 ^ 32) then
    let k := rlen (isize ip) off n in
    exists b, readi devsw i off n s =
      Ok ((k, fread V (i_d ip) off (Z.to_nat k)), set_b b s) /\ bk_rep b V
  else readi devsw i off n s = Ok ((-1, []), s).
Proof.
  intros HR Hr Hi HF Hty Ho Hn. unfold readi. mrun.
  assert (Hip : iat s i = ip) by (by apply list_lookup_total_correct).
  rewrite Hip. destruct (Z.eqb_spec (itype ip) T_DEV); [done|].
  pose proof (wfi_size V ip HF) as Hsz. change (MAXFILE * BSIZE) with 71680 in Hsz.
  destruct (decide _) as [[Hof Hlt]|Hbad].
  - rewrite (u32_small (off + n)) by lia. destruct (Z.ltb_spec (isize ip) off); [lia|].
    destruct (Z.ltb_spec (off + n) off); [lia|]. simpl.
    set (m := if isize ip <? off + n then u32 (isize ip - off) else n).
    assert (Hm : m = rlen (isize ip) off n).
    { unfold m, rlen. destruct (Z.ltb_spec (isize ip) (off + n)); [|lia].
      rewrite u32_small by lia. lia. }
    pose proof (Z.div_mod m BSIZE ltac:(done)). pose proof (Z.mod_pos_bound off BSIZE ltac:(done)).
    pose proof (Z.mod_pos_bound m BSIZE ltac:(done)).
    assert (0 <= m) by (unfold rlen in Hm; lia).
    pose proof (Z.div_pos m BSIZE ltac:(lia) ltac:(done)). change BSIZE with 512 in *.
    destruct (readi_loop_ok (Z.to_nat (m / 512 + 2)) s V i ip 0 off m []) as (b & E & HRb);
      auto; try (unfold rlen in Hm; lia).
    { right. change BSIZE with 512. lia. }
    exists b. split; [|done]. mrun E. rewrite Z.sub_0_r, Hm. done.
  - destruct (Z.ltb_spec (isize ip) off); [done|].
    assert (off + n >= 2 ^ 32) by lia.
    assert (Hu : u32 (off + n) = off + n - 2 ^ 32).
    { symmetry. apply Z.mod_unique with (q := 1); lia. }
    rewrite Hu. destruct (Z.ltb_spec (off + n - 2 ^ 32) off); [done|lia].
Qed.

(** ** Directories *)

(** Entry [j] of a directory, and whether it is an entry for [name]. *)
Definition dent (V : dview) (d : dinode) (j : nat) : list Z :=
  fread V d (16 * Z.of_nat j) 16.
Definition fname (l : list Z) : list Z := cprefix (cstr l) 0 14.
Definition is_dent (V : dview) (d : dinode) (name : list Z) (j : nat) : bool :=
  negb (de_inum (dent V d j) =? 0) &&
  bool_decide (fname name = fname (de_name (dent V d j))).

Lemma namecmp_eq s t : namecmp s t = 0 <-> fname s = fname t.
Proof. apply strncmp_eq0. Qed.

Lemma dirlookup_loop_ok fuel (s : fsst S) V i ip name k nent :
  bk_rep (fs_b s) V -> rroom V -> icache s !! i = Some ip -> wf_file V ip ->
  itype ip = T_DIR -> isize ip = 16 * Z.of_nat nent ->
  (k + fuel >= nent)%nat ->
  exists b, bk_rep b V /\
  dirlookup_loop devsw fuel i name (16 * Z.of_nat k) s =
  match find_idx (is_dent V (i_d ip) name) (seq k (nent - k)) with
  | Some j =>
      (let! x := iget ROOTDEV (de_inum (dent V (i_d ip) (k + j))) in
       ret (Some (x, 16 * Z.of_nat (k + j)))) (set_b b s)
  | None => Ok (None, set_b b s)
  end.
Proof.
  revert s k. induction fuel as [|fuel IH]; intros s k HR Hr Hi HF Hty Hsz Hf;
    cbn [dirlookup_loop]; mrun; unfold iat;
    rewrite (list_lookup_total_correct _ _ _ Hi), Hsz;
    (destruct (Z.ltb_spec (16 * Z.of_nat k) (16 * Z.of_nat nent)) as [Hlt|Hge];
     [|exists (fs_b s); replace (nent - k)%nat with 0%nat by lia; destruct s; done]);
    [lia|].
  pose proof (wfi_size V ip HF) as Hb. change (MAXFILE * BSIZE) with 71680 in Hb.
  pose proof (readi_ok s V i ip (16 * Z.of_nat k) sizeof_dirent HR Hr Hi HF
    ltac:(by rewrite Hty) ltac:(lia) ltac:(done)) as Hrd.
  change sizeof_dirent with 16 in Hrd |- *.
  rewrite decide_True in Hrd by lia. replace (rlen _ _ _) with 16 in Hrd by (unfold rlen; lia).
  destruct Hrd as (b1 & E1 & HR1). 
  change (fread V (i_d ip) (16 * Z.of_nat k) (Z.to_nat 16)) with (dent V (i_d ip) k) in E1.
  mrun E1.
  replace (nent - k)%nat with (Datatypes.S (nent - Datatypes.S k)) by lia.
  cbn [seq find_idx]. unfold is_dent at 1. change (negb (16 =? 16)) with false. cbv iota.
  destruct (IH (set_b b1 s) (Datatypes.S k)) as (b & HRb & Erec); auto; try lia.
  replace (16 * Z.of_nat (Datatypes.S k)) with (16 * Z.of_nat k + 16) in Erec by lia.
  assert (Hskip : exists b, bk_rep b V /\
    dirlookup_loop devsw fuel i name (16 * Z.of_nat k + 16) (set_b b1 s) =
    match Datatypes.S <$> find_idx (is_dent V (i_d ip) name)
      (seq (Datatypes.S k) (nent - Datatypes.S k)) with
    | Some j =>
        (let! x := iget ROOTDEV (de_inum (dent V (i_d ip) (k + j))) in
         ret (Some (x, 16 * Z.of_nat (k + j)))) (set_b b s)
    | None => Ok (None, set_b b s)
    end).
  { exists b. split; [done|]. rewrite Erec. destruct (find_idx _ _) as [j|]; simpl; [|done].
    by rewrite Nat.add_succ_r. }
  destruct (Z.eqb_spec (de_inum (dent V (i_d ip) k)) 0); [exact Hskip|].
  destruct (Z.eqb_spec (namecmp name (de_name (dent V (i_d ip) k))) 0) as [He|He].
  - apply namecmp_eq in He. rewrite bool_decide_eq_true_2 by done. simpl.
    exists b1. split; [done|]. rewrite (wfi_dev V ip HF), Nat.add_0_r. done.
  - rewrite bool_decide_eq_false_2 by (by rewrite <- namecmp_eq). exact Hskip.
Qed.

Lemma dirlookup_ok (s : fsst S) V i ip name nent :
  bk_rep (fs_b s) V -> rroom V -> icache s !! i = Some ip -> wf_file V ip ->
  itype ip = T_DIR -> isize ip = 16 * Z.of_nat nent ->
  exists b, bk_rep b V /\
  dirlookup devsw i name s =
  match find_idx (is_dent V (i_d ip) name) (seq 0 nent) with
  | Some j =>
      (let! x := iget ROOTDEV (de_inum (dent V (i_d ip) j)) in
       ret (Some (x, 16 * Z.of_nat j))) (set_b b s)
  | None => Ok (None, set_b b s)
  end.
Proof.
  intros HR Hr Hi HF Hty Hsz. unfold dirlookup. mrun. unfold iat.
  rewrite (list_lookup_total_correct _ _ _ Hi), Hty, Hsz. simpl negb.
  change sizeof_dirent with 16. rewrite Z.mul_comm, Z.div_mul by lia.
  destruct (dirlookup_loop_ok (Z.to_nat (Z.of_nat nent + 1)) s V i ip name 0 nent)
    as (b & HRb & E); auto; [lia|].
  exists b. split; [done|]. rewrite Nat.sub_0_r in E. exact E.
Qed.

(** [dirlookup] finds the first entry in use whose name agrees with
    [name] on the first 14 characters: it returns the inode of that entry with
    one more reference, and its offset, and it returns null exactly when there
    is no such entry. No block changes. *)
Theorem dirlookup_spec (s : fsst S) V i ip name nent :
  bk_rep (fs_b s) V -> rroom V -> icache s !! i = Some ip -> wf_file V ip ->
  itype ip = T_DIR -> isize ip = 16 * Z.of_nat nent ->
  exists b, bk_rep b V /\
  dirlookup devsw i name s =
  match find_idx (is_dent V (i_d ip) name) (seq 0 nent) with
  | Some j =>
      (let! x := iget ROOTDEV (de_inum (dent V (i_d ip) j)) in
       ret (Some (x, 16 * Z.of_nat j))) (set_b b s)
  | None => Ok (None, set_b b s)
  end.
Proof. apply dirlookup_ok. Qed.
End Files.

(** ** Paths *)

(** The elements of a path: its maximal runs of characters other than the
    slash; [cur] is the run read so far. *)
Definition flush (cur : list Z) : list (list Z) := if cur is [] then [] else [cur].
Fixpoint elems (cur path : list Z) : list (list Z) :=
  match path with
  | [] => flush cur
  | c :: path => if c =? SLASH then flush cur ++ elems [] path else elems (cur ++ [c]) path
  end.

Lemma elems_skip path : elems [] (skip_slashes path) = elems [] path.
Proof.
  induction path as [|c path IH]; simpl; [done|].
  destruct (c =? SLASH) eqn:E; [by rewrite IH|]. simpl. by rewrite E.
Qed.

Lemma skip_slashes_spec path :
  (length (skip_slashes path) <= length path)%nat /\
  (forall c rest, skip_slashes path = c :: rest -> c <> SLASH) /\
  (Forall (fun c => c <> 0) path -> Forall (fun c => c <> 0) (skip_slashes path)).
Proof.
  induction path as [|c path (IH1 & IH2 & IH3)]; simpl; [done|].
  destruct (Z.eqb_spec c SLASH).
  - split_and!; [lia|done|]. intros HF. apply IH3. by inversion HF.
  - split_and!; [done| |done]. by intros ? ? [= <- <-].
Qed.

Lemma skip_elem_spec path cur :
  let (s, rest) := skip_elem path in
  elems cur path = flush (cur ++ s) ++ elems [] rest /\ path = s ++ rest.
Proof.
  revert cur. induction path as [|c path IH]; intros cur; cbn [skip_elem elems].
  - by rewrite !app_nil_r.
  - destruct (Z.eqb_spec c SLASH) as [->|].
    + rewrite app_nil_r. split; [|done]. cbn [elems]. by rewrite Z.eqb_refl.
    + specialize (IH (cur ++ [c])). destruct (skip_elem path) as [s rest].
      destruct IH as [-> ->]. by rewrite <- app_assoc.
Qed.

Lemma cprefix_nonzero (e rest : list Z) n :
  Forall (fun c => c <> 0) e ->
  cprefix (cstr (e ++ 0 :: rest)) 0 n = take n e.
Proof.
  intros He. revert e He. induction n as [|n IH]; intros e He; [done|].
  destruct He as [|c e Hc He]; [done|]. rewrite cprefix_S.
  unfold cstr at 1. cbn [nth app]. destruct (Z.eqb_spec c 0); [done|].
  cbn [take]. f_equal. rewrite <- IH by done. by apply cprefix_shift.
Qed.

Lemma cprefix_full (e : list Z) :
  Forall (fun c => c <> 0) e -> cprefix (cstr e) 0 (length e) = e.
Proof.
  intros He. rewrite <- (take_ge e (length e)) at 3 by lia.
  rewrite <- (cprefix_nonzero e []) by done. apply cprefix_shift.
  intros k Hk. unfold cstr. simpl. by rewrite app_nth1.
Qed.

(** The first element of a path that does not start with a slash. *)
Lemma skip_elem_first c p :
  c <> SLASH ->
  exists s rest, skip_elem (c :: p) = (c :: s, rest) /\ c :: p = (c :: s) ++ rest /\
    elems [] (c :: p) = (c :: s) :: elems [] rest.
Proof.
  intros Hc. pose proof (skip_elem_spec (c :: p) []) as Hs. cbn [skip_elem] in *.
  destruct (Z.eqb_spec c SLASH); [done|]. destruct (skip_elem p) as [s rest].
  destruct Hs as [He Hp]. by exists s, rest.
Qed.

Lemma elems_nil path : skip_slashes path = [] <-> elems [] path = [].
Proof.
  rewrite <- (elems_skip path). destruct (skip_slashes path) as [|c p] eqn:E; [done|].
  destruct (skip_slashes_spec path) as (_ & Hns & _).
  destruct (skip_elem_first c p) as (s & rest & _ & _ & ->); [by eapply Hns|done].
Qed.

(** The array [name] after an element is stored in it. *)
Lemma store_name (e name : list Z) :
  Forall (fun c => c <> 0) e -> length name = 14%nat ->
  let name' := if (Z.to_nat DIRSIZ <=? length e)%nat then take (Z.to_nat DIRSIZ) e
               else e ++ [0] ++ drop (length e + 1) name in
  length name' = 14%nat /\ fname name' = take 14 e.
Proof.
  intros He Hl. change (Z.to_nat DIRSIZ) with 14%nat.
  destruct (Nat.leb_spec 14 (length e)) as [Hge|Hlt]; cbv zeta; unfold fname.
  - assert (Hlen : length (take 14 e) = 14%nat) by (rewrite length_take; lia).
    split; [done|]. rewrite <- Hlen at 2. apply cprefix_full. by apply Forall_take.
  - split; [rewrite !length_app, length_drop; simpl; lia|]. by apply cprefix_nonzero.
Qed.

(** [skipelem] splits off the first element of a path: it returns null
    exactly for a path without elements, else it stores the element, cut to
    its first 14 characters, in the 14-byte array [name], and returns a path
    with the remaining elements. The result is the empty string exactly when
    none remain, and it is shorter than the path, so that the walk of [namex]
    ends. *)
Theorem skipelem_spec path name :
  Forall (fun c => c <> 0) path -> length name = 14%nat ->
  match elems [] path with
  | [] => skipelem path name = None
  | e :: es => exists path' name', skipelem path name = Some (path', name') /\
      elems [] path' = es /\ length name' = 14%nat /\ fname name' = take 14 e /\
      (path' = [] <-> es = []) /\ Forall (fun c => c <> 0) path' /\
      (length path' < length path)%nat
  end.
Proof.
  intros HF Hl. unfold skipelem. rewrite <- elems_skip.
  destruct (skip_slashes_spec path) as (Hlen & Hns & HF'). specialize (HF' HF).
  destruct (skip_slashes path) as [|c p]; [done|].
  destruct (skip_elem_first c p) as (s & rest & -> & Hp & ->); [by eapply Hns|].
  rewrite Hp in HF', Hlen. apply Forall_app in HF' as [HFe HFr].
  destruct (store_name (c :: s) name HFe Hl) as [Hn1 Hn2].
  destruct (skip_slashes_spec rest) as (Hrl & _ & HFr').
  eexists _, _. split; [reflexivity|]. rewrite elems_skip.
  rewrite length_app in Hlen. cbn [length] in Hlen.
  split_and!; auto using elems_nil; lia.
Qed.

Lemma skipelem_spec_witness :
  exists path' name', skipelem [47; 97; 47; 47; 98] (replicate 14 1) = Some (path', name') /\
    path' = [98] /\ fname name' = [97].
Proof.
  destruct (skipelem_spec [47; 97; 47; 47; 98] (replicate 14 1)
    ltac:(repeat constructor; done) eq_refl) as (p' & n' & E & _ & _ & Hf & _).
  exists p', n'. split; [exact E|]. split; [|exact Hf].
  vm_compute in E. by injection E as <- _.
Defined.

(** ** A directory with one entry, in block 7 *)

Definition demo_ent : list Z := mk_dirent 1 (97 :: replicate 13 0).
Definition demo_dirfs : list block :=
  take 7 demo_fs ++ [demo_ent ++ replicate 496 0].
Definition demo_dir : inode :=
  {| i_dev := ROOTDEV; inum := 1; ref := 1; i_lock := initsleeplock; valid := true;
     i_d := {| d_type := T_DIR; d_major := 0; d_minor := 0; d_nlink := 1; d_size := 16;
               d_addrs := 7 :: replicate 12 0 |} |}.

Lemma demo_dirfs_wf : wf_disk 2 3 demo_dirfs.
Proof.
  apply wf_empty; [lia|vm_compute; done|vm_compute; done| |vm_compute; done|
    vm_compute; done].
  repeat (apply Forall_cons; split; [vm_compute; reflexivity|]). apply Forall_nil_2.
Qed.

Lemma demo_dir_rep :
  exists (s : fsst logst) V, bk_rep (fs_b s) V /\ rroom V /\
    icache s !! 0%nat = Some demo_dir /\ wf_file V demo_dir /\
    dv V 7 = demo_ent ++ replicate 496 0.
Proof.
  destruct (reboot_view 2 3 demo_dirfs demo_dirfs_wf)
    as (b & V & HR & Hh & Hm & Hl & Ho & Hlo & Hn & Hc & Hv).
  change (Z.of_nat (length demo_dirfs)) with 8 in *.
  exists {| fs_b := b; fs_sb := demo_sb8; icache := [demo_dir]; fs_pid := 1 |}, V.
  split_and!; auto.
  - split; [|done]. rewrite Hl, Hh, size_empty. vm_compute. done.
  - split; try (vm_compute; done).
    intros k Hk Hlt. change (isize demo_dir) with 16 in Hlt. change BSIZE with 512 in Hlt.
    assert (k = 0) as -> by lia. change (blkaddr V (i_d demo_dir) 0) with 7.
    split; [lia|]. rewrite Hh. set_solver.
  - rewrite Hv by lia. vm_compute. reflexivity.
Qed.

Lemma demo_fread V :
  dv V 7 = demo_ent ++ replicate 496 0 -> fread V (i_d demo_dir) 0 16 = demo_ent.
Proof.
  intros Hv. unfold fread, fbyte. cbn [seq fmap list_fmap].
  repeat match goal with |- context [blkaddr V (i_d demo_dir) ?k] =>
    replace (blkaddr V (i_d demo_dir) k) with 7 by (vm_compute; done) end.
  rewrite Hv. vm_compute. reflexivity.
Qed.

Lemma readi_ok_demo :
  exists (s : fsst logst) s',
    readi (fun _ => {| dev_read := None; dev_write := None |}) 0 0 100 s =
    Ok ((16, demo_ent), s').
Proof.
  destruct demo_dir_rep as (s & V & HR & Hr & Hi & HF & Hv).
  pose proof (readi_ok (fun _ => {| dev_read := None; dev_write := None |}) s V 0
    demo_dir 0 100 HR Hr Hi HF ltac:(done) ltac:(done) ltac:(done)) as H.
  rewrite decide_True in H by (vm_compute; done). destruct H as (b & E & _).
  exists s, (set_b b s). rewrite E.
  change (rlen (isize demo_dir) 0 100) with 16. change (Z.to_nat 16) with 16%nat.
  by rewrite (demo_fread V Hv).
Defined.

Lemma dirlookup_spec_witness :
  exists (s : fsst logst) s',
    dirlookup (fun _ => {| dev_read := None; dev_write := None |}) 0 [97] s =
    Ok (Some (0%nat, 0), s').
Proof.
  destruct demo_dir_rep as (s & V & HR & Hr & Hi & HF & Hv). exists s.
  destruct (dirlookup_spec (fun _ => {| dev_read := None; dev_write := None |}) s V 0
    demo_dir [97] 1 HR Hr Hi HF eq_refl eq_refl) as (b & _ & E).
  cbn [seq find_idx] in E. unfold is_dent, dent in E. change (16 * Z.of_nat 0) with 0 in E.
  rewrite !(demo_fread V Hv) in E. change (negb _ && bool_decide _) with true in E.
  cbv iota in E. change (16 * Z.of_nat 0) with 0 in E. rewrite (demo_fread V Hv) in E.
  exists (set_icache (<[0%nat := set_ref 2 demo_dir]> (icache s)) (set_b b s)).
  change (de_inum demo_ent) with 1 in E. rewrite E. unfold iget. mrun. cbn [icache set_b].
  replace (find_idx _ (icache s)) with (Some 0%nat).
  - mrun. rewrite (bind_Ok _ _ _ _ _ (iupd_run (set_b b s) 0 _ demo_dir Hi)). done.
  - symmetry. apply find_idx_Some. exists demo_dir. split_and!; [exact Hi|reflexivity|].
    intros j y Hj. lia.
Defined.
