(* ===== verification/FsPath.v ===== *)
(** * Path lookup (fs.c: ilock, iunlockput, namex, namei, nameiparent)

    A path is resolved against the inodes and directories of the disk: the
    walk [walk] of the elements is the specification, and [namei] and
    [nameiparent] of the inode cache return the inode it leads to, with one
    reference more and every lock released. *)

From S2P Require Import Prelude Param Bytes Sleeplock Bio BioInv BioSpec Log LogInv LogCrash Blocks LogBlocks.
From S2P Require Import Fs FsBlocks FsFiles.

(** ** The disk's inodes and directories *)

(** Inode [n] on disk. *)
Definition dino (V : dview) (sb : superblock) (n : Z) : dinode :=
  get_dinode (Z.to_nat (n mod IPB)) (dv V (IBLOCK n sb)).

(** Entry [j] of a directory names [e], of which 14 characters count. *)
Definition names (V : dview) (d : dinode) (e : list Z) (j : nat) : bool :=
  negb (de_inum (dent V d j) =? 0) &&
  bool_decide (take 14 e = fname (de_name (dent V d j))).

(** The inode number that directory [n] has for the name [e]. *)
Definition entry_of (V : dview) (sb : superblock) (n : Z) (e : list Z) : option Z :=
  let d := dino V sb n in
  (fun j => de_inum (dent V d j)) <$>
    find_idx (names V d e) (seq 0 (Z.to_nat (d_size d / 16))).

(** The inode a list of path elements leads to from inode [n]; with [parent]
    the last element is not looked up. *)
Fixpoint walk (V : dview) (sb : superblock) (parent : bool) (n : Z)
  (es : list (list Z)) : option Z :=
  match es with
  | [] => if parent then None else Some n
  | e :: es =>
      if d_type (dino V sb n) =? T_DIR then
        if parent && bool_decide (es = []) then Some n
        else entry_of V sb n e ≫= fun m => walk V sb parent m es
      else None
  end.

(** An inode a path can lead to. *)
Record live (V : dview) (sb : superblock) (n : Z) : Prop := {
  lv_num : 0 <= n < sb_ninodes sb;
  lv_type : d_type (dino V sb n) <> 0;
  lv_link : d_nlink (dino V sb n) <> 0;
  lv_file : d_type (dino V sb n) = T_DIR -> forall ip,
    i_dev ip = ROOTDEV -> i_d ip = dino V sb n -> wf_file V ip;
  lv_size : d_type (dino V sb n) = T_DIR -> d_size (dino V sb n) mod 16 = 0
}.

(** The entries of the directories name inodes a path can lead to. *)
Definition wf_dirs (V : dview) (sb : superblock) : Prop :=
  forall n e m, live V sb n -> d_type (dino V sb n) = T_DIR ->
  entry_of V sb n e = Some m -> live V sb m.

(** ** The inode cache *)

(** The cache between operations: each entry in use is an inode of the disk,
    its copy agrees with the disk, and no inode is locked. *)
Record coherent (V : dview) (sb : superblock) (l : list inode) : Prop := {
  co_ok : icache_ok l;
  co_used : forall i x, l !! i = Some x -> 0 < ref x -> i_dev x = ROOTDEV;
  co_lock : forall i x, l !! i = Some x -> i_lock x = initsleeplock;
  co_valid : forall i x, l !! i = Some x -> 0 < ref x -> valid x = true ->
    i_d x = dino V sb (inum x)
}.

(** The number of free entries. *)
Definition nfree (l : list inode) : nat := length (filter (fun x => ref x = 0) l).

(** The references to inode [n] of the root device. *)
Definition rrefs (l : list inode) (n : Z) : Z := refs l ROOTDEV n.

Definition one_if (b : bool) : Z := if b then 1 else 0.

Lemma nfree_insert l i x y :
  l !! i = Some x ->
  Z.of_nat (nfree (<[i := y]> l)) =
  Z.of_nat (nfree l) - one_if (ref x =? 0) + one_if (ref y =? 0).
Proof.
  unfold nfree, one_if. revert i. induction l as [|z l IH]; intros [|i]; simpl; try done.
  - intros [= ->]. rewrite !filter_cons.
    destruct (Z.eqb_spec (ref x) 0), (Z.eqb_spec (ref y) 0);
      repeat case_decide; cbn [length]; lia.
  - intros Hi. specialize (IH i Hi). rewrite !filter_cons.
    destruct (decide (ref z = 0)); cbn [length]; lia.
Qed.

Lemma nfree_pos l : (0 < nfree l)%nat -> exists i x, l !! i = Some x /\ ref x = 0.
Proof.
  unfold nfree. intros H. destruct (filter _ l) as [|x r] eqn:E; [simpl in H; lia|].
  assert (Hx : x ∈ filter (fun x => ref x = 0) l) by (rewrite E; left).
  apply list_elem_of_filter in Hx as [Hr Hx]. apply list_elem_of_lookup in Hx as [i Hi].
  eauto.
Qed.

Section Cache.
Context (V : dview) (sb : superblock).

Lemma rrefs_at l i x :
  coherent V sb l -> l !! i = Some x -> 0 < ref x -> rrefs l (inum x) = ref x.
Proof.
  intros HC Hi Hr. apply (refs_at _ i); [apply HC|done|].
  apply is_entry_true. split_and!; auto. by apply (co_used _ _ _ HC i).
Qed.

(** Replacing an entry. *)
Lemma coherent_insert l i x y :
  coherent V sb l -> l !! i = Some x -> 0 <= ref y -> i_dev y = ROOTDEV ->
  i_lock y = initsleeplock -> (0 < ref y -> valid y = true -> i_d y = dino V sb (inum y)) ->
  (forall j z, l !! j = Some z -> j <> i -> is_entry ROOTDEV (inum y) z = false) ->
  coherent V sb (<[i := y]> l) /\
  forall n, rrefs (<[i := y]> l) n =
    if is_entry ROOTDEV n y then ref y
    else if is_entry ROOTDEV n x then 0 else rrefs l n.
Proof.
  intros HC Hi Hr Hd Hl Hv Hf.
  destruct (icache_insert l i x y (co_ok _ _ _ HC) Hi Hr) as [Hok Hrefs];
    [by rewrite Hd|].
  split; [|intros n; apply Hrefs]. split; [done|..]; intros j z Hj;
    (destruct (decide (j = i)) as [->|Hne];
     [rewrite list_lookup_insert_eq in Hj by (by eapply lookup_lt_Some);
      injection Hj as <-; auto
     |rewrite list_lookup_insert_ne in Hj by done; by eapply HC]).
Qed.

Lemma others_differ l i x :
  coherent V sb l -> l !! i = Some x -> 0 < ref x ->
  forall j z, l !! j = Some z -> j <> i -> is_entry ROOTDEV (inum x) z = false.
Proof.
  intros HC Hi Hr j z Hj Hne. apply not_true_iff_false. intros Hz. apply Hne.
  apply (ic_uniq _ (co_ok _ _ _ HC) j i ROOTDEV (inum x) z x); auto.
  apply is_entry_true. split_and!; auto. by apply (co_used _ _ _ HC i).
Qed.

(** A change of an entry in use that keeps its identity. *)
Lemma coherent_same l i x y :
  coherent V sb l -> l !! i = Some x -> 0 < ref x -> 0 <= ref y ->
  i_dev y = i_dev x -> inum y = inum x -> i_lock y = initsleeplock ->
  (valid y = true -> i_d y = dino V sb (inum y)) ->
  coherent V sb (<[i := y]> l) /\
  (forall n, rrefs (<[i := y]> l) n = if decide (n = inum x) then ref y else rrefs l n) /\
  Z.of_nat (nfree (<[i := y]> l)) = Z.of_nat (nfree l) + one_if (ref y =? 0).
Proof.
  intros HC Hi Hx Hy Hd Hn Hl Hv. pose proof (co_used _ _ _ HC i x Hi Hx) as Hdx.
  destruct (coherent_insert l i x y) as [HC' Hr]; auto; [by rewrite Hd| |].
  { rewrite Hn. by eapply others_differ. }
  split_and!; auto.
  - intros n. rewrite Hr, (is_entry_of ROOTDEV (inum x) x) by done.
    destruct (decide (n = inum x)) as [->|Hne].
    + rewrite bool_decide_true by done. unfold is_entry. rewrite Hd, Hn, Hdx, !Z.eqb_refl.
      destruct (Z.ltb_spec 0 (ref y)); simpl; lia.
    + rewrite bool_decide_false by tauto.
      destruct (is_entry ROOTDEV n y) eqn:E; [|done].
      apply is_entry_true in E as (_ & _ & E). congruence.
  - rewrite (nfree_insert _ _ x) by done. destruct (Z.eqb_spec (ref x) 0); simpl; lia.
Qed.

End Cache.

(** The entry after [iget] on a free slot. *)
Definition fresh (d n : Z) (x : inode) : inode :=
  {| i_dev := d; inum := n; ref := 1; i_lock := i_lock x; valid := false; i_d := i_d x |}.

(** The entry once its inode is read. *)
Definition loaded (d : dinode) (x : inode) : inode := set_valid true (set_d d x).

(** Entry [i] with its lock in state [lk]. *)
Definition with_lock (lk : sleeplock) (i : nat) (l : list inode) : list inode :=
  alter (set_ilock lk) i l.

Definition held (pid : Z) : sleeplock := {| sl_locked := true; sl_pid := pid |}.

Lemma with_lock_same l i x :
  l !! i = Some x -> i_lock x = initsleeplock -> with_lock initsleeplock i l = l.
Proof.
  intros Hi Hl. apply list_eq. intros j. unfold with_lock.
  destruct (decide (j = i)) as [->|]; [|by rewrite list_lookup_alter_ne].
  rewrite list_lookup_alter_eq, Hi. simpl. f_equal. destruct x. simpl in *. by subst.
Qed.

Lemma find_idx_alter {A} (P : A -> bool) (f : A -> A) (l : list A) i :
  (forall x, P (f x) = P x) -> find_idx P (alter f i l) = find_idx P l.
Proof.
  intros HP. revert i. induction l as [|x l IH]; intros [|i]; simpl; try done.
  - by rewrite HP.
  - destruct (P x); [done|]. by rewrite <- (IH i).
Qed.

Lemma alter_swap {A} (f g : A -> A) (i j : nat) (l : list A) :
  (forall x, f (g x) = g (f x)) -> alter f j (alter g i l) = alter g i (alter f j l).
Proof.
  intros Hfg. revert i j. induction l as [|x l IH]; intros [|i] [|j]; simpl; try done.
  - by rewrite Hfg.
  - f_equal. apply IH.
Qed.

Section Runs.
Context {S : Type} `{BS : BlockSpec S}.

Lemma iupd_again (s : fsst S) i f x l :
  icache s = <[i := x]> l -> (i < length l)%nat ->
  iupd i f s = Ok (tt, set_icache (<[i := f x]> l) s).
Proof.
  intros Hs Hi. rewrite (iupd_run s i f x).
  - by rewrite Hs, list_insert_insert_eq.
  - by rewrite Hs, list_lookup_insert_eq.
Qed.

(** [iget] does not look at the locks. *)
Lemma iget_locked (s : fsst S) d n lk i l j l' :
  iget d n (set_icache l s) = Ok (j, set_icache l' s) ->
  iget d n (set_icache (with_lock lk i l) s) = Ok (j, set_icache (with_lock lk i l') s).
Proof.
  unfold iget, iupd, with_lock. rewrite !bind_get. cbn [icache set_icache].
  rewrite !find_idx_alter by done.
  destruct (find_idx _ l) as [k|]; [|destruct (find_idx _ l) as [k|]; [|done]];
    rewrite !bind_modify; unfold ret; intros [= -> <-];
    unfold set_icache; cbn [icache fs_b fs_sb fs_pid]; do 3 f_equal; by apply alter_swap.
Qed.

(** [iget] on a coherent cache with a free entry. *)
Lemma iget_coherent V sb (s : fsst S) n l :
  coherent V sb l -> (0 < nfree l)%nat ->
  exists j l', iget ROOTDEV n (set_icache l s) = Ok (j, set_icache l' s) /\
    coherent V sb l' /\
    (exists y, l' !! j = Some y /\ inum y = n /\ 0 < ref y) /\
    (forall m, rrefs l' m = rrefs l m + one_if (bool_decide (m = n))) /\
    Z.of_nat (nfree l') = Z.of_nat (nfree l) - one_if (rrefs l n =? 0) /\
    (forall k x, l !! k = Some x -> 0 < ref x ->
       l' !! k = Some (set_ref (ref x + one_if (bool_decide (k = j))) x)).
Proof.
  intros HC Hf. unfold iget. rewrite bind_get. cbn [icache set_icache].
  fold (is_entry ROOTDEV n). destruct (find_idx (is_entry ROOTDEV n) l) as [j|] eqn:E.
  - apply find_idx_Some in E as (x & Hj & Hx & _).
    apply is_entry_true in Hx as (Hpos & Hd & <-).
    rewrite (bind_Ok _ _ _ _ _ (iupd_run (set_icache l s) j _ x Hj)). cbn [icache set_icache].
    pose proof (rrefs_at V sb l j x HC Hj Hpos) as Hrx.
    destruct (coherent_same V sb l j x (set_ref (ref x + 1) x)) as (HC' & Hr & Hnf); auto.
    { simpl. lia. }
    { exact (co_lock _ _ _ HC j x Hj). }
    { exact (co_valid _ _ _ HC j x Hj Hpos). }
    pose proof (lookup_lt_Some _ _ _ Hj) as Hlt.
    eexists j, _. split_and!; [done|done|..].
    + eexists. rewrite list_lookup_insert_eq by done. split_and!; [done..|simpl; lia].
    + intros m. rewrite Hr. unfold one_if. case_decide; case_bool_decide; simpl; subst; lia.
    + rewrite Hnf, Hrx. unfold one_if. cbn [ref set_ref].
      destruct (Z.eqb_spec (ref x + 1) 0), (Z.eqb_spec (ref x) 0); lia.
    + intros k z Hk Hz. case_bool_decide as Hkj; simpl.
      * subst k. rewrite list_lookup_insert_eq by done. congruence.
      * rewrite list_lookup_insert_ne by done. rewrite Hk, Z.add_0_r. by destruct z.
  - assert (Hr0 : rrefs l n = 0) by (unfold rrefs, refs; by rewrite E).
    rewrite find_idx_None in E.
    destruct (find_idx (fun ip => ref ip =? 0) l) as [j|] eqn:E2.
    2: { exfalso. rewrite find_idx_None in E2. apply nfree_pos in Hf as (i & x & Hi & Hx).
         specialize (E2 i x Hi). by rewrite Hx in E2. }
    apply find_idx_Some in E2 as (x & Hj & Hx%Z.eqb_eq & _).
    rewrite (bind_Ok _ _ _ _ _ (iupd_run (set_icache l s) j _ x Hj)). cbn [icache set_icache].
    pose proof (lookup_lt_Some _ _ _ Hj) as Hlt.
    destruct (coherent_insert V sb l j x (fresh ROOTDEV n x)) as [HC' Hr]; auto; try done.
    { exact (co_lock _ _ _ HC j x Hj). }
    { intros k z Hk _. by apply (E k). }
    eexists j, _. split_and!; [done|done|..].
    + eexists. rewrite list_lookup_insert_eq by done. split_and!; [done..|simpl; lia].
    + intros m. unfold rrefs in *. fold (fresh ROOTDEV n x).
      rewrite Hr, (is_entry_of ROOTDEV n (fresh ROOTDEV n x)) by done.
      destruct (decide (m = n)) as [->|Hne].
      * rewrite Hr0, !bool_decide_true by done. done.
      * rewrite !bool_decide_false by tauto. unfold is_entry at 1. rewrite Hx. cbn. lia.
    + rewrite (nfree_insert _ _ x), Hr0 by done. cbn [ref]. rewrite Hx. cbn. lia.
    + intros k z Hk Hz. assert (k <> j) by (intros ->; rewrite Hj in Hk; injection Hk as ->; lia).
      rewrite bool_decide_false, list_lookup_insert_ne by done.
      simpl. rewrite Hk, Z.add_0_r. by destruct z.
Qed.

(** [ilock] loads the inode and locks it. *)
Lemma ilock_run V sb (s : fsst S) i x :
  fs_sb s = sb -> bk_rep (fs_b s) V -> rroom V -> dv_held V = ∅ -> wf_sb sb V ->
  coherent V sb (icache s) -> icache s !! i = Some x -> 0 < ref x -> live V sb (inum x) ->
  exists b, bk_rep b V /\ ilock i s = Ok (tt, set_b b (set_icache
    (with_lock (held (fs_pid s)) i
       (<[i := loaded (dino V sb (inum x)) x]> (icache s))) s)).
Proof.
  intros Hsb HR Hr Hh HW HC Hi Hx HL. pose proof (lookup_lt_Some _ _ _ Hi) as Hlt.
  assert (Hip : iat s i = x) by (by apply list_lookup_total_correct).
  unfold ilock, lock_inode. mrun. rewrite Hip. destruct (Z.ltb_spec (ref x) 1); [lia|].
  rewrite bind_bind, bind_get, Hip, (co_lock _ _ _ HC i x Hi). cbn [acquiresleep sl_locked initsleeplock].
  fold (held (fs_pid s)). rewrite (bind_Ok _ _ _ _ _ (iupd_run s i _ x Hi)). mrun.
  set (x1 := set_ilock (held (fs_pid s)) x).
  assert (Hat : iat (set_icache (<[i := x1]> (icache s)) s) i = x1)
    by (by apply list_lookup_total_insert_eq).
  rewrite Hat. assert (Hw : forall z, with_lock (held (fs_pid s)) i (<[i := z]> (icache s)) =
                         <[i := set_ilock (held (fs_pid s)) z]> (icache s)).
  { intros z. unfold with_lock. apply list_eq. intros k. destruct (decide (k = i)) as [->|].
    - by rewrite list_lookup_alter_eq, !list_lookup_insert_eq.
    - by rewrite list_lookup_alter_ne, !list_lookup_insert_ne. }
  rewrite Hw. cbn [valid x1 set_ilock]. destruct (valid x) eqn:Hv.
  - exists (fs_b s). split; [done|]. rewrite <- (co_valid _ _ _ HC i x Hi Hx Hv).
    replace (set_ilock _ (loaded (i_d x) x)) with x1; [by destruct s|].
    unfold x1. destruct x. cbn in *. by subst.
  - destruct (IBLOCK_range sb V (inum x) HW (lv_num _ _ _ HL)) as [Hlo Hhi].
    pose proof (ws_lo _ _ HW) as Hlo0.
    destruct (read_block (fs_b s) V (IBLOCK (inum x) sb) HR Hr ltac:(lia))
      as (bp & b1 & b2 & E1 & E2 & E3 & HR'); [rewrite Hh; set_solver|].
    exists b2. split; [done|]. cbn [fs_sb set_icache].
    change (i_dev x1) with (i_dev x). change (inum x1) with (inum x).
    rewrite (co_used _ _ _ HC i x Hi Hx), Hsb.
    mrun (dio_Ok _ (set_icache (<[i := x1]> (icache s)) s) _ _ E1).
    mrun (bufd_run (set_b b1 (set_icache (<[i := x1]> (icache s)) s)) bp).
    cbn [fs_b set_b]. rewrite E2. fold (dino V sb (inum x)).
    erewrite bind_Ok by (by apply (iupd_again _ i _ x1 (icache s))).
    erewrite bind_Ok by (apply (dio_Ok (brelse bp) _ tt b2), E3).
    erewrite bind_Ok by (by apply (iupd_again _ i _ (set_d (dino V sb (inum x)) x1) (icache s))).
    rewrite bind_get. unfold iat. cbn [icache set_icache set_b]. rewrite list_lookup_total_insert_eq by done.
    unfold itype. cbn [i_d set_valid set_d].
    destruct (Z.eqb_spec (d_type (dino V sb (inum x))) 0) as [Ht|_]; [by destruct (lv_type _ _ _ HL)|].
    by destruct s.
Qed.

(** [iunlockput] on a locked inode that has a link: the lock is released and
    the reference dropped. *)
Lemma iunlockput_run V sb (s : fsst S) i l z :
  coherent V sb l -> l !! i = Some z -> 0 < ref z -> valid z = true ->
  d_nlink (i_d z) <> 0 -> icache s = with_lock (held (fs_pid s)) i l ->
  iunlockput i s = Ok (tt, set_icache (<[i := set_ref (ref z - 1) z]> l) s).
Proof.
  intros HC Hi Hr Hv Hn Hs. pose proof (lookup_lt_Some _ _ _ Hi) as Hlt.
  set (z1 := set_ilock (held (fs_pid s)) z).
  assert (Hz1 : icache s !! i = Some z1)
    by (rewrite Hs; unfold with_lock; by rewrite list_lookup_alter_eq, Hi).
  assert (Hsl : forall y, <[i := y]> (icache s) = <[i := y]> l).
  { intros y. rewrite Hs. unfold with_lock. apply list_eq. intros k.
    destruct (decide (k = i)) as [->|].
    - rewrite !list_lookup_insert_eq; [done..|]. by rewrite length_alter.
    - by rewrite !list_lookup_insert_ne, list_lookup_alter_ne. }
  pose proof (co_lock _ _ _ HC i z Hi) as Hlk.
  unfold iunlockput, iunlock, unlock_inode, iput, lock_inode.
  rewrite bind_bind, bind_get. unfold iat at 1 2. rewrite (list_lookup_total_correct _ _ _ Hz1).
  unfold holdingsleep. cbn [i_lock z1 set_ilock ref held sl_locked sl_pid].
  rewrite Z.eqb_refl. destruct (Z.ltb_spec (ref z) 1); [lia|]. cbn [negb orb andb].
  rewrite (bind_Ok _ _ _ _ _ (iupd_run s i _ z1 Hz1)), Hsl.
  rewrite bind_bind, bind_get. unfold iat at 1. cbn [icache set_icache].
  rewrite list_lookup_total_insert_eq by done. cbn [i_lock set_ilock releasesleep acquiresleep sl_locked].
  erewrite bind_Ok by (by eapply (iupd_again _ i _ _ l)). rewrite bind_get. unfold iat. cbn [icache set_icache].
  rewrite list_lookup_total_insert_eq by done. cbn [valid i_d ref set_ilock z1].
  rewrite Hv. destruct (Z.eqb_spec (d_nlink (i_d z)) 0); [done|]. cbn [andb]. rewrite bind_ret.
  erewrite bind_Ok by (by eapply (iupd_again _ i _ _ l)).
  erewrite (iupd_again _ i _ _ l) by done.
  unfold set_icache. cbn [fs_b fs_sb fs_pid]. do 4 f_equal. destruct z. cbn in *. by subst.
Qed.

(** [iput] on an unlocked inode that has a link, and [iunlock]. *)
Lemma iput_run V sb (s : fsst S) i z :
  coherent V sb (icache s) -> icache s !! i = Some z -> 0 < ref z -> live V sb (inum z) ->
  iput i s = Ok (tt, set_icache (<[i := set_ref (ref z - 1) z]> (icache s)) s).
Proof.
  intros HC Hi Hr HL. pose proof (lookup_lt_Some _ _ _ Hi) as Hlt.
  pose proof (co_lock _ _ _ HC i z Hi) as Hlk.
  unfold iput, lock_inode, unlock_inode. rewrite bind_bind, bind_get. unfold iat at 1.
  rewrite (list_lookup_total_correct _ _ _ Hi), Hlk. cbn [initsleeplock acquiresleep sl_locked].
  erewrite bind_Ok by (by apply iupd_run). rewrite bind_get. unfold iat. cbn [icache set_icache].
  rewrite list_lookup_total_insert_eq by done. cbn [valid i_d ref set_ilock].
  replace (valid z && (d_nlink (i_d z) =? 0)) with false.
  2: { destruct (valid z) eqn:Hv; [|done]. rewrite (co_valid _ _ _ HC i z Hi Hr Hv).
       symmetry. apply Z.eqb_neq, HL. }
  cbn [andb]. rewrite bind_ret.
  erewrite bind_Ok by (by eapply (iupd_again _ i _ _ (icache s))).
  erewrite (iupd_again _ i _ _ (icache s)) by done.
  unfold set_icache. cbn [fs_b fs_sb fs_pid]. do 4 f_equal. destruct z. cbn in *. by subst.
Qed.

Lemma iunlock_run V sb (s : fsst S) i l z :
  coherent V sb l -> l !! i = Some z -> 0 < ref z ->
  icache s = with_lock (held (fs_pid s)) i l ->
  iunlock i s = Ok (tt, set_icache l s).
Proof.
  intros HC Hi Hr Hs. pose proof (lookup_lt_Some _ _ _ Hi) as Hlt.
  set (z1 := set_ilock (held (fs_pid s)) z).
  assert (Hz1 : icache s !! i = Some z1)
    by (rewrite Hs; unfold with_lock; by rewrite list_lookup_alter_eq, Hi).
  pose proof (co_lock _ _ _ HC i z Hi) as Hlk.
  unfold iunlock, unlock_inode. rewrite bind_get. unfold iat at 1 2.
  rewrite (list_lookup_total_correct _ _ _ Hz1).
  unfold holdingsleep. cbn [i_lock z1 set_ilock ref held sl_locked sl_pid].
  rewrite Z.eqb_refl. destruct (Z.ltb_spec (ref z) 1); [lia|]. cbn [negb orb andb].
  rewrite (iupd_run s i _ z1 Hz1), Hs. do 3 f_equal. apply list_eq. intros k.
  unfold with_lock. destruct (decide (k = i)) as [->|].
  - rewrite list_lookup_insert_eq by (by rewrite length_alter). rewrite Hi. f_equal.
    destruct z. cbn in *. by subst.
  - by rewrite list_lookup_insert_ne, list_lookup_alter_ne.
Qed.

End Runs.

(** ** One step of the walk, on the cache *)

(** Cache [l] is [l0] with one more reference, to inode [n], at entry [i]. *)
Record at_inode (V : dview) (sb : superblock) (l0 l : list inode) (i : nat) (n : Z) : Prop := {
  at_ok : coherent V sb l;
  at_x : exists x, l !! i = Some x /\ inum x = n /\ 0 < ref x;
  at_live : live V sb n;
  at_refs : forall m, rrefs l m = rrefs l0 m + one_if (bool_decide (m = n));
  at_free : Z.of_nat (nfree l) = Z.of_nat (nfree l0) - one_if (rrefs l0 n =? 0)
}.

(** The references to every inode are as in [l0]. *)
Record same_refs (V : dview) (sb : superblock) (l0 l : list inode) : Prop := {
  sr_ok : coherent V sb l;
  sr_refs : forall m, rrefs l m = rrefs l0 m;
  sr_free : nfree l = nfree l0
}.

Section Steps.
Context (V : dview) (sb : superblock) (l0 : list inode).
Hypothesis H0 : icache_ok l0.

Lemma rrefs_nonneg n : 0 <= rrefs l0 n.
Proof.
  unfold rrefs, refs. destruct (find_idx _ l0) as [i|] eqn:E; [|done].
  apply find_idx_Some in E as (x & Hx & _). rewrite (list_lookup_total_correct _ _ _ Hx).
  by apply (ic_ref _ H0 i).
Qed.

Lemma at_loaded l i n x :
  at_inode V sb l0 l i n -> l !! i = Some x -> inum x = n -> 0 < ref x ->
  at_inode V sb l0 (<[i := loaded (dino V sb n) x]> l) i n.
Proof.
  intros [HC _ HL Hr Hf] Hi Hn Hx.
  destruct (coherent_same V sb l i x (loaded (dino V sb n) x)) as (HC' & Hr' & Hf');
    auto; [by apply Z.lt_le_incl|exact (co_lock _ _ _ HC i x Hi)|simpl; congruence|].
  pose proof (rrefs_at V sb l i x HC Hi Hx) as Hrx.
  split; auto.
  - exists (loaded (dino V sb n) x). rewrite list_lookup_insert_eq by (by eapply lookup_lt_Some).
    done.
  - intros m. rewrite Hr'. case_decide as Hm; [|apply Hr]. subst m. rewrite <- Hr, Hrx. done.
  - rewrite Hf', Hf. cbn [ref loaded set_valid set_d].
    destruct (Z.eqb_spec (ref x) 0); [lia|]. cbn. lia.
Qed.

Lemma at_dropped l i n x :
  at_inode V sb l0 l i n -> l !! i = Some x -> inum x = n -> 0 < ref x ->
  same_refs V sb l0 (<[i := set_ref (ref x - 1) x]> l).
Proof.
  intros [HC _ HL Hr Hf] Hi Hn Hx.
  destruct (coherent_same V sb l i x (set_ref (ref x - 1) x)) as (HC' & Hr' & Hf');
    auto; [simpl; lia|exact (co_lock _ _ _ HC i x Hi)|exact (co_valid _ _ _ HC i x Hi Hx)|].
  pose proof (rrefs_at V sb l i x HC Hi Hx) as Hrx. pose proof (Hr n) as Hrn.
  rewrite bool_decide_true in Hrn by done. rewrite Hn in Hrx. cbn in Hrn.
  split; auto.
  - intros m. rewrite Hr'. case_decide as Hm; [subst m; rewrite Hn; simpl; lia|].
    rewrite Hr, bool_decide_false by congruence. simpl. lia.
  - cbn [ref set_ref] in Hf'. unfold one_if in *.
    destruct (Z.eqb_spec (ref x - 1) 0), (Z.eqb_spec (rrefs l0 n) 0); lia.
Qed.

(** [iget] of the next inode, then the drop of the current one. *)
Lemma at_next l i n x j m l' :
  at_inode V sb l0 l i n -> l !! i = Some x -> inum x = n -> 0 < ref x -> live V sb m ->
  coherent V sb l' ->
  (exists y, l' !! j = Some y /\ inum y = m /\ 0 < ref y) ->
  (forall k, rrefs l' k = rrefs l k + one_if (bool_decide (k = m))) ->
  Z.of_nat (nfree l') = Z.of_nat (nfree l) - one_if (rrefs l m =? 0) ->
  l' !! i = Some (set_ref (ref x + one_if (bool_decide (i = j))) x) ->
  at_inode V sb l0 (<[i := set_ref (ref x + one_if (bool_decide (i = j)) - 1) x]> l') j m.
Proof.
  intros [HC _ HL Hr Hf] Hi Hn Hx HLm HC1 (y & Hj & Hyn & Hy) Hr1 Hf1 Hi1.
  set (z := set_ref (ref x + one_if (bool_decide (i = j))) x) in *.
  assert (Hz : 0 < ref z) by (unfold z, one_if; case_bool_decide; cbn; lia).
  destruct (coherent_same V sb l' i z (set_ref (ref z - 1) z)) as (HC2 & Hr2 & Hf2);
    auto; [change (0 <= ref z - 1); lia|exact (co_lock _ _ _ HC1 i z Hi1)|exact (co_valid _ _ _ HC1 i z Hi1 Hz)|].
  pose proof (rrefs_at V sb l' i z HC1 Hi1 Hz) as Hrz.
  change (inum z) with (inum x) in *. rewrite Hn in *.
  pose proof (rrefs_nonneg n) as Hp. pose proof (rrefs_nonneg m) as Hq.
  change (set_ref (ref x + one_if (bool_decide (i = j)) - 1) x) with (set_ref (ref z - 1) z).
  pose proof (Hr n) as Hrn. pose proof (Hr m) as Hrm. pose proof (Hr1 n) as Hrn1.
  rewrite bool_decide_true in Hrn by done. cbn in Hrn.
  split; auto.
  - destruct (decide (i = j)) as [<-|Hij].
    + exists (set_ref (ref z - 1) z).
      rewrite list_lookup_insert_eq by (by eapply lookup_lt_Some).
      rewrite Hi1 in Hj. injection Hj as <-. split_and!; [done|exact Hyn|].
      unfold z. rewrite bool_decide_true by done. cbn. lia.
    + exists y. rewrite list_lookup_insert_ne by congruence. done.
  - intros k. rewrite Hr2. cbn [ref set_ref]. unfold one_if in *.
    destruct (decide (k = n)) as [->|Hk]; [|rewrite Hr1, Hr];
      repeat case_bool_decide; try congruence; lia.
  - rewrite Hf2, Hf1, Hf. cbn [ref set_ref]. unfold one_if in *.
    destruct (decide (m = n)) as [->|Hmn].
    + rewrite bool_decide_true in * by done.
      destruct (Z.eqb_spec (rrefs l n) 0), (Z.eqb_spec (ref z - 1) 0),
        (Z.eqb_spec (rrefs l0 n) 0); lia.
    + rewrite bool_decide_false in Hrm, Hrn1 by congruence.
      destruct (Z.eqb_spec (rrefs l m) 0), (Z.eqb_spec (ref z - 1) 0),
        (Z.eqb_spec (rrefs l0 n) 0), (Z.eqb_spec (rrefs l0 m) 0); lia.
Qed.

End Steps.

(** ** The walk *)

Lemma find_idx_same {A} (f g : A -> bool) (l : list A) :
  (forall x, f x = g x) -> find_idx f l = find_idx g l.
Proof. intros H. induction l as [|x l IH]; simpl; [done|]. by rewrite H, IH. Qed.

Section Walk.
Context {S : Type} `{BS : BlockSpec S}.
Variable devsw : Z -> device S.
Context (V : dview) (sb : superblock).
Hypothesis Hroom : rroom V.
Hypothesis Hheld : dv_held V = ∅.
Hypothesis Hsb : wf_sb sb V.
Hypothesis Hdirs : wf_dirs V sb.

(** A file system whose disk is [V]. *)
Record mounted (s : fsst S) : Prop := {
  mo_sb : fs_sb s = sb;
  mo_rep : bk_rep (fs_b s) V
}.

(** [dirlookup] on a locked directory, with its name in the array. *)
Lemma lookup_entry (s : fsst S) i n x l e name :
  mounted s -> live V sb n -> d_type (dino V sb n) = T_DIR ->
  l !! i = Some x -> i_dev x = ROOTDEV -> inum x = n -> i_d x = dino V sb n ->
  icache s = with_lock (held (fs_pid s)) i l -> fname name = take 14 e ->
  exists b, bk_rep b V /\
    match entry_of V sb n e with
    | Some m => exists off, dirlookup devsw i name s =
        (let! j := iget ROOTDEV m in ret (Some (j, off))) (set_b b s)
    | None => dirlookup devsw i name s = Ok (None, set_b b s)
    end.
Proof.
  intros HM HL Ht Hi Hd Hn Hx Hs Hname.
  set (x1 := set_ilock (held (fs_pid s)) x).
  assert (Hi1 : icache s !! i = Some x1)
    by (rewrite Hs; unfold with_lock; by rewrite list_lookup_alter_eq, Hi).
  pose proof (lv_file _ _ _ HL Ht x1 Hd Hx) as HF.
  pose proof (wfi_size V x1 HF) as Hsz. change (isize x1) with (d_size (i_d x)) in Hsz.
  rewrite Hx in Hsz. pose proof (lv_size _ _ _ HL Ht) as Hmod.
  pose proof (Z.div_pos (d_size (dino V sb n)) 16 ltac:(lia) ltac:(lia)) as Hpos.
  pose proof (Z.div_mod (d_size (dino V sb n)) 16 ltac:(lia)) as Hdm.
  destruct (dirlookup_ok devsw s V i x1 name (Z.to_nat (d_size (dino V sb n) / 16))
    (mo_rep s HM) Hroom Hi1 HF) as (b & HRb & E).
  { unfold itype. cbn [i_d x1 set_ilock]. by rewrite Hx. }
  { unfold isize. cbn [i_d x1 set_ilock]. rewrite Hx. lia. }
  exists b. split; [done|]. change (i_d x1) with (i_d x) in E. rewrite Hx in E.
  rewrite (find_idx_same _ (names V (dino V sb n) e)) in E
    by (intros j; unfold is_dent, names; by rewrite Hname).
  unfold entry_of. destruct (find_idx _ _) as [j|]; simpl; eauto.
Qed.

(** The cache while the walk has inode [n] open at entry [i]; the lock of the
    entry is added to [l]. *)
Record inside (l0 l : list inode) (i : nat) (n : Z) (x : inode) : Prop := {
  in_at : at_inode V sb l0 l i n;
  in_x : l !! i = Some x;
  in_num : inum x = n;
  in_ref : 0 < ref x;
  in_dev : i_dev x = ROOTDEV;
  in_valid : valid x = true;
  in_d : i_d x = dino V sb n
}.

Lemma enter l0 (s : fsst S) i n :
  mounted s -> at_inode V sb l0 (icache s) i n ->
  exists b x l, bk_rep b V /\ inside l0 l i n x /\
    ilock i s = Ok (tt, set_b b (set_icache (with_lock (held (fs_pid s)) i l) s)).
Proof.
  intros [Hs HR] HA. destruct (at_x _ _ _ _ _ _ HA) as (x & Hx & Hn & Hr).
  pose proof (at_ok _ _ _ _ _ _ HA) as HC. pose proof (at_live _ _ _ _ _ _ HA) as HL.
  destruct (ilock_run V sb s i x) as (b & HRb & E); auto; [by rewrite Hn|].
  exists b, (loaded (dino V sb n) x), (<[i := loaded (dino V sb n) x]> (icache s)).
  rewrite Hn in E. split_and!; auto. split; try done.
  - by apply at_loaded.
  - apply list_lookup_insert_eq. by eapply lookup_lt_Some.
  - exact (co_used _ _ _ HC i x Hx Hr).
Qed.

Lemma leave l0 l (s : fsst S) i n x :
  inside l0 l i n x -> icache s = with_lock (held (fs_pid s)) i l ->
  exists l', iunlockput i s = Ok (tt, set_icache l' s) /\ same_refs V sb l0 l'.
Proof.
  intros [HA Hx Hn Hr Hd Hv Hi] Hs. eexists. split.
  - apply (iunlockput_run V sb s i l x); auto; [apply HA|]. rewrite Hi. apply HA.
  - by apply (at_dropped V sb l0 l i n x).
Qed.

Lemma step_in l0 l (s : fsst S) i n x m :
  icache_ok l0 -> (2 <= nfree l0)%nat ->
  inside l0 l i n x -> icache s = with_lock (held (fs_pid s)) i l -> live V sb m ->
  exists j l1 l2, iget ROOTDEV m s = Ok (j, set_icache l1 s) /\
    iunlockput i (set_icache l1 s) = Ok (tt, set_icache l2 s) /\ at_inode V sb l0 l2 j m.
Proof.
  intros H0 H2 [HA Hx Hn Hr Hd Hv Hi] Hs HL.
  pose proof (at_ok _ _ _ _ _ _ HA) as HC.
  assert (Hf : (0 < nfree l)%nat).
  { pose proof (at_free _ _ _ _ _ _ HA) as Hf. unfold one_if in Hf.
    destruct (rrefs l0 n =? 0); lia. }
  destruct (iget_coherent V sb s m l HC Hf) as (j & l1 & E & HC1 & Hj & Hr1 & Hf1 & Hk).
  specialize (Hk i x Hx Hr). set (z := set_ref _ x) in Hk.
  assert (Hz : 0 < ref z) by (unfold z, one_if; case_bool_decide; cbn; lia).
  exists j, (with_lock (held (fs_pid s)) i l1), (<[i := set_ref (ref z - 1) z]> l1). split_and!.
  - replace s with (set_icache (with_lock (held (fs_pid s)) i l) s) at 1
      by (rewrite <- Hs; by destruct s).
    by apply iget_locked.
  - erewrite (iunlockput_run V sb _ i l1 z); [done|done|done|done|done| |done].
    change (i_d z) with (i_d x). rewrite Hi. apply HA.
  - by apply (at_next V sb l0 H0 l i n x).
Qed.

(** What a walk leaves in the cache. *)
Definition walked (l0 l : list inode) (r : option nat) (m : option Z) : Prop :=
  match r, m with
  | Some i, Some n => at_inode V sb l0 l i n
  | None, None => same_refs V sb l0 l
  | _, _ => False
  end.

Lemma walk_end l0 parent fuel (s : fsst S) path name i n :
  skipelem path name = None -> mounted s -> at_inode V sb l0 (icache s) i n ->
  exists r name' b l, bk_rep b V /\ walked l0 l r (walk V sb parent n []) /\
    namex_loop devsw fuel path parent name i s = Ok ((r, name'), set_b b (set_icache l s)) /\
    (parent = true -> is_Some r -> fname name' = take 14 (List.last ([] : list (list Z)) [])).
Proof.
  intros Hk [Hs HR] HA. exists (if parent then None else Some i), name, (fs_b s).
  destruct (at_x _ _ _ _ _ _ HA) as (x & Hx & Hn & Hr).
  destruct fuel; cbn [namex_loop]; rewrite Hk; (destruct parent;
    [eexists; split_and!; [done|by apply (at_dropped V sb l0 (icache s) i n x)| |by intros ? [? ?]];
     erewrite bind_Ok by (apply (iput_run V sb s i x); auto; [apply HA|rewrite Hn; apply HA]);
     by destruct s
    |exists (icache s); split_and!; [done|exact HA|by destruct s|done]]).
Qed.

Lemma namex_loop_ok l0 parent fuel (s : fsst S) path name i n :
  icache_ok l0 -> (2 <= nfree l0)%nat -> mounted s -> at_inode V sb l0 (icache s) i n ->
  Forall (fun c => c <> 0) path -> length name = 14%nat -> (length path <= fuel)%nat ->
  exists r name' b l, bk_rep b V /\ walked l0 l r (walk V sb parent n (elems [] path)) /\
    namex_loop devsw fuel path parent name i s = Ok ((r, name'), set_b b (set_icache l s)) /\
    (parent = true -> is_Some r -> fname name' = take 14 (List.last (elems [] path) [])).
Proof.
  intros H0 H2. revert s path name i n. induction fuel as [|fuel IH];
    intros s path name i n HM HA HP Hname Hf; pose proof (skipelem_spec path name HP Hname) as Hk;
    (destruct (elems [] path) as [|e es] eqn:Hes; [by apply walk_end|]);
    destruct Hk as (path' & name' & Hsk & Hes' & Hl' & Hn' & Hnil & HP' & Hlt); [lia|].
  cbn [namex_loop]. rewrite Hsk.
  destruct (enter l0 s i n HM HA) as (b & x & l & HRb & HI & E). mrun E. mrun.
  set (s1 := set_b b _).
  assert (HM1 : mounted s1) by (split; [exact (mo_sb s HM)|done]).
  assert (Hat : iat s1 i = set_ilock (held (fs_pid s)) x).
  { apply list_lookup_total_correct. cbn [s1 icache set_b set_icache]. unfold with_lock.
    by rewrite list_lookup_alter_eq, (in_x _ _ _ _ _ HI). }
  rewrite Hat. unfold itype. cbn [i_d set_ilock]. rewrite (in_d _ _ _ _ _ HI).
  cbn [walk]. destruct (Z.eqb_spec (d_type (dino V sb n)) T_DIR) as [Ht|Ht]; cbn [negb].
  2: { destruct (leave l0 l s1 i n x HI eq_refl) as (l' & E' & HS). mrun E'.
       exists None, name', b, l'. by split_and!. }
  replace (bool_decide (path' = [])) with (bool_decide (es = [])).
  2: { apply bool_decide_ext. by symmetry. }
  destruct (parent && bool_decide (es = [])) eqn:Hp.
  { apply andb_true_iff in Hp as [-> Hp%bool_decide_eq_true].
    pose proof (at_ok _ _ _ _ _ _ (in_at _ _ _ _ _ HI)) as HC.
    pose proof (iunlock_run V sb s1 i l x HC (in_x _ _ _ _ _ HI) (in_ref _ _ _ _ _ HI) eq_refl) as E'.
    mrun E'. exists (Some i), name', b, l. split_and!; [done|exact (in_at _ _ _ _ _ HI)|done|]. intros _ _. by rewrite Hp. }
  destruct (lookup_entry s1 i n x l e name' HM1 (at_live _ _ _ _ _ _ HA) Ht
    (in_x _ _ _ _ _ HI) (in_dev _ _ _ _ _ HI) (in_num _ _ _ _ _ HI) (in_d _ _ _ _ _ HI)
    eq_refl Hn') as (b2 & HRb2 & Hlook).
  destruct (entry_of V sb n e) as [m|] eqn:Hm; cbn [mbind option_bind].
  - destruct Hlook as (off & Elook).
    assert (HLm : live V sb m) by (by apply (Hdirs n e m); [apply HA|..]).
    destruct (step_in l0 l (set_b b2 s1) i n x m H0 H2 HI eq_refl HLm)
      as (j & l1 & l2 & Eg & Eu & HA2).
    erewrite bind_Ok by (rewrite Elook; erewrite bind_Ok by exact Eg; reflexivity).
    cbv beta iota. mrun Eu.
    destruct (IH (set_icache l2 (set_b b2 s1)) path' name' j m) as (r & nm & b3 & l3 & HR3 & HW3 & E3 & Hlast);
      auto; [by split; [exact (mo_sb s HM)|]|lia|].
    exists r, nm, b3, l3. rewrite Hes' in HW3, Hlast. split_and!; auto.
    intros Hpar Hr. rewrite Hlast by done. destruct es; [|done].
    rewrite Hpar in Hp. done.
  - mrun Hlook. destruct (leave l0 l (set_b b2 s1) i n x HI eq_refl) as (l' & E' & HS). mrun E'.
    exists None, name', b2, l'. by split_and!.
Qed.

(** Where a path starts: at the root, or at the current directory. *)
Definition start (l : list inode) (cwd : nat) (path : list Z) : Z :=
  match path with
  | c :: _ => if c =? SLASH then ROOTINO else inum (l !!! cwd)
  | [] => inum (l !!! cwd)
  end.

(** The root exists, and the process holds its current directory. *)
Record has_cwd (l : list inode) (cwd : nat) : Prop := {
  hc_root : live V sb ROOTINO;
  hc_cwd : exists x, l !! cwd = Some x /\ 0 < ref x /\ live V sb (inum x)
}.

Lemma dup_cwd (s : fsst S) cwd :
  coherent V sb (icache s) -> has_cwd (icache s) cwd ->
  exists l, idup cwd s = Ok (cwd, set_icache l s) /\
    at_inode V sb (icache s) l cwd (inum (icache s !!! cwd)).
Proof.
  intros HC [_ (x & Hx & Hr & HL)]. rewrite (list_lookup_total_correct _ _ _ Hx).
  destruct (coherent_same V sb (icache s) cwd x (set_ref (ref x + 1) x)) as (HC' & Hr' & Hf');
    auto; [simpl; lia|exact (co_lock _ _ _ HC cwd x Hx)|exact (co_valid _ _ _ HC cwd x Hx Hr)|].
  pose proof (rrefs_at V sb _ cwd x HC Hx Hr) as Hrx.
  exists (<[cwd := set_ref (ref x + 1) x]> (icache s)). split.
  { unfold idup. by erewrite bind_Ok by (by apply iupd_run). }
  split; auto.
  - eexists. rewrite list_lookup_insert_eq by (by eapply lookup_lt_Some).
    split_and!; [done..|simpl; lia].
  - intros m. rewrite Hr'. destruct (decide (m = inum x)) as [->|].
    + rewrite bool_decide_true by done. cbn. lia.
    + rewrite bool_decide_false by done. cbn. lia.
  - rewrite Hf', Hrx. cbn [ref set_ref]. unfold one_if.
    destruct (Z.eqb_spec (ref x + 1) 0), (Z.eqb_spec (ref x) 0); lia.
Qed.

Lemma namex_ok parent (s : fsst S) cwd path name :
  mounted s -> coherent V sb (icache s) -> (2 <= nfree (icache s))%nat ->
  has_cwd (icache s) cwd -> Forall (fun c => c <> 0) path -> length name = 14%nat ->
  exists r name' b l, namex devsw cwd path parent name s =
      Ok ((r, name'), set_b b (set_icache l s)) /\ bk_rep b V /\
    walked (icache s) l r (walk V sb parent (start (icache s) cwd path) (elems [] path)) /\
    (parent = true -> is_Some r -> fname name' = take 14 (List.last (elems [] path) [])).
Proof.
  intros HM HC H2 Hc HP Hname.
  assert (Hst : exists i l, (match path with
      | c :: _ => if c =? SLASH then iget ROOTDEV ROOTINO else idup cwd
      | [] => idup cwd
      end) s = Ok (i, set_icache l s) /\
      at_inode V sb (icache s) l i (start (icache s) cwd path)).
  { destruct (dup_cwd s cwd HC Hc) as (l & E & HA).
    destruct path as [|c path]; [by exists cwd, l|]. cbn [start].
    destruct (c =? SLASH); [|by exists cwd, l].
    destruct (iget_coherent V sb s ROOTINO (icache s) HC ltac:(lia))
      as (j & l' & E' & HC' & Hj & Hr & Hf & _).
    exists j, l'. split; [by destruct s|]. split; auto. apply Hc. }
  destruct Hst as (i & l & E & HA). unfold namex. rewrite (bind_Ok _ _ _ _ _ E).
  destruct (namex_loop_ok (icache s) parent (length path) (set_icache l s) path name i _
    (co_ok _ _ _ HC) H2 ltac:(by destruct HM) HA HP Hname ltac:(done))
    as (r & name' & b & l' & HRb & HW & E' & Hlast).
  exists r, name', b, l'. by rewrite E'.
Qed.

(** (C18) [namei] resolves a path on a file system whose directories are well
    formed: it returns the inode that the walk of the path's elements leads to
    from the root or the current directory, with exactly one reference more,
    and null exactly when the walk fails; [nameiparent] stops before the last
    element, which is in [name]. Every lock taken on the way is released, every
    other reference dropped, no block changes, and the walk never runs out of
    cache entries if two are free. *)
Theorem namei_spec (s : fsst S) cwd path :
  mounted s -> coherent V sb (icache s) -> (2 <= nfree (icache s))%nat ->
  has_cwd (icache s) cwd -> Forall (fun c => c <> 0) path ->
  let n := start (icache s) cwd path in
  (exists r b l, namei devsw cwd path s = Ok (r, set_b b (set_icache l s)) /\
     bk_rep b V /\ walked (icache s) l r (walk V sb false n (elems [] path))) /\
  (exists r name b l, nameiparent devsw cwd path s =
       Ok ((r, name), set_b b (set_icache l s)) /\
     bk_rep b V /\ walked (icache s) l r (walk V sb true n (elems [] path)) /\
     (is_Some r -> fname name = take 14 (List.last (elems [] path) []))).
Proof.
  intros HM HC H2 Hc HP n. split.
  - destruct (namex_ok false s cwd path (replicate (Z.to_nat DIRSIZ) 0) HM HC H2 Hc HP eq_refl)
      as (r & nm & b & l & E & HRb & HW & _).
    exists r, b, l. split; [|done]. unfold namei. by rewrite (bind_Ok _ _ _ _ _ E).
  - destruct (namex_ok true s cwd path (replicate (Z.to_nat DIRSIZ) 0) HM HC H2 Hc HP eq_refl)
      as (r & nm & b & l & E & HRb & HW & Hl).
    exists r, nm, b, l. split_and!; auto.
Qed.

End Walk.

(** ** A root directory with an entry for itself *)

Definition demo_root : list block :=
  <[5%nat := set_dinode 1 (i_d demo_dir) zero_block]> demo_dirfs.

Lemma demo_root_wf : wf_disk 2 3 demo_root.
Proof.
  apply wf_empty; [lia|vm_compute; done|vm_compute; done| |vm_compute; done|
    vm_compute; done].
  repeat (apply Forall_cons; split; [vm_compute; reflexivity|]). apply Forall_nil_2.
Qed.

Lemma demo_dino V n :
  dv V 5 = set_dinode 1 (i_d demo_dir) zero_block -> 0 <= n < 8 ->
  if decide (n = 1) then dino V demo_sb8 n = i_d demo_dir else d_type (dino V demo_sb8 n) = 0.
Proof.
  intros Hv Hn. unfold dino. replace (IBLOCK n demo_sb8) with 5.
  2: { unfold IBLOCK. rewrite Z.div_small by (change IPB with 8; lia). done. }
  rewrite Hv.
  assert (Hc : n = 0 \/ n = 1 \/ n = 2 \/ n = 3 \/ n = 4 \/ n = 5 \/ n = 6 \/ n = 7) by lia.
  destruct Hc as [->|[->|[->|[->|[->|[->|[->| ->]]]]]]]; vm_compute; reflexivity.
Qed.

Lemma demo_root_rep :
  exists (s : fsst logst) V, mounted V demo_sb8 s /\ rroom V /\ dv_held V = ∅ /\
    wf_sb demo_sb8 V /\ wf_dirs V demo_sb8 /\ coherent V demo_sb8 (icache s) /\
    (2 <= nfree (icache s))%nat /\ has_cwd V demo_sb8 (icache s) 0 /\
    walk V demo_sb8 false 1 [[97]] = Some 1.
Proof.
  destruct (reboot_view 2 3 demo_root demo_root_wf)
    as (b & V & HR & Hh & Hm & Hl & Ho & Hlo & Hn & Hc & Hv).
  change (Z.of_nat (length demo_root)) with 8 in *. change (2 + 3) with 5 in *.
  assert (Hv5 : dv V 5 = set_dinode 1 (i_d demo_dir) zero_block)
    by (rewrite Hv by lia; vm_compute; reflexivity).
  assert (Hv6 : dv V 6 = <[0%nat := 127]> zero_block)
    by (rewrite Hv by lia; vm_compute; reflexivity).
  assert (Hv7 : dv V 7 = demo_ent ++ replicate 496 0)
    by (rewrite Hv by lia; vm_compute; reflexivity).
  pose proof (fun n => demo_dino V n Hv5) as Hdi.
  pose proof (Hdi 1 ltac:(lia)) as Hd1. rewrite decide_True in Hd1 by done.
  assert (He : forall e m, entry_of V demo_sb8 1 e = Some m -> m = 1).
  { intros e m. unfold entry_of. rewrite Hd1. change (Z.to_nat _) with 1%nat. cbn [seq find_idx].
    destruct (names _ _ _ _); [|done].
    intros Hs. apply (inj Some) in Hs. rewrite <- Hs. unfold dent.
    change (16 * Z.of_nat 0) with 0. by rewrite (demo_fread V Hv7). }
  assert (HL : live V demo_sb8 1).
  { split; rewrite ?Hd1; try done. intros _ ip Hdev Hi.
    split; unfold isize; rewrite ?Hi; try (vm_compute; done).
    intros k Hk Hlt. change (d_size (i_d demo_dir)) with 16 in Hlt. change BSIZE with 512 in Hlt.
    assert (k = 0) as -> by lia. change (blkaddr V (i_d demo_dir) 0) with 7.
    split; [lia|]. rewrite Hh. set_solver. }
  exists {| fs_b := b; fs_sb := demo_sb8; icache := [demo_dir; inode0; inode0]; fs_pid := 1 |}, V.
  split_and!; auto using demo_sb_wf.
  - done.
  - split; [|done]. rewrite Hl, Hh, size_empty. vm_compute. done.
  - intros n e m HLn _ Hm1. pose proof (Hdi n (lv_num _ _ _ HLn)) as Hn1.
    case_decide; [subst n; by rewrite (He e m Hm1)|].
    by destruct (lv_type _ _ _ HLn).
  - cbn [icache]. split.
    + split.
      * intros [|[|[|i]]] [|[|[|j]]] d n x y; cbn; try done;
          intros [= <-] [= <-]; vm_compute; try done.
      * intros [|[|[|i]]] x; cbn; try done; intros [= <-]; vm_compute; done.
    + intros [|[|[|i]]] x; cbn; try done; intros [= <-]; vm_compute; done.
    + intros [|[|[|i]]] x; cbn; try done; by intros [= <-].
    + intros [|[|[|i]]] x Hx Hr; try discriminate Hx; injection Hx as <-;
        [intros _; symmetry; exact Hd1|by vm_compute in Hr..].
  - split; [done|]. exists demo_dir. done.
  - cbn [walk]. rewrite Hd1. change (d_type _ =? T_DIR) with true. cbv iota. cbn [andb].
    destruct (entry_of V demo_sb8 1 [97]) as [m|] eqn:E; [by rewrite (He _ _ E)|].
    exfalso. unfold entry_of in E. rewrite Hd1 in E. change (Z.to_nat _) with 1%nat in E.
    cbn [seq find_idx] in E. unfold names, dent in E. change (16 * Z.of_nat 0) with 0 in E.
    rewrite (demo_fread V Hv7) in E. change (negb _ && _) with true in E. discriminate E.
Qed.

Lemma namei_spec_witness :
  exists (s : fsst logst) i s', namei (fun _ => {| dev_read := None; dev_write := None |})
    0 [47; 97] s = Ok (Some i, s') /\ exists x, icache s' !! i = Some x /\ inum x = 1.
Proof.
  destruct demo_root_rep as (s & V & HM & Hr & Hh & Hsb & Hd & HC & H2 & Hc & Hw).
  destruct (namei_spec (fun _ => {| dev_read := None; dev_write := None |}) V demo_sb8
    Hr Hh Hsb Hd s 0 [47; 97] HM HC H2 Hc ltac:(repeat constructor; done)) as [(r & b & l & E & _ & HW) _].
  change (start (icache s) 0 [47; 97]) with 1 in HW. change (elems [] [47; 97]) with [[97]] in HW.
  rewrite Hw in HW. destruct r as [i|]; [|done].
  exists s, i, (set_b b (set_icache l s)). split; [exact E|].
  destruct (at_x _ _ _ _ _ _ HW) as (x & Hx & Hn & _). by exists x.
Defined.
