(* ===== verification/FsWrite.v ===== *)
(** * Writing files (fs.c: bmap, writei, iupdate)

    A file owns the blocks its inode refers to.  A write allocates the blocks
    it needs, changes the bytes it is asked to and no others, and leaves the
    blocks of other files alone. *)

From Stdlib Require Import ZifyNat.
From S2P Require Import Prelude Param Bytes Sleeplock Bio Log LogInv LogCrash.
From S2P Require Import Blocks LogBlocks Fs FsInodes FsBlocks FsFiles FsPath.

(** ** The blocks of a file *)

(** A block in use that is not part of the metadata. *)
Definition used (V : dview) (sb : superblock) (a : Z) : Prop :=
  datastart sb <= a < sb_size sb /\ bfreeV V sb a = false.

Definition unused (V : dview) (sb : superblock) (a : Z) : Prop :=
  0 <= a < sb_size sb /\ bfreeV V sb a = true.

(** The indirect block, and block [k]; 0 is none. *)
Definition ind (d : dinode) : Z := d_addrs d !!! 12%nat.
Definition baddr (V : dview) (d : dinode) (k : Z) : Z :=
  if k <? NDIRECT then d_addrs d !!! Z.to_nat k
  else if ind d =? 0 then 0 else getw (dv V (ind d)) (Z.to_nat (k - NDIRECT)).

Definition is_blk (k : Z) : Prop := 0 <= k < MAXFILE.

Definition owned (V : dview) (d : dinode) (a : Z) : Prop :=
  a <> 0 /\ (a = ind d \/ exists k, is_blk k /\ baddr V d k = a).

Record owns (V : dview) (sb : superblock) (d : dinode) : Prop := {
  ow_len : length (d_addrs d) = 13%nat;
  ow_used : forall a, owned V d a -> used V sb a;
  ow_inj : forall k l, is_blk k -> is_blk l -> baddr V d k = baddr V d l -> baddr V d k <> 0 -> k = l;
  ow_ind : forall k, is_blk k -> baddr V d k <> 0 -> baddr V d k <> ind d;
  ow_size : 0 <= d_size d <= MAXFILE * BSIZE;
  ow_all : forall k, 0 <= k -> k * BSIZE < d_size d -> baddr V d k <> 0
}.

Definition nfreeb (V : dview) (sb : superblock) : Z :=
  countZ (bfreeV V sb) 0 (Z.to_nat (sb_size sb)).

(** The inode differs in its addresses and size only. *)
Record same_kind (d d' : dinode) : Prop := {
  sk_type : d_type d' = d_type d;
  sk_major : d_major d' = d_major d;
  sk_minor : d_minor d' = d_minor d;
  sk_nlink : d_nlink d' = d_nlink d
}.

(** What a change of the file [d] to [d'] leaves alone: the blocks before the
    free map, the blocks in use that are not its own, and the places of its
    blocks. *)
Record changes (sb : superblock) (V V' : dview) (d d' : dinode) : Prop := {
  ch_wf : wf_sb sb V';
  ch_low : forall a, a < sb_bmapstart sb -> dv V' a = dv V a;
  ch_used : forall a, used V sb a -> used V' sb a;
  ch_same : forall a, used V sb a -> ~ owned V d a -> dv V' a = dv V a;
  ch_own : forall a, owned V' d' a -> owned V d a \/ unused V sb a;
  ch_free : forall a, unused V' sb a -> unused V sb a;
  ch_addr : forall k, is_blk k -> baddr V d k <> 0 -> baddr V' d' k = baddr V d k;
  ch_kind : same_kind d d';
  ch_held : dv_held V' = dv_held V;
  ch_lo : dv_lo V' = dv_lo V;
  ch_n : dv_n V' = dv_n V
}.

Lemma same_kind_refl d : same_kind d d.
Proof. done. Qed.
Lemma same_kind_trans d1 d2 d3 : same_kind d1 d2 -> same_kind d2 d3 -> same_kind d1 d3.
Proof. intros [] []. split; congruence. Qed.

Lemma changes_refl sb V d : wf_sb sb V -> changes sb V V d d.
Proof. intros HW. split; auto using same_kind_refl. Qed.

Lemma changes_trans sb V1 V2 V3 d1 d2 d3 :
  changes sb V1 V2 d1 d2 -> changes sb V2 V3 d2 d3 -> changes sb V1 V3 d1 d3.
Proof.
  intros [A1 A2 A3 A4 A5 A6 A7 A8 A9 A10 A11] [B1 B2 B3 B4 B5 B6 B7 B8 B9 B10 B11].
  split; try congruence; auto.
  - intros a Ha. by rewrite B2, A2.
  - intros a Hu Ho. rewrite B4, A4; auto. intros [Ho'|[_ Hf]]%A5; [done|].
    destruct Hu as [_ Hu]. congruence.
  - intros a [Ho|Hf]%B5; auto.
  - intros k Hk Hn. rewrite B7, A7; auto. by rewrite A7.
  - by eapply same_kind_trans.
Qed.

(** ** Taking a block *)

Section Take.
Context (sb : superblock) (V : dview) (a : Z).
Hypothesis (HW : wf_sb sb V) (Ha : 0 <= a < sb_size sb) (Hf : bfreeV V sb a = true)
  (Hs : forall n, 0 <= n < dv_n V -> length (dv V n) = Z.to_nat BSIZE).
Let V' := takenV V sb a.

Lemma take_at : dv V' a = replicate (Z.to_nat BSIZE) 0.
Proof. unfold V', takenV. cbn [dv put_blk]. by rewrite decide_True. Qed.

Lemma take_data x : datastart sb <= x -> x <> a -> dv V' x = dv V x.
Proof.
  intros Hx Hne. destruct (BBLOCK_range sb V a HW Ha) as [Hb _].
  unfold V', takenV. cbn [dv put_blk]. rewrite !decide_False by lia. done.
Qed.

Lemma take_low x : x < sb_bmapstart sb -> dv V' x = dv V x.
Proof.
  intros Hx. destruct (BBLOCK_range sb V a HW Ha) as [Hb _].
  pose proof (ws_used _ _ HW a Ha Hf). unfold V', takenV. cbn [dv put_blk].
  rewrite !decide_False by lia. done.
Qed.

Lemma take_used x : used V sb x -> used V' sb x /\ x <> a /\ dv V' x = dv V x.
Proof.
  intros [Hx Hu]. assert (Hne : x <> a) by (intros ->; congruence).
  pose proof (ws_used _ _ HW a Ha Hf). pose proof (BBLOCK_range sb V a HW Ha) as [Hb _].
  pose proof (ws_lo _ _ HW). pose proof (ws_bmap _ _ HW).
  split_and!; [|done|apply take_data; lia]. split; [done|].
  unfold V'. rewrite taken_free by (done || lia). by rewrite decide_False.
Qed.

Lemma take_self : used V' sb a.
Proof.
  split; [split; [by apply (ws_used _ _ HW)|lia]|].
  unfold V'. rewrite taken_free by done. by rewrite decide_True.
Qed.

Lemma take_free x : unused V' sb x -> unused V sb x.
Proof.
  intros [Hx Hb]. split; [done|]. unfold V' in Hb. rewrite taken_free in Hb by done.
  by destruct (decide (x = a)).
Qed.

Lemma take_nfree : nfreeb V' sb = nfreeb V sb - 1.
Proof. by apply taken_count. Qed.

Lemma take_pos : 0 < a.
Proof.
  pose proof (ws_used _ _ HW a Ha Hf). pose proof (BBLOCK_range sb V a HW Ha) as [Hb _].
  pose proof (ws_lo _ _ HW). pose proof (ws_bmap _ _ HW). lia.
Qed.
End Take.

Lemma nfreeb_zero V sb : (forall a, 0 <= a < sb_size sb -> bfreeV V sb a = false) -> nfreeb V sb = 0.
Proof.
  intros H. unfold nfreeb. rewrite (countZ_ext _ (fun _ => false)); [|intros a Ha; apply H; lia].
  assert (Hz : forall n lo, countZ (fun _ => false) lo n = 0); [|apply Hz].
  induction n as [|n IH]; intros lo; cbn [countZ]; [done|]. by rewrite IH.
Qed.

(** A change of a block after the free map. *)
Lemma put_free sb V n d a :
  wf_sb sb V -> datastart sb <= n -> 0 <= a < sb_size sb -> bfreeV (put_blk n d V) sb a = bfreeV V sb a.
Proof.
  intros HW Hn Ha. destruct (BBLOCK_range sb V a HW Ha) as [Hb _].
  unfold bfreeV. cbn [dv put_blk]. by rewrite decide_False by lia.
Qed.

Lemma put_nfree sb V n d : wf_sb sb V -> datastart sb <= n -> nfreeb (put_blk n d V) sb = nfreeb V sb.
Proof.
  intros HW Hn. apply countZ_ext. intros a Ha. apply put_free; [done|done|].
  pose proof (ws_size _ _ HW). lia.
Qed.

(** The data blocks of the file keep their contents. *)
Definition same_data (V V' : dview) (d : dinode) : Prop :=
  forall k, is_blk k -> baddr V d k <> 0 -> dv V' (baddr V d k) = dv V (baddr V d k).

Lemma same_data_trans sb V1 V2 V3 d1 d2 :
  changes sb V1 V2 d1 d2 -> same_data V1 V2 d1 -> same_data V2 V3 d2 -> same_data V1 V3 d1.
Proof.
  intros HC H1 H2 k Hk Hn. rewrite <- (H1 k Hk Hn), <- (ch_addr _ _ _ _ _ HC k Hk Hn).
  apply H2; [done|]. by rewrite (ch_addr _ _ _ _ _ HC k Hk Hn).
Qed.

(** ** Giving a block to the file *)

Lemma getw_zeros j : (j < 128)%nat -> getw (replicate (Z.to_nat BSIZE) 0) j = 0.
Proof.
  intros Hj. unfold getw, getn. rewrite drop_replicate, take_replicate.
  change (Z.to_nat BSIZE) with 512%nat. by replace (4 `min` (512 - 4 * j))%nat with 4%nat by lia.
Qed.

Lemma owned_ind V d : ind d <> 0 -> owned V d (ind d).
Proof. intros H. split; [done|by left]. Qed.
Lemma owned_blk V d k : is_blk k -> baddr V d k <> 0 -> owned V d (baddr V d k).
Proof. intros Hk H. split; [done|]. right. by exists k. Qed.

(** The file with block [k] at [a]; the other blocks are where they were. *)
Definition placed (V V' : dview) (d d' : dinode) (k a : Z) : Prop :=
  forall j, is_blk j -> baddr V' d' j = if decide (j = k) then a else baddr V d j.

Section Give.
Context (sb : superblock) (V : dview) (d : dinode) (a : Z).
Hypothesis (HW : wf_sb sb V) (Ha : 0 <= a < sb_size sb) (Hf : bfreeV V sb a = true)
  (Hs : forall n, 0 <= n < dv_n V -> length (dv V n) = Z.to_nat BSIZE) (HO : owns V sb d).

(** A view [V'] and an inode [d'] after [a] was taken. *)
Record given (V' : dview) (d' : dinode) : Prop := {
  gv_wf : wf_sb sb V';
  gv_low : forall x, x < sb_bmapstart sb -> dv V' x = dv V x;
  gv_used : forall x, used V sb x -> used V' sb x /\ (x <> ind d -> dv V' x = dv V x);
  gv_self : used V' sb a;
  gv_free : forall x, unused V' sb x -> unused V sb x;
  gv_len : length (d_addrs d') = 13%nat;
  gv_kind : same_kind d d';
  gv_size : d_size d' = d_size d;
  gv_held : dv_held V' = dv_held V;
  gv_lo : dv_lo V' = dv_lo V;
  gv_n : dv_n V' = dv_n V
}.

Lemma given_changes V' d' :
  given V' d' -> (forall x, owned V' d' x -> owned V d x \/ x = a) ->
  (forall k, is_blk k -> baddr V d k <> 0 -> baddr V' d' k = baddr V d k) ->
  changes sb V V' d d'.
Proof.
  intros [] Hown Haddr. split; auto.
  - intros x Hx. by apply gv_used0.
  - intros x Hx Ho. apply gv_used0; [done|]. intros ->. apply Ho, owned_ind.
    destruct Hx as [[Hx _] _]. pose proof (BBLOCK_range sb V a HW Ha) as [Hb _].
    pose proof (ws_lo _ _ HW). pose proof (ws_bmap _ _ HW). lia.
  - intros x [Ho| ->]%Hown; [by left|right; by split].
Qed.

(** A new data block. *)
Lemma give_block V' d' k :
  given V' d' -> placed V V' d d' k a -> ind d' = ind d -> is_blk k -> baddr V d k = 0 ->
  owns V' sb d' /\ changes sb V V' d d'.
Proof.
  intros HG HP Hi Hk Hz. pose proof HG as [G1 G2 G3 G4 G5 G6 G7 G8 _ _ _]. pose proof (take_pos sb V a HW Ha Hf) as Hpos.
  assert (Hnew : forall x, owned V d x -> x <> a).
  { intros x Hx ->. apply (ow_used _ _ _ HO) in Hx as [_ Hx]. congruence. }
  assert (Hown : forall x, owned V' d' x -> owned V d x \/ x = a).
  { intros x [Hx [->|(j & Hj & <-)]].
    - left. rewrite Hi in *. by apply owned_ind.
    - rewrite HP in * by done. destruct (decide (j = k)); [by right|left]. by apply owned_blk. }
  assert (HC : changes sb V V' d d').
  { apply given_changes; auto. intros j Hj Hn. rewrite HP by done. by destruct (decide (j = k)) as [->|]. }
  split; [|done]. split; auto.
  - intros x [Hx| ->]%Hown; [|done]. by apply G3, (ow_used _ _ _ HO).
  - intros j l Hj Hl E Hn. rewrite !HP in * by done.
    destruct (decide (j = k)) as [->|], (decide (l = k)) as [->|]; auto.
    + exfalso. apply (Hnew (baddr V d l)); [apply owned_blk; congruence|done].
    + exfalso. revert E. apply Hnew. by apply owned_blk.
    + by apply (ow_inj _ _ _ HO).
  - intros j Hj Hn. rewrite HP, Hi in * by done. destruct (decide (j = k)) as [->|].
    + intros E. assert (ind d <> 0) by lia. by apply (Hnew (ind d)); [apply owned_ind|].
    + by apply (ow_ind _ _ _ HO).
  - rewrite G8. apply HO.
  - rewrite G8. intros j Hj Hlt. pose proof (ow_size _ _ _ HO) as Hsz.
    assert (is_blk j) by (unfold is_blk; change BSIZE with 512 in *; lia).
    rewrite HP by done. destruct (decide (j = k)); [lia|]. by apply (ow_all _ _ _ HO).
Qed.

(** A new indirect block. *)
Lemma give_ind V' d' :
  given V' d' -> ind d = 0 -> ind d' = a -> (forall j, is_blk j -> baddr V' d' j = baddr V d j) ->
  owns V' sb d' /\ changes sb V V' d d'.
Proof.
  intros HG Hz Hi HP. pose proof HG as [G1 G2 G3 G4 G5 G6 G7 G8 _ _ _].
  assert (Hnew : forall x, owned V d x -> x <> a).
  { intros x Hx ->. apply (ow_used _ _ _ HO) in Hx as [_ Hx]. congruence. }
  assert (Hown : forall x, owned V' d' x -> owned V d x \/ x = a).
  { intros x [Hx [->|(j & Hj & <-)]]; [right; congruence|]. left. rewrite HP in * by done. by apply owned_blk. }
  split; [|apply given_changes; auto]. split; auto.
  - intros x [Hx| ->]%Hown; [|done]. by apply G3, (ow_used _ _ _ HO).
  - intros j l Hj Hl E Hn. rewrite !HP in * by done. by apply (ow_inj _ _ _ HO).
  - intros j Hj Hn. rewrite HP, Hi in * by done. apply Hnew. by apply owned_blk.
  - rewrite G8. apply HO.
  - rewrite G8. intros j Hj Hlt. pose proof (ow_size _ _ _ HO) as Hsz.
    rewrite HP by (unfold is_blk; change BSIZE with 512 in *; lia). by apply (ow_all _ _ _ HO).
Qed.
End Give.

(** ** The three places an address is stored *)

Section Places.
Context (sb : superblock) (V : dview) (d : dinode) (a : Z).
Hypothesis (HW : wf_sb sb V) (Ha : 0 <= a < sb_size sb) (Hf : bfreeV V sb a = true)
  (Hs : forall n, 0 <= n < dv_n V -> length (dv V n) = Z.to_nat BSIZE) (HO : owns V sb d).
Let V' := takenV V sb a.

Lemma taken_given d' :
  length (d_addrs d') = 13%nat -> same_kind d d' -> d_size d' = d_size d -> given sb V d a V' d'.
Proof.
  intros Hl Hk Hz. split; auto.
  - by apply taken_wf.
  - intros x Hx. by apply take_low.
  - intros x Hx. destruct (take_used sb V a HW Ha Hf Hs x Hx) as (H1 & _ & H2). auto.
  - by apply take_self.
  - intros x. by apply take_free.
Qed.

Lemma ind_same : ind d <> 0 -> dv V' (ind d) = dv V (ind d).
Proof.
  intros Hi. apply (owned_ind V) in Hi. apply (ow_used _ _ _ HO) in Hi.
  by destruct (take_used sb V a HW Ha Hf Hs _ Hi) as (_ & _ & E).
Qed.

Lemma taken_data : same_data V V' d.
Proof.
  intros k Hk Hn. apply (owned_blk V d k Hk) in Hn. apply (ow_used _ _ _ HO) in Hn.
  by destruct (take_used sb V a HW Ha Hf Hs _ Hn) as (_ & _ & E).
Qed.

Lemma place_direct k :
  0 <= k < NDIRECT -> baddr V d k = 0 ->
  let d' := set_addr (Z.to_nat k) a d in owns V' sb d' /\ changes sb V V' d d' /\ baddr V' d' k = a.
Proof.
  intros Hk Hz d'. change NDIRECT with 12 in Hk.
  assert (Hi : ind d' = ind d).
  { unfold ind, d'. cbn [set_addr d_addrs]. apply list_lookup_total_insert_ne. lia. }
  assert (HP : placed V V' d d' k a).
  { intros j Hj. unfold baddr. rewrite Hi. change NDIRECT with 12. destruct (Z.ltb_spec j 12).
    - unfold d'. cbn [set_addr d_addrs]. destruct (decide (j = k)) as [->|].
      + apply list_lookup_total_insert_eq. rewrite (ow_len _ _ _ HO). lia.
      + apply list_lookup_total_insert_ne. unfold is_blk in Hj. lia.
    - rewrite decide_False by lia. destruct (Z.eqb_spec (ind d) 0); [done|]. by rewrite ind_same. }
  assert (is_blk k) by (unfold is_blk; change MAXFILE with 140; lia).
  destruct (give_block sb V d a HW Ha Hf HO V' d' k) as [H1 H2]; auto.
  { apply taken_given; [|done|done]. cbn [d' set_addr d_addrs]. rewrite length_insert. apply HO. }
  split_and!; auto. rewrite HP by done. by rewrite decide_True.
Qed.

Lemma place_ind :
  ind d = 0 ->
  let d' := set_addr 12 a d in owns V' sb d' /\ changes sb V V' d d' /\ ind d' = a /\
    forall j, is_blk j -> baddr V' d' j = baddr V d j.
Proof.
  intros Hz d'.
  assert (Hi : ind d' = a).
  { unfold ind, d'. cbn [set_addr d_addrs]. apply list_lookup_total_insert_eq. rewrite (ow_len _ _ _ HO). lia. }
  pose proof (take_pos sb V a HW Ha Hf) as Hpos.
  assert (HP : forall j, is_blk j -> baddr V' d' j = baddr V d j).
  { intros j Hj. unfold baddr. rewrite Hi, Hz. unfold is_blk in Hj. change MAXFILE with 140 in Hj.
    change NDIRECT with 12. destruct (Z.ltb_spec j 12).
    - unfold d'. cbn [set_addr d_addrs]. apply list_lookup_total_insert_ne. lia.
    - destruct (Z.eqb_spec a 0); [lia|]. change (0 =? 0) with true. cbv iota.
      unfold V'. rewrite take_at. apply getw_zeros. lia. }
  destruct (give_ind sb V d a HW Ha Hf HO V' d') as [H1 H2]; auto.
  apply taken_given; [|done|done]. cbn [d' set_addr d_addrs]. rewrite length_insert. apply HO.
Qed.

Lemma place_entry k :
  sb_size sb <= 2 ^ 32 -> ind d <> 0 -> NDIRECT <= k -> is_blk k -> baddr V d k = 0 ->
  let V2 := put_blk (ind d) (setw (dv V (ind d)) (Z.to_nat (k - NDIRECT)) a) V' in
  owns V2 sb d /\ changes sb V V2 d d /\ baddr V2 d k = a.
Proof.
  intros Hsz Hi Hk Hb Hz V2. change NDIRECT with 12 in *. unfold is_blk in Hb. change MAXFILE with 140 in Hb.
  pose proof (ow_used _ _ _ HO _ (owned_ind V d Hi)) as Hu.
  destruct (take_used sb V a HW Ha Hf Hs _ Hu) as (Hu' & Hne & Hdv).
  pose proof (taken_given d (ow_len _ _ _ HO) (same_kind_refl d) eq_refl) as [G1 G2 G3 G4 G5 G6 G7 G8 G9 G10 G11].
  assert (Hin : forall x, x <> ind d -> dv V2 x = dv V' x).
  { intros x Hx. unfold V2. cbn [dv put_blk]. by rewrite decide_False. }
  destruct Hu as [Hur Hub].
  assert (Hfree : forall x, 0 <= x < sb_size sb -> bfreeV V2 sb x = bfreeV V' sb x).
  { intros x Hx. unfold bfreeV. rewrite Hin; [done|].
    destruct (BBLOCK_range sb V x HW Hx) as [Hr _]. lia. }
  pose proof (ws_lo _ _ HW) as Hlo. pose proof (ws_bmap _ _ HW) as Hbm.
  assert (Hdpos : sb_bmapstart sb < datastart sb) by (destruct (BBLOCK_range sb V a HW Ha) as [Hr _]; lia).
  assert (Hl : (4 * Z.to_nat (k - 12) + 4 <= length (dv V (ind d)))%nat).
  { rewrite Hs; [change (Z.to_nat BSIZE) with 512%nat; lia|]. pose proof (ws_size _ _ HW). lia. }
  assert (HP : placed V V2 d d k a).
  { intros j Hj. unfold baddr. unfold is_blk in Hj. change MAXFILE with 140 in Hj. change NDIRECT with 12.
    destruct (Z.ltb_spec j 12); [by rewrite decide_False by lia|].
    destruct (Z.eqb_spec (ind d) 0); [done|]. unfold V2. cbn [dv put_blk]. rewrite decide_True by done.
    rewrite getw_setw by done. destruct (decide (j = k)) as [->|].
    - rewrite decide_True by done. apply u32_small. lia.
    - by rewrite decide_False by lia. }
  assert (HG : given sb V d a V2 d).
  { split; auto.
    - destruct G1. split; auto. intros x Hx Hfx. rewrite Hfree in Hfx by done. auto.
    - intros x Hx. rewrite Hin by lia. by apply G2.
    - intros x Hx. destruct (G3 x Hx) as [[Hxr Hxb] Hx2]. split.
      + split; [done|]. by rewrite Hfree by lia.
      + intros Hxi. rewrite Hin by done. by apply Hx2.
    - destruct G4 as [G4r G4b]. split; [done|]. by rewrite Hfree by lia.
    - intros x [Hx Hfx]. rewrite Hfree in Hfx by done. apply G5. by split. }
  destruct (give_block sb V d a HW Ha Hf HO V2 d k) as [H1 H2]; auto.
  split_and!; auto. rewrite HP by (unfold is_blk; change MAXFILE with 140; lia). by rewrite decide_True.
Qed.
End Places.

(** ** bmap *)

Section Write.
Context {S : Type} `{BS : BlockSpec S}.
Variable devsw : Z -> device S.
Context (sb : superblock).
Hypothesis Hsz : sb_size sb <= 2 ^ 32.

(** A process that holds no buffer, and the inode at entry [i]. *)
Record ready (s : fsst S) (V : dview) (i : nat) (ip : inode) : Prop := {
  rd_sb : fs_sb s = sb;
  rd_rep : bk_rep (fs_b s) V;
  rd_wf : wf_sb sb V;
  rd_held : dv_held V = ∅;
  rd_ip : icache s !! i = Some ip;
  rd_dev : i_dev ip = ROOTDEV;
  rd_own : owns V sb (i_d ip)
}.

Lemma ready_sizes s V i ip : ready s V i ip ->
  forall n, 0 <= n < dv_n V -> length (dv V n) = Z.to_nat BSIZE.
Proof. intros HR. by apply rep_sizes with (b := fs_b s), HR. Qed.

Lemma datastart_lo V : wf_sb sb V -> 0 <= sb_bmapstart sb < datastart sb.
Proof.
  intros HW. pose proof (ws_lo _ _ HW). pose proof (ws_bmap _ _ HW). pose proof (ws_size _ _ HW).
  destruct (BBLOCK_range sb V 0 HW); lia.
Qed.

Lemma taken_room V a c : room V (c + 2) -> room (takenV V sb a) c.
Proof. intros Hr. apply room_put, room_put. by replace (c + 1 + 1) with (c + 2) by lia. Qed.

(** The state with the inode's disk part changed. *)
Definition with_d (b : S) (i : nat) (d : dinode) (ip : inode) (s : fsst S) : fsst S :=
  set_b b (set_icache (<[i := set_d d ip]> (icache s)) s).

Lemma ready_with s V i ip b V' d' :
  ready s V i ip -> bk_rep b V' -> changes sb V V' (i_d ip) d' -> owns V' sb d' ->
  ready (with_d b i d' ip s) V' i (set_d d' ip).
Proof.
  intros [R1 R2 R3 R4 R5 R6 R7] HR HC HO. split; auto; try apply HC.
  - by rewrite (ch_held _ _ _ _ _ HC).
  - apply list_lookup_insert_eq. by eapply lookup_lt_Some.
Qed.

Lemma with_d_with b i d ip s b' d' :
  with_d b' i d' (set_d d ip) (with_d b i d ip s) = with_d b' i d' ip s.
Proof. unfold with_d, set_b, set_icache, set_d. cbn. by rewrite list_insert_insert_eq. Qed.

Lemma with_d_id s i ip : icache s !! i = Some ip -> with_d (fs_b s) i (i_d ip) ip s = s.
Proof.
  intros Hi. unfold with_d, set_b, set_icache. destruct s as [b0 sb0 l0 p0]. cbn in *. f_equal.
  rewrite list_insert_id; [done|]. rewrite Hi. by destruct ip.
Qed.

Lemma balloc_some s V :
  fs_sb s = sb -> bk_rep (fs_b s) V -> wf_sb sb V -> room V 2 -> 0 < nfreeb V sb ->
  (forall a, a ∈ dv_held V -> bfreeV V sb a = false /\ ~ (sb_bmapstart sb <= a < datastart sb)) ->
  exists a b, balloc ROOTDEV s = Ok (a, set_b b s) /\ 0 <= a < sb_size sb /\ bfreeV V sb a = true /\
    bk_rep b (takenV V sb a) /\ keeps V (fs_b s) b.
Proof.
  intros Hsb HR HW Hr Hn Hh.
  destruct (balloc_ok s sb V Hsb HR HW Hr Hh) as [(a & b & E & Ha & Hf & _ & HR' & HK)|[Hnone _]].
  - by exists a, b.
  - apply nfreeb_zero in Hnone. lia.
Qed.

Lemma addr_alloc s V i ip k :
  ready s V i ip -> room V 2 -> 0 < nfreeb V sb -> addr_at i k s = 0 ->
  exists a b, addr_or_alloc i k s = Ok (a, with_d b i (set_addr (Z.to_nat k) a (i_d ip)) ip s) /\
    0 <= a < sb_size sb /\ bfreeV V sb a = true /\ bk_rep b (takenV V sb a).
Proof.
  intros HR Hr Hn Hz. unfold addr_or_alloc. mrun. rewrite Hz. change (0 =? 0) with true. cbv iota. mrun.
  assert (Hip : iat s i = ip) by (apply list_lookup_total_correct, HR).
  rewrite Hip, (rd_dev _ _ _ _ HR).
  destruct (balloc_some s V) as (a & b & E & Ha & Hf & HRb & _); try apply HR; auto.
  { intros x Hx. rewrite (rd_held _ _ _ _ HR) in Hx. set_solver. }
  mrun E. exists a, b. split_and!; auto; try lia.
  unfold set_addr_at. erewrite bind_Ok; [reflexivity|].
  rewrite (iupd_run (set_b b s) i _ ip); [done|]. apply HR.
Qed.

(** The indirect block. *)
Lemma ind_ready s V i ip c :
  ready s V i ip -> room V (c + 2) -> 0 <= c -> 0 < nfreeb V sb ->
  exists b V' d', addr_or_alloc i NDIRECT s = Ok (ind d', with_d b i d' ip s) /\ bk_rep b V' /\
    owns V' sb d' /\ changes sb V V' (i_d ip) d' /\ ind d' <> 0 /\
    (forall j, is_blk j -> baddr V' d' j = baddr V (i_d ip) j) /\ same_data V V' (i_d ip) /\ room V' c /\
    nfreeb V sb - 1 <= nfreeb V' sb /\ d_size d' = d_size (i_d ip) /\
    (ind (i_d ip) <> 0 -> V' = V /\ d' = i_d ip).
Proof.
  intros HR Hr Hc Hn.
  assert (Hip : iat s i = ip) by (apply list_lookup_total_correct, HR).
  assert (Hat : addr_at i NDIRECT s = ind (i_d ip)) by (unfold addr_at; by rewrite Hip).
  destruct (decide (ind (i_d ip) = 0)) as [Hz|Hz].
  - destruct (addr_alloc s V i ip NDIRECT HR) as (a & b & E & Ha & Hf & HRb);
      [by apply (room_le _ _ 2 Hr); lia|done|congruence|].
    pose proof (ready_sizes _ _ _ _ HR) as Hs.
    destruct (place_ind sb V (i_d ip) a (rd_wf _ _ _ _ HR) Ha Hf Hs (rd_own _ _ _ _ HR) Hz)
      as (P1 & P2 & P3 & P4).
    pose proof (take_pos sb V a (rd_wf _ _ _ _ HR) Ha Hf).
    exists b, (takenV V sb a), (set_addr 12 a (i_d ip)). rewrite P3. split_and!; auto; try lia.
    + apply taken_data; auto; apply HR.
    + by apply taken_room.
    + rewrite take_nfree; auto; [lia|apply HR].
  - exists (fs_b s), V, (i_d ip). rewrite with_d_id by apply HR.
    split_and!; auto; try lia; try apply HR.
    + rewrite addr_or_alloc_ok; rewrite Hat; done.
    + apply changes_refl, HR.
    + by intros j.
    + by apply (room_le _ _ c Hr); lia.
Qed.

(** The part of [bmap] after the indirect block has its address. *)
Definition bmap_entry (i : nat) (bn addr : Z) : M (fsst S) Z :=
  let! d := gets (fun s => i_dev (iat s i)) in
  let! bp := dio (bread d addr) in
  let! x := bufd bp in
  let addr := getw x (Z.to_nat bn) in
  let! addr :=
    (if addr =? 0 then
       let! a := balloc d in
       let! x := bufd bp in
       do! dio (bset bp (setw x (Z.to_nat bn) a)) in
       do! dio (log_write bp) in
       ret a
     else ret addr) in
  do! dio (brelse bp) in
  ret addr.

Lemma room_hold V c n : room V (c + 1) -> dv_held V = ∅ -> room (set_held (dv_held V ∪ {[n]}) V) c.
Proof.
  intros [R1 R2 R3 R4] Hh. split; auto; cbn [dv_log dv_cap dv_held set_held]; [lia|].
  rewrite Hh in *. rewrite size_empty in R3. rewrite union_empty_l_L, size_singleton. lia.
Qed.

(** What giving block [k] an address [a] leaves. *)
Record filled (V V' : dview) (d : dinode) (k a c : Z) : Prop := {
  fl_own : owns V' sb d;
  fl_ch : changes sb V V' d d;
  fl_addr : baddr V' d k = a;
  fl_nz : a <> 0;
  fl_data : same_data V V' d;
  fl_room : room V' c;
  fl_free : nfreeb V sb - 1 <= nfreeb V' sb
}.

(** A missing entry of the indirect block, whose buffer is [bp]. *)
Lemma entry_alloc s V i ip k c bp b1 :
  ready s V i ip -> room V (c + 3) -> 0 <= c -> 0 < nfreeb V sb -> ind (i_d ip) <> 0 ->
  NDIRECT <= k -> is_blk k -> baddr V (i_d ip) k = 0 ->
  bk_rep b1 (set_held (dv_held V ∪ {[ind (i_d ip)]}) V) -> bk_ref b1 bp (ind (i_d ip)) ->
  exists a b2 b3 b4 b5 V', balloc ROOTDEV (set_b b1 s) = Ok (a, set_b b2 (set_b b1 s)) /\
    bset bp (setw (bdata bp b2) (Z.to_nat (k - NDIRECT)) a) b2 = Ok (tt, b3) /\
    log_write bp b3 = Ok (tt, b4) /\ brelse bp b4 = Ok (tt, b5) /\ bk_rep b5 V' /\
    filled V V' (i_d ip) k a c.
Proof.
  intros [R1 R2 R3 R4 R5 R6 R7] Hr Hc Hn Hi Hk Hb Hz HR1 Hbp. set (d := i_d ip) in *. set (n := ind d) in *.
  pose proof (ow_used _ _ _ R7 _ (owned_ind V d Hi)) as [Hur Huf]. pose proof (datastart_lo V R3) as Hds.
  pose proof (ws_bmap _ _ R3). pose proof (ws_size _ _ R3). pose proof (rep_sizes (fs_b s) V R2) as Hs.
  set (V1 := set_held (dv_held V ∪ {[n]}) V) in *.
  assert (Hin : n ∈ dv_held V1) by (apply elem_of_union_r, elem_of_singleton; done).
  assert (HW1 : wf_sb sb V1) by (by destruct R3; split).
  destruct (balloc_some (set_b b1 s) V1) as (a & b2 & E2 & Ha & Hf & HR2 & HK2); auto.
  { apply (room_le _ (c + 2)); [|lia]. apply room_hold; [|done]. by replace (c + 2 + 1) with (c + 3) by lia. }
  { intros x Hx. cbn [V1 dv_held set_held] in Hx. rewrite R4, union_empty_l_L, elem_of_singleton in Hx.
    subst x. split; [exact Huf|lia]. }
  change (takenV V1 sb a) with (set_held (dv_held V ∪ {[n]}) (takenV V sb a)) in HR2.
  change (bfreeV V1 sb a) with (bfreeV V sb a) in Hf. pose proof (HK2 bp n Hin Hbp) as Hbp2.
  destruct (take_used sb V a R3 Ha Hf Hs n) as (_ & Hna & Hdn); [by split; [lia|]|].
  pose proof (taken_room V a (c + 1)) as Hr2.
  replace (c + 1 + 2) with (c + 3) in Hr2 by lia. specialize (Hr2 Hr).
  destruct (change_held b2 (takenV V sb a) bp n (setw (dv V n) (Z.to_nat (k - NDIRECT)) a) HR2 Hbp2)
    as (b3 & b4 & b5 & E3 & E4 & E5 & HR5 & _).
  { by apply (room_le _ _ 1 Hr2); lia. }
  { change (dv_lo V <= n < dv_n V). lia. }
  { change (n ∉ dv_held V). rewrite R4. apply not_elem_of_empty. }
  { rewrite setw_length; [apply Hs; lia|]. rewrite Hs by lia. unfold is_blk in Hb.
    change MAXFILE with 140 in Hb. change NDIRECT with 12 in *. change (Z.to_nat BSIZE) with 512%nat. lia. }
  destruct (place_entry sb V d a R3 Ha Hf Hs R7 k Hsz Hi Hk Hb Hz) as (P1 & P2 & P3).
  pose proof (take_pos sb V a R3 Ha Hf). exists a, b2, b3, b4, b5. eexists.
  rewrite (bdata_spec b2 _ bp n HR2 Hbp2 Hin). cbn [dv set_held]. rewrite Hdn.
  split_and!; [exact E2|exact E3|exact E4|exact E5|exact HR5|]. split; [exact P1|exact P2|exact P3|lia| | |].
  - intros j Hj Hj0. cbn [dv put_blk]. rewrite decide_False by (by apply (ow_ind _ _ _ R7)).
    by apply (taken_data sb V d a R3 Ha Hf Hs R7).
  - by apply room_put.
  - rewrite put_nfree; [rewrite take_nfree by done; lia|by apply taken_wf|lia].
Qed.

Lemma entry_ready s V i ip k c :
  ready s V i ip -> room V (c + 3) -> 0 <= c -> 0 < nfreeb V sb -> ind (i_d ip) <> 0 ->
  NDIRECT <= k -> is_blk k ->
  exists a b V', bmap_entry i (k - NDIRECT) (ind (i_d ip)) s = Ok (a, set_b b s) /\ bk_rep b V' /\
    filled V V' (i_d ip) k a c.
Proof.
  intros HR Hr Hc Hn Hi Hk Hb. set (d := i_d ip) in *. set (n := ind d) in *.
  pose proof HR as [R1 R2 R3 R4 R5 R6 R7]. fold d in R7.
  assert (Hip : iat s i = ip) by (by apply list_lookup_total_correct).
  pose proof (ow_used _ _ _ R7 _ (owned_ind V d Hi)) as [Hur Huf]. pose proof (datastart_lo V R3) as Hds.
  pose proof (ws_size _ _ R3).
  assert (Hba : baddr V d k = getw (dv V n) (Z.to_nat (k - NDIRECT))).
  { unfold baddr. destruct (Z.ltb_spec k NDIRECT); [lia|]. by destruct (Z.eqb_spec (ind d) 0). }
  assert (Hnh : n ∉ dv_held V) by (rewrite R4; apply not_elem_of_empty).
  unfold bmap_entry. mrun. rewrite Hip, R6.
  destruct (bread_spec (fs_b s) V n R2) as (bp & b1 & E1 & HR1 & Hbp & _).
  { apply readable_room; [by apply (room_rroom _ _ Hr); lia|lia|done]. }
  set (V1 := set_held (dv_held V ∪ {[n]}) V) in *.
  assert (Hin : n ∈ dv_held V1) by (apply elem_of_union_r, elem_of_singleton; done).
  mrun (dio_Ok _ s _ _ E1). mrun (bufd_run (set_b b1 s) bp). cbn [fs_b set_b].
  rewrite (bdata_spec b1 V1 bp n HR1 Hbp Hin). change (dv V1 n) with (dv V n). rewrite <- Hba.
  destruct (Z.eqb_spec (baddr V d k) 0) as [Hz|Hz].
  - destruct (entry_alloc s V i ip k c bp b1 HR) as (a & b2 & b3 & b4 & b5 & V' & E2 & E3 & E4 & E5 & HR5 & HF); auto.
    mrun E2. mrun (bufd_run (set_b b2 (set_b b1 s)) bp). cbn [fs_b set_b].
    mrun (dio_Ok (bset bp _) (set_b b2 (set_b b1 s)) _ _ E3).
    mrun (dio_Ok (log_write bp) (set_b b3 (set_b b2 (set_b b1 s))) _ _ E4).
    mrun. mrun (dio_Ok (brelse bp) (set_b b4 (set_b b3 (set_b b2 (set_b b1 s)))) _ _ E5).
    by exists a, b5, V'.
  - destruct (brelse_spec b1 V1 bp n HR1 Hbp Hin) as (b2 & E2 & HR2 & _).
    { destruct Hr as [_ _ _ Hm]. cbn [V1 dv_mod set_held]. rewrite Hm. apply not_elem_of_empty. }
    cbn [V1 dv_held set_held] in HR2. rewrite set_held_back in HR2 by done.
    mrun. mrun (dio_Ok (brelse bp) (set_b b1 s) _ _ E2).
    exists (baddr V d k), b2, V. split_and!; [done|done|]. split; auto using changes_refl; [by intros j| |lia].
    apply (room_le _ _ _ Hr). lia.
Qed.

Lemma bmap_direct i k : k < NDIRECT -> bmap i k = addr_or_alloc i k.
Proof. intros Hk. unfold bmap. by destruct (Z.ltb_spec k NDIRECT); [|lia]. Qed.

Lemma bmap_indirect i k : NDIRECT <= k < MAXFILE ->
  bmap i k = (let! addr := addr_or_alloc i NDIRECT in bmap_entry i (k - NDIRECT) addr).
Proof.
  intros Hk. change MAXFILE with (NDIRECT + NINDIRECT) in Hk. unfold bmap.
  destruct (Z.ltb_spec k NDIRECT); [lia|]. by destruct (Z.ltb_spec (k - NDIRECT) NINDIRECT); [|lia].
Qed.

(** [bmap] gives block [k] an address, and allocates it if it has none. *)
Lemma bmap_write s V i ip k c :
  ready s V i ip -> room V (c + 5) -> 0 <= c -> 1 < nfreeb V sb -> is_blk k ->
  exists b V' d', bmap i k s = Ok (baddr V' d' k, with_d b i d' ip s) /\ bk_rep b V' /\
    owns V' sb d' /\ changes sb V V' (i_d ip) d' /\ baddr V' d' k <> 0 /\ same_data V V' (i_d ip) /\
    room V' c /\ nfreeb V sb - 2 <= nfreeb V' sb /\ d_size d' = d_size (i_d ip) /\
    (baddr V (i_d ip) k <> 0 -> d' = i_d ip).
Proof.
  intros HR Hr Hc Hn Hk. pose proof Hk as [Hk0 Hk1].
  assert (Hip : iat s i = ip) by (apply list_lookup_total_correct, HR).
  destruct (decide (k < NDIRECT)) as [Hd|Hd].
  - rewrite bmap_direct by done.
    assert (Hat : addr_at i k s = baddr V (i_d ip) k).
    { unfold addr_at, baddr. rewrite Hip. by destruct (Z.ltb_spec k NDIRECT); [|lia]. }
    destruct (decide (baddr V (i_d ip) k = 0)) as [Hz|Hz].
    + destruct (addr_alloc s V i ip k HR) as (a & b & E & Ha & Hf & HRb);
        [by apply (room_le _ _ 2 Hr); lia|lia|congruence|].
      pose proof (ready_sizes _ _ _ _ HR) as Hs.
      destruct (place_direct sb V (i_d ip) a (rd_wf _ _ _ _ HR) Ha Hf Hs (rd_own _ _ _ _ HR) k)
        as (P1 & P2 & P3); [lia|done|].
      pose proof (take_pos sb V a (rd_wf _ _ _ _ HR) Ha Hf).
      exists b, (takenV V sb a), (set_addr (Z.to_nat k) a (i_d ip)). rewrite P3. split_and!; auto; try lia.
      * apply taken_data; auto; apply HR.
      * apply taken_room. apply (room_le _ _ _ Hr). lia.
      * rewrite take_nfree; auto; [lia|apply HR].
    + exists (fs_b s), V, (i_d ip). rewrite with_d_id, addr_or_alloc_ok, Hat by (apply HR || congruence).
      split_and!; auto; try lia; try apply HR.
      * apply changes_refl, HR.
      * by intros j.
      * apply (room_le _ _ _ Hr). lia.
  - rewrite bmap_indirect by lia.
    destruct (ind_ready s V i ip (c + 3) HR) as (b1 & V1 & d1 & E1 & HR1 & O1 & C1 & I1 & A1 & D1 & M1 & F1 & Z1 & S1);
      [by replace (c + 3 + 2) with (c + 5) by lia|lia|lia|].
    pose proof (ready_with s V i ip b1 V1 d1 HR HR1 C1 O1) as HRd.
    destruct (entry_ready _ V1 i (set_d d1 ip) k c HRd M1) as (a & b2 & V2 & E2 & HR2 & [O2 C2 A2 N2 D2 M2 F2]);
      auto; [lia|lia|].
    mrun E1. cbn [i_d set_d] in *. rewrite E2.
    exists b2, V2, d1. split_and!; auto; try congruence; try lia.
    + by rewrite A2.
    + by eapply changes_trans.
    + by eapply same_data_trans.
    + intros Hz. apply S1. intros Hi. apply Hz. unfold baddr.
      destruct (Z.ltb_spec k NDIRECT); [lia|]. by rewrite Hi.
Qed.

(** ** Writing one block *)

Lemma splice_length x o (l : list Z) : (o + length l <= length x)%nat -> length (splice x o l) = length x.
Proof. intros Hl. unfold splice. rewrite !length_app, length_take, length_drop. lia. Qed.

Lemma splice_lookup x o (l : list Z) j : (o + length l <= length x)%nat ->
  splice x o l !!! j = if decide (o <= j < o + length l)%nat then l !!! (j - o)%nat else x !!! j.
Proof.
  intros Hl. unfold splice. destruct (decide _) as [Hj|Hj]; rewrite !list_lookup_total_alt; f_equal.
  - rewrite lookup_app_r by (rewrite length_take; lia). rewrite length_take, Nat.min_l by lia.
    rewrite lookup_app_l by lia. done.
  - destruct (decide (j < o)%nat) as [Hlt|Hge].
    + rewrite lookup_app_l by (rewrite length_take; lia). by apply lookup_take_lt.
    + rewrite lookup_app_r by (rewrite length_take; lia). rewrite length_take, Nat.min_l by lia.
      rewrite lookup_app_r by lia. rewrite lookup_drop. f_equal. lia.
Qed.

(** A change outside the free map and the indirect block. *)
Record agrees (V V' : dview) (d : dinode) : Prop := {
  ag_wf : wf_sb sb V';
  ag_own : owns V' sb d;
  ag_addr : forall k, baddr V' d k = baddr V d k;
  ag_owned : forall a, owned V' d a <-> owned V d a;
  ag_used : forall a, used V' sb a <-> used V sb a;
  ag_free : forall a, unused V' sb a <-> unused V sb a
}.

Lemma put_agrees V d n x :
  wf_sb sb V -> owns V sb d -> ~ sb_bmapstart sb <= n < datastart sb -> (ind d <> 0 -> n <> ind d) ->
  agrees V (put_blk n x V) d.
Proof.
  intros HW HO Hn Hi. set (V' := put_blk n x V). pose proof (datastart_lo V HW) as Hds.
  assert (Hfree : forall a, 0 <= a < sb_size sb -> bfreeV V' sb a = bfreeV V sb a).
  { intros a Ha. destruct (BBLOCK_range sb V a HW Ha) as [Hb _]. unfold bfreeV, V'. cbn [dv put_blk].
    by rewrite decide_False by lia. }
  assert (HB : forall k, baddr V' d k = baddr V d k).
  { intros k. unfold baddr. destruct (k <? NDIRECT); [done|]. destruct (Z.eqb_spec (ind d) 0); [done|].
    unfold V'. cbn [dv put_blk]. rewrite decide_False; [done|]. apply not_eq_sym. auto. }
  assert (Hown : forall a, owned V' d a <-> owned V d a).
  { intros a. unfold owned. by setoid_rewrite HB. }
  assert (Hused : forall a, used V' sb a <-> used V sb a).
  { intros a. unfold used. split; intros [H1 H2]; (split; [done|]); rewrite Hfree in *; auto; lia. }
  split; auto.
  - destruct HW. split; auto. intros a Ha. rewrite Hfree by done. auto.
  - destruct HO. split; auto; intros *; rewrite ?HB, ?Hown, ?Hused; auto.
  - intros a. unfold unused. split; intros [H1 H2]; (split; [done|]); rewrite Hfree in *; auto.
Qed.

(** The contents of block [k] are replaced. *)
Lemma put_own V d k x :
  wf_sb sb V -> owns V sb d -> is_blk k -> baddr V d k <> 0 ->
  let V' := put_blk (baddr V d k) x V in
  owns V' sb d /\ changes sb V V' d d /\ (forall j, baddr V' d j = baddr V d j).
Proof.
  intros HW HO Hk Hn V'. set (a := baddr V d k) in *.
  pose proof (ow_used _ _ _ HO _ (owned_blk V d k Hk Hn)) as [Hur Huf]. fold a in Hur, Huf.
  destruct (put_agrees V d a x HW HO) as [A1 A2 A3 A4 A5 A6]; [lia|intros _; by apply (ow_ind _ _ _ HO)|].
  pose proof (datastart_lo V HW) as Hds.
  split_and!; [done| |done]. split; auto using same_kind_refl.
  - intros y Hy. unfold V'. cbn [dv put_blk]. by rewrite decide_False by lia.
  - intros y Hy. by apply A5.
  - intros y Hy Ho. unfold V'. cbn [dv put_blk]. rewrite decide_False; [done|].
    intros ->. apply Ho. by apply owned_blk.
  - intros y Hy%A4. by left.
  - intros y Hy. by apply A6.
Qed.

(** Byte [o] of a file. *)
Definition byte (V : dview) (d : dinode) (o : Z) : Z :=
  dv V (baddr V d (o / BSIZE)) !!! Z.to_nat (o mod BSIZE).
Definition mapped (V : dview) (d : dinode) (o : Z) : Prop := baddr V d (o / BSIZE) <> 0.

(** The bytes [l] are written at [off]. *)
Record wrote (V V' : dview) (d d' : dinode) (off : Z) (l : list Z) : Prop := {
  wr_own : owns V' sb d';
  wr_ch : changes sb V V' d d';
  wr_size : d_size d' = d_size d;
  wr_new : forall o, off <= o < off + Z.of_nat (length l) ->
    mapped V' d' o /\ byte V' d' o = l !!! Z.to_nat (o - off);
  wr_old : forall o, is_blk (o / BSIZE) -> mapped V d o -> ~ off <= o < off + Z.of_nat (length l) ->
    byte V' d' o = byte V d o;
  wr_same : (forall o, off <= o < off + Z.of_nat (length l) -> mapped V d o) -> d' = d
}.

Lemma wrote_nil V d off : wf_sb sb V -> owns V sb d -> wrote V V d d off [].
Proof. intros HW HO. split; auto using changes_refl. cbn [length]. lia. Qed.

Lemma mapped_changes V V' d d' o :
  changes sb V V' d d' -> is_blk (o / BSIZE) -> mapped V d o -> mapped V' d' o.
Proof. intros HC Ho Hm. unfold mapped. by rewrite (ch_addr _ _ _ _ _ HC). Qed.

Lemma blk_of o : 0 <= o < MAXFILE * BSIZE -> is_blk (o / BSIZE).
Proof. intros Ho. split; [apply Z.div_pos; [lia|done]|]. apply Z.div_lt_upper_bound; [done|lia]. Qed.

Lemma wrote_app V V1 V2 d d1 d2 off l1 l2 :
  0 <= off -> off + Z.of_nat (length (l1 ++ l2)) <= MAXFILE * BSIZE ->
  wrote V V1 d d1 off l1 -> wrote V1 V2 d1 d2 (off + Z.of_nat (length l1)) l2 ->
  wrote V V2 d d2 off (l1 ++ l2).
Proof.
  intros Ho Hm [A1 A2 A3 A4 A5 A6] [B1 B2 B3 B4 B5 B6]. rewrite length_app in Hm.
  split; auto; rewrite ?length_app.
  - by eapply changes_trans.
  - congruence.
  - intros o Hr. assert (Hb : is_blk (o / BSIZE)) by (apply blk_of; lia).
    destruct (decide (o < off + Z.of_nat (length l1))) as [Hlt|Hge].
    + destruct (A4 o) as [M1 E1]; [lia|]. split; [by eapply mapped_changes|].
      rewrite B5 by (done || lia). rewrite E1. symmetry. apply lookup_total_app_l. lia.
    + destruct (B4 o) as [M1 E1]; [lia|]. split; [done|]. rewrite E1.
      rewrite lookup_total_app_r by lia. f_equal. lia.
  - intros o Hb Hmo Hr. rewrite B5; [apply A5; auto; lia|done|by eapply mapped_changes|lia].
  - intros Hall. rewrite B6; [apply A6; intros o Hr; apply Hall; lia|].
    intros o Hr. eapply mapped_changes; [done|apply blk_of; lia|apply Hall; lia].
Qed.

Lemma in_block off m o : 0 <= off -> off mod BSIZE + m <= BSIZE -> off <= o < off + m ->
  o / BSIZE = off / BSIZE /\ o mod BSIZE = off mod BSIZE + (o - off).
Proof.
  intros Ho Hm Hr. pose proof (Z.div_mod off BSIZE ltac:(done)). pose proof (Z.mod_pos_bound off BSIZE ltac:(done)).
  assert (E : o / BSIZE = off / BSIZE) by (symmetry; apply Z.div_unique with (r := off mod BSIZE + (o - off)); lia).
  split; [done|]. pose proof (Z.div_mod o BSIZE ltac:(done)). lia.
Qed.

(** The bytes of [l] put in the block of [off]. *)
Lemma wrote_block V d off l :
  wf_sb sb V -> owns V sb d -> 0 <= off -> is_blk (off / BSIZE) -> mapped V d off ->
  length (dv V (baddr V d (off / BSIZE))) = Z.to_nat BSIZE ->
  off mod BSIZE + Z.of_nat (length l) <= BSIZE ->
  let a := baddr V d (off / BSIZE) in
  wrote V (put_blk a (splice (dv V a) (Z.to_nat (off mod BSIZE)) l) V) d d off l.
Proof.
  intros HW HO Ho Hb Hm Hlen Hl a. pose proof (Z.mod_pos_bound off BSIZE ltac:(done)) as Hmb.
  assert (Hfit : (Z.to_nat (off mod BSIZE) + length l <= length (dv V a))%nat).
  { unfold a. rewrite Hlen. change BSIZE with 512 in *. lia. }
  set (x := splice _ _ _). destruct (put_own V d (off / BSIZE) x HW HO Hb Hm) as (P1 & P2 & P3).
  fold a in P1, P2, P3. split; auto.
  - intros o Hr. destruct (in_block off _ o Ho Hl Hr) as [E1 E2]. unfold mapped, byte. rewrite E1, E2, P3.
    split; [done|]. fold a. cbn [dv put_blk]. rewrite decide_True by done. unfold x.
    rewrite splice_lookup by done. rewrite decide_True by lia. f_equal. lia.
  - intros o Hob Hom Hr. unfold byte. rewrite P3. cbn [dv put_blk]. destruct (decide _) as [E|]; [|done].
    unfold a in E. apply (ow_inj _ _ _ HO) in E; [|done|done|done]. rewrite E. fold a.
    unfold x. rewrite splice_lookup by done. rewrite decide_False; [done|].
    pose proof (Z.div_mod off BSIZE ltac:(done)). pose proof (Z.div_mod o BSIZE ltac:(done)) as Ed.
    pose proof (Z.mod_pos_bound o BSIZE ltac:(done)). rewrite E in Ed. lia.
Qed.

Lemma wrote_before V V1 V2 d d1 off l :
  0 <= off -> off + Z.of_nat (length l) <= MAXFILE * BSIZE ->
  changes sb V V1 d d1 -> same_data V V1 d -> d_size d1 = d_size d ->
  (mapped V d off -> d1 = d) -> l <> [] -> wrote V1 V2 d1 d1 off l -> wrote V V2 d d1 off l.
Proof.
  intros Ho Hm HC HD Hz Hs Hne [A1 A2 A3 A4 A5 A6]. split; auto; try congruence.
  - by eapply changes_trans.
  - intros o Hb Hmo Hr. rewrite A5; [|done|by eapply mapped_changes|done]. unfold byte.
    rewrite (ch_addr _ _ _ _ _ HC) by done. by rewrite HD.
  - intros Hall. apply Hs, Hall. destruct l; [done|]. cbn [length]. lia.
Qed.

(** One round of the loop of [writei]. *)
Lemma write_block s V i ip off l c :
  ready s V i ip -> room V (c + 6) -> 0 <= c -> 1 < nfreeb V sb -> 0 <= off ->
  off + Z.of_nat (length l) <= MAXFILE * BSIZE -> off mod BSIZE + Z.of_nat (length l) <= BSIZE -> l <> [] ->
  exists b V' d' bp b1 b2 b3 b4 a, bmap i (off / BSIZE) s = Ok (a, with_d b i d' ip s) /\
    bread ROOTDEV a b = Ok (bp, b1) /\
    bset bp (splice (bdata bp b1) (Z.to_nat (off mod BSIZE)) l) b1 = Ok (tt, b2) /\
    log_write bp b2 = Ok (tt, b3) /\ brelse bp b3 = Ok (tt, b4) /\ bk_rep b4 V' /\
    wrote V V' (i_d ip) d' off l /\ room V' c /\ nfreeb V sb - 2 <= nfreeb V' sb.
Proof.
  intros HR Hr Hc Hn Ho Hm Hl Hne.
  assert (Hb : is_blk (off / BSIZE)) by (apply blk_of; destruct l; [done|cbn [length] in Hm; lia]).
  destruct (bmap_write s V i ip (off / BSIZE) (c + 1) HR) as (b & V1 & d1 & E1 & HR1 & O1 & C1 & N1 & D1 & M1 & F1 & Z1 & S1);
    [by replace (c + 1 + 5) with (c + 6) by lia|lia|done|done|].
  set (a := baddr V1 d1 (off / BSIZE)) in *.
  pose proof (ch_wf _ _ _ _ _ C1) as HW1.
  destruct (ow_used _ _ _ O1 _ (owned_blk V1 d1 _ Hb N1)) as [Hur _]. fold a in Hur.
  pose proof (ws_size _ _ HW1) as Hsize. pose proof (ws_lo _ _ HW1). pose proof (ws_bmap _ _ HW1).
  assert (Hbr : sb_bmapstart sb < datastart sb) by (destruct (BBLOCK_range sb V1 0 HW1); lia).
  assert (Hlen : length (dv V1 a) = Z.to_nat BSIZE) by (apply (bk_size _ _ _ HR1); lia).
  pose proof (Z.mod_pos_bound off BSIZE ltac:(done)).
  destruct (change_block b V1 a (fun x => splice x (Z.to_nat (off mod BSIZE)) l) HR1)
    as (bp & b1 & b2 & b3 & b4 & E2 & Ed & E3 & E4 & E5 & HR5); auto.
  { by apply (room_le _ _ 1 M1); lia. }
  { lia. }
  { rewrite (ch_held _ _ _ _ _ C1), (rd_held _ _ _ _ HR). apply not_elem_of_empty. }
  { rewrite splice_length; [done|]. rewrite Hlen. change BSIZE with 512 in *. lia. }
  exists b. eexists. exists d1, bp, b1, b2, b3, b4, a. rewrite Ed.
  split_and!; [done|done|done|done|done|exact HR5| | |].
  - eapply wrote_before; [done|lia|exact C1|done|done|done|done|]. by apply wrote_block.
  - by apply room_put.
  - rewrite put_nfree by (done || lia). lia.
Qed.

(** The end of the loop. *)
Lemma writei_loop_end fuel s V i ip src off n c :
  ready s V i ip -> room V c -> length src = 0%nat ->
  exists b V' d', writei_loop fuel i src n off n s = Ok (off, with_d b i d' ip s) /\
    bk_rep b V' /\ wrote V V' (i_d ip) d' off src /\ room V' c.
Proof.
  intros HR Hr Hlen. exists (fs_b s), V, (i_d ip). destruct src; [|done].
  rewrite with_d_id by apply HR. split_and!; [|apply HR|apply wrote_nil; apply HR|done].
  destruct fuel; cbn [writei_loop]; by rewrite Z.ltb_irrefl.
Qed.

Lemma writei_loop_ok nb : forall fuel s V i ip src tot off n c,
  ready s V i ip -> 0 <= c -> room V (c + 6 * Z.of_nat nb) -> 2 * Z.of_nat nb <= nfreeb V sb ->
  0 <= tot <= n -> 0 <= off -> off + (n - tot) <= MAXFILE * BSIZE -> length src = Z.to_nat (n - tot) ->
  (nb <= fuel)%nat -> tot = n \/ off mod BSIZE + (n - tot) <= BSIZE * Z.of_nat nb ->
  exists b V' d', writei_loop fuel i src tot off n s = Ok (off + (n - tot), with_d b i d' ip s) /\
    bk_rep b V' /\ wrote V V' (i_d ip) d' off src /\ room V' c.
Proof.
  induction nb as [|nb IH]; intros fuel s V i ip src tot off n c HR Hc Hr Hn Ht Ho Hm Hlen Hf Hnb;
    (destruct (decide (tot = n)) as [->|Hne];
     [replace (off + (n - n)) with off by lia;
      apply writei_loop_end; [done|by apply (room_le _ _ c Hr); lia|lia]|]);
    pose proof (Z.mod_pos_bound off BSIZE ltac:(done)) as Hmb.
  { lia. }
  destruct fuel as [|fuel]; [lia|]. destruct Hnb as [?|Hnb]; [done|].
  set (m := Z.min (n - tot) (BSIZE - off mod BSIZE)).
  assert (Hml : length (take (Z.to_nat m) src) = Z.to_nat m) by (rewrite length_take; lia).
  change (MAXFILE * BSIZE) with 71680 in Hm.
  destruct (write_block s V i ip off (take (Z.to_nat m) src) (c + 6 * Z.of_nat nb) HR)
    as (b & V1 & d1 & bp & b1 & b2 & b3 & b4 & a & E1 & E2 & E3 & E4 & E5 & HR5 & W1 & M1 & F1);
    rewrite ?Hml; try lia.
  { by replace (c + 6 * Z.of_nat nb + 6) with (c + 6 * Z.of_nat (Datatypes.S nb)) by lia. }
  { change (MAXFILE * BSIZE) with 71680. lia. }
  { intros E. rewrite E in Hml. cbn [length] in Hml. lia. }
  pose proof (ready_with s V i ip b4 V1 d1 HR HR5 (wr_ch _ _ _ _ _ _ W1) (wr_own _ _ _ _ _ _ W1)) as HR1.
  destruct (IH fuel _ V1 i (set_d d1 ip) (drop (Z.to_nat m) src) (tot + m) (off + m) n c HR1)
    as (b' & V' & d' & E & HRb & W2 & M2); auto; try lia.
  { change (MAXFILE * BSIZE) with 71680. lia. }
  { rewrite length_drop. lia. }
  { destruct (decide (m = n - tot)) as [->|Hm2]; [left; lia|right].
    assert (Hz : (off + m) mod BSIZE = 0).
    { symmetry. pose proof (Z.div_mod off BSIZE ltac:(done)). apply Z.mod_unique with (q := off / BSIZE + 1); lia. }
    rewrite Hz. lia. }
  exists b', V', d'. split_and!; auto.
  - cbn [writei_loop]. destruct (Z.ltb_spec tot n); [|lia]. mrun E1. mrun.
    fold m. rewrite (u32_small (off + m)) by lia.
    assert (Hd : i_dev (iat (with_d b i d1 ip s) i) = ROOTDEV).
    { unfold iat. rewrite (list_lookup_total_correct _ _ _ (rd_ip _ _ _ _ HR1)). apply HR. }
    rewrite Hd. mrun (dio_Ok _ (with_d b i d1 ip s) _ _ E2).
    mrun (bufd_run (with_d b1 i d1 ip s) bp).
    mrun (dio_Ok (bset bp _) (with_d b1 i d1 ip s) _ _ E3).
    mrun (dio_Ok (log_write bp) (with_d b2 i d1 ip s) _ _ E4).
    mrun (dio_Ok (brelse bp) (with_d b3 i d1 ip s) _ _ E5).
    etrans; [exact E|]. rewrite with_d_with. do 2 f_equal. lia.
  - rewrite <- (take_drop (Z.to_nat m) src). apply wrote_app with (V1 := V1) (d1 := d1); [done| |done|].
    + rewrite take_drop, Hlen. change (MAXFILE * BSIZE) with 71680. lia.
    + by rewrite Hml, Z2Nat.id by lia.
Qed.

(** ** The inode *)

(** [iupdate] writes the inode to its place on disk. *)
Lemma iupdate_ok s V i ip :
  ready s V i ip -> room V 1 -> 0 <= inum ip < sb_ninodes sb ->
  let n := IBLOCK (inum ip) sb in
  exists b, iupdate i s = Ok (tt, set_b b s) /\
    bk_rep b (put_blk n (set_dinode (Z.to_nat (inum ip mod IPB)) (i_d ip) (dv V n)) V).
Proof.
  intros [R1 R2 R3 R4 R5 R6 R7] Hr Hi n. unfold iupdate. mrun.
  assert (Hip : iat s i = ip) by (by apply list_lookup_total_correct). rewrite Hip, R6, R1. fold n.
  destruct (IBLOCK_range sb V (inum ip) R3 Hi) as [Hb1 Hb2]. fold n in Hb1, Hb2.
  pose proof (ws_lo _ _ R3). pose proof (Z.mod_pos_bound (inum ip) IPB ltac:(done)) as Hmb.
  change IPB with 8 in Hmb.
  destruct (change_block (fs_b s) V n (set_dinode (Z.to_nat (inum ip mod IPB)) (i_d ip)) R2 Hr)
    as (bp & b1 & b2 & b3 & b4 & E1 & Ed & E2 & E3 & E4 & HR4); auto; try lia.
  { rewrite R4. apply not_elem_of_empty. }
  { apply set_dinode_length; [change IPB with 8; lia| |apply R7]. apply (bk_size _ _ _ R2). lia. }
  mrun (dio_Ok _ s _ _ E1). mrun (bufd_run (set_b b1 s) bp). cbn [fs_b set_b]. rewrite Ed.
  mrun (dio_Ok (bset bp _) (set_b b1 s) _ _ E2). mrun (dio_Ok (log_write bp) (set_b b2 (set_b b1 s)) _ _ E3).
  rewrite (dio_Ok (brelse bp) (set_b b3 (set_b b2 (set_b b1 s))) _ _ E4). eauto.
Qed.

Lemma dino_put V n x m :
  length (dv V (IBLOCK n sb)) = Z.to_nat BSIZE -> in_range x -> 0 <= n -> 0 <= m ->
  dino (put_blk (IBLOCK n sb) (set_dinode (Z.to_nat (n mod IPB)) x (dv V (IBLOCK n sb))) V) sb m =
  if decide (m = n) then x else dino V sb m.
Proof.
  intros Hl Hx Hn Hm. unfold dino. cbn [dv put_blk].
  pose proof (Z.mod_pos_bound n IPB ltac:(done)) as Hn8. pose proof (Z.mod_pos_bound m IPB ltac:(done)) as Hm8.
  pose proof (Z.div_mod n IPB ltac:(done)) as En. pose proof (Z.div_mod m IPB ltac:(done)) as Em.
  change IPB with 8 in *. destruct (decide (m = n)) as [->|Hne].
  - rewrite decide_True by done. apply get_set_dinode; [lia|exact Hl|done].
  - destruct (decide _) as [E|]; [|done]. rewrite E. unfold IBLOCK in E. change IPB with 8 in E.
    apply get_set_dinode_ne; [lia|lia|lia|exact Hl|apply Hx].
Qed.

Lemma s16_short z : is_short (s16 z).
Proof. unfold is_short, s16, u16. destruct (Z.ltb_spec (z mod 2 ^ 16) (2 ^ 15)); dlia. Qed.

(** An inode changed from one on disk can be written back. *)
Lemma owns_in_range V V' d d' n :
  wf_sb sb V' -> owns V' sb d' -> dino V sb n = d -> same_kind d d' -> in_range d'.
Proof.
  intros HW HO <- [K1 K2 K3 K4].
  pose proof (datastart_lo V' HW) as Hds. pose proof (ow_size _ _ _ HO) as Hz.
  change (MAXFILE * BSIZE) with 71680 in Hz. pose proof (ow_len _ _ _ HO) as Hlen.
  split; rewrite ?K1, ?K2, ?K3, ?K4; try apply s16_short; auto; [lia|].
  apply Forall_forall. intros a [j Hj]%list_elem_of_lookup.
  pose proof (lookup_lt_Some _ _ _ Hj) as Hlt. rewrite Hlen in Hlt.
  apply list_lookup_total_correct in Hj. destruct (decide (a = 0)) as [->|Ha]; [lia|].
  assert (Ho : owned V' d' a).
  { split; [done|]. destruct (decide (j = 12%nat)) as [->|]; [left; done|]. right. exists (Z.of_nat j).
    unfold is_blk, baddr. change MAXFILE with 140. change NDIRECT with 12. split; [lia|].
    destruct (Z.ltb_spec (Z.of_nat j) 12); [|lia]. by rewrite Nat2Z.id. }
  destruct (ow_used _ _ _ HO a Ho). lia.
Qed.

(** ** writei *)

Lemma fbyte_byte V d o : owns V sb d -> 0 <= o < d_size d -> mapped V d o /\ fbyte V d o = byte V d o.
Proof.
  intros HO Ho. pose proof (Z.div_mod o BSIZE ltac:(done)). pose proof (Z.mod_pos_bound o BSIZE ltac:(done)).
  assert (Hm : baddr V d (o / BSIZE) <> 0).
  { apply (ow_all _ _ _ HO); [apply Z.div_pos; [lia|done]|lia]. }
  split; [done|]. unfold fbyte, byte. do 2 f_equal. unfold blkaddr, baddr in *.
  destruct (o / BSIZE <? NDIRECT); [done|]. by destruct (ind d =? 0).
Qed.

(** The file with the bytes [src] at [off]. *)
Record written (V V' : dview) (num : Z) (d d' : dinode) (off : Z) (src : list Z) : Prop := {
  wn_wf : wf_sb sb V';
  wn_held : dv_held V' = dv_held V;
  wn_own : owns V' sb d';
  wn_kind : same_kind d d';
  wn_size : d_size d' = Z.max (d_size d) (off + Z.of_nat (length src));
  wn_bytes : forall o, 0 <= o < d_size d' -> fbyte V' d' o =
    if decide (off <= o < off + Z.of_nat (length src)) then src !!! Z.to_nat (o - off) else fbyte V d o;
  wn_dino : forall m, 0 <= m < sb_ninodes sb ->
    dino V' sb m = if decide (m = num) then d' else dino V sb m;
  wn_others : forall a, used V sb a -> ~ owned V d a -> used V' sb a /\ ~ owned V' d' a /\ dv V' a = dv V a
}.

Definition wend (d : dinode) (off : Z) (src : list Z) : Z := Z.max (d_size d) (off + Z.of_nat (length src)).

Lemma wrote_grow V V1 d d1 off src :
  owns V sb d -> wrote V V1 d d1 off src -> 0 <= off <= d_size d ->
  off + Z.of_nat (length src) <= MAXFILE * BSIZE ->
  owns V1 sb (set_size (wend d off src) d1) /\ changes sb V V1 d (set_size (wend d off src) d1).
Proof.
  intros HO [W1 W2 W3 W4 W5 W6] Ho Hm. pose proof (ow_size _ _ _ HO) as Hz. unfold wend. split.
  - destruct W1. split; auto; cbn [d_size set_size]; [lia|].
    intros k Hk Hlt. change (baddr V1 d1 k <> 0).
    assert (Ek : k * BSIZE / BSIZE = k) by (by apply Z.div_mul).
    assert (Hb : is_blk k) by (rewrite <- Ek; apply blk_of; change BSIZE with 512 in *; lia).
    destruct (decide (k * BSIZE < d_size d)).
    + pose proof (ow_all _ _ _ HO k Hk ltac:(done)) as Hn. by rewrite (ch_addr _ _ _ _ _ W2).
    + destruct (W4 (k * BSIZE)) as [Hmk _]; [lia|]. unfold mapped in Hmk. by rewrite Ek in Hmk.
  - destruct W2 as [C1 C2 C3 C4 C5 C6 C7 C8 C9 C10 C11]. split; auto. by destruct C8.
Qed.

(** A write of the contents followed by one of the inode, if there is one. *)
Lemma wrote_written V V1 V' num d d1 off src :
  wf_sb sb V -> owns V sb d -> wrote V V1 d d1 off src -> 0 <= off <= d_size d ->
  off + Z.of_nat (length src) <= MAXFILE * BSIZE ->
  let d' := set_size (wend d off src) d1 in
  agrees V1 V' d' -> dv_held V' = dv_held V1 ->
  (forall a, sb_bmapstart sb <= a -> dv V' a = dv V1 a) ->
  (forall m, 0 <= m < sb_ninodes sb -> dino V' sb m = if decide (m = num) then d' else dino V1 sb m) ->
  written V V' num d d' off src.
Proof.
  intros HW HO W Ho Hm d' [A1 A2 A3 A4 A5 A6] Hh Hdv Hdi.
  destruct (wrote_grow V V1 d d1 off src HO W Ho Hm) as [O2 C2]. fold d' in O2, C2.
  destruct W as [W1 W2 W3 W4 W5 W6]. pose proof (datastart_lo V HW) as Hds.
  split; auto; try apply C2.
  - rewrite Hh. apply C2.
  - intros o Hr. destruct (fbyte_byte V' d' o A2 Hr) as [Hmo ->].
    assert (E : byte V' d' o = byte V1 d1 o).
    { unfold byte. rewrite A3. change (baddr V1 d' (o / BSIZE)) with (baddr V1 d1 (o / BSIZE)). rewrite Hdv; [done|].
      unfold mapped in Hmo. rewrite A3 in Hmo. pose proof (ow_size _ _ _ A2).
      destruct (ow_used _ _ _ O2 _ (owned_blk V1 d' (o / BSIZE) (blk_of o ltac:(lia)) Hmo)) as [Hu _].
      change (baddr V1 d1 (o / BSIZE)) with (baddr V1 d' (o / BSIZE)). lia. }
    rewrite E. destruct (decide _) as [Hin|Hout]; [by apply W4|].
    assert (Hod : 0 <= o < d_size d) by (cbn [d' d_size set_size] in Hr; unfold wend in Hr; lia).
    destruct (fbyte_byte V d o HO Hod) as [Hmv ->]. apply W5; auto. apply blk_of.
    pose proof (ow_size _ _ _ HO). lia.
  - intros m Hmr. rewrite Hdi by done. destruct (decide _); [done|]. unfold dino. by rewrite (ch_low _ _ _ _ _ W2) by
      (destruct (IBLOCK_range sb V m HW Hmr); lia).
  - intros a Hu Hn. split_and!.
    + apply A5. by apply (ch_used _ _ _ _ _ W2).
    + intros Hx%A4. apply (ch_own _ _ _ _ _ C2) in Hx as [?|[_ Hf]]; [done|]. destruct Hu; congruence.
    + rewrite Hdv by (destruct Hu; lia). by apply (ch_same _ _ _ _ _ W2).
Qed.

(** The number of blocks a write of [n] bytes at [off] touches. *)
Definition nblk (off n : Z) : Z := (off mod BSIZE + n + BSIZE - 1) / BSIZE.

Lemma nblk_range off n : 0 <= n ->
  0 <= nblk off n <= n / BSIZE + 2 /\ off mod BSIZE + n <= BSIZE * nblk off n.
Proof.
  intros Hn. unfold nblk. change BSIZE with 512. pose proof (Z.mod_pos_bound off 512 ltac:(lia)).
  generalize dependent (off mod 512). intros x Hx. dlia.
Qed.

Lemma set_size_id d : set_size (d_size d) d = d.
Proof. by destruct d. Qed.

Lemma agrees_refl V d : wf_sb sb V -> owns V sb d -> agrees V V d.
Proof. intros HW HO. by split. Qed.

(** The end of [writei], when the file has grown. *)
Lemma inode_grow s V V1 i ip d1 b off src :
  ready s V i ip -> 0 <= inum ip < sb_ninodes sb -> dino V sb (inum ip) = i_d ip ->
  0 <= off <= isize ip -> off + Z.of_nat (length src) <= MAXFILE * BSIZE ->
  wrote V V1 (i_d ip) d1 off src -> bk_rep b V1 -> room V1 1 ->
  let d' := set_size (wend (i_d ip) off src) d1 in
  exists b' V', iupdate i (with_d b i d' ip s) = Ok (tt, with_d b' i d' ip s) /\ bk_rep b' V' /\
    rroom V' /\ written V V' (inum ip) (i_d ip) d' off src.
Proof.
  intros HR Hi Hdi Ho Hm W HRb Hr d'.
  destruct (wrote_grow V V1 _ d1 off src (rd_own _ _ _ _ HR) W Ho Hm) as [O2 C2]. fold d' in O2, C2.
  pose proof (ready_with s V i ip b V1 d' HR HRb C2 O2) as HR2. pose proof (ch_wf _ _ _ _ _ C2) as HW1.
  destruct (iupdate_ok _ V1 i (set_d d' ip) HR2 Hr Hi) as (b' & E & HR').
  cbn [inum set_d i_d] in HR'. destruct (IBLOCK_range sb V1 (inum ip) HW1 Hi) as [Hb1 Hb2].
  pose proof (datastart_lo V1 HW1) as Hds. pose proof (ws_lo _ _ HW1).
  exists b'. eexists. split_and!; [exact E|exact HR'|by apply (room_rroom _ 0), Z.le_refl; apply room_put|].
  apply wrote_written with (V1 := V1); auto; try apply HR.
  - apply put_agrees; [done|done|lia|]. fold d'. intros Hz.
    destruct (ow_used _ _ _ O2 _ (owned_ind V1 d' Hz)). lia.
  - intros a Ha. cbn [dv put_blk]. by rewrite decide_False by lia.
  - intros m Hmr. apply dino_put; [apply (bk_size _ _ _ HRb); lia| |lia|lia].
    eapply owns_in_range; [exact HW1|exact O2|exact Hdi|apply C2].
Qed.

(** When it has not. *)
Lemma inode_stays V V1 num d d1 off src :
  wf_sb sb V -> owns V sb d -> dino V sb num = d -> 0 <= num < sb_ninodes sb -> 0 <= off ->
  off + Z.of_nat (length src) <= d_size d -> wrote V V1 d d1 off src -> written V V1 num d d1 off src.
Proof.
  intros HW HO Hdi Hn Ho Hle W. pose proof (ow_size _ _ _ HO) as Hz.
  assert (Hd : d1 = d).
  { apply (wr_same _ _ _ _ _ _ W). intros o Hr. apply fbyte_byte; [done|lia]. }
  assert (Hs : set_size (wend d off src) d1 = d1).
  { unfold wend. rewrite Z.max_l, Hd by lia. apply set_size_id. }
  rewrite <- Hs. apply wrote_written with (V1 := V1); auto; try lia; rewrite ?Hs.
  - apply agrees_refl; apply W.
  - intros m Hm. destruct (decide (m = num)) as [->|]; [|done]. rewrite Hd, <- Hdi. unfold dino.
    destruct (IBLOCK_range sb V num HW Hn). by rewrite (ch_low _ _ _ _ _ (wr_ch _ _ _ _ _ _ W)) by lia.
Qed.

(** The requests [writei] refuses. *)
Lemma writei_refused s i ip src off n :
  icache s !! i = Some ip -> itype ip <> T_DEV -> 0 <= isize ip <= MAXFILE * BSIZE ->
  0 <= off < 2 ^ 32 -> 0 <= n < 2 ^ 32 -> ~ (off <= isize ip /\ off + n <= MAXFILE * BSIZE) ->
  writei devsw i src off n s = Ok (-1, s).
Proof.
  intros Hip Hty Hz Ho Hn Hbad. apply list_lookup_total_correct in Hip. unfold writei. mrun.
  unfold iat. rewrite Hip. destruct (Z.eqb_spec (itype ip) T_DEV); [done|].
  change (MAXFILE * BSIZE) with 71680 in *. destruct (Z.ltb_spec (isize ip) off); [done|]. cbn [orb].
  destruct (decide (off + n < 2 ^ 32)) as [Hs|Hs].
  - rewrite (u32_small (off + n)) by lia. destruct (Z.ltb_spec (off + n) off); [lia|].
    destruct (Z.ltb_spec 71680 (off + n)); [done|lia].
  - assert (Hu : u32 (off + n) = off + n - 2 ^ 32) by (symmetry; apply Z.mod_unique with (q := 1); lia).
    rewrite Hu. destruct (Z.ltb_spec (off + n - 2 ^ 32) off); [done|lia].
Qed.

Lemma writei_ok s V i ip src off n :
  ready s V i ip -> itype ip <> T_DEV -> 0 <= inum ip < sb_ninodes sb -> dino V sb (inum ip) = i_d ip ->
  0 <= off <= isize ip -> 0 <= n -> off + n <= MAXFILE * BSIZE -> length src = Z.to_nat n ->
  room V (6 * nblk off n + 1) -> 2 * nblk off n <= nfreeb V sb ->
  exists b V' d', writei devsw i src off n s = Ok (n, with_d b i d' ip s) /\ bk_rep b V' /\ rroom V' /\
    written V V' (inum ip) (i_d ip) d' off src.
Proof.
  intros HR Hty Hi Hdi Ho Hn Hmax Hlen Hr Hfree. unfold writei. mrun.
  assert (Hip : iat s i = ip) by (apply list_lookup_total_correct, HR). rewrite Hip.
  destruct (Z.eqb_spec (itype ip) T_DEV); [done|].
  rewrite (u32_small (off + n)) by (change (MAXFILE * BSIZE) with 71680 in *; lia).
  destruct (Z.ltb_spec (isize ip) off); [lia|]. destruct (Z.ltb_spec (off + n) off); [lia|]. cbn [orb].
  destruct (Z.ltb_spec (MAXFILE * BSIZE) (off + n)); [lia|].
  destruct (nblk_range off n) as [Hk1 Hk2]; [lia|].
  destruct (writei_loop_ok (Z.to_nat (nblk off n)) (Z.to_nat (n / BSIZE + 2)) s V i ip src 0 off n 1 HR)
    as (b & V1 & d1 & E & HRb & W & Hr1); rewrite ?Z2Nat.id by lia; try lia.
  { by rewrite Z.add_comm. }
  mrun E. mrun. rewrite Z.sub_0_r.
  assert (Hln : off + Z.of_nat (length src) = off + n) by (rewrite Hlen; lia).
  assert (Hi1 : icache (with_d b i d1 ip s) !! i = Some (set_d d1 ip)).
  { apply list_lookup_insert_eq. eapply lookup_lt_Some, HR. }
  assert (Hiz : isize (iat (with_d b i d1 ip s) i) = isize ip).
  { unfold iat. rewrite (list_lookup_total_correct _ _ _ Hi1). exact (wr_size _ _ _ _ _ _ W). }
  rewrite Hiz. destruct (decide (0 < n /\ isize ip < off + n)) as [[Hp Hg]|Hng].
  - destruct (Z.ltb_spec 0 n); [|lia]. destruct (Z.ltb_spec (isize ip) (off + n)); [|lia]. cbn [andb].
    destruct (inode_grow s V V1 i ip d1 b off src HR Hi Hdi) as (b' & V' & E' & HR' & Hr' & HW'); auto; [lia|].
    assert (Hwe : wend (i_d ip) off src = off + n) by (unfold wend; change (d_size (i_d ip)) with (isize ip); lia).
    rewrite Hwe in E', HW'. exists b', V', (set_size (off + n) d1). split_and!; auto.
    mrun (iupd_run _ i (fun ip => set_d (set_size (off + n) (i_d ip)) ip) _ Hi1).
    change (set_icache _ _) with (with_d b i (set_size (off + n) d1) (set_d d1 ip) (with_d b i d1 ip s)).
    rewrite with_d_with. by mrun E'.
  - replace ((0 <? n) && (isize ip <? off + n)) with false.
    2: { destruct (Z.ltb_spec 0 n), (Z.ltb_spec (isize ip) (off + n)); cbn [andb]; try done. lia. }
    mrun. exists b, V1, d1. split_and!; auto; [by apply (room_rroom _ 1 Hr1)|].
    apply inode_stays; auto; try apply HR; [lia|]. change (d_size (i_d ip)) with (isize ip). lia.
Qed.

(** ** Reading back *)

Lemma owns_file V ip :
  wf_sb sb V -> dv_held V = ∅ -> i_dev ip = ROOTDEV -> owns V sb (i_d ip) -> wf_file V ip.
Proof.
  intros HW Hh Hd HO. pose proof (datastart_lo V HW) as Hds. pose proof (ws_size _ _ HW) as Hs.
  assert (Hg : forall a, owned V (i_d ip) a -> good_blk V a).
  { intros a Ha. destruct (ow_used _ _ _ HO a Ha) as [Hr _]. split; [lia|]. rewrite Hh. apply not_elem_of_empty. }
  assert (Hb : forall k, 0 <= k -> k * BSIZE < isize ip -> is_blk k).
  { intros k Hk Hlt. pose proof (ow_size _ _ _ HO) as Hz. change (d_size (i_d ip)) with (isize ip) in Hz.
    unfold is_blk. change (MAXFILE * BSIZE) with 71680 in Hz. change MAXFILE with 140. change BSIZE with 512 in *. lia. }
  split; [done|apply HO| |].
  - intros k Hk Hlt. pose proof (ow_all _ _ _ HO k Hk Hlt) as Hn. pose proof (owned_blk V _ k (Hb k Hk Hlt) Hn) as Hw.
    apply Hg in Hw. unfold blkaddr. unfold baddr in Hw, Hn.
    destruct (k <? NDIRECT); [done|]. by destruct (ind (i_d ip) =? 0).
  - intros Hlt. pose proof (ow_all _ _ _ HO NDIRECT ltac:(done) Hlt) as Hn. apply Hg, owned_ind.
    unfold baddr in Hn. rewrite Z.ltb_irrefl in Hn. by destruct (Z.eqb_spec (ind (i_d ip)) 0).
Qed.

Lemma written_fread V V' num d d' off src :
  written V V' num d d' off src -> 0 <= off -> fread V' d' off (length src) = src.
Proof.
  intros W Ho. apply list_eq_same_length with (n := length src); [done|unfold fread; by rewrite length_fmap, length_seq|].
  intros k x y Hk Hx Hy. unfold fread in Hx. rewrite list_lookup_fmap, lookup_seq_lt in Hx by done.
  injection Hx as <-. cbn [Nat.add]. rewrite (wn_bytes _ _ _ _ _ _ _ W) by (rewrite (wn_size _ _ _ _ _ _ _ W); lia).
  rewrite decide_True by lia. replace (off + Z.of_nat k - off) with (Z.of_nat k) by lia. rewrite Nat2Z.id.
  by apply list_lookup_total_correct.
Qed.

(** (C19) [writei] of [n] bytes to a regular file or a directory, in a
    transaction with room for the blocks it touches and with free blocks for
    them, returns [n] and leaves a file that has the new bytes in
    [off, off + n), its old bytes elsewhere, and the larger of its size and
    [off + n] as its size. The inode on disk is the inode in memory; the other
    inodes are as before, and so are the blocks in use that are not the
    file's, none of which becomes the file's. A request past the end of the
    file, or one that would pass the largest file, is an error that changes
    nothing. *)
Theorem writei_spec s V i ip src off n :
  ready s V i ip -> itype ip <> T_DEV -> 0 <= inum ip < sb_ninodes sb -> dino V sb (inum ip) = i_d ip ->
  0 <= off < 2 ^ 32 -> 0 <= n < 2 ^ 32 -> length src = Z.to_nat n ->
  if decide (off <= isize ip /\ off + n <= MAXFILE * BSIZE) then
    room V (6 * nblk off n + 1) -> 2 * nblk off n <= nfreeb V sb ->
    exists b V' d', writei devsw i src off n s = Ok (n, with_d b i d' ip s) /\ bk_rep b V' /\
      written V V' (inum ip) (i_d ip) d' off src
  else writei devsw i src off n s = Ok (-1, s).
Proof.
  intros HR Hty Hi Hdi Ho Hn Hlen. destruct (decide _) as [[H1 H2]|Hbad].
  - intros Hr Hfree. destruct (writei_ok s V i ip src off n) as (b & V' & d' & E & HRb & _ & W); auto; [lia|lia|].
    by exists b, V', d'.
  - eapply writei_refused; eauto; [apply HR|]. apply (ow_size _ _ _ (rd_own _ _ _ _ HR)).
Qed.

(** (C20) What [writei] writes is what [readi] reads back. *)
Theorem writei_readi s V i ip src off n :
  ready s V i ip -> itype ip <> T_DEV -> 0 <= inum ip < sb_ninodes sb -> dino V sb (inum ip) = i_d ip ->
  0 <= off <= isize ip -> 0 <= n -> off + n <= MAXFILE * BSIZE -> length src = Z.to_nat n ->
  room V (6 * nblk off n + 1) -> 2 * nblk off n <= nfreeb V sb ->
  exists s1 s2, writei devsw i src off n s = Ok (n, s1) /\ readi devsw i off n s1 = Ok ((n, src), s2).
Proof.
  intros HR Hty Hi Hdi Ho Hn Hmax Hlen Hr Hfree.
  destruct (writei_ok s V i ip src off n) as (b & V' & d' & E & HRb & Hr' & W); auto.
  set (s1 := with_d b i d' ip s) in *. assert (Hip : icache s1 !! i = Some (set_d d' ip)).
  { apply list_lookup_insert_eq. eapply lookup_lt_Some, HR. }
  assert (HF : wf_file V' (set_d d' ip)).
  { apply owns_file; [exact (wn_wf _ _ _ _ _ _ _ W)| |exact (rd_dev _ _ _ _ HR)|exact (wn_own _ _ _ _ _ _ _ W)].
    rewrite (wn_held _ _ _ _ _ _ _ W). exact (rd_held _ _ _ _ HR). }
  change (MAXFILE * BSIZE) with 71680 in Hmax. pose proof (wn_size _ _ _ _ _ _ _ W) as Hz.
  pose proof (readi_ok devsw s1 V' i (set_d d' ip) off n HRb Hr' Hip HF) as HRd.
  change (isize (set_d d' ip)) with (d_size d') in HRd. change (d_size (i_d ip)) with (isize ip) in Hz.
  rewrite decide_True in HRd by lia.
  destruct HRd as (b2 & E2 & _); [|lia|lia|].
  { change (itype (set_d d' ip)) with (d_type d'). by rewrite (sk_type _ _ (wn_kind _ _ _ _ _ _ _ W)). }
  exists s1, (set_b b2 s1). split; [done|]. rewrite E2. unfold rlen. rewrite Z.min_l by lia.
  rewrite <- Hlen. cbn [i_d set_d]. by rewrite (written_fread _ _ _ _ _ _ _ W) by lia.
Qed.
End Write.

(** ** A file system with room for a write: eight log blocks, and an empty
    file in inode 1 *)

Definition demo_sb15 : superblock :=
  {| sb_size := 15; sb_nblocks := 3; sb_ninodes := 8; sb_nlog := 8; sb_logstart := 2;
     sb_inodestart := 10; sb_bmapstart := 11 |}.
Definition demo_empty : dinode :=
  {| d_type := T_FILE; d_major := 0; d_minor := 0; d_nlink := 1; d_size := 0; d_addrs := replicate 13 0 |}.
Definition demo_file : inode :=
  {| i_dev := ROOTDEV; inum := 1; ref := 1; i_lock := initsleeplock; valid := true; i_d := demo_empty |}.
Definition demo_map : blk := <[1%nat := 15]> (<[0%nat := 255]> zero_block).
Definition demo_wfs : list block :=
  [zero_block; setw (setw (setw (setw (setw (setw (setw zero_block 0 15) 1 3) 2 8) 3 8) 4 2) 5 10) 6 11] ++
  replicate 8 zero_block ++ [set_dinode 1 demo_empty zero_block; demo_map; zero_block; zero_block; zero_block].

Lemma demo_wfs_wf : wf_disk 2 8 demo_wfs.
Proof.
  apply wf_empty; [lia|vm_compute; done|vm_compute; done| |vm_compute; done|vm_compute; done].
  repeat (apply Forall_cons; split; [vm_compute; reflexivity|]). apply Forall_nil_2.
Qed.

Lemma demo_bits V a : dv V 11 = demo_map -> 0 <= a < 15 -> bfreeV V demo_sb15 a = (12 <=? a).
Proof.
  intros Hv Ha. unfold bfreeV. replace (BBLOCK a demo_sb15) with 11.
  - rewrite Hv. rewrite <- (Z2Nat.id a) by lia. assert (Hlt : (Z.to_nat a < 15)%nat) by lia.
    revert Hlt. generalize (Z.to_nat a). intros m Hm.
    do 15 (destruct m as [|m]; [vm_compute; reflexivity|]). lia.
  - unfold BBLOCK. rewrite Z.div_small by (change BPB with 4096; lia). done.
Qed.

Lemma demo_owns V : owns V demo_sb15 demo_empty.
Proof.
  assert (Hb : forall k, is_blk k -> baddr V demo_empty k = 0).
  { intros k Hk. unfold baddr. change NDIRECT with 12. destruct (Z.ltb_spec k 12); [|done].
    unfold demo_empty. cbn [d_addrs]. apply lookup_total_replicate_2. unfold is_blk in Hk. lia. }
  split; try done.
  - intros a [Ha [E|(k & Hk & E)]]; [by vm_compute in E; subst|]. rewrite Hb in E by done. by subst.
  - intros k l Hk _ _ Hn. by rewrite Hb in Hn.
  - intros k Hk Hlt. change (d_size demo_empty) with 0 in Hlt. change BSIZE with 512 in Hlt. lia.
Qed.

Lemma demo_ready :
  exists (s : fsst logst) V, ready demo_sb15 s V 0 demo_file /\ room V 7 /\ nfreeb V demo_sb15 = 3 /\ dino V demo_sb15 1 = demo_empty.
Proof.
  destruct (reboot_view 2 8 demo_wfs demo_wfs_wf) as (b & V & HR & Hh & Hm & Hl & Ho & Hlo & Hn & Hc & Hv).
  change (Z.of_nat (length demo_wfs)) with 15 in *.
  assert (Hv11 : dv V 11 = demo_map) by (rewrite Hv by lia; vm_compute; reflexivity).
  exists {| fs_b := b; fs_sb := demo_sb15; icache := [demo_file]; fs_pid := 1 |}, V. split_and!.
  - split; auto using demo_owns. split; rewrite ?Hlo, ?Hn; try (vm_compute; done).
    intros a Ha Hf. rewrite demo_bits in Hf by done. apply Z.leb_le in Hf. exact Hf.
  - split; auto; rewrite Hl, ?Hh, ?Hc, ?size_empty; vm_compute; done.
  - unfold nfreeb. rewrite (countZ_ext _ (fun a => 12 <=? a)); [vm_compute; done|].
    intros a Ha. apply demo_bits; [done|]. change (sb_size demo_sb15) with 15 in Ha. lia.
  - unfold dino. change (IBLOCK 1 demo_sb15) with 10. rewrite Hv by lia. vm_compute. reflexivity.
Qed.

Definition no_dev : Z -> device logst := fun _ => {| dev_read := None; dev_write := None |}.

Lemma writei_spec_witness :
  exists (s s' : fsst logst), writei no_dev 0 [104; 105] 0 2 s = Ok (2, s').
Proof.
  destruct demo_ready as (s & V & HR & Hr & Hf & Hd).
  destruct (writei_spec no_dev demo_sb15 ltac:(vm_compute; done) s V 0 demo_file [104; 105] 0 2 HR
    ltac:(done) ltac:(vm_compute; done) Hd ltac:(lia) ltac:(lia) eq_refl) as (b & V' & d' & E & _).
  - exact Hr.
  - rewrite Hf. vm_compute. done.
  - exists s. eexists. exact E.
Defined.

Lemma writei_readi_witness :
  exists (s s1 s2 : fsst logst), writei no_dev 0 [104; 105] 0 2 s = Ok (2, s1) /\
    readi no_dev 0 0 2 s1 = Ok ((2, [104; 105]), s2).
Proof.
  destruct demo_ready as (s & V & HR & Hr & Hf & Hd). exists s.
  apply (writei_readi no_dev demo_sb15 ltac:(vm_compute; done) s V 0 demo_file [104; 105] 0 2 HR); try done.
  rewrite Hf. vm_compute. done.
Defined.
