(* ===== verification/Ring.v ===== *)
(** * Ring buffers with 32-bit counters

    Pipes and the console input keep a buffer of [K] bytes and counters that
    grow without bound and wrap at 2^32; the byte for counter value [i] is at
    [i % K].  [ring] is the queue the buffer stands for.  [K] divides 2^32, so
    the wrap is not visible. *)

From S2P Require Import Prelude.

(** The entries from counter [r] on, up to counter [w]. *)
Definition ring (K : Z) (d : list Z) (r w : Z) : list Z :=
  (fun k => d !!! Z.to_nat ((r + k) mod K)) <$> seqZ 0 (u32 (w - r)).

Section U32.

Lemma u32_sub_succ r w :
  u32 (w - r) < 2 ^ 32 - 1 -> u32 (u32 (w + 1) - r) = u32 (w - r) + 1.
Proof.
  intros H. unfold u32 in *. rewrite Zminus_mod_idemp_l.
  replace (w + 1 - r) with (w - r + 1) by lia.
  rewrite <- Zplus_mod_idemp_l. apply Z.mod_small.
  pose proof (Z.mod_pos_bound (w - r) (2 ^ 32)). lia.
Qed.

Lemma u32_sub_pred r w :
  0 < u32 (w - r) -> u32 (w - u32 (r + 1)) = u32 (w - r) - 1.
Proof.
  intros H. unfold u32 in *. rewrite Zminus_mod_idemp_r.
  replace (w - (r + 1)) with (w - r - 1) by lia.
  rewrite <- Zminus_mod_idemp_l. apply Z.mod_small.
  pose proof (Z.mod_pos_bound (w - r) (2 ^ 32)). lia.
Qed.

Lemma u32_sub_back r w :
  0 < u32 (w - r) -> u32 (u32 (w - 1) - r) = u32 (w - r) - 1.
Proof.
  intros H. unfold u32 in *. rewrite Zminus_mod_idemp_l.
  replace (w - 1 - r) with (w - r - 1) by lia.
  rewrite <- Zminus_mod_idemp_l. apply Z.mod_small.
  pose proof (Z.mod_pos_bound (w - r) (2 ^ 32)). lia.
Qed.

Lemma u32_sub_0 r w :
  0 <= r < 2 ^ 32 -> 0 <= w < 2 ^ 32 -> (u32 (w - r) = 0 <-> r = w).
Proof.
  intros Hr Hw. unfold u32. split.
  - intros H. apply Z.mod_divide in H as [q Hq]; [|lia].
    assert (q = 0) by (nia || lia). lia.
  - intros ->. by rewrite Z.sub_diag.
Qed.

Lemma u32_sub_pos r w :
  0 <= r < 2 ^ 32 -> 0 <= w < 2 ^ 32 -> w <> r -> 0 < u32 (w - r).
Proof.
  intros Hr Hw Hne. pose proof (u32_range (w - r)). pose proof (u32_sub_0 r w Hr Hw). lia.
Qed.

(** Distances add up if their sum is in range. *)
Lemma u32_sub_add r w e :
  u32 (w - r) + u32 (e - w) < 2 ^ 32 -> u32 (e - r) = u32 (w - r) + u32 (e - w).
Proof.
  intros H. unfold u32 in *. replace (e - r) with (w - r + (e - w)) by lia.
  rewrite Zplus_mod. apply Z.mod_small.
  pose proof (Z.mod_pos_bound (w - r) (2 ^ 32)).
  pose proof (Z.mod_pos_bound (e - w) (2 ^ 32)). lia.
Qed.

(** [w == r + K] is the test for a distance of [K]. *)
Lemma u32_full K r w :
  0 <= K < 2 ^ 32 -> 0 <= w < 2 ^ 32 -> (w = u32 (r + K) <-> u32 (w - r) = K).
Proof.
  intros HK Hw. unfold u32. split.
  - intros ->. rewrite Zminus_mod_idemp_l. replace (r + K - r) with K by lia.
    by apply Z.mod_small.
  - intros H. rewrite <- H. rewrite Zplus_mod_idemp_r.
    replace (r + (w - r)) with w by lia. by rewrite Z.mod_small.
Qed.

End U32.

Section Ring.
Context (K : Z) (HK : 0 < K) (Hdiv : (K | 2 ^ 32)).

Lemma u32_mod z : u32 z mod K = z mod K.
Proof. apply Z.mod_mod_divide, Hdiv. Qed.

Lemma idx_u32 a k : (u32 a + k) mod K = (a + k) mod K.
Proof. by rewrite <- Zplus_mod_idemp_l, u32_mod, Zplus_mod_idemp_l. Qed.

Lemma K_le : K <= 2 ^ 32.
Proof. apply Z.divide_pos_le; [done|exact Hdiv]. Qed.

Lemma length_ring d r w : Z.of_nat (length (ring K d r w)) = u32 (w - r).
Proof.
  unfold ring. rewrite length_fmap, length_seqZ. pose proof (u32_range (w - r)). lia.
Qed.

Lemma ring_nil d r w : u32 (w - r) = 0 -> ring K d r w = [].
Proof. unfold ring. by intros ->. Qed.

Lemma ring_idx_ne i j : 0 <= i < K -> 0 <= j < K -> i <> j -> forall r,
  Z.to_nat ((r + i) mod K) <> Z.to_nat ((r + j) mod K).
Proof.
  intros Hi Hj Hij r E.
  pose proof (Z.mod_pos_bound (r + i) K HK). pose proof (Z.mod_pos_bound (r + j) K HK).
  assert (E' : (r + i) mod K = (r + j) mod K) by lia.
  assert (E2 : ((r + i) - (r + j)) mod K = 0) by (rewrite Zminus_mod, E', Z.sub_diag; done).
  apply Z.mod_divide in E2 as [q Hq]; [|lia]. assert (q = 0) by nia. lia.
Qed.

(** A store at the end counter does not touch the entries before it. *)
Lemma ring_store d r w e c :
  u32 (w - r) <= u32 (e - r) < K ->
  ring K (<[Z.to_nat (e mod K) := c]> d) r w = ring K d r w.
Proof.
  intros H. unfold ring. apply list_fmap_ext. intros i k Hk.
  apply lookup_seqZ in Hk as [-> Hlt]. pose proof (u32_range (w - r)).
  rewrite list_lookup_total_insert_ne; [done|].
  replace (e mod K) with ((r + u32 (e - r)) mod K).
  - apply ring_idx_ne; lia.
  - rewrite Z.add_comm, idx_u32. f_equal. lia.
Qed.

Lemma seqZ_one m : seqZ m 1 = [m].
Proof. unfold seqZ. by cbn. Qed.

Lemma ring_push d r w c :
  length d = Z.to_nat K -> u32 (w - r) < K -> u32 (w - r) < 2 ^ 32 - 1 ->
  ring K (<[Z.to_nat (w mod K) := c]> d) r (u32 (w + 1)) = ring K d r w ++ [c].
Proof.
  intros Hd Hlt Hlt2. rewrite <- (ring_store d r w w c) by lia.
  unfold ring at 1. rewrite u32_sub_succ by done. pose proof (u32_range (w - r)).
  rewrite seqZ_app by lia. rewrite fmap_app. fold (ring K (<[Z.to_nat (w mod K):=c]> d) r w).
  f_equal. rewrite seqZ_one. cbn [fmap list_fmap].
  replace (r + (0 + u32 (w - r))) with (u32 (w - r) + r) by lia.
  rewrite idx_u32. replace (w - r + r) with w by lia.
  rewrite list_lookup_total_insert_eq; [done|]. rewrite Hd.
  pose proof (Z.mod_pos_bound w K HK). lia.
Qed.

Lemma ring_pop d r w :
  0 < u32 (w - r) ->
  ring K d r w = d !!! Z.to_nat (r mod K) :: ring K d (u32 (r + 1)) w.
Proof.
  intros H. unfold ring at 1. rewrite seqZ_cons by lia. rewrite fmap_cons.
  rewrite Z.add_0_r. f_equal. unfold ring. rewrite u32_sub_pred by done.
  rewrite <- (fmap_add_seqZ 1 0), <- list_fmap_compose. apply list_fmap_ext.
  intros i k _. cbn. by rewrite idx_u32, Z.add_assoc.
Qed.

Lemma ring_unpush d r w :
  0 < u32 (w - r) ->
  ring K d r w = ring K d r (u32 (w - 1)) ++ [d !!! Z.to_nat (u32 (w - 1) mod K)].
Proof.
  intros H. unfold ring at 1. replace (u32 (w - r)) with ((u32 (w - r) - 1) + 1) by lia.
  rewrite seqZ_app by lia. rewrite fmap_app. unfold ring. rewrite u32_sub_back by done.
  f_equal. rewrite seqZ_one. cbn [fmap list_fmap]. do 3 f_equal.
  replace (r + (0 + (u32 (w - r) - 1))) with (u32 (w - r) + (r - 1)) by lia.
  rewrite idx_u32, u32_mod. f_equal. lia.
Qed.

Lemma ring_app d r w e :
  u32 (w - r) + u32 (e - w) < 2 ^ 32 ->
  ring K d r e = ring K d r w ++ ring K d w e.
Proof.
  intros H. unfold ring. rewrite (u32_sub_add r w e) by done.
  pose proof (u32_range (w - r)). pose proof (u32_range (e - w)).
  rewrite seqZ_app by lia. rewrite fmap_app. f_equal.
  replace (0 + u32 (w - r)) with (u32 (w - r) + 0) by lia.
  rewrite <- (fmap_add_seqZ (u32 (w - r)) 0), <- list_fmap_compose. apply list_fmap_ext.
  intros i k _. cbn. replace (r + (u32 (w - r) + k)) with (u32 (w - r) + (r + k)) by lia.
  rewrite idx_u32. do 2 f_equal. f_equal. lia.
Qed.

End Ring.
