(* ===== verification/Hoare.v ===== *)
(** * Triples about kernel code

    [triple P c Q]: a run of [c] from a state in [P] that returns ends in [Q].
    [pres P c] is the case of an invariant; its rules follow the structure of
    the code, and the tactic [pres] applies them together with the facts of
    the hint database [pres]. *)

From S2P Require Import Prelude.

Section Triple.
Context {S : Type}.

Definition triple {A} (P : S -> Prop) (c : M S A) (Q : A -> S -> Prop) : Prop :=
  forall s, P s -> match c s with Ok (a, s') => Q a s' | _ => True end.

Definition pres {A} (P : S -> Prop) (c : M S A) : Prop := triple P c (fun _ => P).

Lemma triple_Ok {A} P (c : M S A) Q s a s' :
  triple P c Q -> P s -> c s = Ok (a, s') -> Q a s'.
Proof. intros Ht Hp E. specialize (Ht s Hp). by rewrite E in Ht. Qed.

Lemma triple_bind {A B} P (c : M S A) (k : A -> M S B) Q R :
  triple P c Q -> (forall a, triple (Q a) (k a) R) -> triple P (bind c k) R.
Proof.
  intros Hc Hk s Hs. unfold bind. specialize (Hc s Hs). destruct (c s) as [[a s']| | | |];
    auto. by apply Hk.
Qed.

Lemma triple_conseq {A} (P P' : S -> Prop) (c : M S A) (Q Q' : A -> S -> Prop) :
  (forall s, P s -> P' s) -> (forall a s, Q' a s -> Q a s) ->
  triple P' c Q' -> triple P c Q.
Proof.
  intros HP HQ Hc s Hs. specialize (Hc s (HP s Hs)). destruct (c s) as [[a s']| | | |]; auto.
Qed.

Lemma triple_ret {A} (P : S -> Prop) (a : A) Q :
  (forall s, P s -> Q a s) -> triple P (ret a) Q.
Proof. intros H s Hs. by apply H. Qed.

Lemma triple_bret {A B} (P : S -> Prop) (a : A) (k : A -> M S B) Q :
  triple P (k a) Q -> triple P (bind (ret a) k) Q.
Proof. intros H s Hs. by apply H. Qed.

Lemma triple_modify (P : S -> Prop) f Q :
  (forall s, P s -> Q tt (f s)) -> triple P (modify f) Q.
Proof. intros H s Hs. by apply H. Qed.

(** Reading the state names it. *)
Lemma triple_get {A} P (k : S -> M S A) Q :
  (forall s0, P s0 -> triple (fun s => s = s0) (k s0) Q) -> triple P (bind get k) Q.
Proof. intros H s Hs. by apply (H s Hs s eq_refl). Qed.

Lemma triple_gets {A B} P (f : S -> B) (k : B -> M S A) Q :
  (forall s0, P s0 -> triple (fun s => s = s0) (k (f s0)) Q) ->
  triple P (bind (gets f) k) Q.
Proof. intros H s Hs. by apply (H s Hs s eq_refl). Qed.

Lemma triple_and {A} P (c : M S A) Q Q' :
  triple P c Q -> triple P c Q' -> triple P c (fun a s => Q a s /\ Q' a s).
Proof.
  intros H1 H2 s Hs. specialize (H1 s Hs). specialize (H2 s Hs).
  destruct (c s) as [[a s']| | | |]; auto.
Qed.

Lemma triple_ex {A X} (P : X -> S -> Prop) (c : M S A) Q :
  (forall x, triple (P x) c Q) -> triple (fun s => exists x, P x s) c Q.
Proof. intros H s [x Hx]. by apply (H x). Qed.

Lemma triple_pure {A} (phi : Prop) (P : S -> Prop) (c : M S A) Q :
  (phi -> triple P c Q) -> triple (fun s => phi /\ P s) c Q.
Proof. intros H s [Hphi Hs]. by apply H. Qed.

(** What a step does does not matter. *)
Lemma triple_skip {A B} (c : M S A) (k : A -> M S B) Q :
  (forall a, triple (fun _ => True) (k a) Q) -> triple (fun _ => True) (bind c k) Q.
Proof.
  intros H s _. unfold bind. destruct (c s) as [[a s']| | | |]; auto. by apply H.
Qed.

(** ** Invariants *)

Lemma pres_bind {A B} P (c : M S A) (k : A -> M S B) :
  pres P c -> (forall a, pres P (k a)) -> pres P (bind c k).
Proof. intros Hc Hk. by eapply triple_bind. Qed.

Lemma triple_pres_bind {A B} P (c : M S A) (k : A -> M S B) R :
  pres P c -> (forall a, triple P (k a) R) -> triple P (bind c k) R.
Proof. intros Hc Hk. by eapply triple_bind. Qed.

Lemma pres_ret {A} P (a : A) : pres P (ret a).
Proof. by apply triple_ret. Qed.

Lemma pres_get P : pres P get.
Proof. by intros s Hs. Qed.

Lemma pres_gets {A} P (f : S -> A) : pres P (gets f).
Proof. by intros s Hs. Qed.

Lemma pres_modify (P : S -> Prop) f : (forall s, P s -> P (f s)) -> pres P (modify f).
Proof. intros H. by apply triple_modify. Qed.

Lemma triple_panic {A} P msg (Q : A -> S -> Prop) : triple P (panic msg) Q.
Proof. by intros s Hs. Qed.

Lemma triple_fault {A} P (Q : A -> S -> Prop) : triple P fault Q.
Proof. by intros s Hs. Qed.

Lemma triple_blocked {A} P (Q : A -> S -> Prop) : triple P blocked Q.
Proof. by intros s Hs. Qed.

Lemma triple_out_of_fuel {A} P (Q : A -> S -> Prop) : triple P out_of_fuel Q.
Proof. by intros s Hs. Qed.

Lemma pres_weaken {A} (P P' : S -> Prop) (c : M S A) :
  pres P' c -> (forall s, P s -> P' s) ->
  (forall s s', P s -> P' s' -> P s') -> pres P c.
Proof.
  intros Hc H1 H2 s Hs. specialize (Hc s (H1 s Hs)).
  destruct (c s) as [[a s']| | | |]; auto. by eapply H2.
Qed.

End Triple.

(** ** Code of a component in a larger state *)

Lemma pres_zoom {S T A} (P : S -> Prop) (g : S -> T) (p : T -> S -> S) (c : M T A) :
  (forall t s, P s -> P (p t s)) -> pres P (zoom g p c).
Proof. intros H s Hs. unfold zoom. destruct (c (g s)) as [[a t]| | | |]; auto. Qed.

Create HintDb pres.
#[export] Hint Resolve pres_ret pres_get pres_gets triple_panic triple_fault
  triple_blocked triple_out_of_fuel : pres.

Ltac pres_step :=
  match goal with
  | |- triple ?P ?c (fun _ => ?P) => change (pres P c)
  | |- pres _ (bind _ _) => apply pres_bind; [|intros]
  | |- pres _ (match ?x with _ => _ end) => destruct x
  | |- pres _ (panic _) => apply triple_panic
  | |- pres _ fault => apply triple_fault
  | |- pres _ blocked => apply triple_blocked
  | |- pres _ out_of_fuel => apply triple_out_of_fuel
  | |- pres _ _ => solve [eauto 2 with pres nocore]
  end.
Ltac pres := repeat pres_step.
