(* ===== verification/Kernel.v ===== *)
(** * Kernel state

    The records of proc.h, file.h, pipe.c and console.c, and the state the system calls
    work on: memory, the file system, the file and process tables and the
    CPUs.  A pointer into a table is an index, a null pointer is [None]; a
    kernel stack, a page table and a pipe are the addresses of their pages.
    The contents of a pipe's page are kept as a record, and trap frames and
    contexts are bytes of the kernel stack's page.  [ptable.lock] and
    [ftable.lock] make the operations below atomic steps. *)

From S2P Require Import Prelude Param Bytes Memory Kalloc Vm Sleeplock Bio Log Blocks.
From S2P Require Import LogBlocks Fs.

(** ** Processes (proc.h) *)

Inductive procstate := UNUSED | EMBRYO | SLEEPING | RUNNABLE | RUNNING | ZOMBIE.
#[global] Instance procstate_eq_dec : EqDecision procstate.
Proof. solve_decision. Defined.

(** The address a process sleeps on, by the object it is the address of. *)
Inductive channel :=
| ChNull
| ChProc (i : nat)      (* a process, in [wait] *)
| ChTicks               (* [&ticks] *)
| ChNread (a : Z)       (* [&p->nread] of the pipe at [a] *)
| ChNwrite (a : Z)      (* [&p->nwrite] *)
| ChAddr (a : Z).       (* any other object *)
#[global] Instance channel_eq_dec : EqDecision channel.
Proof. solve_decision. Defined.

Record proc := {
  p_sz : Z;
  p_pgdir : Z;
  p_kstack : Z;
  p_state : procstate;
  p_pid : Z;
  p_parent : option nat;
  p_tf : Z;
  p_context : Z;
  p_chan : channel;
  p_killed : bool;
  p_ofile : list (option nat);
  p_cwd : option nat;
  p_name : list Z;
  p_priority : Z
}.

(** The zero-initialised table entry. *)
Definition proc0 : proc :=
  {| p_sz := 0; p_pgdir := 0; p_kstack := 0; p_state := UNUSED; p_pid := 0;
     p_parent := None; p_tf := 0; p_context := 0; p_chan := ChNull; p_killed := false;
     p_ofile := replicate (Z.to_nat NOFILE) None; p_cwd := None;
     p_name := replicate 16 0; p_priority := 0 |}.
#[global] Instance proc_inhabited : Inhabited proc := populate proc0.

Definition set_sz (v : Z) (x : proc) : proc :=
  {| p_sz := v; p_pgdir := p_pgdir x; p_kstack := p_kstack x; p_state := p_state x;
     p_pid := p_pid x; p_parent := p_parent x; p_tf := p_tf x;
     p_context := p_context x; p_chan := p_chan x; p_killed := p_killed x;
     p_ofile := p_ofile x; p_cwd := p_cwd x; p_name := p_name x;
     p_priority := p_priority x |}.
Definition set_pgdir (v : Z) (x : proc) : proc :=
  {| p_sz := p_sz x; p_pgdir := v; p_kstack := p_kstack x; p_state := p_state x;
     p_pid := p_pid x; p_parent := p_parent x; p_tf := p_tf x;
     p_context := p_context x; p_chan := p_chan x; p_killed := p_killed x;
     p_ofile := p_ofile x; p_cwd := p_cwd x; p_name := p_name x;
     p_priority := p_priority x |}.
Definition set_kstack (v : Z) (x : proc) : proc :=
  {| p_sz := p_sz x; p_pgdir := p_pgdir x; p_kstack := v; p_state := p_state x;
     p_pid := p_pid x; p_parent := p_parent x; p_tf := p_tf x;
     p_context := p_context x; p_chan := p_chan x; p_killed := p_killed x;
     p_ofile := p_ofile x; p_cwd := p_cwd x; p_name := p_name x;
     p_priority := p_priority x |}.
Definition set_state (v : procstate) (x : proc) : proc :=
  {| p_sz := p_sz x; p_pgdir := p_pgdir x; p_kstack := p_kstack x; p_state := v;
     p_pid := p_pid x; p_parent := p_parent x; p_tf := p_tf x;
     p_context := p_context x; p_chan := p_chan x; p_killed := p_killed x;
     p_ofile := p_ofile x; p_cwd := p_cwd x; p_name := p_name x;
     p_priority := p_priority x |}.
Definition set_pid (v : Z) (x : proc) : proc :=
  {| p_sz := p_sz x; p_pgdir := p_pgdir x; p_kstack := p_kstack x;
     p_state := p_state x; p_pid := v; p_parent := p_parent x; p_tf := p_tf x;
     p_context := p_context x; p_chan := p_chan x; p_killed := p_killed x;
     p_ofile := p_ofile x; p_cwd := p_cwd x; p_name := p_name x;
     p_priority := p_priority x |}.
Definition set_parent (v : option nat) (x : proc) : proc :=
  {| p_sz := p_sz x; p_pgdir := p_pgdir x; p_kstack := p_kstack x;
     p_state := p_state x; p_pid := p_pid x; p_parent := v; p_tf := p_tf x;
     p_context := p_context x; p_chan := p_chan x; p_killed := p_killed x;
     p_ofile := p_ofile x; p_cwd := p_cwd x; p_name := p_name x;
     p_priority := p_priority x |}.
Definition set_tf (v : Z) (x : proc) : proc :=
  {| p_sz := p_sz x; p_pgdir := p_pgdir x; p_kstack := p_kstack x;
     p_state := p_state x; p_pid := p_pid x; p_parent := p_parent x; p_tf := v;
     p_context := p_context x; p_chan := p_chan x; p_killed := p_killed x;
     p_ofile := p_ofile x; p_cwd := p_cwd x; p_name := p_name x;
     p_priority := p_priority x |}.
Definition set_context (v : Z) (x : proc) : proc :=
  {| p_sz := p_sz x; p_pgdir := p_pgdir x; p_kstack := p_kstack x;
     p_state := p_state x; p_pid := p_pid x; p_parent := p_parent x; p_tf := p_tf x;
     p_context := v; p_chan := p_chan x; p_killed := p_killed x; p_ofile := p_ofile x;
     p_cwd := p_cwd x; p_name := p_name x; p_priority := p_priority x |}.
Definition set_chan (v : channel) (x : proc) : proc :=
  {| p_sz := p_sz x; p_pgdir := p_pgdir x; p_kstack := p_kstack x;
     p_state := p_state x; p_pid := p_pid x; p_parent := p_parent x; p_tf := p_tf x;
     p_context := p_context x; p_chan := v; p_killed := p_killed x;
     p_ofile := p_ofile x; p_cwd := p_cwd x; p_name := p_name x;
     p_priority := p_priority x |}.
Definition set_killed (v : bool) (x : proc) : proc :=
  {| p_sz := p_sz x; p_pgdir := p_pgdir x; p_kstack := p_kstack x;
     p_state := p_state x; p_pid := p_pid x; p_parent := p_parent x; p_tf := p_tf x;
     p_context := p_context x; p_chan := p_chan x; p_killed := v; p_ofile := p_ofile x;
     p_cwd := p_cwd x; p_name := p_name x; p_priority := p_priority x |}.
Definition set_ofile (v : list (option nat)) (x : proc) : proc :=
  {| p_sz := p_sz x; p_pgdir := p_pgdir x; p_kstack := p_kstack x;
     p_state := p_state x; p_pid := p_pid x; p_parent := p_parent x; p_tf := p_tf x;
     p_context := p_context x; p_chan := p_chan x; p_killed := p_killed x;
     p_ofile := v; p_cwd := p_cwd x; p_name := p_name x; p_priority := p_priority x |}.
Definition set_cwd (v : option nat) (x : proc) : proc :=
  {| p_sz := p_sz x; p_pgdir := p_pgdir x; p_kstack := p_kstack x;
     p_state := p_state x; p_pid := p_pid x; p_parent := p_parent x; p_tf := p_tf x;
     p_context := p_context x; p_chan := p_chan x; p_killed := p_killed x;
     p_ofile := p_ofile x; p_cwd := v; p_name := p_name x;
     p_priority := p_priority x |}.
Definition set_name (v : list Z) (x : proc) : proc :=
  {| p_sz := p_sz x; p_pgdir := p_pgdir x; p_kstack := p_kstack x;
     p_state := p_state x; p_pid := p_pid x; p_parent := p_parent x; p_tf := p_tf x;
     p_context := p_context x; p_chan := p_chan x; p_killed := p_killed x;
     p_ofile := p_ofile x; p_cwd := p_cwd x; p_name := v; p_priority := p_priority x |}.
Definition set_priority (v : Z) (x : proc) : proc :=
  {| p_sz := p_sz x; p_pgdir := p_pgdir x; p_kstack := p_kstack x;
     p_state := p_state x; p_pid := p_pid x; p_parent := p_parent x; p_tf := p_tf x;
     p_context := p_context x; p_chan := p_chan x; p_killed := p_killed x;
     p_ofile := p_ofile x; p_cwd := p_cwd x; p_name := p_name x; p_priority := v |}.

(** What the scheduler and [switchuvm] keep per CPU: the running process, the
    position of the scan of the process table, and the page table and kernel
    stack the hardware uses. *)
Record cpu := {
  c_proc : option nat;
  c_pos : nat;
  c_cr3 : Z;
  c_esp0 : Z
}.
Definition cpu0 : cpu := {| c_proc := None; c_pos := 0; c_cr3 := 0; c_esp0 := 0 |}.
#[global] Instance cpu_inhabited : Inhabited cpu := populate cpu0.

Definition set_cproc (v : option nat) (x : cpu) : cpu :=
  {| c_proc := v; c_pos := c_pos x; c_cr3 := c_cr3 x; c_esp0 := c_esp0 x |}.
Definition set_cpos (v : nat) (x : cpu) : cpu :=
  {| c_proc := c_proc x; c_pos := v; c_cr3 := c_cr3 x; c_esp0 := c_esp0 x |}.
Definition set_cr3 (v : Z) (x : cpu) : cpu :=
  {| c_proc := c_proc x; c_pos := c_pos x; c_cr3 := v; c_esp0 := c_esp0 x |}.
Definition set_esp0 (v : Z) (x : cpu) : cpu :=
  {| c_proc := c_proc x; c_pos := c_pos x; c_cr3 := c_cr3 x; c_esp0 := v |}.

(** ** Open files (file.h) and pipes (pipe.c) *)

Inductive filetype := FD_NONE | FD_PIPE | FD_INODE.
#[global] Instance filetype_eq_dec : EqDecision filetype.
Proof. solve_decision. Defined.

Record file := {
  f_type : filetype;
  f_ref : Z;
  f_readable : bool;
  f_writable : bool;
  f_pipe : Z;
  f_ip : nat;
  f_off : Z
}.

Definition file0 : file :=
  {| f_type := FD_NONE; f_ref := 0; f_readable := false; f_writable := false;
     f_pipe := 0; f_ip := 0; f_off := 0 |}.
#[global] Instance file_inhabited : Inhabited file := populate file0.

Definition set_ftype (v : filetype) (x : file) : file :=
  {| f_type := v; f_ref := f_ref x; f_readable := f_readable x;
     f_writable := f_writable x; f_pipe := f_pipe x; f_ip := f_ip x;
     f_off := f_off x |}.
Definition set_fref (v : Z) (x : file) : file :=
  {| f_type := f_type x; f_ref := v; f_readable := f_readable x;
     f_writable := f_writable x; f_pipe := f_pipe x; f_ip := f_ip x;
     f_off := f_off x |}.
Definition set_freadable (v : bool) (x : file) : file :=
  {| f_type := f_type x; f_ref := f_ref x; f_readable := v; f_writable := f_writable x;
     f_pipe := f_pipe x; f_ip := f_ip x; f_off := f_off x |}.
Definition set_fwritable (v : bool) (x : file) : file :=
  {| f_type := f_type x; f_ref := f_ref x; f_readable := f_readable x; f_writable := v;
     f_pipe := f_pipe x; f_ip := f_ip x; f_off := f_off x |}.
Definition set_fpipe (v : Z) (x : file) : file :=
  {| f_type := f_type x; f_ref := f_ref x; f_readable := f_readable x;
     f_writable := f_writable x; f_pipe := v; f_ip := f_ip x; f_off := f_off x |}.
Definition set_fip (v : nat) (x : file) : file :=
  {| f_type := f_type x; f_ref := f_ref x; f_readable := f_readable x;
     f_writable := f_writable x; f_pipe := f_pipe x; f_ip := v; f_off := f_off x |}.
Definition set_foff (v : Z) (x : file) : file :=
  {| f_type := f_type x; f_ref := f_ref x; f_readable := f_readable x;
     f_writable := f_writable x; f_pipe := f_pipe x; f_ip := f_ip x; f_off := v |}.

Record pipe := {
  pp_data : list Z;
  nread : Z;
  nwrite : Z;
  readopen : bool;
  writeopen : bool
}.

Definition set_ppdata (v : list Z) (x : pipe) : pipe :=
  {| pp_data := v; nread := nread x; nwrite := nwrite x; readopen := readopen x;
     writeopen := writeopen x |}.
Definition set_nread (v : Z) (x : pipe) : pipe :=
  {| pp_data := pp_data x; nread := v; nwrite := nwrite x; readopen := readopen x;
     writeopen := writeopen x |}.
Definition set_nwrite (v : Z) (x : pipe) : pipe :=
  {| pp_data := pp_data x; nread := nread x; nwrite := v; readopen := readopen x;
     writeopen := writeopen x |}.
Definition set_readopen (v : bool) (x : pipe) : pipe :=
  {| pp_data := pp_data x; nread := nread x; nwrite := nwrite x; readopen := v;
     writeopen := writeopen x |}.
Definition set_writeopen (v : bool) (x : pipe) : pipe :=
  {| pp_data := pp_data x; nread := nread x; nwrite := nwrite x;
     readopen := readopen x; writeopen := v |}.

(** ** The console (console.c, kbd.c, uart.c) and its hardware *)

Record console := {
  in_buf : list Z;          (* input.buf *)
  in_r : Z;                 (* input.r, the read index *)
  in_w : Z;                 (* input.w, the write index *)
  in_e : Z;                 (* input.e, the edit index *)
  crt : list Z;             (* the cells of the CGA memory *)
  crt_pos : Z;              (* the cursor register of the CGA *)
  uart : bool;              (* is there a serial port? *)
  uart_tx : list Z;         (* bytes sent on it, in order *)
  uart_rx : list Z;         (* bytes received and not read *)
  kbd_in : list Z;          (* scan codes not read *)
  kbd_shift : Z             (* [shift] of kbdgetc *)
}.

Definition set_inbuf (v : list Z) (x : console) : console :=
  {| in_buf := v; in_r := in_r x; in_w := in_w x; in_e := in_e x; crt := crt x;
     crt_pos := crt_pos x; uart := uart x; uart_tx := uart_tx x; uart_rx := uart_rx x;
     kbd_in := kbd_in x; kbd_shift := kbd_shift x |}.
Definition set_inr (v : Z) (x : console) : console :=
  {| in_buf := in_buf x; in_r := v; in_w := in_w x; in_e := in_e x; crt := crt x;
     crt_pos := crt_pos x; uart := uart x; uart_tx := uart_tx x; uart_rx := uart_rx x;
     kbd_in := kbd_in x; kbd_shift := kbd_shift x |}.
Definition set_inw (v : Z) (x : console) : console :=
  {| in_buf := in_buf x; in_r := in_r x; in_w := v; in_e := in_e x; crt := crt x;
     crt_pos := crt_pos x; uart := uart x; uart_tx := uart_tx x; uart_rx := uart_rx x;
     kbd_in := kbd_in x; kbd_shift := kbd_shift x |}.
Definition set_ine (v : Z) (x : console) : console :=
  {| in_buf := in_buf x; in_r := in_r x; in_w := in_w x; in_e := v; crt := crt x;
     crt_pos := crt_pos x; uart := uart x; uart_tx := uart_tx x; uart_rx := uart_rx x;
     kbd_in := kbd_in x; kbd_shift := kbd_shift x |}.
Definition set_crt (v : list Z) (x : console) : console :=
  {| in_buf := in_buf x; in_r := in_r x; in_w := in_w x; in_e := in_e x; crt := v;
     crt_pos := crt_pos x; uart := uart x; uart_tx := uart_tx x; uart_rx := uart_rx x;
     kbd_in := kbd_in x; kbd_shift := kbd_shift x |}.
Definition set_crtpos (v : Z) (x : console) : console :=
  {| in_buf := in_buf x; in_r := in_r x; in_w := in_w x; in_e := in_e x; crt := crt x;
     crt_pos := v; uart := uart x; uart_tx := uart_tx x; uart_rx := uart_rx x;
     kbd_in := kbd_in x; kbd_shift := kbd_shift x |}.
Definition set_tx (v : list Z) (x : console) : console :=
  {| in_buf := in_buf x; in_r := in_r x; in_w := in_w x; in_e := in_e x; crt := crt x;
     crt_pos := crt_pos x; uart := uart x; uart_tx := v; uart_rx := uart_rx x;
     kbd_in := kbd_in x; kbd_shift := kbd_shift x |}.
Definition set_rx (v : list Z) (x : console) : console :=
  {| in_buf := in_buf x; in_r := in_r x; in_w := in_w x; in_e := in_e x; crt := crt x;
     crt_pos := crt_pos x; uart := uart x; uart_tx := uart_tx x; uart_rx := v;
     kbd_in := kbd_in x; kbd_shift := kbd_shift x |}.
Definition set_kbdin (v : list Z) (x : console) : console :=
  {| in_buf := in_buf x; in_r := in_r x; in_w := in_w x; in_e := in_e x; crt := crt x;
     crt_pos := crt_pos x; uart := uart x; uart_tx := uart_tx x; uart_rx := uart_rx x;
     kbd_in := v; kbd_shift := kbd_shift x |}.
Definition set_kbdshift (v : Z) (x : console) : console :=
  {| in_buf := in_buf x; in_r := in_r x; in_w := in_w x; in_e := in_e x; crt := crt x;
     crt_pos := crt_pos x; uart := uart x; uart_tx := uart_tx x; uart_rx := uart_rx x;
     kbd_in := kbd_in x; kbd_shift := v |}.

(** The console at boot, with an empty screen. *)
Definition console0 : console :=
  {| in_buf := replicate 128 0; in_r := 0; in_w := 0; in_e := 0;
     crt := replicate 2000 0; crt_pos := 0; uart := false; uart_tx := []; uart_rx := [];
     kbd_in := []; kbd_shift := 0 |}.

(** ** The state *)

Record kst := {
  k_mem : pmem;                 (* memory and the page allocator *)
  k_fs : fsst logst;            (* inode cache, log, buffer cache, disk *)
  k_file : list file;           (* ftable *)
  k_pipe : gmap Z pipe;         (* pipes, by address *)
  k_proc : list proc;           (* ptable *)
  k_nextpid : Z;
  k_initproc : option nat;
  k_cpu : list cpu;             (* cpus *)
  k_me : nat;                   (* the CPU that executes *)
  k_ticks : Z;
  k_kpgdir : Z;
  k_first : bool;               (* [first] of [forkret] *)
  k_outw : list (Z * Z);        (* words written to I/O ports, newest first *)
  k_cons : console
}.

Definition set_kmem (v : pmem) (x : kst) : kst :=
  {| k_mem := v; k_fs := k_fs x; k_file := k_file x; k_pipe := k_pipe x;
     k_proc := k_proc x; k_nextpid := k_nextpid x; k_initproc := k_initproc x;
     k_cpu := k_cpu x; k_me := k_me x; k_ticks := k_ticks x; k_kpgdir := k_kpgdir x;
     k_first := k_first x; k_outw := k_outw x;
     k_cons := k_cons x |}.
Definition set_kfs (v : fsst logst) (x : kst) : kst :=
  {| k_mem := k_mem x; k_fs := v; k_file := k_file x; k_pipe := k_pipe x;
     k_proc := k_proc x; k_nextpid := k_nextpid x; k_initproc := k_initproc x;
     k_cpu := k_cpu x; k_me := k_me x; k_ticks := k_ticks x; k_kpgdir := k_kpgdir x;
     k_first := k_first x; k_outw := k_outw x;
     k_cons := k_cons x |}.
Definition set_kfile (v : list file) (x : kst) : kst :=
  {| k_mem := k_mem x; k_fs := k_fs x; k_file := v; k_pipe := k_pipe x;
     k_proc := k_proc x; k_nextpid := k_nextpid x; k_initproc := k_initproc x;
     k_cpu := k_cpu x; k_me := k_me x; k_ticks := k_ticks x; k_kpgdir := k_kpgdir x;
     k_first := k_first x; k_outw := k_outw x;
     k_cons := k_cons x |}.
Definition set_kpipe (v : gmap Z pipe) (x : kst) : kst :=
  {| k_mem := k_mem x; k_fs := k_fs x; k_file := k_file x; k_pipe := v;
     k_proc := k_proc x; k_nextpid := k_nextpid x; k_initproc := k_initproc x;
     k_cpu := k_cpu x; k_me := k_me x; k_ticks := k_ticks x; k_kpgdir := k_kpgdir x;
     k_first := k_first x; k_outw := k_outw x;
     k_cons := k_cons x |}.
Definition set_kproc (v : list proc) (x : kst) : kst :=
  {| k_mem := k_mem x; k_fs := k_fs x; k_file := k_file x; k_pipe := k_pipe x;
     k_proc := v; k_nextpid := k_nextpid x; k_initproc := k_initproc x;
     k_cpu := k_cpu x; k_me := k_me x; k_ticks := k_ticks x; k_kpgdir := k_kpgdir x;
     k_first := k_first x; k_outw := k_outw x;
     k_cons := k_cons x |}.
Definition set_nextpid (v : Z) (x : kst) : kst :=
  {| k_mem := k_mem x; k_fs := k_fs x; k_file := k_file x; k_pipe := k_pipe x;
     k_proc := k_proc x; k_nextpid := v; k_initproc := k_initproc x; k_cpu := k_cpu x;
     k_me := k_me x; k_ticks := k_ticks x; k_kpgdir := k_kpgdir x;
     k_first := k_first x; k_outw := k_outw x;
     k_cons := k_cons x |}.
Definition set_initproc (v : option nat) (x : kst) : kst :=
  {| k_mem := k_mem x; k_fs := k_fs x; k_file := k_file x; k_pipe := k_pipe x;
     k_proc := k_proc x; k_nextpid := k_nextpid x; k_initproc := v; k_cpu := k_cpu x;
     k_me := k_me x; k_ticks := k_ticks x; k_kpgdir := k_kpgdir x;
     k_first := k_first x; k_outw := k_outw x;
     k_cons := k_cons x |}.
Definition set_kcpu (v : list cpu) (x : kst) : kst :=
  {| k_mem := k_mem x; k_fs := k_fs x; k_file := k_file x; k_pipe := k_pipe x;
     k_proc := k_proc x; k_nextpid := k_nextpid x; k_initproc := k_initproc x;
     k_cpu := v; k_me := k_me x; k_ticks := k_ticks x; k_kpgdir := k_kpgdir x;
     k_first := k_first x; k_outw := k_outw x;
     k_cons := k_cons x |}.
Definition set_me (v : nat) (x : kst) : kst :=
  {| k_mem := k_mem x; k_fs := k_fs x; k_file := k_file x; k_pipe := k_pipe x;
     k_proc := k_proc x; k_nextpid := k_nextpid x; k_initproc := k_initproc x;
     k_cpu := k_cpu x; k_me := v; k_ticks := k_ticks x; k_kpgdir := k_kpgdir x;
     k_first := k_first x; k_outw := k_outw x;
     k_cons := k_cons x |}.
Definition set_ticks (v : Z) (x : kst) : kst :=
  {| k_mem := k_mem x; k_fs := k_fs x; k_file := k_file x; k_pipe := k_pipe x;
     k_proc := k_proc x; k_nextpid := k_nextpid x; k_initproc := k_initproc x;
     k_cpu := k_cpu x; k_me := k_me x; k_ticks := v; k_kpgdir := k_kpgdir x;
     k_first := k_first x; k_outw := k_outw x;
     k_cons := k_cons x |}.
Definition set_kpgdir (v : Z) (x : kst) : kst :=
  {| k_mem := k_mem x; k_fs := k_fs x; k_file := k_file x; k_pipe := k_pipe x;
     k_proc := k_proc x; k_nextpid := k_nextpid x; k_initproc := k_initproc x;
     k_cpu := k_cpu x; k_me := k_me x; k_ticks := k_ticks x; k_kpgdir := v;
     k_first := k_first x; k_outw := k_outw x;
     k_cons := k_cons x |}.
Definition set_first (v : bool) (x : kst) : kst :=
  {| k_mem := k_mem x; k_fs := k_fs x; k_file := k_file x; k_pipe := k_pipe x;
     k_proc := k_proc x; k_nextpid := k_nextpid x; k_initproc := k_initproc x;
     k_cpu := k_cpu x; k_me := k_me x; k_ticks := k_ticks x; k_kpgdir := k_kpgdir x;
     k_first := v; k_outw := k_outw x;
     k_cons := k_cons x |}.
Definition set_outw (v : list (Z * Z)) (x : kst) : kst :=
  {| k_mem := k_mem x; k_fs := k_fs x; k_file := k_file x; k_pipe := k_pipe x;
     k_proc := k_proc x; k_nextpid := k_nextpid x; k_initproc := k_initproc x;
     k_cpu := k_cpu x; k_me := k_me x; k_ticks := k_ticks x; k_kpgdir := k_kpgdir x;
     k_first := k_first x; k_outw := v; k_cons := k_cons x |}.
Definition set_kcons (v : console) (x : kst) : kst :=
  {| k_mem := k_mem x; k_fs := k_fs x; k_file := k_file x; k_pipe := k_pipe x;
     k_proc := k_proc x; k_nextpid := k_nextpid x; k_initproc := k_initproc x;
     k_cpu := k_cpu x; k_me := k_me x; k_ticks := k_ticks x; k_kpgdir := k_kpgdir x;
     k_first := k_first x; k_outw := k_outw x; k_cons := v |}.

(** ** Running the code of the components *)

Definition kmem {A} (c : M pmem A) : M kst A := zoom k_mem set_kmem c.
Definition kcons {A} (c : M console A) : M kst A := zoom k_cons set_kcons c.

(** The running process: [myproc()], and its index where the code
    dereferences the pointer. *)
Definition cur_of (s : kst) : option nat := c_proc (k_cpu s !!! k_me s).
Definition myproc : M kst (option nat) := gets cur_of.
Definition curproc : M kst nat :=
  let! p := myproc in
  match p with Some i => ret i | None => fault end.

Definition pat (s : kst) (i : nat) : proc := k_proc s !!! i.
Definition pupd (i : nat) (f : proc -> proc) : M kst unit :=
  modify (fun s => set_kproc (alter f i (k_proc s)) s).
Definition cupd (f : cpu -> cpu) : M kst unit :=
  modify (fun s => set_kcpu (alter f (k_me s) (k_cpu s)) s).
Definition fat (s : kst) (i : nat) : file := k_file s !!! i.
Definition fileupd (i : nat) (f : file -> file) : M kst unit :=
  modify (fun s => set_kfile (alter f i (k_file s)) s).

(** The file system run by the current process: sleep locks record its pid. *)
Definition cur_pid (s : kst) : Z :=
  match cur_of s with Some i => p_pid (pat s i) | None => 0 end.
Definition as_pid (pid : Z) (f : fsst logst) : fsst logst :=
  let l := fs_b f in
  {| fs_b := set_lb {| bufs := bufs (lb l); disk := disk (lb l); hist := hist (lb l);
                       cur := pid |} l;
     fs_sb := fs_sb f; icache := icache f; fs_pid := pid |}.
Definition kfs {A} (c : M (fsst logst) A) : M kst A :=
  zoom (fun s => as_pid (cur_pid s) (k_fs s)) set_kfs c.

Definition kbegin_op : M kst unit := kfs (dio Log.begin_op).
Definition kend_op : M kst unit := kfs (dio Log.end_op).

(** ** Memory of the running process

    The address translation of the hardware: the frame byte a virtual address
    is mapped to.  The kernel reads and writes user memory through the page
    table of the process; an address that is not mapped is a fault. *)

Definition translate (m : mem) (pgdir va : Z) : option Z :=
  let pde := ld32 m (u32 (pgdir + 4 * PDX va)) in
  if has pde PTE_P then
    let pte := ld32 m (u32 (P2V (PTE_ADDR pde) + 4 * PTX va)) in
    if has pte PTE_P then Some (P2V (PTE_ADDR pte) + va mod PGSIZE) else None
  else None.

Definition uload8 (va : Z) : M kst Z :=
  let! i := curproc in
  let! s := get in
  match translate (pm_mem (k_mem s)) (p_pgdir (pat s i)) va with
  | Some a => ret (ld8 (pm_mem (k_mem s)) a)
  | None => fault
  end.

Fixpoint uload (va : Z) (n : nat) : M kst (list Z) :=
  match n with
  | O => ret []
  | S n =>
      let! b := uload8 va in
      let! bs := uload (u32 (va + 1)) n in
      ret (b :: bs)
  end.

Definition uload32 (va : Z) : M kst Z :=
  let! bs := uload va 4 in ret (of_le bs).

Fixpoint ustore (va : Z) (bs : list Z) : M kst unit :=
  match bs with
  | [] => ret tt
  | b :: bs =>
      let! i := curproc in
      let! s := get in
      match translate (pm_mem (k_mem s)) (p_pgdir (pat s i)) va with
      | Some a =>
          do! kmem (modify (fun pm => set_mem (st8 (pm_mem pm) a b) pm)) in
          ustore (u32 (va + 1)) bs
      | None => fault
      end
  end.

(** ** Trap frames (x86.h): offsets of the fields *)

Definition TF_EAX : Z := 28.
Definition TF_ES : Z := 40.
Definition TF_DS : Z := 44.
Definition TF_TRAPNO : Z := 48.
Definition TF_ERR : Z := 52.
Definition TF_EIP : Z := 56.
Definition TF_CS : Z := 60.
Definition TF_EFLAGS : Z := 64.
Definition TF_ESP : Z := 68.
Definition TF_SS : Z := 72.
Definition sizeof_trapframe : Z := 76.
Definition sizeof_context : Z := 20.
Definition CX_EIP : Z := 16.

Definition st16 (m : mem) (a v : Z) : mem := st8 (st8 m a v) (a + 1) (v / 2 ^ 8).
Definition kload (a : Z) : M kst Z := kmem (load a).
Definition kstore (a v : Z) : M kst unit := kmem (store a v).
Definition kstore16 (a v : Z) : M kst unit :=
  kmem (modify (fun pm => set_mem (st16 (pm_mem pm) a v) pm)).
