(* ===== verification/Proc.v ===== *)
(** * Processes: the process table and the scheduler (proc.c)

    Each operation is one atomic step of the CPU [k_me], bracketed in the code
    by [ptable.lock].  Entering the scheduler ends a step: [sched] hands the
    CPU to the scheduler, and [scheduler] runs its scan of the table from the
    position it was left at up to the next process it switches to.  A process
    that slept clears its channel when it is resumed ([sleep_return]). *)

From S2P Require Import Prelude Param Memory Kalloc Vm Fs Kernel.

(** Addresses of the assembly entry points, chosen by the linker. *)
Class Entry := { trapret : Z; forkret_entry : Z }.

Section Proc.
Context `{I : Image} `{E : Entry}.

Definition in_state (st : procstate) (p : proc) : bool := bool_decide (p_state p = st).

Definition allocproc : M kst (option nat) :=
  let! s := get in
  match find_idx (in_state UNUSED) (k_proc s) with
  | None => ret None
  | Some i =>
      do! pupd i (set_state EMBRYO) in
      do! pupd i (set_pid (k_nextpid s)) in
      do! (if k_nextpid s =? 2 ^ 31 - 1 then fault
           else modify (set_nextpid (k_nextpid s + 1))) in
      do! pupd i (set_priority 10) in
      let! k := kmem kalloc in
      do! pupd i (set_kstack k) in
      if k =? 0 then
        do! pupd i (set_state UNUSED) in
        ret None
      else
        let sp := k + KSTACKSIZE in
        let sp := sp - sizeof_trapframe in
        do! pupd i (set_tf sp) in
        let sp := sp - 4 in
        do! kstore sp trapret in
        let sp := sp - sizeof_context in
        do! pupd i (set_context sp) in
        do! kmem (mset sp 0 sizeof_context) in
        do! kstore (sp + CX_EIP) forkret_entry in
        ret (Some i)
  end.

(** ** Switching address spaces (vm.c) *)

(** The task state and page table register are the CPU's [c_esp0] and
    [c_cr3]; the segment descriptors are in Seg. *)
Definition switchuvm (p : option nat) : M kst unit :=
  match p with
  | None => panic "switchuvm: no process"
  | Some i =>
      let! s := get in
      if p_kstack (pat s i) =? 0 then panic "switchuvm: no kstack"
      else if p_pgdir (pat s i) =? 0 then panic "switchuvm: no pgdir"
      else
        do! cupd (set_esp0 (u32 (p_kstack (pat s i) + KSTACKSIZE))) in
        cupd (set_cr3 (V2P (p_pgdir (pat s i))))
  end.

Definition switchkvm : M kst unit :=
  let! s := get in cupd (set_cr3 (V2P (k_kpgdir s))).

Definition kvmalloc : M kst unit :=
  let! pg := kmem setupkvm in
  do! modify (set_kpgdir pg) in
  switchkvm.

(** Return values 0 and -1. *)
Definition growproc (n : Z) : M kst Z :=
  let! i := curproc in
  let! s := get in
  let sz := p_sz (pat s i) in
  let pg := p_pgdir (pat s i) in
  let! r := (if 0 <? n then
               let! sz' := kmem (allocuvm pg sz (u32 (sz + n))) in
               ret (if sz' =? 0 then None else Some sz')
             else if n <? 0 then
               let! sz' := kmem (deallocuvm pg sz (u32 (sz + n))) in
               ret (if sz' =? 0 then None else Some sz')
             else ret (Some sz)) in
  match r with
  | None => ret (-1)
  | Some sz =>
      do! pupd i (set_sz sz) in
      do! switchuvm (Some i) in
      ret 0
  end.

(** ** The scheduler *)

Definition is_highest (ps : list proc) (p : proc) : bool :=
  negb (existsb (fun p1 => in_state RUNNABLE p1 && (p_priority p <? p_priority p1)) ps).

(** The next process of the scan from [pos] that is switched to. *)
Definition sched_next (ps : list proc) (pos : nat) : option nat :=
  Nat.add pos <$> find_idx (fun p => in_state RUNNABLE p && is_highest ps p) (drop pos ps).

(** The scan from [c_pos] to the next [swtch] ([true]) or to the end of the
    table, where [ptable.lock] is released for a new round ([false]). *)
Definition scheduler : M kst bool :=
  let! s := get in
  match sched_next (k_proc s) (c_pos (k_cpu s !!! k_me s)) with
  | Some i =>
      do! cupd (set_cproc (Some i)) in
      do! switchuvm (Some i) in
      do! pupd i (set_state RUNNING) in
      do! cupd (set_cpos (S i)) in
      ret true
  | None =>
      do! cupd (set_cpos 0) in
      ret false
  end.

(** After the [swtch] back: [switchkvm(); c->proc = 0]. *)
Definition scheduler_return : M kst unit :=
  do! switchkvm in cupd (set_cproc None).

(** The checks of [sched] that [ptable.lock] is held once and interrupts are
    off are not part of a step: a step holds the lock from its [acquire] to the
    [swtch], and the locks and [ncli] are the state of Spinlock. *)
Definition sched : M kst unit :=
  let! i := curproc in
  let! s := get in
  if in_state RUNNING (pat s i) then panic "sched running"
  else scheduler_return.

Definition yield : M kst unit :=
  let! i := curproc in
  do! pupd i (set_state RUNNABLE) in
  sched.

(** ** Sleep and wakeup *)

Definition sleep (c : channel) (lk : Z) : M kst unit :=
  let! p := myproc in
  match p with
  | None => panic "sleep"
  | Some i =>
      if lk =? 0 then panic "sleep without lk"
      else
        do! pupd i (set_chan c) in
        do! pupd i (set_state SLEEPING) in
        sched
  end.

Definition sleep_return : M kst unit :=
  let! i := curproc in pupd i (set_chan ChNull).

Definition wake (c : channel) (p : proc) : proc :=
  if in_state SLEEPING p && bool_decide (p_chan p = c) then set_state RUNNABLE p else p.

Definition wakeup1 (c : channel) : M kst unit :=
  modify (fun s => set_kproc (wake c <$> k_proc s) s).

Definition wakeup (c : channel) : M kst unit := wakeup1 c.

(** ** Operations on a process by pid *)

Definition kill (pid : Z) : M kst Z :=
  let! s := get in
  match find_idx (fun p => p_pid p =? pid) (k_proc s) with
  | Some i =>
      do! pupd i (set_killed true) in
      do! pupd i (fun p => if in_state SLEEPING p then set_state RUNNABLE p else p) in
      ret 0
  | None => ret (-1)
  end.

Definition setpriority (pid priority : Z) : M kst Z :=
  let! s := get in
  match find_idx (fun p => p_pid p =? pid) (k_proc s) with
  | Some i => do! pupd i (set_priority priority) in ret 0
  | None => ret (-1)
  end.

(** ** The process listing *)

Definition state_name (st : procstate) : string :=
  match st with
  | UNUSED => "unused" | EMBRYO => "embryo" | SLEEPING => "sleep "
  | RUNNABLE => "runble" | RUNNING => "run   " | ZOMBIE => "zombie"
  end.

(** [getcallerpcs] (spinlock.c): the return addresses on the stack, from the
    frame pointer [ebp]; [n] entries are left. *)
Fixpoint callerpcs (m : mem) (ebp : Z) (n : nat) : list Z :=
  match n with
  | O => []
  | S k =>
      if (ebp =? 0) || (ebp <? KERNBASE) || (ebp =? 2 ^ 32 - 1) then replicate n 0
      else ld32 m (u32 (ebp + 4)) :: callerpcs m (ld32 m ebp) k
  end.
Definition getcallerpcs (m : mem) (v : Z) : list Z := callerpcs m (u32 (v - 8)) 10.

Fixpoint nonzero_prefix (l : list Z) : list Z :=
  match l with
  | [] => []
  | x :: l => if x =? 0 then [] else x :: nonzero_prefix l
  end.

(** The lines printed: pid, state, name and the stack of a sleeping process. *)
Definition procdump (s : kst) : list (Z * string * list Z * list Z) :=
  (fun p =>
     (p_pid p, state_name (p_state p), p_name p,
      if in_state SLEEPING p then
        let m := pm_mem (k_mem s) in
        let ebp := ld32 m (u32 (p_context p + 12)) in
        nonzero_prefix (getcallerpcs m (u32 (ebp + 8)))
      else []))
  <$> filter (fun p => p_state p <> UNUSED) (k_proc s).

End Proc.
