(* ===== verification/Console.v ===== *)
(** * The console (console.c), keyboard (kbd.c) and serial port (uart.c)

    The devices are part of [console]: a byte read from the keyboard's or the
    serial port's data register is taken from the bytes received, whose
    presence the status register shows, and the cursor registers of the
    screen hold 16 bits.  [cons.lock] makes the operations atomic up to the
    point where a reader sleeps. *)

From S2P Require Import Prelude Param Bytes Memory Kalloc Vm Sleeplock Bio Log Blocks.
From S2P Require Import LogBlocks Fs Kernel Proc.

Definition BACKSPACE : Z := 256.
Definition INPUT_BUF : Z := 128.
(** [C('x')], for the code of 'x' *)
Definition C (x : Z) : Z := x - 64.

(** ** The serial port *)

(** The wait for the transmitter is bounded, and the byte is sent in any case. *)
Definition uartputc (c : Z) : M console unit :=
  let! s := get in
  if negb (uart s) then ret tt else modify (set_tx (uart_tx s ++ [u8 c])).

Definition uartgetc : M console Z :=
  let! s := get in
  if negb (uart s) then ret (-1)
  else
    match uart_rx s with
    | [] => ret (-1)
    | c :: rx => do! modify (set_rx rx) in ret c
    end.

(** ** The screen *)

(** [crt[i] = v]; a store past the screen is outside the model. *)
Definition crt_store (i v : Z) : M console unit :=
  let! s := get in
  if (0 <=? i) && (i <? Z.of_nat (length (crt s)))
  then modify (set_crt (<[Z.to_nat i := v]> (crt s)))
  else fault.

(** [memmove(crt, crt+80, sizeof(crt[0])*23*80)] *)
Definition scroll_up (l : list Z) : list Z :=
  take (23 * 80) (drop 80 l) ++ drop (23 * 80) l.
(** [memset(crt+pos, 0, sizeof(crt[0])*(24*80 - pos))] *)
Definition clear_from (pos : Z) (l : list Z) : list Z :=
  take (Z.to_nat pos) l ++ replicate (Z.to_nat (24 * 80 - pos)) 0 ++ drop (24 * 80) l.

Definition cgaputc (c : Z) : M console unit :=
  let! s := get in
  let pos := Z.lor (Z.shiftl (u8 (Z.shiftr (crt_pos s) 8)) 8) (u8 (crt_pos s)) in
  let! pos :=
    (if c =? 10 then ret (pos + (80 - pos mod 80))
     else if c =? BACKSPACE then ret (if 0 <? pos then pos - 1 else pos)
     else
       do! crt_store pos (Z.lor (Z.land c 255) 1792) in
       ret (pos + 1)) in
  if (pos <? 0) || (25 * 80 <? pos) then panic "pos under/overflow"
  else
    let! pos :=
      (if 24 <=? pos / 80 then
         do! modify (fun s => set_crt (scroll_up (crt s)) s) in
         let pos := pos - 80 in
         do! modify (fun s => set_crt (clear_from pos (crt s)) s) in
         ret pos
       else ret pos) in
    do! modify (set_crtpos (u16 pos)) in
    crt_store pos (Z.lor 32 1792).

Definition consputc (c : Z) : M console unit :=
  do! (if c =? BACKSPACE then
         do! uartputc 8 in do! uartputc 32 in uartputc 8
       else uartputc c) in
  cgaputc c.

(** ** Formatted output *)

Fixpoint putall (l : list Z) : M console unit :=
  match l with
  | [] => ret tt
  | c :: l => do! consputc c in putall l
  end.

(** The character of a digit, [digits[d]]. *)
Definition digit (d : Z) : Z := if d <? 10 then 48 + d else 87 + d.

(** The digits of [x], least significant first: the [do]-[while] loop; 32
    rounds are enough for 32 bits. *)
Fixpoint digits_of (fuel : nat) (x base : Z) : list Z :=
  match fuel with
  | O => []
  | S f => digit (x mod base) :: (if x / base =? 0 then [] else digits_of f (x / base) base)
  end.

(** The characters [printint] puts, in order. *)
Definition int_chars (xx base : Z) (sign : bool) : list Z :=
  let neg := sign && (xx <? 0) in
  let x := if neg then u32 (- xx) else u32 xx in
  rev (digits_of 32 x base ++ if neg then [45] else []).

Definition printint (xx base : Z) (sign : bool) : M console unit :=
  putall (int_chars xx base sign).

(** The arguments of [cprintf]; a string pointer may be null. *)
Inductive carg := CNum (v : Z) | CStr (s : option (list Z)).

Definition null_str : list Z := [40; 110; 117; 108; 108; 41].

(** [fmt] without its final NUL; an argument missing or of the wrong kind is
    a fault. *)
Fixpoint cprintf (fmt : list Z) (args : list carg) : M console unit :=
  match fmt with
  | [] => ret tt
  | c :: fmt =>
      if negb (c =? 37) then do! consputc c in cprintf fmt args
      else
        match fmt with
        | [] => ret tt
        | c :: fmt =>
            if c =? 100 then
              match args with
              | CNum v :: args => do! printint (s32 v) 10 true in cprintf fmt args
              | _ => fault
              end
            else if (c =? 120) || (c =? 112) then
              match args with
              | CNum v :: args => do! printint (s32 v) 16 false in cprintf fmt args
              | _ => fault
              end
            else if c =? 115 then
              match args with
              | CStr s :: args =>
                  do! putall (match s with Some l => l | None => null_str end) in
                  cprintf fmt args
              | _ => fault
              end
            else if c =? 37 then do! consputc 37 in cprintf fmt args
            else do! consputc 37 in do! consputc c in cprintf fmt args
        end
  end.

(** The characters of a string constant. *)
Definition chars (s : string) : list Z :=
  Z.of_N ∘ Ascii.N_of_ascii <$> String.list_ascii_of_string s.

(** ** The keyboard *)

Definition SHIFT : Z := 1.
Definition CTL : Z := 2.
Definition ALT : Z := 4.
Definition CAPSLOCK : Z := 8.
Definition NUMLOCK : Z := 16.
Definition SCROLLLOCK : Z := 32.
Definition E0ESC : Z := 64.

(** A table of 256 bytes: the leading entries and those with a designator. *)
Definition table (l : list Z) (des : list (Z * Z)) (i : Z) : Z :=
  match find (fun d => d.1 =? i) des with
  | Some d => d.2
  | None => match l !! Z.to_nat i with Some v => v | None => 0 end
  end.

Definition shiftcode : Z -> Z :=
  table [] [(29, CTL); (42, SHIFT); (54, SHIFT); (56, ALT); (157, CTL); (184, ALT)].
Definition togglecode : Z -> Z :=
  table [] [(58, CAPSLOCK); (69, NUMLOCK); (70, SCROLLLOCK)].

(** The designated entries of the three maps; the first two differ. *)
Definition keypad (enter div : Z) : list (Z * Z) :=
  [(156, enter); (181, div); (200, 226); (208, 227); (201, 230); (209, 231); (203, 228);
   (205, 229); (151, 224); (207, 225); (210, 232); (211, 233)].

Definition normalmap : Z -> Z :=
  table ([0; 27] ++ chars "1234567890-=" ++ [8; 9] ++ chars "qwertyuiop[]" ++ [10; 0]
         ++ chars "asdfghjkl;'`" ++ [0] ++ chars "\zxcvbnm,./" ++ [0] ++ chars "*" ++ [0]
         ++ chars " " ++ replicate 13 0 ++ chars "789-456+1230.") (keypad 10 47).
Definition shiftmap : Z -> Z :=
  table ([0; 27] ++ chars "!@#$%^&*()_+" ++ [8; 9] ++ chars "QWERTYUIOP{}" ++ [10; 0]
         ++ chars "ASDFGHJKL:" ++ [34] ++ chars "~" ++ [0] ++ chars "|ZXCVBNM<>?" ++ [0]
         ++ chars "*" ++ [0] ++ chars " " ++ replicate 13 0 ++ chars "789-456+1230.")
        (keypad 10 47).
Definition ctlmap : Z -> Z :=
  table (replicate 16 0 ++ (C <$> chars "QWERTYUIOP") ++ [0; 0; 13; 0]
         ++ (C <$> chars "ASDFGHJKL") ++ [0; 0; 0; 0] ++ (C <$> chars "\ZXCVBNM")
         ++ [0; 0; u8 (C 47); 0; 0]) (keypad 13 (u8 (C 47))).

Definition charcode (sel data : Z) : Z :=
  if sel =? 0 then normalmap data else if sel =? 1 then shiftmap data else ctlmap data.

(** The character of key [data] under the modifiers [shift]. *)
Definition key_char (shift data : Z) : Z :=
  let c := charcode (Z.land shift (Z.lor CTL SHIFT)) data in
  if has shift CAPSLOCK then
    if (97 <=? c) && (c <=? 122) then c - 32
    else if (65 <=? c) && (c <=? 90) then c + 32
    else c
  else c.

Definition kbdgetc : M console Z :=
  let! s := get in
  match kbd_in s with
  | [] => ret (-1)
  | data :: rest =>
      do! modify (set_kbdin rest) in
      let shift := kbd_shift s in
      if data =? 224 then
        do! modify (set_kbdshift (Z.lor shift E0ESC)) in
        ret 0
      else if has data 128 then
        let data := if has shift E0ESC then data else Z.land data 127 in
        do! modify (set_kbdshift (Z.land shift (u32 (Z.lnot (Z.lor (shiftcode data) E0ESC))))) in
        ret 0
      else
        let '(data, shift) :=
          if has shift E0ESC then (Z.lor data 128, Z.land shift (u32 (Z.lnot E0ESC)))
          else (data, shift) in
        let shift := Z.lor shift (shiftcode data) in
        let shift := Z.lxor shift (togglecode data) in
        do! modify (set_kbdshift shift) in
        ret (key_char shift data)
  end.

(** ** Input *)

(** [input.buf[i % INPUT_BUF]] *)
Definition in_at (s : console) (i : Z) : Z := in_buf s !!! Z.to_nat (i mod INPUT_BUF).

Definition erase : M console unit :=
  do! modify (fun s => set_ine (u32 (in_e s - 1)) s) in
  consputc BACKSPACE.

(** The loop of Control-U; the buffer bounds its rounds. *)
Fixpoint kill_line (fuel : nat) : M console unit :=
  let! s := get in
  if negb (in_e s =? in_w s) && negb (in_at s (u32 (in_e s - 1)) =? 10) then
    match fuel with
    | O => out_of_fuel
    | S f => do! erase in kill_line f
    end
  else ret tt.

(** One character from the device: [true] if the reader is to be woken up. *)
Definition input_char (c : Z) : M console bool :=
  if c =? C 80 then ret false
  else if c =? C 85 then do! kill_line (Z.to_nat INPUT_BUF) in ret false
  else if (c =? C 72) || (c =? 127) then
    let! s := get in
    do! (if negb (in_e s =? in_w s) then erase else ret tt) in
    ret false
  else
    let! s := get in
    if negb (c =? 0) && (u32 (in_e s - in_r s) <? INPUT_BUF) then
      let c := if c =? 13 then 10 else c in
      do! modify (set_inbuf (<[Z.to_nat (in_e s mod INPUT_BUF) := u8 c]> (in_buf s))) in
      do! modify (set_ine (u32 (in_e s + 1))) in
      do! consputc c in
      let! s := get in
      if (c =? 10) || (c =? C 68) || (in_e s =? u32 (in_r s + INPUT_BUF)) then
        do! modify (set_inw (in_e s)) in
        ret true
      else ret false
    else ret false.

(** [&input.r]: the address readers of the console sleep on *)
Definition ChInput : channel := ChAddr 0.

Section Console.
Context `{I : Image}.

(** The lines of [procdump] on the console. *)
Fixpoint print_pcs (pcs : list Z) : M console unit :=
  match pcs with
  | [] => cprintf [10] []
  | pc :: pcs => do! cprintf (chars " %p") [CNum pc] in print_pcs pcs
  end.

Fixpoint print_procs (ps : list (Z * string * list Z * list Z)) : M console unit :=
  match ps with
  | [] => ret tt
  | (pid, st, name, pcs) :: ps =>
      do! cprintf (chars "%d %s %s")
            [CNum pid; CStr (Some (chars st)); CStr (Some (nonzero_prefix name))] in
      do! print_pcs pcs in
      print_procs ps
  end.

(** The loop of [consoleintr]: the value of [doprocdump] at its end. *)
Fixpoint consoleintr_loop (fuel : nat) (getc : M console Z) (dump : bool) : M kst bool :=
  match fuel with
  | O => out_of_fuel
  | S f =>
      let! c := kcons getc in
      if c <? 0 then ret dump
      else
        let! wk := kcons (input_char c) in
        do! (if wk then wakeup ChInput else ret tt) in
        consoleintr_loop f getc (dump || (c =? C 80))
  end.

(** The rounds are those with a byte to read. *)
Definition consoleintr (getc : M console Z) : M kst unit :=
  let! s := get in
  let fuel := S (length (kbd_in (k_cons s)) + length (uart_rx (k_cons s))) in
  let! dump := consoleintr_loop fuel getc false in
  if dump then let! s := get in kcons (print_procs (procdump s)) else ret tt.

Definition kbdintr : M kst unit := consoleintr kbdgetc.
Definition uartintr : M kst unit := consoleintr uartgetc.

(** ** Reading and writing the console

    A read that sleeps keeps the count left and the bytes it has stored. *)
Inductive cread := CDone (r : Z) (bs : list Z) | CSleep (n : Z) (bs : list Z).

(** The loop of [consoleread] with [n] bytes left of [target]. *)
Fixpoint consoleread_loop (fuel : nat) (target n : Z) (bs : list Z) : M kst cread :=
  if 0 <? n then
    match fuel with
    | O => out_of_fuel
    | S f =>
        let! s := get in
        let k := k_cons s in
        if in_r k =? in_w k then
          let! i := curproc in
          if p_killed (pat s i) then ret (CDone (-1) bs)
          else
            do! sleep ChInput 1 in
            ret (CSleep n bs)
        else
          let c := in_at k (in_r k) in
          do! kcons (modify (set_inr (u32 (in_r k + 1)))) in
          if c =? C 68 then
            do! (if n <? target then kcons (modify (set_inr (in_r k))) else ret tt) in
            ret (CDone (target - n) bs)
          else if c =? 10 then ret (CDone (target - (n - 1)) (bs ++ [c]))
          else consoleread_loop f target (n - 1) (bs ++ [c])
    end
  else ret (CDone (target - n) bs).

(** The call, and its continuation once the reader has been woken up. *)
Definition consoleread_from (ip : nat) (target n : Z) (bs : list Z) : M kst cread :=
  let! r := consoleread_loop (Z.to_nat n) target n bs in
  match r with
  | CDone v bs => do! kfs (ilock ip) in ret (CDone v bs)
  | CSleep n bs => ret (CSleep n bs)
  end.
Definition consoleread (ip : nat) (n : Z) : M kst cread :=
  do! kfs (iunlock ip) in
  consoleread_from ip n n [].

Definition consolewrite (ip : nat) (buf : list Z) (n : Z) : M kst Z :=
  do! kfs (iunlock ip) in
  do! kcons (putall (take (Z.to_nat n) buf)) in
  do! kfs (ilock ip) in
  ret n.

End Console.
