(* ===== verification/Pipe.v ===== *)
(** * Pipes (pipe.c)

    [p->lock] makes a call atomic up to the point where it sleeps.  A call
    that sleeps returns [Sleeps] with the loop counter it resumes from, and
    the caller runs it again from there once it has been woken up; the bytes
    to write are the caller's buffer. *)

From S2P Require Import Prelude Param Memory Kalloc Vm Fs Kernel Proc.

Definition PIPESIZE : Z := 512.

Inductive outcome (A : Type) :=
| Returns (a : A)
| Sleeps (i : Z).
Arguments Returns {A} _.
Arguments Sleeps {A} _.

Section Pipe.
Context `{I : Image}.

Definition pipe_at (a : Z) : M kst pipe :=
  let! s := get in
  match k_pipe s !! a with Some p => ret p | None => fault end.
Definition pipeupd (a : Z) (f : pipe -> pipe) : M kst unit :=
  modify (fun s => set_kpipe (alter f a (k_pipe s)) s).

Definition pipeclose (a : Z) (writable : bool) : M kst unit :=
  let! p := pipe_at a in
  do! (if writable then
         do! pipeupd a (set_writeopen false) in wakeup (ChNread a)
       else
         do! pipeupd a (set_readopen false) in wakeup (ChNwrite a)) in
  let! p := pipe_at a in
  if negb (readopen p) && negb (writeopen p) then
    do! modify (fun s => set_kpipe (delete a (k_pipe s)) s) in
    kmem (kfree a)
  else ret tt.

(** [p->data[p->nwrite++ % PIPESIZE] = c] *)
Definition put_byte (c : Z) (p : pipe) : pipe :=
  set_nwrite (u32 (nwrite p + 1))
    (set_ppdata (<[Z.to_nat (nwrite p mod PIPESIZE) := c]> (pp_data p)) p).

Fixpoint pipewrite_from (fuel : nat) (a : Z) (src : list Z) (i n : Z)
  : M kst (outcome Z) :=
  if i <? n then
    match fuel with
    | O => out_of_fuel
    | S f =>
        let! p := pipe_at a in
        if nwrite p =? u32 (nread p + PIPESIZE) then
          let! c := curproc in
          let! s := get in
          if negb (readopen p) || p_killed (pat s c) then ret (Returns (-1))
          else
            do! wakeup (ChNread a) in
            do! sleep (ChNwrite a) a in
            ret (Sleeps i)
        else
          do! pipeupd a (put_byte (src !!! Z.to_nat i)) in
          pipewrite_from f a src (i + 1) n
    end
  else
    do! wakeup (ChNread a) in
    ret (Returns n).

Definition pipewrite (a : Z) (src : list Z) (n : Z) : M kst (outcome Z) :=
  pipewrite_from (Z.to_nat n) a src 0 n.

(** The copy loop of [piperead]: the counter at its end and the bytes. *)
Fixpoint piperead_copy (fuel : nat) (a i n : Z) (acc : list Z) : M kst (Z * list Z) :=
  if i <? n then
    match fuel with
    | O => out_of_fuel
    | S f =>
        let! p := pipe_at a in
        if nread p =? nwrite p then ret (i, acc)
        else
          do! pipeupd a (fun p => set_nread (u32 (nread p + 1)) p) in
          piperead_copy f a (i + 1) n
            (acc ++ [pp_data p !!! Z.to_nat (nread p mod PIPESIZE)])
    end
  else ret (i, acc).

Definition piperead (a n : Z) : M kst (outcome (Z * list Z)) :=
  let! p := pipe_at a in
  if (nread p =? nwrite p) && writeopen p then
    let! c := curproc in
    let! s := get in
    if p_killed (pat s c) then ret (Returns (-1, []))
    else
      do! sleep (ChNread a) a in
      ret (Sleeps 0)
  else
    let! r := piperead_copy (Z.to_nat n) a 0 n [] in
    do! wakeup (ChNwrite a) in
    ret (Returns r).

End Pipe.
