(* ===== verification/File.v ===== *)
(** * Open files (file.c, and [pipealloc] of pipe.c)

    A call on a pipe that sleeps passes the outcome of [Pipe] on. *)

From S2P Require Import Prelude Param Memory Kalloc Vm Sleeplock Bio Log Blocks LogBlocks.
From S2P Require Import Fs Kernel Proc Pipe.

Section File.
Context `{I : Image}.
Variable devsw : Z -> device logst.

Definition filealloc : M kst (option nat) :=
  let! s := get in
  match find_idx (fun f => f_ref f =? 0) (k_file s) with
  | Some i => do! fileupd i (set_fref 1) in ret (Some i)
  | None => ret None
  end.

Definition filedup (f : nat) : M kst nat :=
  let! s := get in
  if f_ref (fat s f) <? 1 then panic "filedup"
  else
    do! fileupd f (fun x => set_fref (f_ref x + 1) x) in
    ret f.

Definition fileclose (f : nat) : M kst unit :=
  let! s := get in
  if f_ref (fat s f) <? 1 then panic "fileclose"
  else
    do! fileupd f (fun x => set_fref (f_ref x - 1) x) in
    let! s := get in
    if 0 <? f_ref (fat s f) then ret tt
    else
      let ff := fat s f in
      do! fileupd f (set_fref 0) in
      do! fileupd f (set_ftype FD_NONE) in
      match f_type ff with
      | FD_PIPE => pipeclose (f_pipe ff) (f_writable ff)
      | FD_INODE =>
          do! kbegin_op in
          do! kfs (iput (f_ip ff)) in
          kend_op
      | FD_NONE => ret tt
      end.

(** [None] is the return value -1. *)
Definition filestat (f : nat) : M kst (option stat) :=
  let! s := get in
  match f_type (fat s f) with
  | FD_INODE =>
      let ip := f_ip (fat s f) in
      do! kfs (ilock ip) in
      let! st := kfs (stati ip) in
      do! kfs (iunlock ip) in
      ret (Some st)
  | _ => ret None
  end.

(** The value returned and the bytes stored. *)
Definition fileread (f : nat) (n : Z) : M kst (outcome (Z * list Z)) :=
  let! s := get in
  if negb (f_readable (fat s f)) then ret (Returns (-1, []))
  else
    match f_type (fat s f) with
    | FD_PIPE => piperead (f_pipe (fat s f)) n
    | FD_INODE =>
        let ip := f_ip (fat s f) in
        do! kfs (ilock ip) in
        let! s := get in
        let! (r, bs) := kfs (readi devsw ip (f_off (fat s f)) n) in
        do! (if 0 <? r then fileupd f (fun x => set_foff (u32 (f_off x + r)) x)
             else ret tt) in
        do! kfs (iunlock ip) in
        ret (Returns (r, bs))
    | FD_NONE => panic "fileread"
    end.

(** [int max = ((MAXOPBLOCKS-1-1-2) / 2) * 512] *)
Definition filewrite_max : Z := (MAXOPBLOCKS - 1 - 1 - 2) / 2 * 512.

(** The write loop: the counter [i] when it ends. *)
Fixpoint filewrite_loop (fuel : nat) (f : nat) (src : list Z) (i n : Z) : M kst Z :=
  if i <? n then
    match fuel with
    | O => out_of_fuel
    | S fuel =>
        let n1 := n - i in
        let n1 := if filewrite_max <? n1 then filewrite_max else n1 in
        do! kbegin_op in
        let! s := get in
        let ip := f_ip (fat s f) in
        do! kfs (ilock ip) in
        let! s := get in
        let! r := kfs (writei devsw ip (drop (Z.to_nat i) src) (f_off (fat s f)) n1) in
        do! (if 0 <? r then fileupd f (fun x => set_foff (u32 (f_off x + r)) x)
             else ret tt) in
        do! kfs (iunlock ip) in
        do! kend_op in
        if r <? 0 then ret i
        else if negb (r =? n1) then panic "short filewrite"
        else filewrite_loop fuel f src (i + r) n
    end
  else ret i.

Definition filewrite (f : nat) (src : list Z) (n : Z) : M kst (outcome Z) :=
  let! s := get in
  if negb (f_writable (fat s f)) then ret (Returns (-1))
  else
    match f_type (fat s f) with
    | FD_PIPE => pipewrite (f_pipe (fat s f)) src n
    | FD_INODE =>
        let! i := filewrite_loop (Z.to_nat (n / filewrite_max + 1)) f src 0 n in
        ret (Returns (if i =? n then n else -1))
    | FD_NONE => panic "filewrite"
    end.

(** ** Creating a pipe *)

Definition close_opt (f : option nat) : M kst unit :=
  match f with Some f => fileclose f | None => ret tt end.

(** [None] is -1; the code frees [p] on the error path only if it was
    allocated, which it never is there. *)
Definition pipealloc : M kst (option (nat * nat)) :=
  let! f0 := filealloc in
  let! f1 := (match f0 with Some _ => filealloc | None => ret None end) in
  let! p := (match f1 with Some _ => kmem kalloc | None => ret 0 end) in
  match f0, f1 with
  | Some f0, Some f1 =>
      if p =? 0 then
        do! fileclose f0 in
        do! fileclose f1 in
        ret None
      else
        let! s := get in
        let m := pm_mem (k_mem s) in
        do! modify (set_kpipe (<[p := {| pp_data := (fun k => ld8 m (p + 52 + Z.of_nat k))
                                                    <$> seq 0 512;
                                         nread := 0; nwrite := 0;
                                         readopen := true; writeopen := true |}]>
                                (k_pipe s))) in
        do! fileupd f0 (fun x => set_fpipe p (set_fwritable false
                          (set_freadable true (set_ftype FD_PIPE x)))) in
        do! fileupd f1 (fun x => set_fpipe p (set_fwritable true
                          (set_freadable false (set_ftype FD_PIPE x)))) in
        ret (Some (f0, f1))
  | _, _ =>
      do! close_opt f0 in
      do! close_opt f1 in
      ret None
  end.

End File.
