(* ===== verification/Fork.v ===== *)
(** * Process creation and exit (proc.c)

    [exit] ends in the scheduler; [wait] is one pass of its loop, which
    returns [None] when it sleeps and is run again when the process has been
    woken up. *)

From S2P Require Import Prelude Param Memory Kalloc Vm Sleeplock Bio Log Blocks LogBlocks.
From S2P Require Import Fs Kernel Proc Pipe File.

Section Fork.
Context `{I : Image} `{E : Entry}.
Variable devsw : Z -> device logst.

(** [safestrcpy(p->name, s, sizeof(p->name))] *)
Definition copy_name (s old : list Z) : list Z :=
  let bs := Str.safestrcpy (cstr s) 16 in bs ++ drop (length bs) old.

(** [initcode] is the program the build links into the kernel. *)
Definition userinit (initcode : list Z) : M kst unit :=
  let! p := allocproc in
  do! modify (set_initproc p) in
  match p with
  | None => fault
  | Some i =>
      let! pg := kmem setupkvm in
      do! pupd i (set_pgdir pg) in
      if pg =? 0 then panic "userinit: out of memory?"
      else
        do! kmem (inituvm pg initcode) in
        do! pupd i (set_sz PGSIZE) in
        let! s := get in
        let tf := p_tf (pat s i) in
        let ds := Z.lor (Z.shiftl SEG_UDATA 3) DPL_USER in
        do! kmem (mset tf 0 sizeof_trapframe) in
        do! kstore16 (tf + TF_CS) (Z.lor (Z.shiftl SEG_UCODE 3) DPL_USER) in
        do! kstore16 (tf + TF_DS) ds in
        do! kstore16 (tf + TF_ES) ds in
        do! kstore16 (tf + TF_SS) ds in
        do! kstore (tf + TF_EFLAGS) FL_IF in
        do! kstore (tf + TF_ESP) PGSIZE in
        do! kstore (tf + TF_EIP) 0 in
        do! pupd i (fun p => set_name
              (copy_name [105; 110; 105; 116; 99; 111; 100; 101] (p_name p)) p) in
        let! cwd := kfs (namei devsw 0 [SLASH]) in
        do! pupd i (set_cwd cwd) in
        pupd i (set_state RUNNABLE)
  end.

(** The loop that duplicates the open files of [c] into [n]. *)
Fixpoint fork_files (k : nat) (c n i : nat) : M kst unit :=
  match k with
  | O => ret tt
  | S k =>
      let! s := get in
      do! (match p_ofile (pat s c) !!! i with
           | Some f =>
               let! f := filedup f in
               pupd n (fun p => set_ofile (<[i := Some f]> (p_ofile p)) p)
           | None => ret tt
           end) in
      fork_files k c n (S i)
  end.

Definition fork : M kst Z :=
  let! c := curproc in
  let! np := allocproc in
  match np with
  | None => ret (-1)
  | Some n =>
      let! s := get in
      let! pg := kmem (copyuvm (p_pgdir (pat s c)) (p_sz (pat s c))) in
      do! pupd n (set_pgdir pg) in
      let! s := get in
      if pg =? 0 then
        do! kmem (kfree (p_kstack (pat s n))) in
        do! pupd n (set_kstack 0) in
        do! pupd n (set_state UNUSED) in
        ret (-1)
      else
        do! pupd n (set_sz (p_sz (pat s c))) in
        do! pupd n (set_parent (Some c)) in
        do! kmem (mmove (p_tf (pat s n)) (p_tf (pat s c)) sizeof_trapframe) in
        do! kstore (p_tf (pat s n) + TF_EAX) 0 in
        do! fork_files (Z.to_nat NOFILE) c n 0 in
        let! s := get in
        match p_cwd (pat s c) with
        | None => fault
        | Some d =>
            let! d := kfs (idup d) in
            do! pupd n (set_cwd (Some d)) in
            do! pupd n (fun p => set_name (copy_name (p_name (pat s c)) (p_name p)) p) in
            let! s := get in
            let pid := p_pid (pat s n) in
            do! pupd n (set_state RUNNABLE) in
            ret pid
        end
  end.

(** The loop of [exit] that closes the open files. *)
Fixpoint exit_files (k : nat) (c fd : nat) : M kst unit :=
  match k with
  | O => ret tt
  | S k =>
      let! s := get in
      do! (match p_ofile (pat s c) !!! fd with
           | Some f =>
               do! fileclose f in
               pupd c (fun p => set_ofile (<[fd := None]> (p_ofile p)) p)
           | None => ret tt
           end) in
      exit_files k c (S fd)
  end.

Definition chan_of (p : option nat) : channel :=
  match p with Some i => ChProc i | None => ChNull end.

(** The loop of [exit] that passes the children to [initproc]. *)
Fixpoint reparent (k : nat) (c i : nat) : M kst unit :=
  match k with
  | O => ret tt
  | S k =>
      let! s := get in
      do! (if bool_decide (p_parent (pat s i) = Some c) then
             do! pupd i (set_parent (k_initproc s)) in
             if in_state ZOMBIE (pat s i) then wakeup1 (chan_of (k_initproc s))
             else ret tt
           else ret tt) in
      reparent k c (S i)
  end.

Definition exit : M kst unit :=
  let! c := curproc in
  let! s := get in
  if bool_decide (Some c = k_initproc s) then panic "init exiting"
  else
    do! exit_files (Z.to_nat NOFILE) c 0 in
    do! kbegin_op in
    let! s := get in
    do! (match p_cwd (pat s c) with Some d => kfs (iput d) | None => fault end) in
    do! kend_op in
    do! pupd c (set_cwd None) in
    let! s := get in
    do! wakeup1 (chan_of (p_parent (pat s c))) in
    do! reparent (Z.to_nat NPROC) c 0 in
    do! pupd c (set_state ZOMBIE) in
    sched.

Definition child_of (c : nat) (p : proc) : bool := bool_decide (p_parent p = Some c).

Definition wait : M kst (option Z) :=
  let! c := curproc in
  let! s := get in
  match find_idx (fun p => child_of c p && in_state ZOMBIE p) (k_proc s) with
  | Some i =>
      let pid := p_pid (pat s i) in
      do! kmem (kfree (p_kstack (pat s i))) in
      do! pupd i (set_kstack 0) in
      do! kmem (freevm (p_pgdir (pat s i))) in
      do! pupd i (set_pid 0) in
      do! pupd i (set_parent None) in
      do! pupd i (fun p => set_name (<[0%nat := 0]> (p_name p)) p) in
      do! pupd i (set_killed false) in
      do! pupd i (set_state UNUSED) in
      ret (Some pid)
  | None =>
      if negb (existsb (child_of c) (k_proc s)) || p_killed (pat s c)
      then ret (Some (-1))
      else
        do! sleep (ChProc c) 1 in
        ret None
  end.

(** [forkret]: the first process to run initialises the file system. *)
Definition forkret : M kst unit :=
  let! s := get in
  if k_first s then
    do! modify (set_first false) in
    do! kfs (iinit ROOTDEV) in
    kfs (dio (initlog ROOTDEV))
  else ret tt.

End Fork.
