(* ===== verification/Syscall.v ===== *)
(** * System call arguments (syscall.c)

    Arguments are read from the user stack through the page table of the
    calling process.  [None] is the return value -1. *)

From S2P Require Import Prelude Param Bytes Memory Kalloc Vm Fs Kernel.

Definition fetchint (addr : Z) : M kst (option Z) :=
  let! i := curproc in
  let! s := get in
  let sz := p_sz (pat s i) in
  if (sz <=? addr) || (sz <? u32 (addr + 4)) then ret None
  else
    let! v := uload32 addr in
    ret (Some (s32 v)).

(** The scan for the NUL from [s] to [ep]. *)
Fixpoint fetchstr_loop (fuel : nat) (s ep : Z) (acc : list Z) : M kst (option (list Z)) :=
  if s <? ep then
    match fuel with
    | O => out_of_fuel
    | S f =>
        let! c := uload8 s in
        if c =? 0 then ret (Some acc) else fetchstr_loop f (s + 1) ep (acc ++ [c])
    end
  else ret None.

(** The string's characters: the pointer stored and, as their number, the
    length returned. *)
Definition fetchstr (addr : Z) : M kst (option (list Z)) :=
  let! i := curproc in
  let! s := get in
  let sz := p_sz (pat s i) in
  if sz <=? addr then ret None
  else fetchstr_loop (Z.to_nat (sz - addr)) addr sz [].

Definition argint (n : Z) : M kst (option Z) :=
  let! i := curproc in
  let! s := get in
  let! esp := kload (u32 (p_tf (pat s i) + TF_ESP)) in
  fetchint (u32 (esp + 4 + 4 * n)).

(** The address stored in [*pp]. *)
Definition argptr (n size : Z) : M kst (option Z) :=
  let! i := curproc in
  let! a := argint n in
  match a with
  | None => ret None
  | Some a =>
      let! s := get in
      let sz := p_sz (pat s i) in
      if (size <? 0) || (sz <=? u32 a) || (sz <? u32 (u32 a + size)) then ret None
      else ret (Some (u32 a))
  end.

Definition argstr (n : Z) : M kst (option (list Z)) :=
  let! a := argint n in
  match a with
  | None => ret None
  | Some a => fetchstr (u32 a)
  end.

(** What a system call does: return a value, sleep with the local state it
    resumes from, or end the process. *)
Inductive sysret :=
| SRet (r : Z)
| SSleep (i : Z)
| SGone.
