(* ===== verification/Sysproc.v ===== *)
(** * Process system calls (sysproc.c) *)

From S2P Require Import Prelude Param Bytes Memory Kalloc Vm Sleeplock Bio Log Blocks.
From S2P Require Import LogBlocks Fs Kernel Proc Pipe File Fork Syscall.

Section Sysproc.
Context `{I : Image} `{E : Entry}.

Definition sys_fork : M kst sysret := let! r := fork in ret (SRet r).

Definition sys_exit : M kst sysret := do! exit in ret SGone.

Definition sys_wait : M kst sysret :=
  let! r := wait in
  match r with Some pid => ret (SRet pid) | None => ret (SSleep 0) end.

Definition sys_kill : M kst sysret :=
  let! a := argint 0 in
  match a with
  | None => ret (SRet (-1))
  | Some pid => let! r := kill pid in ret (SRet r)
  end.

Definition sys_getpid : M kst sysret :=
  let! i := curproc in let! s := get in ret (SRet (p_pid (pat s i))).

Definition sys_getmemsize : M kst sysret :=
  let! i := curproc in let! s := get in ret (SRet (s32 (p_sz (pat s i)))).

Definition sys_getvpages : M kst sysret :=
  let! i := curproc in
  let! s := get in
  ret (SRet (u32 (p_sz (pat s i) + PGSIZE - 1) / PGSIZE)).

(** The loop of [sys_getptentries] over the pages from [a]. *)
Fixpoint count_ptes (fuel : nat) (m : mem) (pgdir a sz : Z) : Z :=
  match fuel with
  | O => 0
  | S f =>
      if a <? sz then
        let pde := ld32 m (u32 (pgdir + 4 * PDX a)) in
        let here :=
          if has pde PTE_P then
            let pgtab := P2V (PTE_ADDR pde) in
            if has (ld32 m (u32 (pgtab + 4 * PTX a))) PTE_P then 1 else 0
          else 0 in
        here + count_ptes f m pgdir (u32 (a + PGSIZE)) sz
      else 0
  end.

Definition sys_getptentries : M kst sysret :=
  let! i := curproc in
  let! s := get in
  let p := pat s i in
  ret (SRet (count_ptes (S (Z.to_nat (p_sz p / PGSIZE))) (pm_mem (k_mem s))
               (p_pgdir p) 0 (p_sz p))).

Definition sys_sbrk : M kst sysret :=
  let! a := argint 0 in
  match a with
  | None => ret (SRet (-1))
  | Some n =>
      let! i := curproc in
      let! s := get in
      let addr := s32 (p_sz (pat s i)) in
      let! r := growproc n in
      if r <? 0 then ret (SRet (-1)) else ret (SRet addr)
  end.

(** The loop of [sys_sleep]; the comparison is unsigned. *)
Definition sleep_until (ticks0 n : Z) : M kst sysret :=
  let! s := get in
  if u32 (k_ticks s - ticks0) <? u32 n then
    let! i := curproc in
    if p_killed (pat s i) then ret (SRet (-1))
    else
      do! sleep ChTicks 1 in
      ret (SSleep ticks0)
  else ret (SRet 0).

Definition sys_sleep : M kst sysret :=
  let! a := argint 0 in
  match a with
  | None => ret (SRet (-1))
  | Some n => let! s := get in sleep_until (k_ticks s) n
  end.

Definition sys_uptime : M kst sysret := let! s := get in ret (SRet (s32 (k_ticks s))).

Definition outw (port data : Z) : M kst unit :=
  modify (fun s => set_outw ((port, data) :: k_outw s) s).

Definition sys_shutdown : M kst sysret :=
  do! outw 45060 8192 in
  do! outw 1540 8192 in
  ret (SRet 0).

Definition sys_setpriority : M kst sysret :=
  let! a := argint 0 in
  match a with
  | None => ret (SRet (-1))
  | Some pid =>
      let! b := argint 1 in
      match b with
      | None => ret (SRet (-1))
      | Some priority => let! r := setpriority pid priority in ret (SRet r)
      end
  end.

End Sysproc.
