(* ===== verification/Sysfile.v ===== *)
(** * File system calls (sysfile.c) *)

From S2P Require Import Prelude Param Bytes Memory Kalloc Vm Sleeplock Bio Log Blocks.
From S2P Require Import LogBlocks Fs Kernel Proc Pipe File Syscall.

Definition O_RDONLY : Z := 0.
Definition O_WRONLY : Z := 1.
Definition O_RDWR : Z := 2.
Definition O_CREATE : Z := 512.

Section Sysfile.
Context `{I : Image}.
Variable devsw : Z -> device logst.

Definition fail : M kst sysret := ret (SRet (-1)).

(** The descriptor and the file. *)
Definition argfd (n : Z) : M kst (option (nat * nat)) :=
  let! a := argint n in
  match a with
  | None => ret None
  | Some fd =>
      let! i := curproc in
      let! s := get in
      if (fd <? 0) || (NOFILE <=? fd) then ret None
      else
        match p_ofile (pat s i) !!! Z.to_nat fd with
        | None => ret None
        | Some f => ret (Some (Z.to_nat fd, f))
        end
  end.

Definition set_fd (i fd : nat) (f : option nat) : M kst unit :=
  pupd i (fun p => set_ofile (<[fd := f]> (p_ofile p)) p).

Definition fdalloc (f : nat) : M kst (option nat) :=
  let! i := curproc in
  let! s := get in
  match find_idx (fun o => bool_decide (o = None)) (p_ofile (pat s i)) with
  | Some fd => do! set_fd i fd (Some f) in ret (Some fd)
  | None => ret None
  end.

Definition sys_dup : M kst sysret :=
  let! a := argfd 0 in
  match a with
  | None => fail
  | Some (_, f) =>
      let! fd := fdalloc f in
      match fd with
      | None => fail
      | Some fd => do! filedup f in ret (SRet (Z.of_nat fd))
      end
  end.

(** The arguments (file, pointer, length) of [read] and [write]. *)
Definition arg_rw : M kst (option (nat * Z * Z)) :=
  let! a := argfd 0 in
  match a with
  | None => ret None
  | Some (_, f) =>
      let! n := argint 2 in
      match n with
      | None => ret None
      | Some n =>
          let! p := argptr 1 n in
          match p with
          | None => ret None
          | Some p => ret (Some (f, p, n))
          end
      end
  end.

Definition sys_read : M kst sysret :=
  let! a := arg_rw in
  match a with
  | None => fail
  | Some (f, p, n) =>
      let! o := fileread devsw f n in
      match o with
      | Returns (r, bs) => do! ustore p bs in ret (SRet r)
      | Sleeps i => ret (SSleep i)
      end
  end.

Definition sys_write : M kst sysret :=
  let! a := arg_rw in
  match a with
  | None => fail
  | Some (f, p, n) =>
      let! src := uload p (Z.to_nat n) in
      let! o := filewrite devsw f src n in
      match o with
      | Returns r => ret (SRet r)
      | Sleeps i => ret (SSleep i)
      end
  end.

Definition sys_close : M kst sysret :=
  let! a := argfd 0 in
  match a with
  | None => fail
  | Some (fd, f) =>
      let! i := curproc in
      do! set_fd i fd None in
      do! fileclose f in
      ret (SRet 0)
  end.

Definition sizeof_stat : Z := 20.

(** The fields of [struct stat] stored at [a]. *)
Definition store_stat (a : Z) (st : stat) : M kst unit :=
  do! ustore a (to_le 2 (u16 (st_type st))) in
  do! ustore (a + 4) (to_le 4 (u32 (st_dev st))) in
  do! ustore (a + 8) (to_le 4 (st_ino st)) in
  do! ustore (a + 12) (to_le 2 (u16 (st_nlink st))) in
  ustore (a + 16) (to_le 4 (st_size st)).

Definition sys_fstat : M kst sysret :=
  let! a := argfd 0 in
  match a with
  | None => fail
  | Some (_, f) =>
      let! p := argptr 1 sizeof_stat in
      match p with
      | None => fail
      | Some p =>
          let! r := filestat f in
          match r with
          | Some st => do! store_stat p st in ret (SRet 0)
          | None => fail
          end
      end
  end.

(** ** Paths of the running process *)

(** [myproc()->cwd], which a path that starts at the root does not use. *)
Definition cwd_for (path : list Z) : M kst nat :=
  if bool_decide (head path = Some SLASH) then ret 0%nat
  else
    let! i := curproc in
    let! s := get in
    match p_cwd (pat s i) with Some d => ret d | None => fault end.

Definition knamei (path : list Z) : M kst (option nat) :=
  let! d := cwd_for path in kfs (namei devsw d path).
Definition knameiparent (path : list Z) : M kst (option nat * list Z) :=
  let! d := cwd_for path in kfs (nameiparent devsw d path).

Definition inode_of (s : kst) (i : nat) : inode := iat (k_fs s) i.
Definition add_nlink (d : Z) (i : nat) : M kst unit :=
  kfs (iupd i (fun ip => set_d (set_nlink (s16 (d_nlink (i_d ip) + d)) (i_d ip)) ip)).

(** ** link and unlink *)

(** [bad:] of [sys_link]. *)
Definition link_bad (ip : nat) : M kst sysret :=
  do! kfs (ilock ip) in
  do! add_nlink (-1) ip in
  do! kfs (iupdate ip) in
  do! kfs (iunlockput ip) in
  do! kend_op in
  fail.

Definition sys_link : M kst sysret :=
  let! old := argstr 0 in
  match old with
  | None => fail
  | Some old =>
  let! new := argstr 1 in
  match new with
  | None => fail
  | Some new =>
      do! kbegin_op in
      let! ip := knamei old in
      match ip with
      | None => do! kend_op in fail
      | Some ip =>
          do! kfs (ilock ip) in
          let! s := get in
          if itype (inode_of s ip) =? T_DIR then
            do! kfs (iunlockput ip) in
            do! kend_op in
            fail
          else
            do! add_nlink 1 ip in
            do! kfs (iupdate ip) in
            do! kfs (iunlock ip) in
            let! (dp, name) := knameiparent new in
            match dp with
            | None => link_bad ip
            | Some dp =>
                do! kfs (ilock dp) in
                let! s := get in
                let! ok :=
                  (if negb (i_dev (inode_of s dp) =? i_dev (inode_of s ip)) then ret false
                   else kfs (dirlink devsw dp name (inum (inode_of s ip)))) in
                do! kfs (iunlockput dp) in
                if ok then
                  do! kfs (iput ip) in
                  do! kend_op in
                  ret (SRet 0)
                else link_bad ip
            end
      end
  end
  end.

Fixpoint isdirempty_loop (fuel : nat) (dp : nat) (off : Z) : M kst bool :=
  let! s := get in
  if off <? isize (inode_of s dp) then
    match fuel with
    | O => out_of_fuel
    | S f =>
        let! (r, de) := kfs (readi devsw dp off sizeof_dirent) in
        if negb (r =? sizeof_dirent) then panic "isdirempty: readi"
        else if negb (de_inum de =? 0) then ret false
        else isdirempty_loop f dp (off + sizeof_dirent)
    end
  else ret true.

Definition isdirempty (dp : nat) : M kst bool :=
  let! s := get in
  isdirempty_loop (Z.to_nat (isize (inode_of s dp) / sizeof_dirent + 1)) dp
    (2 * sizeof_dirent).

Definition DOT : list Z := [46].
Definition DOTDOT : list Z := [46; 46].

(** [bad:] of [sys_unlink]. *)
Definition unlink_bad (dp : nat) : M kst sysret :=
  do! kfs (iunlockput dp) in
  do! kend_op in
  fail.

Definition sys_unlink : M kst sysret :=
  let! path := argstr 0 in
  match path with
  | None => fail
  | Some path =>
      do! kbegin_op in
      let! (dp, name) := knameiparent path in
      match dp with
      | None => do! kend_op in fail
      | Some dp =>
          do! kfs (ilock dp) in
          if (namecmp name DOT =? 0) || (namecmp name DOTDOT =? 0) then unlink_bad dp
          else
            let! r := kfs (dirlookup devsw dp name) in
            match r with
            | None => unlink_bad dp
            | Some (ip, off) =>
                do! kfs (ilock ip) in
                let! s := get in
                if d_nlink (i_d (inode_of s ip)) <? 1 then panic "unlink: nlink < 1"
                else
                  let isdir := itype (inode_of s ip) =? T_DIR in
                  let! busy := (if isdir then
                                  let! e := isdirempty ip in ret (negb e)
                                else ret false) in
                  if busy then
                    do! kfs (iunlockput ip) in
                    unlink_bad dp
                  else
                    let! r := kfs (writei devsw dp
                                (replicate (Z.to_nat sizeof_dirent) 0) off sizeof_dirent) in
                    if negb (r =? sizeof_dirent) then panic "unlink: writei"
                    else
                      do! (if isdir then
                             do! add_nlink (-1) dp in kfs (iupdate dp)
                           else ret tt) in
                      do! kfs (iunlockput dp) in
                      do! add_nlink (-1) ip in
                      do! kfs (iupdate ip) in
                      do! kfs (iunlockput ip) in
                      do! kend_op in
                      ret (SRet 0)
            end
      end
  end.

(** ** Creating and opening files *)

(** The inode returned is locked. *)
Definition create (path : list Z) (type major minor : Z) : M kst (option nat) :=
  let! (dp, name) := knameiparent path in
  match dp with
  | None => ret None
  | Some dp =>
      do! kfs (ilock dp) in
      let! r := kfs (dirlookup devsw dp name) in
      match r with
      | Some (ip, _) =>
          do! kfs (iunlockput dp) in
          do! kfs (ilock ip) in
          let! s := get in
          if (type =? T_FILE) && (itype (inode_of s ip) =? T_FILE) then ret (Some ip)
          else
            do! kfs (iunlockput ip) in
            ret None
      | None =>
          let! s := get in
          let! ip := kfs (ialloc (i_dev (inode_of s dp)) type) in
          do! kfs (ilock ip) in
          do! kfs (iupd ip (fun x => set_d (set_nlink 1 (set_devno major minor (i_d x))) x)) in
          do! kfs (iupdate ip) in
          let! s := get in
          do! (if type =? T_DIR then
                 do! add_nlink 1 dp in
                 do! kfs (iupdate dp) in
                 let! ok1 := kfs (dirlink devsw ip DOT (inum (inode_of s ip))) in
                 let! ok := (if ok1 then
                               kfs (dirlink devsw ip DOTDOT (inum (inode_of s dp)))
                             else ret false) in
                 if ok then ret tt else panic "create dots"
               else ret tt) in
          let! ok := kfs (dirlink devsw dp name (inum (inode_of s ip))) in
          if negb ok then panic "create: dirlink"
          else
            do! kfs (iunlockput dp) in
            ret (Some ip)
      end
  end.

(** The locked inode [sys_open] opens; on failure the transaction is over. *)
Definition open_inode (path : list Z) (omode : Z) : M kst (option nat) :=
  if has omode O_CREATE then
    let! ip := create path T_FILE 0 0 in
    match ip with
    | None => do! kend_op in ret None
    | Some ip => ret (Some ip)
    end
  else
    let! ip := knamei path in
    match ip with
    | None => do! kend_op in ret None
    | Some ip =>
        do! kfs (ilock ip) in
        let! s := get in
        if (itype (inode_of s ip) =? T_DIR) && negb (omode =? O_RDONLY) then
          do! kfs (iunlockput ip) in
          do! kend_op in
          ret None
        else ret (Some ip)
    end.

Definition sys_open : M kst sysret :=
  let! path := argstr 0 in
  match path with
  | None => fail
  | Some path =>
  let! omode := argint 1 in
  match omode with
  | None => fail
  | Some omode =>
      do! kbegin_op in
      let! ip := open_inode path omode in
      match ip with
      | None => fail
      | Some ip =>
          let! f := filealloc in
          let! fd := (match f with Some f => fdalloc f | None => ret None end) in
          match f, fd with
          | Some f, Some fd =>
              do! kfs (iunlock ip) in
              do! kend_op in
              do! fileupd f (set_ftype FD_INODE) in
              do! fileupd f (set_fip ip) in
              do! fileupd f (set_foff 0) in
              do! fileupd f (set_freadable (negb (has omode O_WRONLY))) in
              do! fileupd f (set_fwritable (has omode O_WRONLY || has omode O_RDWR)) in
              ret (SRet (Z.of_nat fd))
          | _, _ =>
              do! close_opt f in
              do! kfs (iunlockput ip) in
              do! kend_op in
              fail
          end
      end
  end
  end.

(** The common end of [sys_mkdir] and [sys_mknod]. *)
Definition made (ip : option nat) : M kst sysret :=
  match ip with
  | None => do! kend_op in fail
  | Some ip =>
      do! kfs (iunlockput ip) in
      do! kend_op in
      ret (SRet 0)
  end.

Definition sys_mkdir : M kst sysret :=
  do! kbegin_op in
  let! path := argstr 0 in
  let! ip := (match path with
              | None => ret None
              | Some path => create path T_DIR 0 0
              end) in
  made ip.

Definition sys_mknod : M kst sysret :=
  do! kbegin_op in
  let! path := argstr 0 in
  let! major := (match path with None => ret None | Some _ => argint 1 end) in
  let! minor := (match major with None => ret None | Some _ => argint 2 end) in
  let! ip := (match path, major, minor with
              | Some path, Some major, Some minor =>
                  create path T_DEV (s16 major) (s16 minor)
              | _, _, _ => ret None
              end) in
  made ip.

Definition sys_chdir : M kst sysret :=
  let! i := curproc in
  do! kbegin_op in
  let! path := argstr 0 in
  let! ip := (match path with None => ret None | Some path => knamei path end) in
  match ip with
  | None => do! kend_op in fail
  | Some ip =>
      do! kfs (ilock ip) in
      let! s := get in
      if negb (itype (inode_of s ip) =? T_DIR) then
        do! kfs (iunlockput ip) in
        do! kend_op in
        fail
      else
        do! kfs (iunlock ip) in
        let! s := get in
        do! (match p_cwd (pat s i) with Some d => kfs (iput d) | None => fault end) in
        do! kend_op in
        do! pupd i (set_cwd (Some ip)) in
        ret (SRet 0)
  end.

(** ** Pipes and statistics *)

Definition sys_pipe : M kst sysret :=
  let! a := argptr 0 8 in
  match a with
  | None => fail
  | Some fdarray =>
      let! r := pipealloc in
      match r with
      | None => fail
      | Some (rf, wf) =>
          let! i := curproc in
          let! fd0 := fdalloc rf in
          let! fd1 := (match fd0 with Some _ => fdalloc wf | None => ret None end) in
          match fd0, fd1 with
          | Some fd0, Some fd1 =>
              do! ustore fdarray (to_le 4 (Z.of_nat fd0)) in
              do! ustore (fdarray + 4) (to_le 4 (Z.of_nat fd1)) in
              ret (SRet 0)
          | _, _ =>
              do! (match fd0 with Some fd0 => set_fd i fd0 None | None => ret tt end) in
              do! fileclose rf in
              do! fileclose wf in
              fail
          end
      end
  end.

Definition sizeof_fsinfo : Z := 16.

Definition sys_getfsinfo : M kst sysret :=
  let! a := argptr 0 sizeof_fsinfo in
  match a with
  | None => fail
  | Some a =>
      let! fi := kfs (get_fs_stats ROOTDEV) in
      do! ustore a (to_le 4 (num_files fi)) in
      do! ustore (a + 4) (to_le 4 (num_dirs fi)) in
      do! ustore (a + 8) (to_le 4 (allocated_inodes fi)) in
      do! ustore (a + 12) (to_le 4 (free_disk_blocks fi)) in
      ret (SRet 0)
  end.

End Sysfile.
