(* ===== verification/Exec.v ===== *)
(** * exec (exec.c, and [loaduvm] of vm.c) *)

From S2P Require Import Prelude Param Bytes Memory Kalloc Vm Sleeplock Bio Log Blocks.
From S2P Require Import LogBlocks Fs Kernel Proc Console Pipe File Fork Syscall Sysfile.

Definition ELF_MAGIC : Z := 1179403647.
Definition ELF_PROG_LOAD : Z := 1.
Definition sizeof_elfhdr : Z := 52.
Definition sizeof_proghdr : Z := 32.

(** The fields of the headers that are used. *)
Record elfhdr := { elf_magic : Z; elf_entry : Z; elf_phoff : Z; elf_phnum : Z }.
Definition elf_of (b : list Z) : elfhdr :=
  {| elf_magic := getn 4 0 b; elf_entry := getn 4 24 b; elf_phoff := getn 4 28 b;
     elf_phnum := getn 2 44 b |}.

Record proghdr := {
  ph_type : Z; ph_off : Z; ph_vaddr : Z; ph_filesz : Z; ph_memsz : Z
}.
Definition ph_of (b : list Z) : proghdr :=
  {| ph_type := getn 4 0 b; ph_off := getn 4 4 b; ph_vaddr := getn 4 8 b;
     ph_filesz := getn 4 16 b; ph_memsz := getn 4 20 b |}.

Section Exec.
Context `{I : Image}.
Variable devsw : Z -> device logst.

(** [true] is 0 and [false] is -1. *)
Fixpoint loaduvm_loop (fuel : nat) (pgdir addr : Z) (ip : nat) (offset sz i : Z)
  : M kst bool :=
  if i <? sz then
    match fuel with
    | O => out_of_fuel
    | S f =>
        let! pte := kmem (walkpgdir pgdir (u32 (addr + i)) false) in
        if pte =? 0 then panic "loaduvm: address should exist"
        else
          let! v := kload pte in
          let pa := PTE_ADDR v in
          let n := if sz - i <? PGSIZE then sz - i else PGSIZE in
          let! (r, bs) := kfs (readi devsw ip (u32 (offset + i)) n) in
          do! kmem (modify (fun pm => set_mem (st_bytes (pm_mem pm) (P2V pa) bs) pm)) in
          if negb (u32 r =? n) then ret false
          else loaduvm_loop f pgdir addr ip offset sz (u32 (i + PGSIZE))
    end
  else ret true.

Definition loaduvm (pgdir addr : Z) (ip : nat) (offset sz : Z) : M kst bool :=
  if negb (addr mod PGSIZE =? 0) then panic "loaduvm: addr must be page aligned"
  else loaduvm_loop (Z.to_nat (sz / PGSIZE + 1)) pgdir addr ip offset sz 0.

(** One program header: the new size, or [None] for [goto bad]. *)
Definition load_segment (pgdir : Z) (ip : nat) (ph : proghdr) (sz : Z)
  : M kst (option Z) :=
  if negb (ph_type ph =? ELF_PROG_LOAD) then ret (Some sz)
  else if ph_memsz ph <? ph_filesz ph then ret None
  else if u32 (ph_vaddr ph + ph_memsz ph) <? ph_vaddr ph then ret None
  else
    let! sz := kmem (allocuvm pgdir sz (u32 (ph_vaddr ph + ph_memsz ph))) in
    if sz =? 0 then ret None
    else if negb (ph_vaddr ph mod PGSIZE =? 0) then ret None
    else
      let! ok := loaduvm pgdir (ph_vaddr ph) ip (ph_off ph) (ph_filesz ph) in
      ret (if ok then Some sz else None).

(** The loop over the program headers; [k] of them are left. *)
Fixpoint exec_load (k : nat) (pgdir : Z) (ip : nat) (off sz : Z) : M kst (option Z) :=
  match k with
  | O => ret (Some sz)
  | S k =>
      let! (r, b) := kfs (readi devsw ip (u32 off) sizeof_proghdr) in
      if negb (r =? sizeof_proghdr) then ret None
      else
        let! r := load_segment pgdir ip (ph_of b) sz in
        match r with
        | None => ret None
        | Some sz => exec_load k pgdir ip (off + sizeof_proghdr) sz
        end
  end.

(** The loop that pushes the argument strings: the stack pointer and the
    addresses of the strings. *)
Fixpoint push_args (pgdir : Z) (argv : list (list Z)) (argc sp : Z) (ustack : list Z)
  : M kst (option (Z * list Z)) :=
  match argv with
  | [] => ret (Some (sp, ustack))
  | s :: argv =>
      if MAXARG <=? argc then ret None
      else
        let len := Z.of_nat (length s) + 1 in
        let sp := Z.land (u32 (sp - len)) (u32 (Z.lnot 3)) in
        let! ok := kmem (copyout pgdir sp (s ++ [0]) len) in
        if ok then push_args pgdir argv (argc + 1) sp (ustack ++ [sp])
        else ret None
  end.

(** The loop that finds the last element of the path. *)
Fixpoint last_elem (last s : list Z) : list Z :=
  match s with
  | [] => last
  | c :: s => last_elem (if c =? SLASH then s else last) s
  end.

(** [bad:] once the inode has been put ([ip] null). *)
Definition exec_bad (pgdir : Z) : M kst Z := do! kmem (freevm pgdir) in ret (-1).

(** [bad:] while the inode is held. *)
Definition exec_bad_ip (pgdir : Z) (ip : nat) : M kst Z :=
  do! (if pgdir =? 0 then ret tt else kmem (freevm pgdir)) in
  do! kfs (iunlockput ip) in
  do! kend_op in
  ret (-1).

(** From the user stack on: the program is in [pgdir] and ends at [sz]. *)
Definition exec_stack (path : list Z) (argv : list (list Z)) (pgdir sz entry : Z)
  : M kst Z :=
  let sz := PGROUNDUP sz in
  let! sz := kmem (allocuvm pgdir sz (u32 (sz + 2 * PGSIZE))) in
  if sz =? 0 then exec_bad pgdir
  else
    do! kmem (clearpteu pgdir (u32 (sz - 2 * PGSIZE))) in
    let! r := push_args pgdir argv 0 sz [] in
    match r with
    | None => exec_bad pgdir
    | Some (sp, args) =>
        let argc := Z.of_nat (length args) in
        let ustack := [2 ^ 32 - 1; argc; u32 (sp - (argc + 1) * 4)] ++ args ++ [0] in
        let len := (3 + argc + 1) * 4 in
        let sp := u32 (sp - len) in
        let! ok := kmem (copyout pgdir sp (ustack ≫= to_le 4) len) in
        if negb ok then exec_bad pgdir
        else
          let! i := curproc in
          do! pupd i (fun p => set_name (copy_name (last_elem path path) (p_name p)) p) in
          let! s := get in
          let oldpgdir := p_pgdir (pat s i) in
          do! pupd i (set_pgdir pgdir) in
          do! pupd i (set_sz sz) in
          do! kstore (u32 (p_tf (pat s i) + TF_EIP)) entry in
          do! kstore (u32 (p_tf (pat s i) + TF_ESP)) sp in
          do! switchuvm (Some i) in
          do! kmem (freevm oldpgdir) in
          ret 0
    end.

Definition exec (path : list Z) (argv : list (list Z)) : M kst Z :=
  do! kbegin_op in
  let! ip := knamei devsw path in
  match ip with
  | None =>
      do! kend_op in
      do! kcons (cprintf (chars "exec: fail" ++ [10]) []) in
      ret (-1)
  | Some ip =>
      do! kfs (ilock ip) in
      let! (r, b) := kfs (readi devsw ip 0 sizeof_elfhdr) in
      if negb (r =? sizeof_elfhdr) then exec_bad_ip 0 ip
      else
        let elf := elf_of b in
        if negb (elf_magic elf =? ELF_MAGIC) then exec_bad_ip 0 ip
        else
          let! pgdir := kmem setupkvm in
          if pgdir =? 0 then exec_bad_ip 0 ip
          else
            let! r := exec_load (Z.to_nat (elf_phnum elf)) pgdir ip (elf_phoff elf) 0 in
            match r with
            | None => exec_bad_ip pgdir ip
            | Some sz =>
                do! kfs (iunlockput ip) in
                do! kend_op in
                exec_stack path argv pgdir sz (elf_entry elf)
            end
  end.

(** ** The system call (sysfile.c) *)

(** The argument strings from index [i]; [None] is -1. *)
Fixpoint exec_args (fuel : nat) (uargv i : Z) : M kst (option (list (list Z))) :=
  if MAXARG <=? i then ret None
  else
    match fuel with
    | O => out_of_fuel
    | S f =>
        let! a := fetchint (u32 (uargv + 4 * i)) in
        match a with
        | None => ret None
        | Some uarg =>
            if uarg =? 0 then ret (Some [])
            else
              let! s := fetchstr (u32 uarg) in
              match s with
              | None => ret None
              | Some s =>
                  let! r := exec_args f uargv (i + 1) in
                  ret (cons s <$> r)
              end
        end
    end.

Definition sys_exec : M kst sysret :=
  let! path := argstr 0 in
  match path with
  | None => fail
  | Some path =>
      let! uargv := argint 1 in
      match uargv with
      | None => fail
      | Some uargv =>
          let! argv := exec_args (Z.to_nat MAXARG) (u32 uargv) 0 in
          match argv with
          | None => fail
          | Some argv => let! r := exec path argv in ret (SRet r)
          end
      end
  end.

End Exec.
