(* ===== verification/Trap.v ===== *)
(** * Traps and the system call table (trap.c, syscall.c)

    The disk of memide.c raises no interrupt.  The trap frame is the address
    [tf], and [cr2] is the register the hardware sets on a page fault. *)

From S2P Require Import Prelude Param Bytes Memory Kalloc Vm Sleeplock Bio Log Blocks.
From S2P Require Import LogBlocks Fs Kernel Proc Console Pipe File Fork Syscall Sysproc Sysfile Exec.

Section Trap.
Context `{I : Image} `{E : Entry}.
Variable devsw : Z -> device logst.

(** The table of syscall.c, with the numbers of syscall.h. *)
Definition syscalls (num : Z) : option (M kst sysret) :=
  match num with
  | 1 => Some sys_fork | 2 => Some sys_exit | 3 => Some sys_wait
  | 4 => Some sys_pipe | 5 => Some (sys_read devsw) | 6 => Some sys_kill
  | 7 => Some (sys_exec devsw) | 8 => Some sys_fstat | 9 => Some (sys_chdir devsw)
  | 10 => Some sys_dup | 11 => Some sys_getpid | 12 => Some sys_sbrk
  | 13 => Some sys_sleep | 14 => Some sys_uptime | 15 => Some (sys_open devsw)
  | 16 => Some (sys_write devsw) | 17 => Some (sys_mknod devsw)
  | 18 => Some (sys_unlink devsw) | 19 => Some (sys_link devsw)
  | 20 => Some (sys_mkdir devsw) | 21 => Some sys_close
  | 22 => Some sys_getmemsize | 23 => Some sys_getvpages
  | 24 => Some sys_getptentries | 25 => Some sys_setpriority
  | 26 => Some sys_shutdown | 27 => Some sys_getfsinfo
  | _ => None
  end.

Definition set_eax (i : nat) (v : Z) : M kst unit :=
  let! s := get in kstore (u32 (p_tf (pat s i) + TF_EAX)) (u32 v).

(** [true] if the call returns to the trap handler. *)
Definition syscall : M kst bool :=
  let! i := curproc in
  let! s := get in
  let! eax := kload (u32 (p_tf (pat s i) + TF_EAX)) in
  match syscalls (s32 eax) with
  | Some f =>
      let! r := f in
      match r with
      | SRet v => do! set_eax i v in ret true
      | _ => ret false
      end
  | None =>
      do! kcons (cprintf (chars "%d %s: unknown sys call %d" ++ [10])
            [CNum (p_pid (pat s i)); CStr (Some (nonzero_prefix (p_name (pat s i))));
             CNum eax]) in
      do! set_eax i (-1) in
      ret true
  end.

(** How a trap ends: back to the interrupted code, in the scheduler after
    [yield], or otherwise in the scheduler. *)
Inductive trapend := Resumes | Yields | Switched.

Definition killed_now : M kst bool :=
  let! p := myproc in
  let! s := get in
  ret (match p with Some i => p_killed (pat s i) | None => false end).

(** [if(myproc() && myproc()->killed && (tf->cs&3) == DPL_USER) exit();] *)
Definition exit_if_killed (cs : Z) : M kst bool :=
  let! k := killed_now in
  if k && (Z.land cs 3 =? DPL_USER) then do! exit in ret true else ret false.

Definition trap_timer : M kst unit :=
  let! s := get in
  if bool_decide (k_me s = 0%nat) then
    do! modify (set_ticks (u32 (k_ticks s + 1))) in
    wakeup ChTicks
  else ret tt.

(** The default case of the [switch]. *)
Definition trap_other (tf cr2 trapno cs : Z) : M kst unit :=
  let! p := myproc in
  let! s := get in
  let cpu := CNum (Z.of_nat (k_me s)) in
  let! eip := kload (u32 (tf + TF_EIP)) in
  match p with
  | Some i =>
      if Z.land cs 3 =? 0 then
        do! kcons (cprintf (chars "unexpected trap %d from cpu %d eip %x (cr2=0x%x)" ++ [10])
              [CNum trapno; cpu; CNum eip; CNum cr2]) in
        panic "trap"
      else
        let! err := kload (u32 (tf + TF_ERR)) in
        do! kcons (cprintf (chars "pid %d %s: trap %d err %d on cpu %d " ++
                            chars "eip 0x%x addr 0x%x--kill proc" ++ [10])
              [CNum (p_pid (pat s i)); CStr (Some (nonzero_prefix (p_name (pat s i))));
               CNum trapno; CNum err; cpu; CNum eip; CNum cr2]) in
        pupd i (set_killed true)
  | None =>
      do! kcons (cprintf (chars "unexpected trap %d from cpu %d eip %x (cr2=0x%x)" ++ [10])
            [CNum trapno; cpu; CNum eip; CNum cr2]) in
      panic "trap"
  end.

(** The [switch] on the trap number. *)
Definition trap_device (tf cr2 trapno cs : Z) : M kst unit :=
  if trapno =? T_IRQ0 + IRQ_TIMER then trap_timer
  else if trapno =? T_IRQ0 + IRQ_IDE then ret tt
  else if trapno =? T_IRQ0 + IRQ_IDE + 1 then ret tt
  else if trapno =? T_IRQ0 + IRQ_KBD then kbdintr
  else if trapno =? T_IRQ0 + IRQ_COM1 then uartintr
  else if (trapno =? T_IRQ0 + 7) || (trapno =? T_IRQ0 + IRQ_SPURIOUS) then
    let! s := get in
    let! eip := kload (u32 (tf + TF_EIP)) in
    kcons (cprintf (chars "cpu%d: spurious interrupt at %x:%x" ++ [10])
      [CNum (Z.of_nat (k_me s)); CNum cs; CNum eip])
  else trap_other tf cr2 trapno cs.

(** The end of [trap], after [yield] has returned. *)
Definition trap_tail (cs : Z) : M kst trapend :=
  let! gone := exit_if_killed cs in
  ret (if gone then Switched else Resumes).

Definition trap (tf cr2 : Z) : M kst trapend :=
  let! trapno := kload (u32 (tf + TF_TRAPNO)) in
  let! csw := kload (u32 (tf + TF_CS)) in
  let cs := u16 csw in
  if trapno =? T_SYSCALL then
    let! i := curproc in
    let! s := get in
    if p_killed (pat s i) then do! exit in ret Switched
    else
      do! pupd i (set_tf tf) in
      let! back := syscall in
      if negb back then ret Switched
      else
        let! s := get in
        if p_killed (pat s i) then do! exit in ret Switched
        else ret Resumes
  else
    do! trap_device tf cr2 trapno cs in
    let! gone := exit_if_killed cs in
    if gone then ret Switched
    else
      let! p := myproc in
      let! s := get in
      match p with
      | Some i =>
          if in_state RUNNING (pat s i) && (trapno =? T_IRQ0 + IRQ_TIMER) then
            do! yield in ret Yields
          else trap_tail cs
      | None => trap_tail cs
      end.

End Trap.
