(* ===== verification/Machine.v ===== *)
(** * The kernel as a transition system

    CPUs take steps in any order.  A step is a pass of the scheduler, a trap,
    or the rest of a trap whose process slept or yielded and has been
    dispatched again; what the process resumes is any of the calls that can
    sleep, with any local state.  [booted] is the state [main] leaves to the
    scheduler. *)

From S2P Require Import Prelude Param Bytes Memory Kalloc Vm Sleeplock Bio Log Blocks.
From S2P Require Import LogBlocks Fs Kernel Proc Console Pipe File Fork Syscall Sysproc.
From S2P Require Import Sysfile Exec Trap.

Section Machine.
Context `{I : Image} `{E : Entry}.
Variable devsw : Z -> device logst.

(** What a process resumes: a system call, from the point where it slept. *)
Inductive cont :=
| KPipewrite (a : Z) (src : list Z) (i n : Z)
| KPiperead (a n p : Z)
| KWait
| KSleep (ticks0 n : Z)
| KConsole (ip : nat) (target n : Z) (bs : list Z) (p : Z).

Definition resume_call (k : cont) : M kst sysret :=
  match k with
  | KPipewrite a src i n =>
      let! o := pipewrite_from (Z.to_nat (n - i)) a src i n in
      match o with Returns r => ret (SRet r) | Sleeps j => ret (SSleep j) end
  | KPiperead a n p =>
      let! o := piperead a n in
      match o with
      | Returns (r, bs) => do! ustore p bs in ret (SRet r)
      | Sleeps j => ret (SSleep j)
      end
  | KWait => sys_wait
  | KSleep t n => sleep_until t n
  | KConsole ip target n bs p =>
      let! o := consoleread_from ip target n bs in
      match o with
      | CDone r bs => do! ustore p bs in ret (SRet r)
      | CSleep j _ => ret (SSleep j)
      end
  end.

(** From [sleep_return] to the end of the trap. *)
Definition resume (k : cont) : M kst trapend :=
  let! i := curproc in
  do! sleep_return in
  let! r := resume_call k in
  match r with
  | SRet v =>
      do! set_eax i v in
      let! s := get in
      if p_killed (pat s i) then do! exit in ret Switched else ret Resumes
  | _ => ret Switched
  end.

(** A step of CPU [c]. *)
Inductive kstep (s s' : kst) : Prop :=
| step_scheduler c b :
    (c < length (k_cpu s))%nat -> cur_of (set_me c s) = None ->
    scheduler (set_me c s) = Ok (b, s') -> kstep s s'
| step_trap c tf cr2 e :
    (c < length (k_cpu s))%nat -> trap devsw tf cr2 (set_me c s) = Ok (e, s') -> kstep s s'
| step_resume c k e :
    (c < length (k_cpu s))%nat -> resume k (set_me c s) = Ok (e, s') -> kstep s s'
| step_yielded c cs e :
    (c < length (k_cpu s))%nat -> trap_tail cs (set_me c s) = Ok (e, s') -> kstep s s'
| step_forkret c :
    (c < length (k_cpu s))%nat -> forkret (set_me c s) = Ok (tt, s') -> kstep s s'.

(** The table is zero, [nextpid] is 1 and no CPU runs a process. *)
Definition zeroed (s : kst) : Prop :=
  k_proc s = replicate (Z.to_nat NPROC) proc0 /\ k_nextpid s = 1 /\
  (k_me s < length (k_cpu s))%nat /\ Forall (fun c => c_proc c = None) (k_cpu s).

(** [userinit] of [main]. *)
Definition booted (initcode : list Z) (s : kst) : Prop :=
  exists s0, zeroed s0 /\ userinit devsw initcode s0 = Ok (tt, s).

Definition reachable (initcode : list Z) (s : kst) : Prop :=
  exists s0, booted initcode s0 /\ rtc kstep s0 s.

End Machine.
