(* ===== verification/ProcInv.v ===== *)
(** * The invariant of the process table

    Which process runs where, and the identity of processes: a RUNNING
    process is the current process of exactly one CPU, the processes in use
    have distinct pids that have been handed out, and one that can run has a
    kernel stack and a page table. *)

From S2P Require Import Prelude Param Memory Kalloc Vm Log Fs Hoare Kernel Proc.

Abbreviation NP := (Z.to_nat NPROC).

Definition active (st : procstate) : Prop :=
  st = SLEEPING \/ st = RUNNABLE \/ st = RUNNING.

Definition cproc (s : kst) (c : nat) : option nat := c_proc (k_cpu s !!! c).

Record pinv (s : kst) : Prop := {
  pi_len : length (k_proc s) = NP;
  pi_me : (k_me s < length (k_cpu s))%nat;
  pi_next : 1 <= k_nextpid s;
  pi_run : forall c i, (c < length (k_cpu s))%nat -> cproc s c = Some i ->
    (i < NP)%nat /\ p_state (pat s i) = RUNNING;
  pi_on : forall i, p_state (pat s i) = RUNNING ->
    exists c, (c < length (k_cpu s))%nat /\ cproc s c = Some i;
  pi_one : forall c d i, (c < length (k_cpu s))%nat -> (d < length (k_cpu s))%nat ->
    cproc s c = Some i -> cproc s d = Some i -> c = d;
  pi_pid : forall i, p_state (pat s i) <> UNUSED -> 1 <= p_pid (pat s i) < k_nextpid s;
  pi_uniq : forall i j, p_state (pat s i) <> UNUSED -> p_state (pat s j) <> UNUSED ->
    p_pid (pat s i) = p_pid (pat s j) -> i = j;
  pi_mem : forall i, active (p_state (pat s i)) ->
    p_kstack (pat s i) <> 0 /\ p_pgdir (pat s i) <> 0
}.

(** What the executing CPU runs: a process, or the scheduler. *)
Definition at_cpu (o : option nat) (s : kst) : Prop := pinv s /\ cur_of s = o.
Abbreviation idle := (at_cpu None).

(** ** Code that does not concern the invariant *)

Definition pview (p : proc) : procstate * Z * Z * Z :=
  (p_state p, p_pid p, p_kstack p, p_pgdir p).

Record same_view (s s' : kst) : Prop := {
  sv_proc : pview <$> k_proc s' = pview <$> k_proc s;
  sv_cpu : c_proc <$> k_cpu s' = c_proc <$> k_cpu s;
  sv_next : k_nextpid s' = k_nextpid s;
  sv_me : k_me s' = k_me s
}.

#[global] Instance same_view_refl : Reflexive same_view.
Proof. by split. Qed.
#[global] Instance same_view_trans : Transitive same_view.
Proof. intros s1 s2 s3 [] []. split; congruence. Qed.

Definition keeps {A} (c : M kst A) : Prop := forall s0, pres (same_view s0) c.

Lemma fmap_total {A B} `{Inhabited A} (f : A -> B) (l l' : list A) i :
  f <$> l' = f <$> l -> f (l' !!! i) = f (l !!! i).
Proof.
  intros E. assert (E' : (f <$> l') !! i = (f <$> l) !! i) by (by rewrite E).
  rewrite !list_lookup_fmap in E'. rewrite !list_lookup_total_alt.
  destruct (l' !! i), (l !! i); simpl in *; congruence.
Qed.

Lemma same_view_at s s' :
  same_view s s' ->
  length (k_proc s') = length (k_proc s) /\ length (k_cpu s') = length (k_cpu s) /\
  (forall i, pview (pat s' i) = pview (pat s i)) /\ (forall c, cproc s' c = cproc s c) /\
  cur_of s' = cur_of s.
Proof.
  intros [H1 H2 _ H4].
  assert (Hc : forall c, cproc s' c = cproc s c) by (intros c; by apply fmap_total).
  split_and!.
  - apply (f_equal length) in H1. by rewrite !length_fmap in H1.
  - apply (f_equal length) in H2. by rewrite !length_fmap in H2.
  - intros i. by apply fmap_total.
  - done.
  - unfold cur_of. rewrite H4. apply Hc.
Qed.

Lemma pinv_view s s' : same_view s s' -> pinv s -> pinv s'.
Proof.
  intros Hs [P1 P2 P0 P3 P4 P5 P6 P7 P8]. pose proof Hs as [_ _ Hn Hm].
  destruct (same_view_at s s' Hs) as (L1 & L2 & Hp & Hc & _).
  assert (Hst : forall i, p_state (pat s' i) = p_state (pat s i)).
  { intros i. specialize (Hp i). by injection Hp. }
  assert (Hpid : forall i, p_pid (pat s' i) = p_pid (pat s i)).
  { intros i. specialize (Hp i). by injection Hp. }
  assert (Hpg : forall i, p_kstack (pat s' i) = p_kstack (pat s i) /\
    p_pgdir (pat s' i) = p_pgdir (pat s i)).
  { intros i. specialize (Hp i). by injection Hp. }
  split; rewrite ?L1, ?L2, ?Hm, ?Hn; auto.
  - intros c i Hlt. rewrite Hc, Hst. by apply P3.
  - intros i. rewrite Hst. intros Hi. destruct (P4 i Hi) as (c & ? & ?). exists c.
    by rewrite Hc.
  - intros c d i Hc' Hd'. rewrite !Hc. by apply P5.
  - intros i. rewrite Hst, Hpid. apply P6.
  - intros i j. rewrite !Hst, !Hpid. apply P7.
  - intros i. rewrite Hst. destruct (Hpg i) as [-> ->]. apply P8.
Qed.

Lemma keeps_pres {A} (P : kst -> Prop) (c : M kst A) :
  (forall s s', same_view s s' -> P s -> P s') -> keeps c -> pres P c.
Proof.
  intros HP Hc s Hs. specialize (Hc s s ltac:(reflexivity)).
  destruct (c s) as [[a s']| | | |]; auto. by eapply HP.
Qed.

Lemma at_cpu_view o s s' : same_view s s' -> at_cpu o s -> at_cpu o s'.
Proof.
  intros Hs [HI Hc]. split; [by eapply pinv_view|].
  destruct (same_view_at s s' Hs) as (_ & _ & _ & _ & ->). done.
Qed.

Lemma keeps_at_cpu {A} o (c : M kst A) : keeps c -> pres (at_cpu o) c.
Proof. apply keeps_pres, at_cpu_view. Qed.

Lemma keeps_kmem {A} (c : M pmem A) : keeps (kmem c).
Proof. intros s0. apply pres_zoom. intros t s Hs. etrans; [exact Hs|]. by split. Qed.

Lemma keeps_kfs {A} (c : M (fsst logst) A) : keeps (kfs c).
Proof. intros s0. apply pres_zoom. intros t s Hs. etrans; [exact Hs|]. by split. Qed.

Lemma keeps_modify f : (forall s, same_view s (f s)) -> keeps (modify f).
Proof. intros Hf s0. apply pres_modify. intros s Hs. by etrans. Qed.

Lemma fmap_alter_same {A B} (g : A -> B) (f : A -> A) (l : list A) i :
  (forall x, g (f x) = g x) -> g <$> alter f i l = g <$> l.
Proof.
  intros Hf. apply list_eq. intros j. rewrite !list_lookup_fmap.
  destruct (decide (i = j)) as [<-|].
  - rewrite list_lookup_alter_eq. destruct (l !! i); simpl; [|done]. by rewrite Hf.
  - by rewrite list_lookup_alter_ne.
Qed.

Lemma keeps_pupd i f : (forall p, pview (f p) = pview p) -> keeps (pupd i f).
Proof.
  intros Hf. apply keeps_modify. intros s. split; try done. by apply fmap_alter_same.
Qed.

Lemma keeps_cupd f : (forall c, c_proc (f c) = c_proc c) -> keeps (cupd f).
Proof.
  intros Hf. apply keeps_modify. intros s. split; try done. by apply fmap_alter_same.
Qed.

Lemma keeps_fileupd i f : keeps (fileupd i f).
Proof. by apply keeps_modify. Qed.

(** ** Changes of one entry *)

Definition put_proc (i : nat) (f : proc -> proc) (s : kst) : kst :=
  set_kproc (alter f i (k_proc s)) s.

Lemma pat_put i f s j :
  (i < length (k_proc s))%nat ->
  pat (put_proc i f s) j = if decide (i = j) then f (pat s i) else pat s j.
Proof. apply alter_at. Qed.

(** The entry of [i] may change its state except to or from RUNNING. *)
Lemma pinv_put s i f :
  pinv s -> (i < NP)%nat ->
  (p_state (f (pat s i)) = RUNNING <-> p_state (pat s i) = RUNNING) ->
  (p_state (f (pat s i)) <> UNUSED -> 1 <= p_pid (f (pat s i)) < k_nextpid s /\
     forall j, j <> i -> p_state (pat s j) <> UNUSED -> p_pid (pat s j) <> p_pid (f (pat s i))) ->
  (active (p_state (f (pat s i))) ->
     p_kstack (f (pat s i)) <> 0 /\ p_pgdir (f (pat s i)) <> 0) ->
  pinv (put_proc i f s).
Proof.
  intros HI Hi Hrun Hpid Hmem. pose proof HI as [P1 P2 P0 P3 P4 P5 P6 P7 P8].
  assert (Hlt : (i < length (k_proc s))%nat) by lia.
  assert (Hst : forall j, p_state (pat (put_proc i f s) j) = RUNNING <->
                          p_state (pat s j) = RUNNING).
  { intros j. rewrite pat_put by done. by destruct (decide (i = j)) as [<-|]. }
  split; auto.
  - cbn [put_proc k_proc set_kproc]. by rewrite length_alter.
  - intros c j Hc Hj. rewrite Hst. by apply (P3 c).
  - intros j. rewrite Hst. apply P4.
  - intros j. rewrite pat_put by done. destruct (decide (i = j)) as [<-|]; [|apply P6].
    intros Hu. by apply Hpid.
  - intros j k. rewrite !pat_put by done.
    destruct (decide (i = j)) as [<-|Hj], (decide (i = k)) as [<-|Hk]; auto.
    + intros Hu Hu' He. destruct (Hpid Hu) as [_ Hd]. exfalso. by apply (Hd k).
    + intros Hu Hu' He. destruct (Hpid Hu') as [_ Hd]. exfalso. by apply (Hd j).
  - intros j. rewrite pat_put by done. destruct (decide (i = j)) as [<-|]; [done|apply P8].
Qed.

(** A state change that keeps the pid, away from UNUSED. *)
Lemma pinv_state s i st :
  pinv s -> (i < NP)%nat -> p_state (pat s i) <> UNUSED -> st <> RUNNING ->
  p_state (pat s i) <> RUNNING ->
  (active st -> p_kstack (pat s i) <> 0 /\ p_pgdir (pat s i) <> 0) ->
  pinv (put_proc i (set_state st) s).
Proof.
  intros HI Hi Hu Hr Hr' Hm. apply pinv_put; auto.
  - cbn [p_state set_state]. tauto.
  - intros _. cbn [p_pid set_state]. split; [by apply (pi_pid s HI)|].
    intros j Hj Huj He. apply Hj. by apply (pi_uniq s HI).
Qed.

(** The current process leaves the CPU in a state other than RUNNING. *)
Lemma pinv_leave s i f g :
  pinv s -> cur_of s = Some i ->
  p_state (f (pat s i)) <> RUNNING -> p_state (f (pat s i)) <> UNUSED ->
  p_pid (f (pat s i)) = p_pid (pat s i) -> p_kstack (f (pat s i)) = p_kstack (pat s i) ->
  p_pgdir (f (pat s i)) = p_pgdir (pat s i) -> (forall c, c_proc (g c) = None) ->
  idle (set_kcpu (alter g (k_me s) (k_cpu s)) (put_proc i f s)).
Proof.
  intros HI Hc Hr Hu Hpid Hk Hg Hn. pose proof HI as [P1 P2 P0 P3 P4 P5 P6 P7 P8].
  set (s' := set_kcpu _ _). change (cur_of s) with (cproc s (k_me s)) in Hc.
  destruct (P3 _ _ P2 Hc) as [Hi Hrun].
  assert (Hlt : (i < length (k_proc s))%nat) by lia.
  assert (Hpat : forall j, pat s' j = if decide (i = j) then f (pat s i) else pat s j).
  { intros j. by apply pat_put. }
  assert (Hcp : forall c, cproc s' c = if decide (k_me s = c) then None else cproc s c).
  { intros c. unfold cproc, s'. cbn [k_cpu set_kcpu]. rewrite alter_at by done.
    destruct (decide (k_me s = c)); [by rewrite Hn|done]. }
  assert (Hlen : length (k_cpu s') = length (k_cpu s)) by apply length_alter.
  split; [|unfold cur_of; change (cproc s' (k_me s) = None); rewrite Hcp;
    by rewrite decide_True].
  split; rewrite ?Hlen; auto.
  - cbn [s' set_kcpu put_proc k_proc set_kproc]. by rewrite length_alter.
  - intros c j Hcl. rewrite Hcp, Hpat. destruct (decide (k_me s = c)); [done|].
    intros Hj. destruct (decide (i = j)) as [<-|]; [|by apply (P3 c)].
    exfalso. by apply n, (P5 _ _ i).
  - intros j. rewrite Hpat. destruct (decide (i = j)) as [<-|]; [done|].
    intros Hj. destruct (P4 j Hj) as (c & Hcl & Hcj). exists c. split; [done|].
    rewrite Hcp, decide_False; [done|]. intros <-. congruence.
  - intros c d j Hcl Hdl. rewrite !Hcp.
    destruct (decide (k_me s = c)), (decide (k_me s = d)); try done. by apply P5.
  - intros j. rewrite Hpat. destruct (decide (i = j)) as [<-|]; [|apply P6].
    intros _. rewrite Hpid. apply P6. by rewrite Hrun.
  - intros j k. rewrite !Hpat.
    assert (Hui : p_state (pat s i) <> UNUSED) by (by rewrite Hrun).
    destruct (decide (i = j)) as [<-|], (decide (i = k)) as [<-|];
      rewrite ?Hpid; auto.
  - intros j. rewrite Hpat. destruct (decide (i = j)) as [<-|]; [|apply P8].
    intros _. rewrite Hk, Hg. apply P8. rewrite Hrun. by right; right.
Qed.

(** An idle CPU starts to run a RUNNABLE process. *)
Lemma pinv_enter s i g :
  idle s -> p_state (pat s i) = RUNNABLE -> (forall c, c_proc (g c) = Some i) ->
  at_cpu (Some i) (set_kcpu (alter g (k_me s) (k_cpu s)) (put_proc i (set_state RUNNING) s)).
Proof.
  intros [HI Hc] Hst Hg. pose proof HI as [P1 P2 P0 P3 P4 P5 P6 P7 P8].
  set (s' := set_kcpu _ _). change (cur_of s) with (cproc s (k_me s)) in Hc.
  assert (Hi : (i < length (k_proc s))%nat).
  { destruct (decide (i < length (k_proc s))%nat) as [|Hge]; [done|].
    unfold pat in Hst. rewrite list_lookup_total_alt, lookup_ge_None_2 in Hst by lia.
    done. }
  assert (Hpat : forall j, pat s' j = if decide (i = j) then set_state RUNNING (pat s i)
                                      else pat s j).
  { intros j. by apply pat_put. }
  assert (Hcp : forall c, cproc s' c = if decide (k_me s = c) then Some i else cproc s c).
  { intros c. unfold cproc, s'. cbn [k_cpu set_kcpu]. rewrite alter_at by done.
    destruct (decide (k_me s = c)); [by rewrite Hg|done]. }
  assert (Hlen : length (k_cpu s') = length (k_cpu s)) by apply length_alter.
  split; [|change (cproc s' (k_me s) = Some i); rewrite Hcp;
    by rewrite decide_True].
  split; rewrite ?Hlen; auto.
  - cbn [s' set_kcpu put_proc k_proc set_kproc]. by rewrite length_alter.
  - intros c j Hcl. rewrite Hcp, Hpat. destruct (decide (k_me s = c)).
    + intros [= <-]. rewrite decide_True by done. split; [lia|done].
    + intros Hj. destruct (P3 c j Hcl Hj) as [? Hr].
      destruct (decide (i = j)) as [<-|]; [|done]. congruence.
  - intros j. rewrite Hpat. destruct (decide (i = j)) as [<-|].
    + intros _. exists (k_me s). split; [done|]. rewrite Hcp. by rewrite decide_True.
    + intros Hj. destruct (P4 j Hj) as (c & Hcl & Hcj). exists c. split; [done|].
      rewrite Hcp, decide_False; [done|]. intros <-. congruence.
  - intros c d j Hcl Hdl. rewrite !Hcp.
    assert (Hno : forall c, (c < length (k_cpu s))%nat -> cproc s c <> Some i).
    { intros e Hel He. destruct (P3 e i Hel He). congruence. }
    destruct (decide (k_me s = c)), (decide (k_me s = d)); try congruence.
    + intros [= <-] Hd. by apply Hno in Hd.
    + intros He [= <-]. by apply Hno in He.
    + by apply P5.
  - intros j. rewrite Hpat. destruct (decide (i = j)) as [<-|]; [|apply P6].
    intros _. apply P6. by rewrite Hst.
  - intros j k. rewrite !Hpat.
    assert (Hui : p_state (pat s i) <> UNUSED) by (by rewrite Hst).
    destruct (decide (i = j)) as [<-|], (decide (i = k)) as [<-|]; simpl; auto.
  - intros j. rewrite Hpat. destruct (decide (i = j)) as [<-|]; [|apply P8].
    intros _. apply P8. rewrite Hst. by right; left.
Qed.

(** ** The operations of proc.c *)

Lemma in_state_true st p : in_state st p = true <-> p_state p = st.
Proof. apply bool_decide_eq_true. Qed.

Lemma pat_fmap (f : proc -> proc) s j :
  f proc0 = proc0 -> pat (set_kproc (f <$> k_proc s) s) j = f (pat s j).
Proof.
  intros Hf. unfold pat. cbn [k_proc set_kproc].
  rewrite !list_lookup_total_alt, list_lookup_fmap.
  destruct (k_proc s !! j); simpl; auto.
Qed.

Lemma wake_pid c p :
  p_pid (wake c p) = p_pid p /\ p_kstack (wake c p) = p_kstack p /\
  p_pgdir (wake c p) = p_pgdir p /\
  (p_state (wake c p) = p_state p \/
   (p_state (wake c p) = RUNNABLE /\ p_state p = SLEEPING)).
Proof.
  unfold wake. destruct (in_state SLEEPING p) eqn:E; simpl; [|by split_and!; try left].
  apply in_state_true in E. destruct (bool_decide _); simpl; split_and!; auto.
Qed.

Lemma wakeup_inv c s : pinv s -> pinv (set_kproc (wake c <$> k_proc s) s).
Proof.
  intros HI. pose proof HI as [P1 P2 P0 P3 P4 P5 P6 P7 P8].
  assert (Hpat : forall j, pat (set_kproc (wake c <$> k_proc s) s) j = wake c (pat s j))
    by (intros j; by apply pat_fmap).
  assert (Hst : forall j, (p_state (wake c (pat s j)) = RUNNING <->
      p_state (pat s j) = RUNNING) /\
    (p_state (wake c (pat s j)) <> UNUSED <-> p_state (pat s j) <> UNUSED) /\
    (active (p_state (wake c (pat s j))) <-> active (p_state (pat s j)))).
  { intros j. destruct (wake_pid c (pat s j)) as (_ & _ & _ & [->|[-> ->]]); [done|].
    unfold active. intuition congruence. }
  split; auto.
  - cbn [k_proc set_kproc]. by rewrite length_fmap.
  - intros d i Hd Hi. rewrite Hpat. destruct (Hst i) as [-> _]. by apply (P3 d).
  - intros i. rewrite Hpat. destruct (Hst i) as [-> _]. apply P4.
  - intros i. rewrite Hpat. destruct (Hst i) as (_ & -> & _).
    destruct (wake_pid c (pat s i)) as [-> _]. apply P6.
  - intros i j. rewrite !Hpat. destruct (Hst i) as (_ & -> & _), (Hst j) as (_ & -> & _).
    destruct (wake_pid c (pat s i)) as [-> _], (wake_pid c (pat s j)) as [-> _]. apply P7.
  - intros i. rewrite Hpat. destruct (Hst i) as (_ & _ & ->).
    destruct (wake_pid c (pat s i)) as (_ & -> & -> & _). apply P8.
Qed.

Lemma wakeup_at_cpu o c : pres (at_cpu o) (wakeup c).
Proof. apply pres_modify. intros s [HI Hc]. split; [by apply wakeup_inv|done]. Qed.

Lemma curproc_triple {A} (k : nat -> M kst A) (P : kst -> Prop) Q :
  (forall i s0, P s0 -> cur_of s0 = Some i -> triple (fun s => s = s0) (k i) Q) ->
  triple P (let! i := curproc in k i) Q.
Proof.
  intros H s Hs. unfold curproc, myproc. mrun.
  destruct (cur_of s) as [i|] eqn:E; [|done]. mrun. by apply (H i s Hs E s).
Qed.

Lemma cur_lt s i : pinv s -> cur_of s = Some i -> (i < NP)%nat /\ p_state (pat s i) = RUNNING.
Proof. intros HI Hc. apply (pi_run s HI (k_me s) i); [apply HI|done]. Qed.

(** Giving up the CPU in a new state. *)
Lemma leave_run s i f :
  pinv s -> cur_of s = Some i -> p_state (f (pat s i)) <> RUNNING ->
  (do! pupd i f in sched) s =
  Ok (tt, set_kcpu (alter (fun c => set_cproc None (set_cr3 (V2P (k_kpgdir s)) c))
                      (k_me s) (k_cpu s)) (put_proc i f s)).
Proof.
  intros HI Hc Hr. destruct (cur_lt s i HI Hc) as [Hi Hst]. unfold pupd. mrun.
  fold (put_proc i f s). unfold sched, curproc, myproc. mrun.
  change (cur_of (put_proc i f s)) with (cur_of s). rewrite Hc. mrun.
  rewrite pat_put by (rewrite (pi_len s HI); done). rewrite decide_True by done.
  destruct (in_state RUNNING (f (pat s i))) eqn:E; [by apply in_state_true in E|].
  unfold scheduler_return, switchkvm, cupd. mrun. unfold modify.
  cbn [k_cpu k_me set_kcpu put_proc set_kproc k_kpgdir]. by rewrite alter_alter.
Qed.

Lemma leave_triple i f :
  (forall p, p_state (f p) <> RUNNING /\ p_state (f p) <> UNUSED /\ p_pid (f p) = p_pid p /\
     p_kstack (f p) = p_kstack p /\ p_pgdir (f p) = p_pgdir p) ->
  triple (at_cpu (Some i)) (do! pupd i f in sched) (fun _ => idle).
Proof.
  intros Hf s [HI Hc]. destruct (Hf (pat s i)) as (H1 & H2 & H3 & H4 & H5).
  rewrite leave_run by done. by apply pinv_leave.
Qed.

Lemma yield_triple i : triple (at_cpu (Some i)) yield (fun _ => idle).
Proof.
  apply curproc_triple. intros j s0 [HI Hi] Hc. rewrite Hi in Hc. injection Hc as <-.
  eapply triple_conseq; [| |apply (leave_triple i (set_state RUNNABLE))]; auto.
  intros s ->. done.
Qed.

(** The state after going to sleep on [c]. *)
Definition slept (i : nat) (c : channel) (s : kst) : kst :=
  set_kcpu (alter (fun x => set_cproc None (set_cr3 (V2P (k_kpgdir s)) x)) (k_me s) (k_cpu s))
    (put_proc i (fun p => set_state SLEEPING (set_chan c p)) s).

Lemma sleep_run s i c lk :
  pinv s -> cur_of s = Some i -> lk <> 0 -> sleep c lk s = Ok (tt, slept i c s).
Proof.
  intros HI Hc Hlk. unfold sleep, myproc. mrun. rewrite Hc.
  replace (lk =? 0) with false by lia.
  assert (E : (do! pupd i (set_chan c) in do! pupd i (set_state SLEEPING) in sched) s =
              (do! pupd i (fun p => set_state SLEEPING (set_chan c p)) in sched) s).
  { unfold pupd. mrun. cbn [k_proc set_kproc]. by rewrite alter_alter. }
  rewrite E. by rewrite leave_run.
Qed.

Lemma slept_pat s i c j :
  pinv s -> (i < NP)%nat ->
  pat (slept i c s) j =
  if decide (i = j) then set_state SLEEPING (set_chan c (pat s i)) else pat s j.
Proof. intros HI Hi. apply pat_put. by rewrite (pi_len s HI). Qed.

Lemma sleep_triple i c lk : triple (at_cpu (Some i)) (sleep c lk) (fun _ => idle).
Proof.
  intros s [HI Hc]. destruct (decide (lk = 0)) as [->|Hlk].
  - unfold sleep, myproc. mrun. by rewrite Hc.
  - rewrite (sleep_run s i) by done. by apply pinv_leave.
Qed.

Lemma kill_at_cpu o pid : pres (at_cpu o) (kill pid).
Proof.
  intros s [HI Hc]. unfold kill. mrun.
  destruct (find_idx _ (k_proc s)) as [i|] eqn:E; [|done].
  unfold pupd. mrun. cbn [k_proc set_kproc]. rewrite alter_alter.
  split; [|done]. set (f := fun p => _). change (pinv (put_proc i f s)).
  assert (Hi : (i < NP)%nat) by (rewrite <- (pi_len s HI); by eapply find_idx_lt).
  assert (Hf : forall p, p_pid (f p) = p_pid p /\ p_kstack (f p) = p_kstack p /\
    p_pgdir (f p) = p_pgdir p /\ (p_state (f p) = p_state p \/
    (p_state (f p) = RUNNABLE /\ p_state p = SLEEPING))).
  { intros p. unfold f. destruct (in_state SLEEPING (set_killed true p)) eqn:Es; simpl;
      split_and!; auto. right. by apply in_state_true in Es. }
  destruct (Hf (pat s i)) as (F1 & F2 & F3 & F4). apply pinv_put; auto.
  - destruct F4 as [->|[-> ->]]; [done|]. intuition congruence.
  - intros Hu. rewrite F1. assert (p_state (pat s i) <> UNUSED).
    { destruct F4 as [E4|[_ E4]]; congruence. }
    split; [by apply (pi_pid s HI)|]. intros j Hj Huj He. by apply Hj, (pi_uniq s HI).
  - intros Ha. rewrite F2, F3. apply (pi_mem s HI). destruct F4 as [E4|[_ E4]].
    + by rewrite <- E4.
    + rewrite E4. by left.
Qed.

(** ** The scheduler *)

Lemma is_highest_spec ps p :
  is_highest ps p = true <->
  forall j, p_state (ps !!! j) = RUNNABLE -> p_priority (ps !!! j) <= p_priority p.
Proof.
  unfold is_highest. rewrite negb_true_iff, <- not_true_iff_false, existsb_exists. split.
  - intros Hf j Hj. destruct (decide (j < length ps)%nat) as [Hlt|Hge].
    + destruct (decide (p_priority p < p_priority (ps !!! j))); [|lia].
      exfalso. apply Hf. exists (ps !!! j). split.
      * apply list_elem_of_In, list_elem_of_lookup_total. by exists j.
      * apply in_state_true in Hj. rewrite Hj. by apply Z.ltb_lt.
    + rewrite list_lookup_total_alt, lookup_ge_None_2 in Hj by lia. done.
  - intros Hf (x & Hx & He).
    apply list_elem_of_In, list_elem_of_lookup_total in Hx as (j & _ & <-).
    apply andb_true_iff in He as [He%in_state_true Hlt%Z.ltb_lt]. specialize (Hf j He). lia.
Qed.

(** The processes the scan stops at. *)
Definition top (ps : list proc) (p : proc) : bool :=
  in_state RUNNABLE p && is_highest ps p.

Lemma top_spec ps p :
  top ps p = true <-> p_state p = RUNNABLE /\
    forall j, p_state (ps !!! j) = RUNNABLE -> p_priority (ps !!! j) <= p_priority p.
Proof. unfold top. by rewrite andb_true_iff, in_state_true, is_highest_spec. Qed.

Lemma sched_next_Some ps pos i :
  sched_next ps pos = Some i ->
  (pos <= i < length ps)%nat /\ top ps (ps !!! i) = true /\
  forall j, (pos <= j < i)%nat -> top ps (ps !!! j) = false.
Proof.
  unfold sched_next. intros (k & Hk & ->)%fmap_Some.
  apply find_idx_Some in Hk as (p & Hp & Ht & Hlt). rewrite lookup_drop in Hp.
  pose proof (lookup_lt_Some _ _ _ Hp) as Hl.
  split; [lia|]. split; [by rewrite (list_lookup_total_correct _ _ _ Hp)|].
  intros j Hj. destruct (ps !! j) as [q|] eqn:E; [|apply lookup_ge_None in E; lia].
  rewrite (list_lookup_total_correct _ _ _ E). apply (Hlt (j - pos)%nat); [lia|].
  rewrite lookup_drop. by replace (pos + (j - pos))%nat with j by lia.
Qed.

Lemma sched_next_None ps pos :
  sched_next ps pos = None ->
  forall j, (pos <= j < length ps)%nat -> top ps (ps !!! j) = false.
Proof.
  unfold sched_next. rewrite fmap_None, find_idx_None. intros Hf j Hj.
  destruct (ps !! j) as [q|] eqn:E; [|apply lookup_ge_None in E; lia].
  rewrite (list_lookup_total_correct _ _ _ E). apply (Hf (j - pos)%nat).
  rewrite lookup_drop. by replace (pos + (j - pos))%nat with j by lia.
Qed.

(** A RUNNABLE process of the highest priority. *)
Lemma max_runnable (l : list proc) :
  (forall p, p ∈ l -> p_state p <> RUNNABLE) \/
  exists p, p ∈ l /\ p_state p = RUNNABLE /\
    forall q, q ∈ l -> p_state q = RUNNABLE -> p_priority q <= p_priority p.
Proof.
  induction l as [|a l [IH|(m & Hm & Hms & Hmax)]].
  - left. intros p Hp. by apply not_elem_of_nil in Hp.
  - destruct (decide (p_state a = RUNNABLE)) as [Ha|Ha].
    + right. exists a. split; [by left|]. split; [done|].
      intros q [->|Hq]%elem_of_cons Hqs; [done|]. by apply IH in Hq.
    + left. intros p [->|Hp]%elem_of_cons; [done|]. by apply IH.
  - right. destruct (decide (p_state a = RUNNABLE /\ p_priority m < p_priority a))
      as [[Ha Hlt]|Hn].
    + exists a. split; [by left|]. split; [done|].
      intros q [->|Hq]%elem_of_cons Hqs; [done|]. specialize (Hmax q Hq Hqs). lia.
    + exists m. split; [by right|]. split; [done|].
      intros q [->|Hq]%elem_of_cons Hqs; [|by apply Hmax].
      destruct (decide (p_priority m < p_priority a)); [|lia]. exfalso. by apply Hn.
Qed.

Lemma top_exists ps j :
  p_state (ps !!! j) = RUNNABLE ->
  exists i, (i < length ps)%nat /\ top ps (ps !!! i) = true.
Proof.
  intros Hj. assert (Hlt : (j < length ps)%nat).
  { destruct (decide (j < length ps)%nat); [done|].
    rewrite list_lookup_total_alt, lookup_ge_None_2 in Hj by lia. done. }
  destruct (max_runnable ps) as [Hno|(p & Hp & Hs & Hmax)].
  - exfalso. apply (Hno (ps !!! j)); [|done]. apply list_elem_of_lookup_total. by exists j.
  - apply list_elem_of_lookup_total in Hp as (i & Hi & <-). exists i. split; [done|].
    apply top_spec. split; [done|]. intros k Hk. apply Hmax; [|done].
    apply list_elem_of_lookup_total. exists k. split; [|done].
    destruct (decide (k < length ps)%nat); [done|].
    rewrite list_lookup_total_alt, lookup_ge_None_2 in Hk by lia. done.
Qed.

Definition my_pos (s : kst) : nat := c_pos (k_cpu s !!! k_me s).

(** Dispatching process [i]. *)
Definition dispatched (s : kst) (i : nat) : kst :=
  set_kcpu (alter (fun c => set_cpos (S i) (set_cr3 (V2P (p_pgdir (pat s i)))
              (set_esp0 (u32 (p_kstack (pat s i) + KSTACKSIZE)) (set_cproc (Some i) c))))
              (k_me s) (k_cpu s)) (put_proc i (set_state RUNNING) s).

Lemma scheduler_run s :
  pinv s ->
  scheduler s =
  match sched_next (k_proc s) (my_pos s) with
  | Some i => Ok (true, dispatched s i)
  | None => Ok (false, set_kcpu (alter (set_cpos 0) (k_me s) (k_cpu s)) s)
  end.
Proof.
  intros HI. unfold scheduler. mrun. fold (my_pos s).
  destruct (sched_next (k_proc s) (my_pos s)) as [i|] eqn:E; [|done].
  apply sched_next_Some in E as (_ & Ht & _). apply top_spec in Ht as [Hst _].
  destruct (pi_mem s HI i) as [Hk Hg]; [unfold pat; rewrite Hst; by right; left|].
  unfold cupd at 1, switchuvm. mrun.
  change (pat (set_kcpu ?l s) i) with (pat s i).
  destruct (Z.eqb_spec (p_kstack (pat s i)) 0); [done|].
  destruct (Z.eqb_spec (p_pgdir (pat s i)) 0); [done|].
  unfold cupd, pupd. mrun. unfold dispatched, ret. do 2 f_equal.
  cbn [k_cpu k_proc k_me set_kcpu set_kproc put_proc]. rewrite !alter_alter. done.
Qed.

Lemma scheduler_triple :
  triple idle scheduler
    (fun b s => if b then exists i, at_cpu (Some i) s else idle s).
Proof.
  intros s HId. pose proof HId as [HI Hc]. rewrite scheduler_run by done.
  destruct (sched_next (k_proc s) (my_pos s)) as [i|] eqn:E.
  - apply sched_next_Some in E as (_ & Ht & _). apply top_spec in Ht as [Hst _].
    exists i. by apply pinv_enter.
  - eapply at_cpu_view; [|exact HId]. split; try done. by apply fmap_alter_same.
Qed.
