(* ===== verification/Frame.v ===== *)
(** * What most kernel code leaves alone

    [calm s s'] holds when the descriptors and sizes of the processes and the
    reference counts of open files are the same, and no process has died.
    Nearly all code is calm; the invariants about descriptors and sizes only
    look at the rest. *)

From S2P Require Import Prelude Param Bytes Memory Kalloc Vm Sleeplock Bio Log Blocks.
From S2P Require Import LogBlocks Fs Hoare Kernel Proc Console Pipe File Fork Syscall.
From S2P Require Import Sysproc Sysfile Exec Trap Machine ProcInv.

Definition dead (st : procstate) : bool :=
  match st with UNUSED | ZOMBIE => true | _ => false end.

Record calm_proc (p p' : proc) : Prop := {
  cp_ofile : p_ofile p' = p_ofile p;
  cp_sz : p_sz p' = p_sz p;
  cp_dead : dead (p_state p') = true -> dead (p_state p) = true
}.

Record calm (s s' : kst) : Prop := {
  cm_proc : Forall2 calm_proc (k_proc s) (k_proc s');
  cm_ref : f_ref <$> k_file s' = f_ref <$> k_file s
}.

#[global] Instance calm_proc_refl : Reflexive calm_proc.
Proof. by split. Qed.
#[global] Instance calm_proc_trans : Transitive calm_proc.
Proof. intros p q r [] []. split; [congruence|congruence|auto]. Qed.
#[global] Instance calm_refl : Reflexive calm.
Proof. by split. Qed.
#[global] Instance calm_trans : Transitive calm.
Proof. intros s1 s2 s3 [H1 H2] [H3 H4]. split; [by etrans|congruence]. Qed.

Lemma calm_pat s s' i : calm s s' -> calm_proc (pat s i) (pat s' i).
Proof.
  intros [H _]. unfold pat. rewrite !list_lookup_total_alt.
  destruct (k_proc s !! i) as [p|] eqn:E.
  - destruct (Forall2_lookup_l _ _ _ _ _ H E) as (p' & -> & Hp). done.
  - apply lookup_ge_None in E. rewrite (Forall2_length _ _ _ H) in E.
    by rewrite lookup_ge_None_2.
Qed.

(** A preorder that calm changes respect. *)
Class Frame (R : kst -> kst -> Prop) := {
  fr_trans : Transitive R;
  fr_calm : forall s s', calm s s' -> R s s'
}.

Definition calms {A} (c : M kst A) : Prop := forall s0, pres (calm s0) c.

Lemma calm_frame {A} R `{Frame R} (c : M kst A) s0 : calms c -> pres (R s0) c.
Proof.
  intros Hc s Hs. specialize (Hc s s ltac:(reflexivity)).
  destruct (c s) as [[a s']| | | |]; auto. eapply fr_trans; [exact Hs|]. by apply fr_calm.
Qed.

(** A predicate that an [R]-step preserves. *)
Lemma frame_pres {A} (R : kst -> kst -> Prop) `{Reflexive kst R} (P : kst -> Prop) (c : M kst A) :
  (forall s s', R s s' -> P s -> P s') -> (forall s0, pres (R s0) c) -> pres P c.
Proof.
  intros HP Hc s Hs. specialize (Hc s s ltac:(reflexivity)).
  destruct (c s) as [[a s']| | | |]; auto. by eapply HP.
Qed.

(** ** Primitives *)

Lemma calms_modify f : (forall s, calm s (f s)) -> calms (modify f).
Proof. intros Hf s0. apply pres_modify. intros s Hs. by etrans. Qed.
Lemma calms_zoom {T A} (g : kst -> T) (p : T -> kst -> kst) (c : M T A) :
  (forall t s, calm s (p t s)) -> calms (zoom g p c).
Proof. intros Hp s0. apply pres_zoom. intros t s Hs. etrans; [exact Hs|apply Hp]. Qed.

Lemma Forall2_alter_same {A} (R : A -> A -> Prop) `{Reflexive A R} f i (l : list A) :
  (forall x, R x (f x)) -> Forall2 R l (alter f i l).
Proof.
  intros Hf. apply Forall2_lookup. intros j. destruct (decide (i = j)) as [<-|].
  - rewrite list_lookup_alter_eq. destruct (l !! i); by constructor.
  - rewrite list_lookup_alter_ne by done. destruct (l !! j); by constructor.
Qed.

Lemma calms_pupd i f : (forall p, calm_proc p (f p)) -> calms (pupd i f).
Proof. intros Hf. apply calms_modify. intros s. split; [by apply Forall2_alter_same|done]. Qed.

Lemma calms_fileupd i f : (forall x, f_ref (f x) = f_ref x) -> calms (fileupd i f).
Proof. intros Hf. apply calms_modify. intros s. split; [done|by apply fmap_alter_same]. Qed.

Lemma calm_wake c p : calm_proc p (wake c p).
Proof. unfold wake. destruct (in_state SLEEPING p && bool_decide (p_chan p = c)); by split. Qed.

Lemma calms_wakeup c : calms (wakeup c).
Proof.
  apply calms_modify. intros s. split; [|done]. cbn [k_proc set_kproc].
  apply Forall2_fmap_r. induction (k_proc s); constructor; [apply calm_wake|done].
Qed.

Section Keep.
Context `{I : Image} `{E : Entry}.
Variable devsw : Z -> device logst.
Variable s0 : kst.

Lemma kmem_calm {A} (c : M pmem A) : pres (calm s0) (kmem c).
Proof. by apply calms_zoom. Qed.
Lemma kfs_calm {A} (c : M (fsst logst) A) : pres (calm s0) (kfs c).
Proof. by apply calms_zoom. Qed.
Lemma kcons_calm {A} (c : M console A) : pres (calm s0) (kcons c).
Proof. by apply calms_zoom. Qed.
Lemma cupd_calm f : pres (calm s0) (cupd f).
Proof. by apply calms_modify. Qed.
Lemma wakeup_calm c : pres (calm s0) (wakeup c).
Proof. apply calms_wakeup. Qed.
Lemma wakeup1_calm c : pres (calm s0) (wakeup1 c).
Proof. apply calms_wakeup. Qed.
Lemma myproc_calm : pres (calm s0) myproc.
Proof. apply pres_gets. Qed.

End Keep.
#[export] Hint Resolve kmem_calm kfs_calm kcons_calm cupd_calm wakeup_calm wakeup1_calm myproc_calm : pres.
#[export] Hint Extern 1 (pres (calm _) (pupd _ _)) =>
  (apply calms_pupd; intros ?; split; [done|done|cbn; by auto]) : pres.
#[export] Hint Extern 1 (pres (calm _) (fileupd _ _)) => (apply calms_fileupd; done) : pres.
#[export] Hint Extern 1 (pres (calm _) (modify _)) => (apply calms_modify; done) : pres.

Section Keep2.
Context `{I : Image} `{E : Entry}.
Variable devsw : Z -> device logst.
Variable s0 : kst.

Lemma curproc_calm : pres (calm s0) curproc.
Proof. unfold curproc. pres. Qed.
Lemma kbegin_op_calm : pres (calm s0) kbegin_op.
Proof. apply kfs_calm. Qed.
Lemma kend_op_calm : pres (calm s0) kend_op.
Proof. apply kfs_calm. Qed.
Lemma pipe_at_calm a : pres (calm s0) (pipe_at a).
Proof. unfold pipe_at. pres. Qed.
Lemma pipeupd_calm a f : pres (calm s0) (pipeupd a f).
Proof. unfold pipeupd. pres. Qed.
Lemma kload_calm a : pres (calm s0) (kload a).
Proof. apply kmem_calm. Qed.
Lemma kstore_calm a v : pres (calm s0) (kstore a v).
Proof. apply kmem_calm. Qed.
Lemma kstore16_calm a v : pres (calm s0) (kstore16 a v).
Proof. apply kmem_calm. Qed.

End Keep2.
#[export] Hint Resolve curproc_calm kbegin_op_calm kend_op_calm pipe_at_calm pipeupd_calm kload_calm
  kstore_calm kstore16_calm : pres.

Section Keep3.
Context `{I : Image} `{E : Entry}.
Variable devsw : Z -> device logst.
Variable s0 : kst.

Lemma sched_calm : pres (calm s0) sched.
Proof. unfold sched, scheduler_return, switchkvm. pres. Qed.
Lemma switchuvm_calm p : pres (calm s0) (switchuvm p).
Proof. unfold switchuvm. pres. Qed.
Lemma uload_calm va n : pres (calm s0) (uload va n).
Proof. revert va. induction n as [|n IH]; intros va; cbn [uload]; unfold uload8; pres; auto. Qed.
Lemma ustore_calm va bs : pres (calm s0) (ustore va bs).
Proof. revert va. induction bs as [|b bs IH]; intros va; cbn [ustore]; pres; auto. Qed.
Lemma kill_calm pid : pres (calm s0) (kill pid).
Proof.
  unfold kill. pres. apply calms_pupd. intros p. by destruct (in_state SLEEPING p).
Qed.
Lemma pipeclose_calm a w : pres (calm s0) (pipeclose a w).
Proof. unfold pipeclose. pres. Qed.
Lemma filestat_calm f : pres (calm s0) (filestat f).
Proof. unfold filestat. pres. Qed.
Lemma knamei_calm path : pres (calm s0) (knamei devsw path).
Proof. unfold knamei, cwd_for. pres. Qed.
Lemma knameiparent_calm path : pres (calm s0) (knameiparent devsw path).
Proof. unfold knameiparent, cwd_for. pres. Qed.
Lemma add_nlink_calm d i : pres (calm s0) (add_nlink d i).
Proof. apply kfs_calm. Qed.
Lemma filewrite_loop_calm fuel f src i n : pres (calm s0) (filewrite_loop devsw fuel f src i n).
Proof. revert i. induction fuel as [|fuel IH]; intros i; cbn [filewrite_loop]; pres; auto. Qed.
Lemma scheduler_calm : pres (calm s0) scheduler.
Proof. unfold scheduler, switchuvm. pres. Qed.

End Keep3.
#[export] Hint Resolve sched_calm switchuvm_calm uload_calm ustore_calm kill_calm pipeclose_calm filestat_calm
  knamei_calm knameiparent_calm add_nlink_calm filewrite_loop_calm scheduler_calm : pres.

Section Keep4.
Context `{I : Image} `{E : Entry}.
Variable devsw : Z -> device logst.
Variable s0 : kst.

Lemma sleep_calm c lk : pres (calm s0) (sleep c lk).
Proof. unfold sleep. pres. Qed.
Lemma yield_calm : pres (calm s0) yield.
Proof. unfold yield. pres. Qed.
Lemma fetchint_calm a : pres (calm s0) (fetchint a).
Proof. unfold fetchint, uload32. pres. Qed.
Lemma fetchstr_calm a : pres (calm s0) (fetchstr a).
Proof.
  unfold fetchstr. pres. generalize (Z.to_nat (p_sz (pat a1 a0) - a)) as fuel.
  generalize (p_sz (pat a1 a0)) as ep. generalize (@nil Z) as acc. revert a.
  intros s acc ep fuel. revert s acc.
  induction fuel as [|f IH]; intros s acc; cbn [fetchstr_loop]; unfold uload8; pres; auto.
Qed.
Lemma argint_calm n : pres (calm s0) (argint n).
Proof. unfold argint. pose proof fetchint_calm. pres; auto. Qed.
Lemma store_stat_calm a st : pres (calm s0) (store_stat a st).
Proof. unfold store_stat. pres. Qed.
Lemma isdirempty_calm dp : pres (calm s0) (isdirempty devsw dp).
Proof.
  unfold isdirempty. pres. generalize (2 * sizeof_dirent) as off.
  generalize (Z.to_nat (isize (inode_of a dp) / sizeof_dirent + 1)) as fuel.
  induction fuel as [|f IH]; intros off; cbn [isdirempty_loop]; pres; auto.
Qed.
Lemma create_calm path t ma mi : pres (calm s0) (create devsw path t ma mi).
Proof. unfold create. pres. Qed.
Lemma consoleintr_calm g : pres (calm s0) (consoleintr g).
Proof.
  unfold consoleintr. pres. generalize (S (length (kbd_in (k_cons a)) +
    length (uart_rx (k_cons a)))) as fuel. intros fuel. generalize false as b.
  induction fuel as [|f IH]; intros b; cbn [consoleintr_loop]; pres; auto.
Qed.

End Keep4.
#[export] Hint Resolve sleep_calm yield_calm fetchint_calm fetchstr_calm argint_calm store_stat_calm
  isdirempty_calm create_calm consoleintr_calm : pres.

Section Keep5.
Context `{I : Image} `{E : Entry}.
Variable devsw : Z -> device logst.
Variable s0 : kst.

Lemma argptr_calm n sz : pres (calm s0) (argptr n sz).
Proof. unfold argptr. pres. Qed.
Lemma argstr_calm n : pres (calm s0) (argstr n).
Proof. unfold argstr. pres. Qed.
Lemma argfd_calm n : pres (calm s0) (argfd n).
Proof. unfold argfd. pres. Qed.
Lemma pipewrite_from_calm fuel a src k n : pres (calm s0) (pipewrite_from fuel a src k n).
Proof. revert k. induction fuel as [|f IH]; intros k; cbn [pipewrite_from]; pres; auto. Qed.
Lemma piperead_calm a n : pres (calm s0) (piperead a n).
Proof.
  unfold piperead. pres. generalize (@nil Z) as acc. generalize 0 as k.
  generalize (Z.to_nat n) as fuel. induction fuel as [|f IH]; intros k acc;
    cbn [piperead_copy]; pres; auto.
Qed.
Lemma consoleread_from_calm ip t n bs : pres (calm s0) (consoleread_from ip t n bs).
Proof.
  unfold consoleread_from. pres. generalize (Z.to_nat n) as fuel. intros fuel. revert n bs.
  induction fuel as [|f IH]; intros n bs; cbn [consoleread_loop]; pres; auto.
Qed.
Lemma loaduvm_calm pg a ip off sz : pres (calm s0) (loaduvm devsw pg a ip off sz).
Proof.
  unfold loaduvm. pres. generalize (Z.to_nat (sz / PGSIZE + 1)) as fuel.
  intros fuel. generalize 0 as j. induction fuel as [|f IH]; intros j;
    cbn [loaduvm_loop]; pres; auto.
Qed.
Lemma exec_load_calm k pg ip off sz : pres (calm s0) (exec_load devsw k pg ip off sz).
Proof.
  pose proof loaduvm_calm. revert off sz. induction k as [|k IH]; intros off sz;
    cbn [exec_load]; unfold load_segment; pres; auto.
Qed.
Lemma push_args_calm pg argv argc sp us : pres (calm s0) (push_args pg argv argc sp us).
Proof.
  revert argc sp us. induction argv as [|x argv IH]; intros argc sp us; cbn [push_args];
    pres; auto.
Qed.
Lemma exec_args_calm fuel ua k : pres (calm s0) (exec_args fuel ua k).
Proof. revert k. induction fuel as [|f IH]; intros k; cbn [exec_args]; pres; auto. Qed.

End Keep5.
#[export] Hint Resolve argptr_calm argstr_calm argfd_calm pipewrite_from_calm piperead_calm
  consoleread_from_calm loaduvm_calm exec_load_calm push_args_calm exec_args_calm : pres.
