(* ===== verification/Sched.v ===== *)
(** * What the scheduler promises

    Priority: the process switched to has the highest priority of those that
    can run.  Progress: a CPU does not stay idle while a process can run.
    Fairness: among the processes of the highest priority the scan goes round
    robin. *)

From S2P Require Import Prelude Param Memory Kalloc Vm Sleeplock Bio BioInv Log LogCrash.
From S2P Require Import Fs FsBlocks Hoare Kernel Proc ProcInv.

Lemma cur_dispatched s i : pinv s -> cur_of (dispatched s i) = Some i.
Proof.
  intros HI. unfold cur_of, dispatched. cbn [k_cpu k_me set_kcpu put_proc set_kproc].
  by rewrite alter_at_eq by apply HI.
Qed.

Lemma pos_dispatched s i : pinv s -> my_pos (dispatched s i) = S i.
Proof.
  intros HI. unfold my_pos, dispatched. cbn [k_cpu k_me set_kcpu put_proc set_kproc].
  by rewrite alter_at_eq by apply HI.
Qed.

Lemma pos_wrapped s :
  pinv s -> my_pos (set_kcpu (alter (set_cpos 0) (k_me s) (k_cpu s)) s) = 0%nat.
Proof.
  intros HI. unfold my_pos. cbn [k_cpu k_me set_kcpu].
  by rewrite alter_at_eq by apply HI.
Qed.

(** A process that can run and that no process able to run exceeds in
    priority. *)
Definition best (s : kst) (i : nat) : Prop :=
  p_state (pat s i) = RUNNABLE /\
  forall j, p_state (pat s j) = RUNNABLE -> p_priority (pat s j) <= p_priority (pat s i).

Lemma not_best s i : top (k_proc s) (pat s i) = false -> ~ best s i.
Proof. intros Ht Hb. apply top_spec in Hb. congruence. Qed.

(** The state after [scheduler] has switched to [i], the first such process
    from the position of the scan on; the scan goes on after it. *)
Definition picked (s : kst) (i : nat) (s' : kst) : Prop :=
  cur_of s' = Some i /\ best s i /\ (my_pos s <= i)%nat /\
  (forall j, (my_pos s <= j < i)%nat -> ~ best s j) /\ my_pos s' = S i /\
  p_state (pat s' i) = RUNNING /\
  (forall j, j <> i -> pat s' j = pat s j) /\ at_cpu (Some i) s'.

Lemma picked_ok s i :
  idle s -> sched_next (k_proc s) (my_pos s) = Some i -> picked s i (dispatched s i).
Proof.
  intros HId (Hr & Ht & Hlt)%sched_next_Some. pose proof HId as [HI _].
  pose proof Ht as Hb. apply top_spec in Hb.
  assert (Hpat : forall j, pat (dispatched s i) j =
    if decide (i = j) then set_state RUNNING (pat s i) else pat s j).
  { intros j. apply pat_put, Hr. }
  split_and!; auto.
  - by apply cur_dispatched.
  - apply Hr.
  - intros j Hj. by apply not_best, Hlt.
  - by apply pos_dispatched.
  - rewrite Hpat. by rewrite decide_True.
  - intros j Hj. rewrite Hpat. by rewrite decide_False.
  - destruct Hb as [Hst _]. by apply pinv_enter.
Qed.

(** (C23) Priority, order and progress: if some process can run, an idle CPU
    switches to a process after at most one wrap-around of the scan. The
    process it switches to has the highest priority of those that can run, and
    is the first such process in the order of the table from where the scan
    was left; the scan begins at the start of the table again only when there
    is none from there to the end. No other entry of the process table
    changes. Without a process that can run, the scan ends with the CPU
    idle. *)
Theorem scheduler_picks_highest s :
  idle s ->
  (forall j, p_state (pat s j) = RUNNABLE ->
     (exists i s', scheduler s = Ok (true, s') /\ picked s i s') \/
     ((forall k, (my_pos s <= k)%nat -> ~ best s k) /\
      exists s1 i s', scheduler s = Ok (false, s1) /\ k_proc s1 = k_proc s /\ my_pos s1 = 0%nat /\
        scheduler s1 = Ok (true, s') /\ picked s1 i s')) /\
  ((forall j, p_state (pat s j) <> RUNNABLE) ->
     exists s', scheduler s = Ok (false, s') /\ k_proc s' = k_proc s /\ idle s').
Proof.
  intros HId. pose proof HId as [HI Hc]. rewrite (scheduler_run s HI).
  set (s1 := set_kcpu (alter (set_cpos 0) (k_me s) (k_cpu s)) s).
  assert (HId1 : idle s1).
  { eapply at_cpu_view; [|exact HId]. split; try done. by apply fmap_alter_same. }
  destruct (sched_next (k_proc s) (my_pos s)) as [i|] eqn:E.
  - split.
    + intros j _. left. exists i, (dispatched s i). split; [done|]. by apply picked_ok.
    + intros Hno. apply sched_next_Some in E as (_ & Ht & _). apply top_spec in Ht as [Hst _].
      exfalso. by apply (Hno i).
  - split; [|by exists s1]. intros j Hj. right. split.
    { intros k Hk Hb. destruct (decide (k < length (k_proc s))%nat) as [Hl|Hl].
      - eapply not_best; [|exact Hb]. by apply (sched_next_None _ _ E).
      - destruct Hb as [Hb _]. unfold pat in Hb. by rewrite list_lookup_total_alt, lookup_ge_None_2 in Hb by lia. }
    destruct (top_exists (k_proc s) j Hj) as (k & Hk & Ht). exists s1.
    assert (E1 : exists i, sched_next (k_proc s1) (my_pos s1) = Some i).
    { destruct (sched_next (k_proc s1) (my_pos s1)) as [i|] eqn:E1; [eauto|].
      unfold s1 in E1. rewrite pos_wrapped in E1 by done.
      pose proof (sched_next_None _ _ E1 k ltac:(cbn [k_proc set_kcpu]; lia)) as Hf.
      cbn [k_proc set_kcpu] in Hf. congruence. }
    destruct E1 as [i E1]. exists i, (dispatched s1 i).
    split_and!; auto; [by apply pos_wrapped|by rewrite scheduler_run, E1 by apply HId1|by apply picked_ok].
Qed.

(** ** Fairness *)

(** [q] can run and no process that can run has a higher priority. *)
Definition waiting (q : nat) (s : kst) : Prop :=
  (q < NP)%nat /\ p_state (pat s q) = RUNNABLE /\
  forall j, p_state (pat s j) = RUNNABLE -> p_priority (pat s j) <= p_priority (pat s q).

(** How far the scan is from [q]. *)
Definition distance (q pos : nat) : nat :=
  if decide (pos <= q)%nat then q - pos else NP - pos + 1 + q.

(** A call either switches to [q] or moves the scan closer to it. *)
Lemma scheduler_closer s q b s' :
  pinv s -> waiting q s -> (my_pos s <= NP)%nat -> scheduler s = Ok (b, s') ->
  cur_of s' = Some q \/
  ((distance q (my_pos s') < distance q (my_pos s))%nat /\ (my_pos s' <= NP)%nat).
Proof.
  intros HI (Hq & Hst & Hmax) Hp E. rewrite (scheduler_run s HI) in E.
  assert (Ht : top (k_proc s) (k_proc s !!! q) = true) by (by apply top_spec).
  destruct (sched_next (k_proc s) (my_pos s)) as [i|] eqn:En; injection E as <- <-.
  - apply sched_next_Some in En as (Hi & _ & Hlt). rewrite (pi_len s HI) in Hi.
    destruct (decide (i = q)) as [->|Hne]; [left; by apply cur_dispatched|right].
    rewrite pos_dispatched by done. split; [|lia]. unfold distance.
    destruct (decide (my_pos s <= q)%nat) as [Hle|Hgt].
    + assert (i < q)%nat.
      { destruct (decide (q < i)%nat) as [Hqi|]; [|lia].
        rewrite (Hlt q) in Ht by lia. done. }
      rewrite decide_True by lia. lia.
    + rewrite decide_False by lia. lia.
  - right. rewrite pos_wrapped by done. split; [|lia]. unfold distance.
    rewrite decide_True by lia. destruct (decide (my_pos s <= q)%nat); [|lia].
    rewrite (sched_next_None _ _ En q) in Ht; [done|]. rewrite (pi_len s HI). lia.
Qed.

(** (C24) Bounded waiting: a process that can run and has the highest priority
    is switched to within [NPROC] + 1 calls of the scan of one CPU, whatever
    the other processes and CPUs do between the calls, as long as the process
    keeps waiting. *)
Theorem scheduler_bounded_wait (q : nat) (s s' : nat -> kst) (b : nat -> bool) :
  (my_pos (s 0%nat) <= NP)%nat ->
  (forall k, (k <= NP)%nat -> (forall j, (j < k)%nat -> cur_of (s' j) <> Some q) ->
     pinv (s k) /\ waiting q (s k) /\ scheduler (s k) = Ok (b k, s' k)) ->
  (forall k, my_pos (s (S k)) = my_pos (s' k)) ->
  exists k, (k <= NP)%nat /\ cur_of (s' k) = Some q.
Proof.
  intros H0 Hrun Hpos.
  assert (Hq : (distance q (my_pos (s 0%nat)) <= NP)%nat).
  { destruct (Hrun 0%nat ltac:(lia)) as (_ & [Hq _] & _); [lia|].
    unfold distance. destruct (decide _); lia. }
  assert (Hind : forall k, (k <= NP)%nat ->
    (exists j, (j < k)%nat /\ cur_of (s' j) = Some q) \/
    ((forall j, (j < k)%nat -> cur_of (s' j) <> Some q) /\ (my_pos (s k) <= NP)%nat /\
     (distance q (my_pos (s k)) + k <= NP)%nat)).
  { induction k as [|k IH]; intros Hk; [right; split_and!; auto; lia|].
    destruct IH as [(j & Hj & Hc)|(Hno & Hp & Hd)]; [lia|left; exists j; split; [lia|done]|].
    destruct (Hrun k ltac:(lia) Hno) as (HI & Hw & E).
    destruct (scheduler_closer (s k) q (b k) (s' k) HI Hw Hp E) as [Hc|[Hlt Hp']].
    - left. exists k. split; [lia|done].
    - destruct (decide (cur_of (s' k) = Some q)) as [Hc|Hnc].
      + left. exists k. split; [lia|done].
      + right. rewrite Hpos. split_and!; [|done|lia]. intros j Hj.
        destruct (decide (j = k)) as [->|]; [done|]. apply Hno. lia. }
  destruct (Hind NP ltac:(lia)) as [(j & Hj & Hc)|(Hno & Hp & Hd)].
  { exists j. split; [lia|done]. }
  destruct (Hrun NP ltac:(lia) Hno) as (HI & Hw & E).
  destruct (scheduler_closer _ q _ _ HI Hw Hp E) as [Hc|[Hlt _]]; [|lia].
  exists NP. split; [lia|done].
Qed.

(** ** Two processes and one CPU *)

Definition demo_proc (st : procstate) (pid prio : Z) : proc :=
  set_state st (set_pid pid (set_priority prio (set_kstack 4096 (set_pgdir 8192 proc0)))).

Definition demo_kst (p q : proc) (c : cpu) : kst :=
  {| k_mem := {| pm_mem := ∅; freelist := 0; use_lock := true |};
     k_fs := {| fs_b := log0 (boot [] 0); fs_sb := demo_sb8; icache := []; fs_pid := 0 |};
     k_file := replicate (Z.to_nat NFILE) file0; k_pipe := ∅;
     k_proc := p :: q :: replicate 62 proc0; k_nextpid := 3; k_initproc := Some 0%nat;
     k_cpu := [c]; k_me := 0; k_ticks := 0; k_kpgdir := 12288; k_first := false;
     k_outw := []; k_cons := console0 |}.

Lemma demo_pat p q c i :
  pat (demo_kst p q c) i =
  match i with O => p | S O => q | _ => proc0 end.
Proof.
  destruct i as [|[|i]]; [done..|]. unfold pat. cbn [k_proc demo_kst].
  change ((p :: q :: replicate 62 proc0) !!! S (S i)) with (replicate 62 proc0 !!! i).
  destruct (decide (i < 62)%nat).
  - by apply lookup_total_replicate_2.
  - by rewrite list_lookup_total_alt, lookup_ge_None_2 by (rewrite length_replicate; lia).
Qed.

Lemma demo_idle c st1 st2 n1 n2 :
  c_proc c = None -> st1 <> RUNNING -> st2 <> RUNNING ->
  idle (demo_kst (demo_proc st1 1 n1) (demo_proc st2 2 n2) c).
Proof.
  intros Hc H1 H2. split; [|done]. split.
  - done.
  - simpl. lia.
  - simpl. lia.
  - intros [|d] i Hd Hi; [|simpl in Hd; lia]. change (c_proc c = Some i) in Hi. congruence.
  - intros [|[|i]]; rewrite demo_pat; simpl; congruence.
  - intros d e i Hd He. simpl in Hd, He. lia.
  - intros [|[|i]]; rewrite demo_pat; simpl; try congruence; lia.
  - intros [|[|i]] [|[|j]]; rewrite !demo_pat; simpl; congruence.
  - intros [|[|i]]; rewrite demo_pat; simpl; unfold active; intuition congruence.
Qed.

Lemma demo_running c st n1 n2 :
  c_proc c = Some 0%nat -> st <> RUNNING ->
  at_cpu (Some 0%nat) (demo_kst (demo_proc RUNNING 1 n1) (demo_proc st 2 n2) c).
Proof.
  intros Hc H2. split; [|done]. split.
  - done.
  - simpl. lia.
  - simpl. lia.
  - intros [|d] i Hd Hi; [|simpl in Hd; lia]. change (c_proc c = Some i) in Hi.
    rewrite Hc in Hi. injection Hi as <-. split; [vm_compute; lia|done].
  - intros [|[|i]]; rewrite demo_pat; simpl; try congruence. exists 0%nat.
    split; [simpl; lia|done].
  - intros d e i Hd He. simpl in Hd, He. lia.
  - intros [|[|i]]; rewrite demo_pat; simpl; try congruence; lia.
  - intros [|[|i]] [|[|j]]; rewrite !demo_pat; simpl; congruence.
  - intros [|[|i]]; rewrite demo_pat; simpl; unfold active; intuition congruence.
Qed.

Lemma scheduler_picks_highest_witness :
  exists s s', scheduler s = Ok (true, s') /\ cur_of s' = Some 1%nat.
Proof.
  set (s := demo_kst (demo_proc RUNNABLE 1 10) (demo_proc RUNNABLE 2 12) cpu0).
  assert (HId : idle s) by (by apply demo_idle).
  destruct (scheduler_picks_highest s HId) as [H _].
  destruct (H 1%nat eq_refl) as [(i & s' & E & Hp)|(_ & s1 & i & s' & E & _)].
  - exists s, s'. split; [exact E|]. destruct Hp as (Hc & [Hst Hmax] & _).
    rewrite Hc. f_equal. specialize (Hmax 1%nat eq_refl). unfold s in Hst, Hmax.
    rewrite !demo_pat in Hst, Hmax. destruct i as [|[|i]]; simpl in *; [lia|done|discriminate].
  - exfalso. vm_compute in E. discriminate.
Defined.

Lemma scheduler_bounded_wait_witness :
  exists s s', scheduler s = Ok (true, s') /\ cur_of s' = Some 0%nat.
Proof.
  set (s := demo_kst (demo_proc RUNNABLE 1 10) (demo_proc SLEEPING 2 12) cpu0).
  assert (HId : idle s) by (by apply demo_idle).
  destruct (scheduler s) as [[b s']| | | |] eqn:E; try (vm_compute in E; discriminate).
  assert (Hc : cur_of s' = Some 0%nat) by (vm_compute in E; by injection E as _ <-).
  destruct (scheduler_bounded_wait 0 (fun k => if k is O then s else s') (fun _ => s')
    (fun _ => b)) as (k & _ & Hk).
  - change (0 <= NP)%nat. lia.
  - intros [|k] Hk Hno.
    + split; [apply HId|]. split; [|done]. split_and!; [vm_compute; lia|done|].
      intros [|[|j]]; unfold s; rewrite !demo_pat; simpl; congruence || lia.
    + exfalso. by apply (Hno 0%nat); [lia|].
  - done.
  - exists s, s'. split; [|exact Hk]. rewrite E. vm_compute in E. by injection E as <- _.
Defined.
