(* ===== verification/PipeSpec.v ===== *)
(** * Pipes are bounded queues

    The ring buffer of a pipe stands for a queue of at most [PIPESIZE] bytes:
    a write appends, a read removes from the front, and each wakes up the
    processes the change concerns. *)

From S2P Require Import Prelude Param Memory Kalloc Vm Fs Ring Hoare Kernel Proc Pipe.
From S2P Require Import ProcInv Sched.

Definition queue (p : pipe) : list Z := ring PIPESIZE (pp_data p) (nread p) (nwrite p).

Record pipe_ok (p : pipe) : Prop := {
  po_len : length (pp_data p) = Z.to_nat PIPESIZE;
  po_r : 0 <= nread p < 2 ^ 32;
  po_w : 0 <= nwrite p < 2 ^ 32;
  po_room : u32 (nwrite p - nread p) <= PIPESIZE
}.

Definition room (p : pipe) : Z := PIPESIZE - Z.of_nat (length (queue p)).

(** State updates of the calls. *)
Definition with_pipe (a : Z) (p : pipe) (s : kst) : kst :=
  set_kpipe (<[a := p]> (k_pipe s)) s.
Definition woken (c : channel) (s : kst) : kst := set_kproc (wake c <$> k_proc s) s.

Definition no_sleeper (c : channel) (s : kst) : Prop :=
  forall j, p_state (pat s j) = SLEEPING -> p_chan (pat s j) <> c.

Lemma PIPESIZE_div : (PIPESIZE | 2 ^ 32).
Proof. by exists (2 ^ 23). Qed.

Lemma length_queue p : Z.of_nat (length (queue p)) = u32 (nwrite p - nread p).
Proof. apply length_ring. Qed.

Lemma room_range p : pipe_ok p -> 0 <= room p <= PIPESIZE.
Proof.
  intros [_ _ _ H]. unfold room. rewrite length_queue.
  pose proof (u32_range (nwrite p - nread p)). lia.
Qed.

(** The test for a full pipe. *)
Lemma full_spec p : pipe_ok p -> (nwrite p =? u32 (nread p + PIPESIZE)) = (room p =? 0).
Proof.
  intros [_ _ Hw H]. apply Bool.eq_iff_eq_true. rewrite !Z.eqb_eq.
  rewrite (u32_full PIPESIZE) by (done || exact Hw). unfold room. rewrite length_queue. lia.
Qed.

(** The test for an empty pipe. *)
Lemma empty_spec p :
  pipe_ok p -> (nread p =? nwrite p) = bool_decide (queue p = []).
Proof.
  intros [_ Hr Hw _]. apply Bool.eq_iff_eq_true. rewrite Z.eqb_eq, bool_decide_eq_true.
  rewrite <- (u32_sub_0 (nread p) (nwrite p)) by done. split.
  - intros H. by apply ring_nil.
  - intros H. rewrite <- (length_queue p), H. done.
Qed.

Lemma put_byte_spec c p :
  pipe_ok p -> 0 < room p ->
  pipe_ok (put_byte c p) /\ queue (put_byte c p) = queue p ++ [c].
Proof.
  intros [Hl Hr Hw H] Hroom. unfold room in Hroom. rewrite length_queue in Hroom.
  unfold PIPESIZE in *. pose proof (u32_range (nwrite p - nread p)).
  split; [split|]; cbn [put_byte pp_data nread nwrite set_nwrite set_ppdata].
  - by rewrite length_insert.
  - done.
  - apply u32_range.
  - rewrite u32_sub_succ by lia. unfold PIPESIZE. lia.
  - apply (ring_push 512 ltac:(done) PIPESIZE_div (pp_data p) (nread p) (nwrite p) c);
      [done|lia|lia].
Qed.

Lemma take_byte_spec p :
  pipe_ok p -> queue p <> [] ->
  let p' := set_nread (u32 (nread p + 1)) p in
  pipe_ok p' /\ queue p = pp_data p !!! Z.to_nat (nread p mod PIPESIZE) :: queue p'.
Proof.
  intros [Hl Hr Hw H] Hne p'.
  assert (Hpos : 0 < u32 (nwrite p - nread p)).
  { rewrite <- length_queue. destruct (queue p); [done|]. cbn [length]. lia. }
  split; [split|]; cbn [p' pp_data nread nwrite set_nread]; auto.
  - apply u32_range.
  - rewrite u32_sub_pred by done. lia.
  - exact (ring_pop PIPESIZE PIPESIZE_div (pp_data p) (nread p) (nwrite p) Hpos).
Qed.

(** ** Runs *)

Lemma pipe_at_run a s p : k_pipe s !! a = Some p -> pipe_at a s = Ok (p, s).
Proof. intros H. unfold pipe_at. mrun. by rewrite H. Qed.

Lemma pipeupd_run a f s p :
  k_pipe s !! a = Some p -> pipeupd a f s = Ok (tt, with_pipe a (f p) s).
Proof.
  intros H. unfold pipeupd, modify, with_pipe. do 3 f_equal. apply map_eq. intros b.
  destruct (decide (a = b)) as [<-|].
  - by rewrite lookup_alter_eq, H, lookup_insert_eq.
  - by rewrite lookup_alter_ne, lookup_insert_ne.
Qed.

Lemma with_pipe_twice a p q s : with_pipe a p (with_pipe a q s) = with_pipe a p s.
Proof. unfold with_pipe, set_kpipe. cbn. by rewrite insert_insert_eq. Qed.

Lemma with_pipe_at a p s : k_pipe (with_pipe a p s) !! a = Some p.
Proof. apply lookup_insert_eq. Qed.

Lemma with_pipe_id a p s : k_pipe s !! a = Some p -> with_pipe a p s = s.
Proof. intros H. unfold with_pipe. rewrite insert_id by done. by destruct s. Qed.

Lemma curproc_run s i : cur_of s = Some i -> curproc s = Ok (i, s).
Proof. intros H. unfold curproc, myproc. mrun. by rewrite H. Qed.

Lemma woken_no_sleeper c s : no_sleeper c (woken c s).
Proof.
  intros j. unfold woken. rewrite pat_fmap by done. unfold wake.
  destruct (in_state SLEEPING (pat s j)) eqn:Es; cbn [andb].
  - case_bool_decide; [done|]. by intros _.
  - intros H. apply in_state_true in H. congruence.
Qed.

(** What is left to be done once the bytes that fit have been stored. *)
Definition write_end (a : Z) (c : nat) (p : pipe) (i n : Z) : M kst (outcome Z) :=
  if n <=? i then do! wakeup (ChNread a) in ret (Returns n)
  else
    let! s := get in
    if negb (readopen p) || p_killed (pat s c) then ret (Returns (-1))
    else
      do! wakeup (ChNread a) in
      do! sleep (ChNwrite a) a in
      ret (Sleeps i).

Lemma pipewrite_run f c a src i n s p :
  k_pipe s !! a = Some p -> pipe_ok p -> cur_of s = Some c ->
  0 <= i <= n -> n <= Z.of_nat (length src) -> (Z.to_nat (n - i) <= f)%nat ->
  let k := Z.min (n - i) (room p) in
  exists p', pipe_ok p' /\ readopen p' = readopen p /\ writeopen p' = writeopen p /\
    queue p' = queue p ++ take (Z.to_nat k) (drop (Z.to_nat i) src) /\
    pipewrite_from f a src i n s = write_end a c p (i + k) n (with_pipe a p' s).
Proof.
  revert i s p. induction f as [|f IH]; intros i s p Hp Hok Hc Hi Hn Hf k;
    pose proof (room_range p Hok); cbn [pipewrite_from].
  - replace (i <? n) with false by lia. exists p. replace (Z.to_nat k) with 0%nat by lia.
    rewrite take_0, app_nil_r, with_pipe_id by done. split_and!; auto.
    unfold write_end. by replace (n <=? i + k) with true by lia.
  - destruct (Z.ltb_spec i n) as [Hlt|Hge].
    + mrun (pipe_at_run a s p Hp). rewrite (full_spec p Hok).
      destruct (Z.eqb_spec (room p) 0) as [Hr|Hr].
      * exists p. replace (Z.to_nat k) with 0%nat by lia.
        rewrite take_0, app_nil_r, with_pipe_id by done. split_and!; auto.
        mrun (curproc_run s c Hc). unfold write_end.
        replace (n <=? i + k) with false by lia. replace (i + k) with i by lia. mrun.
        done.
      * set (x := src !!! Z.to_nat i). mrun (pipeupd_run a (put_byte x) s p Hp).
        destruct (put_byte_spec x p Hok) as [Hok1 Hq1]; [lia|].
        assert (Hr1 : room (put_byte x p) = room p - 1).
        { unfold room. rewrite Hq1, length_app. cbn [length]. lia. }
        destruct (IH (i + 1) (with_pipe a (put_byte x p) s) (put_byte x p))
          as (p' & Hok' & Hro & Hwo & Hq & E); [apply with_pipe_at|done|done|lia|lia|lia|].
        exists p'. split_and!; [done|done|done| |].
        -- rewrite Hq, Hq1, <- app_assoc. f_equal. rewrite Hr1.
           replace (Z.to_nat k) with (S (Z.to_nat (Z.min (n - (i + 1)) (room p - 1)))) by lia.
           rewrite (drop_S src x (Z.to_nat i)).
           { by replace (Z.to_nat (i + 1)) with (S (Z.to_nat i)) by lia. }
           apply list_lookup_lookup_total_lt. lia.
        -- rewrite E, with_pipe_twice, Hr1. unfold write_end.
           replace (i + 1 + Z.min (n - (i + 1)) (room p - 1)) with (i + k) by lia. done.
    + exists p. replace (Z.to_nat k) with 0%nat by lia.
      rewrite take_0, app_nil_r, with_pipe_id by done. split_and!; auto.
      unfold write_end. by replace (n <=? i + k) with true by lia.
Qed.

Lemma piperead_copy_run f a i n acc s p :
  k_pipe s !! a = Some p -> pipe_ok p -> i <= n -> (Z.to_nat (n - i) <= f)%nat ->
  let k := Z.min (n - i) (Z.of_nat (length (queue p))) in
  exists p', pipe_ok p' /\ readopen p' = readopen p /\ writeopen p' = writeopen p /\
    queue p' = drop (Z.to_nat k) (queue p) /\
    piperead_copy f a i n acc s =
    Ok ((i + k, acc ++ take (Z.to_nat k) (queue p)), with_pipe a p' s).
Proof.
  revert i acc s p. induction f as [|f IH]; intros i acc s p Hp Hok Hi Hf k;
    cbn [piperead_copy].
  - replace (i <? n) with false by lia. exists p. replace k with 0 by lia.
    change (Z.to_nat 0) with 0%nat.
    rewrite take_0, drop_0, app_nil_r, with_pipe_id, Z.add_0_r by done. by split_and!.
  - destruct (Z.ltb_spec i n) as [Hlt|Hge].
    + mrun (pipe_at_run a s p Hp). rewrite (empty_spec p Hok). case_bool_decide as Hq.
      * exists p. assert (Hk : k = 0) by (unfold k; rewrite Hq; cbn [length]; lia).
        rewrite Hk. change (Z.to_nat 0) with 0%nat. rewrite drop_0, take_0, app_nil_r, with_pipe_id, Z.add_0_r by done.
        by split_and!.
      * destruct (take_byte_spec p Hok Hq) as [Hok1 Hq1].
        mrun (pipeupd_run a (fun p => set_nread (u32 (nread p + 1)) p) s p Hp).
        set (p1 := set_nread (u32 (nread p + 1)) p) in *.
        set (x := pp_data p !!! Z.to_nat (nread p mod PIPESIZE)) in *.
        destruct (IH (i + 1) (acc ++ [x]) (with_pipe a p1 s) p1)
          as (p' & Hok' & Hro & Hwo & Hq' & E); [apply with_pipe_at|done|lia|lia|].
        set (k1 := Z.min (n - (i + 1)) (Z.of_nat (length (queue p1)))) in *.
        assert (Hk' : k = k1 + 1 /\ 0 <= k1).
        { unfold k, k1. rewrite Hq1. cbn [length]. lia. }
        clearbody k k1. assert (Hk : Z.to_nat k = S (Z.to_nat k1)) by lia.
        exists p'. split_and!; [done|done|done| |].
        -- by rewrite Hq', Hk, Hq1.
        -- rewrite E, with_pipe_twice, Hk, Hq1. cbn [take]. rewrite <- app_assoc.
           cbn [app]. replace (i + 1 + k1) with (i + k) by lia. done.
    + exists p. replace k with 0 by lia. change (Z.to_nat 0) with 0%nat.
      rewrite take_0, drop_0, app_nil_r, with_pipe_id, Z.add_0_r by done. by split_and!.
Qed.

(** A writer that has woken the readers goes to sleep. *)
Lemma sleep_woken a c s i :
  pinv s -> cur_of s = Some c -> a <> 0 ->
  exists s',
    (do! wakeup (ChNread a) in do! sleep (ChNwrite a) a in ret (Sleeps i)) s
    = Ok (@Sleeps Z i, s') /\
    k_pipe s' = k_pipe s /\ no_sleeper (ChNread a) s' /\
    p_state (pat s' c) = SLEEPING /\ p_chan (pat s' c) = ChNwrite a.
Proof.
  intros HI Hc Ha. set (s2 := woken (ChNread a) s).
  assert (HI2 : pinv s2) by (by apply wakeup_inv).
  destruct (cur_lt s2 c HI2 Hc) as [Hlt _].
  exists (slept c (ChNwrite a) s2).
  change (wakeup (ChNread a)) with (modify (woken (ChNread a))). mrun. fold s2.
  rewrite (bind_Ok _ _ _ _ _ (sleep_run s2 c (ChNwrite a) a HI2 Hc Ha)).
  assert (Hpat := slept_pat s2 c (ChNwrite a)).
  split_and!; [done|done| | |].
  - intros j. rewrite Hpat by done. destruct (decide (c = j)); [by intros _ [=]|].
    apply woken_no_sleeper.
  - rewrite Hpat by done. by rewrite decide_True.
  - rewrite Hpat by done. by rewrite decide_True.
Qed.

(** ** The properties *)

(** (C25) Writing: the bytes that fit are appended to the queue in order.  If
    all fit, the call returns [n]; otherwise it returns -1 if the read end is
    closed or the caller has been killed, and else sleeps, to resume with the
    first byte not stored.  A call that returns [n] or sleeps leaves no
    reader asleep; one that returns -1 wakes nobody. *)
Theorem pipewrite_spec a c src i n s p :
  k_pipe s !! a = Some p -> a <> 0 -> pipe_ok p -> at_cpu (Some c) s ->
  0 <= i <= n -> n <= Z.of_nat (length src) ->
  let k := Z.min (n - i) (room p) in
  exists p', pipe_ok p' /\ readopen p' = readopen p /\ writeopen p' = writeopen p /\
    queue p' = queue p ++ take (Z.to_nat k) (drop (Z.to_nat i) src) /\
    exists o s', pipewrite_from (Z.to_nat (n - i)) a src i n s = Ok (o, s') /\
      k_pipe s' = <[a := p']> (k_pipe s) /\
      ((o = Returns n /\ k = n - i /\ no_sleeper (ChNread a) s') \/
       (o = Returns (-1) /\ k < n - i /\ (readopen p = false \/ p_killed (pat s c) = true) /\
        s' = with_pipe a p' s) \/
       (o = Sleeps (i + k) /\ k < n - i /\ k = room p /\ no_sleeper (ChNread a) s' /\
        p_state (pat s' c) = SLEEPING /\ p_chan (pat s' c) = ChNwrite a)).
Proof.
  intros Hp Ha Hok [HI Hc] Hi Hn k.
  destruct (pipewrite_run (Z.to_nat (n - i)) c a src i n s p Hp Hok Hc Hi Hn)
    as (p' & Hok' & Hro & Hwo & Hq & E); [done|].
  exists p'. split_and!; [done..|]. fold k in E. rewrite E. unfold write_end.
  pose proof (room_range p Hok). set (s1 := with_pipe a p' s).
  destruct (Z.leb_spec n (i + k)) as [Hle|Hgt].
  { eexists _, _. split; [reflexivity|]. split; [reflexivity|]. left.
    split_and!; [done|lia|apply woken_no_sleeper]. }
  mrun. change (p_killed (pat s1 c)) with (p_killed (pat s c)).
  destruct (negb (readopen p) || p_killed (pat s c)) eqn:Eg.
  { eexists _, _. split; [reflexivity|]. split; [reflexivity|]. right; left.
    split_and!; [done|lia| |done].
    apply orb_true_iff in Eg as [Eg|Eg]; [left|by right]. by apply negb_true_iff. }
  destruct (sleep_woken a c s1 (i + k)) as (s' & Es & Hk & Hns & Hst & Hch); [|done|done|].
  { by apply (pinv_view s). }
  rewrite Es. eexists _, _. split; [reflexivity|]. split; [by rewrite Hk|]. right; right.
  split_and!; auto; lia.
Qed.

(** (C26) Reading: an empty pipe whose write end is open puts the reader to
    sleep (or returns -1 to a killed one); otherwise the call returns the
    first [n] bytes of the queue, or all there are, removes them, and leaves
    no writer asleep. *)
Theorem piperead_spec a c n s p :
  k_pipe s !! a = Some p -> a <> 0 -> pipe_ok p -> at_cpu (Some c) s -> 0 <= n ->
  (queue p = [] -> writeopen p = true ->
   piperead a n s =
   if p_killed (pat s c) then Ok (Returns (-1, []), s)
   else Ok (Sleeps 0, slept c (ChNread a) s)) /\
  (queue p <> [] \/ writeopen p = false ->
   let k := Z.min n (Z.of_nat (length (queue p))) in
   exists p' s', pipe_ok p' /\ queue p' = drop (Z.to_nat k) (queue p) /\
     piperead a n s = Ok (Returns (k, take (Z.to_nat k) (queue p)), s') /\
     k_pipe s' = <[a := p']> (k_pipe s) /\ no_sleeper (ChNwrite a) s').
Proof.
  intros Hp Ha Hok [HI Hc] Hn. unfold piperead. mrun (pipe_at_run a s p Hp).
  rewrite (empty_spec p Hok). split.
  - intros Hq Hw. rewrite bool_decide_eq_true_2, Hw by done. cbn [andb].
    mrun (curproc_run s c Hc). mrun. destruct (p_killed (pat s c)); [done|].
    by mrun (sleep_run s c (ChNread a) a HI Hc Ha).
  - intros Hq. set (k := Z.min n (Z.of_nat (length (queue p)))).
    replace (bool_decide (queue p = []) && writeopen p) with false
      by (destruct Hq as [Hq| ->]; [by rewrite bool_decide_eq_false_2|by rewrite andb_comm]).
    destruct (piperead_copy_run (Z.to_nat n) a 0 n [] s p Hp Hok Hn)
      as (p' & Hok' & _ & _ & Hq' & E); [lia|].
    rewrite Z.sub_0_r in Hq', E. fold k in Hq', E. mrun E.
    exists p', (woken (ChNwrite a) (with_pipe a p' s)).
    split_and!; [done|done|done|done|apply woken_no_sleeper].
Qed.

(** (C34) A killed writer that fills the pipe returns -1 without waking the
    readers: a process asleep on the pipe stays asleep although the pipe is
    full, until another write or close. *)
Theorem pipewrite_lost_wakeup a c src n s p j :
  k_pipe s !! a = Some p -> pipe_ok p -> cur_of s = Some c -> p_killed (pat s c) = true ->
  room p < n -> n <= Z.of_nat (length src) ->
  p_state (pat s j) = SLEEPING -> p_chan (pat s j) = ChNread a ->
  exists p' s', pipewrite a src n s = Ok (Returns (-1), s') /\ k_pipe s' !! a = Some p' /\
    Z.of_nat (length (queue p')) = PIPESIZE /\
    p_state (pat s' j) = SLEEPING /\ p_chan (pat s' j) = ChNread a.
Proof.
  intros Hp Hok Hc Hkill Hroom Hn Hst Hch. pose proof (room_range p Hok).
  destruct (pipewrite_run (Z.to_nat n) c a src 0 n s p Hp Hok Hc)
    as (p' & Hok' & _ & _ & Hq & E); [lia|done|lia|].
  exists p', (with_pipe a p' s). unfold pipewrite. rewrite E. split_and!; auto.
  - unfold write_end. replace (n <=? _) with false by lia. mrun.
    change (p_killed (pat _ c)) with (p_killed (pat s c)). by rewrite Hkill, orb_comm.
  - apply with_pipe_at.
  - rewrite Hq, length_app, length_take, length_drop. unfold room in *. lia.
Qed.

(** ** A pipe with three bytes, near the wrap of its counters *)

Definition demo_pipe : pipe :=
  {| pp_data := <[510%nat := 65]> (<[511%nat := 66]> (<[0%nat := 67]> (replicate 512 0)));
     nread := 2 ^ 32 - 2; nwrite := 1; readopen := true; writeopen := true |}.
Definition demo_pipe_kst : kst :=
  with_pipe 4096 demo_pipe
    (demo_kst (demo_proc RUNNING 1 10) (demo_proc RUNNABLE 2 10)
       (set_cproc (Some 0%nat) cpu0)).

Lemma demo_pipe_ok : pipe_ok demo_pipe.
Proof. split; by vm_compute. Qed.

Lemma demo_pipe_at : at_cpu (Some 0%nat) demo_pipe_kst.
Proof.
  eapply at_cpu_view; [|by apply (demo_running (set_cproc (Some 0%nat) cpu0) RUNNABLE 10 10)].
  by split.
Qed.

Lemma pipewrite_spec_witness :
  exists p' o s', pipewrite_from 2 4096 [68; 69] 0 2 demo_pipe_kst = Ok (o, s') /\
    o = Returns 2 /\ k_pipe s' !! 4096 = Some p' /\ queue p' = [65; 66; 67; 68; 69].
Proof.
  destruct (pipewrite_spec 4096 0 [68; 69] 0 2 demo_pipe_kst demo_pipe)
    as (p' & _ & _ & _ & Hq & o & s' & E & Hk & Ho);
    [done|lia|apply demo_pipe_ok|apply demo_pipe_at|lia|cbn; lia|].
  exists p', o, s'. split; [exact E|].
  split; [|split; [by rewrite Hk, lookup_insert_eq|rewrite Hq; vm_compute; reflexivity]].
  destruct Ho as [[Ho _]|[(_ & Hlt & _)|(_ & Hlt & _)]]; [done|by vm_compute in Hlt..].
Defined.

Lemma piperead_spec_witness :
  exists s', piperead 4096 2 demo_pipe_kst = Ok (Returns (2, [65; 66]), s').
Proof.
  destruct (piperead_spec 4096 0 2 demo_pipe_kst demo_pipe) as [_ H];
    [done|lia|apply demo_pipe_ok|apply demo_pipe_at|lia|].
  destruct H as (p' & s' & _ & _ & E & _); [left; vm_compute; discriminate|].
  exists s'. rewrite E. vm_compute. reflexivity.
Defined.

Lemma pipewrite_lost_wakeup_witness :
  exists s s' : kst, pipewrite 4096 (replicate 600 7) 600 s = Ok (Returns (-1), s') /\
    p_state (pat s' 1) = SLEEPING /\ p_chan (pat s' 1) = ChNread 4096.
Proof.
  set (q := {| pp_data := replicate 512 0; nread := 0; nwrite := 0;
               readopen := true; writeopen := true |}).
  set (s := with_pipe 4096 q (demo_kst (set_killed true (demo_proc RUNNING 1 10))
    (set_chan (ChNread 4096) (demo_proc SLEEPING 2 10)) (set_cproc (Some 0%nat) cpu0))).
  destruct (pipewrite_lost_wakeup 4096 0 (replicate 600 7) 600 s q 1)
    as (p' & s' & E & _ & _ & H1 & H2);
    [reflexivity|split; by vm_compute|reflexivity|reflexivity|by vm_compute|by vm_compute
    |reflexivity|reflexivity|].
  exists s, s'. split; [exact E|]. split; [exact H1|exact H2].
Defined.
