(* ===== verification/ConsoleSpec.v ===== *)
(** * The console: screen and line editor

    Output never leaves the screen's memory, and input is a line editor: the
    bytes between [r] and [w] are committed and may be read, those between
    [w] and [e] are the line being edited. *)

From S2P Require Import Prelude Param Bytes Memory Kalloc Vm Sleeplock Bio Log Blocks.
From S2P Require Import LogBlocks Fs Ring Hoare Kernel Proc Console Pipe ProcInv Sched PipeSpec.

(** ** The screen *)

Record crt_ok (s : console) : Prop := {
  ct_len : length (crt s) = 2000%nat;
  ct_pos : 0 <= crt_pos s < 24 * 80
}.

(** Everything but the screen and the serial line is as before. *)
Definition same_input (s s' : console) : Prop :=
  in_buf s' = in_buf s /\ in_r s' = in_r s /\ in_w s' = in_w s /\ in_e s' = in_e s /\
  uart s' = uart s /\ uart_rx s' = uart_rx s /\ kbd_in s' = kbd_in s /\
  kbd_shift s' = kbd_shift s.

#[global] Instance same_input_refl : Reflexive same_input.
Proof. by repeat split. Qed.
#[global] Instance same_input_trans : Transitive same_input.
Proof. intros a b c (?&?&?&?&?&?&?&?) (?&?&?&?&?&?&?&?). by repeat split; etrans. Qed.

(** Output code: it returns, and keeps the screen in order and the input. *)
Definition outputs {A} (c : M console A) : Prop :=
  forall s, crt_ok s -> exists a s', c s = Ok (a, s') /\ crt_ok s' /\ same_input s s'.

Lemma outputs_bind {A B} (c : M console A) (k : A -> M console B) :
  outputs c -> (forall a, outputs (k a)) -> outputs (bind c k).
Proof.
  intros Hc Hk s Hs. destruct (Hc s Hs) as (a & s1 & E1 & H1 & Hs1).
  destruct (Hk a s1 H1) as (b & s2 & E2 & H2 & Hs2). exists b, s2.
  rewrite (bind_Ok _ _ _ _ _ E1). split_and!; [done|done|by etrans].
Qed.

Lemma outputs_ret {A} (a : A) : outputs (ret a).
Proof. intros s Hs. by exists a, s. Qed.

(** The cursor register gives back the position stored in it. *)
Lemma cursor_read p :
  0 <= p < 2 ^ 16 -> Z.lor (Z.shiftl (u8 (Z.shiftr p 8)) 8) (u8 p) = p.
Proof.
  intros Hp. apply Z.bits_inj'. intros k Hk. unfold u8. rewrite Z.lor_spec.
  rewrite Z.shiftl_spec by done. destruct (decide (k < 8)).
  - rewrite Z.testbit_neg_r by lia. by rewrite Z.mod_pow2_bits_low by lia.
  - rewrite (Z.mod_pow2_bits_high p) by lia. rewrite orb_false_r.
    destruct (decide (k - 8 < 8)).
    + rewrite Z.mod_pow2_bits_low, Z.shiftr_spec by lia. f_equal. lia.
    + rewrite Z.mod_pow2_bits_high by lia. symmetry. destruct (decide (p = 0)) as [->|].
      { apply Z.bits_0. }
      apply Z.bits_above_log2; [lia|]. apply Z.log2_lt_pow2; [lia|].
      eapply Z.lt_le_trans; [apply Hp|]. apply Z.pow_le_mono_r; lia.
Qed.

Lemma scroll_length l : length l = 2000%nat -> length (scroll_up l) = 2000%nat.
Proof.
  intros H. unfold scroll_up. rewrite length_app, length_take, !length_drop. lia.
Qed.

Lemma clear_length pos l :
  0 <= pos <= 24 * 80 -> length l = 2000%nat -> length (clear_from pos l) = 2000%nat.
Proof.
  intros Hp H. unfold clear_from.
  rewrite !length_app, length_take, length_replicate, length_drop. lia.
Qed.

Lemma crt_store_run i v s :
  0 <= i < Z.of_nat (length (crt s)) ->
  crt_store i v s = Ok (tt, set_crt (<[Z.to_nat i := v]> (crt s)) s).
Proof.
  intros Hi. unfold crt_store. mrun. replace (_ && _) with true; [done|].
  symmetry. apply andb_true_iff. lia.
Qed.

(** The part of [cgaputc] after the cursor has moved to [pos]. *)
Lemma cga_tail pos s s0 :
  length (crt s) = 2000%nat -> same_input s0 s -> 0 <= pos <= 24 * 80 ->
  exists s',
    (if (pos <? 0) || (25 * 80 <? pos) then panic "pos under/overflow"
     else
       let! pos :=
         (if 24 <=? pos / 80 then
            do! modify (fun s => set_crt (scroll_up (crt s)) s) in
            let pos := pos - 80 in
            do! modify (fun s => set_crt (clear_from pos (crt s)) s) in
            ret pos
          else ret pos) in
       do! modify (set_crtpos (u16 pos)) in
       crt_store pos (Z.lor 32 1792)) s = Ok (tt, s') /\ crt_ok s' /\ same_input s0 s'.
Proof.
  intros Hl Hs Hp. replace (_ || _) with false by lia.
  destruct (Z.leb_spec 24 (pos / 80)) as [Hrow|Hrow].
  - assert (Hpos : pos = 1920) by (pose proof (Z.mul_div_le pos 80 ltac:(lia)); lia). subst pos.
    mrun. cbv zeta. rewrite crt_store_run.
    2:{ cbn [crt set_crt set_crtpos]. rewrite clear_length; [lia|lia|].
        by apply scroll_length. }
    eexists. split; [reflexivity|]. split; [|done]. split.
    + cbn [crt set_crt set_crtpos]. rewrite length_insert. apply clear_length; [lia|].
      by apply scroll_length.
    + cbn [crt_pos set_crt set_crtpos]. vm_compute. split; congruence.
  - assert (Hpos : pos < 1920).
    { destruct (decide (pos = 1920)) as [->|]; [by vm_compute in Hrow|lia]. }
    mrun. rewrite crt_store_run by (cbn [crt set_crtpos]; lia).
    eexists. split; [reflexivity|]. split; [|done]. split.
    + cbn [crt set_crt set_crtpos]. by rewrite length_insert.
    + cbn [crt_pos set_crt set_crtpos]. unfold u16. rewrite Z.mod_small; lia.
Qed.

Lemma cgaputc_outputs c : outputs (cgaputc c).
Proof.
  intros s Hs. pose proof Hs as [Hl Hp]. unfold cgaputc. mrun.
  rewrite cursor_read by lia.
  destruct (c =? 10); [|destruct (c =? BACKSPACE)]; mrun.
  - destruct (cga_tail (crt_pos s + (80 - crt_pos s mod 80)) s s)
      as (s' & E & ?); [done|reflexivity| |by eauto].
    pose proof (Z.div_mod (crt_pos s) 80 ltac:(lia)).
    pose proof (Z.mod_pos_bound (crt_pos s) 80 ltac:(lia)). lia.
  - destruct (cga_tail (if 0 <? crt_pos s then crt_pos s - 1 else crt_pos s) s s)
      as (s' & E & ?); [done|reflexivity| |by eauto].
    destruct (Z.ltb_spec 0 (crt_pos s)); lia.
  - rewrite (bind_Ok _ _ _ _ _ (crt_store_run (crt_pos s) (Z.lor (Z.land c 255) 1792) s
      ltac:(lia))). mrun.
    destruct (cga_tail (crt_pos s + 1)
      (set_crt (<[Z.to_nat (crt_pos s) := Z.lor (Z.land c 255) 1792]> (crt s)) s) s)
      as (s' & E & ?); [|done|lia|by eauto].
    cbn [crt set_crt]. by rewrite length_insert.
Qed.

Lemma uartputc_outputs c : outputs (uartputc c).
Proof.
  intros s Hs. unfold uartputc. mrun. destruct (negb (uart s)); [by exists tt, s|].
  eexists _, _. split; [reflexivity|]. split; [|done]. by destruct Hs.
Qed.

Lemma consputc_outputs c : outputs (consputc c).
Proof.
  unfold consputc. apply outputs_bind; [|intros; apply cgaputc_outputs].
  destruct (c =? BACKSPACE); repeat first [apply uartputc_outputs|apply outputs_bind; [|intros]].
Qed.

Lemma putall_outputs l : outputs (putall l).
Proof.
  induction l as [|c l IH]; cbn [putall]; [apply outputs_ret|].
  apply outputs_bind; [apply consputc_outputs|done].
Qed.

(** ** Line editing *)

Lemma INPUT_BUF_div : (INPUT_BUF | 2 ^ 32).
Proof. by exists (2 ^ 25). Qed.

Definition committed (s : console) : list Z := ring INPUT_BUF (in_buf s) (in_r s) (in_w s).
Definition editing (s : console) : list Z := ring INPUT_BUF (in_buf s) (in_w s) (in_e s).

Record cons_ok (s : console) : Prop := {
  co_crt : crt_ok s;
  co_len : length (in_buf s) = Z.to_nat INPUT_BUF;
  co_r : 0 <= in_r s < 2 ^ 32;
  co_w : 0 <= in_w s < 2 ^ 32;
  co_e : 0 <= in_e s < 2 ^ 32;
  co_room : u32 (in_w s - in_r s) + u32 (in_e s - in_w s) <= INPUT_BUF;
  co_line : 10 ∉ editing s
}.

(** The line editor: what a character does to the committed bytes and the
    line; [true] if a line has been committed. *)
Definition edit (st : list Z * list Z) (c : Z) : list Z * list Z * bool :=
  let '(com, ed) := st in
  if c =? C 80 then (com, ed, false)
  else if c =? C 85 then (com, [], false)
  else if (c =? C 72) || (c =? 127) then (com, removelast ed, false)
  else if negb (c =? 0) && (Z.of_nat (length com + length ed) <? INPUT_BUF) then
    let c := if c =? 13 then 10 else c in
    let ed := ed ++ [c] in
    if (c =? 10) || (c =? C 68) || (Z.of_nat (length com + length ed) =? INPUT_BUF)
    then (com ++ ed, [], true)
    else (com, ed, false)
  else (com, ed, false).

Definition abs (s : console) : list Z * list Z := (committed s, editing s).

Lemma length_abs s :
  cons_ok s ->
  Z.of_nat (length (committed s)) = u32 (in_w s - in_r s) /\
  Z.of_nat (length (editing s)) = u32 (in_e s - in_w s) /\
  u32 (in_e s - in_r s) = u32 (in_w s - in_r s) + u32 (in_e s - in_w s).
Proof.
  intros H. split_and!; [apply length_ring..|]. apply u32_sub_add.
  pose proof (co_room s H). unfold INPUT_BUF in *. lia.
Qed.

Lemma same_input_ok s s' : crt_ok s' -> same_input s s' -> cons_ok s -> cons_ok s'.
Proof.
  intros Hc (E1 & E2 & E3 & E4 & _) [H1 H2 H3 H4 H5 H6 H7].
  split; unfold editing; rewrite ?E1, ?E2, ?E3, ?E4; auto.
Qed.

Lemma same_input_abs s s' : same_input s s' -> abs s' = abs s.
Proof. intros (E1 & E2 & E3 & E4 & _). unfold abs, committed, editing. by rewrite E1, E2, E3, E4. Qed.

(** The devices are as before. *)
Definition same_dev (s s' : console) : Prop :=
  uart_rx s' = uart_rx s /\ kbd_in s' = kbd_in s /\ uart s' = uart s /\
  kbd_shift s' = kbd_shift s.

Lemma same_input_dev s s' : same_input s s' -> same_dev s s'.
Proof. intros (_ & _ & _ & _ & ? & ? & ? & ?). by repeat split. Qed.

#[global] Instance same_dev_trans : Transitive same_dev.
Proof. intros a b c (?&?&?&?) (?&?&?&?). by repeat split; etrans. Qed.

(** Removing the last character of the line. *)
Lemma erase_run s :
  cons_ok s -> in_e s <> in_w s ->
  exists s', erase s = Ok (tt, s') /\ cons_ok s' /\
    abs s' = (committed s, removelast (editing s)) /\
    same_dev s s'.
Proof.
  intros H Hne. pose proof H as [H1 H2 H3 H4 H5 H6 H7].
  pose proof (u32_sub_pos (in_w s) (in_e s) H4 H5 Hne) as Hpos.
  set (s1 := set_ine (u32 (in_e s - 1)) s).
  assert (Hed : editing s = editing s1 ++ [in_at s (u32 (in_e s - 1))]).
  { exact (ring_unpush INPUT_BUF INPUT_BUF_div (in_buf s) (in_w s) (in_e s) Hpos). }
  assert (Hc1 : crt_ok s1) by (by destruct H1).
  assert (Hok1 : cons_ok s1).
  { split; auto; unfold s1; cbn [in_r in_w in_e in_buf set_ine].
    - apply u32_range.
    - rewrite u32_sub_back by done. lia.
    - intros Hin. apply H7. rewrite Hed. apply elem_of_app. by left. }
  destruct (consputc_outputs BACKSPACE s1 Hc1) as ([] & s2 & E2 & Hc2 & Hs2).
  exists s2. unfold erase. mrun. fold s1. rewrite E2. split; [done|].
  split; [by eapply same_input_ok|].
  split; [|by apply (same_input_dev s1)].
  rewrite (same_input_abs _ _ Hs2), Hed, removelast_last. done.
Qed.

(** Control-U empties the line. *)
Lemma kill_line_run f s :
  cons_ok s -> (length (editing s) <= f)%nat ->
  exists s', kill_line f s = Ok (tt, s') /\ cons_ok s' /\ abs s' = (committed s, []) /\
    same_dev s s'.
Proof.
  revert s. induction f as [|f IH]; intros s H Hf; cbn [kill_line]; mrun;
    destruct (length_abs s H) as (_ & Hle & _); pose proof (co_w s H) as Hw;
    pose proof (co_e s H) as He.
  - assert (E : editing s = []) by (by apply length_zero_iff_nil; lia).
    assert (in_w s = in_e s) as ->.
    { apply u32_sub_0; [done|done|]. rewrite <- Hle, E. done. }
    rewrite Z.eqb_refl. exists s. unfold abs. by rewrite E.
  - destruct (Z.eqb_spec (in_e s) (in_w s)) as [Ee|Ne]; cbn [negb andb].
    + exists s. split_and!; try done. unfold abs. f_equal. unfold editing. rewrite Ee.
      apply ring_nil. by rewrite Z.sub_diag.
    + pose proof (u32_sub_pos (in_w s) (in_e s) Hw He Ne) as Hpos.
      assert (Hed : editing s = ring INPUT_BUF (in_buf s) (in_w s) (u32 (in_e s - 1))
                                ++ [in_at s (u32 (in_e s - 1))]).
      { exact (ring_unpush INPUT_BUF INPUT_BUF_div (in_buf s) (in_w s) (in_e s) Hpos). }
      destruct (Z.eqb_spec (in_at s (u32 (in_e s - 1))) 10) as [E10|_]; cbn [negb].
      { exfalso. apply (co_line s H). rewrite Hed, E10. apply elem_of_app. right. by left. }
      destruct (erase_run s H Ne) as (s1 & E1 & H1 & Ha1 & R1).
      mrun E1. injection Ha1 as Hcom Hed1. destruct (IH s1 H1) as (s2 & E2 & H2 & Ha2 & Q1).
      { rewrite Hed1. rewrite Hed, removelast_last. rewrite Hed, length_app in Hf.
        cbn [length] in Hf. lia. }
      exists s2. rewrite E2, Ha2, Hcom. split_and!; [done|done|done|by etrans].
Qed.

(** A character added to the line. *)
Definition typed (c : Z) (s : console) : console :=
  set_ine (u32 (in_e s + 1))
    (set_inbuf (<[Z.to_nat (in_e s mod INPUT_BUF) := c]> (in_buf s)) s).

Lemma typed_spec c s :
  cons_ok s -> u32 (in_e s - in_r s) < INPUT_BUF ->
  committed (typed c s) = committed s /\ editing (typed c s) = editing s ++ [c] /\
  u32 (in_e (typed c s) - in_w s) = u32 (in_e s - in_w s) + 1.
Proof.
  intros H Hroom. destruct (length_abs s H) as (_ & _ & Hadd).
  pose proof H as [_ H2 H3 H4 H5 H6 H7]. unfold INPUT_BUF in *.
  pose proof (u32_range (in_w s - in_r s)). pose proof (u32_range (in_e s - in_w s)).
  split_and!.
  - apply (ring_store 128 ltac:(done) INPUT_BUF_div (in_buf s) (in_r s) (in_w s) (in_e s) c).
    lia.
  - apply (ring_push 128 ltac:(done) INPUT_BUF_div (in_buf s) (in_w s) (in_e s) c);
      [done|lia|lia].
  - apply u32_sub_succ. lia.
Qed.

(** The typed character is committed with the line, or stays in it. *)
Lemma typed_commit c s s' :
  cons_ok s -> u32 (in_e s - in_r s) < INPUT_BUF -> crt_ok s' -> same_input (typed c s) s' ->
  cons_ok (set_inw (in_e s') s') /\
  abs (set_inw (in_e s') s') = (committed s ++ editing s ++ [c], []).
Proof.
  intros H Hroom Hc Hs. destruct (typed_spec c s H Hroom) as (T1 & T2 & T3).
  destruct (length_abs s H) as (_ & _ & Hadd). pose proof H as [_ H2 H3 H4 H5 H6 H7].
  unfold INPUT_BUF in *. pose proof (u32_range (in_w s - in_r s)).
  pose proof (u32_range (in_e s - in_w s)).
  destruct Hs as (E1 & E2 & E3 & E4 & _).
  assert (Hd : forall d, ring 128 d (in_e s') (in_e s') = [])
    by (intros d; apply ring_nil; by rewrite Z.sub_diag).
  assert (Hcom : committed (set_inw (in_e s') s') = committed s ++ editing s ++ [c]).
  { rewrite <- T2, <- T1. unfold committed, editing, INPUT_BUF.
    cbn [in_r in_w in_e in_buf set_inw]. rewrite E1, E2, E4.
    apply (ring_app 128 INPUT_BUF_div (in_buf (typed c s)) (in_r s) (in_w s)).
    rewrite T3. lia. }
  assert (He : editing (set_inw (in_e s') s') = []) by apply Hd.
  split.
  - split; try (rewrite He; apply not_elem_of_nil);
      cbn [in_r in_w in_e in_buf set_inw]; rewrite ?E1, ?E2, ?E4; auto.
    + by destruct Hc.
    + cbn [in_buf typed set_inbuf set_ine]. by rewrite length_insert.
    + apply u32_range.
    + apply u32_range.
    + rewrite Z.sub_diag. change (u32 0) with 0. cbn [in_r typed set_inbuf set_ine].
      rewrite (u32_sub_add (in_r s) (in_w s)); rewrite T3; unfold INPUT_BUF; lia.
  - unfold abs. by rewrite Hcom, He.
Qed.

Lemma typed_stay c s s' :
  cons_ok s -> u32 (in_e s - in_r s) < INPUT_BUF -> crt_ok s' -> same_input (typed c s) s' ->
  c <> 10 -> cons_ok s' /\ abs s' = (committed s, editing s ++ [c]).
Proof.
  intros H Hroom Hc Hs Hn. destruct (typed_spec c s H Hroom) as (T1 & T2 & T3).
  destruct (length_abs s H) as (_ & _ & Hadd).
  pose proof (same_input_abs _ _ Hs) as Ha. unfold abs in *. rewrite Ha, T1, T2.
  split; [|done]. pose proof H as [_ H2 H3 H4 H5 H6 H7].
  destruct Hs as (E1 & E2 & E3 & E4 & _). injection Ha as _ Hed.
  split; rewrite ?E1, ?E2, ?E3, ?E4; auto.
  - cbn [in_buf typed set_inbuf set_ine]. by rewrite length_insert.
  - apply u32_range.
  - change (in_w (typed c s)) with (in_w s). change (in_r (typed c s)) with (in_r s).
    rewrite T3. unfold INPUT_BUF in *. lia.
  - rewrite Hed, T2, elem_of_app, elem_of_cons. intros [Hi|[Hi|Hi]]; [done|done|].
    by apply not_elem_of_nil in Hi.
Qed.

Lemma input_char_run c s :
  cons_ok s -> 0 <= c < 256 ->
  exists b s', input_char c s = Ok (b, s') /\ cons_ok s' /\ edit (abs s) c = (abs s', b) /\
    same_dev s s'.
Proof.
  intros H Hc. unfold input_char, edit, abs at 1. cbv beta iota.
  destruct (length_abs s H) as (L1 & L2 & Hadd). pose proof (co_room s H) as Hroom.
  destruct (c =? C 80); [by exists false, s|].
  destruct (c =? C 85).
  { destruct (kill_line_run (Z.to_nat INPUT_BUF) s H) as (s' & E & H' & Ha & ?).
    { unfold INPUT_BUF in *. pose proof (u32_range (in_w s - in_r s)). lia. }
    mrun E. exists false, s'. by rewrite Ha. }
  destruct ((c =? C 72) || (c =? 127)).
  { mrun. destruct (Z.eqb_spec (in_e s) (in_w s)) as [Ee|Ne]; cbn [negb]; mrun.
    - exists false, s. split_and!; try done. unfold abs. do 2 f_equal.
      unfold editing. rewrite Ee, ring_nil; [done|]. by rewrite Z.sub_diag.
    - destruct (erase_run s H Ne) as (s' & E & H' & Ha & ?).
      mrun E. exists false, s'. by rewrite Ha. }
  mrun. rewrite <- Hadd in Hroom.
  replace (Z.of_nat (length (committed s) + length (editing s)))
    with (u32 (in_e s - in_r s)) by lia.
  destruct (negb (c =? 0) && (u32 (in_e s - in_r s) <? INPUT_BUF)) eqn:Eg; [|by exists false, s].
  apply andb_true_iff in Eg as [_ Hlt%Z.ltb_lt].
  set (c' := if c =? 13 then 10 else c). assert (Hu : u8 c' = c').
  { apply u8_small. unfold c'. destruct (c =? 13); lia. }
  mrun. rewrite Hu. fold (typed c' s).
  assert (Hct : crt_ok (typed c' s)) by (by destruct H as [[] ]).
  destruct (consputc_outputs c' (typed c' s) Hct) as ([] & s1 & E1 & Hc1 & Hs1). mrun E1. mrun.
  destruct (typed_spec c' s H Hlt) as (T1 & T2 & T3).
  assert (Ef : (in_e s1 =? u32 (in_r s1 + INPUT_BUF)) =
    (Z.of_nat (length (committed s) + length (editing s ++ [c'])) =? INPUT_BUF)).
  { destruct Hs1 as (_ & -> & _ & -> & _). apply Bool.eq_iff_eq_true. rewrite !Z.eqb_eq.
    cbn [in_r typed set_ine set_inbuf]. rewrite (u32_full INPUT_BUF); [|done|apply u32_range].
    rewrite length_app. cbn [length]. pose proof (u32_sub_succ (in_r s) (in_e s)) as Hss.
    unfold INPUT_BUF in *. cbn [in_e typed set_ine set_inbuf]. rewrite Hss; lia. }
  rewrite Ef. assert (Hdev : same_dev s s1) by (by apply (same_input_dev (typed c' s))).
  destruct ((c' =? 10) || (c' =? C 68) || _) eqn:Ec.
  - destruct (typed_commit c' s s1 H Hlt Hc1 Hs1) as [Hok Ha].
    exists true, (set_inw (in_e s1) s1). by rewrite Ha.
  - destruct (typed_stay c' s s1 H Hlt Hc1 Hs1) as [Hok Ha].
    { intros E10. by rewrite E10 in Ec. }
    exists false, s1. by rewrite Ha.
Qed.

(** ** Formatted output *)

(** The conversions of a format agree with the arguments. *)
Fixpoint fmt_ok (fmt : list Z) (args : list carg) : bool :=
  match fmt with
  | [] => true
  | c :: fmt =>
      if negb (c =? 37) then fmt_ok fmt args
      else
        match fmt with
        | [] => true
        | c :: fmt =>
            if (c =? 100) || (c =? 120) || (c =? 112) then
              match args with CNum _ :: args => fmt_ok fmt args | _ => false end
            else if c =? 115 then
              match args with CStr _ :: args => fmt_ok fmt args | _ => false end
            else fmt_ok fmt args
        end
  end.

Lemma cprintf_outputs fmt args : fmt_ok fmt args = true -> outputs (cprintf fmt args).
Proof.
  enough (H : forall n fmt args, (length fmt <= n)%nat -> fmt_ok fmt args = true ->
    outputs (cprintf fmt args)) by (by apply (H (length fmt))).
  clear. intros n. induction n as [|n IH]; intros [|c fmt] args Hn Hf;
    try (cbn in Hn; lia); try apply outputs_ret.
  cbn [cprintf fmt_ok length] in *. destruct (negb (c =? 37)).
  { apply outputs_bind; [apply consputc_outputs|intros; apply IH; [lia|done]]. }
  destruct fmt as [|d fmt]; [apply outputs_ret|]. cbn [length] in Hn.
  destruct (d =? 100) eqn:E1; cbn [orb] in Hf.
  { destruct args as [|[v|z] args]; try done.
    apply outputs_bind; [apply putall_outputs|intros; apply IH; [lia|done]]. }
  destruct ((d =? 120) || (d =? 112)) eqn:E2.
  { destruct args as [|[v|z] args]; try done.
    apply outputs_bind; [apply putall_outputs|intros; apply IH; [lia|done]]. }
  destruct (d =? 115).
  { destruct args as [|[v|z] args]; try done.
    apply outputs_bind; [apply putall_outputs|intros; apply IH; [lia|done]]. }
  destruct (d =? 37).
  - apply outputs_bind; [apply consputc_outputs|intros; apply IH; [lia|done]].
  - do 2 (apply outputs_bind; [apply consputc_outputs|intros]). apply IH; [lia|done].
Qed.

Lemma print_pcs_outputs pcs : outputs (print_pcs pcs).
Proof.
  induction pcs as [|pc pcs IH]; cbn [print_pcs]; [by apply cprintf_outputs|].
  apply outputs_bind; [|done]. apply cprintf_outputs. by vm_compute.
Qed.

Lemma print_procs_outputs ps : outputs (print_procs ps).
Proof.
  induction ps as [|[[[pid st] name] pcs] ps IH]; cbn [print_procs]; [apply outputs_ret|].
  apply outputs_bind; [apply cprintf_outputs; by vm_compute|intros].
  apply outputs_bind; [apply print_pcs_outputs|done].
Qed.

(** ** The interrupt handlers *)

(** A sequence of characters; [true] if a line has been committed. *)
Fixpoint edits (st : list Z * list Z) (cs : list Z) : list Z * list Z * bool :=
  match cs with
  | [] => (st, false)
  | c :: cs =>
      let '(st1, b1) := edit st c in
      let '(st2, b2) := edits st1 cs in
      (st2, b1 || b2)
  end.

(** The characters a device has ready: [src] of the state.  Reading one
    takes it away, and the line editor does not change it. *)
Record char_dev (getc : M console Z) (src : console -> list Z) : Prop := {
  cd_nil : forall s, src s = [] -> getc s = Ok (-1, s);
  cd_cons : forall s c cs, src s = c :: cs -> exists s', getc s = Ok (c, s') /\
    src s' = cs /\ abs s' = abs s /\ (cons_ok s -> cons_ok s');
  cd_dev : forall s s', same_dev s s' -> src s' = src s
}.

(** Console code run in the kernel. *)
Lemma kcons_run {A} (c : M console A) s a k :
  c (k_cons s) = Ok (a, k) -> kcons c s = Ok (a, set_kcons k s).
Proof. apply zoom_Ok. Qed.

(** The kernel state with another console and with readers woken up. *)
Definition reader_free (b : bool) (s s' : kst) : Prop :=
  (b = true -> no_sleeper ChInput s') /\ (b = false -> k_proc s' = k_proc s).

Lemma no_sleeper_woken c d s : no_sleeper c s -> no_sleeper c (woken d s).
Proof.
  intros H j. unfold woken. rewrite pat_fmap by done. unfold wake.
  destruct (in_state SLEEPING (pat s j)) eqn:Es; cbn [andb]; [|apply H].
  case_bool_decide; [done|apply H].
Qed.

Lemma consoleintr_loop_run f getc src s dump :
  char_dev getc src -> cons_ok (k_cons s) ->
  Forall (fun c => 0 <= c < 256) (src (k_cons s)) -> (length (src (k_cons s)) < f)%nat ->
  exists d b s', consoleintr_loop f getc dump s = Ok (d, s') /\ cons_ok (k_cons s') /\
    edits (abs (k_cons s)) (src (k_cons s)) = (abs (k_cons s'), b) /\
    (no_sleeper ChInput s \/ b = true -> no_sleeper ChInput s').
Proof.
  intros Hdev. revert s dump. induction f as [|f IH]; intros s dump Hok Hr Hf; [lia|].
  cbn [consoleintr_loop]. destruct (src (k_cons s)) as [|c cs] eqn:Es.
  - rewrite (bind_Ok _ _ _ _ _ (kcons_run _ _ _ _ (cd_nil _ _ Hdev _ Es))). cbn.
    exists dump, false, s. replace (set_kcons (k_cons s) s) with s by (by destruct s).
    split_and!; try done. by intros [|].
  - destruct (cd_cons _ _ Hdev _ _ _ Es) as (k1 & E1 & Hs1 & Ha1 & Hok1).
    rewrite (bind_Ok _ _ _ _ _ (kcons_run _ _ _ _ E1)).
    apply Forall_cons in Hr as [Hc Hr]. replace (c <? 0) with false by lia.
    destruct (input_char_run c k1 (Hok1 Hok) Hc) as (b & k2 & E2 & Hok2 & Ha2 & Hd2).
    rewrite (bind_Ok _ _ _ _ _ (kcons_run _ (set_kcons k1 s) _ _ E2)).
    set (s2 := set_kcons k2 (set_kcons k1 s)).
    assert (Es2 : src (k_cons s2) = cs).
    { change (k_cons s2) with k2. by rewrite (cd_dev _ _ Hdev k1 k2 Hd2). }
    set (s3 := if b then woken ChInput s2 else s2).
    assert (E3 : (if b then wakeup ChInput else ret tt) s2 = Ok (tt, s3)) by (by destruct b).
    rewrite (bind_Ok _ _ _ _ _ E3).
    assert (Ek : k_cons s3 = k2) by (by unfold s3; destruct b).
    assert (Hns : no_sleeper ChInput s \/ b = true -> no_sleeper ChInput s3).
    { unfold s3. intros [Hn| ->]; [|apply woken_no_sleeper].
      destruct b; [apply woken_no_sleeper|exact Hn]. }
    destruct (IH s3 (dump || (c =? C 80))) as (d & b' & s' & E & Hok' & Ha & Hn').
    { by rewrite Ek. } { rewrite Ek. by rewrite <- Es2 in Hr. }
    { rewrite Ek. change k2 with (k_cons s2). rewrite Es2. cbn [length] in Hf. lia. }
    exists d, (b || b'), s'. rewrite E. split; [done|]. split; [done|]. split.
    + cbn [edits]. rewrite <- Ha1, Ha2. rewrite Ek in Ha. change k2 with (k_cons s2) in Ha.
      rewrite Es2 in Ha. change (k_cons s2) with k2 in Ha. by rewrite Ha.
    + intros [Hn|Hb]; apply Hn'; [left; apply Hns; by left|].
      destruct b; [left; apply Hns; by right|by right].
Qed.

Lemma consoleintr_run getc src s :
  char_dev getc src -> cons_ok (k_cons s) ->
  Forall (fun c => 0 <= c < 256) (src (k_cons s)) ->
  (length (src (k_cons s)) <= length (kbd_in (k_cons s)) + length (uart_rx (k_cons s)))%nat ->
  exists b s', consoleintr getc s = Ok (tt, s') /\ cons_ok (k_cons s') /\
    edits (abs (k_cons s)) (src (k_cons s)) = (abs (k_cons s'), b) /\
    (b = true -> no_sleeper ChInput s').
Proof.
  intros Hdev Hok Hr Hl. unfold consoleintr. mrun.
  destruct (consoleintr_loop_run (S (length (kbd_in (k_cons s)) + length (uart_rx (k_cons s))))
    getc src s false Hdev Hok Hr) as (d & b & s1 & E & Hok1 & Ha & Hn); [lia|].
  rewrite (bind_Ok _ _ _ _ _ E). destruct d.
  - mrun. destruct (print_procs_outputs (procdump s1) (k_cons s1) (co_crt _ Hok1))
      as ([] & k2 & E2 & Hc2 & Hs2).
    exists b, (set_kcons k2 s1). rewrite (kcons_run _ _ _ _ E2). split_and!; auto.
    + cbn [k_cons set_kcons]. by eapply same_input_ok.
    + cbn [k_cons set_kcons]. by rewrite (same_input_abs _ _ Hs2).
  - exists b, s1. split_and!; auto.
Qed.

(** ** The serial port and the keyboard as sources of characters *)

Definition uart_chars (s : console) : list Z := if uart s then uart_rx s else [].

Lemma uart_dev : char_dev uartgetc uart_chars.
Proof.
  unfold uart_chars. split.
  - intros s. unfold uartgetc. mrun. destruct (uart s); cbn [negb]; [|done]. by intros ->.
  - intros s c cs. unfold uartgetc. mrun. destruct (uart s) eqn:Eu; cbn [negb]; [|done].
    intros ->. mrun. exists (set_rx cs s). cbn [uart uart_rx set_rx]. rewrite Eu.
    split_and!; [done|done|done|]. by intros [[] ].
  - intros s s' (-> & _ & -> & _). done.
Qed.

(** The modifiers after a scan code, and the character it yields. *)
Definition key (shift data : Z) : Z * Z :=
  if data =? 224 then (Z.lor shift E0ESC, 0)
  else if has data 128 then
    let data := if has shift E0ESC then data else Z.land data 127 in
    (Z.land shift (u32 (Z.lnot (Z.lor (shiftcode data) E0ESC))), 0)
  else
    let '(data, shift) :=
      if has shift E0ESC then (Z.lor data 128, Z.land shift (u32 (Z.lnot E0ESC)))
      else (data, shift) in
    let shift := Z.lxor (Z.lor shift (shiftcode data)) (togglecode data) in
    (shift, key_char shift data).

Fixpoint keys (shift : Z) (codes : list Z) : list Z :=
  match codes with
  | [] => []
  | d :: codes => let '(shift, c) := key shift d in c :: keys shift codes
  end.

Definition kbd_chars (s : console) : list Z := keys (kbd_shift s) (kbd_in s).

Lemma kbdgetc_run s d rest :
  kbd_in s = d :: rest ->
  kbdgetc s = Ok ((key (kbd_shift s) d).2,
                  set_kbdshift (key (kbd_shift s) d).1 (set_kbdin rest s)).
Proof.
  intros E. unfold kbdgetc, key. mrun. rewrite E. mrun. destruct (d =? 224); [done|].
  destruct (has d 128); [done|]. by destruct (has (kbd_shift s) E0ESC).
Qed.

Lemma kbd_dev : char_dev kbdgetc kbd_chars.
Proof.
  split.
  - intros s. unfold kbd_chars, kbdgetc. mrun. destruct (kbd_in s) as [|d r]; [done|].
    cbn [keys]. by destruct (key _ _).
  - intros s c cs. unfold kbd_chars. destruct (kbd_in s) as [|d rest] eqn:E; [done|].
    cbn [keys]. rewrite (kbdgetc_run s d rest E). destruct (key (kbd_shift s) d) as [sh x].
    intros [= <- <-]. eexists. split; [reflexivity|]. split_and!; [done|done|].
    by intros [[] ].
  - intros s s' (_ & E & _ & E'). unfold kbd_chars. by rewrite E, E'.
Qed.

Lemma table_range l des i :
  Forall (fun c => 0 <= c < 256) l -> Forall (fun d => 0 <= d.2 < 256) des ->
  0 <= table l des i < 256.
Proof.
  intros Hl Hd. unfold table. destruct (find _ des) as [d|] eqn:E.
  - apply find_some in E as [E _]. rewrite Forall_forall in Hd. by apply Hd, list_elem_of_In.
  - destruct (l !! Z.to_nat i) as [v|] eqn:E'; [|lia].
    rewrite Forall_lookup in Hl. by eapply Hl.
Qed.

Lemma charcode_range sel data : 0 <= charcode sel data < 256.
Proof.
  assert (Hk : forall x y, 0 <= x < 256 -> 0 <= y < 256 ->
    Forall (fun d => 0 <= d.2 < 256) (keypad x y)).
  { intros x y Hx Hy. repeat (apply Forall_cons_2; [cbn; lia|]). constructor. }
  unfold charcode, normalmap, shiftmap, ctlmap.
  repeat case_match; apply table_range; try (apply Hk; done);
    (apply (bool_decide_unpack _); vm_compute; exact I).
Qed.

Lemma key_range shift d : 0 <= (key shift d).2 < 256.
Proof.
  unfold key. destruct (d =? 224); [done|]. destruct (has d 128); [done|].
  destruct (if has shift E0ESC then _ else _) as [data sh]. cbn [snd]. unfold key_char.
  set (s' := Z.lxor _ _). pose proof (charcode_range (Z.land s' (Z.lor CTL SHIFT)) data).
  destruct (has s' CAPSLOCK); [|done].
  destruct ((97 <=? _) && (_ <=? 122)) eqn:E1; [lia|].
  destruct ((65 <=? _) && (_ <=? 90)) eqn:E2; lia.
Qed.

Lemma keys_range shift codes : Forall (fun c => 0 <= c < 256) (keys shift codes).
Proof.
  revert shift. induction codes as [|d codes IH]; intros shift; cbn [keys]; [constructor|].
  pose proof (key_range shift d). destruct (key shift d). by constructor.
Qed.

Lemma keys_length shift codes : length (keys shift codes) = length codes.
Proof.
  revert shift. induction codes as [|d codes IH]; intros shift; cbn [keys]; [done|].
  destruct (key shift d). cbn [length]. by rewrite IH.
Qed.

(** ** Reading a line *)

(** Why a read ends: the count is reached, after a newline, at Control-D, or
    because nothing is left. *)
Inductive ending := Full | Newline | Eof | Empty.

Definition plain (t : list Z) : Prop := (10 ∉ t) /\ (C 68 ∉ t).

(** A read of [n] bytes takes [t] from the committed bytes [com] and leaves
    [com'].  A Control-D is consumed by a read that has taken nothing. *)
Definition took (fresh : bool) (n : Z) (com t : list Z) (e : ending) (com' : list Z) : Prop :=
  match e with
  | Full => Z.of_nat (length t) = n /\ plain t /\ com = t ++ com'
  | Newline => Z.of_nat (length t) <= n /\ com = t ++ com' /\
      exists t0, t = t0 ++ [10] /\ plain t0
  | Eof => Z.of_nat (length t) < n /\ plain t /\
      exists rest, com = t ++ (C 68 :: rest) /\
        com' = if fresh && bool_decide (t = []) then rest else C 68 :: rest
  | Empty => Z.of_nat (length t) < n /\ plain t /\ com = t /\ com' = []
  end.

Lemma plain_cons c t : c <> 10 -> c <> C 68 -> plain t -> plain (c :: t).
Proof. intros H1 H2 [H3 H4]. split; rewrite not_elem_of_cons; auto. Qed.

Lemma plain_nil : plain [].
Proof. split; apply not_elem_of_nil. Qed.

Lemma took_cons fresh n c com t e com' :
  c <> 10 -> c <> C 68 -> took false (n - 1) com t e com' -> took fresh n (c :: com) (c :: t) e com'.
Proof.
  intros H1 H2. destruct e; cbn [took length].
  - intros (? & ? & ->). split_and!; [lia|by apply plain_cons|done].
  - intros (? & -> & t0 & -> & ?). split_and!; [lia|done|].
    exists (c :: t0). split; [done|by apply plain_cons].
  - intros (? & ? & rest & -> & ->). split_and!; [lia|by apply plain_cons|].
    exists rest. split; [done|].
    rewrite (bool_decide_eq_false_2 (c :: t = [])) by done. by rewrite andb_false_r.
  - intros (? & ? & -> & ->). split_and!; [lia|by apply plain_cons|done|done].
Qed.

(** Taking one committed byte. *)
Lemma pop_ok k :
  cons_ok k -> in_r k <> in_w k ->
  let k' := set_inr (u32 (in_r k + 1)) k in
  cons_ok k' /\ committed k = in_at k (in_r k) :: committed k' /\ editing k' = editing k.
Proof.
  intros H Hne k'. pose proof H as [H1 H2 H3 H4 H5 H6 H7].
  pose proof (u32_sub_pos (in_r k) (in_w k) H3 H4 ltac:(done)) as Hpos. split_and!.
  - split; auto; unfold k'; cbn [in_r in_w in_e in_buf set_inr].
    + by destruct H1.
    + apply u32_range.
    + rewrite u32_sub_pred by done. lia.
  - exact (ring_pop INPUT_BUF INPUT_BUF_div (in_buf k) (in_r k) (in_w k) Hpos).
  - done.
Qed.

(** The result of a read that has taken [bs], given how it ended. *)
Definition read_result (killed : bool) (target left : Z) (bs : list Z) (e : ending) : cread :=
  match e with
  | Empty => if killed then CDone (-1) bs else CSleep left bs
  | _ => CDone (target - left) bs
  end.

Lemma committed_nil k : cons_ok k -> in_r k = in_w k -> committed k = [].
Proof. intros _ E. unfold committed. rewrite E. apply ring_nil. by rewrite Z.sub_diag. Qed.

Lemma consoleread_loop_run i f target n bs s :
  at_cpu (Some i) s -> cons_ok (k_cons s) -> 0 <= n <= target -> (Z.to_nat n <= f)%nat ->
  exists t e s', consoleread_loop f target n bs s =
      Ok (read_result (p_killed (pat s i)) target (n - Z.of_nat (length t)) (bs ++ t) e, s') /\
    cons_ok (k_cons s') /\
    took (n =? target) n (committed (k_cons s)) t e (committed (k_cons s')) /\
    editing (k_cons s') = editing (k_cons s).
Proof.
  revert n bs s. induction f as [|f IH]; intros n bs s Hat Hok Hn Hf; cbn [consoleread_loop].
  { replace (0 <? n) with false by lia. exists [], Full, s. cbn [length read_result].
    rewrite app_nil_r, Z.sub_0_r. split_and!; try done. cbn. split_and!; [lia|apply plain_nil|done]. }
  destruct (Z.ltb_spec 0 n) as [Hpos|Hz].
  2:{ exists [], Full, s. cbn [length read_result]. rewrite app_nil_r, Z.sub_0_r.
      split_and!; try done. cbn. split_and!; [lia|apply plain_nil|done]. }
  destruct Hat as [HI Hc]. mrun. destruct (Z.eqb_spec (in_r (k_cons s)) (in_w (k_cons s))) as [Ee|Ne].
  { mrun (curproc_run s i Hc).
    assert (Ht : took (n =? target) n (committed (k_cons s)) [] Empty (committed (k_cons s))).
    { rewrite (committed_nil _ Hok Ee). cbn. split_and!; [lia|apply plain_nil|done|done]. }
    destruct (p_killed (pat s i)).
    - exists [], Empty, s. by rewrite app_nil_r.
    - mrun (sleep_run s i ChInput 1 HI Hc ltac:(lia)).
      exists [], Empty, (slept i ChInput s). cbn [length read_result].
      rewrite app_nil_r, Z.sub_0_r. by split_and!. }
  destruct (pop_ok (k_cons s) Hok Ne) as (Hok1 & Hcom & Hed).
  set (k := k_cons s) in *. set (k1 := set_inr (u32 (in_r k + 1)) k) in *.
  set (c := in_at k (in_r k)) in *.
  rewrite (bind_Ok _ _ _ _ _ (kcons_run (modify (set_inr (u32 (in_r k + 1)))) s tt k1 eq_refl)).
  destruct (Z.eqb_spec c (C 68)) as [Ed|Nd]; [|destruct (Z.eqb_spec c 10) as [En|Nn]].
  - destruct (Z.ltb_spec n target) as [Hlt|Hge].
    + exists [], Eof, s. cbn [length read_result]. rewrite app_nil_r, Z.sub_0_r.
      replace (n =? target) with false by lia. split_and!; try done.
      * unfold kcons, zoom, bind, modify. cbn. do 2 f_equal. unfold k.
        by destruct s as [? ? ? ? ? ? ? ? ? ? ? ? ? []].
      * cbn. split_and!; [lia|apply plain_nil|]. exists (committed k1). fold k.
        by rewrite Hcom, Ed.
    + exists [], Eof, (set_kcons k1 s). cbn [length read_result]. rewrite app_nil_r, Z.sub_0_r.
      replace (n =? target) with true by lia. split_and!; try done.
      cbn. split_and!; [lia|apply plain_nil|]. exists (committed k1). by rewrite Hcom, Ed.
  - exists [10], Newline, (set_kcons k1 s). cbn [length read_result].
    change (Z.of_nat 1) with 1. rewrite En. split_and!; try done.
    cbn. split_and!; [lia|by rewrite Hcom, En|]. exists []. split; [done|apply plain_nil].
  - destruct (IH (n - 1) (bs ++ [c]) (set_kcons k1 s)) as (t & e & s' & E & Hok' & Ht & He).
    { eapply at_cpu_view; [|by split]. by split. } { done. } { lia. } { lia. }
    exists (c :: t), e, s'. rewrite E. split_and!; [|done| |done].
    + change (pat (set_kcons k1 s) i) with (pat s i). rewrite <- app_assoc. cbn [length app].
      do 3 f_equal. lia.
    + rewrite Hcom. apply took_cons; [done|done|].
      by replace (n - 1 =? target) with false in Ht by lia.
Qed.

(** ** Numbers *)

Definition digit_val (c : Z) : Z := if c <? 58 then c - 48 else c - 87.
(** The value of digits in base [b], most significant first. *)
Definition num_val (b : Z) (l : list Z) : Z := fold_left (fun a c => a * b + digit_val c) l 0.
Definition parse_int (l : list Z) : Z :=
  match l with
  | c :: l' => if c =? 45 then - num_val 10 l' else num_val 10 l
  | [] => 0
  end.

Lemma num_val_snoc b l c : num_val b (l ++ [c]) = num_val b l * b + digit_val c.
Proof. unfold num_val. by rewrite fold_left_app. Qed.

Lemma digit_val_digit d : 0 <= d < 16 -> digit_val (digit d) = d.
Proof.
  intros Hd. unfold digit_val, digit. destruct (Z.ltb_spec d 10).
  - replace (48 + d <? 58) with true by lia. lia.
  - replace (87 + d <? 58) with false by lia. lia.
Qed.

Lemma digits_of_S f x b :
  digits_of (S f) x b =
  digit (x mod b) :: (if x / b =? 0 then [] else digits_of f (x / b) b).
Proof. done. Qed.

Lemma digits_of_val b f x :
  2 <= b <= 16 -> 0 <= x < b ^ Z.of_nat (S f) -> num_val b (rev (digits_of (S f) x b)) = x.
Proof.
  intros Hb. revert x. induction f as [|f IH]; intros x Hx;
    pose proof (Z.div_mod x b ltac:(lia)) as Hd;
    pose proof (Z.mod_pos_bound x b ltac:(lia)) as Hm;
    assert (Hq : 0 <= x / b) by (apply Z.div_pos; lia); rewrite digits_of_S; cbn [rev].
  - change (Z.of_nat 1) with 1 in Hx. rewrite Z.pow_1_r in Hx.
    assert (x / b = 0) as E0 by (apply Z.div_small; lia). rewrite E0.
    rewrite num_val_snoc, digit_val_digit by lia. cbn [Z.eqb rev num_val fold_left]. lia.
  - rewrite num_val_snoc, digit_val_digit by lia.
    destruct (Z.eqb_spec (x / b) 0) as [E0|E0]; [cbn; lia|].
    rewrite (IH (x / b)); [lia|]. split; [lia|]. apply Z.div_lt_upper_bound; [lia|].
    rewrite <- Z.pow_succ_r by lia. replace (Z.succ (Z.of_nat (S f))) with (Z.of_nat (S (S f))) by lia.
    lia.
Qed.

Lemma digits_of_length b f k x :
  2 <= b -> 0 <= x < b ^ Z.of_nat (S k) -> (length (digits_of f x b) <= S k)%nat.
Proof.
  intros Hb. revert f x. induction k as [|k IH]; intros [|f] x Hx; cbn [digits_of length];
    try lia; assert (Hq : 0 <= x / b) by (apply Z.div_pos; lia).
  - change (Z.of_nat 1) with 1 in Hx. rewrite Z.pow_1_r in Hx.
    rewrite (Z.div_small x b) by lia. cbn. lia.
  - destruct (Z.eqb_spec (x / b) 0) as [E0|E0]; [cbn; lia|].
    apply le_n_S, IH. split; [lia|]. apply Z.div_lt_upper_bound; [lia|].
    rewrite <- Z.pow_succ_r by lia. replace (Z.succ (Z.of_nat (S k))) with (Z.of_nat (S (S k))) by lia.
    lia.
Qed.

Lemma digits_ge b f x : 2 <= b -> 0 <= x -> Forall (fun c => 48 <= c) (digits_of f x b).
Proof.
  intros Hb. revert x. induction f as [|f IH]; intros x Hx; cbn [digits_of]; [constructor|].
  pose proof (Z.mod_pos_bound x b ltac:(lia)). apply Forall_cons_2.
  - unfold digit. destruct (x mod b <? 10); lia.
  - destruct (x / b =? 0); [constructor|]. apply IH, Z.div_pos; lia.
Qed.

(** ** The properties *)

(** (C27) The input side of the console is a line editor: the keyboard's and
    the serial port's handler consume every byte received and change the
    committed bytes and the line as [edit] says, character by character;
    when a line is committed, no reader is left asleep.  The handlers
    return, and keep the buffer's indices consistent across their wrap. *)
Theorem consoleintr_spec s :
  cons_ok (k_cons s) -> Forall (fun c => 0 <= c < 256) (uart_rx (k_cons s)) ->
  (exists b s', kbdintr s = Ok (tt, s') /\ cons_ok (k_cons s') /\
     edits (abs (k_cons s)) (kbd_chars (k_cons s)) = (abs (k_cons s'), b) /\
     (b = true -> no_sleeper ChInput s')) /\
  (exists b s', uartintr s = Ok (tt, s') /\ cons_ok (k_cons s') /\
     edits (abs (k_cons s)) (uart_chars (k_cons s)) = (abs (k_cons s'), b) /\
     (b = true -> no_sleeper ChInput s')).
Proof.
  intros Hok Hr. split.
  - apply (consoleintr_run _ _ s kbd_dev Hok); [apply keys_range|].
    unfold kbd_chars. rewrite keys_length. lia.
  - apply (consoleintr_run _ _ s uart_dev Hok); unfold uart_chars;
      destruct (uart (k_cons s)); auto; cbn [length]; lia.
Qed.

(** (C28) Reading the console: a read takes committed bytes up to the count,
    through a newline, or up to Control-D, which ends the read and is kept
    for the next one unless this read has taken nothing; it returns the
    number of bytes taken.  If the bytes run out first it sleeps with what
    it has, or fails if the process has been killed.  The line being edited
    is not touched. *)
Theorem consoleread_spec i n s :
  at_cpu (Some i) s -> cons_ok (k_cons s) -> 0 <= n ->
  exists t e s', consoleread_loop (Z.to_nat n) n n [] s =
      Ok (read_result (p_killed (pat s i)) n (n - Z.of_nat (length t)) t e, s') /\
    cons_ok (k_cons s') /\
    took true n (committed (k_cons s)) t e (committed (k_cons s')) /\
    editing (k_cons s') = editing (k_cons s).
Proof.
  intros Hat Hok Hn.
  destruct (consoleread_loop_run i (Z.to_nat n) n n [] s Hat Hok) as (t & e & s' & H); [lia|lia|].
  rewrite Z.eqb_refl in H. by exists t, e, s'.
Qed.

(** Output stays on the screen: printing any characters, or any format
    whose conversions agree with the arguments, returns without the panic on
    the cursor position, keeps the cursor in the first 24 rows and every
    store inside the 80 x 25 cells, and does not touch the input. *)
Theorem console_output_bounds :
  (forall l, outputs (putall l)) /\
  (forall fmt args, fmt_ok fmt args = true -> outputs (cprintf fmt args)).
Proof. split; [apply putall_outputs|apply cprintf_outputs]. Qed.

(** Printing a number is exact: the characters of %d read back as the
    signed number and those of %x as the unsigned one, and they fit in the
    buffer of 16 characters. *)
Theorem printint_roundtrip xx :
  - 2 ^ 31 <= xx < 2 ^ 31 ->
  parse_int (int_chars xx 10 true) = xx /\ num_val 16 (int_chars xx 16 false) = u32 xx /\
  (length (int_chars xx 10 true) <= 16)%nat /\ (length (int_chars xx 16 false) <= 16)%nat.
Proof.
  intros Hx. unfold int_chars. cbn [andb].
  set (x := if xx <? 0 then u32 (- xx) else u32 xx).
  assert (Ex : x = Z.abs xx).
  { unfold x. destruct (Z.ltb_spec xx 0); rewrite u32_small by lia; lia. }
  assert (H32 : 2 ^ 32 <= 10 ^ 10) by (vm_compute; congruence).
  assert (V10 : num_val 10 (rev (digits_of 32 x 10)) = x).
  { apply digits_of_val; [lia|]. split; [lia|]. eapply Z.lt_le_trans; [|exact (Z.pow_le_mono_r 10 10 32 ltac:(lia) ltac:(lia))]. lia. }
  assert (L10 : (length (digits_of 32 x 10) <= 10)%nat) by (apply digits_of_length; lia).
  assert (G : Forall (fun c => 48 <= c) (rev (digits_of 32 x 10))).
  { apply Forall_rev, digits_ge; lia. }
  pose proof (u32_range xx) as Hu. split_and!.
  - destruct (Z.ltb_spec xx 0) as [Hneg|Hpos].
    + rewrite rev_app_distr. cbn [rev app parse_int]. rewrite Z.eqb_refl. lia.
    + rewrite app_nil_r. unfold parse_int. destruct (rev _) as [|c l] eqn:E.
      * cbn in V10. lia.
      * apply Forall_cons in G as [Gc _]. replace (c =? 45) with false by lia. lia.
  - rewrite app_nil_r. apply digits_of_val; [lia|]. split; [lia|].
    eapply Z.lt_le_trans; [apply Hu|]. vm_compute. congruence.
  - rewrite length_rev, length_app. destruct (xx <? 0); cbn [length]; lia.
  - rewrite app_nil_r, length_rev. transitivity 8%nat; [|lia]. apply digits_of_length; [lia|].
    split; [lia|]. eapply Z.lt_le_trans; [apply Hu|]. vm_compute. congruence.
Qed.

(** ** A console with input on the serial line

    The counters are about to wrap and the cursor is at the last cell of the
    scrolled screen. *)

Definition demo_cons : console :=
  {| in_buf := replicate 128 0; in_r := 2 ^ 32 - 1; in_w := 2 ^ 32 - 1; in_e := 2 ^ 32 - 1;
     crt := replicate 2000 0; crt_pos := 1919; uart := true; uart_tx := [];
     uart_rx := [104; 105; 8; 33; 13]; kbd_in := []; kbd_shift := 0 |}.

Definition demo_cons_kst : kst :=
  set_kcons demo_cons (demo_kst (demo_proc RUNNING 1 10) (demo_proc RUNNABLE 2 10)
                         (set_cproc (Some 0%nat) cpu0)).

Lemma cons_ok_intro s :
  crt_ok s -> length (in_buf s) = 128%nat -> 0 <= in_r s < 2 ^ 32 -> 0 <= in_w s < 2 ^ 32 ->
  in_e s = in_w s -> u32 (in_w s - in_r s) <= 128 -> cons_ok s.
Proof.
  intros H1 H2 H3 H4 H5 H6. assert (Hed : editing s = []).
  { unfold editing. rewrite H5. apply ring_nil. by rewrite Z.sub_diag. }
  split; rewrite ?Hed, ?H5; auto.
  - rewrite Z.sub_diag. unfold INPUT_BUF. change (u32 0) with 0. lia.
  - apply not_elem_of_nil.
Qed.

Lemma demo_cons_ok : cons_ok demo_cons.
Proof.
  apply cons_ok_intro; cbn [demo_cons in_buf in_r in_w in_e]; try lia.
  - split; [apply length_replicate|cbn; lia].
  - apply length_replicate.
  - rewrite Z.sub_diag. change (u32 0) with 0. lia.
Qed.

Lemma demo_cons_rx : Forall (fun c => 0 <= c < 256) (uart_rx demo_cons).
Proof. repeat (apply Forall_cons_2; [lia|]). constructor. Qed.

Lemma consoleintr_spec_witness :
  exists s', uartintr demo_cons_kst = Ok (tt, s') /\ committed (k_cons s') = [104; 33; 10] /\
    editing (k_cons s') = [] /\ no_sleeper ChInput s'.
Proof.
  destruct (consoleintr_spec demo_cons_kst demo_cons_ok demo_cons_rx)
    as [_ (b & s' & E & _ & Ha & Hn)].
  change (k_cons demo_cons_kst) with demo_cons in Ha.
  assert (Ee : edits (abs demo_cons) (uart_chars demo_cons) = ([104; 33; 10], [], true))
    by (vm_compute; reflexivity).
  rewrite Ee in Ha. unfold abs in Ha. injection Ha as Hc He Hb. exists s'. split; [exact E|].
  split; [symmetry; exact Hc|]. split; [symmetry; exact He|]. apply Hn. by symmetry.
Defined.

(** Three bytes are committed; the count is two. *)
Definition demo_line_kst : kst :=
  set_kcons (set_inw 2 (set_ine 2 (set_inbuf (<[127%nat := 97]> (<[0%nat := 98]>
    (<[1%nat := 10]> (replicate 128 0)))) demo_cons))) demo_cons_kst.

Lemma consoleread_spec_witness :
  exists t e s', consoleread_loop 2 2 2 [] demo_line_kst =
      Ok (read_result false 2 (2 - Z.of_nat (length t)) t e, s') /\
    took true 2 [97; 98; 10] t e (committed (k_cons s')).
Proof.
  destruct (consoleread_spec 0 2 demo_line_kst) as (t & e & s' & E & _ & Ht & _).
  - eapply at_cpu_view; [|by apply (demo_running (set_cproc (Some 0%nat) cpu0) RUNNABLE 10 10)].
    by split.
  - apply cons_ok_intro; cbn; try lia.
    + split; [apply length_replicate|cbn; lia].
    + done.
  - lia.
  - exists t, e, s'. split; [exact E|].
    assert (Ec : committed (k_cons demo_line_kst) = [97; 98; 10]) by (vm_compute; reflexivity).
    rewrite <- Ec. exact Ht.
Defined.

Lemma printint_roundtrip_witness : parse_int (int_chars (-2147483648) 10 true) = -2147483648.
Proof. apply (printint_roundtrip (-2147483648)). lia. Defined.
