(* ===== verification/KernelInv.v ===== *)
(** * Every trap preserves the invariant of the process table

    The system calls, the scheduler and the interrupt handlers, run by any
    CPU.  Code that does not change the table is covered by [keeps]; a call
    that sleeps or ends the process leaves the CPU to the scheduler. *)

From S2P Require Import Prelude Param Bytes Memory Kalloc Vm Sleeplock Bio Log Blocks.
From S2P Require Import LogBlocks Fs Hoare Kernel Proc Console Pipe File Fork Syscall.
From S2P Require Import Sysproc Sysfile Exec Trap Machine ProcInv Sched.

(** ** Code that keeps the process table *)

Ltac keeps :=
  let s0 := fresh "s0" in intros s0;
  repeat match goal with
    | |- pres _ (kmem _) => apply keeps_kmem
    | |- pres _ (kfs _) => apply keeps_kfs
    | |- pres _ (fileupd _ _) => apply keeps_fileupd
    | |- pres _ (pupd _ _) => by apply keeps_pupd
    | |- pres _ (cupd _) => by apply keeps_cupd
    | |- pres _ (modify _) => by apply keeps_modify
    | H : keeps ?c |- pres _ ?c => apply H
    | _ => pres_step
    end.

Lemma keeps_curproc : keeps curproc.
Proof. unfold curproc, myproc. keeps. Qed.
Lemma keeps_myproc : keeps myproc.
Proof. unfold myproc. keeps. Qed.
Lemma keeps_pipe_at a : keeps (pipe_at a).
Proof. unfold pipe_at. keeps. Qed.
Lemma keeps_pipeupd a f : keeps (pipeupd a f).
Proof. unfold pipeupd. keeps. Qed.

(** Facts for every predicate on the state that the view determines. *)
Section Keep.
Context (o : option nat).

Lemma kmem_at {A} (c : M pmem A) : pres (at_cpu o) (kmem c).
Proof. apply keeps_at_cpu, keeps_kmem. Qed.
Lemma kfs_at {A} (c : M (fsst logst) A) : pres (at_cpu o) (kfs c).
Proof. apply keeps_at_cpu, keeps_kfs. Qed.
Lemma kcons_at {A} (c : M console A) : pres (at_cpu o) (kcons c).
Proof.
  apply keeps_at_cpu. intros s0. apply pres_zoom. intros k s Hs. etrans; [exact Hs|].
  by split.
Qed.
Lemma fileupd_at i f : pres (at_cpu o) (fileupd i f).
Proof. apply keeps_at_cpu, keeps_fileupd. Qed.
Lemma curproc_at : pres (at_cpu o) curproc.
Proof. apply keeps_at_cpu, keeps_curproc. Qed.
Lemma myproc_at : pres (at_cpu o) myproc.
Proof. apply keeps_at_cpu, keeps_myproc. Qed.
Lemma pipe_at_at a : pres (at_cpu o) (pipe_at a).
Proof. apply keeps_at_cpu, keeps_pipe_at. Qed.
Lemma pipeupd_at a f : pres (at_cpu o) (pipeupd a f).
Proof. apply keeps_at_cpu, keeps_pipeupd. Qed.
Lemma pupd_at i f : (forall p, pview (f p) = pview p) -> pres (at_cpu o) (pupd i f).
Proof. intros Hf. by apply keeps_at_cpu, keeps_pupd. Qed.
Lemma cupd_at f : (forall c, c_proc (f c) = c_proc c) -> pres (at_cpu o) (cupd f).
Proof. intros Hf. by apply keeps_at_cpu, keeps_cupd. Qed.
Lemma modify_at f : (forall s, same_view s (f s)) -> pres (at_cpu o) (modify f).
Proof. intros Hf. by apply keeps_at_cpu, keeps_modify. Qed.

End Keep.

#[export] Hint Resolve kmem_at kfs_at kcons_at fileupd_at curproc_at myproc_at pipe_at_at pipeupd_at
  wakeup_at_cpu kill_at_cpu : pres.
#[export] Hint Extern 1 (pres (at_cpu _) (pupd _ _)) => (apply pupd_at; done) : pres.
#[export] Hint Extern 1 (pres (at_cpu _) (cupd _)) => (apply cupd_at; done) : pres.
#[export] Hint Extern 1 (pres (at_cpu _) (modify _)) => (apply modify_at; done) : pres.

Section Trap.
Context `{I : Image} `{E : Entry}.
Variable devsw : Z -> device logst.
Variable o : option nat.

Lemma uload_at va n : pres (at_cpu o) (uload va n).
Proof.
  revert va. induction n as [|n IH]; intros va; cbn [uload]; unfold uload8; pres; auto.
Qed.

Lemma ustore_at va bs : pres (at_cpu o) (ustore va bs).
Proof. revert va. induction bs as [|b bs IH]; intros va; cbn [ustore]; pres; auto. Qed.

Lemma fetchint_at a : pres (at_cpu o) (fetchint a).
Proof. unfold fetchint, uload32. pose proof uload_at. pres; auto. Qed.

Lemma fetchstr_at a : pres (at_cpu o) (fetchstr a).
Proof.
  unfold fetchstr. pres. generalize (Z.to_nat (p_sz (pat a1 a0) - a)) as fuel.
  generalize (p_sz (pat a1 a0)) as ep. generalize (@nil Z) as acc. revert a.
  intros s acc ep fuel. revert s acc.
  induction fuel as [|f IH]; intros s acc; cbn [fetchstr_loop]; unfold uload8; pres; auto.
Qed.

Lemma argint_at n : pres (at_cpu o) (argint n).
Proof. unfold argint, kload. pose proof fetchint_at. pres; auto. Qed.
Lemma argptr_at n sz : pres (at_cpu o) (argptr n sz).
Proof. unfold argptr. pose proof argint_at. pres; auto. Qed.
Lemma argstr_at n : pres (at_cpu o) (argstr n).
Proof. unfold argstr. pose proof argint_at. pose proof fetchstr_at. pres; auto. Qed.

End Trap.
#[export] Hint Resolve uload_at ustore_at fetchint_at fetchstr_at argint_at argptr_at
  argstr_at : pres.

Section Files.
Context `{I : Image}.
Variable devsw : Z -> device logst.
Variable o : option nat.

Lemma kbegin_op_at : pres (at_cpu o) kbegin_op.
Proof. apply kfs_at. Qed.
Lemma kend_op_at : pres (at_cpu o) kend_op.
Proof. apply kfs_at. Qed.
Lemma pipeclose_at a w : pres (at_cpu o) (pipeclose a w).
Proof. unfold pipeclose. pres. Qed.
Lemma filealloc_at : pres (at_cpu o) filealloc.
Proof. unfold filealloc. pres. Qed.
Lemma filedup_at f : pres (at_cpu o) (filedup f).
Proof. unfold filedup. pres. Qed.
Lemma fileclose_at f : pres (at_cpu o) (fileclose f).
Proof. unfold fileclose. pose proof pipeclose_at. pose proof kbegin_op_at.
  pose proof kend_op_at. pres; auto. Qed.
Lemma close_opt_at f : pres (at_cpu o) (close_opt f).
Proof. unfold close_opt. pose proof fileclose_at. pres; auto. Qed.
Lemma pipealloc_at : pres (at_cpu o) pipealloc.
Proof. unfold pipealloc. pose proof filealloc_at. pose proof fileclose_at.
  pose proof close_opt_at. pres; auto. Qed.
Lemma filestat_at f : pres (at_cpu o) (filestat f).
Proof. unfold filestat. pres. Qed.
Lemma filewrite_loop_at fuel f src i n :
  pres (at_cpu o) (filewrite_loop devsw fuel f src i n).
Proof.
  revert i. induction fuel as [|fuel IH]; intros i; cbn [filewrite_loop];
    pose proof kbegin_op_at; pose proof kend_op_at; pres; auto.
Qed.
Lemma argfd_at n : pres (at_cpu o) (argfd n).
Proof. unfold argfd. pres. Qed.
Lemma set_fd_at i fd f : pres (at_cpu o) (set_fd i fd f).
Proof. unfold set_fd. pres. Qed.
Lemma fdalloc_at f : pres (at_cpu o) (fdalloc f).
Proof. unfold fdalloc. pose proof set_fd_at. pres; auto. Qed.
Lemma knamei_at path : pres (at_cpu o) (knamei devsw path).
Proof. unfold knamei, cwd_for. pres. Qed.
Lemma knameiparent_at path : pres (at_cpu o) (knameiparent devsw path).
Proof. unfold knameiparent, cwd_for. pres. Qed.
Lemma add_nlink_at d i : pres (at_cpu o) (add_nlink d i).
Proof. apply kfs_at. Qed.
Lemma store_stat_at a st : pres (at_cpu o) (store_stat a st).
Proof. unfold store_stat. pres. Qed.

End Files.
#[export] Hint Resolve kbegin_op_at kend_op_at pipeclose_at filealloc_at filedup_at
  fileclose_at close_opt_at pipealloc_at filestat_at filewrite_loop_at argfd_at set_fd_at
  fdalloc_at knamei_at knameiparent_at add_nlink_at store_stat_at : pres.

Section Files2.
Context `{I : Image}.
Variable devsw : Z -> device logst.
Variable o : option nat.

Lemma isdirempty_at dp : pres (at_cpu o) (isdirempty devsw dp).
Proof.
  unfold isdirempty. pres. generalize (2 * sizeof_dirent) as off.
  generalize (Z.to_nat (isize (inode_of a dp) / sizeof_dirent + 1)) as fuel.
  induction fuel as [|f IH]; intros off; cbn [isdirempty_loop]; pres; auto.
Qed.
Lemma create_at path t ma mi : pres (at_cpu o) (create devsw path t ma mi).
Proof. unfold create. pres. Qed.
Lemma made_at ip : pres (at_cpu o) (made ip).
Proof. unfold made, fail. pres. Qed.

End Files2.
#[export] Hint Resolve isdirempty_at create_at made_at : pres.

(** ** Calls that can sleep or end the process *)

Definition after_out {A} (i : nat) (r : outcome A) : kst -> Prop :=
  match r with Returns _ => at_cpu (Some i) | Sleeps _ => idle end.
Definition after_sys (i : nat) (r : sysret) : kst -> Prop :=
  match r with SRet _ => at_cpu (Some i) | _ => idle end.

(** [tri] runs code up to the calls whose end is not that of [pres]. *)
Ltac tri_step :=
  match goal with
  | |- triple _ (bind (sleep _ _) _) _ => eapply triple_bind; [apply sleep_triple|intros]
  | |- triple _ (bind _ _) _ => apply triple_pres_bind; [solve [pres]|intros]
  | |- triple _ (match ?x with _ => _ end) _ => destruct x
  | |- triple _ (panic _) _ => apply triple_panic
  | |- triple _ fault _ => apply triple_fault
  | |- triple _ blocked _ => apply triple_blocked
  | |- triple _ out_of_fuel _ => apply triple_out_of_fuel
  | |- triple _ (ret _) _ => apply triple_ret; solve [auto]
  end.
Ltac tri := repeat tri_step.

Section Sys.
Context `{I : Image} `{E : Entry}.
Variable devsw : Z -> device logst.
Variable i : nat.

Lemma pipewrite_from_tri fuel a src k n :
  triple (at_cpu (Some i)) (pipewrite_from fuel a src k n) (after_out i).
Proof.
  revert k. induction fuel as [|f IH]; intros k; cbn [pipewrite_from]; tri; auto.
Qed.

Lemma piperead_copy_at fuel a k n acc : pres (at_cpu (Some i)) (piperead_copy fuel a k n acc).
Proof.
  revert k acc. induction fuel as [|f IH]; intros k acc; cbn [piperead_copy]; pres; auto.
Qed.

Lemma piperead_tri a n : triple (at_cpu (Some i)) (piperead a n) (after_out i).
Proof. unfold piperead. pose proof piperead_copy_at. tri. Qed.

Lemma fileread_tri f n : triple (at_cpu (Some i)) (fileread devsw f n) (after_out i).
Proof. unfold fileread. tri. apply piperead_tri. Qed.

Lemma filewrite_tri f src n : triple (at_cpu (Some i)) (filewrite devsw f src n) (after_out i).
Proof. unfold filewrite, pipewrite. tri. apply pipewrite_from_tri. Qed.

Lemma arg_rw_at : pres (at_cpu (Some i)) arg_rw.
Proof. unfold arg_rw. pres. Qed.

Lemma sys_read_tri : triple (at_cpu (Some i)) (sys_read devsw) (after_sys i).
Proof.
  unfold sys_read, fail. pose proof arg_rw_at. tri.
  eapply triple_bind; [apply fileread_tri|]. intros [[r bs]|k]; cbn [after_out]; tri.
Qed.

Lemma sys_write_tri : triple (at_cpu (Some i)) (sys_write devsw) (after_sys i).
Proof.
  unfold sys_write, fail. pose proof arg_rw_at. tri.
  eapply triple_bind; [apply filewrite_tri|]. intros [r|k]; cbn [after_out]; tri.
Qed.

End Sys.

(** ** Creating a process *)

(** Entry [i] is set up (EMBRYO) or torn down (ZOMBIE), with kernel stack [k]
    and page table [g]. *)
Definition inert (st : procstate) : Prop := st = EMBRYO \/ st = ZOMBIE.
Record emb (o : option nat) (i : nat) (k g : Z) (s : kst) : Prop := {
  em_at : at_cpu o s;
  em_lt : (i < NP)%nat;
  em_state : inert (p_state (pat s i));
  em_kstack : p_kstack (pat s i) = k;
  em_pgdir : p_pgdir (pat s i) = g
}.

Lemma emb_view o i k g s s' : same_view s s' -> emb o i k g s -> emb o i k g s'.
Proof.
  intros Hs [H1 H2 H3 H4 H5]. destruct (same_view_at s s' Hs) as (_ & _ & Hp & _ & _).
  specialize (Hp i). injection Hp as E1 E2 E3 E4.
  split; rewrite ?E1; try congruence; auto. by eapply at_cpu_view.
Qed.

Lemma keeps_emb {A} o i k g (c : M kst A) : keeps c -> pres (emb o i k g) c.
Proof. apply keeps_pres, emb_view. Qed.

Lemma inert_spec st : inert st -> ~ active st /\ st <> UNUSED /\ st <> RUNNING.
Proof. unfold inert, active. intros [->| ->]; split_and!; naive_solver. Qed.

Lemma put_at_cpu o i f s : pinv (put_proc i f s) -> cur_of s = o -> at_cpu o (put_proc i f s).
Proof. by split. Qed.

(** The entry changes its stack and page table. *)
Lemma emb_pupd o i k g f k' g' :
  (forall p, p_state (f p) = p_state p /\ p_pid (f p) = p_pid p) ->
  (forall p, p_kstack p = k -> p_pgdir p = g -> p_kstack (f p) = k' /\ p_pgdir (f p) = g') ->
  triple (emb o i k g) (pupd i f) (fun _ => emb o i k' g').
Proof.
  intros Hf Hg. apply triple_modify. intros s [[HI Hc] Hi Hin Hk Hp].
  destruct (inert_spec _ Hin) as (Hna & Hnu & Hnr).
  change (emb o i k' g' (put_proc i f s)).
  destruct (Hf (pat s i)) as [F1 F2], (Hg (pat s i) Hk Hp) as [G1 G2].
  assert (Hpat : pat (put_proc i f s) i = f (pat s i)).
  { rewrite pat_put by (rewrite (pi_len s HI); done). by rewrite decide_True. }
  split; rewrite ?Hpat, ?F1; try congruence; auto. apply put_at_cpu; [|done].
  apply pinv_put; auto.
  - by rewrite F1.
  - rewrite F2. intros _. split; [by apply (pi_pid s HI)|]. intros j Hj Hu He. by apply Hj, (pi_uniq s HI).
  - by rewrite F1.
Qed.

(** The entry leaves the state EMBRYO. *)
Lemma emb_unused o i k g :
  triple (emb o i k g) (pupd i (set_state UNUSED)) (fun _ => at_cpu o).
Proof.
  apply triple_modify. intros s [[HI Hc] Hi Hin Hk Hp].
  destruct (inert_spec _ Hin) as (Hna & Hnu & Hnr). apply put_at_cpu; [|done].
  apply pinv_put; auto; cbn [p_state set_state]; try done. by intros [|[|]].
Qed.

Lemma emb_runnable o i k g :
  k <> 0 -> g <> 0 -> triple (emb o i k g) (pupd i (set_state RUNNABLE)) (fun _ => at_cpu o).
Proof.
  intros Hk0 Hg0. apply triple_modify. intros s [[HI Hc] Hi Hin Hk Hp].
  destruct (inert_spec _ Hin) as (Hna & Hnu & Hnr).
  apply put_at_cpu; [|done]. apply pinv_state; auto. intros _. by subst.
Qed.

Lemma pinv_next s : pinv s -> pinv (set_nextpid (k_nextpid s + 1) s).
Proof.
  intros [P1 P2 P0 P3 P4 P5 P6 P7 P8]. split; auto.
  - cbn [k_nextpid set_nextpid]. lia.
  - intros i Hi. specialize (P6 i Hi). cbn [k_nextpid set_nextpid].
    change (pat (set_nextpid _ s) i) with (pat s i). lia.
Qed.

(** A free entry takes the next pid. *)
Lemma pinv_alloc s i :
  pinv s -> (i < NP)%nat -> p_state (pat s i) = UNUSED ->
  pinv (put_proc i (fun p => set_pid (k_nextpid s) (set_state EMBRYO p))
          (set_nextpid (k_nextpid s + 1) s)).
Proof.
  intros HI Hi Hu. apply pinv_put; auto using pinv_next;
    change (pat (set_nextpid ?n s)) with (pat s); cbn [p_state set_state set_pid p_pid].
  - by rewrite Hu.
  - intros _. cbn [k_nextpid set_nextpid]. pose proof (pi_next s HI). split; [lia|].
    intros j _ Hj. pose proof (pi_pid s HI j Hj). lia.
  - by intros [|[|]].
Qed.

Section Alloc.
Context `{I : Image} `{E : Entry}.

Lemma emb_kmem {A} o i k g (c : M pmem A) : pres (emb o i k g) (kmem c).
Proof. apply keeps_emb, keeps_kmem. Qed.
Lemma emb_kfs {A} o i k g (c : M (fsst logst) A) : pres (emb o i k g) (kfs c).
Proof. apply keeps_emb, keeps_kfs. Qed.
Lemma emb_upd o i k g j f : (forall p, pview (f p) = pview p) -> pres (emb o i k g) (pupd j f).
Proof. intros Hf. by apply keeps_emb, keeps_pupd. Qed.

Definition embryo (o : option nat) (r : option nat) (s : kst) : Prop :=
  match r with
  | None => at_cpu o s
  | Some i => exists k g, k <> 0 /\ emb o i k g s
  end.

Lemma allocproc_tri o : triple (at_cpu o) allocproc (embryo o).
Proof.
  intros s [HI Hc]. unfold allocproc. mrun.
  destruct (find_idx _ (k_proc s)) as [i|] eqn:Ef; [|done].
  apply find_idx_Some in Ef as (p & Hp & Hu%in_state_true & _).
  assert (Hi : (i < NP)%nat) by (rewrite <- (pi_len s HI); by eapply lookup_lt_Some).
  assert (Hpi : pat s i = p) by (by apply list_lookup_total_correct).
  unfold pupd at 1 2. mrun. destruct (_ =? _); [done|]. mrun.
  cbn [k_proc set_kproc]. rewrite alter_alter.
  set (s1 := set_nextpid _ _). set (g := p_pgdir p). set (k := p_kstack p).
  assert (H1 : emb o i k g s1).
  { rewrite <- Hpi in Hu. pose proof (pinv_alloc s i HI Hi Hu) as Ha. fold s1.
    assert (Hpat : pat s1 i = set_pid (k_nextpid s) (set_state EMBRYO (pat s i))).
    { change s1 with (put_proc i (fun p => set_pid (k_nextpid s) (set_state EMBRYO p))
        (set_nextpid (k_nextpid s + 1) s)).
      rewrite pat_put by (change ((i < length (k_proc s))%nat); by rewrite (pi_len s HI)).
      by rewrite decide_True. }
    split; rewrite ?Hpat, ?Hpi; [by split|done|by left|done|done]. }
  clearbody s1. revert s1 H1. match goal with |- forall s1, _ -> match ?c s1 with _ => _ end =>
    change (triple (emb o i k g) c (embryo o)) end.
  apply triple_pres_bind; [by apply emb_upd|intros _].
  apply triple_pres_bind; [apply emb_kmem|intros k'].
  eapply triple_bind; [apply (emb_pupd o i k g _ k' g); [done|by intros; split]|intros []].
  destruct (Z.eqb_spec k' 0) as [->|Hk'].
  - eapply triple_bind; [apply emb_unused|intros []]. by apply triple_ret.
  - do 5 (apply triple_pres_bind; [first [apply emb_kmem|by apply emb_upd]|intros _]).
    apply triple_ret. intros s2 H2. by exists k', g.
Qed.

End Alloc.

Lemma wakeup1_at o c : pres (at_cpu o) (wakeup1 c).
Proof. apply wakeup_at_cpu. Qed.
#[export] Hint Resolve wakeup1_at : pres.

(** The running process is the one that was running. *)
Lemma curproc_bind {A} o (k : nat -> M kst A) Q :
  (forall i, o = Some i -> triple (at_cpu (Some i)) (k i) Q) ->
  triple (at_cpu o) (let! i := curproc in k i) Q.
Proof.
  intros H. apply curproc_triple. intros i s0 [HI Hi] Hc. rewrite Hi in Hc.
  eapply triple_conseq; [| |by apply (H i)]; auto. intros s ->. by rewrite <- Hc, <- Hi.
Qed.

Section Procs.
Context `{I : Image} `{E : Entry}.
Variable o : option nat.

Lemma fork_files_emb n k g m c j i : pres (emb o n k g) (fork_files m c j i).
Proof.
  apply keeps_emb. revert i. induction m as [|m IH]; intros i; cbn [fork_files]; [keeps|].
  unfold filedup. pose proof (IH (S i)). keeps.
Qed.

Lemma fork_at : pres (at_cpu o) fork.
Proof.
  unfold fork, pres. apply triple_pres_bind; [pres|intros c].
  eapply triple_bind; [apply allocproc_tri|]. intros [n|]; cbn [embryo]; [|by apply triple_ret].
  apply triple_ex; intros k. apply triple_ex; intros g. apply triple_pure; intros Hk.
  apply triple_pres_bind; [apply pres_get|intros s].
  apply triple_pres_bind; [apply emb_kmem|intros pg].
  eapply triple_bind; [apply (emb_pupd o n k g _ k pg); [done|by intros; split]|intros []].
  apply triple_pres_bind; [apply pres_get|intros s1].
  destruct (Z.eqb_spec pg 0) as [->|Hpg].
  - apply triple_pres_bind; [apply emb_kmem|intros _].
    eapply triple_bind; [apply (emb_pupd o n k 0 _ 0 0); [done|by intros; split]|intros []].
    eapply triple_bind; [apply emb_unused|intros []]. by apply triple_ret.
  - do 2 (apply triple_pres_bind; [by apply emb_upd|intros _]).
    do 2 (apply triple_pres_bind; [apply emb_kmem|intros _]).
    apply triple_pres_bind; [apply fork_files_emb|intros _].
    apply triple_pres_bind; [apply pres_get|intros s2].
    destruct (p_cwd _) as [d|]; [|apply triple_fault].
    apply triple_pres_bind; [apply emb_kfs|intros d'].
    do 2 (apply triple_pres_bind; [by apply emb_upd|intros _]).
    apply triple_pres_bind; [apply pres_get|intros s3].
    eapply triple_bind; [by apply emb_runnable|intros []]. by apply triple_ret.
Qed.

Lemma exit_files_at k c fd : pres (at_cpu o) (exit_files k c fd).
Proof. revert fd. induction k as [|k IH]; intros fd; cbn [exit_files]; pres; auto. Qed.

Lemma reparent_at k c i : pres (at_cpu o) (reparent k c i).
Proof. revert i. induction k as [|k IH]; intros i; cbn [reparent]; pres; auto. Qed.

End Procs.
#[export] Hint Resolve fork_at exit_files_at reparent_at : pres.

Section Procs2.
Context `{I : Image} `{E : Entry}.

Lemma exit_tri o : triple (at_cpu o) exit (fun _ => idle).
Proof.
  apply curproc_bind. intros i ->. repeat first [tri_step|apply (leave_triple i)]. done.
Qed.

Lemma pupd_pupd {A} i f g (k : unit -> M kst A) s :
  (do! pupd i f in bind (pupd i g) k) s = bind (pupd i (fun p => g (f p))) k s.
Proof. unfold pupd. mrun. cbn [k_proc set_kproc]. by rewrite alter_alter. Qed.

Definition after_wait (i : nat) (r : option Z) : kst -> Prop :=
  match r with Some _ => at_cpu (Some i) | None => idle end.

Lemma wait_tri i : triple (at_cpu (Some i)) wait (after_wait i).
Proof.
  apply curproc_bind. intros c [= <-]. intros s [HI Hc]. mrun.
  destruct (find_idx _ (k_proc s)) as [z|] eqn:Ef.
  - apply find_idx_Some in Ef as (p & Hp & Hz & _).
    apply andb_true_iff in Hz as [_ Hz%in_state_true].
    assert (Hpi : pat s z = p) by (by apply list_lookup_total_correct).
    assert (H1 : emb (Some i) z (p_kstack p) (p_pgdir p) s).
    { split; rewrite ?Hpi; try done; [|by right]. rewrite <- (pi_len s HI).
      by eapply lookup_lt_Some. }
    revert H1. generalize (p_kstack (pat s z)), (p_pgdir (pat s z)), (p_pid (pat s z)).
    intros ka ga pid. clear HI Hc Hp Hpi. revert s. match goal with
      |- forall s, _ -> match ?c s with _ => _ end => change (triple (emb (Some i) z
        (p_kstack p) (p_pgdir p)) c (after_wait i)) end.
    apply triple_pres_bind; [apply emb_kmem|intros _].
    eapply triple_bind; [apply (emb_pupd _ z _ (p_pgdir p) _ 0 (p_pgdir p));
      [done|by intros; split]|intros []].
    apply triple_pres_bind; [apply emb_kmem|intros _].
    intros s [[HI Hc] Hi Hin _ _]. destruct (inert_spec _ Hin) as (_ & _ & Hr).
    rewrite !pupd_pupd. unfold pupd. mrun. apply put_at_cpu; [|done].
    apply pinv_put; auto; cbn [p_state set_state]; [done|done|by intros [|[|]]].
  - destruct (_ || _); [done|]. pose proof (sleep_triple i (ChProc i) 1 s (conj HI Hc)) as Hs.
    unfold bind. destruct (sleep _ _ s) as [[[] s']| | | |]; done.
Qed.

Lemma switchuvm_at o i : pres (at_cpu o) (switchuvm (Some i)).
Proof. unfold switchuvm. pres. Qed.

Lemma growproc_at o n : pres (at_cpu o) (growproc n).
Proof. unfold growproc. pose proof switchuvm_at. pres; auto. Qed.

Lemma pgdir_at i g : g <> 0 -> pres (at_cpu (Some i)) (pupd i (set_pgdir g)).
Proof.
  intros Hg. apply pres_modify. intros s [HI Hc]. apply put_at_cpu; [|done].
  destruct (cur_lt s i HI Hc) as [Hi Hr]. apply pinv_put; auto.
  - intros Hu. split; [by apply (pi_pid s HI)|]. intros j Hj Huj He.
    by apply Hj, (pi_uniq s HI).
  - intros Ha. split; [|done]. by apply (pi_mem s HI).
Qed.

End Procs2.
#[export] Hint Resolve switchuvm_at growproc_at : pres.

(** [pres] that knows the running process and the tests for 0. *)
Ltac pres_cur :=
  repeat match goal with
    | |- pres ?P (bind curproc _) =>
        apply curproc_bind; intros ? [= <-];
        match goal with |- triple _ ?c _ => change (pres P c) end
    | |- pres _ (if ?a =? 0 then _ else _) => destruct (Z.eqb_spec a 0)
    | _ => pres_step
    end.

Section Exec.
Context `{I : Image} `{E : Entry}.
Variable devsw : Z -> device logst.
Variable i : nat.
Abbreviation mine := (at_cpu (Some i)).

Lemma loaduvm_at pg a ip off sz : pres mine (loaduvm devsw pg a ip off sz).
Proof.
  unfold loaduvm. pres. generalize (Z.to_nat (sz / PGSIZE + 1)) as fuel.
  intros fuel. generalize 0 as j. induction fuel as [|f IH]; intros j;
    cbn [loaduvm_loop]; unfold kload; pres; auto.
Qed.

Lemma exec_load_at k pg ip off sz : pres mine (exec_load devsw k pg ip off sz).
Proof.
  revert off sz. induction k as [|k IH]; intros off sz; cbn [exec_load];
    unfold load_segment; pose proof loaduvm_at; pres; auto.
Qed.

Lemma push_args_at pg argv argc sp us : pres mine (push_args pg argv argc sp us).
Proof.
  revert argc sp us. induction argv as [|a argv IH]; intros argc sp us; cbn [push_args];
    pres; auto.
Qed.

Lemma exec_stack_at path argv pg sz entry :
  pg <> 0 -> pres mine (exec_stack path argv pg sz entry).
Proof.
  intros Hpg. unfold exec_stack, exec_bad, kstore. pose proof push_args_at.
  pose proof (pgdir_at i pg Hpg). pres_cur; auto.
Qed.

Lemma exec_at path argv : pres mine (exec devsw path argv).
Proof.
  unfold exec, exec_bad_ip. pose proof exec_load_at. pres_cur; auto.
  by apply exec_stack_at.
Qed.

Lemma exec_args_at fuel ua k : pres mine (exec_args fuel ua k).
Proof. revert k. induction fuel as [|f IH]; intros k; cbn [exec_args]; pres; auto. Qed.

End Exec.
#[export] Hint Resolve exec_at exec_args_at : pres.

Section Syscalls.
Context `{I : Image} `{E : Entry}.
Variable devsw : Z -> device logst.
Variable i : nat.

Lemma sleep_until_tri t0 n : triple (at_cpu (Some i)) (sleep_until t0 n) (after_sys i).
Proof. unfold sleep_until. tri. Qed.

(** Every system call. *)
Lemma syscalls_tri num f :
  syscalls devsw num = Some f -> triple (at_cpu (Some i)) f (after_sys i).
Proof.
  unfold syscalls. intros Hf. repeat case_match; simplify_eq.
  all: try solve [apply sys_read_tri | apply sys_write_tri].
  all: try solve [eapply triple_bind; [apply exit_tri|intros; by apply triple_ret]].
  all: try solve [eapply triple_bind; [apply wait_tri|intros [r|]; by apply triple_ret]].
  all: unfold sys_fork, sys_pipe, sys_kill, sys_exec, sys_fstat, sys_chdir, sys_dup,
    sys_getpid, sys_sbrk, sys_sleep, sys_uptime, sys_open, sys_mknod, sys_unlink, sys_link,
    sys_mkdir, sys_close, sys_getmemsize, sys_getvpages, sys_getptentries, sys_setpriority,
    sys_shutdown, sys_getfsinfo, outw, setpriority, made, open_inode, link_bad, unlink_bad,
    fail.
  all: tri. apply sleep_until_tri.
Qed.

Lemma syscall_tri :
  triple (at_cpu (Some i)) (syscall devsw)
    (fun b => if b then at_cpu (Some i) else idle).
Proof.
  unfold syscall. apply curproc_bind. intros c [= <-].
  apply triple_pres_bind; [apply pres_get|intros s].
  apply triple_pres_bind; [apply kmem_at|intros eax].
  destruct (syscalls devsw (s32 eax)) as [f|] eqn:Ef; unfold set_eax, kstore; [|tri].
  eapply triple_bind; [by eapply syscalls_tri|]. intros [v|v|]; cbn [after_sys]; tri.
Qed.

End Syscalls.

Section Traps.
Context `{I : Image} `{E : Entry}.
Variable devsw : Z -> device logst.

Lemma consoleintr_at o g : pres (at_cpu o) (consoleintr g).
Proof.
  unfold consoleintr. pres. generalize (S (length (kbd_in (k_cons a)) +
    length (uart_rx (k_cons a)))) as fuel. intros fuel. generalize false as b.
  induction fuel as [|f IH]; intros b; cbn [consoleintr_loop]; pres; auto.
Qed.

Definition after_trap (o : option nat) (e : trapend) : kst -> Prop :=
  match e with Resumes => at_cpu o | _ => idle end.

Lemma exit_if_killed_tri o cs :
  triple (at_cpu o) (exit_if_killed cs) (fun b => if b then idle else at_cpu o).
Proof.
  unfold exit_if_killed, killed_now. tri.
  eapply triple_bind; [apply exit_tri|intros []]. by apply triple_ret.
Qed.

Lemma trap_tail_tri o cs : triple (at_cpu o) (trap_tail cs) (after_trap o).
Proof.
  unfold trap_tail. eapply triple_bind; [apply exit_if_killed_tri|].
  intros [|]; by apply triple_ret.
Qed.

Lemma trap_device_at o tf cr2 tr cs : pres (at_cpu o) (trap_device tf cr2 tr cs).
Proof.
  unfold trap_device, trap_other, trap_timer, kload, kbdintr, uartintr. pose proof consoleintr_at. pres; auto.
Qed.

(** The end of a system call that has returned. *)
Lemma killed_exit_tri i :
  triple (at_cpu (Some i))
    (let! s := get in
     if p_killed (pat s i) then do! exit in ret Switched else ret Resumes)
    (after_trap (Some i)).
Proof. tri. eapply triple_bind; [apply exit_tri|intros []]. by apply triple_ret. Qed.

Lemma trap_tri o tf cr2 : triple (at_cpu o) (trap devsw tf cr2) (after_trap o).
Proof.
  unfold trap, kload. do 2 (apply triple_pres_bind; [apply kmem_at|intros]).
  destruct (a =? T_SYSCALL).
  - apply curproc_bind. intros i ->.
    apply triple_pres_bind; [apply pres_get|intros s]. destruct (p_killed (pat s i)).
    { eapply triple_bind; [apply exit_tri|intros []]. by apply triple_ret. }
    apply triple_pres_bind; [pres|intros _].
    eapply triple_bind; [apply syscall_tri|]. intros [|]; cbn [negb]; [|by apply triple_ret].
    apply killed_exit_tri.
  - apply triple_pres_bind; [apply trap_device_at|intros _].
    eapply triple_bind; [apply exit_if_killed_tri|]. intros [|]; [by apply triple_ret|].
    intros s Hs. pose proof Hs as [HI Hc]. unfold myproc. mrun. rewrite Hc.
    pose proof (trap_tail_tri o (u16 a0) s Hs) as Ht. destruct o as [i|]; [|done].
    destruct (_ && _); [|done].
    pose proof (yield_triple i s Hs) as Hy. unfold bind.
    by destruct (yield s) as [[[] s']| | | |].
Qed.

Lemma consoleread_loop_tri i fuel target n bs :
  triple (at_cpu (Some i)) (consoleread_loop fuel target n bs)
    (fun r => match r with CDone _ _ => at_cpu (Some i) | CSleep _ _ => idle end).
Proof.
  revert n bs. induction fuel as [|f IH]; intros n bs; cbn [consoleread_loop]; tri; auto.
Qed.

Lemma resume_call_tri i k : triple (at_cpu (Some i)) (resume_call k) (after_sys i).
Proof.
  destruct k as [a src j n|a n p| |t n|ip tg n bs p]; cbn [resume_call].
  - eapply triple_bind; [apply pipewrite_from_tri|]. intros []; by apply triple_ret.
  - eapply triple_bind; [apply piperead_tri|]. intros [[r bs]|]; cbn [after_out]; tri.
  - eapply triple_bind; [apply wait_tri|intros [r|]; by apply triple_ret].
  - apply sleep_until_tri.
  - unfold consoleread_from. eapply triple_bind.
    + eapply (triple_bind _ _ _ _ (fun r => match r with CDone _ _ => at_cpu (Some i)
        | CSleep _ _ => idle end)); [apply consoleread_loop_tri|]. intros []; tri.
    + intros []; tri.
Qed.

Lemma resume_tri o k : triple (at_cpu o) (resume k) (after_trap o).
Proof.
  unfold resume, sleep_return. apply curproc_bind. intros i ->.
  apply triple_pres_bind; [pres|intros _].
  eapply triple_bind; [apply resume_call_tri|]. intros [v|j|]; cbn [after_sys];
    [|by apply triple_ret..].
  unfold set_eax, kstore. apply triple_pres_bind; [pres|intros _]. apply killed_exit_tri.
Qed.

End Traps.

(** ** Boot *)

Section Boot.
Context `{I : Image} `{E : Entry}.
Variable devsw : Z -> device logst.

Lemma zeroed_inv s : zeroed s -> idle s.
Proof.
  intros (Hp & Hn & Hm & Hc).
  assert (Hpat : forall i, pat s i = proc0).
  { intros i. unfold pat. rewrite Hp. rewrite list_lookup_total_alt.
    destruct (replicate NP proc0 !! i) eqn:E'; [|done].
    by apply lookup_replicate in E' as [-> _]. }
  assert (Hcp : forall c, cproc s c = None).
  { intros c. unfold cproc. rewrite list_lookup_total_alt.
    destruct (k_cpu s !! c) eqn:E'; [|done]. simpl. rewrite Forall_lookup in Hc. eauto. }
  split; [|apply Hcp]. split; auto.
  - rewrite Hp. apply length_replicate.
  - lia.
  - intros c i _. by rewrite Hcp.
  - intros i. by rewrite Hpat.
  - intros c d i _ _. by rewrite Hcp.
  - intros i. by rewrite Hpat.
  - intros i j. by rewrite Hpat.
  - intros i. rewrite Hpat. by intros [|[|]].
Qed.

Lemma userinit_at o code : pres (at_cpu o) (userinit devsw code).
Proof.
  unfold userinit, pres. eapply triple_bind; [apply allocproc_tri|].
  intros [i|]; cbn [embryo]; [|apply triple_pres_bind; [by apply (modify_at o)|intros; apply triple_fault]].
  apply triple_ex; intros k. apply triple_ex; intros g. apply triple_pure; intros Hk.
  apply triple_pres_bind; [by apply keeps_emb, keeps_modify|intros _].
  apply triple_pres_bind; [apply emb_kmem|intros pg].
  eapply triple_bind; [apply (emb_pupd o i k g _ k pg); [done|by intros; split]|intros []].
  destruct (Z.eqb_spec pg 0) as [->|Hpg]; [apply triple_panic|].
  unfold kstore, kstore16.
  repeat match goal with
    | |- triple _ (bind (kmem _) _) _ => apply triple_pres_bind; [apply emb_kmem|intros]
    | |- triple _ (bind (kfs _) _) _ => apply triple_pres_bind; [apply emb_kfs|intros]
    | |- triple _ (bind get _) _ => apply triple_pres_bind; [apply pres_get|intros]
    | |- triple _ (bind (pupd _ _) _) _ => apply triple_pres_bind; [by apply emb_upd|intros]
    end.
  by apply (emb_runnable o i k pg).
Qed.

Lemma booted_inv code s : booted devsw code s -> pinv s.
Proof.
  intros (s0 & Hz & Hu). pose proof (userinit_at None code s0 (zeroed_inv s0 Hz)) as H.
  rewrite Hu in H. apply H.
Qed.

Lemma pinv_me s c : pinv s -> (c < length (k_cpu s))%nat -> pinv (set_me c s).
Proof. intros [] Hc. by split. Qed.

Lemma after_trap_inv o e s : after_trap o e s -> pinv s.
Proof. by destruct e; intros []. Qed.

Lemma kstep_inv s s' : pinv s -> kstep devsw s s' -> pinv s'.
Proof.
  intros HI [c b Hc Hi Hs|c tf cr2 e Hc Hs|c k e Hc Hs|c cs e Hc Hs|c Hc Hs];
    pose proof (pinv_me s c HI Hc) as Hme;
    assert (Ha : at_cpu (cur_of (set_me c s)) (set_me c s)) by (by split).
  - rewrite Hi in Ha. pose proof (scheduler_triple _ Ha) as Ht. rewrite Hs in Ht.
    destruct b; [destruct Ht as (i & [? _])|destruct Ht as [? _]]; done.
  - pose proof (trap_tri devsw _ tf cr2 _ Ha) as Ht. rewrite Hs in Ht.
    by eapply after_trap_inv.
  - pose proof (resume_tri _ k _ Ha) as Ht. rewrite Hs in Ht. by eapply after_trap_inv.
  - pose proof (trap_tail_tri _ cs _ Ha) as Ht. rewrite Hs in Ht. by eapply after_trap_inv.
  - assert (Hf : pres (at_cpu (cur_of (set_me c s))) forkret) by (unfold forkret; pres).
    specialize (Hf _ Ha). rewrite Hs in Hf. apply Hf.
Qed.

End Boot.

(** ** The property *)

Section Claim.
Context `{I : Image} `{E : Entry}.
Variable devsw : Z -> device logst.

(** (C2) The process table is consistent in every state the kernel reaches
    from boot, whatever traps occur and in whatever order the CPUs run: a
    process is RUNNING exactly when it is the current process of one CPU, no
    two CPUs run the same process, the processes in use have distinct pids
    below [nextpid], and one that can run has a kernel stack and a page
    table; and an idle CPU's scheduler pass never panics or faults. *)
Theorem kernel_invariant :
  (forall code s, booted devsw code s -> pinv s) /\
  (forall s0 s, pinv s0 -> rtc (kstep devsw) s0 s ->
     pinv s /\
     forall c, (c < length (k_cpu s))%nat -> cur_of (set_me c s) = None ->
       exists b s', scheduler (set_me c s) = Ok (b, s')).
Proof.
  split; [by apply booted_inv|]. intros s0 s HI Hr. assert (HI' : pinv s).
  { induction Hr as [|s1 s2 s3 H1 _ IH]; [done|]. apply IH. by eapply kstep_inv. }
  split; [done|]. intros c Hc Hi. rewrite scheduler_run by (by apply pinv_me).
  destruct (sched_next _ _); eauto.
Qed.

End Claim.

(** A timer interrupt preempts the process dispatched before it. *)
Definition demo_tick (s : kst) : kst :=
  set_kmem {| pm_mem := st32 (st32 ∅ 48 32) 60 0; freelist := 0; use_lock := true |} s.
Definition no_dev : Z -> device logst := fun _ => {| dev_read := None; dev_write := None |}.
Definition demo_entry : Entry := {| trapret := 0; forkret_entry := 0 |}.

Lemma kernel_invariant_witness :
  exists s0 s1 s2 : kst, scheduler s0 = Ok (true, s1) /\ cur_of s1 = Some 1%nat /\
    trap (I := demo_image) (E := demo_entry) no_dev 0 0 s1 = Ok (Yields, s2) /\ pinv s2 /\
    p_state (pat s2 1) = RUNNABLE.
Proof.
  set (s0 := demo_tick (demo_kst (demo_proc RUNNABLE 1 10) (demo_proc RUNNABLE 2 12) cpu0)).
  assert (HId : idle s0).
  { eapply at_cpu_view; [|by apply (demo_idle cpu0 RUNNABLE RUNNABLE 10 12)]. by split. }
  destruct (scheduler s0) as [[b s1]| | | |] eqn:E1; try (vm_compute in E1; discriminate).
  destruct (trap (I := demo_image) (E := demo_entry) no_dev 0 0 s1) as [[e s2]| | | |] eqn:E2;
    try (vm_compute in E1; injection E1 as <- <-; vm_compute in E2; discriminate).
  destruct (kernel_invariant (I := demo_image) (E := demo_entry) no_dev) as [_ H].
  assert (Hr : rtc (kstep (I := demo_image) (E := demo_entry) no_dev) s0 s2).
  { apply rtc_l with s1; [|apply rtc_once].
    - by apply (step_scheduler _ _ _ 0 b); [simpl; lia| |].
    - apply (step_trap _ _ _ 0 0 0 e); vm_compute in E1; injection E1 as <- <-;
        [simpl; lia|exact E2]. }
  destruct (H s0 s2 (proj1 HId) Hr) as [HI _]. exists s0, s1, s2.
  rewrite E1, E2. vm_compute in E1. injection E1 as <- <-. vm_compute in E2.
  injection E2 as <- <-.
  split; [done|]. split; [done|]. split; [done|]. split; [exact HI|done].
Defined.
