(* ===== verification/FileInv.v ===== *)
(** * Descriptors and the reference counts of open files

    The count of an entry of the file table is the number of descriptors
    that refer to it, over the whole process table, and a process that is
    free or has exited has no descriptor.  [finv d L] states this with the
    descriptors [L] of all processes explicit and up to [d], the references
    a call in progress holds (positive) or owes (negative). *)

From S2P Require Import Prelude Param Bytes Memory Kalloc Vm Sleeplock Bio Log Blocks.
From S2P Require Import LogBlocks Fs Hoare Kernel Proc Console Pipe File Fork Syscall.
From S2P Require Import Sysproc Sysfile Exec Trap Machine ProcInv Frame Sched KernelInv.

Abbreviation fds := (list (list (option nat))).

(** How many descriptors refer to entry [f]. *)
Definition refcount (f : nat) (l : list (option nat)) : Z :=
  Z.of_nat (length (filter (fun o => o = Some f) l)).
Fixpoint refcounts (f : nat) (L : fds) : Z :=
  match L with [] => 0 | l :: L => refcount f l + refcounts f L end.

Definition no_files (l : list (option nat)) : Prop := Forall (fun o => o = None) l.

Record finv (d : nat -> Z) (L : fds) (s : kst) : Prop := {
  fi_fds : p_ofile <$> k_proc s = L;
  fi_ref : forall f, f_ref (fat s f) = refcounts f L + d f;
  fi_dead : forall i, dead (p_state (pat s i)) = true -> no_files (L !!! i);
  fi_len : Forall (fun l => length l = Z.to_nat NOFILE) L
}.

(** Nothing is pending. *)
Definition files_ok (s : kst) : Prop := exists L, finv (fun _ => 0) L s.

(** ** Code that keeps descriptors and counts *)

Record same_files (s s' : kst) : Prop := {
  sf_fds : p_ofile <$> k_proc s' = p_ofile <$> k_proc s;
  sf_ref : f_ref <$> k_file s' = f_ref <$> k_file s;
  sf_dead : forall i, dead (p_state (pat s' i)) = true -> dead (p_state (pat s i)) = true
}.

#[global] Instance same_files_refl : Reflexive same_files.
Proof. by split. Qed.
#[global] Instance same_files_trans : Transitive same_files.
Proof. intros s1 s2 s3 [H1 H2 H3] [H4 H5 H6]. split; [congruence|congruence|auto]. Qed.

Definition keepsf {A} (c : M kst A) : Prop := forall s0, pres (same_files s0) c.

Lemma finv_same d L s s' : same_files s s' -> finv d L s -> finv d L s'.
Proof.
  intros [S1 S2 S3] [F1 F2 F3 F4]. split; [congruence| |auto|done].
  intros f. rewrite <- F2. unfold fat. apply (f_equal (fun l => l !! f)) in S2.
  rewrite !list_lookup_fmap in S2. rewrite !list_lookup_total_alt.
  destruct (k_file s' !! f), (k_file s !! f); simpl in *; congruence.
Qed.

Lemma files_ok_same s s' : same_files s s' -> files_ok s -> files_ok s'.
Proof. intros Hs [L HL]. exists L. by eapply finv_same. Qed.

Lemma keepsf_pres {A} (P : kst -> Prop) (c : M kst A) :
  (forall s s', same_files s s' -> P s -> P s') -> keepsf c -> pres P c.
Proof. apply frame_pres, _. Qed.

Lemma keepsf_finv {A} d L (c : M kst A) : keepsf c -> pres (finv d L) c.
Proof. apply keepsf_pres, finv_same. Qed.
Lemma keepsf_ok {A} (c : M kst A) : keepsf c -> pres files_ok c.
Proof. apply keepsf_pres, files_ok_same. Qed.

Lemma keepsf_modify f : (forall s, same_files s (f s)) -> keepsf (modify f).
Proof. intros Hf s0. apply pres_modify. intros s Hs. by etrans. Qed.
Lemma pat_alter f i s j :
  pat (set_kproc (alter f i (k_proc s)) s) j =
  if decide (i = j /\ (i < length (k_proc s))%nat) then f (pat s i) else pat s j.
Proof.
  destruct (decide (i < length (k_proc s))%nat) as [Hi|Hi].
  - unfold pat. cbn [k_proc set_kproc]. rewrite alter_at by done.
    destruct (decide (i = j)); [rewrite decide_True|rewrite decide_False]; naive_solver.
  - rewrite decide_False by naive_solver. unfold pat. cbn [k_proc set_kproc].
    rewrite !list_lookup_total_alt. destruct (decide (i = j)) as [<-|].
    + by rewrite list_lookup_alter_eq, lookup_ge_None_2 by lia.
    + by rewrite list_lookup_alter_ne.
Qed.

Lemma keepsf_pupd i f :
  (forall p, p_ofile (f p) = p_ofile p) ->
  (forall p, dead (p_state (f p)) = true -> dead (p_state p) = true) -> keepsf (pupd i f).
Proof.
  intros H1 H2. apply keepsf_modify. intros s. split; [by apply fmap_alter_same|done|].
  intros j. rewrite pat_alter. destruct (decide _) as [[<- _]|]; auto.
Qed.

#[export] Instance same_files_frame : Frame same_files.
Proof.
  split; [apply _|]. intros s s' Hc. pose proof Hc as [Hp Hr]. split; [|done|].
  - clear Hc Hr. induction Hp as [|p p' l l' [Ho _ _] _ IH]; [done|]. by rewrite !fmap_cons, Ho, IH.
  - intros i. apply (calm_pat s s' i Hc).
Qed.

#[export] Hint Extern 1 (pres (same_files _) (pupd _ _)) =>
  (apply keepsf_pupd; [done|by (done || (intros ?; cbn; auto))]) : pres.
#[export] Hint Extern 2 (pres (same_files _) _) =>
  (apply (calm_frame same_files); intros ?; solve [pres]) : pres.

Section Keep.
Context `{I : Image} `{E : Entry}.
Variable devsw : Z -> device logst.
Variable s0 : kst.

Lemma growproc_sf n : pres (same_files s0) (growproc n).
Proof. unfold growproc. pres. Qed.
Lemma exec_sf path argv : pres (same_files s0) (exec devsw path argv).
Proof. unfold exec, exec_bad_ip, exec_stack, exec_bad. pres. Qed.

End Keep.
#[export] Hint Resolve growproc_sf exec_sf : pres.

(** ** Counting *)

Definition bump (d : nat -> Z) (f : nat) (k : Z) : nat -> Z :=
  fun g => if decide (g = f) then d g + k else d g.
Definition obump (d : nat -> Z) (o : option nat) (k : Z) : nat -> Z :=
  match o with Some f => bump d f k | None => d end.
Definition oref (f : nat) (o : option nat) : Z := if decide (o = Some f) then 1 else 0.

Lemma refcount_cons f o l : refcount f (o :: l) = oref f o + refcount f l.
Proof.
  unfold refcount, oref. rewrite filter_cons. destruct (decide (o = Some f)); cbn [length]; lia.
Qed.

Lemma refcount_insert f l k o o' :
  l !! k = Some o -> refcount f (<[k := o']> l) = refcount f l - oref f o + oref f o'.
Proof.
  revert k. induction l as [|x l IH]; intros [|k] Hk; try done.
  - injection Hk as ->. change (<[0%nat := o']> (o :: l)) with (o' :: l).
    rewrite !refcount_cons. lia.
  - change (<[S k := o']> (x :: l)) with (x :: <[k := o']> l).
    rewrite !refcount_cons, (IH k Hk). lia.
Qed.

Lemma refcounts_insert f (L : fds) i l l' :
  L !! i = Some l -> refcounts f (<[i := l']> L) = refcounts f L - refcount f l + refcount f l'.
Proof.
  revert i. induction L as [|x L IH]; intros [|i] Hi; try done.
  - injection Hi as ->. change (<[0%nat := l']> (l :: L)) with (l' :: L).
    cbn [refcounts]. lia.
  - change (<[S i := l']> (x :: L)) with (x :: <[i := l']> L).
    cbn [refcounts]. rewrite (IH i Hi). lia.
Qed.

Lemma refcount_nonneg f l : 0 <= refcount f l.
Proof. unfold refcount. lia. Qed.

Lemma refcounts_pos f (L : fds) i fd : (L !!! i) !! fd = Some (Some f) -> 1 <= refcounts f L.
Proof.
  revert i. induction L as [|l L IH]; intros i H; [done|].
  assert (Hn : 0 <= refcounts f L).
  { clear. induction L as [|l L IH]; cbn [refcounts]; [lia|].
    pose proof (refcount_nonneg f l). lia. }
  cbn [refcounts]. pose proof (refcount_nonneg f l). destruct i as [|i].
  - cbn in H. apply list_elem_of_lookup_2, (list_elem_of_split) in H as (l1 & l2 & ->).
    unfold refcount. rewrite filter_app, filter_cons_True, length_app by done.
    cbn [length]. lia.
  - specialize (IH i H). lia.
Qed.

Lemma obump_spec d o k f : obump d o k f = d f + k * oref f o.
Proof.
  unfold obump, bump, oref. destruct o as [g|].
  - destruct (decide (f = g)) as [->|]; [rewrite decide_True by done; lia|].
    rewrite decide_False by congruence. lia.
  - rewrite decide_False by done. lia.
Qed.

Lemma finv_ext d d' L s : (forall f, d f = d' f) -> finv d L s -> finv d' L s.
Proof. intros He [H1 H2 H3 H4]. split; auto. intros f. by rewrite H2, He. Qed.

(** ** One descriptor changes *)

Definition live (i : nat) (s : kst) : Prop := dead (p_state (pat s i)) = false.

Definition fd_set (L : fds) (i fd : nat) (o : option nat) : fds :=
  <[i := <[fd := o]> (L !!! i)]> L.

Lemma fd_set_tri d L i fd o o' :
  (L !!! i) !! fd = Some o ->
  triple (fun s => finv d L s /\ (o' = None \/ live i s))
    (pupd i (fun p => set_ofile (<[fd := o']> (p_ofile p)) p))
    (fun _ => finv (obump (obump d o 1) o' (-1)) (fd_set L i fd o')).
Proof.
  intros Ho. apply triple_modify. intros s [[F1 F2 F3 F4] Hl].
  assert (Hi : exists p, k_proc s !! i = Some p).
  { destruct (k_proc s !! i) eqn:E; [eauto|]. exfalso. rewrite <- F1 in Ho.
    rewrite list_lookup_total_alt, list_lookup_fmap, E in Ho. done. }
  destruct Hi as [p Hp].
  assert (HL : L !! i = Some (p_ofile p)) by (by rewrite <- F1, list_lookup_fmap, Hp).
  assert (HL' : L !!! i = p_ofile p) by (by apply list_lookup_total_correct).
  assert (Hpat : pat s i = p) by (by apply list_lookup_total_correct).
  split.
  - rewrite <- F1. cbn [k_proc set_kproc]. unfold fd_set. rewrite F1, HL'. apply list_eq.
    intros j. rewrite list_lookup_fmap. destruct (decide (i = j)) as [<-|Hij].
    + rewrite list_lookup_alter_eq, Hp, list_lookup_insert_eq; [done|].
      by eapply lookup_lt_Some.
    + rewrite list_lookup_alter_ne, list_lookup_insert_ne by done.
      by rewrite <- F1, list_lookup_fmap.
  - intros f. change (fat (set_kproc _ s) f) with (fat s f). rewrite F2.
    unfold fd_set. rewrite (refcounts_insert f L i _ _ HL), HL'.
    rewrite HL' in Ho. rewrite (refcount_insert f _ fd _ o' Ho), !obump_spec. lia.
  - intros j. rewrite pat_alter. unfold fd_set.
    destruct (decide _) as [[<- Hlt]|Hn].
    + cbn [p_state set_ofile]. intros Hd. rewrite Hpat in Hd.
      rewrite list_lookup_total_insert_eq by (by eapply lookup_lt_Some).
      destruct Hl as [->|Hl]; [|unfold live in Hl; congruence].
      apply Forall_insert; [|done]. apply F3. by rewrite Hpat.
    + intros Hd. destruct (decide (i = j)) as [<-|].
      * exfalso. apply Hn. split; [done|]. by eapply lookup_lt_Some.
      * rewrite list_lookup_total_insert_ne by done. by apply F3.
  - unfold fd_set. apply Forall_insert; [done|]. rewrite length_insert.
    rewrite Forall_lookup in F4. rewrite HL'. by eapply F4.
Qed.

Lemma fd_set_at (L : fds) i fd o o' :
  (L !!! i) !! fd = Some o -> (fd_set L i fd o' !!! i) !! fd = Some o'.
Proof.
  intros Ho. unfold fd_set. rewrite list_lookup_total_insert_eq.
  - apply list_lookup_insert_eq. by eapply lookup_lt_Some.
  - destruct (decide (i < length L)%nat); [done|]. exfalso.
    rewrite list_lookup_total_alt, (lookup_ge_None_2 L i) in Ho by lia. done.
Qed.

(** ** The file table *)

Lemma fat_upd f g s j :
  (f < length (k_file s))%nat ->
  fat (set_kfile (alter g f (k_file s)) s) j = if decide (f = j) then g (fat s f) else fat s j.
Proof. intros Hf. unfold fat. cbn [k_file set_kfile]. by rewrite alter_at. Qed.

Lemma fat_range s f : f_ref (fat s f) <> 0 -> (f < length (k_file s))%nat.
Proof.
  intros H. destruct (decide (f < length (k_file s))%nat); [done|]. exfalso. apply H.
  unfold fat. by rewrite list_lookup_total_alt, lookup_ge_None_2 by lia.
Qed.

Lemma finv_fref d L s f g k :
  finv d L s -> (f < length (k_file s))%nat -> f_ref (g (fat s f)) = f_ref (fat s f) + k ->
  finv (bump d f k) L (set_kfile (alter g f (k_file s)) s).
Proof.
  intros [F1 F2 F3 F4] Hf Hg. split; auto. intros j. rewrite fat_upd by done. unfold bump.
  destruct (decide (f = j)) as [<-|].
  - rewrite decide_True by done. rewrite Hg, F2. lia.
  - rewrite decide_False by congruence. apply F2.
Qed.

Section Files.
Context `{I : Image} `{E : Entry}.
Variable devsw : Z -> device logst.

Lemma filealloc_tri d L :
  triple (finv d L) filealloc
    (fun r => match r with None => finv d L | Some f => finv (bump d f 1) L end).
Proof.
  intros s Hs. unfold filealloc. mrun.
  destruct (find_idx _ (k_file s)) as [f|] eqn:Ef; [|done].
  apply find_idx_Some in Ef as (x & Hx & H0%Z.eqb_eq & _). unfold fileupd. mrun. cbn.
  assert (Hfat : fat s f = x) by (by apply list_lookup_total_correct).
  apply finv_fref; [done|by eapply lookup_lt_Some|]. rewrite Hfat, H0. done.
Qed.

Lemma filedup_tri d L f :
  triple (finv d L) (filedup f) (fun r s => r = f /\ finv (bump d f 1) L s).
Proof.
  intros s Hs. unfold filedup. mrun. destruct (Z.ltb_spec (f_ref (fat s f)) 1); [done|].
  unfold fileupd. mrun. cbn. split; [done|].
  apply finv_fref; [done|apply fat_range; lia|done].
Qed.

Lemma fileclose_tri d L f : triple (finv d L) (fileclose f) (fun _ => finv (bump d f (-1)) L).
Proof.
  intros s Hs. unfold fileclose. mrun. destruct (Z.ltb_spec (f_ref (fat s f)) 1); [done|].
  unfold fileupd at 1. mrun. set (s1 := set_kfile _ s).
  assert (Hr : (f < length (k_file s))%nat) by (apply fat_range; lia).
  assert (H1 : finv (bump d f (-1)) L s1) by (by apply finv_fref).
  assert (Hf1 : f_ref (fat s1 f) = f_ref (fat s f) - 1).
  { unfold s1. rewrite fat_upd by done. by rewrite decide_True. }
  destruct (Z.ltb_spec 0 (f_ref (fat s1 f))); [done|]. cbv zeta.
  unfold fileupd at 1. mrun. set (s2 := set_kfile _ s1).
  assert (H2 : finv (bump d f (-1)) L s2).
  { eapply (finv_ext (bump (bump d f (-1)) f 0)).
    - intros g. unfold bump. destruct (decide (g = f)); lia.
    - apply finv_fref; [done| |cbn; lia]. unfold s1. cbn [k_file set_kfile].
      by rewrite length_alter. }
  clearbody s2. revert s2 H2. match goal with
    |- forall s, _ -> match ?c s with _ => _ end => change (pres (finv (bump d f (-1)) L) c) end.
  apply keepsf_finv. intros s0. pres.
Qed.

Lemma close_opt_tri d L o :
  triple (finv d L) (close_opt o) (fun _ => finv (obump d o (-1)) L).
Proof. destruct o as [f|]; [apply fileclose_tri|by apply triple_ret]. Qed.

End Files.

Lemma bump_cancel d f g : bump (bump d f 1) f (-1) g = d g.
Proof. unfold bump. destruct (decide (g = f)); lia. Qed.
Lemma bump_cancel' d f g : bump (bump d f (-1)) f 1 g = d g.
Proof. unfold bump. destruct (decide (g = f)); lia. Qed.

(** Weakening the post-condition up to the values of [d]. *)
Lemma finv_post {A} P (c : M kst A) (d d' : A -> nat -> Z) L :
  triple P c (fun a => finv (d a) L) -> (forall a f, d a f = d' a f) ->
  triple P c (fun a => finv (d' a) L).
Proof.
  intros Hc He. eapply triple_conseq; [| |exact Hc]; [done|]. intros a s. by apply finv_ext.
Qed.

Section Pipes.
Context `{I : Image}.

Lemma pipealloc_tri d L :
  triple (finv d L) pipealloc
    (fun r => match r with
              | None => finv d L
              | Some (a, b) => finv (bump (bump d a 1) b 1) L
              end).
Proof.
  unfold pipealloc. eapply triple_bind; [apply filealloc_tri|]. intros [a|].
  2:{ do 2 apply triple_bret. cbn [close_opt]. do 2 apply triple_bret. by apply triple_ret. }
  eapply triple_bind; [apply filealloc_tri|]. intros [b|].
  2:{ apply triple_bret. eapply triple_bind; [apply close_opt_tri|intros []].
      apply triple_bret. apply triple_ret. intros s. apply finv_ext. apply bump_cancel. }
  apply triple_pres_bind; [apply keepsf_finv; intros s0; pres|intros p].
  destruct (p =? 0).
  - eapply triple_bind; [apply fileclose_tri|intros []].
    eapply triple_bind; [apply fileclose_tri|intros []]. apply triple_ret.
    intros s. apply finv_ext. intros f. unfold bump.
    destruct (decide (f = a)), (decide (f = b)); lia.
  - apply triple_pres_bind; [apply pres_get|intros s].
    do 3 (apply triple_pres_bind; [apply keepsf_finv; intros s0; pres|intros _]).
    by apply triple_ret.
Qed.

End Pipes.

(** ** Calls of the running process *)

Definition fcpu (d : nat -> Z) (L : fds) (i : nat) (s : kst) : Prop :=
  finv d L s /\ at_cpu (Some i) s.

Lemma fcpu_lift {A} d L i (c : M kst A) Q :
  triple (finv d L) c Q -> pres (at_cpu (Some i)) c ->
  triple (fcpu d L i) c (fun a s => Q a s /\ at_cpu (Some i) s).
Proof.
  intros H1 H2. apply triple_and.
  - eapply triple_conseq; [| |exact H1]; [by intros s []|done].
  - eapply triple_conseq; [| |exact H2]; [by intros s []|done].
Qed.

Lemma fcpu_pres {A} d L i (c : M kst A) :
  keepsf c -> pres (at_cpu (Some i)) c -> pres (fcpu d L i) c.
Proof. intros H1 H2. apply fcpu_lift; [by apply keepsf_finv|done]. Qed.

Lemma fcpu_ofile d L i s : fcpu d L i s -> L !!! i = p_ofile (pat s i).
Proof.
  intros [[F1 _ _ _] [HI Hc]]. destruct (cur_lt s i HI Hc) as [Hi _]. rewrite <- F1.
  unfold pat. rewrite !list_lookup_total_alt, list_lookup_fmap.
  destruct (lookup_lt_is_Some_2 (k_proc s) i) as [p Hp]; [by rewrite (pi_len s HI)|].
  by rewrite Hp.
Qed.

Lemma fcpu_live d L i s : fcpu d L i s -> live i s.
Proof.
  intros [_ [HI Hc]]. destruct (cur_lt s i HI Hc) as [_ Hr]. unfold live. by rewrite Hr.
Qed.

Lemma fcpu_get {A} d L i (k : kst -> M kst A) Q :
  (forall s, fcpu d L i s -> triple (fcpu d L i) (k s) Q) ->
  triple (fcpu d L i) (bind get k) Q.
Proof. intros H s Hs. unfold bind, get. by apply (H s Hs). Qed.

Lemma fcpu_curproc {A} d L i (k : nat -> M kst A) Q :
  triple (fcpu d L i) (k i) Q -> triple (fcpu d L i) (let! i := curproc in k i) Q.
Proof.
  intros H s Hs. pose proof Hs as [_ [_ Hc]]. unfold curproc, myproc. mrun. rewrite Hc. mrun.
  by apply H.
Qed.

Ltac fpres := apply fcpu_pres; [intros ?s0; pres|pres].
Ltac fstep := apply triple_pres_bind; [solve [fpres]|intros].

Lemma fd_set_cpu d L i fd o o' :
  (L !!! i) !! fd = Some o ->
  triple (fcpu d L i) (set_fd i fd o')
    (fun _ => fcpu (obump (obump d o 1) o' (-1)) (fd_set L i fd o') i).
Proof.
  intros Ho. unfold set_fd. apply triple_and.
  - eapply triple_conseq; [|intros a s H; exact H|exact (fd_set_tri d L i fd o o' Ho)].
    intros s Hs. split; [apply Hs|]. right. by eapply fcpu_live.
  - apply (triple_conseq _ (at_cpu (Some i)) _ _ (fun _ => at_cpu (Some i)));
      [by intros s []|done|by apply pupd_at].
Qed.

Section Fds.
Context `{I : Image}.

Lemma fdalloc_tri d L i f :
  triple (fcpu d L i) (fdalloc f)
    (fun r s => match r with
                | None => fcpu d L i s
                | Some fd => (L !!! i) !! fd = Some None /\
                    fcpu (bump d f (-1)) (fd_set L i fd (Some f)) i s
                end).
Proof.
  unfold fdalloc. apply fcpu_curproc, fcpu_get. intros s Hs.
  rewrite <- (fcpu_ofile _ _ _ _ Hs).
  destruct (find_idx _ (L !!! i)) as [fd|] eqn:Ef; [|by apply triple_ret].
  apply find_idx_Some in Ef as (o & Ho & Hn%bool_decide_eq_true & _). subst o.
  eapply triple_bind; [by apply fd_set_cpu|intros []]. by apply triple_ret.
Qed.

Lemma argfd_tri d L i n :
  triple (fcpu d L i) (argfd n)
    (fun r s => fcpu d L i s /\
       match r with Some (fd, f) => (L !!! i) !! fd = Some (Some f) | None => True end).
Proof.
  unfold argfd. fstep. destruct a as [fd|]; [|by apply triple_ret].
  apply fcpu_curproc, fcpu_get. intros s Hs. rewrite <- (fcpu_ofile _ _ _ _ Hs).
  destruct (_ || _); [by apply triple_ret|].
  destruct ((L !!! i) !!! Z.to_nat fd) as [f|] eqn:Ef; [|by apply triple_ret].
  apply triple_ret. intros s' Hs'. split; [done|]. rewrite list_lookup_total_alt in Ef.
  destruct ((L !!! i) !! Z.to_nat fd) as [o|]; [|done]. cbn in Ef. by subst.
Qed.

End Fds.

(** ** System calls on descriptors *)

Lemma fcpu_ok {A} d L i (c : M kst A) Q :
  (forall f, d f = 0) -> triple files_ok c Q -> triple (fcpu d L i) c Q.
Proof.
  intros Hd Hc. eapply triple_conseq; [|intros a s H; exact H|exact Hc].
  intros s [Hs _]. exists L. eapply finv_ext; [|exact Hs]. done.
Qed.

Lemma finv_ok {A} d L (c : M kst A) Q :
  (forall f, d f = 0) -> triple files_ok c Q -> triple (finv d L) c Q.
Proof.
  intros Hd Hc. eapply triple_conseq; [|intros a s H; exact H|exact Hc].
  intros s Hs. exists L. eapply finv_ext; [|exact Hs]. done.
Qed.

Lemma triple_left {A} (P P' : kst -> Prop) (c : M kst A) Q :
  triple P c Q -> triple (fun s => P s /\ P' s) c Q.
Proof. intros H. eapply triple_conseq; [|intros a s h; exact h|exact H]. by intros s []. Qed.

Section Calls.
Context `{I : Image} `{E : Entry}.
Variable devsw : Z -> device logst.
Abbreviation zero := (fun _ : nat => 0).

Lemma ret_ok (r : sysret) : triple files_ok (ret r) (fun _ => files_ok).
Proof. by apply triple_ret. Qed.

Lemma sys_dup_files L i : triple (fcpu zero L i) sys_dup (fun _ => files_ok).
Proof.
  unfold sys_dup, fail. eapply triple_bind; [apply argfd_tri|]. intros [[fd f]|].
  2:{ apply triple_left, fcpu_ok; [done|apply ret_ok]. }
  apply triple_left. eapply triple_bind; [apply fdalloc_tri|]. intros [fd'|].
  2:{ apply fcpu_ok; [done|apply ret_ok]. }
  apply triple_pure. intros _. apply triple_left.
  eapply triple_bind; [apply filedup_tri|]. intros f'. apply triple_pure. intros ->.
  apply finv_ok; [apply bump_cancel'|apply ret_ok].
Qed.

Lemma sys_close_files L i : triple (fcpu zero L i) sys_close (fun _ => files_ok).
Proof.
  unfold sys_close, fail. eapply triple_bind; [apply argfd_tri|]. intros [[fd f]|].
  2:{ apply triple_left, fcpu_ok; [done|apply ret_ok]. }
  intros s [Hs Ho]. revert s Hs. match goal with |- forall s, _ -> match ?c s with _ => _ end =>
    change (triple (fcpu zero L i) c (fun _ => files_ok)) end.
  apply fcpu_curproc. eapply triple_bind; [by apply fd_set_cpu|intros []].
  apply triple_left. eapply triple_bind; [apply fileclose_tri|intros []].
  apply finv_ok; [apply bump_cancel|apply ret_ok].
Qed.

Lemma sys_open_files L i : triple (fcpu zero L i) (sys_open devsw) (fun _ => files_ok).
Proof.
  unfold sys_open, fail. fstep. destruct a as [path|]; [|apply fcpu_ok; [done|apply ret_ok]].
  fstep. destruct a as [om|]; [|apply fcpu_ok; [done|apply ret_ok]].
  fstep. unfold open_inode. fstep.
  destruct a0 as [ip|]; [|apply fcpu_ok; [done|apply ret_ok]].
  eapply triple_bind; [apply fcpu_lift; [apply filealloc_tri|pres]|]. intros [f|].
  2:{ apply triple_left. apply triple_bret. apply finv_ok; [done|].
      apply keepsf_ok. intros s0. unfold close_opt. pres. }
  eapply triple_bind; [apply fdalloc_tri|]. intros [fd|].
  - apply triple_pure. intros _. apply fcpu_ok; [apply bump_cancel|].
    apply keepsf_ok. intros s0. pres.
  - apply triple_left. cbn [close_opt]. eapply triple_bind; [apply fileclose_tri|intros []].
    apply finv_ok; [apply bump_cancel|]. apply keepsf_ok. intros s0. pres.
Qed.

Lemma sys_pipe_files L i : triple (fcpu zero L i) sys_pipe (fun _ => files_ok).
Proof.
  unfold sys_pipe, fail. fstep. destruct a as [fda|]; [|apply fcpu_ok; [done|apply ret_ok]].
  eapply triple_bind; [apply fcpu_lift; [apply pipealloc_tri|pres]|]. intros [[rf wf]|].
  2:{ apply triple_left, finv_ok; [done|apply ret_ok]. }
  apply fcpu_curproc. eapply triple_bind; [apply fdalloc_tri|]. intros [fd0|].
  2:{ do 2 apply triple_bret. apply triple_left.
      eapply triple_bind; [apply fileclose_tri|intros []].
      eapply triple_bind; [apply fileclose_tri|intros []].
      apply finv_ok; [|apply ret_ok]. intros f. unfold bump.
      destruct (decide (f = rf)), (decide (f = wf)); lia. }
  apply triple_pure. intros Ho. eapply triple_bind; [apply fdalloc_tri|]. intros [fd1|].
  - apply triple_pure. intros _. apply fcpu_ok.
    + intros f. unfold bump. destruct (decide (f = rf)), (decide (f = wf)); lia.
    + apply keepsf_ok. intros s0. pres.
  - eapply triple_bind; [apply (fd_set_cpu _ _ i fd0 (Some rf))|intros []].
    { by eapply fd_set_at. }
    apply triple_left. eapply triple_bind; [apply fileclose_tri|intros []].
    eapply triple_bind; [apply fileclose_tri|intros []].
    apply finv_ok; [|apply ret_ok]. intros f. cbn [obump]. unfold bump.
    destruct (decide (f = rf)), (decide (f = wf)); lia.
Qed.

End Calls.

(** ** Processes *)

Definition flive (d : nat -> Z) (L : fds) (n : nat) (s : kst) : Prop := finv d L s /\ live n s.

Lemma flive_pres {A} d L n (c : M kst A) : keepsf c -> pres (flive d L n) c.
Proof.
  apply keepsf_pres. intros s s' Hs [H1 H2]. split; [by eapply finv_same|].
  unfold live in *. destruct (dead (p_state (pat s' n))) eqn:Ed; [|done].
  apply (sf_dead _ _ Hs) in Ed. congruence.
Qed.

(** A process leaves the table or becomes a zombie. *)
Lemma dead_tri d L i st :
  no_files (L !!! i) -> pres (finv d L) (pupd i (set_state st)).
Proof.
  intros Hn. apply pres_modify. intros s [F1 F2 F3 F4]. split; auto.
  - rewrite <- F1. by apply fmap_alter_same.
  - intros j. rewrite pat_alter. destruct (decide _) as [[<- _]|]; auto.
Qed.

Lemma finv_at d L s i :
  finv d L s -> (i < length (k_proc s))%nat -> L !!! i = p_ofile (pat s i).
Proof.
  intros [F1 _ _ _] Hi. rewrite <- F1. unfold pat.
  rewrite !list_lookup_total_alt, list_lookup_fmap.
  destruct (lookup_lt_is_Some_2 (k_proc s) i) as [p Hp]; [done|]. by rewrite Hp.
Qed.

Lemma finv_len d L s : finv d L s -> length L = length (k_proc s).
Proof. intros [F1 _ _ _]. rewrite <- F1. apply length_fmap. Qed.

Lemma finv_ofile_len d L s i :
  finv d L s -> (i < length L)%nat -> length (L !!! i) = Z.to_nat NOFILE.
Proof.
  intros H Hi. pose proof (fi_len _ _ _ H) as F. rewrite Forall_lookup in F.
  eapply F. by apply list_lookup_lookup_total_lt.
Qed.

Section Procs.
Context `{I : Image} `{E : Entry}.
Variable devsw : Z -> device logst.
Abbreviation zero := (fun _ : nat => 0).

Definition new_proc (r : option nat) (s : kst) : Prop :=
  match r with
  | None => files_ok s
  | Some n => exists L, (no_files (L !!! n) /\ (n < length L)%nat) /\ flive zero L n s
  end.

Lemma allocproc_files : triple files_ok allocproc new_proc.
Proof.
  intros s [L HF]. unfold allocproc. mrun.
  destruct (find_idx _ (k_proc s)) as [i|] eqn:Ef; [|by exists L].
  apply find_idx_Some in Ef as (p & Hp & Hu%in_state_true & _).
  assert (Hpi : pat s i = p) by (by apply list_lookup_total_correct).
  assert (Hlt : (i < length (k_proc s))%nat) by (by eapply lookup_lt_Some).
  assert (Hno : no_files (L !!! i)) by (apply (fi_dead _ _ _ HF); by rewrite Hpi, Hu).
  assert (Hlen : (i < length L)%nat) by (by rewrite (finv_len _ _ _ HF)).
  unfold pupd at 1. mrun. set (s1 := set_kproc _ s).
  assert (H1 : flive zero L i s1).
  { split; [by apply (dead_tri zero L i EMBRYO Hno s HF)|]. unfold live, s1.
    rewrite pat_alter, decide_True by done. done. }
  clearbody s1. revert s1 H1. match goal with |- forall s1, _ -> match ?c s1 with _ => _ end =>
    change (triple (flive zero L i) c new_proc) end.
  do 4 (apply triple_pres_bind; [apply flive_pres; intros s0; pres|intros]).
  apply triple_pres_bind; [apply flive_pres; intros s0; pres|intros _].
  destruct (a2 =? 0).
  - apply triple_left. apply triple_pres_bind; [by apply dead_tri|intros _].
    apply triple_ret. intros s' Hs'. by exists L.
  - do 5 (apply triple_pres_bind; [apply flive_pres; intros s0; pres|intros _]).
    apply triple_ret. intros s' Hs'. by exists L.
Qed.

End Procs.

Section Procs2.
Context `{I : Image} `{E : Entry}.
Variable devsw : Z -> device logst.
Abbreviation zero := (fun _ : nat => 0).

Lemma pres_live n {A} (c : M kst A) : keepsf c -> pres (live n) c.
Proof.
  apply keepsf_pres. intros s s' Hs H. unfold live in *.
  destruct (dead (p_state (pat s' n))) eqn:Ed; [|done].
  apply (sf_dead _ _ Hs) in Ed. congruence.
Qed.

Lemma filedup_live d L f n :
  triple (flive d L n) (filedup f) (fun r s => r = f /\ flive (bump d f 1) L n s).
Proof.
  intros s [Hs Hl]. pose proof (filedup_tri d L f s Hs) as Ht. revert Ht.
  unfold filedup. mrun. destruct (_ <? 1); [done|]. unfold fileupd. mrun. cbn.
  intros [_ Ht]. done.
Qed.

Lemma fd_set_live d L n fd o o' :
  (L !!! n) !! fd = Some o ->
  triple (flive d L n) (pupd n (fun p => set_ofile (<[fd := o']> (p_ofile p)) p))
    (fun _ => flive (obump (obump d o 1) o' (-1)) (fd_set L n fd o') n).
Proof.
  intros Ho s [Hs Hl]. split.
  - apply (fd_set_tri d L n fd o o' Ho s). split; [done|by right].
  - unfold live in *. rewrite pat_alter. by destruct (decide _).
Qed.

Lemma flive_ext d d' L n s : (forall f, d f = d' f) -> flive d L n s -> flive d' L n s.
Proof. intros He [H1 H2]. split; [by eapply finv_ext|done]. Qed.

Lemma fork_files_tri k c n i L :
  (k + i = Z.to_nat NOFILE)%nat ->
  (forall j, (i <= j < Z.to_nat NOFILE)%nat -> (L !!! n) !! j = Some None) ->
  triple (flive zero L n) (fork_files k c n i) (fun _ s => exists L', flive zero L' n s).
Proof.
  revert i L. induction k as [|k IH]; intros i L Hk HL; cbn [fork_files].
  { apply triple_ret. eauto. }
  apply triple_pres_bind; [apply pres_get|intros s].
  destruct (p_ofile (pat s c) !!! i) as [f|].
  - apply (triple_bind _ _ _ (fun _ => flive zero (fd_set L n i (Some f)) n)).
    + eapply triple_bind; [apply filedup_live|]. intros f'. apply triple_pure. intros ->.
      eapply triple_conseq; [intros s' H; exact H| |apply (fd_set_live _ L n i None)].
      * intros [] s'. apply flive_ext. cbn [obump]. apply bump_cancel.
      * apply HL. lia.
    + intros []. apply IH; [lia|]. intros j Hj. unfold fd_set.
      assert (Hi : (n < length L)%nat).
      { destruct (decide (n < length L)%nat); [done|]. exfalso.
        specialize (HL i ltac:(lia)).
        by rewrite list_lookup_total_alt, (lookup_ge_None_2 L n) in HL by lia. }
      rewrite list_lookup_total_insert_eq by done.
      rewrite list_lookup_insert_ne by lia. apply HL. lia.
  - apply triple_bret. apply IH; [lia|]. intros j Hj. apply HL. lia.
Qed.

Lemma no_files_at d L n s :
  flive d L n s -> no_files (L !!! n) -> (n < length L)%nat ->
  forall j, (0 <= j < Z.to_nat NOFILE)%nat -> (L !!! n) !! j = Some None.
Proof.
  intros [Hs _] Hn Hlt j Hj. rewrite <- (finv_ofile_len _ _ _ n Hs Hlt) in Hj.
  destruct (lookup_lt_is_Some_2 (L !!! n) j) as [o Ho]; [lia|]. rewrite Ho.
  f_equal. eapply Forall_lookup_1 in Hn; [|exact Ho]. done.
Qed.

Lemma fork_files_ok : pres files_ok fork.
Proof.
  unfold fork, pres. apply triple_pres_bind; [apply keepsf_ok; intros s0; pres|intros c].
  eapply triple_bind; [apply allocproc_files|]. intros [n|]; [|by apply triple_ret].
  apply triple_ex; intros L. apply triple_pure. intros [Hn Hlt].
  do 4 (apply triple_pres_bind; [apply flive_pres; intros s0; pres|intros]).
  destruct (a0 =? 0).
  - do 2 (apply triple_pres_bind; [apply flive_pres; intros s0; pres|intros]).
    apply triple_left. apply triple_pres_bind; [by apply dead_tri|intros _].
    apply triple_ret. intros s Hs. by exists L.
  - do 4 (apply triple_pres_bind; [apply flive_pres; intros s0; pres|intros]).
    intros s Hs. pose proof (no_files_at _ _ _ _ Hs Hn Hlt) as HL. revert s Hs.
    match goal with |- forall s, _ -> match ?c s with _ => _ end =>
      change (triple (flive zero L n) c (fun _ => files_ok)) end.
    eapply triple_bind; [by apply fork_files_tri|intros []]. apply triple_ex. intros L'.
    apply triple_left. apply finv_ok; [done|]. apply keepsf_ok. intros s0. pres.
Qed.

(** What a descriptor of process [c] refers to. *)
Lemma ofile_spec d L s c fd f :
  finv d L s -> (p_ofile (pat s c) !!! fd = Some f <-> (L !!! c) !! fd = Some (Some f)).
Proof.
  intros Hs. destruct (decide (c < length (k_proc s))%nat) as [Hc|Hc].
  - rewrite (finv_at _ _ _ c Hs Hc), list_lookup_total_alt.
    destruct (p_ofile (pat s c) !! fd) as [o|]; cbn; [|done]. split; congruence.
  - rewrite (list_lookup_total_alt L), (lookup_ge_None_2 L c)
      by (rewrite (finv_len _ _ _ Hs); lia).
    unfold pat. rewrite (list_lookup_total_alt (k_proc s)), (lookup_ge_None_2 (k_proc s)) by lia.
    split; [|done]. cbn [default p_ofile inhabitant proc_inhabited proc0].
    rewrite list_lookup_total_alt. destruct (replicate _ _ !! fd) eqn:Er; [|done].
    apply lookup_replicate in Er as [-> _]. done.
Qed.

Lemma fds_range (L : fds) c fd o : (L !!! c) !! fd = Some o -> (c < length L)%nat.
Proof.
  intros H. destruct (decide (c < length L)%nat); [done|]. exfalso.
  by rewrite list_lookup_total_alt, (lookup_ge_None_2 L c) in H by lia.
Qed.

Lemma exit_files_tri k c fd L :
  (k + fd = Z.to_nat NOFILE)%nat ->
  (forall j f, (j < fd)%nat -> (L !!! c) !! j <> Some (Some f)) ->
  triple (finv zero L) (exit_files k c fd)
    (fun _ s => exists L', no_files (L' !!! c) /\ finv zero L' s).
Proof.
  revert fd L. induction k as [|k IH]; intros fd L Hk HL; cbn [exit_files].
  { apply triple_ret. intros s Hs. exists L. split; [|done]. apply Forall_lookup_2.
    intros j o Hj. destruct o as [f|]; [|done]. exfalso. apply (HL j f); [|done].
    pose proof (lookup_lt_Some _ _ _ Hj) as Hlt.
    rewrite (finv_ofile_len _ _ _ c Hs (fds_range _ _ _ _ Hj)) in Hlt. lia. }
  intros s Hs. mrun. destruct (p_ofile (pat s c) !!! fd) as [f|] eqn:Ef.
  - pose proof (proj1 (ofile_spec _ _ _ _ _ _ Hs) Ef) as Hfd. clear Ef. revert s Hs.
    match goal with |- forall s, _ -> match ?k s with _ => _ end =>
      change (triple (finv zero L) k (fun _ s => exists L', no_files (L' !!! c) /\ finv zero L' s)) end.
    apply (triple_bind _ _ _ (fun _ => finv zero (fd_set L c fd None))).
    + eapply triple_bind; [apply fileclose_tri|intros []].
      eapply triple_conseq; [|intros a s H; exact (finv_ext _ _ _ _ (bump_cancel' zero f) H)
        |exact (fd_set_tri (bump zero f (-1)) L c fd (Some f) None Hfd)].
      intros s Hs. split; [done|by left].
    + intros []. apply IH; [lia|]. intros j g Hj. destruct (decide (fd = j)) as [<-|].
      * by rewrite (fd_set_at _ _ _ _ _ Hfd).
      * unfold fd_set. rewrite list_lookup_total_insert_eq by (by eapply fds_range).
        rewrite list_lookup_insert_ne by done. apply HL. lia.
  - apply (IH (S fd) L); [lia| |done]. intros j f Hj.
    destruct (decide (j = fd)) as [->|]; [|apply HL; lia]. intros Hfd.
    apply (ofile_spec _ _ _ _ _ _ Hs) in Hfd. congruence.
Qed.

Lemma exit_ok : pres files_ok exit.
Proof.
  unfold exit, pres. do 2 (apply triple_pres_bind; [apply keepsf_ok; intros s0; pres|intros]).
  destruct (bool_decide _); [apply triple_panic|]. apply triple_ex. intros L.
  eapply triple_bind; [apply exit_files_tri; [done|intros; lia]|intros []].
  apply triple_ex; intros L'. apply triple_pure. intros Hno.
  do 3 (apply triple_pres_bind; [apply keepsf_finv; intros s0; pres|intros]).
  do 4 (apply triple_pres_bind; [apply keepsf_finv; intros s0; pres|intros]).
  apply triple_pres_bind.
  { apply keepsf_finv. intros s0. generalize (Z.to_nat NPROC) as k. intros k. generalize 0%nat.
    induction k as [|k IH]; intros j; cbn [reparent]; pres; auto. }
  intros _. apply triple_pres_bind; [by apply dead_tri|intros _].
  apply finv_ok; [done|]. apply keepsf_ok. intros s0. pres.
Qed.

Lemma wait_ok : pres files_ok wait.
Proof.
  unfold wait, pres. apply triple_pres_bind; [apply keepsf_ok; intros s0; pres|intros c].
  intros s [L HF]. mrun. destruct (find_idx _ (k_proc s)) as [z|] eqn:Ef.
  - apply find_idx_Some in Ef as (p & Hp & Hz & _).
    apply andb_true_iff in Hz as [_ Hz%in_state_true].
    assert (Hno : no_files (L !!! z)).
    { apply (fi_dead _ _ _ HF). rewrite (list_lookup_total_correct _ _ _ Hp : pat s z = p).
      by rewrite Hz. }
    revert HF. generalize (pat s z). intros pz. revert s Hp. intros s _. revert s.
    match goal with |- forall s, _ -> match ?k s with _ => _ end =>
      change (triple (finv zero L) k (fun _ => files_ok)) end.
    do 7 (apply triple_pres_bind; [apply keepsf_finv; intros s0; pres|intros]).
    apply triple_pres_bind; [by apply dead_tri|intros _].
    apply triple_ret. intros s Hs. by exists L.
  - assert (H : keepsf (do! sleep (ChProc c) 1 in ret (@None Z))) by (intros s0; pres).
    destruct (_ || _); [by exists L|]. by apply (keepsf_ok _ H s); exists L.
Qed.

Lemma userinit_ok code : pres files_ok (userinit devsw code).
Proof.
  unfold userinit, pres. eapply triple_bind; [apply allocproc_files|]. intros [n|].
  - apply triple_ex. intros L. apply triple_pure. intros _. apply triple_left.
    apply finv_ok; [done|]. apply keepsf_ok. intros s0. pres.
  - apply keepsf_ok. intros s0. pres.
Qed.

End Procs2.

(** ** Traps *)

Section Traps.
Context `{I : Image} `{E : Entry}.
Variable devsw : Z -> device logst.

Definition running (i : nat) (s : kst) : Prop := files_ok s /\ at_cpu (Some i) s.

Lemma running_fcpu {A} i (c : M kst A) Q :
  (forall L, triple (fcpu (fun _ => 0) L i) c Q) -> triple (running i) c Q.
Proof. intros H s [[L HL] Hc]. by apply (H L s). Qed.

Lemma running_ok {A} i (c : M kst A) Q : triple files_ok c Q -> triple (running i) c Q.
Proof. apply triple_left. Qed.

Lemma syscalls_ok i num f :
  syscalls devsw num = Some f -> triple (running i) f (fun _ => files_ok).
Proof.
  unfold syscalls. intros Hf. repeat case_match; simplify_eq.
  all: try solve [apply running_fcpu; intros L;
    first [apply sys_dup_files|apply sys_close_files|apply sys_open_files|apply sys_pipe_files]].
  all: apply running_ok.
  all: try solve [eapply triple_bind; [first [apply fork_files_ok|apply exit_ok|apply wait_ok]|];
    intros []; by apply triple_ret].
  all: try solve [apply keepsf_ok; intros s0; unfold sys_kill, sys_exec, sys_fstat, sys_chdir,
    sys_getpid, sys_sbrk, sys_sleep, sys_uptime, sys_mknod, sys_unlink, sys_link, sys_mkdir,
    sys_getmemsize, sys_getvpages, sys_getptentries, sys_setpriority, sys_shutdown,
    sys_getfsinfo, outw, setpriority, made, link_bad, unlink_bad, sleep_until, sys_read,
    sys_write, arg_rw, fileread, filewrite, pipewrite, fail; pres].
Qed.

Lemma running_pres {A} i (c : M kst A) :
  keepsf c -> pres (at_cpu (Some i)) c -> pres (running i) c.
Proof.
  intros H1 H2. apply triple_and.
  - apply triple_left. by apply keepsf_ok.
  - eapply triple_conseq; [|intros a s H; exact H|exact H2]. by intros s [].
Qed.

Lemma running_curproc {A} o (k : nat -> M kst A) Q :
  (forall i, o = Some i -> triple (running i) (k i) Q) ->
  triple (fun s => files_ok s /\ at_cpu o s) (let! i := curproc in k i) Q.
Proof.
  intros H s [Hf Ha]. pose proof Ha as [_ Hc]. unfold curproc, myproc. mrun. rewrite Hc.
  destruct o as [i|]; [|done]. mrun. by apply (H i eq_refl s).
Qed.

Lemma syscall_ok i : triple (running i) (syscall devsw) (fun _ => files_ok).
Proof.
  unfold syscall. apply (running_curproc (Some i)). intros j [= <-].
  do 2 (apply triple_pres_bind; [apply running_pres; [intros s0; pres|unfold kload; pres]|intros]).
  destruct (syscalls devsw (s32 a0)) as [f|] eqn:Ef.
  - eapply triple_bind; [by eapply syscalls_ok|]. intros [v|v|]; apply keepsf_ok; intros s0;
      unfold set_eax; pres.
  - apply running_ok, keepsf_ok. intros s0. unfold set_eax. pres.
Qed.

Lemma killed_exit_ok {A} (b : bool) (x y : A) :
  triple files_ok (if b then do! exit in ret x else ret y) (fun _ => files_ok).
Proof.
  destruct b; [|by apply triple_ret]. apply triple_pres_bind; [apply exit_ok|intros].
  by apply triple_ret.
Qed.

Lemma exit_if_killed_ok cs : pres files_ok (exit_if_killed cs).
Proof.
  unfold exit_if_killed, killed_now, pres.
  apply triple_pres_bind; [apply keepsf_ok; intros s0; pres|intros]. apply killed_exit_ok.
Qed.

Lemma trap_tail_ok cs : pres files_ok (trap_tail cs).
Proof.
  unfold trap_tail, pres. apply triple_pres_bind; [apply exit_if_killed_ok|intros].
  by apply triple_ret.
Qed.

Lemma trap_ok o tf cr2 :
  triple (fun s => files_ok s /\ at_cpu o s) (trap devsw tf cr2) (fun _ => files_ok).
Proof.
  unfold trap. assert (Hp : forall A (c : M kst A), keepsf c -> pres (at_cpu o) c ->
    pres (fun s => files_ok s /\ at_cpu o s) c).
  { intros A c H1 H2. apply triple_and; [by apply triple_left, keepsf_ok|].
    eapply triple_conseq; [|intros a s H; exact H|exact H2]. by intros s []. }
  do 2 (apply triple_pres_bind; [apply Hp; [intros s0; pres|unfold kload; pres]|intros]).
  cbv zeta. destruct (a =? T_SYSCALL).
  - apply running_curproc. intros i ->.
    apply triple_pres_bind; [apply running_pres; [intros s0; pres|pres]|intros s].
    destruct (p_killed (pat s i)).
    { apply running_ok, (killed_exit_ok true Switched Switched). }
    apply triple_pres_bind; [apply running_pres; [intros s0; pres|pres]|intros _].
    eapply triple_bind; [apply syscall_ok|]. intros [|]; [|by apply triple_ret].
    apply triple_pres_bind; [apply pres_get|intros s']. apply killed_exit_ok.
  - apply triple_left. apply triple_pres_bind.
    { apply keepsf_ok. intros s0. unfold trap_device, trap_other, trap_timer, kbdintr, uartintr.
      pres. }
    intros _. apply triple_pres_bind; [apply exit_if_killed_ok|]. intros [|]; [by apply triple_ret|].
    do 2 (apply triple_pres_bind; [apply keepsf_ok; intros s0; pres|intros]).
    destruct a1 as [i|]; [|apply trap_tail_ok]. destruct (_ && _); [|apply trap_tail_ok].
    apply keepsf_ok. intros s0. pres.
Qed.

Lemma resume_ok k : pres files_ok (resume k).
Proof.
  unfold resume, pres, sleep_return.
  do 2 (apply triple_pres_bind; [apply keepsf_ok; intros s0; pres|intros]).
  apply triple_pres_bind.
  { destruct k; cbn [resume_call]; try solve [apply keepsf_ok; intros s0; unfold sleep_until; pres].
    unfold sys_wait, pres. apply triple_pres_bind; [apply wait_ok|]. intros []; by apply triple_ret. }
  intros [v|v|]; [|by apply triple_ret..].
  apply triple_pres_bind; [apply keepsf_ok; intros s0; unfold set_eax; pres|intros _].
  apply triple_pres_bind; [apply pres_get|intros s]. apply killed_exit_ok.
Qed.

Lemma kstep_files s s' : pinv s -> files_ok s -> kstep devsw s s' -> files_ok s'.
Proof.
  intros HI HF [c b Hc Hi Hs|c tf cr2 e Hc Hs|c k e Hc Hs|c cs e Hc Hs|c Hc Hs];
    pose proof (pinv_me s c HI Hc) as Hme;
    (assert (HF' : files_ok (set_me c s)) by (eapply files_ok_same; [|exact HF]; done)).
  - pose proof (keepsf_ok scheduler (fun s0 => calm_frame same_files scheduler s0 (fun s => scheduler_calm s)) _ HF') as H. by rewrite Hs in H.
  - pose proof (trap_ok (cur_of (set_me c s)) tf cr2 (set_me c s)) as H. rewrite Hs in H.
    by apply H.
  - pose proof (resume_ok k _ HF') as H. by rewrite Hs in H.
  - pose proof (trap_tail_ok cs _ HF') as H. by rewrite Hs in H.
  - assert (Hk : keepsf forkret) by (intros s0; unfold forkret; pres).
    pose proof (keepsf_ok forkret Hk _ HF') as H. by rewrite Hs in H.
Qed.

Lemma zeroed_files s : zeroed s -> (forall f, f_ref (fat s f) = 0) -> files_ok s.
Proof.
  intros (Hp & _) Hf. exists (p_ofile <$> k_proc s). rewrite Hp. split.
  - by rewrite Hp.
  - intros f. rewrite Hf, fmap_replicate. cbn [p_ofile proc0].
    assert (H0 : refcount f (replicate (Z.to_nat NOFILE) None) = 0) by done.
    generalize (Z.to_nat NPROC). intros n. induction n as [|n IH]; [done|].
    cbn [replicate refcounts]. rewrite H0. lia.
  - intros i _. rewrite fmap_replicate, list_lookup_total_alt.
    destruct (replicate _ _ !! i) as [l|] eqn:El; [|constructor].
    apply lookup_replicate in El as [-> _]. by apply Forall_replicate.
  - rewrite fmap_replicate. apply Forall_replicate. apply length_replicate.
Qed.

(** (C3) In every state the kernel reaches, the reference count of an entry
    of the file table is the number of descriptors that refer to it, so an
    open descriptor refers to an entry in use and an entry without a
    descriptor is free; and a process that has exited, or a free entry of
    the process table, has no open descriptor. *)
Theorem open_files_invariant :
  (forall code s0 s, zeroed s0 -> (forall f, f_ref (fat s0 f) = 0) ->
     userinit devsw code s0 = Ok (tt, s) -> files_ok s) /\
  (forall s0 s, pinv s0 -> files_ok s0 -> rtc (kstep devsw) s0 s ->
     (forall f, f_ref (fat s f) = refcounts f (p_ofile <$> k_proc s)) /\
     (forall i fd f, p_ofile (pat s i) !!! fd = Some f -> 1 <= f_ref (fat s f)) /\
     (forall i, dead (p_state (pat s i)) = true ->
        forall fd f, p_ofile (pat s i) !!! fd <> Some f)).
Proof.
  split.
  - intros code s0 s Hz Hf Hu. pose proof (userinit_ok devsw code s0 (zeroed_files s0 Hz Hf)) as H.
    by rewrite Hu in H.
  - intros s0 s HI HF Hr. assert (H : pinv s /\ files_ok s).
    { induction Hr as [|s1 s2 s3 H1 _ IH]; [done|]. apply IH; [by eapply kstep_inv|].
      by eapply kstep_files. }
    destruct H as [_ [L HL]]. split_and!.
    + intros f. rewrite (fi_fds _ _ _ HL), (fi_ref _ _ _ HL). lia.
    + intros i fd f Hfd. apply (ofile_spec _ _ _ _ _ _ HL) in Hfd.
      rewrite (fi_ref _ _ _ HL). pose proof (refcounts_pos f L i fd Hfd). lia.
    + intros i Hd fd f Hfd. apply (ofile_spec _ _ _ _ _ _ HL) in Hfd.
      pose proof (fi_dead _ _ _ HL i Hd) as Hn. eapply Forall_lookup_1 in Hn; [|exact Hfd]. done.
Qed.

End Traps.

(** ** A process with one open file *)

Definition demo_fd_kst : kst :=
  set_kfile (set_fref 1 file0 :: replicate 99 file0)
    (demo_kst (set_ofile (Some 0%nat :: replicate 15 None) (demo_proc RUNNABLE 1 10))
       (demo_proc SLEEPING 2 10) cpu0).

Lemma demo_fd_files : files_ok demo_fd_kst.
Proof.
  exists (p_ofile <$> k_proc demo_fd_kst). split.
  - done.
  - intros [|f]; [done|]. change (fat demo_fd_kst (S f)) with (replicate 99 file0 !!! f).
    rewrite list_lookup_total_alt. destruct (replicate 99 file0 !! f) as [x|] eqn:Ef; [|done].
    apply lookup_replicate in Ef as [-> _]. done.
  - intros i. change (pat demo_fd_kst i) with (pat (demo_kst
      (set_ofile (Some 0%nat :: replicate 15 None) (demo_proc RUNNABLE 1 10))
      (demo_proc SLEEPING 2 10) cpu0) i). rewrite demo_pat. destruct i as [|[|i]]; [done..|].
    intros _. change ((p_ofile <$> k_proc demo_fd_kst) !!! S (S i))
      with ((p_ofile <$> replicate 62 proc0) !!! i).
    rewrite fmap_replicate, list_lookup_total_alt.
    destruct (replicate 62 _ !! i) as [l|] eqn:El; [|constructor].
    apply lookup_replicate in El as [-> _]. by apply Forall_replicate.
  - apply (bool_decide_unpack _). vm_compute. exact I.
Qed.

Lemma open_files_invariant_witness :
  exists s : kst, scheduler demo_fd_kst = Ok (true, s) /\ f_ref (fat s 0) = 1.
Proof.
  destruct (open_files_invariant (I := demo_image) (E := demo_entry) no_dev) as [_ H].
  assert (HI : idle demo_fd_kst).
  { eapply at_cpu_view; [|by apply (demo_idle cpu0 RUNNABLE SLEEPING 10 10)]. by split. }
  destruct (scheduler demo_fd_kst) as [[b s]| | | |] eqn:Es; try (vm_compute in Es; discriminate).
  destruct (H demo_fd_kst s (proj1 HI) demo_fd_files) as (Hr & _).
  { apply rtc_once. apply (step_scheduler _ _ _ 0 b); [simpl; lia|done|exact Es]. }
  exists s. rewrite Hr. vm_compute in Es. injection Es as <- <-. split; reflexivity.
Defined.
