(* ===== verification/Sizes.v ===== *)
(** * User memory: sizes of processes and system call arguments

    Only [growproc], [exec], [fork] and [userinit] set the size of a process,
    and they keep it below [KERNBASE].  The checks of [fetchint], [argptr]
    and [fetchstr] compute addresses modulo [2 ^ 32]; below [KERNBASE] they do
    not wrap, so what they accept lies in the memory of the process. *)

From S2P Require Import Prelude Param Bytes Memory Kalloc Vm Sleeplock Bio Log Blocks.
From S2P Require Import LogBlocks Fs Hoare Kernel Proc Console Pipe File Fork Syscall.
From S2P Require Import Sysproc Sysfile Exec Trap Machine ProcInv Frame Sched KernelInv VmInv.

Definition user_size (n : Z) : Prop := 0 <= n < KERNBASE.
Definition sized (s : kst) : Prop := Forall (fun p => user_size (p_sz p)) (k_proc s).

Lemma sized_at s i : sized s -> user_size (p_sz (pat s i)).
Proof.
  intros H. unfold pat. rewrite list_lookup_total_alt.
  destruct (k_proc s !! i) as [p|] eqn:E; [|by vm_compute].
  exact (Forall_lookup_1 _ _ _ _ H E).
Qed.

Lemma sized_calm s s' : calm s s' -> sized s -> sized s'.
Proof.
  intros [Hp _] Hs. unfold sized in *. revert Hs.
  induction Hp as [|p p' l l' [_ Hsz _] _ IH]; [done|]. rewrite !Forall_cons, Hsz. naive_solver.
Qed.

Lemma sized_modify f : (forall s, k_proc (f s) = k_proc s) -> pres sized (modify f).
Proof. intros Hf. apply pres_modify. intros s. unfold sized. by rewrite Hf. Qed.

Lemma sized_pupd i f : (forall p, user_size (p_sz p) -> user_size (p_sz (f p))) -> pres sized (pupd i f).
Proof.
  intros Hf. apply pres_modify. intros s Hs. unfold sized. cbn [k_proc set_kproc].
  apply Forall_alter; [done|]. intros p _ Hp. by apply Hf.
Qed.

#[export] Hint Extern 1 (pres sized (pupd _ _)) => (apply sized_pupd; done) : pres.
#[export] Hint Extern 1 (pres sized (fileupd _ _)) => (apply sized_modify; done) : pres.
#[export] Hint Extern 2 (pres sized _) =>
  (apply (frame_pres calm sized _ sized_calm); intros ?; solve [pres]) : pres.

(** ** The values [allocuvm] and [deallocuvm] return *)

(** Code that leaves the state alone in a larger state, with a fact about
    its value. *)
Lemma kmem_val {A} (P : kst -> Prop) (c : M pmem A) (phi : A -> Prop) :
  pres P (kmem c) -> triple (fun _ => True) c (fun a _ => phi a) ->
  triple P (kmem c) (fun a s => phi a /\ P s).
Proof.
  intros Hp Hc. apply triple_and; [|exact Hp]. intros s _. unfold kmem, zoom.
  specialize (Hc (k_mem s) I). by destruct (c (k_mem s)) as [[a t]| | | |].
Qed.

Section Values.
Context `{I : Image}.

Lemma allocuvm_loop_val fuel pg a old new :
  triple (fun _ => True) (allocuvm_loop fuel pg a old new) (fun r _ => r = 0 \/ r = new).
Proof.
  revert a. induction fuel as [|fuel IH]; intros a; cbn [allocuvm_loop];
    (destruct (a <? new); [|apply triple_ret; by right]); [apply triple_out_of_fuel|].
  apply triple_skip. intros mem. destruct (mem =? 0).
  - apply triple_skip. intros _. apply triple_ret. by left.
  - do 2 (apply triple_skip; intros ?). destruct (_ : bool); [apply IH|].
    do 2 (apply triple_skip; intros ?). apply triple_ret. by left.
Qed.

Lemma allocuvm_val pg old new :
  user_size old -> 0 <= new ->
  triple (fun _ => True) (allocuvm pg old new) (fun r _ => user_size r).
Proof.
  unfold user_size. intros Ho Hn. unfold allocuvm. destruct (Z.leb_spec KERNBASE new).
  { apply triple_ret. intros _ _. by vm_compute. }
  destruct (new <? old); [by apply triple_ret; intros|].
  eapply triple_conseq; [intros s H'; exact H'| |apply allocuvm_loop_val].
  intros r s [-> | ->]; [by vm_compute|done].
Qed.

Lemma deallocuvm_val pg old new :
  user_size old -> 0 <= new ->
  triple (fun _ => True) (deallocuvm pg old new) (fun r _ => user_size r).
Proof.
  unfold user_size. intros Ho Hn. unfold deallocuvm. destruct (Z.leb_spec old new).
  { by apply triple_ret; intros. }
  apply triple_skip. intros _. apply triple_ret. intros _ _. lia.
Qed.

Lemma growproc_sized n : pres sized (growproc n).
Proof.
  unfold growproc, pres. apply triple_pres_bind; [pres|intros i].
  apply triple_get. intros s Hs. pose proof (sized_at s i Hs) as Hi.
  eapply triple_bind with (Q := fun r s => (forall sz, r = Some sz -> user_size sz) /\ sized s).
  - assert (Hk : forall c, triple (fun _ => True) c (fun r _ => user_size r) ->
      triple (fun s' => s' = s) (let! sz' := kmem c in ret (if sz' =? 0 then None else Some sz'))
        (fun r s => (forall sz, r = Some sz -> user_size sz) /\ sized s)).
    { intros c Hc. eapply triple_conseq with (P' := sized); [by intros ? ->|intros ? ? H; exact H|].
      eapply triple_bind; [apply kmem_val; [pres|exact Hc]|]. intros r. apply triple_ret.
      intros s' [Hr Hs']. split; [|done]. intros sz. by destruct (r =? 0); intros [= <-]. }
    destruct (0 <? n); [|destruct (n <? 0)].
    + apply Hk, allocuvm_val; [done|apply u32_range].
    + apply Hk, deallocuvm_val; [done|apply u32_range].
    + apply triple_ret. intros ? ->. split; [by intros ? [= <-]|done].
  - intros [sz|]; apply triple_pure; intros Hr; [|by apply triple_ret].
    specialize (Hr sz eq_refl). apply triple_pres_bind; [by apply sized_pupd|intros _].
    apply triple_pres_bind; [pres|intros _]. by apply triple_ret.
Qed.

End Values.

#[export] Hint Resolve growproc_sized : pres.

(** ** exec *)

Section Exec.
Context `{I : Image}.
Variable devsw : Z -> device logst.

(** A size that is a result. *)
Definition sized_res (r : option Z) (s : kst) : Prop :=
  (forall sz, r = Some sz -> user_size sz) /\ sized s.

Lemma sized_none : triple sized (ret None) sized_res.
Proof. apply triple_ret. by intros s Hs. Qed.

Lemma load_segment_sized pg ip ph sz :
  user_size sz -> triple sized (load_segment devsw pg ip ph sz) sized_res.
Proof.
  intros Hsz. unfold load_segment. destruct (negb _).
  { apply triple_ret. intros s Hs. split; [by intros ? [= <-]|done]. }
  destruct (_ <? _); [apply sized_none|]. destruct (_ <? _); [apply sized_none|].
  eapply triple_bind; [apply kmem_val; [pres|apply allocuvm_val; [done|apply u32_range]]|].
  intros r. apply triple_pure. intros Hr. destruct (r =? 0); [apply sized_none|].
  destruct (negb _); [apply sized_none|].
  apply triple_pres_bind; [pres|]. intros [|]; [|apply sized_none].
  apply triple_ret. intros s Hs. split; [by intros ? [= <-]|done].
Qed.

Lemma exec_load_sized k pg ip off sz :
  user_size sz -> triple sized (exec_load devsw k pg ip off sz) sized_res.
Proof.
  revert off sz. induction k as [|k IH]; intros off sz Hsz; cbn [exec_load].
  { apply triple_ret. intros s Hs. split; [by intros ? [= <-]|done]. }
  apply triple_pres_bind; [pres|]. intros [r b]. destruct (negb _); [apply sized_none|].
  eapply triple_bind; [by apply load_segment_sized|]. intros [sz'|]; apply triple_pure;
    intros Hr; [|apply sized_none]. by apply IH, Hr.
Qed.

Lemma PGROUNDUP_user sz : user_size sz ->
  0 <= PGROUNDUP sz <= KERNBASE /\ PGROUNDUP sz <= u32 (PGROUNDUP sz + 2 * PGSIZE).
Proof.
  unfold user_size. intros Hsz. pose proof (PGROUNDUP_spec sz ltac:(clia)) as [Hup Hal].
  assert (Hk : PGROUNDUP sz <= KERNBASE).
  { unfold PGSIZE, KERNBASE in *. pose proof (Z.div_mod (PGROUNDUP sz) 4096 ltac:(lia)). lia. }
  split; [clia|]. rewrite u32_small; clia.
Qed.

Lemma allocuvm_stack pg sz :
  user_size sz ->
  triple (fun _ => True) (allocuvm pg (PGROUNDUP sz) (u32 (PGROUNDUP sz + 2 * PGSIZE)))
    (fun r _ => user_size r).
Proof.
  intros Hsz. destruct (PGROUNDUP_user sz Hsz) as [H1 H2]. unfold allocuvm.
  destruct (Z.leb_spec KERNBASE (u32 (PGROUNDUP sz + 2 * PGSIZE))).
  { apply triple_ret. intros _ _. by vm_compute. }
  destruct (Z.ltb_spec (u32 (PGROUNDUP sz + 2 * PGSIZE)) (PGROUNDUP sz)); [lia|].
  eapply triple_conseq; [intros s H'; exact H'| |apply allocuvm_loop_val].
  intros r s [-> | ->]; [by vm_compute|]. unfold user_size. lia.
Qed.

Lemma exec_stack_sized path argv pg sz entry :
  user_size sz -> pres sized (exec_stack path argv pg sz entry).
Proof.
  intros Hsz. unfold exec_stack, pres. cbv zeta.
  eapply triple_bind; [apply kmem_val; [pres|by apply allocuvm_stack]|].
  intros r. apply triple_pure. intros Hr. unfold exec_bad.
  assert (Hp : forall i, pres sized (pupd i (set_sz r))) by (intros i; by apply sized_pupd).
  pres; auto.
Qed.

Lemma exec_sized path argv : pres sized (exec devsw path argv).
Proof.
  unfold exec, pres. apply triple_pres_bind; [pres|intros _].
  apply triple_pres_bind; [pres|]. intros [ip|]; [|pres].
  apply triple_pres_bind; [pres|intros _]. apply triple_pres_bind; [pres|]. intros [r b].
  unfold exec_bad_ip. destruct (negb _); [pres|]. cbv zeta. destruct (negb _); [pres|].
  apply triple_pres_bind; [pres|intros pg]. destruct (pg =? 0); [pres|].
  eapply triple_bind; [by apply exec_load_sized|]. intros [sz|]; apply triple_pure; intros Hr.
  - do 2 (apply triple_pres_bind; [pres|intros _]). by apply exec_stack_sized, Hr.
  - pres.
Qed.

End Exec.
#[export] Hint Resolve exec_sized : pres.

(** ** Files and processes *)

Section Procs.
Context `{I : Image} `{E : Entry}.
Variable devsw : Z -> device logst.

Lemma filealloc_sized : pres sized filealloc.
Proof. unfold filealloc. pres. Qed.
Lemma filedup_sized f : pres sized (filedup f).
Proof. unfold filedup. pres. Qed.
Lemma fileclose_sized f : pres sized (fileclose f).
Proof. unfold fileclose. pres. Qed.
Lemma fdalloc_sized f : pres sized (fdalloc f).
Proof. unfold fdalloc, set_fd. pres. Qed.
Lemma allocproc_sized : pres sized allocproc.
Proof. unfold allocproc. pres. Qed.
Lemma reparent_sized k c i : pres sized (reparent k c i).
Proof. revert i. induction k as [|k IH]; intros i; cbn [reparent]; pres; auto. Qed.

End Procs.
#[export] Hint Resolve filealloc_sized filedup_sized fileclose_sized fdalloc_sized allocproc_sized
  reparent_sized : pres.

Section Procs2.
Context `{I : Image} `{E : Entry}.
Variable devsw : Z -> device logst.

Lemma pipealloc_sized : pres sized pipealloc.
Proof. unfold pipealloc, close_opt. pres. Qed.
Lemma fork_files_sized k c n i : pres sized (fork_files k c n i).
Proof. revert i. induction k as [|k IH]; intros i; cbn [fork_files]; pres; auto. Qed.
Lemma exit_files_sized k c i : pres sized (exit_files k c i).
Proof. revert i. induction k as [|k IH]; intros i; cbn [exit_files]; pres; auto. Qed.
Lemma wait_sized : pres sized wait.
Proof. unfold wait. pres. Qed.
Lemma userinit_sized code : pres sized (userinit devsw code).
Proof.
  assert (H : forall i, pres sized (pupd i (set_sz PGSIZE))) by (intros i; by apply sized_pupd).
  unfold userinit. pres; auto.
Qed.

End Procs2.
#[export] Hint Resolve pipealloc_sized fork_files_sized exit_files_sized wait_sized : pres.

Section Procs3.
Context `{I : Image} `{E : Entry}.
Variable devsw : Z -> device logst.

Lemma exit_sized : pres sized exit.
Proof. unfold exit. pres. Qed.

Lemma fork_sized : pres sized fork.
Proof.
  unfold fork, pres. apply triple_pres_bind; [pres|intros c].
  apply triple_pres_bind; [pres|]. intros [n|]; [|by apply triple_ret].
  do 3 (apply triple_pres_bind; [pres|intros ?]).
  apply triple_get. intros s Hs. pose proof (sized_at s c Hs) as Hc.
  apply triple_conseq with (P' := sized) (Q' := fun _ => sized); [by intros ? ->|done|].
  assert (Hp : pres sized (pupd n (set_sz (p_sz (pat s c))))) by by apply sized_pupd.
  pres; auto.
Qed.

End Procs3.
#[export] Hint Resolve exit_sized fork_sized : pres.

(** ** Traps *)

Section Traps.
Context `{I : Image} `{E : Entry}.
Variable devsw : Z -> device logst.

Lemma syscalls_sized num f : syscalls devsw num = Some f -> pres sized f.
Proof.
  unfold syscalls. intros Hf. repeat case_match; simplify_eq.
  all: unfold sys_fork, sys_exit, sys_wait, sys_dup, sys_close, sys_open, sys_pipe, sys_kill,
    sys_exec, sys_fstat, sys_chdir, sys_getpid, sys_sbrk, sys_sleep, sys_uptime, sys_mknod,
    sys_unlink, sys_link, sys_mkdir, sys_getmemsize, sys_getvpages, sys_getptentries,
    sys_setpriority, sys_shutdown, sys_getfsinfo, outw, setpriority, made, link_bad, unlink_bad,
    sleep_until, sys_read, sys_write, arg_rw, fileread, filewrite, pipewrite, open_inode,
    set_fd, fail; pres.
Qed.

Lemma syscall_sized : pres sized (syscall devsw).
Proof.
  unfold syscall, set_eax. do 3 (apply pres_bind; [pres|intros ?]).
  destruct (syscalls devsw _) as [f|] eqn:Ef; [|pres].
  apply pres_bind; [by eapply syscalls_sized|intros r]. pres.
Qed.

Lemma trap_tail_sized cs : pres sized (trap_tail cs).
Proof. unfold trap_tail, exit_if_killed, killed_now. pres. Qed.

Lemma trap_sized tf cr2 : pres sized (trap devsw tf cr2).
Proof.
  pose proof syscall_sized. pose proof trap_tail_sized.
  unfold trap, trap_device, trap_other, trap_timer, kbdintr, uartintr, exit_if_killed, killed_now.
  pres; auto.
Qed.

Lemma resume_sized k : pres sized (resume k).
Proof.
  unfold resume, sleep_return, set_eax. apply pres_bind; [pres|intros i].
  apply pres_bind; [pres|intros _]. apply pres_bind; [|intros r; pres].
  destruct k; cbn [resume_call]; unfold sleep_until, sys_wait; pres.
Qed.

Lemma kstep_sized s s' : sized s -> kstep devsw s s' -> sized s'.
Proof.
  intros Hs [c b Hc Hi H|c tf cr2 e Hc H|c k e Hc H|c cs e Hc H|c Hc H];
    (assert (Hs' : sized (set_me c s)) by exact Hs).
  - by eapply triple_Ok in H; [|apply (frame_pres calm sized _ sized_calm scheduler_calm)|].
  - by eapply triple_Ok in H; [|apply trap_sized|].
  - by eapply triple_Ok in H; [|apply resume_sized|].
  - by eapply triple_Ok in H; [|apply trap_tail_sized|].
  - assert (Hf : pres sized forkret) by (unfold forkret; pres).
    by eapply triple_Ok in H; [|exact Hf|].
Qed.

(** ** Arguments of system calls *)

Lemma curproc_Ok {A} s i (k : nat -> M kst A) :
  cur_of s = Some i -> (let! i := curproc in k i) s = k i s.
Proof. intros Hc. unfold curproc, myproc. mrun. rewrite Hc. by mrun. Qed.

Lemma fetchint_bounds s i addr v s' :
  sized s -> cur_of s = Some i -> 0 <= addr < 2 ^ 32 ->
  fetchint addr s = Ok (Some v, s') -> addr + 4 <= p_sz (pat s i).
Proof.
  intros Hs Hc Ha. unfold fetchint. rewrite (curproc_Ok _ _ _ Hc). mrun.
  destruct (Z.leb_spec (p_sz (pat s i)) addr); cbn [orb]; [by intros [=]|].
  destruct (Z.ltb_spec (p_sz (pat s i)) (u32 (addr + 4))); [by intros [=]|].
  intros _. pose proof (sized_at s i Hs) as [_ Hk]. rewrite u32_small in *; clia.
Qed.

Lemma fetchstr_loop_bounds fuel a ep acc :
  triple (fun _ => True) (fetchstr_loop fuel a ep acc) (fun r _ => forall bs, r = Some bs ->
    exists tl, bs = acc ++ tl /\ a + Z.of_nat (length tl) < ep /\ Forall (fun c => c <> 0) tl).
Proof.
  revert a acc. induction fuel as [|f IH]; intros a acc; cbn [fetchstr_loop];
    (destruct (Z.ltb_spec a ep) as [Hlt|]; [|by apply triple_ret]); [apply triple_out_of_fuel|].
  apply triple_skip. intros c. destruct (Z.eqb_spec c 0).
  - apply triple_ret. intros _ _ bs [= <-]. exists []. rewrite app_nil_r. cbn [length]. split_and!; [done|lia|done].
  - eapply triple_conseq; [intros s H; exact H| |apply IH]. intros r s H bs Hb.
    destruct (H bs Hb) as (tl & -> & Hl & Hf). exists (c :: tl).
    rewrite <- app_assoc. cbn [length]. split_and!; [done|lia|by constructor].
Qed.

Lemma fetchstr_bounds s i addr bs s' :
  cur_of s = Some i -> fetchstr addr s = Ok (Some bs, s') ->
  addr + Z.of_nat (length bs) < p_sz (pat s i) /\ Forall (fun c => c <> 0) bs.
Proof.
  intros Hc. unfold fetchstr. rewrite (curproc_Ok _ _ _ Hc). mrun.
  destruct (_ <=? _); [by intros [=]|]. intros H.
  eapply triple_Ok in H; [|apply fetchstr_loop_bounds|done].
  destruct (H bs eq_refl) as (tl & -> & ? & ?). done.
Qed.

Lemma argptr_bounds s i n size a s' :
  sized s -> cur_of s = Some i -> size < 2 ^ 31 -> argptr n size s = Ok (Some a, s') ->
  0 <= size /\ 0 <= a /\ a + size <= p_sz (pat s i).
Proof.
  intros Hs Hc Hz. unfold argptr. rewrite (curproc_Ok _ _ _ Hc). intros H.
  apply bind_inv in H as (r & s1 & Ha & H).
  pose proof (argint_calm s n s ltac:(reflexivity)) as Hcalm. rewrite Ha in Hcalm.
  destruct r as [v|]; [|done]. revert H. mrun.
  pose proof (cp_sz _ _ (calm_pat _ _ i Hcalm)) as ->.
  destruct (Z.ltb_spec size 0); cbn [orb]; [by intros [=]|].
  destruct (Z.leb_spec (p_sz (pat s i)) (u32 v)); cbn [orb]; [by intros [=]|].
  destruct (Z.ltb_spec (p_sz (pat s i)) (u32 (u32 v + size))); [by intros [=]|].
  intros [= <- <-]. pose proof (sized_at s i Hs) as [_ Hk]. pose proof (u32_range v).
  rewrite (u32_small (u32 v + size)) in *; clia.
Qed.

Lemma zeroed_sized s : zeroed s -> sized s.
Proof. intros (Hp & _). unfold sized. rewrite Hp. apply Forall_replicate. by vm_compute. Qed.

(** (C5) The size of every process stays below [KERNBASE] in every state the
    kernel reaches.  With that, the checks on system call arguments do not
    wrap around: a block that [argptr] accepts, a word that [fetchint] reads
    and a string that [fetchstr] accepts, with the NUL at its end, lie in
    the memory of the calling process. *)
Theorem user_memory_bounds :
  (forall code s0 s, zeroed s0 -> userinit devsw code s0 = Ok (tt, s) -> sized s) /\
  (forall s0 s, sized s0 -> rtc (kstep devsw) s0 s -> sized s) /\
  (forall s i, sized s -> cur_of s = Some i ->
     p_sz (pat s i) < KERNBASE /\
     (forall n size a s', size < 2 ^ 31 -> argptr n size s = Ok (Some a, s') ->
        0 <= size /\ 0 <= a /\ a + size <= p_sz (pat s i)) /\
     (forall addr v s', 0 <= addr < 2 ^ 32 -> fetchint addr s = Ok (Some v, s') ->
        addr + 4 <= p_sz (pat s i)) /\
     (forall addr bs s', fetchstr addr s = Ok (Some bs, s') ->
        addr + Z.of_nat (length bs) < p_sz (pat s i) /\ Forall (fun c => c <> 0) bs)).
Proof.
  split_and!.
  - intros code s0 s Hz Hu. eapply triple_Ok in Hu; [exact Hu|apply userinit_sized|].
    by apply zeroed_sized.
  - intros s0 s Hs Hr. induction Hr as [|s1 s2 s3 H1 _ IH]; [done|].
    by eapply IH, kstep_sized.
  - intros s i Hs Hc. split_and!.
    + apply (sized_at s i Hs).
    + intros n size a s'. by apply argptr_bounds.
    + intros addr v s'. by apply fetchint_bounds.
    + intros addr bs s'. by apply fetchstr_bounds.
Qed.

End Traps.

(** ** A process of one page *)

(** The page holds the word 100 at address 20; the user stack pointer is 16. *)
Definition demo_user_mem : mem :=
  st32 (st32 (st32 (st32 ∅ (demo_page 0) (V2P (demo_page 1) + 7))
                   (demo_page 1) (V2P (demo_page 2) + 7))
             (demo_page 2 + 20) 100) TF_ESP 16.
Definition demo_user_kst : kst :=
  set_kmem {| pm_mem := demo_user_mem; freelist := 0; use_lock := true |}
    (demo_kst (set_pgdir (demo_page 0) (set_sz PGSIZE (demo_proc RUNNABLE 1 10)))
       (demo_proc SLEEPING 2 10) cpu0).

Lemma user_memory_bounds_witness :
  exists s s' : kst, scheduler demo_user_kst = Ok (true, s) /\ sized s /\
    argptr 0 8 s = Ok (Some 100, s') /\ 100 + 8 <= p_sz (pat s 0).
Proof.
  destruct (user_memory_bounds (I := demo_image) (E := demo_entry) no_dev) as (_ & Hr & Ha).
  destruct (scheduler demo_user_kst) as [[b s]| | | |] eqn:Es; try (vm_compute in Es; discriminate).
  assert (H0 : sized demo_user_kst).
  { do 2 (apply Forall_cons; split; [by vm_compute|]). apply Forall_replicate. by vm_compute. }
  assert (Hs : sized s).
  { apply (Hr demo_user_kst s H0). apply rtc_once.
    apply (step_scheduler _ _ _ 0 b); [simpl; lia|done|exact Es]. }
  assert (Hc : cur_of s = Some 0%nat) by (vm_compute in Es; by injection Es as <- <-).
  destruct (argptr 0 8 s) as [[o s']| | | |] eqn:Ea;
    try (vm_compute in Es; injection Es as <- <-; vm_compute in Ea; discriminate).
  assert (o = Some 100 /\ b = true) as [-> ->].
  { vm_compute in Es. injection Es as <- <-. vm_compute in Ea. by injection Ea as <- <-. }
  exists s, s'. split; [done|]. split; [done|]. split; [done|].
  apply (Ha s 0%nat Hs Hc) in Ea; [|done]. apply Ea.
Defined.
