(* ===== verification/Ulib.v ===== *)
(** * The library of user programs (ulib.c, printf.c)

    A pointer to characters is the list of the bytes from there on, with the
    NUL that ends the string among them.  [uio] is what a program sees of its
    descriptors: the pieces in which reads deliver the input, and the bytes
    written. *)

From S2P Require Import Prelude Param Kernel Console.

Record uio := { u_in : list (list Z); u_out : list (Z * list Z) }.

(** [read(fd, buf, n)] of the input: at most [n] bytes of the next piece; no
    bytes at the end of the input. *)
Definition read (n : nat) : M uio (list Z) :=
  let! s := get in
  match u_in s with
  | [] => ret []
  | c :: cs =>
      do! put {| u_in := if bool_decide (drop n c = []) then cs else drop n c :: cs;
                 u_out := u_out s |} in
      ret (take n c)
  end.

Definition write (fd : Z) (bs : list Z) : M uio unit :=
  modify (fun s => {| u_in := u_in s; u_out := u_out s ++ [(fd, bs)] |}).

(** ** Strings *)

Fixpoint strlen (s : list Z) : nat :=
  match s with
  | c :: s => if c =? 0 then O else S (strlen s)
  | [] => O
  end.

(** The string at [s]. *)
Definition str (s : list Z) : list Z := take (strlen s) s.

(** The offset of the character found. *)
Fixpoint strchr (s : list Z) (c : Z) : option nat :=
  match s with
  | x :: s => if x =? 0 then None else if x =? c then Some O else S <$> strchr s c
  | [] => None
  end.

Fixpoint strcmp (p q : list Z) : Z :=
  match p, q with
  | x :: p, y :: q =>
      if negb (x =? 0) && (x =? y) then strcmp p q else u8 x - u8 y
  | _, _ => 0
  end.

(** The bytes stored. *)
Definition strcpy (t : list Z) : list Z := str t ++ [0].

(** [None]: the number does not fit an [int]. *)
Fixpoint atoi_loop (s : list Z) (n : Z) : option Z :=
  match s with
  | c :: s =>
      if (48 <=? c) && (c <=? 57) then
        if n * 10 + c - 48 <? 2 ^ 31 then atoi_loop s (n * 10 + c - 48) else None
      else Some n
  | [] => Some n
  end.
Definition atoi (s : list Z) : option Z := atoi_loop s 0.

(** [memset(buf + dst, c, n)] in a buffer *)
Definition memset (buf : list Z) (dst : nat) (c : Z) (n : nat) : list Z :=
  take dst buf ++ replicate n (u8 c) ++ drop (dst + n) buf.

(** [memmove(buf + dst, buf + src, n)] in a buffer *)
Fixpoint memmove (buf : list Z) (dst src n : nat) : list Z :=
  match n with
  | O => buf
  | S n => memmove (<[dst := nth src buf 0]> buf) (S dst) (S src) n
  end.

(** The loop of [gets]: the characters stored, [i] of them so far. *)
Fixpoint gets_loop (fuel : nat) (i max : Z) : M uio (list Z) :=
  if i + 1 <? max then
    match fuel with
    | O => out_of_fuel
    | S f =>
        let! bs := read 1 in
        match bs with
        | [] => ret []
        | c :: _ =>
            if (c =? 10) || (c =? 13) then ret [c]
            else let! r := gets_loop f (i + 1) max in ret (c :: r)
        end
    end
  else ret [].
Definition getstr (max : Z) : M uio (list Z) :=
  let! bs := gets_loop (Z.to_nat max) 0 max in ret (bs ++ [0]).

(** ** printf *)

Definition putc (fd c : Z) : M uio unit := write fd [u8 c].

Fixpoint putcs (fd : Z) (l : list Z) : M uio unit :=
  match l with
  | [] => ret tt
  | c :: l => do! putc fd c in putcs fd l
  end.

Definition udigit (d : Z) : Z := if d <? 10 then 48 + d else 55 + d.

Fixpoint udigits (fuel : nat) (x base : Z) : list Z :=
  match fuel with
  | O => []
  | S f => udigit (x mod base) :: (if x / base =? 0 then [] else udigits f (x / base) base)
  end.

Definition uprintint (fd xx base : Z) (sgn : bool) : M uio unit :=
  let neg := sgn && (xx <? 0) in
  let x := if neg then u32 (- xx) else u32 xx in
  putcs fd (rev (udigits 32 x base ++ if neg then [45] else [])).

(** [fmt] is the format without its NUL, [pct] whether the state is '%'; a
    missing argument is a fault. *)
Fixpoint printf_loop (fd : Z) (fmt : list Z) (pct : bool) (args : list carg) : M uio unit :=
  match fmt with
  | [] => ret tt
  | c :: fmt =>
      if negb pct then
        if c =? 37 then printf_loop fd fmt true args
        else do! putc fd c in printf_loop fd fmt false args
      else if c =? 100 then
        match args with
        | CNum v :: args => do! uprintint fd (s32 v) 10 true in printf_loop fd fmt false args
        | _ => fault
        end
      else if (c =? 120) || (c =? 112) then
        match args with
        | CNum v :: args => do! uprintint fd (s32 v) 16 false in printf_loop fd fmt false args
        | _ => fault
        end
      else if c =? 115 then
        match args with
        | CStr s :: args =>
            do! putcs fd (match s with Some l => l | None => null_str end) in
            printf_loop fd fmt false args
        | _ => fault
        end
      else if c =? 99 then
        match args with
        | CNum v :: args => do! putc fd v in printf_loop fd fmt false args
        | _ => fault
        end
      else if c =? 37 then do! putc fd c in printf_loop fd fmt false args
      else do! putc fd 37 in do! putc fd c in printf_loop fd fmt false args
  end.
Definition printf (fd : Z) (fmt : list Z) (args : list carg) : M uio unit :=
  printf_loop fd fmt false args.

(** ** Facts *)

Lemma strlen_app s t : Forall (fun c => c <> 0) s -> strlen (s ++ 0 :: t) = length s.
Proof.
  induction 1 as [|c s Hc _ IH]; [done|]. cbn [app strlen length].
  destruct (Z.eqb_spec c 0); [done|]. by rewrite IH.
Qed.

Lemma str_app s t : Forall (fun c => c <> 0) s -> str (s ++ 0 :: t) = s.
Proof. intros H. unfold str. by rewrite strlen_app, take_app_length. Qed.

Lemma strchr_none s t c : Forall (fun x => x <> 0 /\ x <> c) s -> strchr (s ++ 0 :: t) c = None.
Proof.
  induction 1 as [|x s [H1 H2] _ IH]; [done|]. cbn [app strchr].
  destruct (Z.eqb_spec x 0), (Z.eqb_spec x c); [done..|]. by rewrite IH.
Qed.

Lemma strchr_some s t c : Forall (fun x => x <> 0 /\ x <> c) s -> c <> 0 ->
  strchr (s ++ c :: t) c = Some (length s).
Proof.
  intros Hs Hc. induction Hs as [|x s [H1 H2] _ IH]; cbn [app strchr length].
  - destruct (Z.eqb_spec c 0); [done|]. by rewrite Z.eqb_refl.
  - destruct (Z.eqb_spec x 0), (Z.eqb_spec x c); [done..|]. by rewrite IH.
Qed.

(** Moving to the front of a buffer. *)
Lemma memmove_length buf dst src n : length (memmove buf dst src n) = length buf.
Proof.
  revert buf dst src. induction n as [|n IH]; intros buf dst src; cbn [memmove]; [done|].
  by rewrite IH, length_insert.
Qed.

Lemma nth_insert (buf : list Z) i j x :
  (i < length buf)%nat -> nth j (<[i := x]> buf) 0 = if decide (i = j) then x else nth j buf 0.
Proof.
  intros Hi. rewrite !nth_lookup, list_lookup_insert. case_decide as H1; case_decide; naive_solver.
Qed.

Lemma nth_memmove buf dst src n k :
  (dst <= src)%nat -> (src + n <= length buf)%nat ->
  nth k (memmove buf dst src n) 0 =
  if decide (dst <= k < dst + n)%nat then nth (k - dst + src) buf 0 else nth k buf 0.
Proof.
  revert buf dst src. induction n as [|n IH]; intros buf dst src Hd Hl; cbn [memmove].
  { by rewrite decide_False by lia. }
  rewrite IH by (rewrite ?length_insert; lia). rewrite !nth_insert by lia.
  repeat case_decide; subst; try lia; f_equal; lia.
Qed.

Lemma memmove_down buf src n :
  (src + n <= length buf)%nat -> take n (memmove buf 0 src n) = take n (drop src buf).
Proof.
  intros Hl. apply (nth_ext _ _ 0 0).
  { rewrite !length_take, length_drop, memmove_length. lia. }
  intros k. rewrite length_take, memmove_length. intros Hk.
  rewrite !nth_firstn, nth_skipn. destruct (Nat.ltb_spec k n); [|done].
  rewrite nth_memmove, decide_True by lia. f_equal; lia.
Qed.
