(* ===== verification/Grep.v ===== *)
(** * grep (grep.c)

    The matcher decides a small language of patterns, and the program prints
    the lines that contain a match.  The buffer has 1024 bytes; indices into
    it are natural numbers. *)

From S2P Require Import Prelude Param Kernel Console Ulib.

Definition CARET : Z := 94.
Definition DOLLAR : Z := 36.
Definition STAR : Z := 42.
Definition DOT : Z := 46.
Definition NL : Z := 10.

(** ** The matcher

    Patterns and texts are strings without their NUL. *)

(** The loop of [matchstar]; [here] is [matchhere re]. *)
Fixpoint matchstar (here : list Z -> bool) (c : Z) (text : list Z) : bool :=
  here text ||
  match text with
  | [] => false
  | t :: text => ((t =? c) || (c =? DOT)) && matchstar here c text
  end.

Fixpoint matchhere (re text : list Z) : bool :=
  match re with
  | [] => true
  | c :: re1 =>
      if nth 0 re1 0 =? STAR then
        match re1 with
        | _ :: re2 => matchstar (matchhere re2) c text
        | [] => false
        end
      else if (c =? DOLLAR) && (nth 0 re1 0 =? 0) then
        match text with [] => true | _ => false end
      else
        match text with
        | t :: text => ((c =? DOT) || (c =? t)) && matchhere re1 text
        | [] => false
        end
  end.

(** The loop of [match]. *)
Fixpoint match_loop (re text : list Z) : bool :=
  matchhere re text ||
  match text with
  | [] => false
  | _ :: text => match_loop re text
  end.

Definition match_ (re text : list Z) : bool :=
  match re with
  | c :: re1 => if c =? CARET then matchhere re1 text else match_loop re text
  | [] => match_loop re text
  end.

(** ** The program *)

Definition BUFSIZE : nat := 1024.

(** [buf[i..] = bs] *)
Definition store (buf : list Z) (i : nat) (bs : list Z) : list Z :=
  take i buf ++ bs ++ drop (i + length bs) buf.

(** The inner loop: the buffer and [p] at its end. *)
Fixpoint grep_lines (fuel : nat) (pattern buf : list Z) (p : nat) : M uio (list Z * nat) :=
  match strchr (drop p buf) NL with
  | None => ret (buf, p)
  | Some k =>
      match fuel with
      | O => out_of_fuel
      | S f =>
          let q := (p + k)%nat in
          let buf := <[q := 0]> buf in
          if match_ pattern (str (drop p buf)) then
            let buf := <[q := NL]> buf in
            do! write 1 (take (q + 1 - p) (drop p buf)) in
            grep_lines f pattern buf (q + 1)
          else grep_lines f pattern buf (q + 1)
      end
  end.

Fixpoint grep_loop (fuel : nat) (pattern buf : list Z) (m : nat) : M uio unit :=
  match fuel with
  | O => out_of_fuel
  | S f =>
      let! bs := read (BUFSIZE - m - 1) in
      if (0 <? length bs)%nat then
        let buf := store buf m bs in
        let m := (m + length bs)%nat in
        let buf := <[m := 0]> buf in
        let! (buf, p) := grep_lines BUFSIZE pattern buf 0 in
        let m := if (p =? 0)%nat then 0%nat else m in
        if (0 <? m)%nat then
          let m := (m - p)%nat in
          grep_loop f pattern (memmove buf 0 p m) m
        else grep_loop f pattern buf m
      else ret tt
  end.

(** A call of [grep]; the buffer is static. *)
Definition grep (pattern buf : list Z) : M uio unit :=
  let! s := get in
  grep_loop (S (length (concat (u_in s)))) pattern buf 0.

(** ** What patterns mean *)

Inductive atom := One (c : Z) | Many (c : Z) | Eol.

Fixpoint atoms (re : list Z) : list atom :=
  match re with
  | [] => []
  | c :: re1 =>
      match re1 with
      | d :: re2 =>
          if d =? STAR then Many c :: atoms re2 else One c :: atoms re1
      | [] => if c =? DOLLAR then [Eol] else [One c]
      end
  end.

Definition fits (c x : Z) : Prop := c = DOT \/ x = c.

(** [denotes r m rest]: [m] is a match of [r], with [rest] after it. *)
Fixpoint denotes (r : list atom) (m rest : list Z) : Prop :=
  match r with
  | [] => m = []
  | One c :: r => exists x m', m = x :: m' /\ fits c x /\ denotes r m' rest
  | Many c :: r => exists l m', m = l ++ m' /\ Forall (fits c) l /\ denotes r m' rest
  | Eol :: r => m = [] /\ rest = [] /\ denotes r m rest
  end.

(** The text contains a match, at its start if the pattern begins with ^. *)
Definition matches (re text : list Z) : Prop :=
  exists pre m rest, text = pre ++ m ++ rest /\
    if bool_decide (head re = Some CARET) then pre = [] /\ denotes (atoms (tail re)) m rest
    else denotes (atoms re) m rest.

(** ** The matcher is right *)

Lemma matchstar_spec here c text :
  matchstar here c text = true <->
  exists l text', text = l ++ text' /\ Forall (fits c) l /\ here text' = true.
Proof.
  induction text as [|t text IH]; cbn [matchstar]; rewrite orb_true_iff.
  - split; [intros [H|H]; [by exists [], []|done]|].
    intros ([|] & t' & Ht & _ & H); [|done]. cbn in Ht. subst. by left.
  - rewrite andb_true_iff, orb_true_iff, !Z.eqb_eq, IH. split.
    + intros [H|[Hc (l & t' & -> & Hl & H)]]; [by exists [], (t :: text)|].
      exists (t :: l), t'. split_and!; [done| |done]. constructor; [|done]. unfold fits. tauto.
    + intros ([|x l] & t' & Ht & Hl & H); cbn in Ht; [subst; by left|]. simplify_eq.
      inversion Hl; subst. right. unfold fits in *. split; [tauto|]. by exists l, t'.
Qed.

(** A set of matches and the function that looks for one at the start. *)
Definition decides (here : list Z -> bool) (D : list Z -> list Z -> Prop) : Prop :=
  forall text, here text = true <-> exists m rest, text = m ++ rest /\ D m rest.

Lemma decides_one here D c :
  decides here D ->
  decides (fun text => match text with
                       | t :: text => ((c =? DOT) || (c =? t)) && here text
                       | [] => false
                       end)
    (fun m rest => exists x m', m = x :: m' /\ fits c x /\ D m' rest).
Proof.
  intros H [|t text].
  - split; [done|]. by intros (m & rest & Ht & x & m' & -> & _).
  - rewrite andb_true_iff, orb_true_iff, !Z.eqb_eq, (H text). split.
    + intros [Hc (m & rest & -> & Hd)]. exists (t :: m), rest. split; [done|].
      exists t, m. unfold fits. split_and!; [done|intuition|done].
    + intros (m & rest & Ht & x & m' & -> & Hf & Hd). injection Ht as -> ->.
      unfold fits in Hf. split; [intuition|]. by exists m', rest.
Qed.

Lemma decides_many here D c :
  decides here D ->
  decides (matchstar here c)
    (fun m rest => exists l m', m = l ++ m' /\ Forall (fits c) l /\ D m' rest).
Proof.
  intros H text. rewrite matchstar_spec. split.
  - intros (l & t' & -> & Hl & Ht). apply H in Ht as (m & rest & -> & Hd).
    exists (l ++ m), rest. split; [by rewrite app_assoc|]. by exists l, m.
  - intros (m & rest & -> & l & m' & -> & Hl & Hd). exists l, (m' ++ rest).
    split_and!; [by rewrite app_assoc|done|]. apply H. by exists m', rest.
Qed.

Lemma matchhere_spec re :
  Forall (fun c => c <> 0) re -> decides (matchhere re) (denotes (atoms re)).
Proof.
  remember (length re) as n eqn:Hn. revert re Hn. induction n as [n IH] using lt_wf_ind.
  intros [|c [|d re]] Hn Hre; cbn [atoms]; intros text.
  - split; [|done]. intros _. by exists [], text.
  - cbn [matchhere nth]. rewrite andb_true_r. destruct (Z.eqb_spec c DOLLAR).
    + split; [by destruct text; [exists [], []|]|]. by intros (m & rest & -> & -> & -> & _).
    + apply (decides_one (matchhere []) (denotes []) c). intros t. split; [|done].
      intros _. by exists [], t.
  - apply Forall_cons_1 in Hre as [Hc Hre]. pose proof Hre as [Hd Hre']%Forall_cons_1.
    cbn [length] in Hn. cbn [matchhere nth]. destruct (Z.eqb_spec d STAR).
    + apply (decides_many (matchhere re) (denotes (atoms re)) c).
      by apply (IH (length re)); [lia| |].
    + destruct (Z.eqb_spec d 0); [done|]. rewrite andb_false_r.
      apply (decides_one (matchhere (d :: re)) (denotes (atoms (d :: re))) c).
      by apply (IH (length (d :: re))); [cbn; lia| |].
Qed.

Lemma match_loop_spec re text :
  Forall (fun c => c <> 0) re ->
  match_loop re text = true <->
  exists pre m rest, text = pre ++ m ++ rest /\ denotes (atoms re) m rest.
Proof.
  intros Hre. pose proof (matchhere_spec re Hre) as Hh. unfold decides in Hh.
  induction text as [|t text IH]; cbn [match_loop]; rewrite orb_true_iff, Hh.
  - split; [intros [(m & rest & Ht & H)|]; [by exists [], m, rest|done]|].
    intros ([|] & m & rest & Ht & H); [|done]. left. by exists m, rest.
  - rewrite IH. split.
    + intros [(m & rest & Ht & H)|(pre & m & rest & -> & H)]; [by exists [], m, rest|].
      by exists (t :: pre), m, rest.
    + intros ([|x pre] & m & rest & Ht & H); [left; by exists m, rest|].
      injection Ht as -> ->. right. by exists pre, m, rest.
Qed.

Lemma match_spec re text :
  Forall (fun c => c <> 0) re -> match_ re text = true <-> matches re text.
Proof.
  intros Hre. unfold match_, matches. destruct re as [|c re]; [by apply match_loop_spec|].
  destruct (Z.eqb_spec c CARET) as [->|Hc]; cbn [head tail].
  - rewrite bool_decide_eq_true_2 by done. apply Forall_cons_1 in Hre as [_ Hre].
    rewrite (matchhere_spec re Hre text : _ <-> _). split.
    + intros (m & rest & -> & H). by exists [], m, rest.
    + intros (? & m & rest & -> & -> & H). by exists m, rest.
  - rewrite bool_decide_eq_false_2 by congruence. by apply match_loop_spec.
Qed.

#[global] Instance matches_dec re text : Forall (fun c => c <> 0) re -> Decision (matches re text).
Proof.
  intros Hre. destruct (match_ re text) eqn:E; [left|right].
  - by apply match_spec.
  - intros H. apply match_spec in H; [congruence|done].
Defined.

(** ** Lines *)

(** The complete lines of [data], the first of which begins with [cur], and
    what is left after the last of them. *)
Fixpoint lines (cur data : list Z) : list (list Z) * list Z :=
  match data with
  | [] => ([], cur)
  | c :: data =>
      if c =? NL then let (ls, r) := lines [] data in (cur :: ls, r)
      else lines (cur ++ [c]) data
  end.

Lemma lines_app cur a b :
  lines cur (a ++ b) =
  let (l1, r1) := lines cur a in let (l2, r2) := lines r1 b in (l1 ++ l2, r2).
Proof.
  revert cur. induction a as [|c a IH]; intros cur; cbn [app lines].
  - by destruct (lines cur b).
  - destruct (c =? NL); rewrite IH; [|done].
    destruct (lines [] a) as [l1 r1]. by destruct (lines r1 b).
Qed.

Lemma lines_none cur a : Forall (fun c => c <> NL) a -> lines cur a = ([], cur ++ a).
Proof.
  intros H. revert cur. induction H as [|c a Hc _ IH]; intros cur; cbn [lines].
  - by rewrite app_nil_r.
  - destruct (Z.eqb_spec c NL); [done|]. by rewrite IH, <- app_assoc.
Qed.

(** The first line. *)
Lemma lines_first data :
  Forall (fun c => c <> NL) data \/
  exists l data', data = l ++ NL :: data' /\ Forall (fun c => c <> NL) l.
Proof.
  induction data as [|c data IH]; [by left|]. destruct (decide (c = NL)) as [->|Hc].
  - right. by exists [], data.
  - destruct IH as [H|(l & data' & -> & H)]; [left; by constructor|].
    right. exists (c :: l), data'. split; [done|by constructor].
Qed.

(** What is printed for a list of lines. *)
Definition printed (re : list Z) (ls : list (list Z)) : list (Z * list Z) :=
  (fun l => (1, l ++ [NL])) <$> filter (fun l => match_ re l = true) ls.

Definition emit (o : list (Z * list Z)) (s : uio) : uio :=
  {| u_in := u_in s; u_out := u_out s ++ o |}.

Lemma strchr_line l t : Forall (fun c => c <> 0) l -> Forall (fun c => c <> NL) l ->
  strchr (l ++ NL :: t) NL = Some (length l).
Proof. intros H1 H2. apply strchr_some; [|done]. by apply Forall_and. Qed.

Lemma insert_mid (a b : list Z) x y : <[length a := y]> (a ++ x :: b) = a ++ y :: b.
Proof. by rewrite insert_app_r_alt, Nat.sub_diag by lia. Qed.

Lemma emit_nil s : emit [] s = s.
Proof. destruct s. unfold emit. cbn. by rewrite app_nil_r. Qed.
Lemma emit_emit o1 o2 s : emit o2 (emit o1 s) = emit (o1 ++ o2) s.
Proof. unfold emit. cbn. by rewrite app_assoc. Qed.

Lemma grep_lines_none fuel re a w t s :
  Forall (fun c => c <> 0) w -> Forall (fun c => c <> NL) w ->
  grep_lines fuel re (a ++ w ++ 0 :: t) (length a) s = Ok ((a ++ w ++ 0 :: t, length a), s).
Proof.
  intros H1 H2. destruct fuel; cbn [grep_lines]; rewrite drop_app_length;
    (rewrite strchr_none; [done|by apply Forall_and]).
Qed.

(** One line. *)
Lemma grep_lines_step fuel re a l w s :
  Forall (fun c => c <> 0) l -> Forall (fun c => c <> NL) l ->
  exists x, grep_lines (S fuel) re (a ++ l ++ NL :: w) (length a) s =
    grep_lines fuel re ((a ++ l ++ [x]) ++ w) (length (a ++ l ++ [x])) (emit (printed re [l]) s).
Proof.
  intros H1 H2. cbn [grep_lines]. rewrite drop_app_length, strchr_line by done. cbv zeta.
  rewrite app_assoc, <- length_app, insert_mid, <- app_assoc, drop_app_length, str_app by done.
  assert (Hs : forall x, (a ++ l ++ [x]) ++ w = a ++ l ++ x :: w)
    by (intros x; by rewrite <- !app_assoc).
  assert (Hn : forall x : Z, length (a ++ l ++ [x]) = (length (a ++ l) + 1)%nat)
    by (intros x; rewrite app_assoc, length_app; done).
  unfold printed. rewrite filter_cons, filter_nil. destruct (match_ re l) eqn:Em.
  - exists NL. rewrite decide_True by done. cbn [fmap list_fmap]. unfold write. mrun.
    rewrite Hs, Hn. rewrite app_assoc, insert_mid, <- app_assoc, drop_app_length.
    replace (length (a ++ l) + 1 - length a)%nat with (length (l ++ [NL]))
      by (rewrite !length_app; cbn; lia).
    assert (Ht : take (length (l ++ [NL])) (l ++ NL :: w) = l ++ [NL]).
    { change (NL :: w) with ([NL] ++ w). by rewrite app_assoc, take_app_length. }
    by rewrite Ht.
  - exists 0. rewrite decide_False by done. cbn [fmap list_fmap]. by rewrite emit_nil, Hs, Hn.
Qed.

(** The inner loop prints the matching lines of the string at [p], and ends at
    what follows the last newline. *)
Lemma grep_lines_run fuel re a w t s :
  Forall (fun c => c <> 0) w -> (length w <= fuel)%nat ->
  exists a', length a' = (length a + length w - length (lines [] w).2)%nat /\
    grep_lines fuel re (a ++ w ++ 0 :: t) (length a) s =
    Ok ((a' ++ (lines [] w).2 ++ 0 :: t, length a'), emit (printed re (lines [] w).1) s).
Proof.
  revert a w s. induction fuel as [|fuel IH]; intros a w s Hw Hf;
    (destruct (lines_first w) as [Hn|(l & w' & -> & Hl)]).
  1,3: exists a; rewrite lines_none by done; cbn [fst snd app]; split; [lia|];
    rewrite grep_lines_none by done; unfold printed; cbn; by rewrite emit_nil.
  { rewrite length_app in Hf. cbn in Hf. lia. }
  apply Forall_app in Hw as [Hl0 [_ Hw]%Forall_cons_1].
  rewrite lines_app, (lines_none [] l) by done. cbn [lines app]. rewrite Z.eqb_refl.
  rewrite length_app in Hf. cbn [length] in Hf.
  rewrite <- app_assoc. cbn [app]. destruct (grep_lines_step fuel re a l (w' ++ 0 :: t) s) as [x ->]; [done..|].
  destruct (IH (a ++ l ++ [x]) w' (emit (printed re [l]) s)) as (a' & Ha & ->); [done|lia|].
  exists a'. destruct (lines [] w') as [ls r]. cbn [fst snd] in *. split.
  - rewrite Ha, !length_app. cbn [length]. lia.
  - rewrite emit_emit. unfold printed. rewrite <- fmap_app, <- filter_app. done.
Qed.

(** ** The program on a file *)

(** A file: a read returns all it asks for, or the rest. *)
Definition file_in (data : list Z) (s : uio) : uio :=
  {| u_in := if bool_decide (data = []) then [] else [data]; u_out := u_out s |}.

Lemma read_file n data s :
  read n (file_in data s) = Ok (take n data, file_in (drop n data) s).
Proof.
  unfold read, file_in. mrun. cbn [u_in u_out]. destruct data as [|c data].
  { rewrite bool_decide_eq_true_2 by done. by rewrite take_nil, drop_nil. }
  rewrite bool_decide_eq_false_2 by done. mrun. by case_bool_decide.
Qed.

Lemma emit_file o data s : emit o (file_in data s) = file_in data (emit o s).
Proof. done. Qed.

(** The buffer holds [u] and room for more. *)
Lemma store_spec (buf u bs : list Z) :
  take (length u) buf = u -> length buf = BUFSIZE -> (length u + length bs < BUFSIZE)%nat ->
  exists t, <[(length u + length bs)%nat := 0]> (store buf (length u) bs) = (u ++ bs) ++ 0 :: t /\
    S (length u + length bs + length t) = BUFSIZE.
Proof.
  intros Hu Hb Hl. unfold store. rewrite Hu, app_assoc, <- length_app.
  destruct (drop (length (u ++ bs)) buf) as [|x t] eqn:Ed.
  { apply (f_equal length) in Ed. rewrite length_drop, length_app in Ed. cbn in Ed. lia. }
  exists t. rewrite insert_mid. split; [done|].
  apply (f_equal length) in Ed. rewrite length_drop in Ed. cbn in Ed. rewrite length_app in *. lia.
Qed.

(** What is left is a suffix without newlines. *)
Lemma lines_rest cur data (P : Z -> Prop) :
  Forall P cur -> Forall P data -> Forall (fun c => c <> NL) cur ->
  Forall P (lines cur data).2 /\ Forall (fun c => c <> NL) (lines cur data).2 /\
  (length (lines cur data).2 <= length cur + length data)%nat.
Proof.
  intros Hc Hd Hn. revert cur Hc Hn. induction Hd as [|c data Hx _ IH]; intros cur Hc Hn;
    cbn [lines snd length]; [split_and!; [done|done|lia]|]. destruct (Z.eqb_spec c NL).
  - specialize (IH []). destruct (lines [] data). cbn in *.
    destruct IH as (H1 & H2 & H3); [done|done|]. split_and!; [done|done|lia].
  - destruct (IH (cur ++ [c])) as (H1 & H2 & H3); [by apply Forall_app; auto..|].
    rewrite length_app in H3. cbn in *. split_and!; [done|done|lia].
Qed.

Lemma lines_full cur data :
  length (lines cur data).2 = (length cur + length data)%nat -> (lines cur data).1 = [].
Proof.
  destruct (lines_first data) as [H|(l & d & -> & H)]; [by rewrite lines_none|].
  rewrite lines_app, lines_none by done. cbn [lines]. rewrite Z.eqb_refl.
  pose proof (lines_rest [] d (fun _ => True)) as Hr. destruct (lines [] d) as [ls r]. cbn [fst snd] in *.
  rewrite length_app. cbn [length] in *. intros Hl.
  destruct Hr as (_ & _ & Hr); [done|by apply Forall_true|done|lia].
Qed.

(** Lines fit the buffer. *)
Definition short (cur data : list Z) : Prop :=
  Forall (fun l => length l < BUFSIZE - 1)%nat (lines cur data).1 /\
  (length (lines cur data).2 < BUFSIZE - 1)%nat.

Lemma short_cur cur data : short cur data -> (length cur < BUFSIZE - 1)%nat.
Proof.
  unfold short. revert cur. induction data as [|c data IH]; intros cur; cbn [lines fst snd].
  { by intros [_ H]. }
  destruct (c =? NL).
  - destruct (lines [] data). cbn. intros [H _]. by inversion H.
  - intros H%IH. rewrite length_app in H. cbn [length] in H. lia.
Qed.

Lemma short_app cur a b : short cur (a ++ b) -> short (lines cur a).2 b.
Proof.
  unfold short. rewrite lines_app. destruct (lines cur a) as [l1 r1].
  destruct (lines r1 b) as [l2 r2] eqn:E. cbn. rewrite E, Forall_app. cbn. tauto.
Qed.

Lemma grep_loop_end fuel re buf s :
  grep_loop (S fuel) re buf 0 (file_in [] s) = Ok (tt, file_in [] s).
Proof. cbn [grep_loop]. mrun (read_file (BUFSIZE - 0 - 1) [] s). by rewrite take_nil. Qed.

(** One round of the loop. *)
Lemma grep_round fuel re buf u data s (n := (BUFSIZE - length u - 1)%nat)
    (r := (lines u (take n data)).2) :
  take (length u) buf = u -> length buf = BUFSIZE -> Forall (fun c => c <> 0) u ->
  Forall (fun c => c <> NL) u -> Forall (fun c => c <> 0) data -> short u data -> data <> [] ->
  exists buf' v, take (length v) buf' = v /\ length buf' = BUFSIZE /\
    (v = r \/ v = [] /\ drop n data = [] /\ (lines u (take n data)).1 = []) /\
    grep_loop (S fuel) re buf (length u) (file_in data s) =
    grep_loop fuel re buf' (length v)
      (file_in (drop n data) (emit (printed re (lines u (take n data)).1) s)).
Proof.
  intros Hu Hb Hu0 Hun Hd Hs Hne. pose proof (short_cur u data Hs) as Hlu.
  cbn [grep_loop]. fold n. mrun (read_file n data s).
  assert (Hbs : (0 < length (take n data))%nat).
  { rewrite length_take. destruct data; [done|]. cbn [length]. unfold n. lia. }
  set (bs := take n data) in *. destruct (Nat.ltb_spec 0 (length bs)); [|lia].
  destruct (store_spec buf u bs Hu Hb) as (t & -> & Ht).
  { unfold bs. rewrite length_take. unfold n. lia. }
  destruct (grep_lines_run BUFSIZE re [] (u ++ bs) t (file_in (drop n data) s)) as (a' & Ha & E).
  { apply Forall_app. split; [done|]. by apply Forall_take. }
  { rewrite length_app. lia. }
  cbn [app length] in E. rewrite (bind_Ok _ _ _ _ _ E). clear E.
  assert (Hlr : lines [] (u ++ bs) = lines u bs) by (rewrite lines_app, (lines_none [] u) by done; cbn [app]; by destruct (lines u bs)).
  rewrite Hlr, emit_file in *. fold r in Ha |- *.
  destruct (lines_rest u bs (fun c => c <> 0)) as (Hr0 & Hrn & Hrl); [done|by apply Forall_take|done|].
  fold r in Hr0, Hrn, Hrl. rewrite length_app in Ha. cbn [length] in Ha.
  destruct (Nat.eqb_spec (length a') 0) as [H0|H0].
  - exists (a' ++ r ++ 0 :: t), []. split_and!; [done|rewrite !length_app; cbn [length]; lia| |done].
    right. assert (Hf : length r = (length u + length bs)%nat) by lia.
    split_and!; [done| |by apply lines_full].
    assert (Hr : short r (drop n data)) by (apply short_app; unfold bs; by rewrite take_drop).
    apply short_cur in Hr. apply nil_length_inv. unfold bs in Hf. rewrite length_take in Hf.
    rewrite length_drop. lia.
  - exists (memmove (a' ++ r ++ 0 :: t) 0 (length a') (length r)), r.
    replace (length u + length bs - length a')%nat with (length r) by lia.
    destruct (Nat.ltb_spec 0 (length u + length bs)); [|lia].
    assert (Hlen : length (a' ++ r ++ 0 :: t) = BUFSIZE)
      by (rewrite !length_app; cbn [length]; lia).
    split_and!; [|by rewrite memmove_length|by left|done].
    rewrite memmove_down by (rewrite !length_app; cbn [length]; lia).
    by rewrite drop_app_length, take_app_length.
Qed.

Lemma grep_loop_run fuel re buf u data s :
  take (length u) buf = u -> length buf = BUFSIZE -> Forall (fun c => c <> 0) u ->
  Forall (fun c => c <> NL) u -> Forall (fun c => c <> 0) data -> short u data ->
  (length data < fuel)%nat ->
  grep_loop fuel re buf (length u) (file_in data s) =
  Ok (tt, file_in [] (emit (printed re (lines u data).1) s)).
Proof.
  revert buf u data s. induction fuel as [|fuel IH]; intros buf u data s Hu Hb Hu0 Hun Hd Hs Hf;
    [lia|]. destruct (decide (data = [])) as [->|Hne].
  { cbn [grep_loop lines fst]. mrun (read_file (BUFSIZE - length u - 1) [] s).
    rewrite take_nil, drop_nil. unfold printed. cbn. by rewrite emit_nil. }
  destruct (grep_round fuel re buf u data s) as (buf' & v & Hv & Hb' & Hc & ->); [done..|].
  pose proof (short_cur u data Hs) as Hlu. set (n := (BUFSIZE - length u - 1)%nat) in *.
  assert (Hn : (length (drop n data) < fuel)%nat).
  { rewrite length_drop. destruct data; [done|]. cbn [length] in *. unfold n. lia. }
  assert (Hl : lines u data = let (l1, r1) := lines u (take n data) in
    let (l2, r2) := lines r1 (drop n data) in (l1 ++ l2, r2)) by by rewrite <- lines_app, take_drop.
  destruct (lines_rest u (take n data) (fun c => c <> 0)) as (Hr0 & Hrn & _);
    [done|by apply Forall_take|done|].
  assert (Hsr : short (lines u (take n data)).2 (drop n data)) by (apply short_app; by rewrite take_drop).
  destruct (lines u (take n data)) as [l1 r1]. cbn [fst snd] in *.
  destruct Hc as [->|(-> & Hdr & ->)].
  - rewrite IH by (try done; by apply Forall_drop). rewrite emit_emit, Hl.
    destruct (lines r1 (drop n data)) as [l2 r2]. cbn [fst]. unfold printed.
    by rewrite filter_app, fmap_app.
  - rewrite Hl, Hdr. cbn [lines app fst]. destruct fuel as [|fuel]; [lia|].
    cbn [length]. by rewrite grep_loop_end.
Qed.

(** (C35) grep prints the right lines: on a file whose lines are shorter than
    1023 characters, it ends, and it prints exactly the lines, complete with
    their newline and in their order, that contain a match of the pattern;
    what follows the last newline is not looked at. *)
Theorem grep_spec re buf data s (D : forall l, Decision (matches re l)) :
  length buf = BUFSIZE -> Forall (fun c => c <> 0) re -> Forall (fun c => c <> 0) data ->
  Forall (fun l => length l < 1023)%nat (lines [] data).1 ->
  (length (lines [] data).2 < 1023)%nat ->
  grep re buf (file_in data s) =
  Ok (tt, {| u_in := [];
             u_out := u_out s ++ ((fun l => (1, l ++ [NL])) <$> filter (matches re) (lines [] data).1) |}).
Proof.
  intros Hb Hre Hd H1 H2. unfold grep. mrun.
  rewrite (grep_loop_run _ re buf [] data s); try done.
  - unfold file_in, emit, printed. cbn [u_in u_out]. rewrite bool_decide_eq_true_2 by done.
    do 5 f_equal. apply list_filter_iff. intros l. by apply match_spec.
  - unfold file_in. cbn [u_in]. destruct data; [cbn; lia|].
    rewrite bool_decide_eq_false_2 by done. cbn [concat]. rewrite app_nil_r. lia.
Qed.

Definition demo_text : list Z := chars "one" ++ [NL] ++ chars "two" ++ [NL] ++ chars "on".

Lemma grep_spec_witness :
  grep (chars "^o.*e$") (replicate 1024 0) (file_in demo_text {| u_in := []; u_out := [] |}) =
  Ok (tt, {| u_in := []; u_out := [(1, chars "one" ++ [NL])] |}).
Proof.
  assert (Hre : Forall (fun c => c <> 0) (chars "^o.*e$")) by (apply (bool_decide_unpack _); by vm_compute).
  rewrite (grep_spec (chars "^o.*e$") (replicate 1024 0) demo_text _ (fun l => matches_dec _ l Hre)).
  - done.
  - done.
  - done.
  - apply (bool_decide_unpack _). by vm_compute.
  - apply (bool_decide_unpack _). by vm_compute.
  - apply (bool_decide_unpack _). by vm_compute.
Defined.

(** When the input arrives in pieces, as from a pipe, a piece without a newline
    is dropped: the line abc matches and is not printed. *)
Lemma grep_drops_pieces :
  grep (chars "a") (replicate 1024 0) {| u_in := [chars "ab"; chars "c" ++ [NL]]; u_out := [] |} =
  Ok (tt, {| u_in := []; u_out := [] |}) /\
  grep (chars "a") (replicate 1024 0) {| u_in := [chars "abc" ++ [NL]]; u_out := [] |} =
  Ok (tt, {| u_in := []; u_out := [(1, chars "abc" ++ [NL])] |}).
Proof. by vm_compute. Qed.
