(* ===== verification/Sh.v ===== *)
(** * The shell's parser (sh.c)

    The line is a buffer of characters with a NUL at its end; pointers into
    it are indices, and the state of the parser is the index [*ps].  A call of
    [panic] ends the process.  [malloc] is taken to succeed, so a command is a
    tree; [parseexec] fills in the arguments of the EXEC node after it has
    wrapped redirections around it, which [set_args] does in the tree. *)

From S2P Require Import Prelude Param Kernel Console Ulib.

Definition MAXARGS : nat := 10.
Definition O_RDONLY : Z := 0.
Definition O_WRONLY_CREATE : Z := Z.lor 1 512.

(** Arguments are the pointers [argv[i]] and [eargv[i]]. *)
Inductive cmd :=
| EXEC (argv : list (nat * nat))
| REDIR (c : cmd) (file efile : nat) (mode fd : Z)
| PIPE (left right : cmd)
| LIST (left right : cmd)
| BACK (c : cmd).

Definition execcmd : cmd := EXEC [].
Definition redircmd (c : cmd) (file efile : nat) (mode fd : Z) : cmd := REDIR c file efile mode fd.
Definition pipecmd (left right : cmd) : cmd := PIPE left right.
Definition listcmd (left right : cmd) : cmd := LIST left right.
Definition backcmd (c : cmd) : cmd := BACK c.

Fixpoint set_args (argv : list (nat * nat)) (c : cmd) : cmd :=
  match c with
  | EXEC _ => EXEC argv
  | REDIR c f e m d => REDIR (set_args argv c) f e m d
  | _ => c
  end.

Definition whitespace : list Z := [32; 9; 13; 10; 11].
Definition symbols : list Z := [60; 124; 62; 38; 59; 40; 41].

Definition in_str (s : list Z) (c : Z) : bool :=
  match strchr s c with Some _ => true | None => false end.

(** [while(s < es && p( *s)) s++], with [k] characters before [es] *)
Fixpoint skip_while (p : Z -> bool) (s : list Z) (k i : nat) : nat :=
  match k with
  | O => i
  | S k => if p (nth i s 0) then skip_while p s k (S i) else i
  end.

Section Parser.
Variable s : list Z.
Variable es : nat.

Definition skip (p : Z -> bool) (i : nat) : nat := skip_while p s (es - i) i.

(** The token, [*q] and [*eq]. *)
Definition gettoken : M nat (Z * nat * nat) :=
  let! ps := get in
  let i := skip (in_str whitespace) ps in
  let q := i in
  let c := nth i s 0 in
  let '(r, i) :=
    if c =? 0 then (c, i)
    else if (c =? 124) || (c =? 40) || (c =? 41) || (c =? 59) || (c =? 38) || (c =? 60)
    then (c, S i)
    else if c =? 62 then
      if nth (S i) s 0 =? 62 then (43, S (S i)) else (c, S i)
    else (97, skip (fun c => negb (in_str whitespace c) && negb (in_str symbols c)) i) in
  let eq := i in
  do! put (skip (in_str whitespace) i) in
  ret (r, q, eq).

Definition peek (toks : list Z) : M nat bool :=
  let! ps := get in
  let i := skip (in_str whitespace) ps in
  do! put i in
  ret (negb (nth i s 0 =? 0) && in_str toks (nth i s 0)).

Fixpoint parseredirs (fuel : nat) (c : cmd) : M nat cmd :=
  let! b := peek [60; 62] in
  if b then
    match fuel with
    | O => out_of_fuel
    | S f =>
        let! (tok, _, _) := gettoken in
        let! (t, q, eq) := gettoken in
        if negb (t =? 97) then panic "missing file for redirection"
        else
          parseredirs f
            (if tok =? 60 then redircmd c q eq O_RDONLY 0
             else if tok =? 62 then redircmd c q eq O_WRONLY_CREATE 1
             else if tok =? 43 then redircmd c q eq O_WRONLY_CREATE 1
             else c)
    end
  else ret c.

(** The argument loop of [parseexec]: [r] is [ret], [argv] the arguments so
    far. *)
Fixpoint parseargs (fuel : nat) (argv : list (nat * nat)) (r : cmd) : M nat cmd :=
  let! b := peek [124; 41; 38; 59] in
  if b then ret (set_args argv r)
  else
    match fuel with
    | O => out_of_fuel
    | S f =>
        let! (tok, q, eq) := gettoken in
        if tok =? 0 then ret (set_args argv r)
        else if negb (tok =? 97) then panic "syntax"
        else
          let argv := argv ++ [(q, eq)] in
          if (MAXARGS <=? length argv)%nat then panic "too many args"
          else
            let! r := parseredirs es r in
            parseargs f argv r
    end.

(** The loop of [parseline]. *)
Fixpoint parsebacks (fuel : nat) (c : cmd) : M nat cmd :=
  let! b := peek [38] in
  if b then
    match fuel with
    | O => out_of_fuel
    | S f => do! gettoken in parsebacks f (backcmd c)
    end
  else ret c.

Fixpoint parseline (fuel : nat) : M nat cmd :=
  match fuel with
  | O => out_of_fuel
  | S f =>
      let! c := parsepipe f in
      let! c := parsebacks es c in
      let! b := peek [59] in
      if b then
        do! gettoken in
        let! r := parseline f in
        ret (listcmd c r)
      else ret c
  end
with parsepipe (fuel : nat) : M nat cmd :=
  match fuel with
  | O => out_of_fuel
  | S f =>
      let! c := parseexec f in
      let! b := peek [124] in
      if b then
        do! gettoken in
        let! r := parsepipe f in
        ret (pipecmd c r)
      else ret c
  end
with parseexec (fuel : nat) : M nat cmd :=
  match fuel with
  | O => out_of_fuel
  | S f =>
      let! b := peek [40] in
      if b then parseblock f
      else
        let! r := parseredirs es execcmd in
        parseargs (S es) [] r
  end
with parseblock (fuel : nat) : M nat cmd :=
  match fuel with
  | O => out_of_fuel
  | S f =>
      let! b := peek [40] in
      if negb b then panic "parseblock"
      else
        do! gettoken in
        let! c := parseline f in
        let! b := peek [41] in
        if negb b then panic "syntax - missing )"
        else
          do! gettoken in
          parseredirs es c
  end.

End Parser.

Definition put_nul (buf : list Z) (a : nat * nat) : list Z := <[a.2 := 0]> buf.

Fixpoint nulterminate (c : cmd) (buf : list Z) : list Z :=
  match c with
  | EXEC argv => foldl put_nul buf argv
  | REDIR c _ efile _ _ => <[efile := 0]> (nulterminate c buf)
  | PIPE l r => nulterminate r (nulterminate l buf)
  | LIST l r => nulterminate r (nulterminate l buf)
  | BACK c => nulterminate c buf
  end.

(** The command, and the line with the NULs; the text printed before the
    panic on left-over characters is left out.  A round of the four mutually
    recursive functions consumes a character. *)
Definition parsecmd (s : list Z) : M nat (cmd * list Z) :=
  let es := strlen s in
  do! put 0%nat in
  let! c := parseline s es (4 * es + 4) in
  do! peek s es [] in
  let! i := get in
  if negb (i =? es)%nat then panic "syntax"
  else ret (c, nulterminate c s).
