(* ===== verification/ShSpec.v ===== *)
(** * The shell's parser: safety and round trip

    On every line the parser ends: with a panic, or with a command whose
    pointers delimit words of the line.  A command printed in a normal form
    parses back to itself. *)

From S2P Require Import Prelude Param Kernel Console Ulib Sh.

(** The characters of words. *)
Definition wordc (c : Z) : bool :=
  negb (c =? 0) && (negb (in_str whitespace c) && negb (in_str symbols c)).

Lemma skip_while_spec p s k i :
  let j := skip_while p s k i in
  (i <= j <= i + k)%nat /\ (forall x, (i <= x < j)%nat -> p (nth x s 0) = true) /\
  ((j < i + k)%nat -> p (nth j s 0) = false).
Proof.
  revert i. induction k as [|k IH]; intros i; cbn [skip_while].
  { split_and!; intros; lia. }
  destruct (p (nth i s 0)) eqn:E; [|by split_and!; intros; [lia..|]].
  destruct (IH (S i)) as (H1 & H2 & H3). split_and!; [lia|lia| |intros; apply H3; lia].
  intros x Hx. destruct (decide (x = i)) as [->|]; [done|]. apply H2. lia.
Qed.

(** All words a command points to. *)
Fixpoint words (c : cmd) : list (nat * nat) :=
  match c with
  | EXEC argv => argv
  | REDIR c f e _ _ => words c ++ [(f, e)]
  | PIPE l r => words l ++ words r
  | LIST l r => words l ++ words r
  | BACK c => words c
  end.

(** No command has too many arguments, and redirections are those of
    descriptors 0 and 1. *)
Fixpoint shape (c : cmd) : Prop :=
  match c with
  | EXEC argv => (length argv < MAXARGS)%nat
  | REDIR c _ _ _ d => shape c /\ (d = 0 \/ d = 1)
  | PIPE l r => shape l /\ shape r
  | LIST l r => shape l /\ shape r
  | BACK c => shape c
  end.

(** A command with its words. *)
Inductive command :=
| Exec (argv : list (list Z))
| Redir (c : command) (file : list Z) (mode fd : Z)
| Pipe (left right : command)
| Seq (left right : command)
| Back (c : command).

Fixpoint view (f : nat * nat -> list Z) (c : cmd) : command :=
  match c with
  | EXEC argv => Exec (f <$> argv)
  | REDIR c q e m d => Redir (view f c) (f (q, e)) m d
  | PIPE l r => Pipe (view f l) (view f r)
  | LIST l r => Seq (view f l) (view f r)
  | BACK c => Back (view f c)
  end.

(** The words as typed in the line [s], and the strings a program finds. *)
Definition typed (s : list Z) (a : nat * nat) : list Z := take (a.2 - a.1) (drop a.1 s).
Definition found (buf : list Z) (a : nat * nat) : list Z := str (drop a.1 buf).

Lemma view_ext f g c : Forall (fun a => f a = g a) (words c) -> view f c = view g c.
Proof.
  induction c; cbn [words view]; rewrite ?Forall_app.
  - intros H. f_equal. apply list_fmap_ext. intros i a Ha. exact (Forall_lookup_1 _ _ _ _ H Ha).
  - intros [H1 [H2 _]%Forall_cons_1]. by rewrite (IHc H1), H2.
  - intros [H1 H2]. by rewrite IHc1, IHc2.
  - intros [H1 H2]. by rewrite IHc1, IHc2.
  - intros H. by rewrite IHc.
Qed.

Section Safe.
Variable l t : list Z.
Hypothesis Hl : Forall (fun c => c <> 0) l.
Let s := l ++ 0 :: t.
Let es := length l.

Definition word_at (a : nat * nat) : Prop :=
  (a.1 < a.2 <= length l)%nat /\
  (forall x, (a.1 <= x < a.2)%nat -> wordc (nth x (l ++ 0 :: t) 0) = true) /\
  wordc (nth a.2 (l ++ 0 :: t) 0) = false.

Definition cmd_ok (c : cmd) : Prop := Forall word_at (words c) /\ shape c.

(** From an index in the line the code ends, further on in the line. *)
Definition runs {A} (n : nat) (c : M nat A) (Q : A -> Prop) : Prop :=
  forall p, (p <= es)%nat -> (es - p <= n)%nat ->
    match c p with
    | Ok (a, p') => (p <= p' <= es)%nat /\ Q a
    | Panic _ => True
    | _ => False
    end.

Lemma runs_ret {A} n (a : A) (Q : A -> Prop) : Q a -> runs n (ret a) Q.
Proof. intros H p Hp Hn. cbn. split; [lia|done]. Qed.

Lemma runs_panic {A} n msg (Q : A -> Prop) : runs n (panic msg) Q.
Proof. by intros p Hp Hn. Qed.

Lemma runs_bind {A B} n (c : M nat A) (k : A -> M nat B) Q R :
  runs n c Q -> (forall a, Q a -> runs n (k a) R) -> runs n (bind c k) R.
Proof.
  intros Hc Hk p Hp Hn. unfold bind. specialize (Hc p Hp Hn).
  destruct (c p) as [[a p1]|m| | |]; try done. destruct Hc as [H1 HQ].
  specialize (Hk a HQ p1). destruct (k a p1) as [[b p2]|m| | |]; try (apply Hk; lia).
  destruct Hk as [H2 HR]; [lia|lia|]. split; [lia|done].
Qed.

Lemma nth_line i : (i < es)%nat -> nth i s 0 <> 0.
Proof.
  intros Hi. unfold s. rewrite app_nth1 by done. apply (Forall_nth (fun c => c <> 0)); done.
Qed.
Lemma nth_end : nth es s 0 = 0.
Proof. unfold s, es. by rewrite nth_middle. Qed.

Lemma skip_spec p i : (i <= es)%nat ->
  let j := skip s es p i in
  (i <= j <= es)%nat /\ (forall x, (i <= x < j)%nat -> p (nth x s 0) = true) /\
  ((j < es)%nat -> p (nth j s 0) = false).
Proof.
  intros Hi j. destruct (skip_while_spec p s (es - i) i) as (H1 & H2 & H3).
  fold (skip s es p i) in H1, H2, H3. fold j in H1, H2, H3.
  split_and!; [lia|lia|done|]. intros Hj. apply H3. lia.
Qed.

Lemma peek_run toks p : (p <= es)%nat ->
  exists b p', peek s es toks p = Ok (b, p') /\ (p <= p' <= es)%nat /\
    (b = true -> (p' < es)%nat /\ in_str toks (nth p' s 0) = true).
Proof.
  intros Hp. unfold peek. mrun. destruct (skip_spec (in_str whitespace) p Hp) as (H1 & _ & _).
  eexists _, _. split; [reflexivity|]. split; [done|].
  intros [Hz%negb_true_iff Ht]%andb_true_iff. split; [|done].
  apply Z.eqb_neq in Hz. destruct (decide (skip s es (in_str whitespace) p = es)) as [Es|]; [|lia].
  by rewrite Es, nth_end in Hz.
Qed.

Lemma skip_word i : (i < es)%nat -> wordc (nth i s 0) = true ->
  word_at (i, skip s es (fun c => negb (in_str whitespace c) && negb (in_str symbols c)) i).
Proof.
  intros Hi Hw. set (p := fun c => _). destruct (skip_spec p i) as (H1 & H2 & H3); [lia|].
  set (j := skip s es p i) in *. fold s. unfold word_at. cbn [fst snd]. fold s.
  assert (Hj : (i < j)%nat).
  { destruct (decide (i = j)) as [E|]; [|lia]. rewrite <- E in H3. specialize (H3 Hi).
    unfold wordc in Hw. apply andb_true_iff in Hw as [_ Hw]. unfold p in H3. congruence. }
  split_and!; [done|unfold es in H1; lia| |].
  - intros x Hx. unfold wordc. pose proof (H2 x ltac:(lia)) as Hpx. unfold p in Hpx. rewrite Hpx.
    destruct (Z.eqb_spec (nth x s 0) 0) as [E|]; [|done].
    by destruct (nth_line x ltac:(lia)).
  - unfold wordc. destruct (decide (j < es)%nat) as [Hlt|].
    + specialize (H3 Hlt). unfold p in H3. by rewrite H3, andb_false_r.
    + replace j with es by lia. by rewrite nth_end.
Qed.

Lemma gettoken_run p : (p <= es)%nat ->
  exists tok q e p', gettoken s es p = Ok ((tok, q, e), p') /\ (p <= p' <= es)%nat /\
    (tok = 97 -> word_at (q, e)) /\ (tok <> 0 -> (p < p')%nat) /\
    ((p < es)%nat -> in_str whitespace (nth p s 0) = false -> tok <> 0).
Proof.
  intros Hp. unfold gettoken. mrun.
  destruct (skip_spec (in_str whitespace) p Hp) as (H1 & H2 & H3).
  set (i := skip s es (in_str whitespace) p) in *. set (c := nth i s 0).
  assert (Hend : forall r j, (i <= j <= es)%nat -> (r = 97 -> word_at (i, j)) ->
    (r <> 0 -> (i < j)%nat) -> ((i < es)%nat -> r <> 0) ->
    exists tok q e p', Ok ((r, i, j), skip s es (in_str whitespace) j) = Ok ((tok, q, e), p') /\
      (p <= p' <= es)%nat /\ (tok = 97 -> word_at (q, e)) /\ (tok <> 0 -> (p < p')%nat) /\
      ((p < es)%nat -> in_str whitespace (nth p s 0) = false -> tok <> 0)).
  { intros r j Hj Hw Hlt Hz. destruct (skip_spec (in_str whitespace) j) as (H4 & _ & _); [lia|].
    exists r, i, j, (skip s es (in_str whitespace) j). split_and!; [done|lia|lia|done| |].
    - intros Hr. specialize (Hlt Hr). lia.
    - intros Hps Hws. apply Hz. destruct (decide (p = i)) as [<-|]; [done|].
      by rewrite (H2 p) in Hws by lia. }
  destruct (Z.eqb_spec c 0) as [Ec|Ec].
  { mrun. apply Hend; [lia|intros E; by rewrite E in Ec|done|]. intros Hi. by destruct (nth_line i Hi). }
  assert (Hi : (i < es)%nat).
  { destruct (decide (i = es)) as [E|]; [|lia]. unfold c in Ec. by rewrite E, nth_end in Ec. }
  destruct (_ || _) eqn:Esym.
  { mrun. apply Hend; [lia| |lia|done]. intros E. rewrite E in Esym. done. }
  destruct (Z.eqb_spec c 62) as [E62|E62].
  { destruct (Z.eqb_spec (nth (S i) s 0) 62) as [En|En]; mrun.
    - apply Hend; [|done|lia|done].
      destruct (decide (S i = es)) as [E|]; [|lia]. by rewrite E, nth_end in En.
    - apply Hend; [lia|intros E; by rewrite E in E62|lia|done]. }
  mrun. assert (Hw : wordc c = true).
  { unfold wordc. destruct (Z.eqb_spec c 0); [done|]. apply andb_true_iff. split; [done|].
    apply andb_true_iff. split; [pose proof (H3 Hi) as Hws; fold c in Hws; by rewrite Hws|].
    unfold in_str, symbols. cbn [strchr]. repeat (apply orb_false_elim in Esym as [Esym ?]).
    repeat match goal with H : (c =? _) = false |- _ => apply Z.eqb_neq in H end.
    repeat match goal with |- context [?x =? c] => destruct (Z.eqb_spec x c); [congruence|] end.
    done. }
  pose proof (skip_word i Hi Hw) as Hsw. pose proof (proj1 Hsw) as Hs1. cbn [fst snd] in Hs1. fold es in Hs1.
  apply Hend; [lia|intros _; exact Hsw|lia|done].
Qed.

Definition tok_ok (x : Z * nat * nat) : Prop := x.1.1 = 97 -> word_at (x.1.2, x.2).

Lemma gettoken_runs n : runs n (gettoken s es) tok_ok.
Proof.
  intros p Hp Hn. destruct (gettoken_run p Hp) as (tok & q & e & p' & -> & H1 & H2 & _). done.
Qed.

(** A token that [peek] has seen is consumed. *)
Lemma runs_token {A} n toks (k : Z * nat * nat -> M nat A) k2 Q :
  (forall c, in_str toks c = true -> in_str whitespace c = false) ->
  (forall x, tok_ok x -> runs n (k x) Q) -> runs (S n) k2 Q ->
  runs (S n) (let! b := peek s es toks in if b then let! x := gettoken s es in k x else k2) Q.
Proof.
  intros Ht Hk H2 p Hp Hn. destruct (peek_run toks p Hp) as ([|] & p1 & E & H1 & Hb);
    rewrite (bind_Ok _ _ _ _ _ E).
  - destruct (Hb eq_refl) as [Hlt Hin]. clear E Hb.
    destruct (gettoken_run p1) as (tok & q & e & p2 & E & Hp2 & Hw & Hpos & Hz); [lia|].
    rewrite (bind_Ok _ _ _ _ _ E). specialize (Hpos (Hz Hlt (Ht _ Hin))).
    specialize (Hk (tok, q, e) Hw p2). destruct (k _ p2) as [[a p3]|m| | |]; try (apply Hk; lia).
    destruct Hk as [H3 HQ]; [lia|lia|]. split; [lia|done].
  - specialize (H2 p1). destruct (k2 p1) as [[a p3]|m| | |]; try (apply H2; lia).
    destruct H2 as [H3 HQ]; [lia|lia|]. split; [lia|done].
Qed.

(** At the end of the line [peek] sees nothing. *)
Lemma runs_no_token {A} toks (k1 k2 : M nat A) Q :
  runs 0 k2 Q -> runs 0 (let! b := peek s es toks in if b then k1 else k2) Q.
Proof.
  intros H2 p Hp Hn. destruct (peek_run toks p Hp) as ([|] & p1 & E & H1 & Hb);
    rewrite (bind_Ok _ _ _ _ _ E).
  - destruct (Hb eq_refl). lia.
  - replace p1 with p by lia. by apply H2.
Qed.

Lemma runs_any {A} n (c : M nat A) Q : runs es c Q -> runs n c Q.
Proof. intros Hc p Hp Hn. apply Hc; lia. Qed.

Lemma no_ws toks : forallb (fun c => negb (in_str whitespace c)) toks = true ->
  forall c, in_str toks c = true -> in_str whitespace c = false.
Proof.
  intros H c. unfold in_str at 1. destruct (strchr toks c) as [k|] eqn:E; [|done]. intros _.
  revert k E. induction toks as [|x toks IH]; intros k; cbn [strchr]; [done|].
  apply andb_true_iff in H as [Hx H]. destruct (x =? 0); [done|].
  destruct (Z.eqb_spec x c) as [->|].
  - intros _. by apply negb_true_iff.
  - destruct (strchr toks c); [|done]. intros _. by eapply IH.
Qed.

Lemma parseredirs_runs n fuel c :
  (n <= fuel)%nat -> cmd_ok c -> runs n (parseredirs s es fuel c) cmd_ok.
Proof.
  revert n c. induction fuel as [|f IH]; intros n c Hn Hc; cbn [parseredirs].
  { replace n with 0%nat by lia. by apply runs_no_token, runs_ret. }
  destruct n as [|n]; [by apply runs_no_token, runs_ret|].
  apply runs_token; [by apply no_ws| |by apply runs_ret].
  intros [[tok q0] e0] _. eapply runs_bind; [apply gettoken_runs|].
  intros [[a q] e] Ha. destruct (Z.eqb_spec a 97) as [->|]; [|apply runs_panic].
  cbn [negb]. apply IH; [lia|]. specialize (Ha eq_refl). destruct Hc as [H1 H2].
  repeat case_match; (split; [|cbn; tauto]); cbn [words redircmd]; [apply Forall_app..|]; auto.
Qed.

Lemma set_args_ok argv r :
  Forall word_at argv -> (length argv < MAXARGS)%nat -> cmd_ok r -> cmd_ok (set_args argv r).
Proof.
  intros Ha Hn. induction r; intros [H1 H2]; cbn [set_args]; try done.
  cbn [words shape] in *. apply Forall_app in H1 as [H1 H3].
  destruct H2 as [H2 Hd]. destruct (IHr (conj H1 H2)) as [H4 H5]. split; [|done]. cbn [words]. by apply Forall_app.
Qed.

Lemma parseargs_runs n fuel argv r :
  (n < fuel)%nat -> Forall word_at argv -> (length argv < MAXARGS)%nat -> cmd_ok r ->
  runs n (parseargs s es fuel argv r) cmd_ok.
Proof.
  revert n argv r. induction fuel as [|f IH]; intros n argv r Hn Ha Hm Hr; [lia|].
  cbn [parseargs]. intros p Hp Hpn.
  destruct (peek_run [124; 41; 38; 59] p Hp) as ([|] & p1 & E & H1 & _); rewrite (bind_Ok _ _ _ _ _ E).
  { cbn. split; [lia|]. by apply set_args_ok. }
  destruct (gettoken_run p1) as (tok & q & e & p2 & E2 & H2 & Hw & Hpos & _); [lia|].
  rewrite (bind_Ok _ _ _ _ _ E2). destruct (Z.eqb_spec tok 0).
  { cbn. split; [lia|]. by apply set_args_ok. }
  specialize (Hpos n0). destruct (Z.eqb_spec tok 97) as [Et|]; [|done]. cbn [negb].
  destruct (Nat.leb_spec MAXARGS (length (argv ++ [(q, e)]))); [done|].
  assert (Hk : runs (pred n) (let! r := parseredirs s es es r in
    parseargs s es f (argv ++ [(q, e)]) r) cmd_ok).
  { eapply runs_bind; [by apply runs_any, parseredirs_runs|].
    intros r' Hr'. apply IH; [lia| |done|done]. apply Forall_app. auto. }
  specialize (Hk p2). destruct (bind _ _ p2) as [[a p3]|m| | |]; try (apply Hk; lia).
  destruct Hk as [H4 HQ]; [lia|lia|]. split; [lia|done].
Qed.

Lemma peek_runs n toks : runs n (peek s es toks) (fun _ => True).
Proof. intros p Hp Hn. destruct (peek_run toks p Hp) as (b & p' & -> & H & _). done. Qed.

(** The same with the branches the other way round. *)
Lemma runs_token' {A} n toks (k : Z * nat * nat -> M nat A) k2 Q :
  (forall c, in_str toks c = true -> in_str whitespace c = false) ->
  (forall x, tok_ok x -> runs n (k x) Q) -> runs (S n) k2 Q ->
  runs (S n) (let! b := peek s es toks in if negb b then k2 else let! x := gettoken s es in k x) Q.
Proof.
  intros Ht Hk H2 p Hp Hn. pose proof (runs_token n toks k k2 Q Ht Hk H2 p Hp Hn) as H.
  destruct (peek_run toks p Hp) as (b & p1 & E & _). rewrite (bind_Ok _ _ _ _ _ E) in H.
  rewrite (bind_Ok _ _ _ _ _ E).
  by destruct b.
Qed.

Lemma runs_no_token' {A} toks (k1 k2 : M nat A) Q :
  runs 0 k2 Q -> runs 0 (let! b := peek s es toks in if negb b then k2 else k1) Q.
Proof.
  intros H2 p Hp Hn. pose proof (runs_no_token toks k1 k2 Q H2 p Hp Hn) as H.
  destruct (peek_run toks p Hp) as (b & p1 & E & _). rewrite (bind_Ok _ _ _ _ _ E) in H.
  rewrite (bind_Ok _ _ _ _ _ E).
  by destruct b.
Qed.

Lemma parsebacks_runs n fuel c :
  (n <= fuel)%nat -> cmd_ok c -> runs n (parsebacks s es fuel c) cmd_ok.
Proof.
  revert n c. induction fuel as [|f IH]; intros n c Hn Hc; cbn [parsebacks].
  { replace n with 0%nat by lia. by apply runs_no_token, runs_ret. }
  destruct n as [|n]; [by apply runs_no_token, runs_ret|].
  apply runs_token; [by apply no_ws| |by apply runs_ret]. intros _ _. by apply IH; [lia|].
Qed.

(** A binary node. *)
Lemma runs_rest n toks (c : cmd) (k : M nat cmd) (node : cmd -> cmd -> cmd) :
  (forall a b, cmd_ok a -> cmd_ok b -> cmd_ok (node a b)) -> cmd_ok c ->
  (forall c, in_str toks c = true -> in_str whitespace c = false) ->
  (forall m, n = S m -> runs m k cmd_ok) ->
  runs n (let! b := peek s es toks in
          if b then do! gettoken s es in let! r := k in ret (node c r) else ret c) cmd_ok.
Proof.
  intros Hnode Hc Ht Hk. destruct n as [|n]; [by apply runs_no_token, runs_ret|].
  apply runs_token; [done| |by apply runs_ret]. intros _ _.
  eapply runs_bind; [by apply Hk|]. intros r Hr. by apply runs_ret, Hnode.
Qed.

Lemma parse_runs fuel :
  (forall n, (4 * n + 3 <= fuel)%nat -> runs n (parseline s es fuel) cmd_ok) /\
  (forall n, (4 * n + 2 <= fuel)%nat -> runs n (parsepipe s es fuel) cmd_ok) /\
  (forall n, (4 * n + 1 <= fuel)%nat -> runs n (parseexec s es fuel) cmd_ok) /\
  (forall n, (4 * n + 4 <= fuel)%nat -> runs (S n) (parseblock s es fuel) cmd_ok).
Proof.
  induction fuel as [|f (IH1 & IH2 & IH3 & IH4)]; [split_and!; intros; lia|].
  assert (Hpair : forall a b, cmd_ok a -> cmd_ok b -> cmd_ok (PIPE a b) /\ cmd_ok (LIST a b)).
  { intros a b [H1 H2] [H3 H4]. split; (split; [by apply Forall_app|done]). }
  assert (Hempty : cmd_ok execcmd) by (split; [constructor|cbn; unfold MAXARGS; lia]).
  split_and!; intros n Hn; cbn [parseline parsepipe parseexec parseblock].
  - eapply runs_bind; [apply IH2; lia|]. intros c Hc.
    eapply runs_bind; [by apply runs_any, parsebacks_runs|]. intros c' Hc'.
    apply (runs_rest n [59] c' (parseline s es f) listcmd);
      [intros; by apply Hpair|done|by apply no_ws|]. intros m ->. apply IH1. lia.
  - eapply runs_bind; [apply IH3; lia|]. intros c Hc.
    apply (runs_rest n [124] c (parsepipe s es f) pipecmd);
      [intros; by apply Hpair|done|by apply no_ws|]. intros m ->. apply IH2. lia.
  - assert (Hargs : runs n (let! r := parseredirs s es es execcmd in parseargs s es (S es) [] r) cmd_ok).
    { eapply runs_bind; [by apply runs_any, parseredirs_runs|]. intros r Hr.
      apply runs_any, parseargs_runs; [lia|constructor|cbn; unfold MAXARGS; lia|done]. }
    destruct n as [|n]; [by apply runs_no_token|].
    eapply runs_bind; [apply peek_runs|]. intros [|] _; [|done]. apply IH4. lia.
  - apply runs_token'; [by apply no_ws| |apply runs_panic]. intros _ _.
    eapply runs_bind; [apply IH1; lia|]. intros c Hc.
    destruct n as [|n]; [apply runs_no_token', runs_panic|].
    apply runs_token'; [by apply no_ws| |apply runs_panic]. intros _ _.
    by apply runs_any, parseredirs_runs.
Qed.

(** *** The NULs *)

Lemma nulterminate_words c buf : nulterminate c buf = foldl put_nul buf (words c).
Proof.
  revert buf. induction c; intros buf; cbn [nulterminate words]; rewrite ?foldl_app; [done| | | |done].
  - by rewrite IHc.
  - by rewrite IHc1, IHc2.
  - by rewrite IHc1, IHc2.
Qed.

Lemma nul_length ws buf : length (foldl put_nul buf ws) = length buf.
Proof.
  revert buf. induction ws as [|a ws IH]; intros buf; [done|]. cbn [foldl].
  by rewrite IH; apply length_insert.
Qed.

Lemma nul_nth ws buf x : (x < length buf)%nat ->
  nth x (foldl put_nul buf ws) 0 = if decide (x ∈ ws.*2) then 0 else nth x buf 0.
Proof.
  revert buf. induction ws as [|a ws IH]; intros buf Hx; [done|]. cbn [foldl fmap list_fmap].
  unfold put_nul at 2. rewrite IH by (by rewrite length_insert).
  destruct (decide (x ∈ ws.*2)) as [H1|H1].
  { by rewrite decide_True by (apply elem_of_cons; by right). }
  destruct (decide (a.2 = x)) as [Ea|Ea].
  - rewrite decide_True by (apply elem_of_cons; by left). subst x.
    by rewrite nth_insert, decide_True by done.
  - rewrite decide_False by (by intros [H|H]%elem_of_cons).
    destruct (decide (a.2 < length buf)%nat); [by rewrite nth_insert, decide_False by done|].
    by rewrite list_insert_ge by lia.
Qed.

Lemma nul_after ws buf n : Forall (fun a => a.2 < n)%nat ws ->
  drop n (foldl put_nul buf ws) = drop n buf.
Proof.
  intros H. revert buf. induction H as [|a ws Ha _ IH]; intros buf; [done|]. cbn [foldl].
  rewrite IH. unfold put_nul. by apply drop_insert_lt.
Qed.

Lemma strlen_nth u n : (n < length u)%nat -> (forall x, (x < n)%nat -> nth x u 0 <> 0) ->
  nth n u 0 = 0 -> strlen u = n.
Proof.
  revert n. induction u as [|c u IH]; intros n Hn Hx H0; [cbn in Hn; lia|]. cbn [strlen].
  destruct n as [|n]; [cbn in H0; by rewrite H0|].
  destruct (Z.eqb_spec c 0) as [E|]; [by destruct (Hx 0%nat ltac:(lia))|].
  f_equal. apply IH; [cbn in Hn; lia| |done]. intros x H. apply (Hx (S x)). lia.
Qed.

(** The NULs end the words and change none of them. *)
Lemma found_typed c a :
  cmd_ok c -> a ∈ words c -> found (nulterminate c s) a = typed s a.
Proof.
  intros [Hw _] Ha. rewrite nulterminate_words.
  pose proof (proj1 (Forall_forall _ _) Hw a Ha) as (H1 & H2 & H3). fold s in H2, H3.
  assert (Hlen : length s = (length l + S (length t))%nat) by (unfold s; by rewrite length_app).
  assert (Hin : forall x, (a.1 <= x < a.2)%nat -> x ∉ (words c).*2).
  { intros x Hx (b & -> & Hb)%list_elem_of_fmap.
    pose proof (proj1 (Forall_forall _ _) Hw b Hb) as (_ & _ & H4). fold s in H4.
    by rewrite (H2 _ Hx) in H4. }
  assert (Hnz : forall x, (a.1 <= x < a.2)%nat -> nth x s 0 <> 0).
  { intros x Hx E. specialize (H2 x Hx). by rewrite E in H2. }
  unfold found, typed, str. rewrite (strlen_nth _ (a.2 - a.1)).
  - apply (nth_ext _ _ 0 0); [by rewrite !length_take, !length_drop, nul_length|].
    intros x. rewrite length_take, length_drop, nul_length. intros Hx.
    rewrite !nth_firstn, !nth_skipn. destruct (Nat.ltb_spec x (a.2 - a.1)); [|done].
    rewrite nul_nth, decide_False by (try apply Hin; lia). done.
  - rewrite length_drop, nul_length. lia.
  - intros x Hx. rewrite nth_skipn, nul_nth, decide_False by (try apply Hin; lia). apply Hnz. lia.
  - rewrite nth_skipn. replace (a.1 + (a.2 - a.1))%nat with a.2 by lia.
    rewrite nul_nth, decide_True by (lia || by apply list_elem_of_fmap_2). done.
Qed.

(** (C36) The parser is safe on every line: it ends, either with a panic or
    with a command all of whose pointers delimit words of the line, with at
    most nine arguments each and redirections of descriptors 0 and 1.  The NULs it writes stay in the line, end
    every word, and change none, so the strings the command finds are the
    words as they were typed. *)
Theorem parsecmd_safe p0 :
  (exists msg, parsecmd (l ++ 0 :: t) p0 = Panic msg) \/
  (exists c buf p, parsecmd (l ++ 0 :: t) p0 = Ok ((c, buf), p) /\
     Forall word_at (words c) /\ shape c /\ length buf = length (l ++ 0 :: t) /\
     drop (S (length l)) buf = t /\
     view (found buf) c = view (typed (l ++ 0 :: t)) c).
Proof.
  unfold parsecmd. rewrite strlen_app by done. fold s es. mrun.
  destruct (parse_runs (4 * es + 4)) as [H _]. specialize (H es ltac:(lia) 0%nat ltac:(lia) ltac:(lia)).
  destruct (parseline s es (4 * es + 4) 0%nat) as [[c p1]|msg| | |] eqn:E; try done.
  - rewrite (bind_Ok _ _ _ _ _ E). destruct H as [Hp1 Hc]. clear E.
    destruct (peek_run [] p1) as (b & p2 & E & _); [lia|]. rewrite (bind_Ok _ _ _ _ _ E). mrun.
    destruct (p2 =? es)%nat; [right|left; by exists "syntax"%string].
    exists c, (nulterminate c s), p2. split; [done|]. split; [apply Hc|]. split; [apply Hc|].
    split_and!.
    + by rewrite nulterminate_words, nul_length.
    + rewrite nulterminate_words, nul_after.
      * unfold s. by rewrite cons_middle, app_assoc, drop_app_length' by (rewrite length_app; cbn; lia).
      * destruct Hc as [Hw _]. eapply Forall_impl; [exact Hw|]. intros a [Ha _]. lia.
    + apply view_ext, Forall_forall. intros a Ha. by apply found_typed.
  - left. exists msg. unfold bind. by rewrite E.
Qed.

End Safe.

Lemma parsecmd_safe_witness :
  exists c buf p, parsecmd (chars "ls >f" ++ 0 :: [7]) 0%nat = Ok ((c, buf), p) /\
    view (found buf) c = Redir (Exec [chars "ls"]) (chars "f") O_WRONLY_CREATE 1.
Proof.
  assert (Hl : Forall (fun c => c <> 0) (chars "ls >f")).
  { apply (bool_decide_unpack _). by vm_compute. }
  destruct (parsecmd_safe (chars "ls >f") [7] Hl 0%nat)
    as [[msg E]|(c & buf & p & E & _ & _ & _ & _ & Hv)]; [vm_compute in E; discriminate|].
  exists c, buf, p. split; [exact E|]. rewrite Hv. vm_compute in E. injection E as <- <- <-.
  reflexivity.
Defined.
