(* ===== verification/ShRound.v ===== *)
(** * The shell's parser reads back what is printed

    Commands print with as few parentheses as the grammar allows; the parser
    gives the command back. *)

From S2P Require Import Prelude Param Kernel Console Ulib Sh ShSpec.

(** ** Printing *)

Definition level (c : command) : nat :=
  match c with Exec _ | Redir _ _ _ _ => 0 | Pipe _ _ => 1 | Back _ => 2 | Seq _ _ => 3 end.

Definition word_text (w : list Z) : list Z := w ++ [32].
Definition redir_text (r : list Z * Z * Z) : list Z :=
  (if r.1.2 =? O_RDONLY then 60 else 62) :: word_text r.1.1.

Definition paren (k : nat) (c : command) (b : list Z) : list Z :=
  if (level c <=? k)%nat then b else 40 :: b ++ [41].

Fixpoint print (c : command) : list Z :=
  match c with
  | Exec argv => concat (word_text <$> argv)
  | Redir c f m d => paren 0 c (print c) ++ redir_text (f, m, d)
  | Pipe a b => paren 0 a (print a) ++ 124 :: paren 1 b (print b)
  | Back a => paren 2 a (print a) ++ [38]
  | Seq a b => paren 2 a (print a) ++ 59 :: print b
  end.
Definition print_at (k : nat) (c : command) : list Z := paren k c (print c).

Definition good_word (w : list Z) : Prop := w <> [] /\ Forall (fun c => wordc c = true) w.
Definition good_mode (m d : Z) : Prop := (m, d) = (O_RDONLY, 0) \/ (m, d) = (O_WRONLY_CREATE, 1).

Fixpoint good (c : command) : Prop :=
  match c with
  | Exec argv => Forall good_word argv /\ (length argv < MAXARGS)%nat
  | Redir c f m d => good c /\ good_word f /\ good_mode m d
  | Pipe a b => good a /\ good b
  | Seq a b => good a /\ good b
  | Back a => good a
  end.

Definition wrap (c : command) (r : list Z * Z * Z) : command := Redir c r.1.1 r.1.2 r.2.

(** What may follow a command at a level. *)
Definition follow (F : list Z) (rest : list Z) : Prop :=
  match rest with [] => True | c :: _ => c ∈ F end.
Definition F0 : list Z := [124; 41; 38; 59].
Definition F1 : list Z := [41; 38; 59].
Definition F2 : list Z := [41; 59].
Definition F3 : list Z := [41].

Definition nows (rest : list Z) : Prop :=
  match rest with [] => True | c :: _ => in_str whitespace c = false end.
Definition starts (toks rest : list Z) : bool :=
  match rest with [] => false | c :: _ => in_str toks c end.

Lemma wordc_ws c : wordc c = true -> in_str whitespace c = false /\ in_str symbols c = false /\ c <> 0.
Proof.
  unfold wordc. intros [H1 [H2 H3]%andb_true_iff]%andb_true_iff.
  apply negb_true_iff in H1, H2, H3. split_and!; [done|done|]. by apply Z.eqb_neq.
Qed.

Lemma follow_nows F rest : Forall (fun c => in_str whitespace c = false) F -> follow F rest -> nows rest.
Proof. destruct rest as [|c rest]; [done|]. cbn. rewrite Forall_forall. auto. Qed.

Section Round.
Variable l t : list Z.
Hypothesis Hl : Forall (fun c => c <> 0) l.
Let s := l ++ 0 :: t.
Let es := length l.

(** The parser is at [p], and [rest] is what is left of the line. *)
Definition at_ (p : nat) (rest : list Z) : Prop :=
  drop p l = rest /\ (p + length rest = length l)%nat.

Lemma at_app p a b : at_ p (a ++ b) -> at_ (p + length a) b.
Proof.
  intros [H1 H2]. rewrite length_app in H2. split; [|lia].
  by rewrite <- drop_drop, H1, drop_app_length.
Qed.

Lemma at_nth p rest k : at_ p rest -> (k < length rest)%nat -> nth (p + k) s 0 = nth k rest 0.
Proof.
  intros [H1 H2] Hk. unfold s. rewrite app_nth1 by lia. by rewrite <- H1, nth_skipn.
Qed.

Lemma at_le p rest : at_ p rest -> (p <= es)%nat.
Proof. intros [_ H]. unfold es. lia. Qed.

Lemma typed_at p w rest : at_ p (w ++ rest) -> typed s (p, p + length w)%nat = w.
Proof.
  intros [H1 H2]. rewrite length_app in H2. unfold typed, s. cbn [fst snd].
  rewrite drop_app_le by lia. rewrite H1, <- app_assoc.
  replace (p + length w - p)%nat with (length w) by lia. by rewrite take_app_length.
Qed.

(** ** Tokens *)

Lemma skip_unique f i j : (i <= j <= es)%nat -> (forall x, (i <= x < j)%nat -> f (nth x s 0) = true) ->
  ((j < es)%nat -> f (nth j s 0) = false) -> skip s es f i = j.
Proof.
  intros Hij H1 H2. destruct (skip_spec l t f i) as (H3 & H4 & H5); [fold es; lia|].
  fold s es in H3, H4, H5. set (k := skip s es f i) in *.
  destruct (lt_eq_lt_dec k j) as [[Hlt|]|Hlt]; [|done|].
  - rewrite H1 in H5 by lia. specialize (H5 ltac:(lia)). done.
  - rewrite H4 in H2 by lia. specialize (H2 ltac:(lia)). done.
Qed.

Lemma skip_ws p rest : at_ p rest -> nows rest -> skip s es (in_str whitespace) p = p.
Proof.
  intros Hp Hn. pose proof (at_le _ _ Hp). apply skip_unique; [lia|lia|]. intros Hlt.
  destruct rest as [|c rest]; [destruct Hp as [_ H1]; cbn in H1; unfold es in Hlt; lia|].
  pose proof (at_nth p _ 0 Hp ltac:(cbn; lia)) as E. rewrite Nat.add_0_r in E. by rewrite E.
Qed.

Lemma at_head p rest : at_ p rest -> nth p s 0 = hd 0 rest.
Proof.
  intros Hp. destruct rest as [|c rest].
  - destruct Hp as [_ H]. cbn in H. replace p with es by (unfold es; lia). apply (nth_end l t).
  - pose proof (at_nth p _ 0 Hp ltac:(cbn; lia)) as E. by rewrite Nat.add_0_r in E.
Qed.

Lemma at_nonzero p c rest : at_ p (c :: rest) -> c <> 0.
Proof.
  intros Hp. pose proof (at_head _ _ Hp) as E. cbn in E. rewrite <- E. apply (nth_line l t Hl).
  destruct Hp as [_ H]. cbn in H. lia.
Qed.

Lemma peek_at toks p rest : at_ p rest -> nows rest -> peek s es toks p = Ok (starts toks rest, p).
Proof.
  intros Hp Hn. unfold peek. mrun. rewrite (skip_ws p rest Hp Hn), (at_head p rest Hp).
  destruct rest as [|c rest]; [done|]. cbn [hd starts].
  destruct (Z.eqb_spec c 0) as [E|]; [by destruct (at_nonzero _ _ _ Hp)|done].
Qed.

Lemma gettoken_end p : at_ p [] -> gettoken s es p = Ok ((0, p, p), p).
Proof.
  intros Hp. unfold gettoken. mrun. rewrite (skip_ws p [] Hp I), (at_head p [] Hp). cbn [hd].
  rewrite Z.eqb_refl. mrun. by rewrite (skip_ws p [] Hp I).
Qed.

Lemma gettoken_sym p c rest : at_ p (c :: rest) -> c ∈ [124; 40; 41; 59; 38; 60] -> nows rest ->
  gettoken s es p = Ok ((c, p, S p), S p).
Proof.
  intros Hp Hc Hn. assert (Hp' : at_ (S p) rest).
  { pose proof (at_app p [c] rest Hp) as H. cbn in H. by rewrite Nat.add_1_r in H. }
  assert (Hw : nows (c :: rest)).
  { cbn. by repeat (apply elem_of_cons in Hc as [->|Hc]; [done|]); apply elem_of_nil in Hc. }
  unfold gettoken. mrun. rewrite (skip_ws p _ Hp Hw), (at_head p _ Hp). cbn [hd].
  destruct (Z.eqb_spec c 0); [by destruct (at_nonzero _ _ _ Hp)|].
  replace (_ || _) with true.
  - mrun. by rewrite (skip_ws _ _ Hp' Hn).
  - symmetry. by repeat (apply elem_of_cons in Hc as [->|Hc]; [done|]); apply elem_of_nil in Hc.
Qed.

Lemma at_S p c rest : at_ p (c :: rest) -> at_ (S p) rest.
Proof. intros Hp. pose proof (at_app p [c] rest Hp) as H. cbn in H. by rewrite Nat.add_1_r in H. Qed.

Lemma gettoken_gt p rest : at_ p (62 :: rest) -> hd 0 rest <> 62 -> nows rest ->
  gettoken s es p = Ok ((62, p, S p), S p).
Proof.
  intros Hp Hc Hn. pose proof (at_S _ _ _ Hp) as Hp'. unfold gettoken. mrun.
  rewrite (skip_ws p _ Hp eq_refl), (at_head p _ Hp), (at_head _ _ Hp'). cbn [hd].
  destruct (Z.eqb_spec (hd 0 rest) 62); [done|]. cbn [Z.eqb Pos.eqb orb]. mrun.
  by rewrite (skip_ws _ _ Hp' Hn).
Qed.

(** The space after a word. *)
Lemma skip_end p rest : at_ p (32 :: rest) -> nows rest -> skip s es (in_str whitespace) p = S p.
Proof.
  intros Hp Hn. pose proof (at_S _ _ _ Hp) as Hp'. pose proof (at_le _ _ Hp').
  apply skip_unique; [lia| |].
  - intros x Hx. replace x with p by lia. by rewrite (at_head _ _ Hp).
  - intros Hlt. rewrite (at_head _ _ Hp'). destruct rest as [|c rest]; [|done].
    destruct Hp' as [_ Hp']. cbn in Hp'. unfold es in Hlt. lia.
Qed.

Lemma gettoken_word p w rest : at_ p (word_text w ++ rest) -> good_word w -> nows rest ->
  gettoken s es p = Ok ((97, p, (p + length w)%nat), (p + length (word_text w))%nat).
Proof.
  intros Hp [Hne Hw] Hn. unfold word_text in *. rewrite <- app_assoc in Hp. cbn [app] in Hp.
  pose proof (at_app _ _ _ Hp) as Hp1. pose proof (at_S _ _ _ Hp1) as Hp2.
  destruct w as [|c w]; [done|]. pose proof Hw as [Hc _]%Forall_cons_1.
  destruct (wordc_ws c Hc) as (Hws & Hsym & Hz).
  unfold gettoken. mrun. rewrite (skip_ws p _ Hp Hws), (at_head p _ Hp). cbn [app hd].
  destruct (Z.eqb_spec c 0); [done|].
  assert (Hns : forall x, In x symbols -> (c =? x) = false).
  { intros x Hx. destruct (Z.eqb_spec c x) as [->|]; [|done]. exfalso. revert Hsym.
    repeat (destruct Hx as [<-|Hx]; [done|]). destruct Hx. }
  rewrite !Hns by (cbn; tauto). cbn [orb].
  rewrite (skip_unique _ p (p + length (c :: w))).
  - mrun. rewrite (skip_end _ _ Hp1 Hn). unfold ret. do 2 f_equal. cbn [length]. rewrite length_app.
    cbn [length]. lia.
  - destruct Hp1 as [_ Hp1]. unfold es. lia.
  - intros x Hx. replace x with (p + (x - p))%nat by lia.
    rewrite (at_nth _ _ _ Hp) by (rewrite length_app; lia). rewrite app_nth1 by lia.
    pose proof (proj1 (Forall_nth _ 0 _) Hw (x - p)%nat ltac:(lia)) as Hx'.
    destruct (wordc_ws _ Hx') as (-> & -> & _). done.
  - intros _. by rewrite (at_head _ _ Hp1).
Qed.

(** ** Redirections and arguments *)

Definition good_redir (r : list Z * Z * Z) : Prop := good_word r.1.1 /\ good_mode r.1.2 r.2.

Lemma nows_word w rest : good_word w -> nows (word_text w ++ rest).
Proof. destruct w as [|c w]; intros [Hne Hw]; [done|]. apply Forall_cons_1 in Hw as [Hc _]. apply (wordc_ws c Hc). Qed.

Lemma nows_redirs rs rest : nows rest -> nows (concat (redir_text <$> rs) ++ rest).
Proof. destruct rs as [|[[f m] d] rs]; [done|]. cbn. by destruct (m =? O_RDONLY). Qed.

(** One redirection. *)
Lemma redir_at fuel c p f m d rest :
  at_ p (redir_text (f, m, d) ++ rest) -> good_redir (f, m, d) -> nows rest ->
  exists q e, parseredirs s es (S fuel) c p =
    parseredirs s es fuel (REDIR c q e m d) (p + length (redir_text (f, m, d)))%nat /\
    typed s (q, e) = f.
Proof.
  intros Hp [Hf Hm] Hn. cbn [fst snd] in *.
  assert (Hp1 : at_ (S p) (word_text f ++ rest)) by exact (at_S _ _ _ Hp).
  assert (Hn1 : nows (word_text f ++ rest)) by by apply nows_word.
  assert (Hf62 : hd 0 (word_text f ++ rest) <> 62).
  { destruct f as [|c0 f]; destruct Hf as [Hne Hf]; [done|]. cbn.
    apply Forall_cons_1 in Hf as [Hc _]. intros ->. done. }
  pose proof (gettoken_word _ _ _ Hp1 Hf Hn) as E2. cbn [parseredirs].
  exists (S p), (S p + length f)%nat.
  assert (Hend : typed s (S p, (S p + length f)%nat) = f).
  { unfold word_text in Hp1. rewrite <- app_assoc in Hp1. by apply typed_at in Hp1. }
  assert (Hlen : (p + length (redir_text (f, m, d)))%nat = (S p + length (word_text f))%nat)
    by (unfold redir_text; cbn [length fst snd]; lia).
  split; [|done]. destruct Hm as [[= -> ->]|[= -> ->]].
  - rewrite (bind_Ok _ _ _ _ _ (peek_at [60; 62] p _ Hp eq_refl)).
    change (starts _ _) with true. cbv iota.
    rewrite (bind_Ok _ _ _ _ _ (gettoken_sym p 60 (word_text f ++ rest) Hp ltac:(set_solver) Hn1)).
    by rewrite (bind_Ok _ _ _ _ _ E2), Hlen.
  - rewrite (bind_Ok _ _ _ _ _ (peek_at [60; 62] p _ Hp eq_refl)).
    change (starts _ _) with true. cbv iota.
    rewrite (bind_Ok _ _ _ _ _ (gettoken_gt p (word_text f ++ rest) Hp Hf62 Hn1)).
    by rewrite (bind_Ok _ _ _ _ _ E2), Hlen.
Qed.

(** The tree [c'] is [c] with the redirections around it, also once the
    arguments are set. *)
Definition wrapped (c c' : cmd) (rs : list (list Z * Z * Z)) : Prop :=
  view (typed s) c' = foldl wrap (view (typed s) c) rs /\
  forall argv, view (typed s) (set_args argv c') = foldl wrap (view (typed s) (set_args argv c)) rs.

Lemma redirs_at fuel c p rs rest :
  at_ p (concat (redir_text <$> rs) ++ rest) -> Forall good_redir rs -> nows rest ->
  starts [60; 62] rest = false -> (length rs <= fuel)%nat ->
  exists c', parseredirs s es fuel c p = Ok (c', p + length (concat (redir_text <$> rs)))%nat /\
    wrapped c c' rs.
Proof.
  revert fuel c p. induction rs as [|[[f m] d] rs IH]; intros fuel c p Hp Hg Hn Hs Hf.
  { exists c. split; [|done]. cbn [fmap list_fmap concat length]. rewrite Nat.add_0_r.
    destruct fuel; cbn [parseredirs]; rewrite (bind_Ok _ _ _ _ _ (peek_at [60; 62] p _ Hp Hn));
      cbn [fmap list_fmap concat app]; by rewrite Hs. }
  destruct fuel as [|fuel]; [cbn in Hf; lia|]. apply Forall_cons_1 in Hg as [Hg1 Hg].
  cbn [fmap list_fmap concat] in Hp. rewrite <- app_assoc in Hp.
  destruct (redir_at fuel c p f m d _ Hp Hg1) as (q & e & -> & Ht); [by apply nows_redirs|].
  destruct (IH fuel (REDIR c q e m d) _ (at_app _ _ _ Hp)) as (c' & -> & H1 & H2); [done..|cbn in Hf; lia|].
  exists c'. cbn [fmap list_fmap concat]. rewrite length_app, Nat.add_assoc. split; [done|].
  split; [rewrite H1|intros argv; rewrite H2]; cbn [view set_args foldl wrap fst snd]; by rewrite Ht.
Qed.

Lemma F0_nows rest : follow F0 rest -> nows rest /\ starts [60; 62] rest = false.
Proof.
  destruct rest as [|c rest]; [done|]. cbn. intros Hc.
  by repeat (apply elem_of_cons in Hc as [->|Hc]; [done|]); apply elem_of_nil in Hc.
Qed.

Lemma starts_word toks w rest : good_word w -> Forall (fun c => in_str symbols c = true) toks ->
  starts toks (word_text w ++ rest) = false.
Proof.
  destruct w as [|c w]; intros [Hne Hw] Ht; [done|]. apply Forall_cons_1 in Hw as [Hc _].
  destruct (wordc_ws c Hc) as (_ & Hs & _). cbn [word_text app starts]. unfold in_str.
  destruct (strchr toks c) as [k|] eqn:E; [|done]. exfalso. revert k E.
  induction Ht as [|x toks Hx _ IH]; intros k; cbn [strchr]; [done|].
  destruct (x =? 0); [done|]. destruct (Z.eqb_spec x c) as [->|]; [congruence|].
  destruct (strchr toks c); [|done]. intros _. by eapply IH.
Qed.

Lemma redirs_count p rs rest : at_ p (concat (redir_text <$> rs) ++ rest) -> (length rs <= es)%nat.
Proof.
  intros [_ H]. rewrite length_app in H. unfold es.
  assert (length rs <= length (concat (redir_text <$> rs)))%nat; [|lia].
  clear H. induction rs as [|r rs IH]; [done|]. cbn [fmap list_fmap concat length].
  rewrite length_app. cbn [redir_text length]. lia.
Qed.

Lemma nows_words ws rest : Forall good_word ws -> nows rest -> nows (concat (word_text <$> ws) ++ rest).
Proof.
  destruct 1 as [|w ws Hw _]; [done|]. intros _. cbn [fmap list_fmap concat]. rewrite <- app_assoc.
  by apply nows_word.
Qed.

(** The redirections before and after the words [ws]. *)
Lemma redirs_split p (ws : list (list Z)) rs rest :
  at_ p (concat (word_text <$> ws) ++ concat (redir_text <$> rs) ++ rest) ->
  Forall good_word ws -> Forall good_redir rs -> nows rest -> starts [60; 62] rest = false ->
  exists rs1 rs2, rs = rs1 ++ rs2 /\ (ws <> [] \/ rs2 = []) /\ Forall good_redir rs2 /\
    forall r, exists r' p', parseredirs s es es r p = Ok (r', p') /\
      (forall argv, view (typed s) (set_args argv r') =
         foldl wrap (view (typed s) (set_args argv r)) rs1) /\
      at_ p' (concat (word_text <$> ws) ++ concat (redir_text <$> rs2) ++ rest).
Proof.
  intros Hp Hw Hg Hn Hs. destruct Hw as [|w ws Hw Hws].
  - exists rs, []. rewrite app_nil_r. split_and!; [done|by right|done|]. intros r.
    destruct (redirs_at es r p rs rest Hp) as (r' & E & _ & Hr'); [done..|by apply (redirs_count p rs rest)|].
    exists r', (p + length (concat (redir_text <$> rs)))%nat. split_and!; [done|done|].
    exact (at_app p (concat (redir_text <$> rs)) rest Hp).
  - exists [], rs. split_and!; [done|by left|done|]. intros r.
    destruct (redirs_at es r p [] _ Hp) as (r' & E & _ & Hr'); [done| | |cbn; lia|].
    + by apply nows_words; [constructor|apply nows_redirs].
    + cbn [fmap list_fmap concat]. rewrite <- app_assoc. apply starts_word; [done|].
      apply (bool_decide_unpack _). by vm_compute.
    + exists r', p. cbn [fmap list_fmap concat length] in E. rewrite Nat.add_0_r in E. done.
Qed.

(** One argument. *)
Lemma arg_at fuel argv r p w rest :
  at_ p (word_text w ++ rest) -> good_word w -> nows rest -> (S (length argv) < MAXARGS)%nat ->
  exists a, typed s a = w /\ parseargs s es (S fuel) argv r p =
    (let! r := parseredirs s es es r in parseargs s es fuel (argv ++ [a]) r)
      (p + length (word_text w))%nat.
Proof.
  intros Hp Hw Hn Hm. exists (p, (p + length w)%nat).
  pose proof (gettoken_word _ _ _ Hp Hw Hn) as E. split.
  { unfold word_text in Hp. rewrite <- app_assoc in Hp. by apply typed_at in Hp. }
  cbn [parseargs].
  rewrite (bind_Ok _ _ _ _ _ (peek_at [124; 41; 38; 59] p _ Hp (nows_word _ _ Hw))).
  rewrite starts_word by (done || (apply (bool_decide_unpack _); by vm_compute)).
  rewrite (bind_Ok _ _ _ _ _ E). cbn [Z.eqb Pos.eqb negb]. rewrite length_app. cbn [length].
  by destruct (Nat.leb_spec MAXARGS (length argv + 1)); [lia|].
Qed.

Lemma args_at fuel argv r p ws rs rest :
  at_ p (concat (word_text <$> ws) ++ concat (redir_text <$> rs) ++ rest) ->
  Forall good_word ws -> Forall good_redir rs -> follow F0 rest -> (ws <> [] \/ rs = []) ->
  (length argv + length ws < MAXARGS)%nat -> (length ws < fuel)%nat ->
  exists c' p' argv', parseargs s es fuel argv r p = Ok (c', p') /\ at_ p' rest /\
    typed s <$> argv' = ws /\
    view (typed s) c' = foldl wrap (view (typed s) (set_args (argv ++ argv') r)) rs.
Proof.
  intros Hp Hw. revert fuel argv r p rs Hp.
  induction Hw as [|w ws Hw Hws IH]; intros fuel argv r p rs Hp Hg Hf Hor Hm Hfuel;
    destruct (F0_nows rest Hf) as [Hn Hs]; (destruct fuel as [|fuel]; [lia|]).
  - destruct Hor as [|Hrs]; [done|]. subst rs. exists (set_args argv r), p, []. rewrite app_nil_r.
    cbn [fmap list_fmap concat length app] in *. split_and!; [|done..]. cbn [parseargs].
    rewrite (bind_Ok _ _ _ _ _ (peek_at [124; 41; 38; 59] p _ Hp Hn)).
    destruct rest as [|c rest]; cbn [starts].
    + by rewrite (bind_Ok _ _ _ _ _ (gettoken_end p Hp)).
    + replace (in_str _ c) with true; [done|]. cbn in Hf.
      symmetry. by repeat (apply elem_of_cons in Hf as [->|Hf]; [done|]); apply elem_of_nil in Hf.
  - cbn [fmap list_fmap concat] in Hp. rewrite <- app_assoc in Hp. cbn [length] in Hm, Hfuel.
    assert (Hn2 : nows (concat (word_text <$> ws) ++ concat (redir_text <$> rs) ++ rest))
      by by apply nows_words, nows_redirs.
    destruct (arg_at fuel argv r p w _ Hp Hw Hn2) as (a & Ha & ->); [lia|]. apply at_app in Hp.
    destruct (redirs_split _ ws rs rest Hp) as (rs1 & rs2 & -> & Hor2 & Hg2 & Hr); [done..|].
    destruct (Hr r) as (r' & p1 & E & Hr' & Hp1). rewrite (bind_Ok _ _ _ _ _ E). clear E Hr.
    destruct (IH fuel (argv ++ [a]) r' _ rs2 Hp1) as (c' & p' & argv' & E1 & E2 & E3 & E4);
      [done..|rewrite length_app; cbn [length]; lia|lia|].
    exists c', p', (a :: argv'). split_and!; [done|done| |].
    + cbn [fmap list_fmap]. by rewrite Ha, E3.
    + by rewrite E4, Hr', foldl_app, <- app_assoc.
Qed.

(** ** Commands *)

Definition back_n (k : nat) (c : command) : command := Nat.iter k Back c.
Definition redirs_text (rs : list (list Z * Z * Z)) : list Z := concat (redir_text <$> rs).

(** Each function parses what is printed at its level; [parseexec] also takes
    further redirections, and the loop over & further ones. *)
Definition PE (c : command) : Prop := forall fuel p rs rest,
  at_ p (print_at 0 c ++ redirs_text rs ++ rest) -> Forall good_redir rs -> follow F0 rest ->
  (4 * (es - p) + 1 <= fuel)%nat ->
  exists x p', parseexec s es fuel p = Ok (x, p') /\ at_ p' rest /\
    view (typed s) x = foldl wrap c rs.
Definition PP (c : command) : Prop := forall fuel p rest,
  at_ p (print_at 1 c ++ rest) -> follow F1 rest -> (4 * (es - p) + 2 <= fuel)%nat ->
  exists x p', parsepipe s es fuel p = Ok (x, p') /\ at_ p' rest /\ view (typed s) x = c.
Definition PB (c : command) : Prop := forall fuel p k rest,
  at_ p (print_at 2 c ++ replicate k 38 ++ rest) -> follow F2 rest ->
  (4 * (es - p) + 2 <= fuel)%nat ->
  exists x p', (let! c := parsepipe s es fuel in parsebacks s es es c) p = Ok (x, p') /\
    at_ p' rest /\ view (typed s) x = back_n k c.
Definition PL (c : command) : Prop := forall fuel p rest,
  at_ p (print_at 3 c ++ rest) -> follow F3 rest -> (4 * (es - p) + 3 <= fuel)%nat ->
  exists x p', parseline s es fuel p = Ok (x, p') /\ at_ p' rest /\ view (typed s) x = c.

Lemma nows_print k c rest : good c -> nows rest -> nows (print_at k c ++ rest).
Proof.
  revert k rest. induction c as [argv|c IH f m d|a IHa b IHb|a IHa b IHb|a IHa]; intros k rest Hg Hn;
    unfold print_at, paren; (destruct (_ <=? k)%nat; [|done]); cbn [print good] in *.
  - by apply nows_words; [apply Hg|].
  - rewrite <- app_assoc. apply (IH 0%nat); [apply Hg|]. cbn. by destruct (m =? O_RDONLY).
  - rewrite <- app_assoc. by apply (IHa 0%nat); [apply Hg|].
  - rewrite <- app_assoc. by apply (IHa 2%nat); [apply Hg|].
  - rewrite <- app_assoc. by apply (IHa 2%nat).
Qed.

Lemma follow_sub F G rest : F ⊆ G -> follow F rest -> follow G rest.
Proof. destruct rest; [done|]. cbn. set_solver. Qed.

(** A symbol that may follow, or not. *)
Lemma starts_follow toks F rest :
  forallb (fun c => negb (in_str toks c)) F = true -> follow F rest -> starts toks rest = false.
Proof.
  destruct rest as [|c rest]; [done|]. cbn. intros H Hc. rewrite forallb_forall in H.
  apply list_elem_of_In, H in Hc. by apply negb_true_iff.
Qed.

(** The text of an EXEC command does not begin with a parenthesis. *)
Lemma starts_exec ws rs rest : Forall good_word ws -> follow F0 rest ->
  starts [40] (concat (word_text <$> ws) ++ redirs_text rs ++ rest) = false.
Proof.
  intros Hw Hf. destruct Hw as [|w ws Hw _].
  - destruct rs as [|[[f m] d] rs]; [by apply (starts_follow [40] F0)|].
    cbn. by destruct (m =? O_RDONLY).
  - cbn [fmap list_fmap concat]. rewrite <- app_assoc. apply starts_word; [done|].
    apply (bool_decide_unpack _). by vm_compute.
Qed.

Lemma words_count (ws : list (list Z)) : (length ws <= length (concat (word_text <$> ws)))%nat.
Proof.
  induction ws as [|w ws IH]; [done|]. cbn [fmap list_fmap concat length].
  unfold word_text at 1. rewrite !length_app. cbn [length]. lia.
Qed.

Lemma exec_PE ws : good (Exec ws) -> PE (Exec ws).
Proof.
  intros [Hw Hm] fuel p rs rest Hp Hg Hf Hfuel. destruct fuel as [|fuel]; [lia|]. cbn [parseexec].
  unfold print_at, paren in Hp. cbn [level Nat.leb print] in Hp.
  destruct (F0_nows rest Hf) as [Hn Hs].
  assert (Hn1 : nows (concat (word_text <$> ws) ++ redirs_text rs ++ rest))
    by by apply nows_words, nows_redirs.
  rewrite (bind_Ok _ _ _ _ _ (peek_at [40] p _ Hp Hn1)), starts_exec by done.
  destruct (redirs_split _ ws rs rest Hp) as (rs1 & rs2 & -> & Hor & Hg2 & Hr); [done..|].
  destruct (Hr execcmd) as (r' & p1 & E & Hr' & Hp1). rewrite (bind_Ok _ _ _ _ _ E).
  destruct (args_at (S es) [] r' p1 ws rs2 rest Hp1) as (c' & p' & argv' & E1 & E2 & E3 & E4);
    [done..| |].
  { destruct Hp1 as [_ Hp1]. rewrite !length_app in Hp1. pose proof (words_count ws). unfold es. lia. }
  exists c', p'. split_and!; [done|done|]. rewrite E4, Hr', foldl_app. cbn [app set_args execcmd view].
  by rewrite E3.
Qed.

Lemma redir_PE c f m d : good_redir (f, m, d) -> PE c -> PE (Redir c f m d).
Proof.
  intros Hr Hc fuel p rs rest Hp Hg Hf Hfuel.
  destruct (Hc fuel p ((f, m, d) :: rs) rest) as (x & p' & E & H1 & H2); [|by constructor|done..|].
  - unfold print_at, paren in Hp. cbn [level Nat.leb print] in Hp.
    unfold redirs_text in *. cbn [fmap list_fmap concat]. by rewrite <- app_assoc in *.
  - by exists x, p'.
Qed.

(** A command in parentheses. *)
Lemma paren_PE c : (0 < level c)%nat -> good c -> PL c -> PE c.
Proof.
  intros Hl0 Hgc Hc fuel p rs rest Hp Hg Hf Hfuel. destruct (F0_nows rest Hf) as [Hn Hs].
  assert (H3 : print_at 3 c = print c) by (unfold print_at, paren; by destruct c).
  assert (H0 : print_at 0 c = 40 :: print c ++ [41]) by (unfold print_at, paren; destruct c; cbn in *; done || lia).
  rewrite H0 in Hp. cbn [app] in Hp. rewrite <- app_assoc in Hp. cbn [app] in Hp.
  assert (Hn1 : nows (print c ++ 41 :: redirs_text rs ++ rest)) by (rewrite <- H3; by apply nows_print).
  assert (Hlt : (p < es)%nat) by (destruct Hp as [_ Hp]; cbn in Hp; unfold es; lia).
  destruct fuel as [|[|fuel]]; [lia|lia|]. cbn [parseexec parseblock].
  do 2 (rewrite (bind_Ok _ _ _ _ _ (peek_at [40] p _ Hp eq_refl));
    cbn [starts in_str strchr Z.eqb Pos.eqb negb]).
  rewrite (bind_Ok _ _ _ _ _ (gettoken_sym p 40 _ Hp ltac:(set_solver) Hn1)). apply at_S in Hp.
  destruct (Hc fuel (S p) (41 :: redirs_text rs ++ rest)) as (x & p1 & E & Hp1 & Hx);
    [by rewrite H3|set_solver|lia|].
  rewrite (bind_Ok _ _ _ _ _ E). clear E.
  assert (Hn2 : nows (redirs_text rs ++ rest)) by by apply nows_redirs.
  rewrite (bind_Ok _ _ _ _ _ (peek_at [41] p1 _ Hp1 eq_refl)). cbn [starts in_str strchr Z.eqb Pos.eqb negb].
  rewrite (bind_Ok _ _ _ _ _ (gettoken_sym p1 41 _ Hp1 ltac:(set_solver) Hn2)). apply at_S in Hp1.
  destruct (redirs_at es x (S p1) rs rest Hp1) as (y & E & Hy & _); [done..|by eapply redirs_count|].
  exists y, (S p1 + length (redirs_text rs))%nat. split_and!; [done|by apply at_app in Hp1|].
  by rewrite Hy, Hx.
Qed.

Lemma lift_PP c : level c <> 1%nat -> good c -> PE c -> PP c.
Proof.
  intros Hc Hg HE fuel p rest Hp Hf Hfuel. destruct fuel as [|fuel]; [lia|]. cbn [parsepipe].
  destruct (HE fuel p [] rest) as (x & p' & E & H1 & H2).
  - cbn [redirs_text fmap list_fmap concat app]. revert Hp. unfold print_at, paren. by destruct c.
  - constructor.
  - revert Hf. apply follow_sub. set_solver.
  - lia.
  - rewrite (bind_Ok _ _ _ _ _ E). exists x, p'.
    assert (Hn : nows rest) by (eapply follow_nows; [|exact Hf]; apply (bool_decide_unpack _); by vm_compute).
    rewrite (bind_Ok _ _ _ _ _ (peek_at [124] p' _ H1 Hn)).
    by rewrite (starts_follow [124] F1).
Qed.

Lemma pipe_PP a b : good a -> good b -> PE a -> PP b -> PP (Pipe a b).
Proof.
  intros Hga Hgb Ha Hb fuel p rest Hp Hf Hfuel. destruct fuel as [|fuel]; [lia|]. cbn [parsepipe].
  unfold print_at, paren in Hp. cbn [level Nat.leb print] in Hp. rewrite <- app_assoc in Hp. cbn [app] in Hp.
  fold (print_at 0 a) (print_at 1 b) in Hp.
  assert (Hn : nows rest) by (eapply follow_nows; [|exact Hf]; apply (bool_decide_unpack _); by vm_compute).
  destruct (Ha fuel p [] (124 :: print_at 1 b ++ rest)) as (x & p1 & E & Hp1 & Hx);
    [done|constructor|set_solver|lia|].
  rewrite (bind_Ok _ _ _ _ _ E), (bind_Ok _ _ _ _ _ (peek_at [124] p1 _ Hp1 eq_refl)).
  cbn [starts in_str strchr Z.eqb Pos.eqb].
  rewrite (bind_Ok _ _ _ _ _ (gettoken_sym p1 124 _ Hp1 ltac:(set_solver) (nows_print 1 b rest Hgb Hn))).
  pose proof (at_S _ _ _ Hp1) as Hp2. destruct Hp as [_ Hp], Hp1 as [_ Hp1]. rewrite length_app in Hp. cbn [length] in Hp, Hp1.
  destruct (Hb fuel (S p1) rest Hp2 Hf) as (y & p2 & E2 & Hp3 & Hy); [unfold es; lia|].
  rewrite (bind_Ok _ _ _ _ _ E2). exists (PIPE x y), p2. split_and!; [done|done|]. cbn [view].
  by rewrite Hx, Hy.
Qed.

Lemma backs_at fuel c p k rest :
  at_ p (replicate k 38 ++ rest) -> follow F2 rest -> (k <= fuel)%nat ->
  exists x p', parsebacks s es fuel c p = Ok (x, p') /\ at_ p' rest /\
    view (typed s) x = back_n k (view (typed s) c).
Proof.
  intros Hp Hf. assert (Hn : nows rest) by (eapply follow_nows; [|exact Hf]; apply (bool_decide_unpack _); by vm_compute).
  revert fuel c p Hp. induction k as [|k IH]; intros fuel c p Hp Hk.
  - exists c, p. split_and!; [|done|done]. destruct fuel; cbn [parsebacks replicate app] in *;
      rewrite (bind_Ok _ _ _ _ _ (peek_at [38] p _ Hp Hn)); by rewrite (starts_follow [38] F2).
  - destruct fuel as [|fuel]; [lia|]. cbn [parsebacks replicate app] in *.
    rewrite (bind_Ok _ _ _ _ _ (peek_at [38] p _ Hp eq_refl)). cbn [starts in_str strchr Z.eqb Pos.eqb].
    rewrite (bind_Ok _ _ _ _ _ (gettoken_sym p 38 _ Hp ltac:(set_solver) ltac:(by destruct k))).
    apply at_S in Hp. destruct (IH fuel (backcmd c) _ Hp) as (x & p' & -> & H1 & H2); [lia|].
    exists x, p'. split_and!; [done|done|]. rewrite H2. cbn [view backcmd]. unfold back_n.
    by rewrite Nat.iter_succ_r.
Qed.

Lemma lift_PB c : level c <> 2%nat -> PP c -> PB c.
Proof.
  intros Hc HP fuel p k rest Hp Hf Hfuel.
  destruct (HP fuel p (replicate k 38 ++ rest)) as (x & p1 & E & Hp1 & Hx).
  - revert Hp. unfold print_at, paren. by destruct c.
  - destruct k; [|cbn; set_solver]. revert Hf. apply follow_sub. set_solver.
  - lia.
  - rewrite (bind_Ok _ _ _ _ _ E). destruct (backs_at es x p1 k rest Hp1 Hf) as (y & p2 & E2 & Hp2 & Hy).
    { destruct Hp1 as [_ Hp1]. rewrite length_app, length_replicate in Hp1. unfold es. lia. }
    exists y, p2. split_and!; [done|done|]. by rewrite Hy, Hx.
Qed.

Lemma back_PB a : PB a -> PB (Back a).
Proof.
  intros Ha fuel p k rest Hp Hf Hfuel. destruct (Ha fuel p (S k) rest) as (x & p' & E & H1 & H2);
    [|done..|].
  - unfold print_at, paren in Hp. cbn [level Nat.leb print] in Hp. by rewrite <- app_assoc in Hp.
  - exists x, p'. split_and!; [done|done|]. rewrite H2. unfold back_n. by rewrite Nat.iter_succ_r.
Qed.

Lemma lift_PL c : level c <> 3%nat -> PB c -> PL c.
Proof.
  intros Hc HB fuel p rest Hp Hf Hfuel. destruct fuel as [|fuel]; [lia|]. cbn [parseline].
  assert (Hn : nows rest) by (eapply follow_nows; [|exact Hf]; apply (bool_decide_unpack _); by vm_compute).
  destruct (HB fuel p 0%nat rest) as (x & p' & E & H1 & H2).
  - revert Hp. unfold print_at, paren. by destruct c.
  - revert Hf. apply follow_sub. set_solver.
  - lia.
  - rewrite <- bind_bind, (bind_Ok _ _ _ _ _ E). exists x, p'.
    rewrite (bind_Ok _ _ _ _ _ (peek_at [59] p' _ H1 Hn)). by rewrite (starts_follow [59] F3).
Qed.

Lemma seq_PL a b : good b -> PB a -> PL b -> PL (Seq a b).
Proof.
  intros Hgb Ha Hb fuel p rest Hp Hf Hfuel. destruct fuel as [|fuel]; [lia|]. cbn [parseline].
  assert (Hn : nows rest) by (eapply follow_nows; [|exact Hf]; apply (bool_decide_unpack _); by vm_compute).
  assert (H3 : print_at 3 b = print b) by (unfold print_at, paren; by destruct b).
  unfold print_at, paren in Hp. cbn [level Nat.leb print] in Hp. rewrite <- app_assoc in Hp. cbn [app] in Hp.
  fold (print_at 2 a) in Hp.
  destruct (Ha fuel p 0%nat (59 :: print b ++ rest)) as (x & p1 & E & Hp1 & Hx); [done|set_solver|lia|].
  rewrite <- bind_bind, (bind_Ok _ _ _ _ _ E), (bind_Ok _ _ _ _ _ (peek_at [59] p1 _ Hp1 eq_refl)).
  cbn [starts in_str strchr Z.eqb Pos.eqb].
  assert (Hn1 : nows (print b ++ rest)) by (rewrite <- H3; by apply nows_print).
  rewrite (bind_Ok _ _ _ _ _ (gettoken_sym p1 59 _ Hp1 ltac:(set_solver) Hn1)).
  pose proof (at_S _ _ _ Hp1) as Hp2. destruct Hp as [_ Hp], Hp1 as [_ Hp1].
  rewrite length_app in Hp. cbn [length] in Hp, Hp1.
  destruct (Hb fuel (S p1) rest) as (y & p2 & E2 & Hp3 & Hy); [by rewrite H3|done|unfold es; lia|].
  rewrite (bind_Ok _ _ _ _ _ E2). exists (LIST x y), p2. split_and!; [done|done|]. cbn [view].
  by rewrite Hx, Hy.
Qed.

Lemma parses c : good c -> PE c /\ PP c /\ PB c /\ PL c.
Proof.
  assert (HPE : forall c, level c = 0%nat -> good c -> PE c -> PE c /\ PP c /\ PB c /\ PL c).
  { intros c0 H Hg HE. assert (HP : PP c0) by (apply lift_PP; [lia|done|done]).
    assert (HB : PB c0) by (apply lift_PB; [lia|done]).
    assert (HL : PL c0) by (apply lift_PL; [lia|done]). auto. }
  induction c as [argv|c IH f m d|a IHa b IHb|a IHa b IHb|a IHa]; intros Hg.
  - apply HPE; [done|done|]. by apply exec_PE.
  - apply HPE; [done|done|]. destruct Hg as (Hc & Hf & Hm). apply redir_PE; [done|]. by apply IH.
  - assert (HP : PP (Pipe a b)) by (apply pipe_PP; [apply Hg..|by apply IHa, Hg|by apply IHb, Hg]).
    assert (HB : PB (Pipe a b)) by by apply lift_PB.
    assert (HL : PL (Pipe a b)) by by apply lift_PL.
    assert (HE : PE (Pipe a b)) by (apply paren_PE; [cbn; lia|done..]). auto.
  - assert (HL : PL (Seq a b)) by (apply seq_PL; [apply Hg|by apply IHa, Hg|by apply IHb, Hg]).
    assert (HE : PE (Seq a b)) by (apply paren_PE; [cbn; lia|done..]).
    assert (HP : PP (Seq a b)) by by apply lift_PP.
    assert (HB : PB (Seq a b)) by by apply lift_PB. auto.
  - assert (HB : PB (Back a)) by by apply back_PB, IHa.
    assert (HL : PL (Back a)) by by apply lift_PL.
    assert (HE : PE (Back a)) by (apply paren_PE; [cbn; lia|done..]).
    assert (HP : PP (Back a)) by by apply lift_PP. auto.
Qed.

End Round.

(** What holds of the characters of words, of spaces and of the symbols, holds
    of the printed form. *)
Lemma print_chars (P : Z -> Prop) c : (forall x, wordc x = true -> P x) -> Forall P (32 :: symbols) ->
  good c -> Forall P (print c).
Proof.
  intros HP HS. rewrite Forall_cons in HS. destruct HS as [H32 HS]. rewrite Forall_forall in HS.
  assert (Hw : forall w, good_word w -> Forall P (word_text w)).
  { intros w [_ H]. apply Forall_app. split; [|by repeat constructor]. eapply Forall_impl; [exact H|done]. }
  assert (Hp : forall k c b, Forall P b -> Forall P (paren k c b)).
  { intros k c0 b Hb. unfold paren. destruct (_ <=? k)%nat; [done|]. constructor; [apply HS; set_solver|].
    apply Forall_app. split; [done|]. constructor; [apply HS; set_solver|done]. }
  induction c as [argv|c IH f m d|a IHa b IHb|a IHa b IHb|a IHa]; cbn [good print]; intros Hg.
  - destruct Hg as [Hg _]. induction Hg as [|w ws Hx _ IH]; [constructor|].
    cbn [fmap list_fmap concat]. apply Forall_app. auto.
  - apply Forall_app. split; [by apply Hp, IH, Hg|]. unfold redir_text. cbn [fst snd].
    constructor; [destruct (m =? O_RDONLY); apply HS; set_solver|]. by apply Hw, Hg.
  - apply Forall_app. split; [by apply Hp, IHa, Hg|]. constructor; [apply HS; set_solver|]. by apply Hp, IHb, Hg.
  - apply Forall_app. split; [by apply Hp, IHa, Hg|]. constructor; [apply HS; set_solver|]. by apply IHb, Hg.
  - apply Forall_app. split; [by apply Hp, IHa, Hg|]. constructor; [apply HS; set_solver|done].
Qed.

Lemma print_nonzero c : good c -> Forall (fun x => x <> 0) (print c).
Proof.
  apply print_chars; [intros x Hx; apply (wordc_ws x Hx)|]. apply (bool_decide_unpack _). by vm_compute.
Qed.

(** (C37) Printing and parsing: every command (its words free of white space,
    symbols and NUL, at most nine arguments, and the modes of < or >) prints
    to a line on which the parser returns that command, with its words as
    strings, whatever follows the line in the buffer. *)
Theorem parse_print c t p0 :
  good c -> exists x buf p, parsecmd (print c ++ 0 :: t) p0 = Ok ((x, buf), p) /\
    view (found buf) x = c.
Proof.
  intros Hg. pose proof (print_nonzero c Hg) as Hz. set (l := print c).
  destruct (parses l t Hz c Hg) as (_ & _ & _ & HL).
  destruct (HL (4 * length l + 4)%nat 0%nat []) as (x & p & E & Hp & Hx);
    [unfold at_, print_at, paren; rewrite app_nil_r; by destruct c|done|lia|].
  destruct (parse_runs l t Hz (4 * length l + 4)) as [Hr _].
  specialize (Hr (length l) ltac:(lia) 0%nat ltac:(lia) ltac:(lia)). rewrite E in Hr.
  destruct Hr as [_ Hok]. unfold parsecmd. rewrite strlen_app by done. fold l. mrun.
  rewrite (bind_Ok _ _ _ _ _ E), (bind_Ok _ _ _ _ _ (peek_at l t Hz [] p [] Hp I)). mrun.
  destruct Hp as [_ Hp]. cbn in Hp. replace p with (length l) by lia. rewrite Nat.eqb_refl.
  eexists _, _, _. split; [reflexivity|]. rewrite <- Hx. apply view_ext, Forall_forall.
  intros a Ha. by apply found_typed.
Qed.

(** (echo hi > f ; cat) | wc & *)
Definition demo_cmd : command :=
  Back (Pipe (Seq (Redir (Exec [chars "echo"; chars "hi"]) (chars "f") O_WRONLY_CREATE 1)
                  (Exec [chars "cat"]))
             (Exec [chars "wc"])).

Lemma parse_print_witness :
  print demo_cmd = chars "(echo hi >f ;cat )|wc &" /\
  exists x buf p, parsecmd (print demo_cmd ++ 0 :: [0; 0]) 0%nat = Ok ((x, buf), p) /\
    view (found buf) x = demo_cmd.
Proof.
  split; [reflexivity|]. apply (parse_print demo_cmd [0; 0] 0%nat).
  assert (Hw : forall w, forallb wordc w && negb (bool_decide (w = [])) = true -> good_word w).
  { intros w [H1 H2]%andb_true_iff. split.
    - intros ->. done.
    - apply Forall_forall. intros x Hx. rewrite forallb_forall in H1. by apply H1, list_elem_of_In. }
  cbn [good demo_cmd]. unfold good_mode.
  repeat first [split | apply Forall_cons | apply Forall_nil | apply Hw; reflexivity | cbn; unfold MAXARGS; lia].
  by right.
Defined.
