(* ===== verification/Umalloc.v ===== *)
(** * The user memory allocator (umalloc.c)

    Memory is that of the process; a header is a word for [s.ptr] and a word
    for [s.size], 8 bytes.  [base] is the address of the static header.  The
    state holds [freep], the end of the process, and whether the kernel
    grants the next requests of sbrk. *)

From S2P Require Import Prelude Param Memory.

Record ust := { um : mem; freep : Z; brk : Z; grants : list bool }.
Definition set_um (m : mem) (s : ust) : ust :=
  {| um := m; freep := freep s; brk := brk s; grants := grants s |}.
Definition set_freep (p : Z) (s : ust) : ust :=
  {| um := um s; freep := p; brk := brk s; grants := grants s |}.

Definition sizeof_Header : Z := 8.

(** [p + n] on header pointers *)
Definition hplus (p n : Z) : Z := u32 (p + sizeof_Header * n).

Definition s_ptr (p : Z) : M ust Z := gets (fun s => ld32 (um s) p).
Definition s_size (p : Z) : M ust Z := gets (fun s => ld32 (um s) (p + 4)).
Definition set_ptr (p v : Z) : M ust unit := modify (fun s => set_um (st32 (um s) p v) s).
Definition set_size (p v : Z) : M ust unit := modify (fun s => set_um (st32 (um s) (p + 4) v) s).

Definition set_brk (b : Z) (g : list bool) (s : ust) : ust :=
  {| um := um s; freep := freep s; brk := b; grants := g |}.

(** The system call (sys_sbrk, growproc): the old end of the process, or -1.
    [grants] says whether allocuvm finds the pages; a process that shrinks to
    0 gets -1 and keeps its size. *)
Definition sbrk (n : Z) : M ust Z :=
  let! s := get in
  if 0 <? n then
    do! put (set_brk (brk s) (tail (grants s)) s) in
    if (brk s + n <? KERNBASE) && hd false (grants s) then
      do! put (set_brk (brk s + n) (tail (grants s)) s) in
      ret (brk s)
    else ret (2 ^ 32 - 1)
  else if n <? 0 then
    let sz := if brk s <=? u32 (brk s + n) then brk s else u32 (brk s + n) in
    if sz =? 0 then ret (2 ^ 32 - 1)
    else
      do! put (set_brk sz (grants s) s) in
      ret (brk s)
  else ret (brk s).

(** The loop of [free]. *)
Fixpoint free_find (fuel : nat) (bp p : Z) : M ust Z :=
  let! nx := s_ptr p in
  if (p <? bp) && (bp <? nx) then ret p
  else if (nx <=? p) && ((p <? bp) || (bp <? nx)) then ret p
  else
    match fuel with
    | O => out_of_fuel
    | S f => free_find f bp nx
    end.

Definition free (ap : Z) : M ust unit :=
  let bp := u32 (ap - sizeof_Header) in
  let! s := get in
  let! p := free_find (Z.to_nat (brk s / 8 + 2)) bp (freep s) in
  let! nx := s_ptr p in
  let! bsz := s_size bp in
  do! (if hplus bp bsz =? nx then
         let! nsz := s_size nx in
         do! set_size bp (u32 (bsz + nsz)) in
         let! nptr := s_ptr nx in
         set_ptr bp nptr
       else set_ptr bp nx) in
  let! psz := s_size p in
  do! (if hplus p psz =? bp then
         let! bsz := s_size bp in
         do! set_size p (u32 (psz + bsz)) in
         let! bptr := s_ptr bp in
         set_ptr p bptr
       else set_ptr p bp) in
  modify (set_freep p).

Definition morecore (nu : Z) : M ust Z :=
  let nu := if nu <? 4096 then 4096 else nu in
  let! p := sbrk (s32 (u32 (nu * sizeof_Header))) in
  if p =? 2 ^ 32 - 1 then ret 0
  else
    do! set_size p nu in
    do! free (hplus p 1) in
    gets freep.

(** The loop of [malloc]. *)
Fixpoint malloc_loop (fuel : nat) (nunits prevp p : Z) : M ust Z :=
  match fuel with
  | O => out_of_fuel
  | S f =>
      let! sz := s_size p in
      if nunits <=? sz then
        let! p :=
          (if sz =? nunits then
             let! nx := s_ptr p in
             do! set_ptr prevp nx in
             ret p
           else
             do! set_size p (u32 (sz - nunits)) in
             let! sz := s_size p in
             let p := hplus p sz in
             do! set_size p nunits in
             ret p) in
        do! modify (set_freep prevp) in
        ret (hplus p 1)
      else
        let! s := get in
        if p =? freep s then
          let! p := morecore nunits in
          if p =? 0 then ret 0
          else
            let! nx := s_ptr p in
            malloc_loop f nunits p nx
        else
          let! nx := s_ptr p in
          malloc_loop f nunits p nx
  end.

Definition nunits_of (nbytes : Z) : Z := u32 (u32 (nbytes + sizeof_Header - 1) / sizeof_Header + 1).

Definition malloc (base nbytes : Z) : M ust Z :=
  let nunits := nunits_of nbytes in
  let! s := get in
  let! prevp :=
    (if freep s =? 0 then
       do! modify (set_freep base) in
       do! set_ptr base base in
       do! set_size base 0 in
       ret base
     else ret (freep s)) in
  let! p := s_ptr prevp in
  malloc_loop (Z.to_nat (2 * (brk s / 8) + 8)) nunits prevp p.
