(* ===== verification/UmallocSpec.v ===== *)
(** * The user allocator: blocks are disjoint and none is lost

    The free list is a circle through [base] and the free blocks in the order
    of their addresses, no two of them adjacent. *)

From stdpp Require Import sorting.
From S2P Require Import Prelude Param Memory Umalloc.

(** A block: the address of its header and its units. *)
Abbreviation block := (Z * Z)%type.
Definition fin (a : block) : Z := a.1 + 8 * a.2.
Definition apart (a b : block) : Prop := fin a <= b.1 \/ fin b <= a.1.

Section Heap.
Variable base lo : Z.
Hypothesis Hbase : 0 < base.
Hypothesis Hlo : base + 8 <= lo.

Definition hd_addr (l : list block) (e : Z) : Z := match l with [] => e | x :: _ => x.1 end.

(** The headers of the blocks [l] are linked in order, the last to [e]. *)
Fixpoint chain (m : mem) (l : list block) (e : Z) : Prop :=
  match l with
  | [] => True
  | x :: l => ld32 m x.1 = hd_addr l e /\ ld32 m (x.1 + 4) = x.2 /\ chain m l e
  end.

Definition before (a b : block) : Prop := fin a < b.1 /\ a.1 + 8 <= b.1.
Definition in_heap (top : Z) (a : block) : Prop := 1 <= a.2 /\ lo <= a.1 /\ fin a <= top.

Record heap (fl al : list block) (s : ust) : Prop := {
  hp_chain : chain (um s) ((base, 0) :: fl) base;
  hp_sorted : StronglySorted before ((base, 0) :: fl);
  hp_free : Forall (in_heap (brk s)) fl;
  hp_used : Forall (in_heap (brk s)) al;
  hp_apart : Forall (fun a => Forall (apart a) fl) al;
  hp_disjoint : StronglySorted apart al;
  hp_sizes : Forall (fun a => ld32 (um s) (a.1 + 4) = a.2) al;
  hp_freep : freep s ∈ ((base, 0) :: fl).*1;
  hp_top : lo <= brk s < KERNBASE
}.

(** [s'] keeps the contents of the blocks [al]. *)
Definition kept (al : list block) (s s' : ust) : Prop :=
  forall a x, a ∈ al -> a.1 + 8 <= x < fin a -> ld8 (um s') x = ld8 (um s) x.

Lemma chain_app m l1 l2 e : chain m (l1 ++ l2) e <-> chain m l1 (hd_addr l2 e) /\ chain m l2 e.
Proof.
  induction l1 as [|x l1 IH]; cbn [app chain]; [tauto|]. rewrite IH.
  assert (E : hd_addr (l1 ++ l2) e = hd_addr l1 (hd_addr l2 e)) by by destruct l1.
  rewrite E. tauto.
Qed.

(** A write outside the headers keeps the chain. *)
Lemma chain_st32 m l e a v :
  Forall (fun x => a + 4 <= x.1 \/ x.1 + 8 <= a) l -> chain m l e -> chain (st32 m a v) l e.
Proof.
  induction 1 as [|x l Hx _ IH]; [done|]. cbn [chain]. intros (H1 & H2 & H3).
  rewrite !ld32_st32_ne by lia. auto.
Qed.

(** The writes stay in the headers at [hs]. *)
Definition touched (hs : list Z) (m m' : mem) : Prop :=
  forall x, Forall (fun h => ~ (h <= x < h + 8)) hs -> ld8 m' x = ld8 m x.

Lemma touched_refl hs m : touched hs m m.
Proof. by intros x _. Qed.
Lemma touched_trans hs m1 m2 m3 : touched hs m1 m2 -> touched hs m2 m3 -> touched hs m1 m3.
Proof. intros H1 H2 x Hx. by rewrite H2, H1. Qed.
Lemma touched_ptr hs m h v : h ∈ hs -> touched hs m (st32 m h v).
Proof. intros Hh x Hx. rewrite Forall_forall in Hx. specialize (Hx h Hh). apply ld8_st32_ne. lia. Qed.
Lemma touched_size hs m h v : h ∈ hs -> touched hs m (st32 m (h + 4) v).
Proof. intros Hh x Hx. rewrite Forall_forall in Hx. specialize (Hx h Hh). apply ld8_st32_ne. lia. Qed.
Lemma touched_ld32 hs m m' a :
  touched hs m m' -> Forall (fun h => a + 4 <= h \/ h + 8 <= a) hs -> ld32 m' a = ld32 m a.
Proof.
  intros Ht Ha. apply ld32_ext. intros i Hi. apply Ht. eapply Forall_impl; [exact Ha|]. cbn. lia.
Qed.
Lemma touched_chain hs m m' l e :
  touched hs m m' -> Forall (fun x => Forall (fun h => x.1 + 8 <= h \/ h + 8 <= x.1) hs) l ->
  chain m l e -> chain m' l e.
Proof.
  intros Ht. induction 1 as [|x l Hx _ IH]; [done|]. cbn [chain]. intros (H1 & H2 & H3).
  rewrite !(touched_ld32 hs m m') by first [done|eapply Forall_impl; [exact Hx|cbn; lia]]. auto.
Qed.

(** ** The list in order *)

Lemma heap_nodes fl al s : heap fl al s ->
  Forall (fun x => base <= x.1 /\ x.1 + 8 <= brk s /\ 0 <= x.2 /\ fin x <= brk s) ((base, 0) :: fl).
Proof.
  intros H. pose proof (hp_top _ _ _ H). constructor; [unfold fin; cbn; lia|].
  eapply Forall_impl; [exact (hp_free _ _ _ H)|]. unfold in_heap, fin. cbn. lia.
Qed.

(** The place of an address in the list. *)
Lemma split_at N bp :
  StronglySorted before N -> Forall (fun x => x.1 <> bp) N ->
  exists n1 n2, N = n1 ++ n2 /\ Forall (fun x => x.1 < bp) n1 /\ Forall (fun x => bp < x.1) n2.
Proof.
  intros Hs Hne. induction N as [|x N IH].
  - exists [], []. by repeat constructor.
  - apply StronglySorted_inv in Hs as [Hs Hx]. apply Forall_cons_1 in Hne as [Hxb Hne].
    destruct (Z_lt_le_dec x.1 bp) as [Hlt|Hge].
    + destruct IH as (n1 & n2 & -> & H1 & H2); [done..|]. exists (x :: n1), n2.
      split_and!; [done|by constructor|done].
    + exists [], (x :: N). split_and!; [done|constructor|]. constructor; [lia|].
      eapply Forall_impl; [exact Hx|]. unfold before. cbn. lia.
Qed.

(** *** The search of [free] *)

Lemma find_here k bp p n2 e s :
  p.1 < bp -> Forall (fun x => bp < x.1) n2 -> chain (um s) (p :: n2) e -> e <= p.1 -> e < bp ->
  free_find k bp p.1 s = Ok (p.1, s).
Proof.
  intros Hp Hn (H1 & _ & _) He Heb.
  destruct k; cbn [free_find]; unfold s_ptr; mrun; rewrite H1;
    (destruct (Z.ltb_spec p.1 bp); [|lia]); cbn [andb orb];
    (destruct n2 as [|y n2]; cbn [hd_addr];
      [destruct (Z.ltb_spec bp e); [lia|]; destruct (Z.leb_spec e p.1); [done|lia]
      |apply Forall_cons_1 in Hn as [Hy _]; destruct (Z.ltb_spec bp y.1); [done|lia]]).
Qed.

Lemma find_forward k bp l p n2 e s :
  chain (um s) (l ++ p :: n2) e -> StronglySorted before (l ++ p :: n2) ->
  Forall (fun x => x.1 < bp) l -> p.1 < bp -> Forall (fun x => bp < x.1) n2 ->
  Forall (fun x => e <= x.1) (l ++ [p]) -> e < bp -> (length l <= k)%nat ->
  free_find k bp (hd_addr (l ++ [p]) e) s = Ok (p.1, s).
Proof.
  revert k. induction l as [|q l IH]; intros k Hc Hs Hl Hp Hn He Heb Hk; cbn [app hd_addr] in *.
  { apply (find_here k bp p n2 e); try done. by apply Forall_cons_1 in He as [He _]. }
  destruct k as [|k]; [cbn in Hk; lia|]. destruct Hc as (H1 & _ & Hc).
  apply StronglySorted_inv in Hs as [Hs Hq]. apply Forall_cons_1 in Hl as [Hqb Hl].
  apply Forall_cons_1 in He as [_ He]. cbn [free_find]. unfold s_ptr. mrun. rewrite H1.
  assert (Enx : hd_addr (l ++ p :: n2) e = hd_addr (l ++ [p]) e) by by destruct l.
  assert (Hnx : q.1 < hd_addr (l ++ [p]) e < bp).
  { destruct l as [|y l]; cbn [app hd_addr]; (apply Forall_cons_1 in Hq as [[Hq1 Hq2] _]); [lia|].
    apply Forall_cons_1 in Hl as [Hl _]. lia. }
  rewrite Enx. destruct (Z.ltb_spec q.1 bp); [|lia]. destruct (Z.ltb_spec bp (hd_addr (l ++ [p]) e)); [lia|].
  destruct (Z.leb_spec (hd_addr (l ++ [p]) e) q.1); [lia|]. cbn [andb orb].
  apply IH; try done. cbn in Hk. lia.
Qed.

(** Past the last block the search starts again at [e]. *)
Lemma find_around k bp l e s :
  chain (um s) l e -> StronglySorted before l -> Forall (fun x => bp < x.1) l -> e < bp ->
  free_find (length l + k) bp (hd_addr l e) s = free_find k bp e s.
Proof.
  revert k. induction l as [|q l IH]; intros k Hc Hs Hl Heb; [done|].
  destruct Hc as (H1 & _ & Hc). apply StronglySorted_inv in Hs as [Hs Hq].
  apply Forall_cons_1 in Hl as [Hqb Hl]. cbn [length Nat.add free_find hd_addr].
  unfold s_ptr. mrun. rewrite H1. destruct (Z.ltb_spec q.1 bp); [lia|]. cbn [andb orb].
  destruct (Z.ltb_spec bp (hd_addr l e)).
  - destruct (Z.leb_spec (hd_addr l e) q.1); [|by apply IH].
    destruct l as [|y l]; cbn [hd_addr] in *; [lia|]. apply Forall_cons_1 in Hq as [[Hq1 Hq2] _]. lia.
  - rewrite andb_false_r. by apply IH.
Qed.

Lemma list_snoc {A} (l : list A) : l <> [] -> exists l' x, l = l' ++ [x].
Proof. intros H. destruct (exists_last H) as (l' & x & ->). eauto. Qed.

Lemma find_ok fl al s bp k :
  heap fl al s -> base < bp -> Forall (fun x => x.1 <> bp) fl ->
  (length ((base, 0%Z) :: fl) <= k)%nat ->
  exists n1 p n2, (base, 0) :: fl = n1 ++ p :: n2 /\ p.1 < bp /\ Forall (fun x => bp < x.1) n2 /\
    free_find k bp (freep s) s = Ok (p.1, s).
Proof.
  intros H Hb Hne Hk. set (N := (base, 0) :: fl) in *.
  assert (Hge : Forall (fun x => base <= x.1) N).
  { eapply Forall_impl; [exact (heap_nodes _ _ _ H)|]. cbn. lia. }
  destruct (split_at N bp (hp_sorted _ _ _ H)) as (m1 & n2 & EN & H1 & H2).
  { constructor; [cbn; lia|done]. }
  assert (Hm1 : m1 <> []) by (intros ->; cbn in EN; subst n2; apply Forall_cons_1 in H2 as [H2 _]; cbn in H2; lia).
  destruct (list_snoc m1 Hm1) as (n1 & p & ->). apply Forall_app in H1 as [H1 [Hp _]%Forall_cons_1].
  rewrite <- app_assoc in EN. cbn [app] in EN. exists n1, p, n2. split_and!; [done..|].
  pose proof (hp_chain _ _ _ H) as Hc. pose proof (hp_sorted _ _ _ H) as Hs.
  pose proof (hp_freep _ _ _ H) as Hf. fold N in Hc, Hs, Hf. rewrite EN in Hc, Hs, Hf, Hge, Hk.
  assert (Hall : forall k l1 l, n1 = l1 ++ l -> (length l <= k)%nat ->
    free_find k bp (hd_addr (l ++ [p]) base) s = Ok (p.1, s)).
  { intros k' l1 l -> Hl. rewrite <- app_assoc in Hc, Hs, Hge. apply chain_app in Hc as [_ Hc].
    apply (find_forward k' bp l p n2 base s); try done; [by apply StronglySorted_app_1_r in Hs|by apply Forall_app in H1 as [_ H1]|].
    apply Forall_app in Hge as [_ Hge]. change (p :: n2) with ([p] ++ n2) in Hge. rewrite app_assoc in Hge.
    by apply Forall_app in Hge as [Hge _]. }
  rewrite length_app in Hk. cbn [length] in Hk.
  apply list_elem_of_fmap in Hf as (q & Eq & Hq). rewrite Eq.
  apply elem_of_app in Hq as [Hq|[->|Hq]%elem_of_cons].
  - apply list_elem_of_split in Hq as (l1 & l & E). rewrite <- (Hall k l1 (q :: l)); [done|done|].
    rewrite E, length_app in Hk. cbn [length] in *. lia.
  - by apply (Hall k n1 []); [rewrite app_nil_r|cbn; lia].
  - apply list_elem_of_split in Hq as (l1 & l & ->). rewrite length_app in Hk. cbn [length] in Hk.
    replace k with (length (q :: l) + (k - length (q :: l)))%nat by (cbn [length]; lia).
    apply StronglySorted_app_1_r in Hs. apply StronglySorted_inv in Hs as [Hs _]. apply StronglySorted_app_1_r in Hs.
    apply chain_app in Hc as [_ (_ & _ & Hc)]. apply chain_app in Hc as [_ Hc].
    apply Forall_app in H2 as [_ H2].
    change q.1 with (hd_addr (q :: l) base). rewrite find_around by done.
    assert (Eb : base = hd_addr (n1 ++ [p]) base).
    { unfold N in EN. destruct n1; injection EN as E1 _; by rewrite <- E1. }
    rewrite Eb at 1. apply (Hall _ [] n1); [done|]. cbn [length]. lia.
Qed.

Lemma sorted_count l b top :
  StronglySorted before l -> Forall (fun x => b <= x.1 /\ x.1 + 8 <= top) l -> b <= top ->
  b + 8 * Z.of_nat (length l) <= top.
Proof.
  revert b. induction l as [|x l IH]; intros b Hs Hl Hb; [cbn; lia|].
  apply StronglySorted_inv in Hs as [Hs Hx]. apply Forall_cons_1 in Hl as [[H1 H2] Hl].
  assert (x.1 + 8 + 8 * Z.of_nat (length l) <= top); [|cbn [length]; lia].
  apply IH; [done| |done]. apply Forall_and in Hl as [_ Hl]. apply Forall_and. split; [|done].
  eapply Forall_impl; [exact Hx|]. unfold before. cbn. lia.
Qed.

Lemma heap_count fl al s : heap fl al s -> Z.of_nat (length ((base, 0%Z) :: fl)) <= brk s / 8.
Proof.
  intros H. pose proof (heap_nodes _ _ _ H) as Hn. pose proof (hp_top _ _ _ H).
  assert (8 * Z.of_nat (length ((base, 0%Z) :: fl)) <= brk s).
  { pose proof (sorted_count ((base, 0) :: fl) base (brk s) (hp_sorted _ _ _ H)) as Hc.
    enough (base + 8 * Z.of_nat (length ((base, 0%Z) :: fl)) <= brk s) by lia.
    apply Hc; [|lia]. eapply Forall_impl; [exact Hn|]. cbn. lia. }
  apply Z.div_le_lower_bound; lia.
Qed.

(** *** Joining a block with the next *)

Definition join (x : block) (l : list block) : list block :=
  match l with
  | y :: r => if fin x =? y.1 then (x.1, x.2 + y.2) :: r else x :: l
  | [] => [x]
  end.

Lemma join_sorted x l :
  StronglySorted before l -> Forall (fun y => x.1 + 8 <= y.1 /\ fin x <= y.1) l ->
  StronglySorted before (join x l).
Proof.
  intros Hs Hl. destruct l as [|y r]; cbn [join]; [by repeat constructor|].
  pose proof Hs as [Hr Hy]%StronglySorted_inv. apply Forall_cons_1 in Hl as [Hxy Hl].
  unfold before, fin in *. destruct (Z.eqb_spec (x.1 + 8 * x.2) y.1) as [E|E].
  - constructor; [done|]. apply Forall_forall. intros z Hz. rewrite Forall_forall in Hy, Hl.
    specialize (Hy z Hz). specialize (Hl z Hz). cbn in *. lia.
  - constructor; [done|]. constructor; [lia|]. eapply Forall_impl; [exact Hy|]. cbn. lia.
Qed.

(** What holds of both parts of a joint block holds of the block. *)
Lemma join_all (P : block -> Prop) x l :
  P x -> Forall P l -> (forall y, fin x = y.1 -> P y -> P (x.1, x.2 + y.2)) -> Forall P (join x l).
Proof.
  intros Hx Hl HP. destruct l as [|y r]; cbn [join]; [by constructor|].
  pose proof Hl as [Hy Hr]%Forall_cons_1.
  destruct (Z.eqb_spec (fin x) y.1); constructor; auto.
Qed.

Lemma join_hd x l : Forall (fun y => 0 <= y.2) l ->
  exists x' r, join x l = x' :: r /\ x'.1 = x.1 /\ x.2 <= x'.2.
Proof.
  intros Hl. destruct l as [|y r]; cbn [join]; [exists x, []; split_and!; done || lia|].
  apply Forall_cons_1 in Hl as [Hy _].
  destruct (_ =? _); eexists _, _; (split; [reflexivity|]); cbn; split; done || lia.
Qed.

(** The block is in one of the blocks of the list. *)
Lemma join_covers p x l : 0 <= p.2 -> Forall (fun y => 0 <= y.2) l ->
  exists b, b ∈ join p (join x l) /\ x.2 <= b.2.
Proof.
  intros Hp Hl. destruct (join_hd x l Hl) as (x' & r & -> & H1 & H2). cbn [join].
  destruct (_ =? _).
  - eexists. split; [apply elem_of_cons; by left|]. cbn. lia.
  - exists x'. split; [|done]. apply elem_of_cons. right. apply elem_of_cons. by left.
Qed.

(** Only the first node is [base]. *)
Lemma nodes_intro N (P : block -> Prop) :
  hd_error N = Some (base, 0) -> StronglySorted before N ->
  (forall z, z ∈ N -> z = (base, 0) \/ P z) -> exists fl, N = (base, 0) :: fl /\ Forall P fl.
Proof.
  intros Hhd Hs Hall. destruct N as [|z N]; [done|]. injection Hhd as ->. exists N. split; [done|].
  apply StronglySorted_inv in Hs as [_ Hs]. apply Forall_forall. intros z Hz.
  destruct (Hall z) as [->|]; [set_solver| |done].
  rewrite Forall_forall in Hs. destruct (Hs _ Hz) as [_ Hb]. cbn in Hb. lia.
Qed.

(** *** Giving a block back *)

Section Join.
Variable fl al n1 n2 : list block.
Variable x p : block.
Variable s : ust.
Hypothesis H : heap fl (x :: al) s.
Hypothesis HN : (base, 0) :: fl = n1 ++ p :: n2.
Hypothesis Hpx : p.1 < x.1.
Hypothesis Hn2 : Forall (fun y => x.1 < y.1) n2.

Lemma x_heap : in_heap (brk s) x.
Proof. by apply (Forall_cons_1 _ _ _ (hp_used _ _ _ H)). Qed.

Lemma node_cases y : y ∈ n1 ++ p :: n2 -> y = (base, 0) \/ (y ∈ fl /\ in_heap (brk s) y /\ apart x y).
Proof.
  rewrite <- HN. intros [->|Hy]%elem_of_cons; [by left|right]. split; [done|].
  pose proof (hp_free _ _ _ H) as Hf. rewrite Forall_forall in Hf.
  pose proof (hp_apart _ _ _ H) as [Ha _]%Forall_cons_1. rewrite Forall_forall in Ha. auto.
Qed.

Lemma p_before : p.1 + 8 <= x.1 /\ fin p <= x.1 /\ 0 <= p.2 /\ base <= p.1.
Proof.
  pose proof x_heap as (Hx1 & Hx2 & Hx3).
  destruct (node_cases p) as [->|(_ & (H1 & H2 & H3) & H4)]; [set_solver|cbn; unfold fin; cbn; lia|].
  unfold apart, fin in *. lia.
Qed.

Lemma n2_after : Forall (fun y => x.1 + 8 <= y.1 /\ fin x <= y.1 /\ 1 <= y.2 /\ fin y <= brk s) n2.
Proof.
  pose proof x_heap as (Hx1 & Hx2 & Hx3). rewrite Forall_forall in Hn2. apply Forall_forall.
  intros y Hy. specialize (Hn2 y Hy).
  destruct (node_cases y) as [->|(_ & (H1 & H2 & H3) & H4)]; [set_solver|cbn in Hn2; lia|].
  unfold apart, fin in *. lia.
Qed.

Lemma n2_sorted : StronglySorted before n2.
Proof.
  pose proof (hp_sorted _ _ _ H) as Hs. rewrite HN in Hs. apply StronglySorted_app_1_r in Hs.
  by apply StronglySorted_inv in Hs as [Hs _].
Qed.

Definition joined : list block := n1 ++ join p (join x n2).

Lemma joined_sorted : StronglySorted before joined.
Proof.
  pose proof p_before as Hp. pose proof n2_after as Hn. pose proof x_heap as (Hx1 & Hx2 & Hx3).
  pose proof (hp_sorted _ _ _ H) as Hs. rewrite HN in Hs.
  assert (Hu : StronglySorted before (join x n2)).
  { apply join_sorted; [apply n2_sorted|]. eapply Forall_impl; [exact Hn|]. cbn. lia. }
  assert (Hge : Forall (fun y => x.1 <= y.1) (join x n2)).
  { apply join_all; [lia| |intros; cbn; lia]. eapply Forall_impl; [exact Hn|]. cbn. lia. }
  apply StronglySorted_app. split_and!.
  - intros q z Hq Hz. assert (Hqp : before q p) by (eapply StronglySorted_app_1_elem_of; [exact Hs|done|set_solver]).
    assert (Hpz : Forall (fun y => p.1 <= y.1) (join p (join x n2))).
    { apply join_all; [lia| |intros; cbn; lia]. eapply Forall_impl; [exact Hge|]. cbn. lia. }
    rewrite Forall_forall in Hpz. specialize (Hpz z Hz). unfold before in *. lia.
  - by apply StronglySorted_app_1_l in Hs.
  - apply join_sorted; [done|]. eapply Forall_impl; [exact Hge|]. cbn. lia.
Qed.

Lemma joined_fl : exists fl', joined = (base, 0) :: fl' /\ Forall (in_heap (brk s)) fl' /\
  Forall (fun a => Forall (apart a) fl') al /\ exists b, b ∈ fl' /\ x.2 <= b.2.
Proof.
  pose proof p_before as Hp. pose proof n2_after as Hn. pose proof x_heap as (Hx1 & Hx2 & Hx3).
  set (good z := in_heap (brk s) z /\ Forall (fun a => apart a z) al).
  pose proof (hp_disjoint _ _ _ H) as [_ Hxa]%StronglySorted_inv.
  pose proof (hp_used _ _ _ H) as [_ Hu]%Forall_cons_1.
  assert (Hmerge : forall q y, q = (base, 0) \/ good q -> fin q = y.1 -> y = (base, 0) \/ good y ->
    (q.1, q.2 + y.2) = (base, 0) \/ good (q.1, q.2 + y.2)).
  { intros q y [->|[(Q1 & Q2 & Q3) Q4]] E [->|[(Y1 & Y2 & Y3) Y4]]; unfold fin in E; cbn in E.
    - by left.
    - lia.
    - lia.
    - right. split; [unfold in_heap, fin in *; cbn; lia|]. apply Forall_forall. intros a Ha.
      rewrite Forall_forall in Q4, Y4, Hu. destruct (Hu a Ha) as (A1 & A2 & A3).
      specialize (Q4 a Ha). specialize (Y4 a Ha). unfold apart, fin in *. cbn. lia. }
  assert (Hnode : forall y, y ∈ n1 ++ p :: n2 -> y = (base, 0) \/ good y).
  { intros y Hy. destruct (node_cases y Hy) as [->|(Hf & Hh & _)]; [by left|right]. split; [done|].
    pose proof (hp_apart _ _ _ H) as [_ Ha]%Forall_cons_1. eapply Forall_impl; [exact Ha|].
    cbn. intros a Hall. rewrite Forall_forall in Hall. auto. }
  assert (Hx : x = (base, 0) \/ good x).
  { right. split; [done|]. eapply Forall_impl; [exact Hxa|]. unfold apart. cbn. lia. }
  assert (Hall : Forall (fun y => y = (base, 0) \/ good y) joined).
  { unfold joined. apply Forall_app. split; [apply Forall_forall; intros; apply Hnode; set_solver|].
    apply join_all; [apply Hnode; set_solver| |intros y E Hy; apply Hmerge; [apply Hnode; set_solver|done|done]].
    apply join_all; [done|apply Forall_forall; intros; apply Hnode; set_solver|].
    intros y E Hy. by apply Hmerge. }
  assert (Hn0 : Forall (fun y => 0 <= y.2) n2) by (eapply Forall_impl; [exact Hn|]; cbn; lia).
  assert (Hhd : hd_error joined = Some (base, 0)).
  { unfold joined. destruct n1 as [|q n1']; injection HN as E1 E2; [|by rewrite <- E1].
    rewrite <- E1 in Hpx |- *.
    destruct (join_hd x n2 Hn0) as (x' & r & -> & Ex & _). cbn [app join].
    destruct (Z.eqb_spec (fin (base, 0)) x'.1) as [E|]; [|done].
    unfold fin in E. cbn in E, Hpx. lia. }
  destruct (nodes_intro joined good Hhd joined_sorted) as (fl' & Ef & Hgood).
  { intros z Hz. rewrite Forall_forall in Hall. auto. }
  exists fl'. split_and!; [done| | |].
  - eapply Forall_impl; [exact Hgood|]. by intros z [Hz _].
  - apply Forall_forall. intros a Ha. eapply Forall_impl; [exact Hgood|]. intros z [_ Hz].
    rewrite Forall_forall in Hz. auto.
  - destruct (join_covers p x n2) as (b & Hb & Hxb); [lia|done|]. exists b. split; [|done].
    assert (Hbj : b ∈ joined) by (unfold joined; set_solver). rewrite Ef in Hbj.
    apply elem_of_cons in Hbj as [->|]; [cbn in Hxb; lia|done].
Qed.

End Join.

(** *** The code that joins two blocks *)

Definition join_code (q sz nx : Z) : M ust unit :=
  if hplus q sz =? nx then
    let! nsz := s_size nx in
    do! set_size q (u32 (sz + nsz)) in
    let! nptr := s_ptr nx in
    set_ptr q nptr
  else set_ptr q nx.

Lemma set_um_um m m' s : set_um m (set_um m' s) = set_um m s.
Proof. done. Qed.

Lemma join_run q l s :
  ld32 (um s) (q.1 + 4) = q.2 -> chain (um s) l base ->
  0 <= q.1 -> 0 <= q.2 -> fin q < KERNBASE -> (l = [] -> base < fin q) ->
  Forall (fun y => q.1 + 8 <= y.1 < KERNBASE /\ 0 <= y.2 /\ fin y < KERNBASE) l ->
  exists m', join_code q.1 q.2 (hd_addr l base) s = Ok (tt, set_um m' s) /\
    touched [q.1] (um s) m' /\ chain m' (join q l) base.
Proof.
  intros Hsz Hc Hq1 Hq2 Hfin Hnil Hl. unfold join_code, hplus, sizeof_Header.
  assert (Hk : KERNBASE < 2 ^ 32) by done.
  rewrite u32_small by (unfold fin in *; lia). fold (fin q).
  assert (Hne : Forall (fun y => Forall (fun h => y.1 + 8 <= h \/ h + 8 <= y.1) [q.1]) l).
  { eapply Forall_impl; [exact Hl|]. cbn. intros y Hy. constructor; [lia|constructor]. }
  assert (Hset : forall v, 0 <= v < 2 ^ 32 -> v = hd_addr l base ->
    touched [q.1] (um s) (st32 (um s) q.1 v) /\ chain (st32 (um s) q.1 v) (q :: l) base).
  { intros v Hv Ev. assert (Ht : touched [q.1] (um s) (st32 (um s) q.1 v)) by (apply touched_ptr; set_solver).
    split; [done|]. cbn [chain]. rewrite ld32_st32_eq, ld32_st32_ne, u32_small by lia.
    split_and!; [done|done|]. by apply (touched_chain [q.1] (um s)). }
  destruct l as [|y r]; cbn [join hd_addr] in *.
  - specialize (Hnil eq_refl). destruct (Z.eqb_spec (fin q) base); [lia|].
    eexists. split; [reflexivity|]. apply Hset; [lia|done].
  - pose proof Hl as [Hy _]%Forall_cons_1. destruct (Z.eqb_spec (fin q) y.1) as [E|E].
    2: { eexists. split; [reflexivity|]. apply Hset; [lia|done]. }
    destruct Hc as (C1 & C2 & C3). unfold s_size, s_ptr, set_size, set_ptr. mrun. rewrite C2.
    set (m1 := st32 (um s) (q.1 + 4) (u32 (q.2 + y.2))).
    assert (Ht1 : touched [q.1] (um s) m1) by (apply touched_size; set_solver).
    assert (Ep : ld32 m1 y.1 = hd_addr r base).
    { unfold m1. rewrite ld32_st32_ne by lia. done. }
    cbn [um set_um]. rewrite Ep. exists (st32 m1 q.1 (hd_addr r base)). split; [reflexivity|].
    assert (Hr : 0 <= hd_addr r base < 2 ^ 32) by (rewrite <- Ep; apply ld32_range).
    assert (Ht : touched [q.1] (um s) (st32 m1 q.1 (hd_addr r base)))
      by (eapply touched_trans; [exact Ht1|apply touched_ptr; set_solver]).
    split; [done|]. cbn [chain fst snd]. split_and!.
    + by rewrite ld32_st32_eq, u32_small.
    + rewrite ld32_st32_ne by lia. unfold m1. rewrite ld32_st32_eq. unfold fin in *.
      rewrite !u32_small; lia || (rewrite u32_small; lia).
    + apply (touched_chain [q.1] (um s)); [done| |done]. by apply Forall_cons_1 in Hne as [_ Hne].
Qed.

Lemma s_ptr_run p s : s_ptr p s = Ok (ld32 (um s) p, s).
Proof. done. Qed.
Lemma s_size_run p s : s_size p s = Ok (ld32 (um s) (p + 4), s).
Proof. done. Qed.

Lemma touched_weaken hs hs' m m' : hs ⊆ hs' -> touched hs m m' -> touched hs' m m'.
Proof.
  intros Hs Ht x Hx. apply Ht. rewrite Forall_forall in *. auto.
Qed.

(** Blocks in use keep their contents and sizes. *)
Lemma touched_used al hs s m' :
  touched hs (um s) m' -> Forall (fun a => 1 <= a.2 /\ Forall (fun h => fin a <= h \/ h + 8 <= a.1) hs) al ->
  kept al s (set_um m' s) /\
  (Forall (fun a => ld32 (um s) (a.1 + 4) = a.2) al -> Forall (fun a => ld32 m' (a.1 + 4) = a.2) al).
Proof.
  intros Ht Ha. split.
  - intros a x Hin Hx. apply Ht. rewrite Forall_forall in Ha. destruct (Ha a Hin) as [_ Hh].
    eapply Forall_impl; [exact Hh|]. cbn. lia.
  - intros Hs. apply Forall_forall. intros a Hin. rewrite Forall_forall in Ha, Hs.
    rewrite (touched_ld32 hs (um s)); [auto|done|]. destruct (Ha a Hin) as [H1 Hh].
    eapply Forall_impl; [exact Hh|]. unfold fin. cbn. lia.
Qed.

(** The two joins. *)
Lemma joins_run fl al n1 n2 x p s :
  heap fl (x :: al) s -> (base, 0) :: fl = n1 ++ p :: n2 -> p.1 < x.1 ->
  Forall (fun y => x.1 < y.1) n2 ->
  exists m', (forall k : M ust unit,
      (let! nx := s_ptr p.1 in
       let! bsz := s_size x.1 in
       do! join_code x.1 bsz nx in
       let! psz := s_size p.1 in
       do! join_code p.1 psz x.1 in
       k) s = k (set_um m' s)) /\
    touched [x.1; p.1] (um s) m' /\ chain m' (joined n1 n2 x p) base.
Proof.
  intros H HN Hpx Hn2. pose proof (x_heap _ _ _ _ H) as (X1 & X2 & X3).
  pose proof (p_before _ _ _ _ _ _ _ H HN Hpx Hn2) as (P1 & P2 & P3 & P4).
  pose proof (n2_after _ _ _ _ _ _ _ H HN Hpx Hn2) as Hn. pose proof (hp_top _ _ _ H) as Ht.
  pose proof (hp_chain _ _ _ H) as Hc. rewrite HN in Hc. apply chain_app in Hc as [Hc1 (Hc2 & Hc3 & Hc4)].
  pose proof (hp_sizes _ _ _ H) as [Hxs _]%Forall_cons_1.
  destruct (join_run x n2 s) as (m1 & E1 & T1 & C1); [done|done|lia|lia|lia|unfold fin; lia| |].
  { eapply Forall_impl; [exact Hn|]. unfold fin. cbn. lia. }
  assert (Hps : ld32 m1 (p.1 + 4) = p.2)
    by (rewrite (touched_ld32 [x.1] (um s) m1 _ T1); [done|constructor; [cbn beta; lia|constructor]]).
  assert (Hn0 : Forall (fun y => 0 <= y.2) n2) by (eapply Forall_impl; [exact Hn|]; cbn; lia).
  assert (Ehd : hd_addr (join x n2) base = x.1) by (by destruct (join_hd x n2 Hn0) as (x' & r & -> & Ex & _)).
  destruct (join_run p (join x n2) (set_um m1 s)) as (m2 & E2 & T2 & C2).
  - exact Hps.
  - done.
  - lia.
  - done.
  - unfold fin in *; lia.
  - intros E. by rewrite E in Ehd; cbn in Ehd; lia.
  - apply join_all; [unfold fin in *; lia| |].
    + eapply Forall_impl; [exact Hn|]. unfold fin. cbn. lia.
    + intros y E. unfold fin in *. cbn. lia.
  - rewrite Ehd in E2. exists m2. split.
    { intros k. rewrite (bind_Ok _ _ _ _ _ (s_ptr_run p.1 s)), (bind_Ok _ _ _ _ _ (s_size_run x.1 s)), Hc2, Hxs.
      rewrite (bind_Ok _ _ _ _ _ E1), (bind_Ok _ _ _ _ _ (s_size_run p.1 _)).
      cbn [um set_um]. by rewrite Hps, (bind_Ok _ _ _ _ _ E2). }
    assert (T : touched [x.1; p.1] (um s) m2).
    { eapply touched_trans; eapply touched_weaken; [|exact T1| |exact T2]; set_solver. }
    split; [done|]. unfold joined. apply chain_app. split; [|done].
    destruct (join_hd p (join x n2)) as (p' & r & -> & Ep & _).
    { apply join_all; [lia|done|]. intros y E Hy. cbn in *. lia. }
    cbn [hd_addr]. rewrite Ep. apply (touched_chain [x.1; p.1] (um s)); [done| |done].
    pose proof (hp_sorted _ _ _ H) as Hs. rewrite HN in Hs. apply Forall_forall. intros q Hq.
    assert (Hb : before q p) by (eapply StronglySorted_app_1_elem_of; [exact Hs|done|set_solver]).
    unfold before in Hb. repeat (constructor; [cbn beta; lia|]). constructor.
Qed.

(** ** free *)

Lemma apart_ne fl al x s : heap fl (x :: al) s -> Forall (fun y => y.1 <> x.1) fl.
Proof.
  intros H. pose proof (hp_apart _ _ _ H) as [Ha _]%Forall_cons_1.
  pose proof (x_heap _ _ _ _ H) as (X1 & X2 & X3). pose proof (hp_free _ _ _ H) as Hf.
  apply Forall_forall. intros y Hy. rewrite Forall_forall in Ha, Hf.
  specialize (Ha y Hy). destruct (Hf y Hy) as (Y1 & _). unfold apart, fin in Ha. lia.
Qed.

(** A header in the list is outside the blocks in use. *)
Lemma node_outside fl al s a p :
  heap fl al s -> a ∈ al -> p ∈ (base, 0) :: fl -> fin a <= p.1 \/ p.1 + 8 <= a.1.
Proof.
  intros H Ha Hp. pose proof (hp_used _ _ _ H) as Hu. rewrite Forall_forall in Hu.
  destruct (Hu a Ha) as (A1 & A2 & A3). apply elem_of_cons in Hp as [->|Hp]; [cbn; lia|].
  pose proof (hp_apart _ _ _ H) as Hx. rewrite Forall_forall in Hx. specialize (Hx a Ha).
  rewrite Forall_forall in Hx. specialize (Hx p Hp).
  pose proof (hp_free _ _ _ H) as Hf. rewrite Forall_forall in Hf. destruct (Hf p Hp) as (P1 & _).
  unfold apart, fin in *. lia.
Qed.

Lemma free_ok fl al x s :
  heap fl (x :: al) s ->
  exists fl' s', free (x.1 + 8) s = Ok (tt, s') /\ heap fl' al s' /\ kept al s s' /\
    brk s' = brk s /\ (length fl' <= S (length fl))%nat /\ (exists b, b ∈ fl' /\ x.2 <= b.2).
Proof.
  intros H. pose proof (x_heap _ _ _ _ H) as (X1 & X2 & X3). pose proof (hp_top _ _ _ H) as Ht.
  pose proof (heap_count _ _ _ H) as Hcnt.
  destruct (find_ok fl (x :: al) s x.1 (Z.to_nat (brk s / 8 + 2)) H)
    as (n1 & p & n2 & HN & Hpx & Hn2 & Ef); [lia|by eapply apart_ne|lia|].
  destruct (joins_run _ _ _ _ _ _ _ H HN Hpx Hn2) as (m' & Ej & Tm & Cm).
  destruct (joined_fl _ _ _ _ _ _ _ H HN Hpx Hn2) as (fl' & Efl & Hin & Hap & Hcov).
  pose proof (joined_sorted _ _ _ _ _ _ _ H HN Hpx Hn2) as Hs. rewrite Efl in Hs, Cm.
  exists fl', (set_freep p.1 (set_um m' s)).
  assert (Hxd : Forall (fun a => 1 <= a.2 /\ Forall (fun h => fin a <= h \/ h + 8 <= a.1) [x.1; p.1]) al).
  { apply Forall_forall. intros a Ha. pose proof (hp_used _ _ _ H) as Hu. rewrite Forall_forall in Hu.
    destruct (Hu a ltac:(set_solver)) as (A1 & _). split; [done|].
    pose proof (hp_disjoint _ _ _ H) as [_ Hd]%StronglySorted_inv. rewrite Forall_forall in Hd.
    specialize (Hd a Ha). constructor; [unfold apart, fin in *; lia|]. constructor; [|constructor].
    apply (node_outside fl (x :: al) s a p H); [set_solver|]. rewrite HN. set_solver. }
  destruct (touched_used al [x.1; p.1] s m' Tm Hxd) as [Hk Hsz].
  assert (Hlen : (length fl' <= S (length fl))%nat).
  { assert (Hj : forall y l, (length (join y l) <= S (length l))%nat)
      by (intros y [|z l]; cbn [join]; [done|destruct (_ =? _); cbn; lia]).
    apply (f_equal length) in Efl, HN. unfold joined in Efl. rewrite length_app in *. cbn [length] in *.
    pose proof (Hj p (join x n2)). pose proof (Hj x n2). lia. }
  split; [|split; [|by split_and!]].
  - unfold free, sizeof_Header. rewrite bind_get.
    replace (x.1 + 8 - 8) with x.1 by lia. rewrite u32_small by (unfold fin in *; clia).
    rewrite (bind_Ok _ _ _ _ _ Ef). exact (Ej (modify (set_freep p.1))).
  - pose proof H as [C S F U A D Z P T]. split; try done.
    + by apply Forall_cons_1 in U as [_ U].
    + by apply StronglySorted_inv in D as [D _].
    + apply Hsz. by apply Forall_cons_1 in Z as [_ Z].
    + cbn [freep set_freep]. rewrite <- Efl. unfold joined.
      destruct (join_hd p (join x n2)) as (p' & r & -> & Ep & _); [|set_solver].
      pose proof (n2_after _ _ _ _ _ _ _ H HN Hpx Hn2) as Hn.
      apply join_all; [lia| |intros y _ Hy; cbn in *; lia]. eapply Forall_impl; [exact Hn|]. cbn. lia.
Qed.

(** ** malloc *)

(** *** Taking a block from the list *)

Section Carve.
Variable fl al A B : list block.
Variable q p : block.
Variable s : ust.
Variable nu : Z.
Hypothesis H : heap fl al s.
Hypothesis HN : (base, 0) :: fl = A ++ q :: p :: B.
Hypothesis Hnu : 1 <= nu <= p.2.

Lemma p_free : p ∈ fl.
Proof.
  assert (Hp : p ∈ (base, 0) :: fl) by (rewrite HN; set_solver).
  apply elem_of_cons in Hp as [E|]; [|done]. exfalso. rewrite E in Hnu. cbn in Hnu. lia.
Qed.

Lemma p_heap : in_heap (brk s) p.
Proof. pose proof (hp_free _ _ _ H) as Hf. rewrite Forall_forall in Hf. apply Hf, p_free. Qed.

Lemma p_sorted : StronglySorted before (A ++ [q]) /\ StronglySorted before B /\
  (forall a, a ∈ A ++ [q] -> before a p) /\ (forall b, b ∈ B -> before p b) /\
  (forall a b, a ∈ A ++ [q] -> b ∈ B -> before a b).
Proof.
  pose proof (hp_sorted _ _ _ H) as Hs. rewrite HN in Hs. change (q :: p :: B) with ([q] ++ p :: B) in Hs.
  rewrite app_assoc in Hs. apply StronglySorted_app in Hs as (H1 & H2 & [H3 H4]%StronglySorted_inv).
  rewrite Forall_forall in H4. split_and!; auto; intros; apply H1; set_solver.
Qed.

Lemma carve_hd l : hd_error (A ++ q :: l) = Some (base, 0).
Proof. destruct A; injection HN as E _; cbn; congruence. Qed.

Lemma other_good z : z ∈ A ++ q :: B -> z = (base, 0) \/
  (in_heap (brk s) z /\ Forall (fun a => apart a z) al /\ apart p z).
Proof.
  intros Hz. assert (Hzn : z ∈ (base, 0) :: fl) by (rewrite HN; set_solver).
  apply elem_of_cons in Hzn as [->|Hzf]; [by left|right].
  pose proof (hp_free _ _ _ H) as Hf. rewrite Forall_forall in Hf. split; [auto|]. split.
  - eapply Forall_impl; [exact (hp_apart _ _ _ H)|]. cbn. intros a Ha. rewrite Forall_forall in Ha. auto.
  - destruct p_sorted as (_ & _ & H1 & H2 & _). unfold apart.
    assert (Hz' : z ∈ (A ++ [q]) ++ B) by (rewrite <- app_assoc; exact Hz).
    apply elem_of_app in Hz' as [Hz'|Hz']; [destruct (H1 z Hz')|destruct (H2 z Hz')]; lia.
Qed.

Lemma p_used a : a ∈ al -> apart a p /\ 1 <= a.2.
Proof.
  intros Ha. pose proof (hp_apart _ _ _ H) as Hx. rewrite Forall_forall in Hx. specialize (Hx a Ha).
  rewrite Forall_forall in Hx. pose proof (hp_used _ _ _ H) as Hu. rewrite Forall_forall in Hu.
  split; [apply Hx, p_free|apply (Hu a Ha)].
Qed.

(** A part [x] of [p] goes into use, and [l] replaces [p] in the list. *)
Lemma carve_heap x l m' :
  (forall z, z ∈ l -> z.1 = p.1 /\ 1 <= z.2 /\ fin z <= x.1) -> (length l <= 1)%nat ->
  p.1 <= x.1 -> 1 <= x.2 -> fin x <= fin p -> ld32 m' (x.1 + 4) = x.2 ->
  Forall (fun a => ld32 m' (a.1 + 4) = a.2) al -> chain m' (A ++ q :: l ++ B) base ->
  exists fl', heap fl' (x :: al) (set_freep q.1 (set_um m' s)).
Proof.
  intros Hl Hlen Hx1 Hx2 Hx3 Hxs Hal Hc. pose proof p_heap as (P1 & P2 & P3).
  destruct p_sorted as (S1 & S2 & S3 & S4 & S5).
  assert (Hs : StronglySorted before (A ++ q :: l ++ B)).
  { change (q :: l ++ B) with ([q] ++ l ++ B). rewrite app_assoc.
    assert (Hlb : forall z b, z ∈ l -> b ∈ B -> before z b).
    { intros z b Hz Hb. destruct (Hl z Hz) as (E & L1 & L2). destruct (S4 b Hb).
      unfold before, fin in *. lia. }
    apply StronglySorted_app. split_and!; [|done|].
    - intros a b Ha [Hb|Hb]%elem_of_app; [|by apply S5]. destruct (Hl b Hb) as (E & _).
      destruct (S3 a Ha). unfold before in *. lia.
    - apply StronglySorted_app. split_and!; [done| |done].
      destruct l as [|z [|? ?]]; [constructor|by repeat constructor|cbn in Hlen; lia]. }
  destruct (nodes_intro _ (fun z => in_heap (brk s) z /\ Forall (fun a => apart a z) al /\ apart x z)
    (carve_hd (l ++ B)) Hs) as (fl' & Ef & Hg).
  { intros z Hz. assert (Hz' : z ∈ A ++ q :: B \/ z ∈ l) by set_solver. destruct Hz' as [Hz'|Hz'].
    - destruct (other_good z Hz') as [->|(G1 & G2 & G3)]; [by left|right]. split_and!; [done..|].
      destruct G1. unfold apart, fin in *. lia.
    - destruct (Hl z Hz') as (E & L1 & L2). right. split_and!; [unfold in_heap, fin in *; lia| |unfold apart; lia].
      apply Forall_forall. intros a Ha. destruct (p_used a Ha). unfold apart, fin in *. lia. }
  exists fl'. rewrite Ef in Hc, Hs. pose proof H as [C S F U D1 D2 Z P T]. split; try done.
  - eapply Forall_impl; [exact Hg|]. tauto.
  - constructor; [unfold in_heap; cbn; lia|done].
  - constructor; [eapply Forall_impl; [exact Hg|]; tauto|]. apply Forall_forall. intros a Ha.
    eapply Forall_impl; [exact Hg|]. cbn. intros z (_ & Hz & _). rewrite Forall_forall in Hz. auto.
  - constructor; [done|]. apply Forall_forall. intros a Ha. destruct (p_used a Ha).
    unfold apart, fin in *. lia.
  - by constructor.
  - cbn [freep set_freep]. rewrite <- Ef. set_solver.
Qed.

Definition take_code (prevp p sz : Z) : M ust Z :=
  let! p :=
    (if sz =? nu then
       let! nx := s_ptr p in
       do! set_ptr prevp nx in
       ret p
     else
       do! set_size p (u32 (sz - nu)) in
       let! sz := s_size p in
       let p := hplus p sz in
       do! set_size p nu in
       ret p) in
  do! modify (set_freep prevp) in
  ret (hplus p 1).

(** The block [x] of [nu] units is new, and the other blocks are as before. *)
Definition got (r : Z) (s' : ust) : Prop :=
  exists x fl', r = x.1 + 8 /\ x.2 = nu /\ heap fl' (x :: al) s' /\ kept al s s' /\ brk s' = brk s.

Lemma links : chain (um s) A q.1 /\ ld32 (um s) (q.1 + 4) = q.2 /\ ld32 (um s) q.1 = p.1 /\
  ld32 (um s) p.1 = hd_addr B base /\ ld32 (um s) (p.1 + 4) = p.2 /\ chain (um s) B base.
Proof.
  pose proof (hp_chain _ _ _ H) as Hc. rewrite HN in Hc.
  apply chain_app in Hc as (C1 & C2 & C3 & C4 & C5 & C6). done.
Qed.

Lemma small_hplus a n : 0 <= a -> 0 <= n -> a + 8 * n < KERNBASE + 8 -> hplus a n = a + 8 * n.
Proof. intros. unfold hplus, sizeof_Header. apply u32_small. clia. Qed.

Lemma headers_apart : q.1 + 8 <= p.1 /\ (forall a, a ∈ A -> a.1 + 8 <= q.1) /\
  (forall b, b ∈ B -> fin p <= b.1 /\ q.1 + 8 <= b.1) /\ base <= q.1.
Proof.
  destruct p_sorted as (S1 & S2 & S3 & S4 & S5). split_and!.
  - apply (S3 q). set_solver.
  - intros a Ha. apply StronglySorted_app in S1 as (S1 & _). apply (S1 a q Ha). set_solver.
  - intros b Hb. destruct (S4 b Hb), (S5 q b ltac:(set_solver) Hb). lia.
  - pose proof (heap_nodes _ _ _ H) as Hn. rewrite Forall_forall in Hn. apply (Hn q). rewrite HN. set_solver.
Qed.

Lemma used_apart hs : Forall (fun h => h = q.1 \/ p.1 <= h /\ h + 8 <= fin p) hs ->
  Forall (fun a => 1 <= a.2 /\ Forall (fun h => fin a <= h \/ h + 8 <= a.1) hs) al.
Proof.
  intros Hh. apply Forall_forall. intros a Ha. destruct (p_used a Ha) as [Hap Ha2]. split; [done|].
  eapply Forall_impl; [exact Hh|]. cbn. intros h [->|Hp]; [|unfold apart in *; lia].
  apply (node_outside fl al s a q H Ha). rewrite HN. set_solver.
Qed.

Lemma take_whole : p.2 = nu -> exists r s', take_code q.1 p.1 p.2 s = Ok (r, s') /\ got r s'.
Proof.
  intros E. destruct links as (C1 & C2 & C3 & C4 & C5 & C6).
  destruct headers_apart as (D1 & D2 & D3 & D4). pose proof p_heap as (P1 & P2 & P3).
  pose proof (hp_top _ _ _ H) as T. set (m' := st32 (um s) q.1 (hd_addr B base)).
  assert (Tm : touched [q.1] (um s) m') by (apply touched_ptr; set_solver).
  destruct (touched_used al [q.1] s m' Tm) as [Hk Hsz]; [apply used_apart; by repeat constructor|].
  exists (p.1 + 8), (set_freep q.1 (set_um m' s)). split.
  - unfold take_code, s_ptr, set_ptr. rewrite E, Z.eqb_refl. mrun. rewrite C4.
    rewrite small_hplus by (unfold fin in *; lia). by rewrite Z.mul_1_r.
  - destruct (carve_heap p [] m') as [fl' Hh]; try done; try lia.
    + by intros z Hz%elem_of_nil.
    + cbn; lia.
    + unfold m'. by rewrite ld32_st32_ne by lia.
    + apply Hsz, (hp_sizes _ _ _ H).
    + cbn [app]. apply chain_app. cbn [hd_addr chain]. split_and!.
      * apply (touched_chain [q.1] (um s)); [done| |done]. apply Forall_forall. intros a Ha.
        specialize (D2 a Ha). constructor; [lia|constructor].
      * unfold m'. rewrite ld32_st32_eq, <- C4. apply u32_small, ld32_range.
      * unfold m'. by rewrite ld32_st32_ne by lia.
      * apply (touched_chain [q.1] (um s)); [done| |done]. apply Forall_forall. intros b Hb.
        destruct (D3 b Hb). constructor; [lia|constructor].
    + by exists p, fl'.
Qed.

Lemma take_part : p.2 <> nu -> exists r s', take_code q.1 p.1 p.2 s = Ok (r, s') /\ got r s'.
Proof.
  intros E. destruct links as (C1 & C2 & C3 & C4 & C5 & C6).
  destruct headers_apart as (D1 & D2 & D3 & D4). pose proof p_heap as (P1 & P2 & P3).
  pose proof (hp_top _ _ _ H) as T. set (k := p.2 - nu). set (y := p.1 + 8 * k).
  set (m1 := st32 (um s) (p.1 + 4) k). set (m2 := st32 m1 (y + 4) nu).
  assert (Hy : p.1 + 8 <= y /\ y + 8 * nu = fin p) by (unfold y, k, fin; lia).
  assert (Hu : forall v, 0 <= v <= p.2 -> u32 v = v) by (intros; apply u32_small; unfold fin in *; clia).
  assert (Tm : touched [p.1; y] (um s) m2).
  { eapply touched_trans; [apply touched_size|apply touched_size]; set_solver. }
  destruct (touched_used al [p.1; y] s m2 Tm) as [Hk Hsz].
  { apply used_apart. constructor; [right; unfold fin in *; lia|]. constructor; [right; lia|constructor]. }
  exists (y + 8), (set_freep q.1 (set_um m2 s)). split.
  - unfold take_code, s_size, set_size. destruct (Z.eqb_spec p.2 nu); [done|]. mrun.
    rewrite (Hu (p.2 - nu)) by lia. fold k m1. cbn [um set_um].
    assert (Ek : ld32 m1 (p.1 + 4) = k) by (unfold m1; rewrite ld32_st32_eq; apply Hu; unfold k; lia).
    rewrite Ek. rewrite (small_hplus p.1 k) by (unfold fin, k in *; lia). fold y m2.
    rewrite small_hplus by (unfold fin in *; lia). by rewrite Z.mul_1_r.
  - assert (Hxs : ld32 m2 (y + 4) = nu) by (unfold m2; rewrite ld32_st32_eq; apply Hu; lia).
    destruct (carve_heap (y, nu) [(p.1, k)] m2) as [fl' Hh]; unfold fin in *; cbn [fst snd] in *; try lia.
    + intros z ->%list_elem_of_singleton. cbn. unfold y, k. lia.
    + cbn; lia.
    + apply Hsz, (hp_sizes _ _ _ H).
    + cbn [app]. apply chain_app. cbn [hd_addr chain fst snd]. 
      assert (Hout : forall z : block, z.1 + 8 <= p.1 \/ fin p <= z.1 -> Forall (fun h => z.1 + 8 <= h \/ h + 8 <= z.1) [p.1; y]).
      { intros z Hz. unfold fin in *. constructor; [lia|]. constructor; [lia|constructor]. }
      split_and!.
      * apply (touched_chain [p.1; y] (um s)); [done| |done]. apply Forall_forall. intros a Ha.
        apply Hout. specialize (D2 a Ha). lia.
      * unfold m2, m1. by rewrite !ld32_st32_ne by lia.
      * unfold m2, m1. by rewrite !ld32_st32_ne by lia.
      * unfold m2, m1. by rewrite !ld32_st32_ne by lia.
      * unfold m2. rewrite ld32_st32_ne by lia. unfold m1. rewrite ld32_st32_eq. apply Hu. unfold k. lia.
      * apply (touched_chain [p.1; y] (um s)); [done| |done]. apply Forall_forall. intros b Hb.
        apply Hout. destruct (D3 b Hb). unfold fin in *. lia.
    + by exists (y, nu), fl'.
Qed.

Lemma take_run : exists r s', take_code q.1 p.1 p.2 s = Ok (r, s') /\ got r s'.
Proof. destruct (decide (p.2 = nu)); [by apply take_whole|by apply take_part]. Qed.

End Carve.

(** *** The search of [malloc]

    Nodes are numbered in the order of the list; the search starts after the
    node [f] of [freep] and ends with it. *)

Definition more (nu : Z) (fuel : nat) : M ust Z :=
  let! p := morecore nu in
  if p =? 0 then ret 0
  else
    let! nx := s_ptr p in
    malloc_loop fuel nu p nx.

Lemma malloc_loop_S nu fuel prevp p :
  malloc_loop (S fuel) nu prevp p =
  (let! sz := s_size p in
   if nu <=? sz then take_code nu prevp p sz
   else
     let! s := get in
     if p =? freep s then more nu fuel
     else let! nx := s_ptr p in malloc_loop fuel nu p nx).
Proof. done. Qed.

Section Scan.
Variable fl al : list block.
Variable s : ust.
Variable nu : Z.
Variable f : nat.
Let N := (base, 0) :: fl.
Let n := length N.
Hypothesis H : heap fl al s.
Hypothesis Hnu : 1 <= nu.
Hypothesis Hf : (f < n)%nat.
Hypothesis Hfp : (N !!! f).1 = freep s.

Definition node (i : nat) : block := ((base, 0) :: fl) !!! (i mod length ((base, 0%Z) :: fl))%nat.

Lemma n_pos : (0 < n)%nat.
Proof. unfold n, N. cbn. lia. Qed.

Lemma node_split i : exists A B, N = A ++ node i :: B /\ length A = (i mod n)%nat.
Proof.
  assert (Hi : (i mod n < length N)%nat) by (apply Nat.mod_upper_bound; pose proof n_pos; lia).
  unfold node. fold N n. destruct (lookup_lt_is_Some_2 N _ Hi) as [x Hx].
  rewrite (list_lookup_total_correct _ _ _ Hx). exists (take (i mod n) N), (drop (S (i mod n)) N).
  split; [symmetry; by apply take_drop_middle|]. rewrite length_take. lia.
Qed.

Lemma node_size i : ld32 (um s) ((node i).1 + 4) = (node i).2.
Proof.
  destruct (node_split i) as (A & B & E & _). pose proof (hp_chain _ _ _ H) as Hc. fold N in Hc.
  rewrite E in Hc. by apply chain_app in Hc as (_ & _ & C & _).
Qed.

Lemma node_eq A x B i : N = A ++ x :: B -> (i mod n)%nat = length A -> node i = x.
Proof.
  intros E Hi. unfold node. fold N n. rewrite Hi, E. apply list_lookup_total_correct.
  by rewrite lookup_app_r, Nat.sub_diag by lia.
Qed.

Lemma node_next i : ld32 (um s) (node i).1 = (node (S i)).1.
Proof.
  pose proof n_pos. destruct (node_split i) as (A & B & E & Hl). pose proof (hp_chain _ _ _ H) as Hc. fold N in Hc.
  rewrite E in Hc. apply chain_app in Hc as (_ & C & _). rewrite C.
  assert (Hn : n = (length A + S (length B))%nat) by (unfold n; rewrite E at 1; by rewrite length_app).
  assert (Hm : (S i mod n = S (i mod n) mod n)%nat)
    by (rewrite <- Nat.add_1_r, <- (Nat.add_1_r (i mod n)), Nat.Div0.add_mod_idemp_l; done).
  destruct B as [|y B]; cbn [hd_addr length] in *.
  - assert (E0 : (S i mod n)%nat = 0%nat).
    { rewrite Hm. replace (S (i mod n)) with n by lia. apply Nat.Div0.mod_same. }
    unfold node. fold N n. by rewrite E0.
  - rewrite (node_eq (A ++ [node i]) y B (S i)); [done|by rewrite <- app_assoc|].
    rewrite Hm, length_app, Nat.mod_small by lia. cbn [length]. lia.
Qed.

Lemma node_lt A x B A' y B' : N = A ++ x :: B -> N = A' ++ y :: B' -> (length A < length A')%nat ->
  x.1 < y.1.
Proof.
  intros E1 E2 Hlt. pose proof (hp_sorted _ _ _ H) as Hs. fold N in Hs.
  assert (Hx : x ∈ A').
  { apply list_elem_of_lookup. exists (length A).
    rewrite <- (lookup_app_l A' (y :: B')), <- E2, E1 by done. by rewrite lookup_app_r, Nat.sub_diag by lia. }
  rewrite E2 in Hs. destruct (StronglySorted_app_1_elem_of _ _ _ x y Hs Hx); [set_solver|lia].
Qed.

Lemma node_inj i j : (node i).1 = (node j).1 -> (i mod n = j mod n)%nat.
Proof.
  intros E. destruct (node_split i) as (A & B & E1 & L1), (node_split j) as (A' & B' & E2 & L2).
  rewrite <- L1, <- L2. destruct (lt_eq_lt_dec (length A) (length A')) as [[Hlt|]|Hlt]; [|done|].
  - pose proof (node_lt _ _ _ _ _ _ E1 E2 Hlt). lia.
  - pose proof (node_lt _ _ _ _ _ _ E2 E1 Hlt). lia.
Qed.

(** A node that fits is found, and the node before it in the list is [prevp]. *)
Lemma node_take i : nu <= (node (S i)).2 ->
  exists r s', take_code nu (node i).1 (node (S i)).1 (node (S i)).2 s = Ok (r, s') /\ got al s nu r s'.
Proof.
  intros Hfit. pose proof n_pos. destruct (node_split (S i)) as (A & B & E & Hl).
  assert (Hm : (S i mod n = S (i mod n) mod n)%nat)
    by (rewrite <- Nat.add_1_r, <- (Nat.add_1_r (i mod n)), Nat.Div0.add_mod_idemp_l; done).
  assert (Hi : (i mod n < n)%nat) by (apply Nat.mod_upper_bound; lia).
  destruct (decide (A = [])) as [->|HA].
  { unfold N in E. injection E as E _. rewrite <- E in Hfit. cbn in Hfit. lia. }
  destruct (list_snoc A HA) as (A' & q & ->). rewrite length_app in Hl. cbn [length] in Hl.
  destruct (decide (S (i mod n) = n)) as [Hn|Hn].
  { rewrite Hm, Hn, Nat.Div0.mod_same in Hl. lia. }
  rewrite Hm, Nat.mod_small in Hl by lia. rewrite <- app_assoc in E. cbn [app] in E.
  rewrite (node_eq A' q (node (S i) :: B) i) by (done || lia).
  by apply (take_run fl al A' B q (node (S i)) s nu H E).
Qed.

Lemma node_freep t : (t < n)%nat -> (node (S (f + t))).1 = freep s <-> S t = n.
Proof.
  intros Ht. assert (Ef : node f = N !!! f) by (unfold node; fold N n; by rewrite Nat.mod_small).
  rewrite <- Hfp, <- Ef. split.
  - intros E. apply node_inj in E. rewrite (Nat.mod_small f) in E by done.
    destruct (decide (S (f + t) < n)%nat); [rewrite Nat.mod_small in E; lia|].
    destruct (decide (S t = n)); [done|]. exfalso.
    assert (Em : (S (f + t) mod n = S (f + t) - n)%nat) by (symmetry; apply (Nat.mod_unique _ _ 1); lia).
    lia.
  - intros E. unfold node. fold N n. replace (S (f + t))%nat with (f + 1 * n)%nat by lia.
    by rewrite Nat.Div0.mod_add.
Qed.

Lemma scan r t fuel : (t + r = n - 1)%nat -> (r < fuel)%nat ->
  (exists x s', malloc_loop fuel nu (node (f + t)).1 (node (S (f + t))).1 s = Ok (x, s') /\ got al s nu x s') \/
  ((forall k, (t <= k < n)%nat -> (node (S (f + k))).2 < nu) /\
   malloc_loop fuel nu (node (f + t)).1 (node (S (f + t))).1 s = more nu (fuel - r - 1) s).
Proof.
  pose proof n_pos. revert t fuel. induction r as [|r IH]; intros t fuel Ht Hr;
    (destruct fuel as [|fuel]; [lia|]); rewrite malloc_loop_S, (bind_Ok _ _ _ _ _ (s_size_run _ s)), node_size;
    (destruct (Z.leb_spec nu (node (S (f + t))).2); [left; by apply node_take|]); rewrite bind_get.
  - right. split; [intros k Hk; by replace k with t by lia|].
    destruct (Z.eqb_spec (node (S (f + t))).1 (freep s)) as [|Hne]; [by replace (S fuel - 0 - 1)%nat with fuel by lia|].
    destruct Hne. apply node_freep; lia.
  - destruct (Z.eqb_spec (node (S (f + t))).1 (freep s)) as [E|_]; [apply node_freep in E; lia|].
    rewrite (bind_Ok _ _ _ _ _ (s_ptr_run _ s)), node_next.
    replace (S (f + t))%nat with (f + S t)%nat in * by lia.
    destruct (IH (S t) fuel) as [Hg|[Hk Hg]]; [lia|lia|by left|right]. split; [|exact Hg].
    intros k Hk'. destruct (decide (k = t)) as [->|]; [|apply Hk; lia].
    by replace (S (f + t))%nat with (f + S t)%nat by lia.
Qed.

End Scan.

(** *** More memory *)

Lemma heap_set_brk fl al s g : heap fl al s -> heap fl al (set_brk (brk s) g s).
Proof. by intros []. Qed.

(** The memory the kernel adds is a block in use once its size is written. *)
Lemma heap_grow fl al s nu g : heap fl al s -> 1 <= nu -> brk s + 8 * nu < KERNBASE ->
  heap fl ((brk s, nu) :: al) (set_um (st32 (um s) (brk s + 4) nu) (set_brk (brk s + 8 * nu) g s)).
Proof.
  intros H Hnu Hk. destruct H as [Hc Hs Hf Hu Ha Hd Hz Hp Ht].
  assert (Hw : forall l, Forall (in_heap (brk s)) l -> Forall (in_heap (brk s + 8 * nu)) l).
  { intros l Hl. eapply Forall_impl; [exact Hl|]. unfold in_heap. intros a ?. lia. }
  assert (Hx : forall a, in_heap (brk s) a -> apart (brk s, nu) a).
  { unfold in_heap, apart. cbn. lia. }
  split; cbn [um brk freep set_um set_brk]; try done.
  - apply chain_st32; [|done]. constructor; [cbn; lia|].
    eapply Forall_impl; [exact Hf|]. unfold in_heap, fin. intros a ?. lia.
  - by apply Hw.
  - constructor; [|by apply Hw]. unfold in_heap, fin. cbn. lia.
  - constructor; [|done]. eapply Forall_impl; [exact Hf|apply Hx].
  - constructor; [done|]. eapply Forall_impl; [exact Hu|apply Hx].
  - constructor; [cbn; rewrite ld32_st32_eq; apply u32_small; unfold KERNBASE in *; lia|].
    rewrite Forall_forall in *. intros a Ea. rewrite ld32_st32_ne; [by apply Hz|].
    pose proof (Hu a Ea). unfold in_heap, fin in *. lia.
  - lia.
Qed.

(** The kernel has no memory for a block of [nu] units. *)
Definition refused (nu : Z) (s : ust) : Prop :=
  hd false (grants s) = false \/ KERNBASE <= brk s + 8 * Z.max 4096 nu.

(** Memory is refused, or the free list has a block that is large enough. *)
Lemma morecore_ok fl al s nu : heap fl al s -> 1 <= nu < 2 ^ 28 ->
  exists r s', morecore nu s = Ok (r, s') /\ kept al s s' /\
    ((r = 0 /\ refused nu s /\ heap fl al s') \/
     exists fl', r = freep s' /\ heap fl' al s' /\ (length fl' <= S (length fl))%nat /\
       exists b, b ∈ fl' /\ nu <= b.2).
Proof.
  intros H Hnu. pose proof (hp_top _ _ _ H) as Ht. unfold KERNBASE in Ht. unfold morecore.
  set (nu' := if nu <? 4096 then 4096 else nu).
  assert (Hnu' : nu' = Z.max 4096 nu) by (unfold nu'; destruct (Z.ltb_spec nu 4096); lia).
  clearbody nu'. rename Hnu' into Emax.
  assert (Hnu' : nu <= nu' /\ 4096 <= nu' < 2 ^ 28) by lia.
  assert (Es : s32 (u32 (nu' * sizeof_Header)) = 8 * nu').
  { unfold sizeof_Header. rewrite u32_small, s32_small by lia. lia. }
  assert (Eb : (refused nu s /\ sbrk (8 * nu') s = Ok (2 ^ 32 - 1, set_brk (brk s) (tail (grants s)) s)) \/
    (brk s + 8 * nu' < KERNBASE /\ sbrk (8 * nu') s = Ok (brk s, set_brk (brk s + 8 * nu') (tail (grants s)) s))).
  { unfold sbrk, refused. rewrite <- Emax, bind_get. destruct (Z.ltb_spec 0 (8 * nu')); [|lia]. rewrite bind_put.
    destruct (Z.ltb_spec (brk s + 8 * nu') KERNBASE), (hd false (grants s)); cbn; auto. }
  rewrite Es. destruct Eb as [[Hrf Eb]|[Hk Eb]]; rewrite (bind_Ok _ _ _ _ _ Eb).
  { exists 0, (set_brk (brk s) (tail (grants s)) s). split; [done|]. split; [by intros a|].
    left. split; [done|]. split; [done|]. by apply heap_set_brk. }
  pose proof (heap_grow _ _ _ nu' (tail (grants s)) H ltac:(lia) Hk) as Hg. unfold KERNBASE in Hk.
  destruct (Z.eqb_spec (brk s) (2 ^ 32 - 1)); [lia|].
  destruct (free_ok _ _ _ _ Hg) as (fl' & s' & Ef & H' & Hkp & _ & Hlen & Hb). cbn [fst] in Ef.
  unfold set_size. rewrite bind_modify, small_hplus by (unfold KERNBASE; lia).
  rewrite Z.mul_1_r, (bind_Ok _ _ _ _ _ Ef). exists (freep s'), s'. split; [done|].
  destruct Hb as (b & Eb' & Hb). cbn in Hb.
  split; [|right; exists fl'; split; [done|split; [done|split; [done|exists b; split; [done|lia]]]]].
  intros a y Ha Hy. rewrite (Hkp a y Ha Hy). cbn [um set_um].
  pose proof (hp_used _ _ _ H) as Hu. rewrite Forall_forall in Hu. destruct (Hu a Ha) as (? & ? & ?).
  apply ld8_st32_ne. lia.
Qed.

Lemma heap_freep_pos fl al s : heap fl al s -> 0 < freep s.
Proof.
  intros H. pose proof (hp_freep _ _ _ H) as Hp. apply list_elem_of_fmap in Hp as (y & -> & Hy).
  pose proof (hp_free _ _ _ H) as Hf. rewrite Forall_forall in Hf.
  apply elem_of_cons in Hy as [->|Hy]; [done|]. destruct (Hf y Hy). lia.
Qed.

Lemma freep_index fl al s : heap fl al s -> let N := (base, 0) :: fl in
  exists f, (f < length N)%nat /\ (N !!! f).1 = freep s.
Proof.
  intros H N. pose proof (hp_freep _ _ _ H) as Hp. apply list_elem_of_fmap in Hp as (y & Ey & Hy).
  apply list_elem_of_lookup_1 in Hy as (f & Hf). exists f. split; [by eapply lookup_lt_Some|].
  by rewrite (list_lookup_total_correct _ _ _ Hf).
Qed.

(** The search visits every node. *)
Lemma all_nodes fl f i : let n := length ((base, 0%Z) :: fl) in
  (f < n)%nat -> (i < n)%nat -> exists k, (k < n)%nat /\ (S (f + k) mod n = i)%nat.
Proof.
  intros n Hf Hi. destruct (decide (f < i)%nat).
  - exists (i - f - 1)%nat. split; [lia|]. replace (S (f + (i - f - 1)))%nat with i by lia. by apply Nat.mod_small.
  - exists (n + i - f - 1)%nat. split; [lia|].
    replace (S (f + (n + i - f - 1)))%nat with (i + 1 * n)%nat by lia.
    rewrite Nat.Div0.mod_add. by apply Nat.mod_small.
Qed.

(** A search of the list finds a block, or there is none that is large enough. *)
Lemma scan_list fl al s nu fuel : heap fl al s -> 1 <= nu -> (length fl < fuel)%nat ->
  (exists r s', malloc_loop fuel nu (freep s) (ld32 (um s) (freep s)) s = Ok (r, s') /\ got al s nu r s') \/
  (Forall (fun b => b.2 < nu) fl /\
   malloc_loop fuel nu (freep s) (ld32 (um s) (freep s)) s = more nu (fuel - length fl - 1) s).
Proof.
  intros H Hnu Hfuel. destruct (freep_index _ _ _ H) as (f & Hf & Hfp).
  assert (Ef : node fl f = ((base, 0) :: fl) !!! f) by (unfold node; by rewrite Nat.mod_small).
  pose proof (scan _ _ _ nu f H Hnu Hf Hfp (length fl) 0 fuel) as Hs. rewrite !Nat.add_0_r in Hs.
  rewrite Ef, Hfp in Hs.
  assert (En : (node fl (S f)).1 = ld32 (um s) (freep s)).
  { rewrite <- Hfp, <- Ef. symmetry. by eapply node_next. }
  rewrite En in Hs. destruct Hs as [Hg|[Hk Hg]]; [cbn; lia|done|by left|right]. split; [|done].
  apply Forall_forall. intros b Hb. apply list_elem_of_lookup_1 in Hb as (i & Hi).
  pose proof (lookup_lt_Some _ _ _ Hi). destruct (all_nodes fl f (S i)) as (k & Hk1 & Hk2); [done|cbn; lia|].
  specialize (Hk k ltac:(lia)). unfold node in Hk. rewrite Hk2 in Hk.
  by rewrite (list_lookup_total_correct ((base, 0) :: fl) (S i) b Hi) in Hk.
Qed.

(** What [malloc] leaves: a new block of [nu] units whose memory is at [r],
    or the null pointer and the blocks there were. *)
Definition granted (al : list block) (nu r : Z) (s s' : ust) : Prop :=
  (r = 0 /\ refused nu s /\ exists fl', heap fl' al s') \/
  (exists x fl', r = x.1 + 8 /\ x.2 = nu /\ heap fl' (x :: al) s').

Lemma kept_trans al s1 s2 s3 : kept al s1 s2 -> kept al s2 s3 -> kept al s1 s3.
Proof. intros H1 H2 a y Ha Hy. by rewrite (H2 a y Ha Hy), (H1 a y Ha Hy). Qed.

Lemma malloc_loop_ok fl al s nu fuel : heap fl al s -> 1 <= nu < 2 ^ 28 ->
  (2 * length fl + 3 < fuel)%nat ->
  exists r s', malloc_loop fuel nu (freep s) (ld32 (um s) (freep s)) s = Ok (r, s') /\
    kept al s s' /\ granted al nu r s s'.
Proof.
  intros H Hnu Hfuel.
  destruct (scan_list fl al s nu fuel H) as [(r & s' & E & x & fl' & ? & ? & ? & ? & _)|[_ E]]; [lia|lia| |].
  { exists r, s'. split; [done|]. split; [done|]. right. by exists x, fl'. }
  rewrite E. unfold more. destruct (morecore_ok _ _ _ _ H Hnu) as (r & s1 & E1 & Hk & Hr).
  rewrite (bind_Ok _ _ _ _ _ E1). destruct Hr as [(-> & Hrf & H1)|(fl1 & -> & H1 & Hlen & b & Hb & Hbnu)].
  { exists 0, s1. split; [done|]. split; [done|]. left. split; [done|]. split; [done|]. by exists fl. }
  destruct (Z.eqb_spec (freep s1) 0) as [E0|_].
  { pose proof (heap_freep_pos _ _ _ H1). lia. }
  rewrite (bind_Ok _ _ _ _ _ (s_ptr_run _ s1)).
  destruct (scan_list fl1 al s1 nu (fuel - length fl - 1) H1) as [(r & s' & E2 & x & fl' & ? & ? & ? & ? & _)|[Hall _]];
    [lia|lia| |].
  { exists r, s'. split; [done|]. split; [by eapply kept_trans|]. right. by exists x, fl'. }
  rewrite Forall_forall in Hall. specialize (Hall b Hb). lia.
Qed.

(** *** The allocator as its callers see it *)

(** The blocks [al] are allocated; before the first call there are none. *)
Definition ready (al : list block) (s : ust) : Prop :=
  (freep s = 0 /\ al = [] /\ lo <= brk s < KERNBASE) \/ exists fl, heap fl al s.

Lemma heap_perm fl al al' s : Permutation al al' -> heap fl al s -> heap fl al' s.
Proof.
  intros Hp []. split; try done; try by rewrite <- Hp.
  clear -Hp hp_disjoint0. induction Hp as [|x l l' Hp IH|x y l|l1 l2 l3 _ IH1 _ IH2].
  - done.
  - apply StronglySorted_inv in hp_disjoint0 as [H1 H2]. constructor; [by apply IH|by rewrite <- Hp].
  - apply StronglySorted_inv in hp_disjoint0 as [H1 H2]. apply StronglySorted_inv in H1 as [H1 H3].
    inversion H2; subst. constructor; [by constructor|]. constructor; [|done]. unfold apart in *. lia.
  - auto.
Qed.

(** The first call makes [base] the only node of the list. *)
Lemma malloc_init s : freep s = 0 -> lo <= brk s < KERNBASE ->
  heap [] [] (set_um (st32 (st32 (um s) base base) (base + 4) 0) (set_freep base s)).
Proof.
  intros Hf Ht. split; cbn; try done; try by constructor.
  - split; [|split; [|done]]; [rewrite ld32_st32_ne by lia|]; rewrite ld32_st32_eq; apply u32_small;
      unfold KERNBASE in Ht; lia.
  - by repeat constructor.
Qed.

(** The largest request whose units are a positive [int] number of bytes. *)
Definition max_request : Z := 2 ^ 31 - 16.

Lemma nunits_bounds nbytes : 0 <= nbytes <= max_request ->
  1 <= nunits_of nbytes < 2 ^ 28 /\ nbytes <= 8 * (nunits_of nbytes - 1).
Proof.
  unfold max_request. intros H. unfold nunits_of, sizeof_Header. rewrite (u32_small (nbytes + 8 - 1)) by lia.
  pose proof (Z.div_mod (nbytes + 8 - 1) 8 ltac:(lia)). pose proof (Z.mod_pos_bound (nbytes + 8 - 1) 8 ltac:(lia)).
  rewrite u32_small by lia. lia.
Qed.

(** Above it [morecore] does not ask for memory ... *)
Lemma nunits_large nbytes : max_request < nbytes <= 2 ^ 32 - 8 ->
  s32 (u32 (nunits_of nbytes * sizeof_Header)) <= 0.
Proof.
  unfold max_request. intros H. unfold nunits_of, sizeof_Header. rewrite (u32_small (nbytes + 8 - 1)) by lia.
  pose proof (Z.div_mod (nbytes + 8 - 1) 8 ltac:(lia)). pose proof (Z.mod_pos_bound (nbytes + 8 - 1) 8 ltac:(lia)).
  rewrite (u32_small ((nbytes + 8 - 1) / 8 + 1)) by lia. set (n := (nbytes + 8 - 1) / 8 + 1) in *.
  destruct (decide (n = 2 ^ 29)) as [->|Hn]; [by vm_compute|].
  rewrite u32_small by lia. unfold s32. rewrite u32_small by lia. destruct (Z.ltb_spec (n * 8) (2 ^ 31)); lia.
Qed.

Lemma sbrk_shrinks n s : n <= 0 -> exists r s', sbrk n s = Ok (r, s') /\ brk s' <= brk s.
Proof.
  intros Hn. unfold sbrk. mrun. destruct (Z.ltb_spec 0 n); [lia|]. destruct (n <? 0); [|by eexists _, _].
  destruct (Z.leb_spec (brk s) (u32 (brk s + n))); case_match; mrun; eexists _, _; (split; [done|]); cbn [brk set_brk]; lia.
Qed.

(** ... and at the top of the range the sum wraps around. *)
Lemma nunits_wraps nbytes : 2 ^ 32 - 8 < nbytes < 2 ^ 32 -> nunits_of nbytes = 1.
Proof.
  intros H. unfold nunits_of, sizeof_Header.
  replace (u32 (nbytes + 8 - 1)) with (nbytes + 7 - 2 ^ 32) by (apply Z.mod_unique with (q := 1); lia).
  by rewrite Z.div_small by lia.
Qed.

Lemma malloc_ok al s nbytes : ready al s -> 0 <= nbytes <= max_request ->
  exists r s', malloc base nbytes s = Ok (r, s') /\ kept al s s' /\ granted al (nunits_of nbytes) r s s'.
Proof.
  intros Hr Hn. apply nunits_bounds in Hn as [Hn _]. unfold malloc. rewrite bind_get.
  destruct Hr as [(Hf & -> & Ht)|[fl H]].
  - rewrite Hf. pose proof (malloc_init s Hf Ht) as H.
    destruct (malloc_loop_ok _ _ _ _ (Z.to_nat (2 * (brk s / 8) + 8)) H Hn) as (r & s' & E & _ & Hg).
    { cbn [length]. pose proof (Z.div_pos (brk s) 8). lia. }
    exists r, s'. split; [exact E|]. split; [|done]. intros a ? Ha. by apply not_elem_of_nil in Ha.
  - pose proof (heap_freep_pos _ _ _ H). destruct (Z.eqb_spec (freep s) 0); [lia|]. rewrite bind_ret.
    rewrite (bind_Ok _ _ _ _ _ (s_ptr_run _ s)). apply (malloc_loop_ok fl); [done|done|].
    pose proof (heap_count _ _ _ H) as Hc. cbn [length] in Hc. lia.
Qed.

End Heap.

(** The allocator keeps the blocks it has handed out disjoint and inside the
    heap.  [free] of any of the blocks returns, takes it back and keeps the
    others (C12).  For a request of at most [max_request] = 2^31 - 16 bytes
    [malloc] returns; it gives a new block that holds the request, apart from
    the others and with their contents kept, and the null pointer only when
    the kernel refuses the memory.  That bound is exact: the arithmetic of
    larger requests is not checked.  Up to 2^32 - 8 bytes the sbrk
    of [morecore] is for a negative number or none and does not grow the
    process, and from there on a request is served as one for no bytes. *)
Theorem malloc_free_spec base lo al s : 0 < base -> base + 8 <= lo -> ready base lo al s ->
  (StronglySorted apart al /\ Forall (in_heap lo (brk s)) al) /\
  (forall nbytes, 0 <= nbytes <= max_request ->
     exists r s', malloc base nbytes s = Ok (r, s') /\ kept al s s' /\
       ((r = 0 /\ refused (nunits_of nbytes) s /\ ready base lo al s') \/
        (lo + 8 <= r /\ nbytes <= 8 * (nunits_of nbytes - 1) /\
         ready base lo ((r - 8, nunits_of nbytes) :: al) s'))) /\
  (forall al1 x al2, al = al1 ++ x :: al2 ->
     exists s', free (x.1 + 8) s = Ok (tt, s') /\ kept (al1 ++ al2) s s' /\ ready base lo (al1 ++ al2) s') /\
  (forall nbytes, max_request < nbytes <= 2 ^ 32 - 8 -> exists r s',
     sbrk (s32 (u32 (nunits_of nbytes * sizeof_Header))) s = Ok (r, s') /\ brk s' <= brk s) /\
  (forall nbytes, 2 ^ 32 - 8 < nbytes < 2 ^ 32 -> malloc base nbytes s = malloc base 0 s).
Proof.
  intros Hb Hlo Hr. split; [|split; [|split; [|split; [by intros nbytes Hn; apply sbrk_shrinks, nunits_large|]]]].
  - destruct Hr as [(_ & -> & _)|[fl []]]; [by split; constructor|done].
  - intros nbytes Hn. destruct (malloc_ok base lo Hb Hlo al s nbytes Hr Hn) as (r & s' & E & Hk & Hg).
    exists r, s'. split; [done|]. split; [done|]. destruct Hg as [(-> & Hrf & fl' & H')|(x & fl' & -> & Ex & H')].
    + left. split; [done|]. split; [done|]. right. by exists fl'.
    + right. pose proof (x_heap _ _ _ _ _ _ H') as (_ & ? & _). apply nunits_bounds in Hn as [_ Hn].
      split; [lia|]. split; [done|]. right. exists fl'. rewrite <- Ex, Z.add_simpl_r. by destruct x.
  - intros al1 x al2 ->. destruct Hr as [(_ & E & _)|[fl H]]; [by destruct al1|].
    apply (heap_perm _ _ _ _ (x :: al1 ++ al2)) in H; [|by rewrite Permutation_middle].
    destruct (free_ok base lo Hb Hlo _ _ _ _ H) as (fl' & s' & E & H' & Hk & _).
    exists s'. split; [done|]. split; [done|]. right. by exists fl'.
  - intros nbytes Hn. unfold malloc. by rewrite (nunits_wraps nbytes Hn).
Qed.

Definition fresh : ust := {| um := ∅; freep := 0; brk := 4096; grants := [true; false] |}.

(** At the start of a process there are no blocks; [malloc] gives the end of
    the memory of the first [sbrk], and [free] takes it back. *)
Lemma malloc_free_spec_witness :
  ready 8 16 [] fresh /\
  exists s1 s2, malloc 8 100 fresh = Ok (36760, s1) /\ free 36760 s1 = Ok (tt, s2) /\ ready 8 16 [] s2.
Proof.
  assert (H0 : ready 8 16 [] fresh) by (left; split_and!; reflexivity || discriminate). split; [exact H0|].
  destruct (malloc_free_spec 8 16 [] fresh) as (_ & Hm & _); [lia|lia|exact H0|].
  destruct (Hm 100) as (r & s1 & E & _ & Hr); [by vm_compute|].
  assert (Hv : match malloc 8 100 fresh with Ok (v, _) => v = 36760 | _ => False end) by (vm_compute; reflexivity).
  rewrite E in Hv. subst r. destruct Hr as [[Hr _]|(_ & _ & H1)]; [discriminate Hr|].
  destruct (malloc_free_spec 8 16 _ s1 ltac:(lia) ltac:(lia) H1) as (_ & _ & Hf & _).
  destruct (Hf [] _ [] eq_refl) as (s2 & Ef & _ & H2).
  exists s1, s2. split; [exact E|]. split; [exact Ef|exact H2].
Defined.
