(* ===== verification/ShRun.v ===== *)
(** * The shell runs commands (sh.c: runcmd, fork1, panic, getcmd, main)

    A process of the shell is the tree [prog] of the system calls it makes,
    each followed by what the process does with the result.  [perform] is
    what they do: descriptors are allocated from the lowest free one, as
    fdalloc does, a fork copies the table, and the outcome is the tree of the
    processes with the programs they execute.  Failures of open, exec, fork
    and pipe are decided by predicates. *)

From S2P Require Import Prelude Param Kernel Console Ulib Sh ShSpec.

(** ** Processes *)

Inductive prog :=
| Exit
| Stuck
| Exec_ (path : list Z) (argv : list (list Z)) (k : prog)
| Close (fd : Z) (k : prog)
| Open (path : list Z) (mode : Z) (k : Z -> prog)
| Dup (fd : Z) (k : prog)
| MkPipe (k : Z -> Z -> Z -> prog)
| Fork (k : Z -> prog)
| Wait (k : prog)
| Chdir (path : list Z) (k : Z -> prog)
| Getc (k : option Z -> prog)
| Printf (fmt : list Z) (args : list carg) (k : prog).

Definition line (s : string) : list Z := chars s ++ [10].

(** [Printf] is [printf(2, ...)]; [Exec_] goes on only when exec fails. *)
Definition panic_ (msg : string) : prog := Printf (line "%s") [CStr (Some (chars msg))] Exit.

Definition fork1 (k : Z -> prog) : prog :=
  Fork (fun pid => if pid =? - 1 then panic_ "fork" else k pid).

(** [buf] holds the strings of the command; [cmd] is not null. *)
Fixpoint runcmd (buf : list Z) (c : cmd) : prog :=
  match c with
  | EXEC argv =>
      match argv with
      | [] => Exit
      | a :: _ =>
          Exec_ (found buf a) (found buf <$> argv)
            (Printf (line "exec %s failed") [CStr (Some (found buf a))] Exit)
      end
  | REDIR c file efile mode fd =>
      Close fd
        (Open (found buf (file, efile)) mode (fun r =>
           if r <? 0 then Printf (line "open %s failed") [CStr (Some (found buf (file, efile)))] Exit
           else runcmd buf c))
  | LIST lc rc =>
      fork1 (fun pid => if pid =? 0 then runcmd buf lc else Wait (runcmd buf rc))
  | PIPE lc rc =>
      MkPipe (fun r p0 p1 =>
        if r <? 0 then panic_ "pipe"
        else
          fork1 (fun pid =>
            if pid =? 0 then
              Close 1 (Dup p1 (Close p0 (Close p1 (runcmd buf lc))))
            else
              fork1 (fun pid =>
                if pid =? 0 then
                  Close 0 (Dup p0 (Close p0 (Close p1 (runcmd buf rc))))
                else Close p0 (Close p1 (Wait (Wait Exit))))))
  | BACK c => fork1 (fun pid => if pid =? 0 then runcmd buf c else Exit)
  end.

(** [gets(buf, nbuf)], [i] characters read so far; the rest of the buffer is
    the zeros of [memset]. *)
Fixpoint gets_ (fuel : nat) (i nbuf : nat) (acc : list Z) (k : list Z -> prog) : prog :=
  if (i + 1 <? nbuf)%nat then
    match fuel with
    | O => Stuck
    | S f =>
        Getc (fun c =>
          match c with
          | None => k (acc ++ replicate (nbuf - i) 0)
          | Some c =>
              if (c =? 10) || (c =? 13) then k (acc ++ c :: replicate (nbuf - i - 1) 0)
              else gets_ f (S i) nbuf (acc ++ [c]) k
          end)
    end
  else k (acc ++ replicate (nbuf - i) 0).

Definition getcmd (nbuf : nat) (k : Z -> list Z -> prog) : prog :=
  Printf (chars "$ ") []
    (gets_ nbuf 0 nbuf [] (fun buf => if nth 0 buf 0 =? 0 then k (- 1) buf else k 0 buf)).

(** The loop of [main] over the commands. *)
Fixpoint sh_loop (fuel : nat) : prog :=
  match fuel with
  | O => Stuck
  | S f =>
      getcmd 100 (fun r buf =>
        if r <? 0 then Exit
        else if (nth 0 buf 0 =? 99) && (nth 1 buf 0 =? 100) && (nth 2 buf 0 =? 32) then
          let buf := <[(strlen buf - 1)%nat := 0]> buf in
          Chdir (str (drop 3 buf)) (fun r =>
            if r <? 0 then Printf (line "cannot cd %s") [CStr (Some (str (drop 3 buf)))] (sh_loop f)
            else sh_loop f)
        else
          fork1 (fun pid =>
            if pid =? 0 then
              match parsecmd buf 0%nat with
              | Ok ((c, buf), _) => runcmd buf c
              | Panic msg => panic_ msg
              | _ => Stuck
              end
            else Wait (sh_loop f)))
  end.

(** The loop of [main] that opens descriptors up to 2. *)
Fixpoint sh_open (fuel lines : nat) : prog :=
  match fuel with
  | O => Stuck
  | S f =>
      Open (chars "console") 2 (fun fd =>
        if 0 <=? fd then
          if 3 <=? fd then Close fd (sh_loop lines) else sh_open f lines
        else sh_loop lines)
  end.
Definition sh_main (lines : nat) : prog := sh_open 4 lines.

(** ** What the calls do *)

(** A pipe is named by the process that made it, and processes by their path
    in the tree of forks. *)
Inductive handle :=
| File (path : list Z) (mode : Z)
| ReadEnd (id : list bool)
| WriteEnd (id : list bool).
Abbreviation table := (list (option handle)).

Inductive behaviour :=
| Exits
| Stops
| Runs (path : list Z) (argv : list (list Z)) (t : table)
| Says (out : option handle) (fmt : list Z) (args : list carg) (b : behaviour)
| Forks (child rest : behaviour)
| Waits (t : table) (b : behaviour).

(** Where messages go: descriptor 2. *)
Definition err (t : table) : option handle := default None (t !! 2%nat).

Fixpoint lowest (t : table) : option nat :=
  match t with
  | [] => None
  | None :: _ => Some 0%nat
  | Some _ :: t => S <$> lowest t
  end.

Record world := {
  open_ok : list Z -> Z -> bool;
  exec_ok : list Z -> bool;
  chdir_ok : list Z -> bool;
  fork_ok : list bool -> bool;
  pipe_ok : list bool -> bool
}.

Section World.
Variable W : world.

(** [w] names the process, [inp] is the input it can read. *)
Fixpoint perform (w : list bool) (inp : list Z) (t : table) (p : prog) : behaviour :=
  match p with
  | Exit => Exits
  | Stuck => Stops
  | Exec_ path argv k => if exec_ok W path then Runs path argv t else perform w inp t k
  | Close fd k => perform w inp (<[Z.to_nat fd := None]> t) k
  | Open path mode k =>
      match lowest t with
      | Some i =>
          if open_ok W path mode
          then perform w inp (<[i := Some (File path mode)]> t) (k (Z.of_nat i))
          else perform w inp t (k (- 1))
      | None => perform w inp t (k (- 1))
      end
  | Dup fd k =>
      match t !! Z.to_nat fd, lowest t with
      | Some (Some h), Some i => perform w inp (<[i := Some h]> t) k
      | _, _ => perform w inp t k
      end
  | MkPipe k =>
      match lowest t with
      | Some i =>
          let t1 := <[i := Some (ReadEnd w)]> t in
          match lowest t1 with
          | Some j =>
              if pipe_ok W w
              then perform (false :: w) inp (<[j := Some (WriteEnd w)]> t1) (k 0 (Z.of_nat i) (Z.of_nat j))
              else perform w inp t (k (- 1) 0 0)
          | None => perform w inp t (k (- 1) 0 0)
          end
      | None => perform w inp t (k (- 1) 0 0)
      end
  | Fork k =>
      if fork_ok W w
      then Forks (perform (true :: w) inp t (k 0)) (perform (false :: w) inp t (k 1))
      else perform w inp t (k (- 1))
  | Wait k => Waits t (perform w inp t k)
  | Chdir path k => perform w inp t (k (if chdir_ok W path then 0 else - 1))
  | Getc k => match inp with c :: inp => perform w inp t (k (Some c)) | [] => perform w inp t (k None) end
  | Printf fmt args k => Says (err t) fmt args (perform w inp t k)
  end.

(** ** What a command means *)

Definition forks (w : list bool) (t : table) (child rest : behaviour) : behaviour :=
  if fork_ok W w then Forks child rest else Says (err t) (line "%s") [CStr (Some (chars "fork"))] Exits.

(** Redirections and pipes replace descriptors 0 and 1, and change no other. *)
Fixpoint meaning (w : list bool) (t : table) (c : command) : behaviour :=
  match c with
  | Exec [] => Exits
  | Exec (a :: l) =>
      if exec_ok W a then Runs a (a :: l) t
      else Says (err t) (line "exec %s failed") [CStr (Some a)] Exits
  | Redir c f m d =>
      if open_ok W f m then meaning w (<[Z.to_nat d := Some (File f m)]> t) c
      else Says (err t) (line "open %s failed") [CStr (Some f)] Exits
  | Seq a b => forks w t (meaning (true :: w) t a) (Waits t (meaning (false :: w) t b))
  | Pipe a b =>
      if pipe_ok W w then
        let w1 := false :: w in
        let w2 := false :: w1 in
        forks w1 t (meaning (true :: w1) (<[1%nat := Some (WriteEnd w)]> t) a)
          (forks w2 t (meaning (true :: w2) (<[0%nat := Some (ReadEnd w)]> t) b) (Waits t (Waits t Exits)))
      else Says (err t) (line "%s") [CStr (Some (chars "pipe"))] Exits
  | Back c => forks w t (meaning (true :: w) t c) Exits
  end.

(** ** Descriptors *)

(** Descriptors 0 to 2 are open, and [i] and [j] are the first free ones. *)
Record std (t : table) (i j : nat) : Prop := {
  std_i : t !! i = Some None;
  std_j : t !! j = Some None;
  std_lt : (2 < i < j)%nat;
  std_used k : (k < j)%nat -> k <> i -> exists h, t !! k = Some (Some h)
}.

Lemma lowest_at t i : t !! i = Some None -> (forall k, (k < i)%nat -> exists h, t !! k = Some (Some h)) ->
  lowest t = Some i.
Proof.
  revert i. induction t as [|o t IH]; intros i Hi Hk; [done|]. destruct i as [|i].
  - cbn in Hi. by injection Hi as ->.
  - destruct (Hk 0%nat ltac:(lia)) as [h Hh]. cbn in Hh. injection Hh as ->. cbn [lowest].
    rewrite (IH i); [done|done|]. intros k Hlt. apply (Hk (S k)). lia.
Qed.

Lemma lookup_set (t : table) d h k : (d < length t)%nat ->
  <[d := h]> t !! k = if decide (d = k) then Some h else t !! k.
Proof. intros Hd. rewrite list_lookup_insert. case_decide; case_decide; naive_solver. Qed.

Lemma std_length t i j : std t i j -> (j < length t)%nat.
Proof. intros Ht. by eapply lookup_lt_Some, Ht. Qed.

Lemma std_set t i j d h : std t i j -> (d < 2)%nat -> std (<[d := Some h]> t) i j.
Proof.
  intros Ht Hd. pose proof (std_length _ _ _ Ht). destruct Ht as [H1 H2 H3 H4].
  split; [| |done|intros k Hk Hi]; rewrite lookup_set by lia; case_decide; try lia; eauto.
Qed.

(** A descriptor that is closed is the next one allocated. *)
Lemma std_close t i j d : std t i j -> (d < 2)%nat -> lowest (<[d := None]> t) = Some d.
Proof.
  intros Ht Hd. pose proof (std_length _ _ _ Ht). destruct Ht as [_ _ H3 H4]. apply lowest_at.
  - rewrite lookup_set by lia. by case_decide.
  - intros k Hk. rewrite lookup_set by lia. case_decide; [lia|]. apply H4; lia.
Qed.

Lemma std_lowest t i j h : std t i j -> lowest t = Some i /\ lowest (<[i := Some h]> t) = Some j.
Proof.
  intros Ht. pose proof (std_length _ _ _ Ht). destruct Ht as [H1 H2 H3 H4]. split; apply lowest_at.
  - done.
  - intros k Hk. apply H4; lia.
  - rewrite lookup_set by lia. case_decide; [lia|done].
  - intros k Hk. rewrite lookup_set by lia. case_decide; [eauto|]. apply H4; lia.
Qed.

(** The descriptors of a pipe. *)
Definition piped (t : table) (i j : nat) (w : list bool) : table :=
  <[j := Some (WriteEnd w)]> (<[i := Some (ReadEnd w)]> t).

Ltac table_eq := apply list_eq; intros ?; rewrite !lookup_set by (rewrite ?length_insert; lia);
  repeat case_decide; subst; try lia; try done.

Lemma piped_close t i j w : std t i j -> <[j := None]> (<[i := None]> (piped t i j w)) = t.
Proof.
  intros Ht. pose proof (std_length _ _ _ Ht). destruct Ht as [H1 H2 H3 _]. unfold piped. table_eq.
Qed.

Lemma piped_end t i j w d h : std t i j -> (d < 2)%nat ->
  <[j := None]> (<[i := None]> (<[d := Some h]> (<[d := None]> (piped t i j w)))) = <[d := Some h]> t.
Proof.
  intros Ht Hd. pose proof (std_length _ _ _ Ht). destruct Ht as [H1 H2 H3 _]. unfold piped. table_eq.
Qed.

(** [close(d); dup(e)] with [e] an end of the pipe. *)
Lemma perform_end w inp t i j id d e h k : std t i j -> (d < 2)%nat -> e = i \/ e = j ->
  piped t i j id !! e = Some (Some h) ->
  perform w inp (piped t i j id)
    (Close (Z.of_nat d) (Dup (Z.of_nat e) (Close (Z.of_nat i) (Close (Z.of_nat j) k)))) =
  perform w inp (<[d := Some h]> t) k.
Proof.
  intros Ht Hd He Hh. pose proof (std_length _ _ _ Ht) as Hlen. pose proof (std_lt _ _ _ Ht) as Hlt.
  cbn [perform]. rewrite !Nat2Z.id.
  assert (Hl : lowest (<[d := None]> (piped t i j id)) = Some d).
  { destruct Ht as [H1 H2 H3 H4]. apply lowest_at.
    - rewrite lookup_set by (unfold piped; rewrite ?length_insert; lia). by case_decide.
    - intros k' Hk. unfold piped. rewrite !lookup_set by (rewrite ?length_insert; lia).
      repeat case_decide; try lia; eauto. apply H4; lia. }
  rewrite (lookup_set _ d) by (unfold piped; rewrite ?length_insert; lia).
  rewrite decide_False by (destruct Ht; lia). rewrite Hh, Hl. by rewrite piped_end.
Qed.

(** ** Running a command *)

Lemma perform_fork1 w inp t k :
  perform w inp t (fork1 k) =
  forks w t (perform (true :: w) inp t (k 0)) (perform (false :: w) inp t (k 1)).
Proof. unfold fork1, forks. cbn [perform]. by destruct (fork_ok W w). Qed.

Lemma err_set t d h : (d < 2)%nat -> err (<[d := h]> t) = err t.
Proof. intros Hd. unfold err. by rewrite list_lookup_insert_ne by lia. Qed.

Lemma err_piped t i j w : std t i j -> err (piped t i j w) = err t.
Proof.
  intros Ht. pose proof (std_length _ _ _ Ht). destruct Ht as [H1 H2 H3 _]. unfold err, piped.
  rewrite !lookup_set by (rewrite ?length_insert; lia).
  by repeat case_decide; try lia.
Qed.

Lemma perform_pipe w inp t i j buf lc rc : std t i j ->
  perform w inp t (runcmd buf (PIPE lc rc)) =
  if pipe_ok W w then
    let w1 := false :: w in
    let w2 := false :: w1 in
    forks w1 t (perform (true :: w1) inp (<[1%nat := Some (WriteEnd w)]> t) (runcmd buf lc))
      (forks w2 t (perform (true :: w2) inp (<[0%nat := Some (ReadEnd w)]> t) (runcmd buf rc)) (Waits t (Waits t Exits)))
  else Says (err t) (line "%s") [CStr (Some (chars "pipe"))] Exits.
Proof.
  intros Ht. pose proof (std_length _ _ _ Ht) as Hlen. pose proof (std_lt _ _ _ Ht) as Hlt.
  destruct (std_lowest t i j (ReadEnd w) Ht) as [El1 El2]. cbn [runcmd perform]. rewrite El1, El2.
  destruct (pipe_ok W w); [|done]. change (0 <? 0) with false. cbv iota. fold (piped t i j w).
  assert (Hf : forall w' a b, forks w' (piped t i j w) a b = forks w' t a b).
  { intros w' a b. unfold forks. by rewrite err_piped. }
  cbv zeta. rewrite perform_fork1, Hf. change (0 =? 0) with true. change (1 =? 0) with false. cbv iota.
  rewrite perform_fork1, Hf. change (0 =? 0) with true. change (1 =? 0) with false. cbv iota.
  rewrite (perform_end _ _ t i j w 1 j (WriteEnd w)), (perform_end _ _ t i j w 0 i (ReadEnd w)); try done; try lia; auto.
  - cbn [perform]. by rewrite !Nat2Z.id, piped_close.
  - unfold piped. rewrite !lookup_set by (rewrite ?length_insert; lia). repeat case_decide; try lia; done.
  - unfold piped. rewrite !lookup_set by (rewrite ?length_insert; lia). repeat case_decide; try lia; done.
Qed.

(** A command runs as it should. *)
Lemma perform_runcmd c w inp t i j buf : shape c -> std t i j ->
  perform w inp t (runcmd buf c) = meaning w t (view (found buf) c).
Proof.
  revert w t. induction c as [argv|c IH q e m d|a IHa b IHb|a IHa b IHb|a IHa]; intros w t Hs Ht.
  - destruct argv as [|x l]; [done|]. cbn. by destruct (exec_ok W _).
  - destruct Hs as [Hs Hd]. assert (Hd' : exists n, d = Z.of_nat n /\ (n < 2)%nat).
    { destruct Hd as [-> | ->]; [exists 0%nat|exists 1%nat]; by split; [|lia]. }
    destruct Hd' as (n & -> & Hn). cbn [runcmd perform view meaning]. rewrite !Nat2Z.id.
    rewrite (std_close _ _ _ _ Ht Hn). destruct (open_ok W _ m).
    + destruct (Z.ltb_spec (Z.of_nat n) 0); [lia|]. rewrite list_insert_insert_eq.
      apply IH; [done|]. by apply std_set.
    + cbn. by rewrite err_set.
  - rewrite (perform_pipe _ _ _ _ _ _ _ _ Ht). cbn [view meaning]. destruct Hs as [Ha Hb].
    rewrite IHa, IHb by (done || by apply std_set; [|lia]). done.
  - cbn [runcmd view meaning]. rewrite perform_fork1. destruct Hs as [Ha Hb].
    change (0 =? 0) with true. change (1 =? 0) with false. cbv iota. cbn [perform]. by rewrite IHa, IHb.
  - cbn [runcmd view meaning]. rewrite perform_fork1.
    change (0 =? 0) with true. change (1 =? 0) with false. cbv iota. cbn [perform]. by rewrite IHa.
Qed.

End World.
