(* ===== verification/ShMain.v ===== *)
(** * The shell runs a script (sh.c: main)

    The lines the shell reads end with a newline.  The parser does the same on
    a line with and without it; so the printed form of a command, read as a
    line, runs as the command means. *)

From S2P Require Import Prelude Param Kernel Console Ulib Sh ShSpec ShRound ShRun.

(** ** A newline at the end *)

Section Newline.
Variable l t : list Z.
Hypothesis Hl : Forall (fun c => c <> 0) l.
Let es := length l.
Let s := l ++ 0 :: [].
Let s' := (l ++ [10]) ++ 0 :: t.

(** The parser is at the same character, or at the end of both lines. *)
Definition at_same (p p' : nat) : Prop := (p <= es)%nat /\ (p' = p \/ (p = es /\ p' = S es)).

Lemma nl_nonzero : Forall (fun c => c <> 0) (l ++ [10]).
Proof. apply Forall_app. split; [done|]. by constructor. Qed.

Lemma nl_length : length (l ++ [10]) = S es.
Proof. rewrite length_app. cbn. unfold es. lia. Qed.

Lemma nl_nth x : (x < es)%nat -> nth x s' 0 = nth x s 0.
Proof. intros Hx. unfold s, s'. unfold es in Hx. by rewrite <- app_assoc, !app_nth1 by lia. Qed.

Lemma nl_last : nth es s' 0 = 10.
Proof. unfold s', es. rewrite <- app_assoc, app_nth2 by lia. by rewrite Nat.sub_diag. Qed.

Lemma skip_ws_same p p' : at_same p p' ->
  let q := skip s es (in_str whitespace) p in
  (p <= q <= es)%nat /\
  skip s' (S es) (in_str whitespace) p' = if (q =? es)%nat then S es else q.
Proof.
  intros [Hp Hpp] q. destruct (skip_spec l [] (in_str whitespace) p) as (H1 & H2 & H3); [done|].
  fold s es q in H1, H2, H3. split; [lia|].
  pose proof (skip_unique (l ++ [10]) t (in_str whitespace) p') as Hu. rewrite nl_length in Hu. fold s' in Hu.
  apply Hu; destruct (Nat.eqb_spec q es) as [E|E].
  - lia.
  - lia.
  - intros x Hx. destruct (decide (x = es)) as [->|]; [by rewrite nl_last|]. rewrite nl_nth by lia. apply H2. lia.
  - intros x Hx. rewrite nl_nth by lia. apply H2. lia.
  - lia.
  - intros _. rewrite nl_nth by lia. apply H3. lia.
Qed.

Lemma skip_word_same f p : (p <= es)%nat -> f 10 = false ->
  skip s' (S es) f p = skip s es f p /\ (p <= skip s es f p <= es)%nat.
Proof.
  intros Hp Hf. destruct (skip_spec l [] f p) as (H1 & H2 & H3); [done|]. fold s es in H1, H2, H3.
  set (q := skip s es f p) in *. split; [|lia].
  pose proof (skip_unique (l ++ [10]) t f p q) as Hu. rewrite nl_length in Hu. fold s' in Hu. apply Hu.
  - lia.
  - intros x Hx. rewrite nl_nth by lia. apply H2. lia.
  - intros _. destruct (decide (q = es)) as [->|]; [by rewrite nl_last|]. rewrite nl_nth by lia. apply H3. lia.
Qed.

(** What the parser does on the line it does on the line with a newline. *)
Definition sim {A} (Q : A -> A -> Prop) (c c' : M nat A) : Prop :=
  forall p p' a q, at_same p p' -> c p = Ok (a, q) -> exists a' q', c' p' = Ok (a', q') /\ Q a a' /\ at_same q q'.

Lemma sim_ret {A} (Q : A -> A -> Prop) a a' : Q a a' -> sim Q (ret a) (ret a').
Proof. intros Ha p p' b q Hp [= <- <-]. by exists a', p'. Qed.

Lemma sim_bind {A B} (Q : A -> A -> Prop) (R : B -> B -> Prop) c c' k k' :
  sim Q c c' -> (forall a a', Q a a' -> sim R (k a) (k' a')) -> sim R (bind c k) (bind c' k').
Proof.
  intros Hc Hk p p' b q Hp E. apply bind_inv in E as (a & p1 & E1 & E2).
  destruct (Hc _ _ _ _ Hp E1) as (a' & p1' & E1' & Ha & Hp1).
  destruct (Hk _ _ Ha _ _ _ _ Hp1 E2) as (b' & q' & E2' & Hb & Hq).
  exists b', q'. by rewrite (bind_Ok _ _ _ _ _ E1').
Qed.

Lemma sim_stop {A} (Q : A -> A -> Prop) c' : sim Q out_of_fuel c' /\ forall msg, sim Q (panic msg) c'.
Proof. by split; [|intros msg]; intros p p' a q _ E. Qed.

Lemma nl_end : nth (S es) s' 0 = 0.
Proof. unfold s'. rewrite <- nl_length. apply nth_end. Qed.

(** Where both parsers are after white space. *)
Lemma ws_same p p' : at_same p p' ->
  let q := skip s es (in_str whitespace) p in let q' := skip s' (S es) (in_str whitespace) p' in
  at_same q q' /\ (q <= es)%nat /\ nth q' s' 0 = nth q s 0 /\ ((q < es)%nat -> q' = q).
Proof.
  intros Hp q q'. destruct (skip_ws_same p p' Hp) as [Hq Eq]. fold q q' in Hq, Eq. rewrite Eq. unfold at_same.
  destruct (Nat.eqb_spec q es) as [E|E].
  - split; [lia|]. split; [lia|]. split; [|lia]. rewrite nl_end, E. symmetry. apply (nth_end l []).
  - split; [lia|]. split; [lia|]. split; [|done]. apply nl_nth. lia.
Qed.

Lemma sim_peek toks : sim eq (peek s es toks) (peek s' (S es) toks).
Proof.
  intros p p' b q Hp. unfold peek. mrun. intros [= <- <-].
  destruct (ws_same p p' Hp) as (H1 & _ & H2 & _). rewrite H2. eexists _, _. done.
Qed.

(** Tokens agree, words with their pointers. *)
Definition tok_same (a a' : Z * nat * nat) : Prop := a.1.1 = a'.1.1 /\ (a.1.1 = 97 -> a = a').

Lemma sim_gettoken : sim tok_same (gettoken s es) (gettoken s' (S es)).
Proof.
  intros p p' a q Hp. unfold gettoken. mrun. destruct (ws_same p p' Hp) as (H1 & H2 & H3 & H4).
  set (i := skip s es _ p) in *. set (i' := skip s' (S es) _ p') in *. rewrite H3.
  destruct (decide (i = es)) as [Ei|Ei].
  { rewrite Ei. replace (nth es s 0) with 0 by (symmetry; apply (nth_end l [])). cbn [Z.eqb]. mrun.
    intros [= <- <-]. rewrite Ei in H1. eexists _, _. split; [reflexivity|].
    split; [by split|]. by apply ws_same. }
  rewrite (H4 ltac:(lia)).
  assert (Hend : forall j, (j <= es)%nat ->
    at_same (skip s es (in_str whitespace) j) (skip s' (S es) (in_str whitespace) j)).
  { intros j Hj. apply ws_same. split; [done|]. by left. }
  assert (Hgt : (nth (S i) s' 0 =? 62) = (nth (S i) s 0 =? 62)).
  { destruct (decide (S i = es)) as [->|]; [|by rewrite nl_nth by lia]. rewrite nl_last. unfold es, s. by rewrite nth_middle. }
  rewrite Hgt. clear Hgt H3 H4.
  destruct (nth i s 0 =? 0); [|destruct (_ || _)]; [| |destruct (nth i s 0 =? 62); [destruct (nth (S i) s 0 =? 62) eqn:E62|]];
    mrun; intros [= <- <-]; (eexists _, _; split; [reflexivity|]).
  - split; [done|]. apply Hend. lia.
  - split; [done|]. apply Hend. lia.
  - split; [done|]. apply Hend. destruct (decide (S i = es)) as [E|]; [|lia].
    rewrite E in E62. unfold es, s in E62. by rewrite nth_middle in E62.
  - split; [done|]. apply Hend. lia.
  - destruct (skip_word_same (fun c => negb (in_str whitespace c) && negb (in_str symbols c)) i) as [-> Hw]; [lia|done|].
    split; [done|]. apply Hend. lia.
Qed.

(** The functions of the parser, with as much fuel or more. *)
Ltac simstep := match goal with
  | |- sim _ (ret _) (ret _) => by apply sim_ret
  | |- sim _ (panic _) _ => apply sim_stop
  | |- sim _ out_of_fuel _ => apply sim_stop
  | |- sim _ (bind (peek _ _ _) _) _ => eapply sim_bind; [apply sim_peek|intros ? b ->]
  | |- sim _ (bind (gettoken _ _) _) _ =>
      let tok := fresh "tok" in let Ht := fresh "Ht" in let Hw := fresh "Hw" in
      eapply sim_bind; [apply sim_gettoken|intros [[? ?] ?] [[tok ?] ?] [Ht Hw]; cbn in Ht, Hw; subst]
  | |- sim _ (if ?b then _ else _) (if ?b then _ else _) => is_var b; destruct b
  end.

Lemma sim_parseredirs f f' c : (f <= f')%nat -> sim eq (parseredirs s es f c) (parseredirs s' (S es) f' c).
Proof.
  revert f' c. induction f as [|f IH]; intros f' c Hf; destruct f' as [|f']; try lia; cbn [parseredirs]; repeat simstep.
  destruct (Z.eqb_spec tok0 97) as [->|]; cbn [negb]; [|simstep].
  specialize (Hw0 eq_refl). injection Hw0 as -> ->. apply IH. lia.
Qed.

Lemma sim_parseargs f f' argv r : (f <= f')%nat -> sim eq (parseargs s es f argv r) (parseargs s' (S es) f' argv r).
Proof.
  revert f' argv r. induction f as [|f IH]; intros f' argv r Hf; destruct f' as [|f']; try lia; cbn [parseargs];
    repeat simstep.
  destruct (Z.eqb_spec tok 0); [simstep|]. destruct (Z.eqb_spec tok 97) as [->|]; cbn [negb]; [|simstep].
  specialize (Hw eq_refl). injection Hw as -> ->. destruct (_ <=? _)%nat; [simstep|].
  eapply sim_bind; [apply sim_parseredirs; lia|]. intros ? r' ->. apply IH. lia.
Qed.

Lemma sim_parsebacks f f' c : (f <= f')%nat -> sim eq (parsebacks s es f c) (parsebacks s' (S es) f' c).
Proof.
  revert f' c. induction f as [|f IH]; intros f' c Hf; destruct f' as [|f']; try lia; cbn [parsebacks]; repeat simstep.
  apply IH. lia.
Qed.

Lemma sim_parse f f' : (f <= f')%nat ->
  sim eq (parseline s es f) (parseline s' (S es) f') /\ sim eq (parsepipe s es f) (parsepipe s' (S es) f') /\
  sim eq (parseexec s es f) (parseexec s' (S es) f') /\ sim eq (parseblock s es f) (parseblock s' (S es) f').
Proof.
  revert f'. induction f as [|f IH]; intros f' Hf; [split_and!; cbn; apply sim_stop|].
  destruct f' as [|f']; [lia|]. destruct (IH f' ltac:(lia)) as (H1 & H2 & H3 & H4).
  split_and!; cbn [parseline parsepipe parseexec parseblock].
  - eapply sim_bind; [exact H2|intros ? c ->]. eapply sim_bind; [apply sim_parsebacks; lia|intros ? c' ->].
    repeat simstep. eapply sim_bind; [exact H1|intros ? r ->]. simstep.
  - eapply sim_bind; [exact H3|intros ? c ->]. repeat simstep. eapply sim_bind; [exact H2|intros ? r ->]. simstep.
  - repeat simstep; [exact H4|]. eapply sim_bind; [apply sim_parseredirs; lia|intros ? r ->]. apply sim_parseargs. lia.
  - simstep. destruct b; cbn [negb]; [|simstep]. simstep. eapply sim_bind; [exact H1|intros ? c ->].
    simstep. destruct b; cbn [negb]; [|simstep]. simstep. apply sim_parseredirs. lia.
Qed.

End Newline.

Lemma typed_prefix l u a : (a.2 <= length l)%nat -> typed (l ++ u) a = typed l a.
Proof.
  intros Ha. unfold typed. destruct (decide (a.1 <= a.2)%nat).
  - rewrite drop_app_le by lia. by rewrite take_app_le by (rewrite length_drop; lia).
  - by replace (a.2 - a.1)%nat with 0%nat by lia.
Qed.

(** The line of a command. *)
Definition line_of (c : command) : list Z := print c ++ [10].

Lemma parse_line c t : good c -> exists x buf p,
  parsecmd (line_of c ++ 0 :: t) 0%nat = Ok ((x, buf), p) /\ view (found buf) x = c /\ shape x.
Proof.
  intros Hg. pose proof (print_nonzero c Hg) as Hz. unfold line_of. set (l := print c) in *.
  destruct (parses l [] Hz c Hg) as (_ & _ & _ & HL).
  destruct (HL (4 * length l + 4)%nat 0%nat []) as (x & p & E & Hp & Hx);
    [unfold at_, print_at, paren; rewrite app_nil_r; by destruct c|done|lia|].
  destruct (parse_runs l [] Hz (4 * length l + 4)) as [Hr _].
  specialize (Hr (length l) ltac:(lia) 0%nat ltac:(lia) ltac:(lia)). rewrite E in Hr. destruct Hr as [_ [Hw Hs]].
  destruct Hp as [_ Hp]. cbn in Hp. replace p with (length l) in * by lia.
  destruct (sim_parse l t (4 * length l + 4) (4 * S (length l) + 4)) as [Hsim _]; [lia|].
  destruct (Hsim 0%nat 0%nat x (length l)) as (x' & p' & E' & <- & Hp'); [by split; [lia|left]|exact E|].
  pose proof (nl_nonzero l Hz) as Hz'. pose proof (nl_length l) as Hlen.
  destruct (parse_runs (l ++ [10]) t Hz' (4 * S (length l) + 4)) as [Hr' _].
  specialize (Hr' (S (length l)) ltac:(lia) 0%nat ltac:(lia)). rewrite Hlen in Hr'. specialize (Hr' ltac:(lia)).
  rewrite E' in Hr'. destruct Hr' as [_ Hok]. unfold parsecmd. rewrite strlen_app by done. rewrite Hlen. mrun.
  rewrite (bind_Ok _ _ _ _ _ E'). unfold peek at 1. mrun.
  destruct (skip_ws_same l t (length l) p' Hp') as [Hq ->].
  replace (skip _ _ _ (length l)) with (length l) by (symmetry; lia). rewrite !Nat.eqb_refl.
  eexists _, _, _. split; [reflexivity|]. split; [|done]. rewrite <- Hx. apply view_ext, Forall_forall.
  intros a Ha. rewrite (found_typed (l ++ [10]) t) by done.
  rewrite Forall_forall in Hw. destruct (Hw a Ha) as [Ha' _]. rewrite <- app_assoc.
  by rewrite !typed_prefix by lia.
Qed.

(** ** Reading a line *)

Definition no_eol (l : list Z) : Prop := Forall (fun c => c <> 10 /\ c <> 13) l.

Lemma print_no_eol c : good c -> no_eol (print c).
Proof.
  apply print_chars; [intros x Hx; split; intros ->; done|]. apply (bool_decide_unpack _). by vm_compute.
Qed.

Section Script.
Variable W : world.

Lemma gets_line fuel i nbuf acc k w t l rest : no_eol l -> (i + length l + 1 < nbuf)%nat -> (length l < fuel)%nat ->
  perform W w (l ++ 10 :: rest) t (gets_ fuel i nbuf acc k) =
  perform W w rest t (k (acc ++ l ++ 10 :: replicate (nbuf - i - length l - 1) 0)).
Proof.
  intros Hl. revert fuel i acc. induction Hl as [|c l [H1 H2] _ IH]; intros fuel i acc Hi Hf;
    (destruct fuel as [|fuel]; [cbn in Hf; lia|]); cbn [gets_ length app] in *;
    (destruct (Nat.ltb_spec (i + 1) nbuf); [|lia]); cbn [perform].
  - by replace (nbuf - i - 0 - 1)%nat with (nbuf - i - 1)%nat by lia.
  - destruct (Z.eqb_spec c 10), (Z.eqb_spec c 13); [done..|]. cbn [orb]. rewrite IH by lia.
    rewrite <- app_assoc. do 4 f_equal. do 2 f_equal. f_equal. lia.
Qed.

(** ** The script *)

(** A command whose line fits the buffer, and is not one of the builtin cd. *)
Definition scripted (c : command) : Prop :=
  good c /\ (length (print c) < 99)%nat /\ take 3 (line_of c) <> [99; 100; 32].

Definition script (cs : list command) : list Z := concat (line_of <$> cs).

Fixpoint script_meaning (w : list bool) (t : table) (cs : list command) : behaviour :=
  Says (err t) (chars "$ ") []
    (match cs with
     | [] => Exits
     | c :: cs => forks W w t (meaning W (true :: w) t c) (Waits t (script_meaning (false :: w) t cs))
     end).

Lemma not_cd (l u : list Z) : take 3 (l ++ [10]) <> [99; 100; 32] ->
  (nth 0 ((l ++ [10]) ++ 0 :: u) 0 =? 99) && (nth 1 ((l ++ [10]) ++ 0 :: u) 0 =? 100) &&
  (nth 2 ((l ++ [10]) ++ 0 :: u) 0 =? 32) = false.
Proof.
  intros H. apply not_true_iff_false. intros [[H1 H2]%andb_true_iff H3]%andb_true_iff.
  apply Z.eqb_eq in H1, H2, H3. destruct l as [|a [|b [|c l]]]; cbn in *; try lia. apply H. by rewrite H1, H2, H3.
Qed.

Lemma sh_loop_script cs w t i j fuel : std t i j -> Forall scripted cs -> (length cs < fuel)%nat ->
  perform W w (script cs) t (sh_loop fuel) = script_meaning w t cs.
Proof.
  intros Ht Hcs. revert w fuel. induction Hcs as [|c cs (Hg & Hlen & Hcd) _ IH]; intros w fuel Hf;
    (destruct fuel as [|fuel]; [cbn in Hf; lia|]); cbn [sh_loop]; unfold getcmd; cbn [perform script_meaning]; f_equal.
  pose proof (print_nonzero c Hg) as Hz. unfold script. cbn [fmap list_fmap concat]. fold (script cs).
  unfold line_of at 1. rewrite <- app_assoc. cbn [app].
  rewrite gets_line by (by apply print_no_eol || lia). cbn [app]. set (u := replicate (98 - length (print c)) 0).
  replace (print c ++ 10 :: replicate (100 - 0 - length (print c) - 1) 0) with (line_of c ++ 0 :: u).
  2:{ unfold line_of, u. rewrite <- app_assoc. cbn [app]. do 2 f_equal.
      by replace (100 - 0 - length (print c) - 1)%nat with (S (98 - length (print c))) by lia. }
  destruct (Z.eqb_spec (nth 0 (line_of c ++ 0 :: u) 0) 0) as [E0|_].
  { exfalso. unfold line_of in E0. destruct Hz as [|x l Hx _]; [done|]. by cbn in E0. }
  change (0 <? 0) with false. cbv iota. unfold line_of at 1 2 3. rewrite not_cd by done. rewrite perform_fork1.
  change (0 =? 0) with true. change (1 =? 0) with false. cbv iota.
  destruct (parse_line c u Hg) as (x & buf & p & -> & Hv & Hs). cbn [perform].
  rewrite (perform_runcmd W x _ _ t i j buf Hs Ht), Hv, IH by (cbn in Hf; lia). done.
Qed.

End Script.

(** The shell runs a script.  From a table with descriptors 0 to 2 open, the
    shell prompts for each line, forks a child that runs the command of the
    line as it means, waits for it, and exits at the end of the input.  A
    redirection or a pipe replaces descriptor 0 or 1 of the programs it is
    for; no program, and no shell that waits, keeps an end of a pipe in
    another descriptor (C15). *)
Theorem shell_runs_script W w t i j cs : std t i j -> Forall scripted cs ->
  perform W w (script cs) t (sh_main (S (length cs))) = script_meaning W w t cs.
Proof.
  intros Ht Hcs. unfold sh_main. cbn [sh_open perform]. destruct (std_lowest t i j (ReadEnd []) Ht) as [-> _].
  pose proof (std_length _ _ _ Ht) as Hlen. pose proof (std_lt _ _ _ Ht) as Hlt.
  assert (Hl : perform W w (script cs) t (sh_loop (S (length cs))) = script_meaning W w t cs)
    by (eapply sh_loop_script; [done|done|lia]).
  destruct (open_ok W _ 2); [|done]. destruct (Z.leb_spec 0 (Z.of_nat i)), (Z.leb_spec 3 (Z.of_nat i)); try lia.
  cbn [perform]. rewrite Nat2Z.id, list_insert_insert_eq.
  by rewrite list_insert_id by apply (std_i _ _ _ Ht).
Qed.

Definition tty : option handle := Some (File (chars "console") 2).
Definition demo_table : table := replicate 3 tty ++ replicate 13 None.
Definition all_ok : world :=
  {| open_ok _ _ := true; exec_ok _ := true; chdir_ok _ := true; fork_ok _ := true; pipe_ok _ := true |}.

(** A pipeline with a redirection: the left program writes to the pipe, the
    right one reads from it and writes to the file. *)
Definition demo_line : command :=
  Pipe (Exec [chars "ls"]) (Redir (Exec [chars "wc"; chars "x"]) (chars "f") O_WRONLY_CREATE 1).

Lemma shell_runs_script_witness :
  script [demo_line] = chars "ls |wc x >f " ++ [10] /\
  perform all_ok [] (script [demo_line]) demo_table (sh_main 2) =
  Says tty (chars "$ ") []
    (Forks
       (Forks (Runs (chars "ls") [chars "ls"] (<[1%nat := Some (WriteEnd [true])]> demo_table))
          (Forks (Runs (chars "wc") [chars "wc"; chars "x"]
                    (<[0%nat := Some (ReadEnd [true])]> (<[1%nat := Some (File (chars "f") O_WRONLY_CREATE)]> demo_table)))
             (Waits demo_table (Waits demo_table Exits))))
       (Waits demo_table (Says tty (chars "$ ") [] Exits))).
Proof.
  split; [reflexivity|]. change 2%nat with (S (length [demo_line])).
  rewrite (shell_runs_script all_ok [] demo_table 3 4 [demo_line]).
  - reflexivity.
  - split; [reflexivity|reflexivity|lia|]. intros k Hk Hne. exists (File (chars "console") 2).
    destruct k as [|[|[|[|k]]]]; [reflexivity..|lia|lia].
  - constructor; [|constructor]. split; [|split; [vm_compute; lia|vm_compute; discriminate]].
    assert (Hw : forall w, forallb wordc w && negb (bool_decide (w = [])) = true -> good_word w).
    { intros w [H1 H2]%andb_true_iff. split.
      - intros ->. discriminate H2.
      - apply Forall_forall. intros x Hx. rewrite forallb_forall in H1. by apply H1, list_elem_of_In. }
    cbn [good demo_line]. unfold good_mode.
    repeat first [split | apply Forall_cons | apply Forall_nil | apply Hw; reflexivity | cbn; unfold MAXARGS; lia].
    right. reflexivity.
Defined.
