(* ===== verification/UserProgs.v ===== *)
(** * wc, cat, echo and the names of ls (wc.c, cat.c, echo.c, ls.c)

    The descriptor a program reads from delivers the pieces of [u_in]; opening
    a file replaces them by the pieces of the file, [open] of its name.  Reads
    and writes do not fail. *)

From S2P Require Import Prelude Param Kernel Console Ulib.

Definition spaces : list Z := [32; 13; 9; 10; 11].
Definition is_space (c : Z) : bool := match strchr spaces c with Some _ => true | None => false end.

(** [x++] on an int *)
Definition incr (x : Z) : M uio Z := if x + 1 <? 2 ^ 31 then ret (x + 1) else fault.

(** ** wc *)

(** The loop over the bytes of the buffer. *)
Fixpoint wc_bytes (bs : list Z) (l w c : Z) (inword : bool) : M uio (Z * Z * Z * bool) :=
  match bs with
  | [] => ret (l, w, c, inword)
  | b :: bs =>
      let! c := incr c in
      let! l := (if b =? 10 then incr l else ret l) in
      if is_space b then wc_bytes bs l w c false
      else if negb inword then let! w := incr w in wc_bytes bs l w c true
      else wc_bytes bs l w c inword
  end.

Fixpoint wc_loop (fuel : nat) (l w c : Z) (inword : bool) : M uio (Z * Z * Z) :=
  match fuel with
  | O => out_of_fuel
  | S f =>
      let! bs := read 512 in
      if (0 <? length bs)%nat then
        let! (l, w, c, inword) := wc_bytes bs l w c inword in
        wc_loop f l w c inword
      else ret (l, w, c)
  end.

Definition wc_format : list Z := chars "%d %d %d %s" ++ [10].

Definition wc (name : list Z) : M uio unit :=
  let! s := get in
  let! (l, w, c) := wc_loop (S (length (concat (u_in s)))) 0 0 0 false in
  printf 1 wc_format [CNum l; CNum w; CNum c; CStr (Some name)].

(** ** cat *)

Fixpoint cat_loop (fuel : nat) : M uio unit :=
  match fuel with
  | O => out_of_fuel
  | S f =>
      let! bs := read 512 in
      if (0 <? length bs)%nat then do! write 1 bs in cat_loop f
      else ret tt
  end.
Definition cat : M uio unit :=
  let! s := get in cat_loop (S (length (concat (u_in s)))).

(** ** main *)

Section Main.
Variable open : list Z -> option (list (list Z)).

Definition use (ps : list (list Z)) : M uio unit :=
  modify (fun s => {| u_in := ps; u_out := u_out s |}).

(** The loop of [main] over the files; [err] is what a failed open prints. *)
Fixpoint each_file (err : list Z) (run : list Z -> M uio unit) (names : list (list Z)) : M uio unit :=
  match names with
  | [] => ret tt
  | n :: names =>
      match open n with
      | None => printf 1 err [CStr (Some n)]
      | Some ps => do! use ps in do! run n in each_file err run names
      end
  end.

(** [args] are the arguments after the name of the program. *)
Definition wc_main (args : list (list Z)) : M uio unit :=
  match args with
  | [] => wc []
  | _ => each_file (chars "wc: cannot open %s" ++ [10]) wc args
  end.

Definition cat_main (args : list (list Z)) : M uio unit :=
  match args with
  | [] => cat
  | _ => each_file (chars "cat: cannot open %s" ++ [10]) (fun _ => cat) args
  end.

End Main.

Fixpoint echo_main (args : list (list Z)) : M uio unit :=
  match args with
  | [] => ret tt
  | a :: args =>
      do! printf 1 (chars "%s%s")
        [CStr (Some a); CStr (Some (match args with [] => [10] | _ => [32] end))] in
      echo_main args
  end.

(** ** ls *)

(** The scan for the last slash: the first [i] characters are left. *)
Fixpoint last_slash (path : list Z) (i : nat) : nat :=
  if nth i path 0 =? 47 then S i
  else match i with O => O | S j => last_slash path j end.

Definition fmtname (path : list Z) : list Z :=
  let p := drop (last_slash path (length path)) path in
  if (14 <=? length p)%nat then p else p ++ replicate (14 - length p) 32.

(** ** What they do *)

(** The parts of the text between white space. *)
Fixpoint split_spaces (bs : list Z) : list (list Z) :=
  match bs with
  | [] => [[]]
  | b :: bs =>
      if is_space b then [] :: split_spaces bs
      else match split_spaces bs with p :: ps => (b :: p) :: ps | [] => [[b]] end
  end.
Definition words (bs : list Z) : list (list Z) := filter (fun p => p <> []) (split_spaces bs).
Definition newlines (bs : list Z) : list Z := filter (fun b => b = 10) bs.

(** The words that begin in [bs], after a character of a word or not. *)
Fixpoint starts (inword : bool) (bs : list Z) : Z :=
  match bs with
  | [] => 0
  | b :: bs =>
      if is_space b then starts false bs else (if inword then 0 else 1) + starts true bs
  end.
Fixpoint ends (inword : bool) (bs : list Z) : bool :=
  match bs with [] => inword | b :: bs => ends (negb (is_space b)) bs end.

Lemma starts_app inword a b : starts inword (a ++ b) = starts inword a + starts (ends inword a) b.
Proof.
  revert inword. induction a as [|x a IH]; intros inword; cbn [app starts ends]; [lia|].
  destruct (is_space x); rewrite IH; cbn [negb]; lia.
Qed.
Lemma ends_app inword a b : ends inword (a ++ b) = ends (ends inword a) b.
Proof. revert inword. induction a as [|x a IH]; intros inword; cbn [app ends]; [done|]. apply IH. Qed.

Lemma starts_bounds inword bs : 0 <= starts inword bs <= Z.of_nat (length bs).
Proof.
  revert inword. induction bs as [|b bs IH]; intros inword; cbn [starts length]; [lia|].
  pose proof (IH true). pose proof (IH false). destruct (is_space b), inword; lia.
Qed.

Lemma starts_words bs : exists p ps, split_spaces bs = p :: ps /\
  starts false bs = Z.of_nat (length (words bs)) /\
  starts true bs = Z.of_nat (length (filter (fun p => p <> []) ps)).
Proof.
  unfold words. induction bs as [|b bs (p & ps & E & H1 & H2)]; cbn [split_spaces starts].
  { exists [], []. done. }
  rewrite E in H1 |- *. destruct (is_space b).
  - exists [], (p :: ps). split; [done|]. rewrite (filter_cons_False _ []) by (by intros []). done.
  - exists (b :: p), ps. split; [done|]. rewrite filter_cons_True by done. cbn [length]. lia.
Qed.

Lemma newlines_length bs : (length (newlines bs) <= length bs)%nat.
Proof. apply length_filter. Qed.

Lemma counts_eq {B} (l w c l' w' c' : Z) (b : B) (s : uio) : l = l' -> w = w' -> c = c' ->
  Ok ((l, w, c, b), s) = Ok ((l', w', c', b), s) /\ Ok ((l, w, c), s) = Ok ((l', w', c'), s).
Proof. by intros -> -> ->. Qed.

Lemma wc_bytes_run bs l w c inword s :
  0 <= l <= c -> 0 <= w <= c -> c + Z.of_nat (length bs) < 2 ^ 31 ->
  wc_bytes bs l w c inword s =
  Ok ((l + Z.of_nat (length (newlines bs)), w + starts inword bs, c + Z.of_nat (length bs), ends inword bs), s).
Proof.
  revert l w c inword. induction bs as [|b bs IH]; intros l w c inword Hl Hw Hc; cbn [wc_bytes starts ends length] in *.
  { cbn [newlines filter list_filter length]. by rewrite !Z.add_0_r. }
  unfold incr. destruct (Z.ltb_spec (c + 1) (2 ^ 31)); [|lia]. rewrite bind_ret.
  assert (El : (if b =? 10 then if l + 1 <? 2 ^ 31 then ret (l + 1) else fault else ret l) s =
    Ok (l + (if decide (b = 10) then 1 else 0), s)).
  { destruct (Z.eqb_spec b 10); [destruct (Z.ltb_spec (l + 1) (2 ^ 31)); [|lia]; by rewrite decide_True|].
    by rewrite decide_False, Z.add_0_r. }
  rewrite (bind_Ok _ _ _ _ _ El). clear El.
  assert (En : Z.of_nat (length (newlines (b :: bs))) = (if decide (b = 10) then 1 else 0) + Z.of_nat (length (newlines bs))).
  { unfold newlines. rewrite filter_cons. destruct (decide (b = 10)); cbn [length]; lia. }
  rewrite En. set (d := if decide (b = 10) then 1 else 0) in *.
  assert (Hd : 0 <= d <= 1) by (unfold d; case_decide; lia).
  destruct (is_space b); [rewrite IH by lia; apply counts_eq; lia|].
  destruct inword; cbn [negb]; [rewrite IH by lia; apply counts_eq; lia|].
  destruct (Z.ltb_spec (w + 1) (2 ^ 31)); [|lia]. rewrite bind_ret, IH by lia. apply counts_eq; lia.
Qed.

(** What is left of the input after a read. *)
Lemma read_step n s : Forall (fun p => p <> []) (u_in s) -> (0 < n)%nat ->
  exists bs ps, read n s = Ok (bs, {| u_in := ps; u_out := u_out s |}) /\ concat (u_in s) = bs ++ concat ps /\
    Forall (fun p => p <> []) ps /\ (bs = [] -> ps = [] /\ u_in s = []).
Proof.
  intros Hp Hn. unfold read. mrun. destruct (u_in s) as [|p ps] eqn:E.
  { exists [], []. split; [by destruct s; cbn in *; subst|]. done. }
  apply Forall_cons in Hp as [Hp Hps]. case_bool_decide as Hd.
  - exists (take n p), ps. split; [done|]. pose proof (take_drop n p) as Ht. rewrite Hd, app_nil_r in Ht.
    rewrite Ht. split; [done|]. split; [done|]. by intros ->.
  - exists (take n p), (drop n p :: ps). split; [done|]. cbn [concat].
    split; [by rewrite app_assoc, take_drop|]. split; [by constructor|].
    destruct p; [done|]. destruct n; [lia|]. done.
Qed.

Lemma wc_loop_run fuel l w c inword s : Forall (fun p => p <> []) (u_in s) ->
  let D := concat (u_in s) in (length D < fuel)%nat ->
  0 <= l <= c -> 0 <= w <= c -> c + Z.of_nat (length D) < 2 ^ 31 ->
  wc_loop fuel l w c inword s =
  Ok ((l + Z.of_nat (length (newlines D)), w + starts inword D, c + Z.of_nat (length D)),
      {| u_in := []; u_out := u_out s |}).
Proof.
  revert l w c inword s. induction fuel as [|fuel IH]; intros l w c inword s Hp D Hf Hl Hw Hc; [lia|].
  destruct (read_step 512 s Hp) as (bs & ps & E & HD & Hps & Hnil); [lia|]. fold D in HD.
  cbn [wc_loop]. rewrite (bind_Ok _ _ _ _ _ E). rewrite HD in *. rewrite length_app in *.
  destruct bs as [|b bs].
  { destruct Hnil as [-> _]; [done|]. cbn. by rewrite !Z.add_0_r. }
  destruct (Nat.ltb_spec 0 (length (b :: bs))); [|cbn in *; lia].
  set (bs' := b :: bs) in *. pose proof (newlines_length bs'). pose proof (starts_bounds inword bs').
  rewrite (bind_Ok _ _ _ _ _ (wc_bytes_run bs' l w c inword _ Hl Hw ltac:(lia))).
  rewrite IH; cbn [u_in]; try done; try lia. cbn [u_out]. unfold newlines. rewrite filter_app, length_app, starts_app.
  apply (counts_eq _ _ _ _ _ _ tt); lia.
Qed.

(** wc prints the numbers of lines, words and characters of its input, however
    the reads cut it into pieces; words are the parts between white space. *)
Theorem wc_spec name s : let D := concat (u_in s) in
  Forall (fun p => p <> []) (u_in s) -> Z.of_nat (length D) < 2 ^ 31 ->
  wc name s =
  printf 1 wc_format [CNum (Z.of_nat (length (newlines D))); CNum (Z.of_nat (length (words D)));
                      CNum (Z.of_nat (length D)); CStr (Some name)] {| u_in := []; u_out := u_out s |}.
Proof.
  intros D Hp Hl. unfold wc. mrun. fold D.
  rewrite (bind_Ok _ _ _ _ _ (wc_loop_run (S (length D)) 0 0 0 false s Hp ltac:(fold D; lia) ltac:(lia) ltac:(lia) ltac:(fold D; lia))).
  fold D. destruct (starts_words D) as (? & ? & _ & -> & _). done.
Qed.

Lemma cat_loop_run fuel s : Forall (fun p => p <> []) (u_in s) -> (length (concat (u_in s)) < fuel)%nat ->
  exists outs, cat_loop fuel s = Ok (tt, {| u_in := []; u_out := u_out s ++ ((fun bs => (1, bs)) <$> outs) |}) /\
    concat outs = concat (u_in s).
Proof.
  revert s. induction fuel as [|fuel IH]; intros s Hp Hf; [lia|].
  destruct (read_step 512 s Hp) as (bs & ps & E & HD & Hps & Hnil); [lia|].
  cbn [cat_loop]. rewrite (bind_Ok _ _ _ _ _ E). rewrite HD, length_app in Hf. rewrite HD.
  destruct bs as [|b bs].
  { destruct Hnil as [-> _]; [done|]. exists []. by rewrite app_nil_r. }
  destruct (Nat.ltb_spec 0 (length (b :: bs))); [|cbn in *; lia]. unfold write. mrun.
  destruct (IH {| u_in := ps; u_out := u_out s ++ [(1, b :: bs)] |} Hps) as (outs & E2 & Ho); [cbn [u_in length] in *; lia|].
  exists ((b :: bs) :: outs). split; [|cbn [concat]; by rewrite Ho].
  etransitivity; [exact E2|]. cbn [u_out fmap list_fmap]. by rewrite <- app_assoc.
Qed.

(** The name ls prints: what follows the last slash, padded with blanks. *)
Lemma fmtname_last dir name : Forall (fun c => c <> 47) name ->
  fmtname (dir ++ 47 :: name) = name ++ replicate (14 - length name) 32.
Proof.
  intros Hn. unfold fmtname.
  assert (E : forall k, (k <= S (length name))%nat -> last_slash (dir ++ 47 :: name) (length dir + k) = S (length dir)).
  { induction k as [|k IH]; intros Hk.
    - rewrite Nat.add_0_r. assert (Hm : nth (length dir) (dir ++ 47 :: name) 0 = 47) by apply nth_middle.
      revert Hm. destruct (length dir); intros Hm; cbn [last_slash]; by rewrite Hm.
    - rewrite Nat.add_succ_r. cbn [last_slash]. destruct (Z.eqb_spec (nth (S (length dir + k)) (dir ++ 47 :: name) 0) 47) as [E|].
      + exfalso. rewrite app_nth2 in E by lia. replace (S (length dir + k) - length dir)%nat with (S k) in E by lia.
        cbn [nth] in E. destruct (decide (k < length name)%nat) as [Hlt|].
        * by apply (proj1 (Forall_nth _ 0 _) Hn) in Hlt.
        * by rewrite nth_overflow in E by lia.
      + apply IH. lia. }
  rewrite length_app. cbn [length]. rewrite E by lia. rewrite drop_app_ge by lia.
  replace (S (length dir) - length dir)%nat with 1%nat by lia. cbn [drop]. rewrite drop_0.
  destruct (Nat.leb_spec 14 (length name)); [|done]. replace (14 - length name)%nat with 0%nat by lia.
  by rewrite app_nil_r.
Qed.

(** Two pieces that cut a word. *)
Lemma wc_spec_witness :
  wc (chars "f") {| u_in := [chars "one tw"; chars "o" ++ [10] ++ chars "x"]; u_out := [] |} =
  printf 1 wc_format [CNum 1; CNum 3; CNum 9; CStr (Some (chars "f"))] {| u_in := []; u_out := [] |}.
Proof.
  rewrite (wc_spec (chars "f") {| u_in := [chars "one tw"; chars "o" ++ [10] ++ chars "x"]; u_out := [] |}).
  - reflexivity.
  - repeat constructor; discriminate.
  - vm_compute. reflexivity.
Defined.
