(* ===== verification/Commands.v ===== *)
(** * ls, rm, mkdir, ln and kill (ls.c, rm.c, mkdir.c, ln.c, kill.c, ulib.c: stat)

    The system calls are an argument, the class [Calls] on the state [W] of the
    kernel as the program sees it; [FileCalls] states what ls relies on.  A
    program's output is that of Ulib. *)

From S2P Require Import Prelude Param Fs Kernel Console Ulib UserProgs.

Class Calls (W : Type) := {
  c_open : list Z -> Z -> W -> Z * W;             (* a descriptor, or -1 *)
  c_fstat : Z -> W -> option stat * W;
  c_read : Z -> nat -> W -> list Z * W;           (* the bytes read; none on an error *)
  c_close : Z -> W -> W;
  c_link : list Z -> list Z -> W -> Z * W;
  c_unlink : list Z -> W -> Z * W;
  c_mkdir : list Z -> W -> Z * W;
  c_kill : Z -> W -> Z * W
}.

Record cst (W : Type) := { c_io : uio; c_w : W }.
Arguments c_io {W}. Arguments c_w {W}.

Section Code.
Context {W : Type} `{Calls W}.

Definition set_w (w : W) (s : cst W) : cst W := {| c_io := c_io s; c_w := w |}.
Definition call {A} (f : W -> A * W) : M (cst W) A :=
  let! s := get in
  do! put (set_w (f (c_w s)).2 s) in
  ret (f (c_w s)).1.

Definition print (fd : Z) (fmt : list Z) (args : list carg) : M (cst W) unit :=
  fun s => match printf fd fmt args (c_io s) with
           | Ok (_, io) => Ok (tt, {| c_io := io; c_w := c_w s |})
           | Panic msg => Panic msg
           | Fault => Fault
           | Blocked => Blocked
           | OutOfFuel => OutOfFuel
           end.

Definition close (fd : Z) : M (cst W) unit := modify (fun s => set_w (c_close fd (c_w s)) s).

Definition O_RDONLY : Z := 0.

(** [None] is the result -1. *)
Definition stat (n : list Z) : M (cst W) (option stat) :=
  let! fd := call (c_open n O_RDONLY) in
  if fd <? 0 then ret None
  else
    let! r := call (c_fstat fd) in
    do! close fd in
    ret r.

(** ** ls *)

Definition print_stat (path : list Z) (st : Fs.stat) : M (cst W) unit :=
  print 1 (chars "%s %d %d %d" ++ [10])
    [CStr (Some (fmtname path)); CNum (st_type st); CNum (st_ino st); CNum (st_size st)].

(** The loop over the entries; [dir] is the path and its slash. *)
Fixpoint ls_entries (fuel : nat) (fd : Z) (dir : list Z) : M (cst W) unit :=
  match fuel with
  | O => out_of_fuel
  | S f =>
      let! de := call (c_read fd 16) in
      if (length de =? 16)%nat then
        if de_inum de =? 0 then ls_entries f fd dir
        else
          let buf := str (dir ++ de_name de ++ [0]) in
          let! st := stat buf in
          do! (match st with
               | None => print 1 (chars "ls: cannot stat %s" ++ [10]) [CStr (Some buf)]
               | Some st => print_stat buf st
               end) in
          ls_entries f fd dir
      else ret tt
  end.

Definition ls (fuel : nat) (path : list Z) : M (cst W) unit :=
  let! fd := call (c_open path 0) in
  if fd <? 0 then print 2 (chars "ls: cannot open %s" ++ [10]) [CStr (Some path)]
  else
    let! st := call (c_fstat fd) in
    match st with
    | None =>
        do! print 2 (chars "ls: cannot stat %s" ++ [10]) [CStr (Some path)] in
        close fd
    | Some st =>
        do! (if st_type st =? T_FILE then print_stat path st
             else if st_type st =? T_DIR then
               if 512 <? Z.of_nat (length path) + 1 + DIRSIZ + 1
               then print 1 (chars "ls: path too long" ++ [10]) []
               else ls_entries fuel fd (path ++ [47])
             else ret tt) in
        close fd
    end.

(** The loops of the [main] functions; [args] are the arguments after the
    name of the program. *)
Fixpoint ls_each (fuel : nat) (args : list (list Z)) : M (cst W) unit :=
  match args with
  | [] => ret tt
  | a :: args => do! ls fuel a in ls_each fuel args
  end.

Definition ls_main (fuel : nat) (args : list (list Z)) : M (cst W) unit :=
  match args with
  | [] => ls fuel (chars ".")
  | _ => ls_each fuel args
  end.

(** ** rm and mkdir *)

Fixpoint until_failure (f : list Z -> W -> Z * W) (err : list Z) (args : list (list Z))
  : M (cst W) unit :=
  match args with
  | [] => ret tt
  | a :: args =>
      let! r := call (f a) in
      if r <? 0 then print 2 err [CStr (Some a)] else until_failure f err args
  end.

Definition rm_main (args : list (list Z)) : M (cst W) unit :=
  match args with
  | [] => print 2 (chars "Usage: rm files..." ++ [10]) []
  | _ => until_failure c_unlink (chars "rm: %s failed to delete" ++ [10]) args
  end.

Definition mkdir_main (args : list (list Z)) : M (cst W) unit :=
  match args with
  | [] => print 2 (chars "Usage: mkdir files..." ++ [10]) []
  | _ => until_failure c_mkdir (chars "mkdir: %s failed to create" ++ [10]) args
  end.

(** ** ln and kill *)

Definition ln_main (args : list (list Z)) : M (cst W) unit :=
  match args with
  | [old; new] =>
      let! r := call (c_link old new) in
      if r <? 0 then print 2 (chars "link %s %s: failed" ++ [10]) [CStr (Some old); CStr (Some new)]
      else ret tt
  | _ => print 2 (chars "Usage: ln old new" ++ [10]) []
  end.

(** [atoi] of a number that does not fit in an int is a fault. *)
Fixpoint kill_each (args : list (list Z)) : M (cst W) unit :=
  match args with
  | [] => ret tt
  | a :: args =>
      match atoi a with
      | None => fault
      | Some pid => let! _ := call (c_kill pid) in kill_each args
      end
  end.

Definition kill_main (args : list (list Z)) : M (cst W) unit :=
  match args with
  | [] => print 2 (chars "usage: kill pid..." ++ [10]) []
  | _ => kill_each args
  end.
End Code.

(** ** What ls prints *)

(** The calls on files: an open file is read from its offset, and files do
    not change while ls runs. *)
Class FileCalls (W : Type) `{Calls W} := {
  files : W -> list Z -> option (Fs.stat * list Z);
  fds : W -> gmap Z (list Z * nat);
  open_file w n st d : files w n = Some (st, d) -> (size (fds w) < Z.to_nat NOFILE)%nat ->
    let '(fd, w') := c_open n 0 w in
    0 <= fd /\ fds w !! fd = None /\ fds w' = <[fd := (n, 0%nat)]> (fds w) /\ files w' = files w;
  open_none w n : files w n = None -> c_open n 0 w = (-1, w);
  fstat_file w fd n o st d : fds w !! fd = Some (n, o) -> files w n = Some (st, d) ->
    c_fstat fd w = (Some st, w);
  read_file w fd n o st d k : fds w !! fd = Some (n, o) -> files w n = Some (st, d) ->
    let '(bs, w') := c_read fd k w in
    bs = take k (drop o d) /\ fds w' = <[fd := (n, o + length bs)%nat]> (fds w) /\
    files w' = files w;
  close_file w fd x : fds w !! fd = Some x ->
    fds (c_close fd w) = delete fd (fds w) /\ files (c_close fd w) = files w
}.

Section Ls.
Context {W : Type} `{FC : FileCalls W}.

Definition stat_line (path : list Z) (st : Fs.stat) : M uio unit :=
  printf 1 (chars "%s %d %d %d" ++ [10])
    [CStr (Some (fmtname path)); CNum (st_type st); CNum (st_ino st); CNum (st_size st)].

(** The lines for the entries in use, in order. *)
Fixpoint listing (fs : list Z -> option (Fs.stat * list Z)) (dir : list Z) (es : list (list Z))
  : M uio unit :=
  match es with
  | [] => ret tt
  | e :: es =>
      if de_inum e =? 0 then listing fs dir es
      else
        let path := str (dir ++ de_name e ++ [0]) in
        do! (match fs path with
             | Some (st, _) => stat_line path st
             | None => printf 1 (chars "ls: cannot stat %s" ++ [10]) [CStr (Some path)]
             end) in
        listing fs dir es
  end.

Lemma putcs_total fd l io : exists io', putcs fd l io = Ok (tt, io').
Proof.
  revert io. induction l as [|c l IH]; intros io; [by eexists|]. cbn [putcs]. unfold putc, write.
  rewrite bind_modify. apply IH.
Qed.

Lemma print_run fd fmt args (s : cst W) io :
  printf fd fmt args (c_io s) = Ok (tt, io) ->
  print fd fmt args s = Ok (tt, {| c_io := io; c_w := c_w s |}).
Proof. unfold print. by intros ->. Qed.

(** The arguments are those the format asks for. *)
Fixpoint fits (fmt : list Z) (pct : bool) (args : list carg) : bool :=
  match fmt with
  | [] => true
  | c :: fmt =>
      if negb pct then fits fmt (c =? 37) args
      else if (c =? 100) || (c =? 120) || (c =? 112) || (c =? 99) then
        match args with CNum _ :: args => fits fmt false args | _ => false end
      else if c =? 115 then
        match args with CStr _ :: args => fits fmt false args | _ => false end
      else fits fmt false args
  end.

Lemma then_total {A} (c : M uio A) k io a io1 :
  c io = Ok (a, io1) -> (exists io', k a io1 = Ok (tt, io')) -> exists io', bind c k io = Ok (tt, io').
Proof. intros E. by rewrite (bind_Ok _ _ _ _ _ E). Qed.

Lemma printf_loop_total fd fmt pct args io :
  fits fmt pct args = true -> exists io', printf_loop fd fmt pct args io = Ok (tt, io').
Proof.
  revert pct args io. induction fmt as [|c fmt IH]; intros pct args io Hf; [by eexists|].
  cbn [fits printf_loop] in *. destruct pct; cbn [negb] in *.
  2: { destruct (c =? 37); [by apply IH|]. eapply then_total; [reflexivity|by apply IH]. }
  destruct (c =? 100); cbn [orb] in *.
  { destruct args as [|[v|v] args]; try discriminate Hf. unfold uprintint.
    match goal with |- context [putcs ?d ?l] => destruct (putcs_total d l io) as [io1 E] end.
    eapply then_total; [exact E|by apply IH]. }
  destruct ((c =? 120) || (c =? 112)) eqn:Ex; cbn [orb] in *.
  { destruct args as [|[v|v] args]; try discriminate Hf. unfold uprintint.
    match goal with |- context [putcs ?d ?l] => destruct (putcs_total d l io) as [io1 E] end.
    eapply then_total; [exact E|by apply IH]. }
  destruct (Z.eqb_spec c 115) as [->|].
  { cbn in Hf. destruct args as [|[v|v] args]; try discriminate Hf.
    match goal with |- context [putcs ?d ?l] => destruct (putcs_total d l io) as [io1 E] end.
    eapply then_total; [exact E|by apply IH]. }
  destruct (c =? 99).
  { destruct args as [|[v|v] args]; try discriminate Hf. eapply then_total; [reflexivity|by apply IH]. }
  destruct (c =? 37); [eapply then_total; [reflexivity|by apply IH]|].
  eapply then_total; [reflexivity|]. eapply then_total; [reflexivity|by apply IH].
Qed.

(** [stat] leaves the descriptors as they were. *)
Lemma stat_run n (s : cst W) :
  (size (fds (c_w s)) < Z.to_nat NOFILE)%nat ->
  exists w', stat n s = Ok (fst <$> files (c_w s) n, {| c_io := c_io s; c_w := w' |}) /\
    files w' = files (c_w s) /\ fds w' = fds (c_w s).
Proof.
  intros Hs. unfold stat, call, close. mrun. change O_RDONLY with 0.
  destruct (files (c_w s) n) as [[st d]|] eqn:E.
  - pose proof (open_file _ _ _ _ E Hs) as Ho. destruct (c_open n 0 (c_w s)) as [fd w1].
    destruct Ho as (Hfd & Hn & Hfds & Hfi). cbn [fst snd]. destruct (Z.ltb_spec fd 0); [lia|].
    mrun. cbn [c_w set_w]. assert (Hl : fds w1 !! fd = Some (n, 0%nat)) by (rewrite Hfds; by simplify_map_eq).
    rewrite (fstat_file w1 fd n 0 st d Hl) by (by rewrite Hfi). cbn [fst snd].
    destruct (close_file w1 fd _ Hl) as [Hc1 Hc2]. exists (c_close fd w1). split; [done|].
    rewrite Hc1, Hc2, Hfi, Hfds. split; [done|]. by rewrite delete_insert_id.
  - rewrite (open_none _ _ E). cbn [fst snd]. change (-1 <? 0) with true. cbv iota.
    exists (c_w s). split; [by destruct s|done].
Qed.
Lemma report_run path (o : option (Fs.stat * list Z)) (s : cst W) :
  exists io, (match o with
    | Some (st, _) => stat_line path st
    | None => printf 1 (chars "ls: cannot stat %s" ++ [10]) [CStr (Some path)]
    end) (c_io s) = Ok (tt, io) /\
    (match fst <$> o with
     | None => print 1 (chars "ls: cannot stat %s" ++ [10]) [CStr (Some path)]
     | Some st => print_stat path st
     end) s = Ok (tt, {| c_io := io; c_w := c_w s |}).
Proof.
  destruct o as [[st d]|]; cbn [fmap option_fmap option_map fst]; unfold stat_line, print_stat;
    match goal with |- context [printf 1 ?f ?a (c_io s)] =>
      destruct (printf_loop_total 1 f false a (c_io s) eq_refl) as [io E] end;
    exists io; (split; [exact E|exact (print_run _ _ _ s io E)]).
Qed.

Lemma ls_entries_run es fuel fd dir n st d o (s : cst W) :
  (length es < fuel)%nat -> Forall (fun e => length e = 16%nat) es ->
  fds (c_w s) !! fd = Some (n, o) -> files (c_w s) n = Some (st, d) -> drop o d = concat es ->
  (size (fds (c_w s)) < Z.to_nat NOFILE)%nat ->
  exists io w o', listing (files (c_w s)) dir es (c_io s) = Ok (tt, io) /\
    ls_entries fuel fd dir s = Ok (tt, {| c_io := io; c_w := w |}) /\
    files w = files (c_w s) /\ fds w = <[fd := (n, o')]> (fds (c_w s)).
Proof.
  intros Hf He. revert fuel o s Hf. induction He as [|e es He16 He IH]; intros [|fuel] o s Hf Hfd Hfi Hd Hs;
    cbn [length] in Hf; try lia; cbn [ls_entries listing]; unfold call; mrun;
    pose proof (read_file _ _ _ _ _ _ 16 Hfd Hfi) as Hr;
    destruct (c_read fd 16 (c_w s)) as [bs w1]; destruct Hr as (Hbs & Hfds1 & Hfi1);
    cbn [fst snd]; rewrite Hd in Hbs; cbn [concat] in Hbs.
  - subst bs. cbn [length Nat.eqb]. eexists _, _, _. split_and!; [reflexivity|by destruct s|done|exact Hfds1].
  - rewrite take_app_length' in Hbs by done. subst bs. rewrite He16 in *. cbn [Nat.eqb].
    set (s1 := set_w w1 s).
    assert (Hl1 : fds w1 !! fd = Some (n, (o + 16)%nat)) by (rewrite Hfds1; by simplify_map_eq).
    assert (Hd1 : drop (o + 16) d = concat es).
    { rewrite <- drop_drop, Hd. cbn [concat]. by rewrite drop_app_length'. }
    assert (Hs1 : (size (fds w1) < Z.to_nat NOFILE)%nat)
      by (rewrite Hfds1, map_size_insert_Some by (by rewrite Hfd); done).
    destruct (de_inum e =? 0).
    + destruct (IH fuel (o + 16)%nat s1 ltac:(lia) Hl1 ltac:(by rewrite <- Hfi, <- Hfi1) Hd1 Hs1)
        as (io & w & o' & E1 & E2 & E3 & E4). cbn [s1 set_w c_w c_io] in *. rewrite Hfi1 in *.
      exists io, w, o'. split_and!; [done|done|done|]. by rewrite E4, Hfds1, insert_insert_eq.
    + set (path := str _). destruct (stat_run path s1 Hs1) as (w2 & Es & Hfi2 & Hfds2). mrun Es.
      cbn [s1 set_w c_w c_io] in *. rewrite Hfi1 in *.
      destruct (report_run path (files (c_w s) path) {| c_io := c_io s; c_w := w2 |}) as (io1 & R1 & R2).
      rewrite (bind_Ok _ _ _ _ _ R2). cbn [c_io c_w] in *. rewrite (bind_Ok _ _ _ _ _ R1).
      destruct (IH fuel (o + 16)%nat {| c_io := io1; c_w := w2 |} ltac:(lia)) as (io & w & o' & E1 & E2 & E3 & E4);
        cbn [c_w c_io] in *; rewrite ?Hfds2, ?Hfi2; auto.
      rewrite Hfi2 in *. exists io, w, o'. split_and!; [done|done|done|].
      by rewrite E4, Hfds2, Hfds1, insert_insert_eq.
Qed.

(** ls on a directory prints one line per entry in use, in the order of the
    directory: the padded name and the type, inode and size of the file, or
    that it cannot be looked up; its descriptors are closed again. *)
Theorem ls_lists_directory es fuel path st (s : cst W) :
  (length es < fuel)%nat -> Forall (fun e => length e = 16%nat) es ->
  files (c_w s) path = Some (st, concat es) -> st_type st = T_DIR ->
  (length path + 16 <= 512)%nat -> (size (fds (c_w s)) + 1 < Z.to_nat NOFILE)%nat ->
  exists io w, listing (files (c_w s)) (path ++ [47]) es (c_io s) = Ok (tt, io) /\
    ls fuel path s = Ok (tt, {| c_io := io; c_w := w |}) /\
    files w = files (c_w s) /\ fds w = fds (c_w s).
Proof.
  intros Hf He Hfi Ht Hp Hs. unfold ls, call, close. mrun.
  pose proof (open_file _ _ _ _ Hfi ltac:(lia)) as Ho. destruct (c_open path 0 (c_w s)) as [fd w1].
  destruct Ho as (Hfd & Hn & Hfds & Hfi1). cbn [fst snd]. destruct (Z.ltb_spec fd 0); [lia|]. mrun.
  cbn [c_w set_w]. assert (Hl : fds w1 !! fd = Some (path, 0%nat)) by (rewrite Hfds; by simplify_map_eq).
  rewrite (fstat_file w1 fd path 0 st (concat es) Hl) by (by rewrite Hfi1). cbn [fst snd].
  rewrite Ht. change (T_DIR =? T_FILE) with false. change (T_DIR =? T_DIR) with true. cbv iota.
  change DIRSIZ with 14. destruct (Z.ltb_spec 512 (Z.of_nat (length path) + 1 + 14 + 1)); [lia|].
  destruct (ls_entries_run es fuel fd (path ++ [47]) path st (concat es) 0 {| c_io := c_io s; c_w := w1 |})
    as (io & w & o' & E1 & E2 & E3 & E4); cbn [c_w c_io]; auto; try by rewrite Hfi1.
  { rewrite Hfds, map_size_insert_None by done. lia. }
  cbn [c_w c_io] in *. rewrite Hfi1 in *. exists io, (c_close fd w).
  split; [done|]. split; [by erewrite bind_Ok by exact E2|].
  destruct (close_file w fd (path, o')) as [C1 C2]; [rewrite E4; by simplify_map_eq|].
  rewrite C1, C2, E3, E4, Hfds. split; [done|].
  by rewrite insert_insert_eq, delete_insert_id.
Qed.

End Ls.
