(* ===== verification/Mp.v ===== *)
(** * Processor discovery (mp.c)

    The firmware leaves a floating pointer structure and a configuration table
    in memory; [mpinit] finds them and records the processors.  Memory is the
    bytes at kernel addresses. *)

From S2P Require Import Prelude Param Memory.

Record mpst := {
  mpmem : mem;
  cpus : list Z;          (* the APIC ids of the processors found; ncpu is its length *)
  ioapicid : Z;
  lapic : Z;
  imcr : Z;               (* what port 0x23 holds *)
  outs : list (Z * Z)     (* the bytes written to ports *)
}.
Definition set_cpus (v : list Z) (s : mpst) : mpst :=
  {| mpmem := mpmem s; cpus := v; ioapicid := ioapicid s; lapic := lapic s; imcr := imcr s; outs := outs s |}.
Definition set_ioapicid (v : Z) (s : mpst) : mpst :=
  {| mpmem := mpmem s; cpus := cpus s; ioapicid := v; lapic := lapic s; imcr := imcr s; outs := outs s |}.
Definition set_lapic (v : Z) (s : mpst) : mpst :=
  {| mpmem := mpmem s; cpus := cpus s; ioapicid := ioapicid s; lapic := v; imcr := imcr s; outs := outs s |}.
Definition mp_out (p v : Z) (s : mpst) : mpst :=
  {| mpmem := mpmem s; cpus := cpus s; ioapicid := ioapicid s; lapic := lapic s; imcr := imcr s; outs := outs s ++ [(p, v)] |}.

(** The sizes of the structures, and their fields. *)
Definition sizeof_mp : Z := 16.
Definition sizeof_mpconf : Z := 44.
Definition sizeof_mpproc : Z := 20.
Definition sizeof_mpioapic : Z := 8.
Definition mp_physaddr (m : mem) (p : Z) : Z := ld32 m (p + 4).
Definition mp_imcrp (m : mem) (p : Z) : Z := ld8 m (p + 12).
Definition conf_length (m : mem) (p : Z) : Z := ld16 m (p + 4).
Definition conf_version (m : mem) (p : Z) : Z := ld8 m (p + 6).
Definition conf_lapicaddr (m : mem) (p : Z) : Z := ld32 m (p + 36).

Definition MPPROC : Z := 0.
Definition MPBUS : Z := 1.
Definition MPIOAPIC : Z := 2.
Definition MPIOINTR : Z := 3.
Definition MPLINTR : Z := 4.

Fixpoint sum_loop (m : mem) (addr : Z) (len : nat) (sum : Z) : Z :=
  match len with
  | O => sum
  | S len => sum_loop m (addr + 1) len (sum + ld8 m addr)
  end.
Definition sum (m : mem) (addr len : Z) : Z := u8 (sum_loop m addr (Z.to_nat len) 0).

(** [memcmp(p, sig, 4) == 0] *)
Definition has_sig (m : mem) (p : Z) (sig : list Z) : bool :=
  bool_decide ((fun i => ld8 m (p + Z.of_nat i)) <$> seq 0 4 = sig).
Definition MP_SIG : list Z := [95; 77; 80; 95].
Definition PCMP_SIG : list Z := [80; 67; 77; 80].

Fixpoint mpsearch1_loop (fuel : nat) (m : mem) (p e : Z) : option Z :=
  match fuel with
  | O => None
  | S f =>
      if p <? e then
        if has_sig m p MP_SIG && (sum m p sizeof_mp =? 0) then Some p
        else mpsearch1_loop f m (p + sizeof_mp) e
      else None
  end.
(** [len] is a multiple of the size of the structure. *)
Definition mpsearch1 (m : mem) (a len : Z) : option Z :=
  let addr := P2V a in
  mpsearch1_loop (S (Z.to_nat (len / sizeof_mp))) m addr (addr + len).

Definition mpsearch (m : mem) : option Z :=
  let bda := P2V 0x400 in
  let p := Z.shiftl (Z.lor (Z.shiftl (ld8 m (bda + 0x0F)) 8) (ld8 m (bda + 0x0E))) 4 in
  match (if negb (p =? 0) then mpsearch1 m p 1024
         else
           let p := Z.lor (Z.shiftl (ld8 m (bda + 0x14)) 8) (ld8 m (bda + 0x13)) * 1024 in
           mpsearch1 m (u32 (p - 1024)) 1024) with
  | Some mp => Some mp
  | None => mpsearch1 m 0xF0000 0x10000
  end.

(** The configuration table and the floating pointer structure. *)
Definition mpconfig (m : mem) : option (Z * Z) :=
  match mpsearch m with
  | None => None
  | Some mp =>
      if mp_physaddr m mp =? 0 then None
      else
        let conf := P2V (mp_physaddr m mp) in
        if negb (has_sig m conf PCMP_SIG) then None
        else if negb (conf_version m conf =? 1) && negb (conf_version m conf =? 4) then None
        else if negb (sum m conf (conf_length m conf) =? 0) then None
        else Some (mp, conf)
  end.

(** The loop of [mpinit] over the entries; the value is [ismp]. *)
Fixpoint mpinit_loop (fuel : nat) (p e : Z) (ismp : bool) : M mpst bool :=
  match fuel with
  | O => out_of_fuel
  | S f =>
      if p <? e then
        let! s := get in
        let m := mpmem s in
        let ty := ld8 m p in
        if ty =? MPPROC then
          do! (if (Z.of_nat (length (cpus s)) <? NCPU)
               then modify (set_cpus (cpus s ++ [ld8 m (p + 1)])) else ret tt) in
          mpinit_loop f (p + sizeof_mpproc) e ismp
        else if ty =? MPIOAPIC then
          do! modify (set_ioapicid (ld8 m (p + 1))) in
          mpinit_loop f (p + sizeof_mpioapic) e ismp
        else if (ty =? MPBUS) || (ty =? MPIOINTR) || (ty =? MPLINTR) then
          mpinit_loop f (p + 8) e ismp
        else mpinit_loop f p e false
      else ret ismp
  end.

Definition mpinit (fuel : nat) : M mpst unit :=
  let! s := get in
  match mpconfig (mpmem s) with
  | None => panic "Expect to run on an SMP"
  | Some (mp, conf) =>
      do! modify (set_lapic (conf_lapicaddr (mpmem s) conf)) in
      let! ismp := mpinit_loop fuel (conf + sizeof_mpconf) (conf + conf_length (mpmem s) conf) true in
      if negb ismp then panic "Didn't find a suitable machine"
      else if negb (mp_imcrp (mpmem s) mp =? 0) then
        do! modify (mp_out 0x22 0x70) in
        let! s := get in
        modify (mp_out 0x23 (Z.lor (imcr s) 1))
      else ret tt
  end.

(** ** The table *)

Inductive entry := Cpu (apicid : Z) | Bus | IoApic (apicno : Z) | IoIntr | LIntr.

Definition type_of (x : entry) : Z :=
  match x with Cpu _ => MPPROC | Bus => MPBUS | IoApic _ => MPIOAPIC | IoIntr => MPIOINTR | LIntr => MPLINTR end.
Definition size_of (x : entry) : Z := match x with Cpu _ => sizeof_mpproc | _ => 8 end.
Definition id_ok (m : mem) (p : Z) (x : entry) : Prop :=
  match x with Cpu i | IoApic i => ld8 m (p + 1) = i | _ => True end.

(** The entries [es] are in memory from [p] on. *)
Fixpoint table (m : mem) (p : Z) (es : list entry) : Prop :=
  match es with
  | [] => True
  | x :: es => ld8 m p = type_of x /\ id_ok m p x /\ table m (p + size_of x) es
  end.
Fixpoint total (es : list entry) : Z := match es with [] => 0 | x :: es => size_of x + total es end.

Definition cpu_ids (es : list entry) : list Z := omap (fun x => match x with Cpu i => Some i | _ => None end) es.
Definition ioapic_id (d : Z) (es : list entry) : Z :=
  foldl (fun d x => match x with IoApic i => i | _ => d end) d es.

Definition found_in (es : list entry) (s : mpst) : mpst :=
  {| mpmem := mpmem s; cpus := cpus s ++ take (Z.to_nat NCPU - length (cpus s)) (cpu_ids es);
     ioapicid := ioapic_id (ioapicid s) es; lapic := lapic s; imcr := imcr s; outs := outs s |}.

Lemma total_nonneg es : 0 <= total es.
Proof. induction es as [|x es IH]; cbn [total]; [lia|]. destruct x; cbn; unfold sizeof_mpproc; lia. Qed.

(** The loop consumes the entries of the table. *)
Lemma mpinit_loop_entries es fuel p e ismp s : table (mpmem s) p es -> p + total es <= e ->
  (length (cpus s) <= Z.to_nat NCPU)%nat ->
  mpinit_loop (length es + fuel) p e ismp s = mpinit_loop fuel (p + total es) e ismp (found_in es s).
Proof.
  revert p s. induction es as [|x es IH]; intros p s Ht He Hn.
  { cbn [length total Nat.add]. rewrite Z.add_0_r. f_equal. unfold found_in. cbn. rewrite take_nil, app_nil_r.
    by destruct s. }
  cbn [table total length Nat.add mpinit_loop] in *. destruct Ht as (Hty & Hid & Ht). pose proof (total_nonneg es) as Hp.
  assert (Hlt : p < e) by (destruct x; cbn in *; unfold sizeof_mpproc in *; lia).
  destruct (Z.ltb_spec p e); [|lia]. rewrite bind_get, Hty, Z.add_assoc.
  assert (Hstep : forall s1, mpmem s1 = mpmem s -> (length (cpus s1) <= Z.to_nat NCPU)%nat -> found_in es s1 = found_in (x :: es) s ->
    mpinit_loop (length es + fuel) (p + size_of x) e ismp s1 =
    mpinit_loop fuel (p + size_of x + total es) e ismp (found_in (x :: es) s)).
  { intros s1 Hm Hc <-. apply IH; [by rewrite Hm|lia|done]. }
  destruct x; cbn [type_of size_of id_ok] in *; cbn [Z.eqb Pos.eqb orb MPPROC MPIOAPIC MPBUS MPIOINTR MPLINTR];
    rewrite ?bind_modify; try (apply Hstep; [done|done|]; unfold found_in; by rewrite ?Hid).
  destruct (Z.ltb_spec (Z.of_nat (length (cpus s))) NCPU) as [Hc|Hc]; unfold NCPU in Hc; rewrite ?bind_modify, ?bind_ret;
    (apply Hstep; [done| |]).
  - cbn. rewrite length_app. cbn. unfold NCPU. lia.
  - unfold found_in. cbn [cpus mpmem set_cpus ioapicid lapic imcr outs cpu_ids omap list_omap]. f_equal.
    rewrite Hid, <- app_assoc, length_app. cbn [length]. unfold NCPU.
    replace (Z.to_nat 8 - length (cpus s))%nat with (S (Z.to_nat 8 - (length (cpus s) + 1))) by lia. done.
  - done.
  - unfold found_in. cbn [cpu_ids omap list_omap]. f_equal. unfold NCPU.
    by replace (Z.to_nat 8 - length (cpus s))%nat with 0%nat by lia.
Qed.

(** An entry of another type is never left. *)
Lemma unknown_stays fuel p e ismp s : p < e -> 4 < ld8 (mpmem s) p ->
  mpinit_loop fuel p e ismp s = OutOfFuel.
Proof.
  intros He Hty. revert ismp. induction fuel as [|fuel IH]; intros ismp; [done|]. cbn [mpinit_loop].
  destruct (Z.ltb_spec p e); [|lia]. rewrite bind_get. unfold MPPROC, MPIOAPIC, MPBUS, MPIOINTR, MPLINTR.
  destruct (Z.eqb_spec (ld8 (mpmem s) p) 0), (Z.eqb_spec (ld8 (mpmem s) p) 2), (Z.eqb_spec (ld8 (mpmem s) p) 1),
    (Z.eqb_spec (ld8 (mpmem s) p) 3), (Z.eqb_spec (ld8 (mpmem s) p) 4); try lia. cbn [orb]. apply IH.
Qed.

Lemma mpinit_loop_unknown es fuel p e ismp s : table (mpmem s) p es -> (length (cpus s) <= Z.to_nat NCPU)%nat ->
  p + total es < e -> 4 < ld8 (mpmem s) (p + total es) -> mpinit_loop fuel p e ismp s = OutOfFuel.
Proof.
  revert fuel p s. induction es as [|x es IH]; intros fuel p s Ht Hn He Hty; cbn [total] in *.
  { rewrite Z.add_0_r in *. by apply unknown_stays. }
  destruct fuel as [|fuel]; [done|]. pose proof (total_nonneg es). destruct Ht as (H1 & H2 & H3).
  pose proof (mpinit_loop_entries [x] fuel p e ismp s) as Hs. cbn [length Nat.add total table] in Hs.
  rewrite Hs, Z.add_0_r by (done || lia). apply IH; [done| |lia|by rewrite <- Z.add_assoc].
  cbn [found_in cpus]. rewrite length_app, length_take. lia.
Qed.

(** [mpinit] reads the whole table: it records the APIC ids of the first NCPU
    processors in their order, the id of the last I/O APIC and the address of
    the local APIC, and it ends (C38). *)
Theorem mpinit_spec s mp conf es fuel :
  mpconfig (mpmem s) = Some (mp, conf) -> table (mpmem s) (conf + sizeof_mpconf) es ->
  conf_length (mpmem s) conf = sizeof_mpconf + total es -> cpus s = [] -> (length es < fuel)%nat ->
  exists s', mpinit fuel s = Ok (tt, s') /\ cpus s' = take (Z.to_nat NCPU) (cpu_ids es) /\
    ioapicid s' = ioapic_id (ioapicid s) es /\ lapic s' = conf_lapicaddr (mpmem s) conf /\
    outs s' = outs s ++ (if mp_imcrp (mpmem s) mp =? 0 then [] else [(0x22, 0x70); (0x23, Z.lor (imcr s) 1)]).
Proof.
  intros Hc Ht Hl Hn Hf. unfold mpinit. mrun. rewrite Hc. mrun. rewrite Hl, Z.add_assoc.
  set (s1 := set_lapic _ s).
  assert (El : mpinit_loop fuel (conf + sizeof_mpconf) (conf + sizeof_mpconf + total es) true s1 = Ok (true, found_in es s1)).
  { replace fuel with (length es + S (fuel - length es - 1))%nat by lia.
    rewrite mpinit_loop_entries; [|done|lia|unfold s1; cbn [cpus set_lapic]; rewrite Hn; cbn [length]; lia].
    cbn [mpinit_loop]. by rewrite Z.ltb_irrefl. }
  rewrite (bind_Ok _ _ _ _ _ El). cbn [negb]. destruct (mp_imcrp (mpmem s) mp =? 0); cbn [negb].
  - eexists. split; [reflexivity|]. cbn. by rewrite Hn, app_nil_r.
  - mrun. eexists. split; [reflexivity|]. cbn. by rewrite Hn, <- app_assoc.
Qed.

(** On a table with an entry of a type it does not know, [mpinit] does not
    report the machine as unsuitable: it never ends, because the [break] of the
    default case leaves the switch and not the loop (C39). *)
Theorem mpinit_unknown_entry s mp conf es fuel :
  mpconfig (mpmem s) = Some (mp, conf) -> table (mpmem s) (conf + sizeof_mpconf) es -> cpus s = [] ->
  sizeof_mpconf + total es < conf_length (mpmem s) conf ->
  4 < ld8 (mpmem s) (conf + sizeof_mpconf + total es) ->
  mpinit fuel s = OutOfFuel.
Proof.
  intros Hc Ht Hn Hl Hty. unfold mpinit. mrun. rewrite Hc. mrun. set (s1 := set_lapic _ s).
  assert (El : mpinit_loop fuel (conf + sizeof_mpconf) (conf + conf_length (mpmem s) conf) true s1 = OutOfFuel).
  { apply (mpinit_loop_unknown es); [done| |lia|done]. unfold s1. cbn [cpus set_lapic]. rewrite Hn. cbn [length]. lia. }
  unfold bind. by rewrite El.
Qed.

(** ** A machine *)

Fixpoint bytes_at (a : Z) (bs : list Z) (m : mem) : mem :=
  match bs with [] => m | b :: bs => bytes_at (a + 1) bs (st8 m a b) end.

(** A floating pointer structure at 0x9FC00, where the word at 0x40E says, and
    a table at 0x9FD00 with two processors, a bus and an I/O APIC; [ty] is the
    type of its last entry, and the checksums are right. *)
Definition demo_mem (ty chk : Z) : mem :=
  bytes_at (P2V 0x40E) [0xC0; 0x9F]
    (bytes_at (P2V 0x9FC00) (MP_SIG ++ [0x00; 0xFD; 0x09; 0x00; 1; 4; 0x9A; 0; 0; 0; 0; 0])
      (bytes_at (P2V 0x9FD00)
         (PCMP_SIG ++ [108; 0; 4; chk] ++ replicate 28 0 ++ [0; 0; 0xE0; 0xFE; 0; 0; 0; 0] ++
          [0; 5] ++ replicate 18 0 ++ [0; 3] ++ replicate 18 0 ++ [1] ++ replicate 7 0 ++ [2; 9] ++ replicate 6 0 ++
          [ty] ++ replicate 7 0) ∅)).
Definition demo_mp (ty chk : Z) : mpst :=
  {| mpmem := demo_mem ty chk; cpus := []; ioapicid := 0; lapic := 0; imcr := 0; outs := [] |}.
Definition demo_entries : list entry := [Cpu 5; Cpu 3; Bus; IoApic 9].

Lemma mpinit_spec_witness : exists s',
  mpinit 6 (demo_mp 3 107) = Ok (tt, s') /\ cpus s' = [5; 3] /\ ioapicid s' = 9 /\ lapic s' = 0xFEE00000.
Proof.
  destruct (mpinit_spec (demo_mp 3 107) (P2V 0x9FC00) (P2V 0x9FD00) (demo_entries ++ [IoIntr]) 6)
    as (s' & E & H1 & H2 & H3 & _).
  - vm_compute. reflexivity.
  - vm_compute. tauto.
  - vm_compute. reflexivity.
  - reflexivity.
  - vm_compute. lia.
  - exists s'. split_and!; [exact E|rewrite H1; reflexivity|rewrite H2; reflexivity|rewrite H3; vm_compute; reflexivity].
Defined.

Lemma mpinit_unknown_entry_witness : mpinit 1000 (demo_mp 9 101) = OutOfFuel.
Proof.
  apply (mpinit_unknown_entry (demo_mp 9 101) (P2V 0x9FC00) (P2V 0x9FD00) demo_entries 1000).
  - vm_compute. reflexivity.
  - vm_compute. tauto.
  - reflexivity.
  - vm_compute. reflexivity.
  - vm_compute. reflexivity.
Defined.
