(* ===== verification/Ide.v ===== *)
(** * The IDE disk driver (ide.c)

    The driver keeps a queue of buffers linked through [qnext]; the first one
    is the request the disk is working on.  [iderw] puts a buffer on the queue
    and sleeps until the interrupt handler has served it.  The disk is a
    device behind I/O ports: the instructions [inb], [outb], [insl] and
    [outsl] on the state [D] of the device are the class [AtaOps], and what
    the driver relies on the class [AtaSpec] of IdeSpec.  [idelock] makes each
    operation up to a sleep atomic; the panics about the number of sectors of
    a block are decided by the constants. *)

From S2P Require Import Prelude Param Sleeplock Bio.

Class AtaOps (D : Type) := {
  inb : Z -> D -> Z * D;
  outb : Z -> Z -> D -> D;
  insl : Z -> nat -> D -> list Z * D;   (* the bytes of so many words *)
  outsl : Z -> list Z -> D -> D
}.

Definition SECTOR_SIZE : Z := 512.
Definition IDE_BSY : Z := 128.
Definition IDE_DRDY : Z := 64.
Definition IDE_DF : Z := 32.
Definition IDE_ERR : Z := 1.
Definition IDE_CMD_READ : Z := 32.
Definition IDE_CMD_WRITE : Z := 48.
Definition IDE_CMD_RDMUL : Z := 196.
Definition IDE_CMD_WRMUL : Z := 197.

(** The buffers with their [qnext] links, the head of the queue, the pid of
    the caller, and the buffers some process sleeps on. *)
Record ide (D : Type) := {
  ibufs : list buf;
  qnext : list (option nat);
  idequeue : option nat;
  havedisk1 : bool;
  caller : Z;
  sleepers : list nat;
  port : D
}.
Arguments ibufs {D}. Arguments qnext {D}. Arguments idequeue {D}. Arguments havedisk1 {D}.
Arguments caller {D}. Arguments sleepers {D}. Arguments port {D}.

Section Driver.
Context {D : Type} `{AtaOps D}.

Definition ibat (s : ide D) (b : nat) : buf := ibufs s !!! b.
Definition set_ibufs (bs : list buf) (s : ide D) : ide D :=
  {| ibufs := bs; qnext := qnext s; idequeue := idequeue s; havedisk1 := havedisk1 s;
     caller := caller s; sleepers := sleepers s; port := port s |}.
Definition set_qnext (b : nat) (v : option nat) (s : ide D) : ide D :=
  {| ibufs := ibufs s; qnext := <[b := v]> (qnext s); idequeue := idequeue s; havedisk1 := havedisk1 s;
     caller := caller s; sleepers := sleepers s; port := port s |}.
Definition set_idequeue (v : option nat) (s : ide D) : ide D :=
  {| ibufs := ibufs s; qnext := qnext s; idequeue := v; havedisk1 := havedisk1 s;
     caller := caller s; sleepers := sleepers s; port := port s |}.
Definition set_havedisk1 (v : bool) (s : ide D) : ide D :=
  {| ibufs := ibufs s; qnext := qnext s; idequeue := idequeue s; havedisk1 := v;
     caller := caller s; sleepers := sleepers s; port := port s |}.
Definition set_caller (v : Z) (s : ide D) : ide D :=
  {| ibufs := ibufs s; qnext := qnext s; idequeue := idequeue s; havedisk1 := havedisk1 s;
     caller := v; sleepers := sleepers s; port := port s |}.
Definition set_sleepers (v : list nat) (s : ide D) : ide D :=
  {| ibufs := ibufs s; qnext := qnext s; idequeue := idequeue s; havedisk1 := havedisk1 s;
     caller := caller s; sleepers := v; port := port s |}.
Definition set_port (v : D) (s : ide D) : ide D :=
  {| ibufs := ibufs s; qnext := qnext s; idequeue := idequeue s; havedisk1 := havedisk1 s;
     caller := caller s; sleepers := sleepers s; port := v |}.

Definition upd_ibuf (b : nat) (f : buf -> buf) : M (ide D) unit :=
  modify (fun s => set_ibufs (alter f b (ibufs s)) s).

Definition in_b (p : Z) : M (ide D) Z :=
  let! s := get in
  let '(v, d) := inb p (port s) in
  do! put (set_port d s) in ret v.
Definition out_b (p v : Z) : M (ide D) unit := modify (fun s => set_port (outb p v (port s)) s).

(** The wait for the disk: [tries] bounds the polls. *)
Fixpoint idewait (tries : nat) (checkerr : bool) : M (ide D) Z :=
  match tries with
  | O => out_of_fuel
  | S t =>
      let! r := in_b 0x1f7 in
      if negb (Z.land r (Z.lor IDE_BSY IDE_DRDY) =? IDE_DRDY) then idewait t checkerr
      else if checkerr && negb (Z.land r (Z.lor IDE_DF IDE_ERR) =? 0) then ret (- 1)
      else ret 0
  end.

(** The polls for the second disk. *)
Fixpoint find_disk1 (i : nat) : M (ide D) unit :=
  match i with
  | O => ret tt
  | S i =>
      let! r := in_b 0x1f7 in
      if negb (r =? 0) then modify (set_havedisk1 true) else find_disk1 i
  end.

(** Without the call that routes the interrupt to a CPU. *)
Definition ideinit (tries : nat) : M (ide D) unit :=
  do! idewait tries false in
  do! out_b 0x1f6 (Z.lor 0xe0 (Z.shiftl 1 4)) in
  do! find_disk1 1000 in
  out_b 0x1f6 (Z.lor 0xe0 (Z.shiftl 0 4)).

Definition idestart (tries : nat) (b : option nat) : M (ide D) unit :=
  match b with
  | None => panic "idestart"
  | Some b =>
      let! s := get in
      let x := ibat s b in
      if FSSIZE <=? blockno x then panic "incorrect blockno"
      else
        let sector_per_block := BSIZE / SECTOR_SIZE in
        let sector := s32 (blockno x * sector_per_block) in
        let read_cmd := if sector_per_block =? 1 then IDE_CMD_READ else IDE_CMD_RDMUL in
        let write_cmd := if sector_per_block =? 1 then IDE_CMD_WRITE else IDE_CMD_WRMUL in
        if 7 <? sector_per_block then panic "idestart"
        else
          do! idewait tries false in
          do! out_b 0x3f6 0 in
          do! out_b 0x1f2 sector_per_block in
          do! out_b 0x1f3 (Z.land sector 0xff) in
          do! out_b 0x1f4 (Z.land (Z.shiftr sector 8) 0xff) in
          do! out_b 0x1f5 (Z.land (Z.shiftr sector 16) 0xff) in
          do! out_b 0x1f6 (Z.lor (Z.lor 0xe0 (Z.shiftl (Z.land (dev x) 1) 4)) (Z.land (Z.shiftr sector 24) 0x0f)) in
          if has (flags x) B_DIRTY then
            do! out_b 0x1f7 write_cmd in
            modify (fun s => set_port (outsl 0x1f0 (take (4 * Z.to_nat (BSIZE / 4)) (data x)) (port s)) s)
          else out_b 0x1f7 read_cmd
  end.

(** [wakeup(b)] *)
Definition wake_buf (b : nat) : M (ide D) unit :=
  modify (fun s => set_sleepers (filter (fun x => x <> b) (sleepers s)) s).

Definition ideintr (tries : nat) : M (ide D) unit :=
  let! s := get in
  match idequeue s with
  | None => ret tt
  | Some b =>
      do! modify (set_idequeue (qnext s !!! b)) in
      do! (if negb (has (flags (ibat s b)) B_DIRTY) then
             let! r := idewait tries true in
             if 0 <=? r then
               let! s := get in
               let '(bs, d) := insl 0x1f0 (Z.to_nat (BSIZE / 4)) (port s) in
               do! put (set_port d s) in
               upd_ibuf b (set_data bs)
             else ret tt
           else ret tt) in
      do! upd_ibuf b (fun x => set_flags (Z.lor (flags x) B_VALID) x) in
      do! upd_ibuf b (fun x => set_flags (Z.land (flags x) (Z.lnot B_DIRTY)) x) in
      do! wake_buf b in
      let! s := get in
      match idequeue s with
      | Some b => idestart tries (Some b)
      | None => ret tt
      end
  end.

(** The loop of [iderw] over the links: [None] is [&idequeue], [Some b] is
    [&b->qnext]. *)
Fixpoint find_tail (fuel : nat) (pp : option nat) : M (ide D) (option nat) :=
  let! s := get in
  match (match pp with None => idequeue s | Some b => qnext s !!! b end) with
  | None => ret pp
  | Some b =>
      match fuel with
      | O => out_of_fuel
      | S f => find_tail f (Some b)
      end
  end.

Definition set_link (pp v : option nat) : M (ide D) unit :=
  match pp with
  | None => modify (set_idequeue v)
  | Some b => modify (set_qnext b v)
  end.

(** The loop at the end of [iderw]: whether it returns; otherwise the process
    sleeps on the buffer and is at the loop again when it is woken. *)
Definition iderw_wait (b : nat) : M (ide D) bool :=
  let! s := get in
  if negb (Z.land (flags (ibat s b)) (Z.lor B_VALID B_DIRTY) =? B_VALID) then
    do! modify (set_sleepers (b :: sleepers s)) in
    ret false
  else ret true.

Definition iderw (tries : nat) (b : nat) : M (ide D) bool :=
  let! s := get in
  let x := ibat s b in
  if negb (holdingsleep (lock x) (caller s)) then panic "iderw: buf not locked"
  else if Z.land (flags x) (Z.lor B_VALID B_DIRTY) =? B_VALID then panic "iderw: nothing to do"
  else if negb (dev x =? 0) && negb (havedisk1 s) then panic "iderw: ide disk 1 not present"
  else
    do! modify (set_qnext b None) in
    let! pp := find_tail (length (ibufs s)) None in
    do! set_link pp (Some b) in
    let! s := get in
    do! (if bool_decide (idequeue s = Some b) then idestart tries (Some b) else ret tt) in
    iderw_wait b.

End Driver.
