(* ===== verification/IdeSpec.v ===== *)
(** * The IDE driver serves its requests in order

    The class [AtaSpec] states how an ATA disk behaves behind its ports: the
    registers, the two commands, the transfer of a sector, and the end of a
    command, which raises the interrupt.  The driver sends the data of a write
    right after the command, without a look at DRQ; [outsl_data] is the disk
    it relies on, one that is ready for the data by then.  The driver then refines a queue of
    requests, each served completely before the next, and one request has the
    effect that iderw of memide.c has on an array of blocks. *)

From S2P Require Import Prelude Param Sleeplock Bio Ide.

(** ** The disk *)

Inductive request := Read (disk lba : Z) | Write (disk lba : Z) (bs : list Z).

(** [Idle true]: the last command ended with an error. *)
Inductive phases := Idle (err : bool) | WantData (disk lba : Z) | Busy (r : request) | DataReady (disk lba : Z).

(** How a command ends; a write that fails leaves [bs] in the sector. *)
Inductive outcome := Good | Bad (bs : list Z).
Definition failed (o : outcome) : bool := match o with Good => false | Bad _ => true end.

Definition ready (r : Z) : Prop := Z.land r (Z.lor IDE_BSY IDE_DRDY) = IDE_DRDY.

(** [k] polls say busy, the next one has the status [r]. *)
Inductive polls {D} `{AtaOps D} : nat -> D -> Z -> D -> Prop :=
| polls_ready d r d' : inb 0x1f7 d = (r, d') -> ready r -> polls 0 d r d'
| polls_busy k d r0 d0 r d' :
    inb 0x1f7 d = (r0, d0) -> ~ ready r0 -> polls k d0 r d' -> polls (S k) d r d'.

Class AtaSpec (D : Type) `{AtaOps D} := {
  tries : nat;
  reg : D -> Z -> Z;
  phase : D -> phases;
  sector : D -> Z -> Z -> list Z;
  finish : outcome -> D -> D;
  (* the status after a command *)
  status d e : phase d = Idle e \/ (e = false /\ exists a l, phase d = DataReady a l) ->
    exists k r d', (k < tries)%nat /\ polls k d r d' /\ phase d' = phase d /\
      (Z.land r (Z.lor IDE_DF IDE_ERR) =? 0) = negb e /\ (forall a l, sector d' a l = sector d a l);
  (* polling for the end of a read *)
  status_read d a l : phase d = Busy (Read a l) ->
    exists k r d', (k < tries)%nat /\ polls k d r d' /\ phase d' = DataReady a l /\
      (forall a l, sector d' a l = sector d a l);
  (* registers *)
  outb_control d e : phase d = Idle e ->
    phase (outb 0x3f6 0 d) = Idle e /\ (forall a l, sector (outb 0x3f6 0 d) a l = sector d a l);
  outb_reg p v d e : phase d = Idle e -> 0x1f2 <= p <= 0x1f6 -> 0 <= v < 256 ->
    phase (outb p v d) = Idle e /\ (forall a l, sector (outb p v d) a l = sector d a l) /\
    forall q, reg (outb p v d) q = if decide (q = p) then v else reg d q;
  (* commands *)
  outb_read d e a l : phase d = Idle e -> reg d 0x1f2 = 1 ->
    l = reg d 0x1f3 + 2 ^ 8 * reg d 0x1f4 + 2 ^ 16 * reg d 0x1f5 + 2 ^ 24 * (reg d 0x1f6 mod 2 ^ 4) ->
    a = (reg d 0x1f6 / 2 ^ 4) mod 2 ->
    phase (outb 0x1f7 IDE_CMD_READ d) = Busy (Read a l) /\
    (forall a l, sector (outb 0x1f7 IDE_CMD_READ d) a l = sector d a l);
  outb_write d e a l : phase d = Idle e -> reg d 0x1f2 = 1 ->
    l = reg d 0x1f3 + 2 ^ 8 * reg d 0x1f4 + 2 ^ 16 * reg d 0x1f5 + 2 ^ 24 * (reg d 0x1f6 mod 2 ^ 4) ->
    a = (reg d 0x1f6 / 2 ^ 4) mod 2 ->
    phase (outb 0x1f7 IDE_CMD_WRITE d) = WantData a l /\
    (forall a l, sector (outb 0x1f7 IDE_CMD_WRITE d) a l = sector d a l);
  (* data *)
  outsl_data d a l bs : phase d = WantData a l -> length bs = 512%nat ->
    phase (outsl 0x1f0 bs d) = Busy (Write a l bs) /\
    (forall a l, sector (outsl 0x1f0 bs d) a l = sector d a l);
  insl_data d a l : phase d = DataReady a l ->
    exists d', insl 0x1f0 128 d = (sector d a l, d') /\ phase d' = Idle false /\
      (forall a l, sector d' a l = sector d a l);
  (* the end of a command *)
  finish_read d o a l : phase d = Busy (Read a l) ->
    phase (finish o d) = (if failed o then Idle true else DataReady a l) /\
    (forall a l, sector (finish o d) a l = sector d a l);
  finish_write d o a l bs : phase d = Busy (Write a l bs) ->
    phase (finish o d) = Idle (failed o) /\
    (forall a' l', sector (finish o d) a' l' =
       if decide (a' = a /\ l' = l) then match o with Good => bs | Bad bs => bs end else sector d a' l')
}.

(** ** What the driver does *)

Definition disk_of (x : buf) : Z := Z.land (dev x) 1.
Definition request_of (x : buf) : request :=
  if has (flags x) B_DIRTY then Write (disk_of x) (blockno x) (data x) else Read (disk_of x) (blockno x).

(** A buffer with something to do for the driver. *)
Definition wanted (x : buf) : Prop :=
  Z.land (flags x) (Z.lor B_VALID B_DIRTY) <> B_VALID /\ 0 <= blockno x < FSSIZE /\ length (data x) = 512%nat.
#[global] Instance wanted_dec x : Decision (wanted x).
Proof. unfold wanted. apply _. Defined.

(** The queue, how the command of the first request ended if it did, and the
    contents of the disks. *)
Record model := {
  m_bufs : list buf;
  m_have : bool;
  m_queue : list nat;
  m_done : option outcome;
  m_disk : Z -> Z -> list Z
}.

(** [Change]: the holder of a buffer that is not on the queue changes it. *)
Inductive event := Request (pid : Z) (b : nat) | Change (b : nat) (x : buf) | Complete (o : outcome) | Interrupt.

(** The buffer of a request that is served. *)
Definition served (o : outcome) (disk : Z -> Z -> list Z) (x : buf) : buf :=
  set_flags (Z.land (Z.lor (flags x) B_VALID) (Z.lnot B_DIRTY))
    (if has (flags x) B_DIRTY || failed o then x else set_data (disk (disk_of x) (blockno x)) x).

Definition written (o : outcome) (x : buf) (disk : Z -> Z -> list Z) (a l : Z) : list Z :=
  if has (flags x) B_DIRTY && bool_decide (a = disk_of x /\ l = blockno x)
  then match o with Good => data x | Bad bs => bs end
  else disk a l.

Definition m_exec (e : event) (m : model) : option model :=
  match e with
  | Request pid b =>
      let x := m_bufs m !!! b in
      if bool_decide ((b < length (m_bufs m))%nat /\ (b ∉ m_queue m) /\ wanted x) &&
         holdingsleep (lock x) pid && ((dev x =? 0) || m_have m)
      then Some {| m_bufs := m_bufs m; m_have := m_have m; m_queue := m_queue m ++ [b];
                   m_done := m_done m; m_disk := m_disk m |}
      else None
  | Change b x =>
      if bool_decide (b ∈ m_queue m) then None
      else Some {| m_bufs := <[b := x]> (m_bufs m); m_have := m_have m; m_queue := m_queue m;
                   m_done := m_done m; m_disk := m_disk m |}
  | Complete o =>
      match m_queue m, m_done m with
      | b :: _, None =>
          Some {| m_bufs := m_bufs m; m_have := m_have m; m_queue := m_queue m; m_done := Some o;
                  m_disk := written o (m_bufs m !!! b) (m_disk m) |}
      | _, _ => None
      end
  | Interrupt =>
      match m_queue m, m_done m with
      | [], _ => Some m
      | b :: q, Some o =>
          Some {| m_bufs := alter (served o (m_disk m)) b (m_bufs m); m_have := m_have m; m_queue := q;
                  m_done := None; m_disk := m_disk m |}
      | _ :: _, None => None
      end
  end.

Fixpoint m_run (es : list event) (m : model) : option model :=
  match es with
  | [] => Some m
  | e :: es => m_exec e m ≫= m_run es
  end.

Section Refine.
Context {D : Type} `{AtaSpec D}.

Definition ide_exec (e : event) : M (ide D) unit :=
  match e with
  | Request pid b => do! modify (set_caller pid) in do! iderw tries b in ret tt
  | Change b x => modify (fun s => set_ibufs (<[b := x]> (ibufs s)) s)
  | Complete o => modify (fun s => set_port (finish o (port s)) s)
  | Interrupt => ideintr tries
  end.

Fixpoint ide_run (es : list event) : M (ide D) unit :=
  match es with
  | [] => ret tt
  | e :: es => do! ide_exec e in ide_run es
  end.

(** The links of the queue [q]. *)
Fixpoint linked (nx : list (option nat)) (p : option nat) (q : list nat) : Prop :=
  match q with
  | [] => p = None
  | b :: q => p = Some b /\ linked nx (nx !!! b) q
  end.

(** The phase of the disk while the first request is [x]. *)
Definition at_work (o : option outcome) (r : request) (ph : phases) : Prop :=
  match o, r with
  | None, r => ph = Busy r
  | Some o, Read a l => ph = if failed o then Idle true else DataReady a l
  | Some o, Write _ _ _ => ph = Idle (failed o)
  end.

Record matches (m : model) (s : ide D) : Prop := {
  mt_bufs : ibufs s = m_bufs m;
  mt_have : havedisk1 s = m_have m;
  mt_len : length (qnext s) = length (ibufs s);
  mt_links : linked (qnext s) (idequeue s) (m_queue m);
  mt_nodup : NoDup (m_queue m);
  mt_wanted : Forall (fun b => (b < length (m_bufs m))%nat /\ wanted (m_bufs m !!! b)) (m_queue m);
  mt_sleep : sleepers s = rev (m_queue m);
  mt_disk a l : sector (port s) a l = m_disk m a l;
  mt_phase : match m_queue m with
             | [] => m_done m = None /\ exists e, phase (port s) = Idle e
             | b :: _ => at_work (m_done m) (request_of (m_bufs m !!! b)) (phase (port s))
             end
}.

(** ** The parts of the driver *)

Lemma idewait_polls k d r d' t chk s :
  polls k d r d' -> (k < t)%nat -> port s = d ->
  idewait t chk s =
  Ok (if chk && negb (Z.land r (Z.lor IDE_DF IDE_ERR) =? 0) then - 1 else 0, set_port d' s).
Proof.
  intros Hp. revert t s. induction Hp as [d r d' Ei Hr|k d r0 d0 r d' Ei Hr _ IH]; intros t s Ht Hs;
    (destruct t as [|t]; [lia|]); cbn [idewait]; unfold in_b, ready in *; mrun; rewrite Hs, Ei; mrun.
  - destruct (Z.eqb_spec (Z.land r (Z.lor IDE_BSY IDE_DRDY)) IDE_DRDY); [|done]. cbn [negb].
    by destruct (chk && _).
  - destruct (Z.eqb_spec (Z.land r0 (Z.lor IDE_BSY IDE_DRDY)) IDE_DRDY); [done|]. cbn [negb].
    rewrite (IH t (set_port d0 s)) by (lia || done). done.
Qed.

(** What the registers hold for a block. *)
Lemma sector_regs n v : 0 <= n < FSSIZE -> 0 <= v < 2 ->
  let top := Z.lor (Z.lor 0xe0 (Z.shiftl v 4)) (Z.land (Z.shiftr n 24) 0x0f) in
  0 <= top < 256 /\ (top / 2 ^ 4) mod 2 = v /\
  n = Z.land n 0xff + 2 ^ 8 * Z.land (Z.shiftr n 8) 0xff + 2 ^ 16 * Z.land (Z.shiftr n 16) 0xff
      + 2 ^ 24 * (top mod 2 ^ 4).
Proof.
  intros Hn Hv top. unfold FSSIZE in Hn.
  assert (E24 : Z.shiftr n 24 = 0) by (rewrite Z.shiftr_div_pow2 by lia; apply Z.div_small; lia).
  assert (E16 : Z.shiftr n 16 = 0) by (rewrite Z.shiftr_div_pow2 by lia; apply Z.div_small; lia).
  assert (Et : top = 0xe0 + 16 * v).
  { unfold top. rewrite E24. assert (Hc : v = 0 \/ v = 1) by lia. by destruct Hc as [-> | ->]. }
  rewrite Et, E16, Z.shiftr_div_pow2 by lia. change 0xff with (Z.ones 8). rewrite !Z.land_ones by lia.
  assert (E8 : (n / 2 ^ 8) mod 2 ^ 8 = n / 2 ^ 8).
  { apply Z.mod_small. split; [apply Z.div_pos; lia|apply Z.div_lt_upper_bound; lia]. }
  rewrite E8, Z.mod_0_l by lia. pose proof (Z.div_mod n (2 ^ 8) ltac:(lia)).
  assert (Em : (0xe0 + 16 * v) mod 2 ^ 4 = 0 /\ ((0xe0 + 16 * v) / 2 ^ 4) mod 2 = v).
  { assert (Hc : v = 0 \/ v = 1) by lia. by destruct Hc as [-> | ->]. }
  destruct Em as [-> ->]. lia.
Qed.

Lemma bit_range v : 0 <= Z.land v 1 < 2.
Proof. change 1 with (Z.ones 1). rewrite Z.land_ones by lia. apply Z.mod_pos_bound. lia. Qed.

Lemma byte_range v : 0 <= Z.land v 0xff < 256.
Proof. change 0xff with (Z.ones 8). rewrite Z.land_ones by lia. apply Z.mod_pos_bound. lia. Qed.

Definition same_sectors (d d' : D) : Prop := forall a l, sector d' a l = sector d a l.

Definition address (v2 v3 v4 v5 v6 : Z) (d : D) : D :=
  outb 0x1f6 v6 (outb 0x1f5 v5 (outb 0x1f4 v4 (outb 0x1f3 v3 (outb 0x1f2 v2 d)))).

Lemma address_ok v2 v3 v4 v5 v6 d e : phase d = Idle e ->
  Forall (fun v => 0 <= v < 256) [v2; v3; v4; v5; v6] ->
  let d' := address v2 v3 v4 v5 v6 d in
  phase d' = Idle e /\ same_sectors d d' /\
  reg d' 0x1f2 = v2 /\ reg d' 0x1f3 = v3 /\ reg d' 0x1f4 = v4 /\ reg d' 0x1f5 = v5 /\ reg d' 0x1f6 = v6.
Proof.
  intros P. rewrite !Forall_cons. intros (H2 & H3 & H4 & H5 & H6 & _) d'. unfold d', address.
  destruct (outb_reg 0x1f2 v2 _ e P ltac:(lia) H2) as (P2 & S2 & R2).
  destruct (outb_reg 0x1f3 v3 _ e P2 ltac:(lia) H3) as (P3 & S3 & R3).
  destruct (outb_reg 0x1f4 v4 _ e P3 ltac:(lia) H4) as (P4 & S4 & R4).
  destruct (outb_reg 0x1f5 v5 _ e P4 ltac:(lia) H5) as (P5 & S5 & R5).
  destruct (outb_reg 0x1f6 v6 _ e P5 ltac:(lia) H6) as (P6 & S6 & R6).
  split; [done|]. split; [intros a l; by rewrite S6, S5, S4, S3, S2|].
  rewrite !R6, !R5, !R4, !R3, !R2. split_and!; reflexivity.
Qed.

Lemma idestart_ok s b e : phase (port s) = Idle e -> wanted (ibat s b) ->
  exists d', idestart tries (Some b) s = Ok (tt, set_port d' s) /\
    phase d' = Busy (request_of (ibat s b)) /\ same_sectors (port s) d'.
Proof.
  intros Hp (Hf & Hn & Hd). set (x := ibat s b) in *. unfold idestart. mrun. fold x.
  destruct (Z.leb_spec FSSIZE (blockno x)); [lia|].
  replace (BSIZE / SECTOR_SIZE) with 1 by done. change (7 <? 1) with false. change (1 =? 1) with true. cbv iota.
  replace (s32 (blockno x * 1)) with (blockno x) by (unfold FSSIZE in Hn; rewrite s32_small; lia).
  destruct (sector_regs (blockno x) (Z.land (dev x) 1) Hn (bit_range _)) as (Ht & Ha & Hl).
  set (top := Z.lor (Z.lor _ _) _) in *.
  destruct (status _ e (or_introl Hp)) as (k & r & d0 & Hk & Hpl & P0 & _ & S0).
  mrun (idewait_polls _ _ _ _ tries false s Hpl Hk eq_refl). unfold out_b. mrun. cbn [port set_port].
  destruct (outb_control d0 e (eq_trans P0 Hp)) as (P1 & S1).
  destruct (address_ok 1 (Z.land (blockno x) 0xff) (Z.land (Z.shiftr (blockno x) 8) 0xff)
    (Z.land (Z.shiftr (blockno x) 16) 0xff) top _ e P1) as (P & S & R2 & R3 & R4 & R5 & R6).
  { repeat constructor; try apply byte_range; lia. }
  unfold address in *. set (d6 := outb 502 top _) in *. unfold request_of, disk_of.
  destruct (has (flags x) B_DIRTY).
  - destruct (outb_write d6 e _ _ P R2 eq_refl eq_refl) as (PW & SW). rewrite R3, R4, R5, R6, <- Hl, Ha in PW.
    destruct (outsl_data _ _ _ (data x) PW Hd) as (PO & SO). mrun. cbn [port set_port].
    change (4 * Z.to_nat (BSIZE / 4))%nat with 512%nat. rewrite <- Hd, firstn_all.
    eexists. split; [reflexivity|]. split; [done|]. intros a l. by rewrite SO, SW, S, S1, S0.
  - destruct (outb_read d6 e _ _ P R2 eq_refl eq_refl) as (PR & SR). rewrite R3, R4, R5, R6, <- Hl, Ha in PR.
    eexists. split; [reflexivity|]. split; [done|]. intros a l. by rewrite SR, S, S1, S0.
Qed.

Lemma bind_assoc3 {S A B C E} (a : M S A) (f : M S B) (g : B -> M S C) (k : C -> M S E) s :
  bind a (fun _ => bind f (fun x => bind (g x) k)) s = bind (bind a (fun _ => bind f g)) k s.
Proof. unfold bind. destruct (a s) as [[? s1]| | | |]; [|done..]. by destruct (f s1) as [[]| | | |]. Qed.

(** The end of the queue. *)
Lemma linked_insert nx p q b v : b ∉ q -> linked nx p q -> linked (<[b := v]> nx) p q.
Proof.
  revert p. induction q as [|c q IH]; intros p; cbn [linked]; [done|].
  rewrite not_elem_of_cons. intros [Hc Hb] [-> Hl]. split; [done|].
  rewrite list_lookup_total_insert_ne by done. by apply IH.
Qed.

(** The link [find_tail] stops at after the queue [q] from [pp]. *)
Definition last_link (pp : option nat) (q : list nat) : option nat :=
  match last q with Some b => Some b | None => pp end.

Lemma find_tail_ok fuel pp q (s : ide D) :
  linked (qnext s) (match pp with None => idequeue s | Some b => qnext s !!! b end) q ->
  (length q <= fuel)%nat -> find_tail fuel pp s = Ok (last_link pp q, s).
Proof.
  revert pp fuel. induction q as [|c q IH]; intros pp fuel; cbn [linked length].
  - intros E _. destruct fuel; cbn [find_tail]; mrun; by rewrite E.
  - intros [E Hl] Hf. destruct fuel as [|f]; [lia|]. cbn [find_tail]. mrun. rewrite E.
    rewrite (IH (Some c) f) by (done || lia). unfold last_link. rewrite last_cons. by destruct (last q).
Qed.

Lemma linked_snoc nx p q b : NoDup (q ++ [b]) -> Forall (fun c => (c < length nx)%nat) q ->
  nx !!! b = None -> linked nx p q ->
  match last q with
  | None => p = None
  | Some c => linked (<[c := Some b]> nx) p (q ++ [b])
  end.
Proof.
  revert p. induction q as [|c q IH]; intros p; cbn [linked app last]; [done|].
  rewrite NoDup_cons, Forall_cons. intros [Hc Hn] [Hl Hq] Hb [-> H1]. specialize (IH (nx !!! c) Hn Hq Hb H1).
  destruct q as [|c' q]; cbn [last app] in *.
  - split; [done|]. rewrite list_lookup_total_insert_eq by done. split; [done|].
    rewrite list_lookup_total_insert_ne; [done|]. set_solver.
  - destruct (last (c' :: q)) as [z|] eqn:Ez; [|by rewrite last_None in Ez]. split; [done|].
    rewrite list_lookup_total_insert_ne; [done|]. apply last_Some_elem_of in Ez. set_solver.
Qed.

(** Putting a request at the end of the queue. *)
Lemma append_ok q b (s : ide D) :
  linked (qnext s) (idequeue s) q -> NoDup (q ++ [b]) -> (length q <= length (ibufs s))%nat ->
  Forall (fun c => (c < length (qnext s))%nat) (q ++ [b]) ->
  exists nx', length nx' = length (qnext s) /\ linked nx' (Some (hd b q)) (q ++ [b]) /\
    (do! modify (set_qnext b None) in
     let! pp := find_tail (length (ibufs s)) None in
     set_link pp (Some b)) s =
    Ok (tt, {| ibufs := ibufs s; qnext := nx'; idequeue := Some (hd b q); havedisk1 := havedisk1 s;
               caller := caller s; sleepers := sleepers s; port := port s |}).
Proof.
  intros Hl Hn Hlen Hf. assert (Hb : b ∉ q) by (apply NoDup_app in Hn; set_solver).
  apply Forall_app in Hf as [Hf Hfb]. rewrite Forall_singleton in Hfb.
  apply (linked_insert _ _ _ b None Hb) in Hl. mrun.
  mrun (find_tail_ok (length (ibufs s)) None q (set_qnext b None s) Hl Hlen).
  assert (Hnb : (<[b := None]> (qnext s) !!! b) = None) by by apply list_lookup_total_insert_eq.
  pose proof (linked_snoc (<[b := None]> (qnext s)) (idequeue s) q b Hn) as Hs.
  rewrite length_insert in Hs. specialize (Hs Hf Hnb Hl). unfold last_link.
  destruct (last q) as [c|] eqn:Ec.
  - destruct q as [|c0 q]; [done|]. pose proof Hl as [Eq _].
    exists (<[c := Some b]> (<[b := None]> (qnext s))). split; [by rewrite !length_insert|]. cbn [hd].
    rewrite <- Eq. split; [done|]. reflexivity.
  - apply last_None in Ec as ->. exists (<[b := None]> (qnext s)). split; [by rewrite length_insert|].
    split; [by split|]. reflexivity.
Qed.

Lemma queue_short m s : matches m s -> (length (m_queue m) <= length (ibufs s))%nat.
Proof.
  intros Hm. rewrite (mt_bufs _ _ Hm).
  replace (length (m_bufs m)) with (length (seq 0 (length (m_bufs m)))) by apply length_seq.
  apply submseteq_length, NoDup_submseteq; [apply Hm|]. intros b Hb. rewrite elem_of_seq.
  pose proof (mt_wanted _ _ Hm) as Hw. rewrite Forall_forall in Hw. destruct (Hw b Hb). lia.
Qed.

(** The state after a request: started at once on an empty queue. *)
Lemma iderw_ok q b (s : ide D) : let x := ibat s b in
  linked (qnext s) (idequeue s) q -> NoDup (q ++ [b]) -> (length q <= length (ibufs s))%nat ->
  Forall (fun c => (c < length (qnext s))%nat) (q ++ [b]) ->
  holdingsleep (lock x) (caller s) = true -> wanted x -> dev x = 0 \/ havedisk1 s = true ->
  (q = [] -> exists e, phase (port s) = Idle e) ->
  exists nx' d', iderw tries b s =
    Ok (false, {| ibufs := ibufs s; qnext := nx'; idequeue := Some (hd b q); havedisk1 := havedisk1 s;
                  caller := caller s; sleepers := b :: sleepers s; port := d' |}) /\
    length nx' = length (qnext s) /\ linked nx' (Some (hd b q)) (q ++ [b]) /\
    same_sectors (port s) d' /\ phase d' = match q with [] => Busy (request_of x) | _ => phase (port s) end.
Proof.
  intros x Hl Hn Hlen Hf Hlk Hw Hdv Hph. unfold iderw. mrun. fold x. rewrite Hlk. cbn [negb].
  pose proof Hw as [Ef _]. destruct (Z.eqb_spec (Z.land (flags x) (Z.lor B_VALID B_DIRTY)) B_VALID); [done|].
  replace (negb (dev x =? 0) && negb (havedisk1 s)) with false
    by (destruct Hdv as [-> | ->]; [done|by destruct (dev x =? 0)]).
  destruct (append_ok q b s Hl Hn Hlen Hf) as (nx' & Hnx & Hlk' & Ea).
  rewrite bind_assoc3, (bind_Ok _ _ _ _ _ Ea). mrun. cbn [idequeue]. clear Ea.
  match goal with |- context [bind _ (fun _ => iderw_wait b) ?s1] => set (s1' := s1) end.
  assert (Hwait : forall d, iderw_wait b (set_port d s1') = Ok (false, set_sleepers (b :: sleepers s) (set_port d s1'))).
  { intros d. unfold iderw_wait. mrun. change (ibat (set_port d s1') b) with x.
    by destruct (Z.eqb_spec (Z.land (flags x) (Z.lor B_VALID B_DIRTY)) B_VALID). }
  destruct q as [|c q]; cbn [hd].
  - rewrite bool_decide_true by done. destruct (Hph eq_refl) as [e Ep].
    destruct (idestart_ok s1' b e Ep Hw) as (d' & Es & Pd & Sd).
    exists nx', d'. rewrite (bind_Ok _ _ _ _ _ Es), Hwait. done.
  - rewrite bool_decide_false by (intros [= ->]; apply NoDup_app in Hn; set_solver).
    exists nx', (port s). rewrite bind_ret. split; [exact (Hwait (port s))|]. done.
Qed.

(** ** The steps *)

Lemma request_ok m s pid b m' : matches m s -> m_exec (Request pid b) m = Some m' ->
  exists s', ide_exec (Request pid b) s = Ok (tt, s') /\ matches m' s'.
Proof.
  intros Hm E. pose proof (queue_short _ _ Hm) as Hlen.
  destruct Hm as [Hbs Hh Hl Hk Hn Hw Hs Hd Hp]. cbn [m_exec] in E.
  destruct (bool_decide _) eqn:Eb; [|done]. apply bool_decide_eq_true in Eb as (Hbl & Hbq & Hbw).
  destruct (holdingsleep _ pid) eqn:Elk; [|done]. destruct (_ || _) eqn:Edv; [|done].
  cbn in E. injection E as <-. set (x := m_bufs m !!! b) in *.
  assert (Hx : ibat (set_caller pid s) b = x) by (unfold ibat; cbn; by rewrite Hbs).
  assert (Hn' : NoDup (m_queue m ++ [b])) by (apply NoDup_app; split; [done|]; split; [set_solver|apply NoDup_singleton]).
  assert (Hw' : Forall (fun b => (b < length (m_bufs m))%nat /\ wanted (m_bufs m !!! b)) (m_queue m ++ [b])).
  { apply Forall_app. split; [done|]. by apply Forall_singleton. }
  destruct (iderw_ok (m_queue m) b (set_caller pid s)) as (nx' & d' & E & Hnx & Hlk & Sd & Pd);
    rewrite ?Hx; cbn [qnext idequeue ibufs caller havedisk1 port set_caller]; try done.
  { rewrite Hl, Hbs. eapply Forall_impl; [exact Hw'|]. by intros c []. }
  { apply orb_true_iff in Edv as [Ed|Ed]; [left; by apply Z.eqb_eq|right; congruence]. }
  { intros Eq. rewrite Eq in Hp. by destruct Hp. }
  cbn [ide_exec]. mrun. rewrite (bind_Ok _ _ _ _ _ E). eexists. split; [reflexivity|].
  rewrite Hx in Pd. cbn [port set_caller] in Pd. cbn [qnext set_caller] in Hnx.
  split; cbn; try done; [congruence| | |].
  - by rewrite Hs, rev_app_distr.
  - intros a l. rewrite <- Hd. apply Sd.
  - destruct (m_queue m) as [|c q]; cbn; [|congruence]. destruct Hp as [-> _]. done.
Qed.

Lemma complete_ok m s o m' : matches m s -> m_exec (Complete o) m = Some m' ->
  exists s', ide_exec (Complete o) s = Ok (tt, s') /\ matches m' s'.
Proof.
  intros [Hbs Hh Hl Hk Hn Hw Hs Hd Hp] E. cbn [m_exec] in E.
  destruct (m_queue m) as [|b q] eqn:Eq; [done|]. destruct (m_done m); [done|]. injection E as <-.
  cbn [ide_exec]. eexists. split; [reflexivity|]. set (x := m_bufs m !!! b) in *. cbn in Hp.
  assert (Hf : (forall a l, sector (finish o (port s)) a l = written o x (m_disk m) a l) /\
               at_work (Some o) (request_of x) (phase (finish o (port s)))).
  { unfold written. unfold request_of in *. destruct (has (flags x) B_DIRTY).
    - destruct (finish_write _ o _ _ _ Hp) as [Pf Sf]. split; [|done]. intros a l. rewrite Sf, Hd. cbn.
      destruct (decide (a = disk_of x /\ l = blockno x)); [by rewrite bool_decide_true|by rewrite bool_decide_false].
    - destruct (finish_read _ o _ _ Hp) as [Pf Sf]. split; [|done]. intros a l. by rewrite Sf, Hd. }
  destruct Hf as [Hf1 Hf2]. split; cbn; rewrite ?Eq; try done.
Qed.

Lemma change_ok m s b x m' : matches m s -> m_exec (Change b x) m = Some m' ->
  exists s', ide_exec (Change b x) s = Ok (tt, s') /\ matches m' s'.
Proof.
  intros [Hbs Hh Hl Hk Hn Hw Hs Hd Hp] E. cbn [m_exec] in E.
  case_bool_decide as Hb; [done|]. injection E as <-. eexists. split; [reflexivity|].
  assert (Hne : forall c, c ∈ m_queue m -> <[b := x]> (m_bufs m) !!! c = m_bufs m !!! c).
  { intros c Hc. apply list_lookup_total_insert_ne. by intros ->. }
  split; cbn; try done; [congruence|by rewrite length_insert| |].
  - rewrite Forall_forall in *. intros c Hc. rewrite length_insert, Hne by done. by apply Hw.
  - destruct (m_queue m) as [|c q]; [done|]. rewrite Hne by set_solver. done.
Qed.

(** The transfer at an interrupt. *)
Lemma transfer_ok (s : ide D) b o : at_work (Some o) (request_of (ibat s b)) (phase (port s)) ->
  exists d' e, same_sectors (port s) d' /\ phase d' = Idle e /\
  (if negb (has (flags (ibat s b)) B_DIRTY) then
     let! r := idewait tries true in
     if 0 <=? r then
       let! s := get in
       let '(bs, d) := insl 0x1f0 (Z.to_nat (BSIZE / 4)) (port s) in
       do! put (set_port d s) in
       upd_ibuf b (set_data bs)
     else ret tt
   else ret tt) s =
  Ok (tt, set_port d' (if has (flags (ibat s b)) B_DIRTY || failed o then s
          else set_ibufs (alter (set_data (sector (port s) (disk_of (ibat s b)) (blockno (ibat s b)))) b (ibufs s)) s)).
Proof.
  set (x := ibat s b). unfold request_of. destruct (has (flags x) B_DIRTY); cbn [at_work negb orb].
  { intros P. exists (port s), (failed o). split; [done|]. split; [done|]. by destruct s. }
  intros P. destruct (status (port s) (failed o)) as (k & r & d & Hk & Hpl & Pd & Er & Sd).
  { destruct (failed o); [by left|right; eauto]. }
  rewrite (bind_Ok _ _ _ _ _ (idewait_polls _ _ _ _ tries true s Hpl Hk eq_refl)), Er. cbn [andb].
  destruct (failed o); cbn [negb].
  - exists d, true. split; [done|]. split; [congruence|]. done.
  - rewrite P in Pd. destruct (insl_data _ _ _ Pd) as (d' & Ei & Pd' & Sd').
    exists d', false. split; [intros a l; by rewrite Sd', Sd|]. split; [done|].
    change (0 <=? 0) with true. cbv iota. mrun. change (Z.to_nat (BSIZE / 4)) with 128%nat. cbn [port set_port].
    rewrite Ei, Sd. reflexivity.
Qed.

Lemma alter_bufs q b f (bs : list buf) : b ∉ q ->
  Forall (fun b => (b < length bs)%nat /\ wanted (bs !!! b)) q ->
  Forall (fun c => (c < length (alter f b bs))%nat /\ wanted (alter f b bs !!! c) /\ alter f b bs !!! c = bs !!! c) q.
Proof.
  intros Hb. rewrite !Forall_forall. intros H1 c Hc. destruct (H1 c Hc) as [H2 H3].
  assert (E : alter f b bs !!! c = bs !!! c).
  { rewrite !list_lookup_total_alt, list_lookup_alter_ne; [done|]. set_solver. }
  rewrite length_alter, E. done.
Qed.

Lemma filter_ne (q : list nat) b : b ∉ q -> filter (fun x => x <> b) q = q.
Proof.
  induction q as [|c q IH]; [done|]. rewrite not_elem_of_cons. intros [Hc Hq].
  rewrite filter_cons_True by done. by rewrite IH.
Qed.

Lemma rev_filter (q : list nat) b : b ∉ q -> filter (fun x => x <> b) (rev (b :: q)) = rev q.
Proof.
  intros Hb. cbn [rev]. rewrite filter_app, filter_ne by by rewrite list_elem_of_In, <- in_rev, <- list_elem_of_In.
  rewrite filter_cons_False by (by intros []). by rewrite filter_nil, app_nil_r.
Qed.

(** The buffer after the transfer and the two updates of its flags. *)
Lemma served_alter o disk b (bs : list buf) :
  alter (fun x => set_flags (Z.land (flags x) (Z.lnot B_DIRTY)) x) b
    (alter (fun x => set_flags (Z.lor (flags x) B_VALID) x) b
      (if has (flags (bs !!! b)) B_DIRTY || failed o then bs
       else alter (set_data (disk (disk_of (bs !!! b)) (blockno (bs !!! b)))) b bs)) =
  alter (served o disk) b bs.
Proof.
  set (x := bs !!! b).
  destruct (has (flags x) B_DIRTY || failed o) eqn:Ed; rewrite !list_alter_alter_eq;
    apply list_alter_ext; try done; intros y Hy;
    assert (Exy : x = y) by (by apply list_lookup_total_correct); rewrite Exy in *; unfold served; by rewrite Ed.
Qed.

Definition after_intr (o : outcome) (b : nat) (q : list nat) (disk : Z -> Z -> list Z) (d : D) (s : ide D) : ide D :=
  {| ibufs := alter (served o disk) b (ibufs s); qnext := qnext s; idequeue := qnext s !!! b;
     havedisk1 := havedisk1 s; caller := caller s; sleepers := rev q; port := d |}.

(** The handler up to the start of the next request. *)
Lemma ideintr_head s b q o disk : idequeue s = Some b -> b ∉ q -> sleepers s = rev (b :: q) ->
  at_work (Some o) (request_of (ibat s b)) (phase (port s)) ->
  (forall a l, sector (port s) a l = disk a l) ->
  exists d' e, same_sectors (port s) d' /\ phase d' = Idle e /\
  ideintr tries s = match qnext s !!! b with
                    | Some c => idestart tries (Some c) (after_intr o b q disk d' s)
                    | None => Ok (tt, after_intr o b q disk d' s)
                    end.
Proof.
  intros Ek Hbq Hs Hp Hd.
  destruct (transfer_ok (set_idequeue (qnext s !!! b) s) b o Hp) as (d1 & e & S1 & P1 & E1).
  exists d1, e. split; [done|]. split; [done|]. unfold ideintr. mrun. rewrite Ek. mrun.
  rewrite (bind_Ok _ _ _ _ _ E1). unfold upd_ibuf, wake_buf. mrun.
  match goal with |- context [set_sleepers ?l ?s1] => assert (Es : set_sleepers l s1 = after_intr o b q disk d1 s) end.
  { unfold after_intr. rewrite <- served_alter, <- (rev_filter q b Hbq), <- Hs, <- !Hd. unfold ibat.
    cbn [ibufs port set_idequeue]. by destruct (has _ _ || _). }
  rewrite Es. unfold after_intr. cbn [idequeue]. by destruct (qnext s !!! b).
Qed.

Lemma interrupt_ok m s m' : matches m s -> m_exec Interrupt m = Some m' ->
  exists s', ide_exec Interrupt s = Ok (tt, s') /\ matches m' s'.
Proof.
  intros Hm E. pose proof Hm as [Hbs Hh Hl Hk Hn Hw Hs Hd Hp]. cbn [m_exec ide_exec] in *.
  destruct (m_queue m) as [|b q] eqn:Eq.
  { injection E as <-. exists s. split; [|done]. unfold ideintr. mrun. by rewrite Hk. }
  destruct (m_done m) as [o|] eqn:Eo; [|done]. injection E as <-. destruct Hk as [Ek Hk].
  apply NoDup_cons in Hn as [Hbq Hn]. apply Forall_cons in Hw as [[Hbl Hbw] Hw].
  pose proof (alter_bufs q b (served o (m_disk m)) _ Hbq Hw) as Ha.
  assert (Hx : ibat s b = m_bufs m !!! b) by (unfold ibat; by rewrite Hbs). rewrite <- Hx in Hp.
  destruct (ideintr_head s b q o (m_disk m) Ek Hbq Hs Hp Hd) as (d1 & e & S1 & P1 & E1).
  rewrite E1. unfold after_intr. rewrite Hbs. destruct q as [|c q].
  - rewrite Hk. eexists. split; [reflexivity|]. split; cbn; try done.
    + by rewrite length_alter, <- Hbs.
    + intros a l. by rewrite <- Hd.
    + split; [done|]. by exists e.
  - destruct Hk as [Ek' Hk]. rewrite Ek'. pose proof Ha as Ha'. apply Forall_cons in Ha' as [(Hc & Hcw & _) _].
    match goal with |- context [idestart tries (Some c) ?s1] => destruct (idestart_ok s1 c e P1 Hcw) as (d2 & E2 & P2 & S2) end.
    rewrite E2. eexists. split; [reflexivity|]. split; cbn; try done.
    + by rewrite length_alter, <- Hbs.
    + eapply Forall_impl; [exact Ha|]. naive_solver.
    + intros a l. rewrite <- Hd, <- S1. apply S2.
Qed.

(** ** Runs *)

Lemma exec_ok e m s m' : matches m s -> m_exec e m = Some m' ->
  exists s', ide_exec e s = Ok (tt, s') /\ matches m' s'.
Proof. destruct e; eauto using request_ok, change_ok, complete_ok, interrupt_ok. Qed.

Lemma run_ok es m s m' : matches m s -> m_run es m = Some m' ->
  exists s', ide_run es s = Ok (tt, s') /\ matches m' s'.
Proof.
  revert m s. induction es as [|e es IH]; intros m s Hm; cbn [m_run ide_run].
  { intros [= ->]. by exists s. }
  destruct (m_exec e m) as [m1|] eqn:E; [|done]. cbn. intros Hr.
  destruct (exec_ok _ _ _ _ Hm E) as (s1 & E1 & Hm1). destruct (IH _ _ Hm1 Hr) as (s' & E2 & Hm').
  exists s'. by rewrite (bind_Ok _ _ _ _ _ E1).
Qed.

Lemma served_flags o disk x : Z.land (flags (served o disk x)) (Z.lor B_VALID B_DIRTY) = B_VALID.
Proof.
  unfold served. cbn [flags set_flags]. apply Z.bits_inj'. intros n Hn.
  rewrite !Z.land_spec, !Z.lor_spec, Z.lnot_spec by done. change B_VALID with (2 ^ 1). change B_DIRTY with (2 ^ 2).
  rewrite !Z.pow2_bits_eqb by lia. destruct (Z.eqb_spec 1 n), (Z.eqb_spec 2 n), (Z.testbit (flags x) n); lia || done.
Qed.

(** The process that waits for a request finds it served. *)
Lemma served_returns m s b q o : matches m s -> m_queue m = b :: q -> m_done m = Some o ->
  exists s', ideintr tries s = Ok (tt, s') /\ iderw_wait b s' = Ok (true, s') /\ sleepers s' = rev q /\
    ibat s' b = served o (m_disk m) (m_bufs m !!! b) /\ forall a l, sector (port s') a l = m_disk m a l.
Proof.
  intros Hm Eq Eo.
  destruct (exec_ok Interrupt m s {| m_bufs := alter (served o (m_disk m)) b (m_bufs m); m_have := m_have m;
    m_queue := q; m_done := None; m_disk := m_disk m |} Hm) as (s' & E & Hm').
  { cbn [m_exec]. by rewrite Eq, Eo. }
  exists s'. split; [exact E|].
  assert (Hb : (b < length (m_bufs m))%nat).
  { pose proof (mt_wanted _ _ Hm) as Hw. rewrite Eq in Hw. by apply Forall_cons in Hw as [[] _]. }
  assert (Hx : ibat s' b = served o (m_disk m) (m_bufs m !!! b)).
  { unfold ibat. rewrite (mt_bufs _ _ Hm'). cbn [m_bufs]. destruct (lookup_lt_is_Some_2 _ _ Hb) as [x Hx].
    rewrite (list_lookup_total_correct _ _ _ Hx). apply list_lookup_total_correct.
    by rewrite list_lookup_alter_eq, Hx. }
  split_and!; [|by rewrite (mt_sleep _ _ Hm')|exact Hx|apply (mt_disk _ _ Hm')].
  unfold iderw_wait. mrun. by rewrite Hx, served_flags, Z.eqb_refl.
Qed.

End Refine.

(** ** Order *)

Fixpoint requests (es : list event) : list nat :=
  match es with
  | [] => []
  | Request _ b :: es => b :: requests es
  | _ :: es => requests es
  end.
Fixpoint completions (es : list event) : nat :=
  match es with
  | [] => 0
  | Complete _ :: es => S (completions es)
  | _ :: es => completions es
  end.
Definition pending (m : model) : nat := match m_done m with Some _ => 1 | None => 0 end.

Lemma run_queue es m m' : m_run es m = Some m' -> (m_queue m = [] -> m_done m = None) ->
  (pending m' <= completions es + pending m)%nat /\
  m_queue m' = drop (completions es + pending m - pending m') (m_queue m ++ requests es).
Proof.
  revert m. induction es as [|e es IH]; intros m; cbn [m_run requests completions].
  { intros [= ->] _. rewrite app_nil_r. split; [lia|]. by replace (0 + pending m' - pending m')%nat with 0%nat by lia. }
  destruct (m_exec e m) as [m1|] eqn:E; [|done]. cbn. intros Hr Hi. specialize (IH _ Hr).
  destruct e as [pid b|b x|o|]; cbn [m_exec] in E.
  - destruct (_ && _); [|done]. injection E as <-. unfold pending in *. cbn [m_queue m_done] in IH.
    rewrite <- app_assoc in IH. cbn [app] in IH. apply IH. intros Eq. by apply app_nil in Eq as [_ ?].
  - destruct (bool_decide _); [done|]. injection E as <-. by apply IH.
  - destruct (m_queue m) as [|b q] eqn:Eq; [done|]. unfold pending in *. destruct (m_done m); [done|].
    injection E as <-. cbn [m_queue m_done] in IH. destruct IH as [IH1 IH2]; [done|].
    replace (S (completions es) + 0)%nat with (completions es + 1)%nat by lia. done.
  - destruct (m_queue m) as [|b q] eqn:Eq.
    { injection E as <-. rewrite Eq in IH. by apply IH. }
    unfold pending in *. destruct (m_done m); [|done]. injection E as <-. cbn [m_queue m_done] in IH.
    destruct IH as [IH1 IH2]; [done|]. split; [lia|]. rewrite IH2.
    by replace (completions es + 1 - _)%nat with (S (completions es + 0 - match m_done m' with Some _ => 1 | None => 0 end)) by lia.
Qed.

(** A write whose command has ended well is on the disk. *)
Record synced (m : model) : Prop := {
  sy_idle : m_queue m = [] -> m_done m = None;
  sy_disk b q : m_queue m = b :: q -> m_done m = Some Good -> has (flags (m_bufs m !!! b)) B_DIRTY = true ->
    m_disk m (disk_of (m_bufs m !!! b)) (blockno (m_bufs m !!! b)) = data (m_bufs m !!! b)
}.

Lemma exec_synced e m m' : m_exec e m = Some m' -> synced m -> synced m'.
Proof.
  intros E [S1 S2]. destruct e as [pid b|b x|o|]; cbn [m_exec] in E.
  - destruct (_ && _); [|done]. injection E as <-. split; cbn [m_queue m_done m_bufs m_disk].
    + intros Eq. by apply app_nil in Eq as [_ ?].
    + intros c q Eq Ed. destruct (m_queue m) as [|c' q'] eqn:Em; [by rewrite S1 in Ed|].
      injection Eq as -> _. by eapply S2.
  - case_bool_decide as Hb; [done|]. injection E as <-. split; cbn [m_queue m_done m_bufs m_disk]; [done|].
    intros c q Eq Ed. rewrite list_lookup_total_insert_ne by (intros ->; apply Hb; rewrite Eq; left). by eapply S2.
  - destruct (m_queue m) as [|b q] eqn:Em; [done|]. destruct (m_done m); [done|]. injection E as <-.
    split; cbn [m_queue m_done m_bufs m_disk]; [done|]. intros c q' [= -> ->] [= ->] Hd. unfold written.
    by rewrite Hd, bool_decide_true by done.
  - destruct (m_queue m) as [|b q] eqn:Em; [injection E as <-; split; [intros _; by apply S1|intros c q; by rewrite Em]|].
    destruct (m_done m); [|done]. injection E as <-. by split.
Qed.

Lemma run_synced es m m' : m_run es m = Some m' -> synced m -> synced m'.
Proof.
  revert m. induction es as [|e es IH]; intros m; cbn [m_run]; [by intros [= ->]|].
  destruct (m_exec e m) as [m1|] eqn:E; [|done]. cbn. intros Hr Hs. by eapply IH, exec_synced.
Qed.

(** A served buffer is the sector if the command ended well, and has its old
    contents if it did not. *)
Lemma served_data m b q o : synced m -> m_queue m = b :: q -> m_done m = Some o ->
  let x := served o (m_disk m) (m_bufs m !!! b) in
  if failed o then data x = data (m_bufs m !!! b) else data x = m_disk m (disk_of x) (blockno x).
Proof.
  intros [_ Hs] Eq Eo. unfold served. destruct o as [|bs]; cbn [failed]; [|by rewrite orb_true_r].
  rewrite orb_false_r. destruct (has _ _) eqn:Ed; [|done]. cbn. symmetry. by eapply Hs.
Qed.

(** The IDE driver refines a queue of requests.  Requests by processes,
    changes to buffers that are not on the queue, ends of commands and
    interrupts come in any order in which a command's interrupt follows its
    end and commands end one at a time.  The driver does not panic, and the
    requests are served in the order they were made.  When the interrupt of a
    command that ended well has been handled, the buffer is valid, clean and
    equal to its sector; after one that failed it is valid and clean all the
    same, with the contents it had.  Only the processes whose request is on
    the queue sleep, and the one an interrupt wakes returns (C13). *)
Theorem ide_refines {D} `{AtaSpec D} es m (s : ide D) m' :
  matches m s -> m_done m = None -> m_run es m = Some m' ->
  exists s', ide_run es s = Ok (tt, s') /\ matches m' s' /\ sleepers s' = rev (m_queue m') /\
    m_queue m' = drop (completions es - pending m') (m_queue m ++ requests es) /\
    (forall b q o, m_queue m' = b :: q -> m_done m' = Some o ->
       exists s'', ideintr tries s' = Ok (tt, s'') /\ iderw_wait b s'' = Ok (true, s'') /\ sleepers s'' = rev q /\
         let x := ibat s'' b in
         if failed o then data x = data (ibat s' b) else data x = sector (port s'') (disk_of x) (blockno x)).
Proof.
  intros Hm Hd Hr. destruct (run_ok es m s m' Hm Hr) as (s' & E & Hm'). exists s'. split; [done|].
  split; [done|]. split; [apply Hm'|].
  destruct (run_queue es m m' Hr (fun _ => Hd)) as [_ Hq]. unfold pending in Hq at 1. rewrite Hd, Nat.add_0_r in Hq.
  split; [done|]. intros b q o Eq Eo.
  destruct (served_returns m' s' b q o Hm' Eq Eo) as (s'' & E1 & E2 & E3 & Ex & Es). exists s''. split_and!; auto.
  assert (Hs : synced m') by (apply (run_synced es m m' Hr); split; [done|congruence]).
  pose proof (served_data m' b q o Hs Eq Eo) as Hx. cbv zeta in *. rewrite Ex.
  destruct (failed o); [|by rewrite Es]. rewrite Hx. unfold ibat. by rewrite (mt_bufs _ _ Hm').
Qed.

(** ** The in-memory disk *)






(** ** A disk *)

Record ata := {
  t_reg : Z -> Z;
  t_phase : phases;
  t_sector : Z -> Z -> list Z
}.

Definition set_phase (p : phases) (d : ata) : ata :=
  {| t_reg := t_reg d; t_phase := p; t_sector := t_sector d |}.
Definition ata_lba (d : ata) : Z :=
  t_reg d 0x1f3 + 2 ^ 8 * t_reg d 0x1f4 + 2 ^ 16 * t_reg d 0x1f5 + 2 ^ 24 * (t_reg d 0x1f6 mod 2 ^ 4).
Definition ata_disk (d : ata) : Z := (t_reg d 0x1f6 / 2 ^ 4) mod 2.

#[global] Instance ata_ops : AtaOps ata := {
  inb p d := match t_phase d with
             | Idle true => (65, d)
             | Busy (Read a l) => (128, set_phase (DataReady a l) d)
             | Busy _ => (128, d)
             | _ => (64, d)
             end;
  outb p v d :=
    if p =? 0x1f7 then
      if v =? IDE_CMD_READ then set_phase (Busy (Read (ata_disk d) (ata_lba d))) d
      else if v =? IDE_CMD_WRITE then set_phase (WantData (ata_disk d) (ata_lba d)) d
      else d
    else {| t_reg := fun q => if decide (q = p) then v else t_reg d q; t_phase := t_phase d; t_sector := t_sector d |};
  insl p n d := match t_phase d with
                | DataReady a l => (t_sector d a l, set_phase (Idle false) d)
                | _ => ([], d)
                end;
  outsl p bs d := match t_phase d with WantData a l => set_phase (Busy (Write a l bs)) d | _ => d end
}.

Definition ata_finish (o : outcome) (d : ata) : ata :=
  match t_phase d with
  | Busy (Read a l) => set_phase (if failed o then Idle true else DataReady a l) d
  | Busy (Write a l bs) =>
      {| t_reg := t_reg d; t_phase := Idle (failed o);
         t_sector := fun a' l' => if decide (a' = a /\ l' = l) then match o with Good => bs | Bad bs => bs end
                                  else t_sector d a' l' |}
  | _ => d
  end.

#[global] Program Instance ata_spec : AtaSpec ata := {
  tries := 2; reg := t_reg; phase := t_phase; sector := t_sector; finish := ata_finish
}.
Next Obligation.
  intros d e Hp. exists 0%nat, (if e then 65 else 64), d. split; [lia|].
  split; [|split; [done|split; [by destruct e|done]]].
  constructor; [|by destruct e]. cbn. destruct Hp as [-> |[-> (a & l & ->)]]; [by destruct e|done].
Qed.
Next Obligation.
  intros d a l Hp. exists 1%nat, 64, (set_phase (DataReady a l) d). split; [lia|]. split; [|done].
  econstructor; [cbn; by rewrite Hp|done|]. by constructor.
Qed.
Next Obligation. intros d e Hp. done. Qed.
Next Obligation.
  intros p v d e Hp Hr Hv. cbn. destruct (Z.eqb_spec p 0x1f7); [lia|]. done.
Qed.
Next Obligation. intros d e a l Hp H1 -> ->. done. Qed.
Next Obligation. intros d e a l Hp H1 -> ->. done. Qed.
Next Obligation. intros d a l bs Hp Hl. cbn. by rewrite Hp. Qed.
Next Obligation. intros d a l Hp. exists (set_phase (Idle false) d). cbn. by rewrite Hp. Qed.
Next Obligation. intros d o a l Hp. unfold ata_finish. by rewrite Hp. Qed.
Next Obligation. intros d o a l bs Hp. unfold ata_finish. by rewrite Hp. Qed.

(** An idle driver with two locked buffers of disk 1: one to write, one to
    read. *)
Definition demo_buf (f n v : Z) : buf :=
  {| flags := f; dev := 1; blockno := n; lock := {| sl_locked := true; sl_pid := 7 |}; refcnt := 1;
     prev := 0; next := 0; data := replicate 512 v |}.
Definition demo_disk (a l : Z) : list Z := replicate 512 3.
Definition demo_ide : ide ata :=
  {| ibufs := [demo_buf B_DIRTY 4 9; demo_buf 0 4 0]; qnext := [None; None]; idequeue := None; havedisk1 := true;
     caller := 0; sleepers := []; port := {| t_reg := fun _ => 0; t_phase := Idle false; t_sector := demo_disk |} |}.
Definition demo_model : model :=
  {| m_bufs := ibufs demo_ide; m_have := true; m_queue := []; m_done := None; m_disk := demo_disk |}.

Lemma demo_matches : matches demo_model demo_ide.
Proof. split; try done; try constructor; eauto. Qed.

(** The read that is requested during the write waits for it, and then reads
    what was written. *)
Definition demo_events : list event :=
  [Request 7 0; Request 7 1; Complete Good; Interrupt; Complete Good].

Lemma ide_refines_witness : exists m' s' s'',
  m_run demo_events demo_model = Some m' /\ ide_run demo_events demo_ide = Ok (tt, s') /\
  matches m' s' /\ m_queue m' = [1%nat] /\ ideintr tries s' = Ok (tt, s'') /\ iderw_wait 1 s'' = Ok (true, s'').
Proof.
  destruct (m_run demo_events demo_model) as [m'|] eqn:Er; [|vm_compute in Er; discriminate Er].
  destruct (ide_refines demo_events demo_model demo_ide m' demo_matches eq_refl Er) as (s' & E & Hm & _ & Hq & Hi).
  assert (Hp : exists o, m_done m' = Some o) by (cbn in Er; injection Er as <-; eexists; reflexivity).
  destruct Hp as [o Ho]. unfold pending in Hq. rewrite Ho in Hq.
  destruct (Hi 1%nat [] o Hq Ho) as (s'' & E' & Hw & _).
  exists m', s', s''. split_and!; [reflexivity|exact E|exact Hm|exact Hq|exact E'|exact Hw].
Defined.

