(* ===== verification/Boot.v ===== *)
(** * The boot loader (bootmain.c)

    The loader reads the kernel, an ELF file, from the sectors of disk 0 after
    the first, polling the disk behind the ports of [AtaOps], and stores its
    segments in physical memory.  Assuming a disk that follows [AtaSpec], the
    segments are in memory when the loader jumps to the entry point. *)

From stdpp Require Import sorting.
From S2P Require Import Prelude Param Memory Ide IdeSpec.

Definition SECTSIZE : Z := 512.
Definition ELF_MAGIC : Z := 0x464C457F.
Definition sizeof_proghdr : Z := 32.

Record boot (D : Type) := { bmem : mem; bport : D }.
Arguments bmem {D}. Arguments bport {D}.

(** [insl]: the bytes read go to memory. *)
Fixpoint store_bytes (m : mem) (dst : Z) (bs : list Z) : mem :=
  match bs with
  | [] => m
  | b :: bs => store_bytes (st8 m dst b) (dst + 1) bs
  end.

Section Loader.
Context {D : Type} `{AtaOps D}.

Definition boot_out (p v : Z) : M (boot D) unit :=
  modify (fun s => {| bmem := bmem s; bport := outb p (u8 v) (bport s) |}).

(** [tries] bounds the polls. *)
Fixpoint waitdisk (tries : nat) : M (boot D) unit :=
  match tries with
  | O => out_of_fuel
  | S t =>
      let! s := get in
      let '(r, d) := inb 0x1f7 (bport s) in
      do! put {| bmem := bmem s; bport := d |} in
      if negb (Z.land r 0xC0 =? 0x40) then waitdisk t else ret tt
  end.

Definition readsect (tries : nat) (dst offset : Z) : M (boot D) unit :=
  do! waitdisk tries in
  do! boot_out 0x1f2 1 in
  do! boot_out 0x1f3 offset in
  do! boot_out 0x1f4 (Z.shiftr offset 8) in
  do! boot_out 0x1f5 (Z.shiftr offset 16) in
  do! boot_out 0x1f6 (Z.lor (Z.shiftr offset 24) 0xE0) in
  do! boot_out 0x1f7 0x20 in
  do! waitdisk tries in
  let! s := get in
  let '(bs, d) := insl 0x1f0 (Z.to_nat (SECTSIZE / 4)) (bport s) in
  put {| bmem := store_bytes (bmem s) dst bs; bport := d |}.

Fixpoint readseg_loop (fuel tries : nat) (pa epa offset : Z) : M (boot D) unit :=
  if pa <? epa then
    match fuel with
    | O => out_of_fuel
    | S f =>
        do! readsect tries pa offset in
        readseg_loop f tries (u32 (pa + SECTSIZE)) epa (u32 (offset + 1))
    end
  else ret tt.

Definition readseg (tries : nat) (pa count offset : Z) : M (boot D) unit :=
  let epa := u32 (pa + count) in
  let pa := u32 (pa - offset mod SECTSIZE) in
  let offset := offset / SECTSIZE + 1 in
  readseg_loop (Z.to_nat (count / SECTSIZE + 2)) tries pa epa offset.

(** The loop over the program headers; [k] of them are left. *)
Fixpoint load_segments (k tries : nat) (ph : Z) : M (boot D) unit :=
  match k with
  | O => ret tt
  | S k =>
      let! s := get in
      let pa := ld32 (bmem s) (ph + 12) in
      let filesz := ld32 (bmem s) (ph + 16) in
      do! readseg tries pa filesz (ld32 (bmem s) (ph + 4)) in
      let! s := get in
      let memsz := ld32 (bmem s) (ph + 20) in
      let filesz := ld32 (bmem s) (ph + 16) in
      do! (if filesz <? memsz then
             modify (fun s => {| bmem := Str.stosb (bmem s) (u32 (pa + filesz)) 0 (Z.to_nat (memsz - filesz));
                                 bport := bport s |})
           else ret tt) in
      load_segments k tries (ph + sizeof_proghdr)
  end.

(** The entry point the loader jumps to; [None] is the return on a file that
    is not ELF. *)
Definition bootmain (tries : nat) : M (boot D) (option Z) :=
  let elf := 0x10000 in
  do! readseg tries elf 4096 0 in
  let! s := get in
  if negb (ld32 (bmem s) elf =? ELF_MAGIC) then ret None
  else
    do! load_segments (Z.to_nat (ld16 (bmem s) (elf + 44))) tries (elf + ld32 (bmem s) (elf + 28)) in
    let! s := get in
    ret (Some (ld32 (bmem s) (elf + 24))).

End Loader.

(** ** Reading sectors *)

Lemma ld8_store_bytes m dst bs x :
  ld8 (store_bytes m dst bs) x =
  if decide (dst <= x < dst + Z.of_nat (length bs)) then u8 (nth (Z.to_nat (x - dst)) bs 0) else ld8 m x.
Proof.
  revert m dst. induction bs as [|b bs IH]; intros m dst; cbn [store_bytes length].
  { by rewrite decide_False by lia. }
  rewrite IH, ld8_st8. destruct (decide (x = dst)) as [->|Hx].
  - rewrite decide_False, decide_True, decide_True by lia. by rewrite Z.sub_diag.
  - destruct (decide (dst + 1 <= x < dst + 1 + Z.of_nat (length bs))).
    + rewrite decide_True by lia. by replace (Z.to_nat (x - dst)) with (S (Z.to_nat (x - (dst + 1)))) by lia.
    + rewrite (decide_False (P := dst = x)), decide_False by lia. done.
Qed.

Lemma lba_bytes n : 0 <= n < 2 ^ 24 ->
  u8 (Z.lor (Z.shiftr n 24) 0xE0) = 0xE0 /\
  n = u8 n + 2 ^ 8 * u8 (Z.shiftr n 8) + 2 ^ 16 * u8 (Z.shiftr n 16) + 2 ^ 24 * (0xE0 mod 2 ^ 4).
Proof.
  intros Hn. rewrite !Z.shiftr_div_pow2 by lia. rewrite (Z.div_small n (2 ^ 24)) by lia. split; [done|].
  unfold u8. assert (E : n / 2 ^ 16 = (n / 2 ^ 8) / 2 ^ 8) by (rewrite Z.div_div by lia; f_equal; lia).
  pose proof (Z.div_mod n (2 ^ 8) ltac:(lia)). pose proof (Z.div_mod (n / 2 ^ 8) (2 ^ 8) ltac:(lia)).
  rewrite E. assert (0 <= n / 2 ^ 8 / 2 ^ 8 < 2 ^ 8).
  { split; [apply Z.div_pos; [apply Z.div_pos|]; lia|]. apply Z.div_lt_upper_bound; [lia|].
    apply Z.div_lt_upper_bound; lia. }
  rewrite (Z.mod_small (n / 2 ^ 8 / 2 ^ 8)) by lia. change (0xE0 mod 2 ^ 4) with 0. lia.
Qed.

Section Kernel.
Context {D : Type} `{AtaSpec D}.
(** The bytes of the kernel file. *)
Variable kb : Z -> Z.
Hypothesis kb_byte : forall i, 0 <= kb i < 2 ^ 8.

Definition file_sector (i : Z) : list Z := (fun j => kb (512 * i + Z.of_nat j)) <$> seq 0 512.

(** The file is on disk 0 from sector 1 on. *)
Definition on_disk (d : D) : Prop := forall i, 0 <= i < 2 ^ 23 -> sector d 0 (1 + i) = file_sector i.

Definition quiet (s : boot D) : Prop := on_disk (bport s) /\ exists e, phase (bport s) = Idle e.

Lemma waitdisk_polls k d r d' t s : polls k d r d' -> (k < t)%nat -> bport s = d ->
  waitdisk t s = Ok (tt, {| bmem := bmem s; bport := d' |}).
Proof.
  intros Hp. revert t s. induction Hp as [d r d' Ei Hr|k d r0 d0 r d' Ei Hr _ IH]; intros t s Ht Hs;
    (destruct t as [|t]; [lia|]); cbn [waitdisk]; mrun; rewrite Hs, Ei; mrun; unfold ready in Hr;
    change (Z.lor IDE_BSY IDE_DRDY) with 0xC0 in Hr; change IDE_DRDY with 0x40 in Hr.
  - destruct (Z.eqb_spec (Z.land r 0xC0) 0x40); [done|done].
  - destruct (Z.eqb_spec (Z.land r0 0xC0) 0x40); [done|]. cbn [negb]. by rewrite (IH t) by (lia || done).
Qed.

(** One sector. *)
Lemma readsect_ok s dst i : quiet s -> 0 <= i < 2 ^ 23 ->
  exists d', readsect tries dst (1 + i) s =
    Ok (tt, {| bmem := store_bytes (bmem s) dst (file_sector i); bport := d' |}) /\
    on_disk d' /\ phase d' = Idle false.
Proof.
  intros [Hd [e Hp]] Hi. unfold readsect.
  destruct (status _ e (or_introl Hp)) as (k & r & d0 & Hk & Hpl & P0 & _ & S0).
  rewrite (bind_Ok _ _ _ _ _ (waitdisk_polls _ _ _ _ tries s Hpl Hk eq_refl)). unfold boot_out. mrun. cbn [bport bmem].
  destruct (lba_bytes (1 + i) ltac:(lia)) as [Et El]. rewrite Et.
  destruct (address_ok 1 (u8 (1 + i)) (u8 (Z.shiftr (1 + i) 8)) (u8 (Z.shiftr (1 + i) 16)) 0xE0 d0 e)
    as (P & S & R2 & R3 & R4 & R5 & R6).
  { congruence. }
  { repeat constructor; try apply u8_range; lia. }
  unfold address in *. change (u8 1) with 1. change (u8 32) with IDE_CMD_READ. set (d6 := outb 502 0xE0 _) in *.
  destruct (outb_read d6 e _ _ P R2 eq_refl eq_refl) as (PR & SR). rewrite R3, R4, R5, R6, <- El in PR.
  change ((0xE0 / 2 ^ 4) mod 2) with 0 in PR.
  destruct (status_read _ _ _ PR) as (k2 & r2 & d7 & Hk2 & Hpl2 & P7 & S7).
  rewrite (bind_Ok _ _ _ _ _ (waitdisk_polls _ _ _ _ tries {| bmem := bmem s; bport := _ |} Hpl2 Hk2 eq_refl)). mrun.
  cbn [bport bmem]. change (Z.to_nat (SECTSIZE / 4)) with 128%nat.
  destruct (insl_data _ _ _ P7) as (d8 & Ei & P8 & S8). rewrite Ei.
  assert (Hs : forall a l, sector d8 a l = sector (bport s) a l) by (intros a l; by rewrite S8, S7, SR, S, S0).
  exists d8. split; [|split; [intros j Hj; rewrite Hs; by apply Hd|done]].
  rewrite S7, SR, S, S0, Hd by done. reflexivity.
Qed.

Lemma ld8_sector m dst i x :
  ld8 (store_bytes m dst (file_sector i)) x =
  if decide (dst <= x < dst + 512) then kb (512 * i + (x - dst)) else ld8 m x.
Proof.
  rewrite ld8_store_bytes. unfold file_sector. rewrite length_fmap, length_seq.
  destruct (decide (dst <= x < dst + Z.of_nat 512)) as [Hx|]; [|by rewrite decide_False by lia].
  rewrite decide_True by lia. set (n := Z.to_nat (x - dst)).
  assert (Hn : (n < 512)%nat) by lia. rewrite nth_lookup, list_lookup_fmap, lookup_seq_lt by done. cbn [fmap option_fmap option_map default].
  rewrite Nat.add_0_l. unfold n. rewrite Z2Nat.id by lia. apply u8_small, kb_byte.
Qed.

(** [n] sectors. *)
Lemma readseg_loop_ok n fuel s pa epa i : quiet s -> 0 <= pa -> pa + 512 * Z.of_nat n < 2 ^ 31 ->
  0 <= i -> i + Z.of_nat n < 2 ^ 23 ->
  (n = 0%nat /\ epa <= pa \/ pa + 512 * (Z.of_nat n - 1) < epa <= pa + 512 * Z.of_nat n) -> (n <= fuel)%nat ->
  exists s', readseg_loop fuel tries pa epa (1 + i) s = Ok (tt, s') /\ quiet s' /\
    forall x, ld8 (bmem s') x = if decide (pa <= x < pa + 512 * Z.of_nat n) then kb (512 * i + (x - pa)) else ld8 (bmem s) x.
Proof.
  revert fuel s pa i. induction n as [|n IH]; intros fuel s pa i Hq Hpa Hb Hi Hib He Hf.
  { exists s. split; [|split; [done|]].
    - destruct fuel; cbn [readseg_loop]; (destruct (Z.ltb_spec pa epa); [lia|done]).
    - intros x. by rewrite decide_False by lia. }
  destruct fuel as [|fuel]; [lia|]. cbn [readseg_loop]. destruct (Z.ltb_spec pa epa); [|lia].
  destruct (readsect_ok s pa i Hq ltac:(lia)) as (d' & E & Hd & Hp). rewrite (bind_Ok _ _ _ _ _ E).
  unfold SECTSIZE. rewrite (u32_small (pa + 512)), (u32_small (1 + i + 1)) by lia.
  replace (1 + i + 1) with (1 + (i + 1)) by lia.
  destruct (IH fuel {| bmem := store_bytes (bmem s) pa (file_sector i); bport := d' |} (pa + 512) (i + 1))
    as (s' & E' & Hq' & Hx); try lia.
  { split; [done|]. by exists false. }
  exists s'. split; [done|]. split; [done|]. intros x. rewrite Hx. cbn [bmem]. rewrite ld8_sector.
  destruct (decide (pa + 512 <= x < pa + 512 + 512 * Z.of_nat n)).
  - rewrite decide_True by lia. f_equal. lia.
  - destruct (decide (pa <= x < pa + 512)); [by rewrite decide_True by lia|by rewrite decide_False by lia].
Qed.


(** A segment: the sectors that hold it, so up to 511 bytes more on each side. *)
Lemma readseg_ok s pa count off : quiet s -> 0 <= count -> 0 <= off -> off + count < 2 ^ 31 ->
  off mod 512 <= pa -> pa + count + 512 < 2 ^ 31 ->
  exists s' hi, readseg tries pa count off s = Ok (tt, s') /\ quiet s' /\ pa + count <= hi <= pa + count + 511 /\
    forall x, ld8 (bmem s') x =
      if decide (pa - off mod 512 <= x < hi) then kb (off + (x - pa)) else ld8 (bmem s) x.
Proof.
  intros Hq Hc Ho Hoc Hpa Hb. unfold readseg, SECTSIZE. set (o := off mod 512) in *.
  pose proof (Z.mod_pos_bound off 512 ltac:(lia)) as Hmod. fold o in Hmod. pose proof (Z.div_mod off 512 ltac:(lia)) as Hdm.
  fold o in Hdm. rewrite !u32_small by lia.
  set (n := (count + o + 511) / 512).
  pose proof (Z.div_mod (count + o + 511) 512 ltac:(lia)) as Hn. fold n in Hn.
  pose proof (Z.mod_pos_bound (count + o + 511) 512 ltac:(lia)).
  pose proof (Z.div_mod count 512 ltac:(lia)). pose proof (Z.mod_pos_bound count 512 ltac:(lia)).
  replace (off / 512 + 1) with (1 + off / 512) by lia.
  destruct (readseg_loop_ok (Z.to_nat n) (Z.to_nat (count / 512 + 2)) s (pa - o) (pa + count) (off / 512))
    as (s' & E & Hq' & Hx); try lia; [done|].
  exists s', (pa - o + 512 * n). split; [exact E|]. split; [done|]. split; [lia|]. intros x. rewrite Hx.
  rewrite Z2Nat.id by lia. case_decide; [f_equal; lia|done].
Qed.

(** ** The segments of the file *)

Record segment := { sg_pa : Z; sg_off : Z; sg_filesz : Z; sg_memsz : Z }.
Definition sg_lo (g : segment) : Z := sg_pa g - sg_off g mod 512.
Definition sg_end (g : segment) : Z := sg_pa g + Z.max (sg_filesz g) (sg_memsz g).

Definition kb16 (i : Z) : Z := kb i + 2 ^ 8 * kb (i + 1).
Definition kb32 (i : Z) : Z := kb i + 2 ^ 8 * kb (i + 1) + 2 ^ 16 * kb (i + 2) + 2 ^ 24 * kb (i + 3).

Definition seg_at (o : Z) : segment :=
  {| sg_pa := kb32 (o + 12); sg_off := kb32 (o + 4); sg_filesz := kb32 (o + 16); sg_memsz := kb32 (o + 20) |}.
Fixpoint segs (k : nat) (o : Z) : list segment :=
  match k with O => [] | S k => seg_at o :: segs k (o + 32) end.

(** Segments above the scratch page, with addresses and offsets far from the
    end of the 32-bit range. *)
Definition seg_ok (g : segment) : Prop :=
  0x11000 <= sg_lo g /\ sg_end g + 512 < 2 ^ 31 /\ sg_off g + sg_filesz g < 2 ^ 31.
(** In increasing order, the sectors of one after the end of the other. *)
Definition seg_before (g h : segment) : Prop := sg_end g <= sg_lo h.

(** The segment is in memory, with zeros after the bytes of the file. *)
Definition loaded (m : mem) (g : segment) : Prop :=
  (forall x, sg_pa g <= x < sg_pa g + sg_filesz g -> ld8 m x = kb (sg_off g + (x - sg_pa g))) /\
  (forall x, sg_pa g + sg_filesz g <= x < sg_pa g + sg_memsz g -> ld8 m x = 0).

(** The first page of the file is at 0x10000. *)
Definition header (m : mem) : Prop := forall y, 0 <= y < 4096 -> ld8 m (0x10000 + y) = kb y.

Lemma header_ld32 m y : header m -> 0 <= y <= 4092 -> ld32 m (0x10000 + y) = kb32 y.
Proof.
  intros Hh Hy. unfold ld32, kb32. rewrite <- !Z.add_assoc, !Hh by lia. done.
Qed.

Lemma kb32_range y : 0 <= kb32 y < 2 ^ 32.
Proof.
  unfold kb32. pose proof (kb_byte y). pose proof (kb_byte (y + 1)). pose proof (kb_byte (y + 2)).
  pose proof (kb_byte (y + 3)). lia.
Qed.

Lemma load_segment_ok k s o : quiet s -> header (bmem s) -> 0 <= o <= 4064 -> seg_ok (seg_at o) ->
  exists s', load_segments (S k) tries (0x10000 + o) s = load_segments k tries (0x10000 + (o + 32)) s' /\
    quiet s' /\ loaded (bmem s') (seg_at o) /\
    (forall x, x < sg_lo (seg_at o) -> ld8 (bmem s') x = ld8 (bmem s) x).
Proof.
  intros Hq Hh Ho (Hlo & He & Hof). set (g := seg_at o) in *.
  pose proof (kb32_range (o + 4)) as R1. pose proof (kb32_range (o + 16)) as R3. pose proof (kb32_range (o + 20)) as R4.
  change (kb32 (o + 4)) with (sg_off g) in R1. change (kb32 (o + 16)) with (sg_filesz g) in R3.
  change (kb32 (o + 20)) with (sg_memsz g) in R4. unfold sg_lo, sg_end in *.
  pose proof (Z.mod_pos_bound (sg_off g) 512 ltac:(lia)) as Hmod.
  cbn [load_segments]. mrun. rewrite <- !Z.add_assoc, !header_ld32 by (done || lia).
  change (kb32 (o + 12)) with (sg_pa g). change (kb32 (o + 16)) with (sg_filesz g). change (kb32 (o + 4)) with (sg_off g).
  destruct (readseg_ok s (sg_pa g) (sg_filesz g) (sg_off g) Hq) as (s1 & hi & E & Hq1 & Hhi & Hx); try lia.
  rewrite (bind_Ok _ _ _ _ _ E). mrun.
  assert (Hh1 : header (bmem s1)).
  { intros y Hy. rewrite Hx, decide_False by lia. by apply Hh. }
  rewrite !header_ld32 by (done || lia). change (kb32 (o + 16)) with (sg_filesz g). change (kb32 (o + 20)) with (sg_memsz g).
  unfold sizeof_proghdr. destruct (Z.ltb_spec (sg_filesz g) (sg_memsz g)) as [Hlt|Hge]; mrun;
    (eexists; split; [reflexivity|]; split; [exact Hq1|]; split; [|intros x Hlt']); cbn [bmem].
  - split; intros x Hxx; rewrite ld8_stosb, u32_small by (rewrite ?u32_small; lia).
    + rewrite decide_False, Hx, decide_True by lia. done.
    + by rewrite decide_True by lia.
  - rewrite ld8_stosb, u32_small by (rewrite ?u32_small; lia). by rewrite decide_False, Hx, decide_False by lia.
  - split; intros x Hxx; [|lia]. by rewrite Hx, decide_True by lia.
  - by rewrite Hx, decide_False by lia.
Qed.

Lemma loaded_keep m m' g lo : loaded m g -> sg_end g <= lo -> (forall x, x < lo -> ld8 m' x = ld8 m x) -> loaded m' g.
Proof.
  unfold sg_end. intros [H1 H2] Hlo Hx. split; intros x Hxx; rewrite Hx by lia; auto.
Qed.

Lemma load_segments_ok k s o : quiet s -> header (bmem s) -> 0 <= o -> o + 32 * Z.of_nat k <= 4096 ->
  Forall seg_ok (segs k o) -> StronglySorted seg_before (segs k o) ->
  exists s', load_segments k tries (0x10000 + o) s = Ok (tt, s') /\ header (bmem s') /\
    Forall (loaded (bmem s')) (segs k o) /\
    (forall lo, 0x11000 <= lo -> Forall (fun g => lo <= sg_lo g) (segs k o) -> forall x, x < lo -> ld8 (bmem s') x = ld8 (bmem s) x).
Proof.
  revert s o. induction k as [|k IH]; intros s o Hq Hh Ho Hk Hs Hso; cbn [segs] in *.
  { exists s. done. }
  apply Forall_cons in Hs as [Hg Hs]. apply StronglySorted_inv in Hso as [Hso Hb].
  destruct (load_segment_ok k s o Hq Hh ltac:(lia) Hg) as (s1 & -> & Hq1 & Hl1 & Hx1).
  assert (Hh1 : header (bmem s1)).
  { intros y Hy. destruct Hg as (Hg & _). rewrite Hx1 by lia. by apply Hh. }
  destruct (IH s1 (o + 32) Hq1 Hh1) as (s' & E & Hh' & Hl' & Hx'); [lia|lia|done|done|].
  exists s'. split; [done|]. split; [done|]. split.
  - constructor; [|done]. destruct Hg as (Hg1 & _).
    apply (loaded_keep (bmem s1) _ _ (Z.max (sg_end (seg_at o)) 0x11000)); [done|lia|]. apply Hx'; [lia|].
    rewrite Forall_forall in *. intros h Hh0. pose proof (Hs h Hh0) as (Hh2 & _). pose proof (Hb h Hh0) as Hbh.
    unfold seg_before in Hbh. lia.
  - intros lo Hlo Hf x Hlt. apply Forall_cons in Hf as [Hf1 Hf]. rewrite (Hx' lo Hlo Hf x Hlt). apply Hx1. lia.
Qed.

(** The boot loader loads the kernel: when the first page of the file is an
    ELF header with its program headers, and the segments are in increasing
    order above the scratch page, the loader ends at the entry point with
    every segment in memory, bytes of the file and zeros (C22). *)
Theorem bootmain_spec s : quiet s -> kb32 0 = ELF_MAGIC ->
  kb32 28 + 32 * kb16 44 <= 4096 ->
  let gs := segs (Z.to_nat (kb16 44)) (kb32 28) in
  Forall seg_ok gs -> StronglySorted seg_before gs ->
  exists s', bootmain tries s = Ok (Some (kb32 24), s') /\ Forall (loaded (bmem s')) gs.
Proof.
  intros Hq Hm Hp gs Hg Hso. unfold bootmain.
  destruct (readseg_ok s 0x10000 4096 0 Hq) as (s1 & hi & E & Hq1 & Hhi & Hx); change (0 mod 512) with 0 in *; try lia.
  rewrite (bind_Ok _ _ _ _ _ E). mrun.
  assert (Hh : header (bmem s1)).
  { intros y Hy. rewrite Hx, decide_True by lia. f_equal. lia. }
  pose proof (header_ld32 _ 0 Hh ltac:(lia)) as E0. rewrite Z.add_0_r in E0. rewrite E0, Hm, Z.eqb_refl. cbn [negb].
  assert (E44 : ld16 (bmem s1) (0x10000 + 44) = kb16 44) by (unfold ld16, kb16; rewrite <- Z.add_assoc, !Hh by lia; done).
  rewrite E44, (header_ld32 _ 28 Hh) by lia. pose proof (kb32_range 28).
  assert (0 <= kb16 44) by (unfold kb16; pose proof (kb_byte 44); pose proof (kb_byte (44 + 1)); lia).
  destruct (load_segments_ok (Z.to_nat (kb16 44)) s1 (kb32 28) Hq1 Hh) as (s' & E' & Hh' & Hl & _); try done; try lia.
  rewrite (bind_Ok _ _ _ _ _ E'). mrun. exists s'. split; [|done]. by rewrite (header_ld32 _ 24 Hh') by lia.
Qed.

End Kernel.

(** ** A kernel *)

(** An ELF header with one program header at 52: 600 bytes from offset 4096
    to 0x100000, 1000 bytes of memory. *)
Definition demo_kernel (i : Z) : Z :=
  nth (Z.to_nat i)
    ([0x7F; 0x45; 0x4C; 0x46] ++ replicate 20 0 ++ [0x0C; 0; 0x10; 0] ++ [52; 0; 0; 0] ++ replicate 12 0 ++ [1; 0] ++ replicate 6 0 ++
     [1; 0; 0; 0] ++ [0; 0x10; 0; 0] ++ [0; 0; 0x10; 0x80] ++ [0; 0; 0x10; 0] ++ [0x58; 2; 0; 0] ++ [0xE8; 3; 0; 0]) (i mod 256).

Definition demo_boot : boot ata :=
  {| bmem := ∅; bport := {| t_reg := fun _ => 0; t_phase := Idle false;
                             t_sector := fun a l => file_sector demo_kernel (l - 1) |} |}.

Lemma bootmain_spec_witness : exists s',
  bootmain tries demo_boot = Ok (Some 0x10000C, s') /\
  loaded demo_kernel (bmem s') {| sg_pa := 0x100000; sg_off := 4096; sg_filesz := 600; sg_memsz := 1000 |}.
Proof.
  assert (Hkb : forall i, 0 <= demo_kernel i < 2 ^ 8).
  { intros i. unfold demo_kernel. destruct (le_lt_dec 76 (Z.to_nat i)) as [Hi|Hi].
    - rewrite nth_overflow by exact Hi. apply Z.mod_pos_bound. lia.
    - apply (proj1 (Forall_nth (fun b => 0 <= b < 2 ^ 8) (i mod 256) _)); [|exact Hi].
      repeat constructor; vm_compute; discriminate || reflexivity. }
  assert (Hq : quiet demo_kernel demo_boot).
  { split; [|exists false; reflexivity]. intros i Hi. change (file_sector demo_kernel (1 + i - 1) = file_sector demo_kernel i). f_equal. lia. }
  destruct (bootmain_spec demo_kernel Hkb demo_boot Hq) as (s' & E & Hl).
  - reflexivity.
  - vm_compute. discriminate.
  - constructor; [|constructor]. vm_compute. repeat split; discriminate.
  - repeat constructor.
  - exists s'. split; [exact E|]. exact (Forall_inv Hl).
Defined.
