(* ===== verification/Apic.v ===== *)
(** * Interrupt controllers and the clock (lapic.c, ioapic.c, picirq.c)

    The devices are behind memory-mapped registers and I/O ports: reads and
    writes of words, and the port instructions, on the state [D] of the
    devices are the class [ApicOps]; what the code relies on is stated in
    ApicSpec. *)

From S2P Require Import Prelude Param Memory.

Class ApicOps (D : Type) := {
  rd : Z -> D -> Z * D;          (* the word at an address *)
  wr : Z -> Z -> D -> D;
  wr16 : Z -> Z -> D -> D;
  inb : Z -> D -> Z * D;
  outb : Z -> Z -> D -> D
}.

(** ** Constants *)

Module Reg.
Definition ID : Z := 0x20 / 4.
Definition VER : Z := 0x30 / 4.
Definition TPR : Z := 0x80 / 4.
Definition EOI : Z := 0xB0 / 4.
Definition SVR : Z := 0xF0 / 4.
Definition ESR : Z := 0x280 / 4.
Definition ICRLO : Z := 0x300 / 4.
Definition ICRHI : Z := 0x310 / 4.
Definition TIMER : Z := 0x320 / 4.
Definition PCINT : Z := 0x340 / 4.
Definition LINT0 : Z := 0x350 / 4.
Definition LINT1 : Z := 0x360 / 4.
Definition ERROR : Z := 0x370 / 4.
Definition TICR : Z := 0x380 / 4.
Definition TDCR : Z := 0x3E0 / 4.
End Reg.

Definition ENABLE : Z := 0x100.
Definition INIT : Z := 0x500.
Definition STARTUP : Z := 0x600.
Definition DELIVS : Z := 0x1000.
Definition ASSERT : Z := 0x4000.
Definition LEVEL : Z := 0x8000.
Definition BCAST : Z := 0x80000.
Definition X1 : Z := 0xB.
Definition PERIODIC : Z := 0x20000.
Definition MASKED : Z := 0x10000.

Definition CMOS_PORT : Z := 0x70.
Definition CMOS_RETURN : Z := 0x71.
Definition CMOS_STATA : Z := 0x0a.
Definition CMOS_STATB : Z := 0x0b.
Definition CMOS_UIP : Z := 128.
Definition SECS : Z := 0.
Definition MINS : Z := 2.
Definition HOURS : Z := 4.
Definition DAY : Z := 7.
Definition MONTH : Z := 8.
Definition YEAR : Z := 9.

Definition IOAPIC : Z := 0xFEC00000.
Definition REG_ID : Z := 0.
Definition REG_VER : Z := 1.
Definition REG_TABLE : Z := 0x10.
Definition INT_DISABLED : Z := 0x10000.
(** The offset of [data] in [struct ioapic]. *)
Definition IO_DATA : Z := 16.

Definition IO_PIC1 : Z := 0x20.
Definition IO_PIC2 : Z := 0xA0.

Record rtcdate := { second : Z; minute : Z; hour : Z; day : Z; month : Z; year : Z }.
#[export] Instance rtcdate_eq_dec : EqDecision rtcdate.
Proof. solve_decision. Defined.

Record apic (D : Type) := {
  lapic : Z;              (* 0 before mpinit *)
  ioapicid : Z;           (* set by mpinit *)
  said : list string;     (* messages printed *)
  dev : D
}.
Arguments lapic {D}. Arguments ioapicid {D}. Arguments said {D}. Arguments dev {D}.

Section Code.
Context {D : Type} `{ApicOps D}.

Definition set_dev (d : D) (s : apic D) : apic D :=
  {| lapic := lapic s; ioapicid := ioapicid s; said := said s; dev := d |}.
Definition say (msg : string) : M (apic D) unit :=
  modify (fun s => {| lapic := lapic s; ioapicid := ioapicid s; said := said s ++ [msg]; dev := dev s |}).

(** A read through [rd] or [inb], and a write. *)
Definition reads (f : D -> Z * D) : M (apic D) Z :=
  let! s := get in
  do! put (set_dev (f (dev s)).2 s) in
  ret (f (dev s)).1.
Definition writes (f : D -> D) : M (apic D) unit := modify (fun s => set_dev (f (dev s)) s).

(** ** lapic.c *)

Definition lapicr (index : Z) : M (apic D) Z :=
  let! s := get in reads (rd (lapic s + 4 * index)).

Definition lapicw (index value : Z) : M (apic D) unit :=
  let! s := get in
  do! writes (wr (lapic s + 4 * index) (u32 value)) in
  do! lapicr Reg.ID in
  ret tt.

(** The wait for the delivery of an interrupt command. *)
Fixpoint wait_delivs (fuel : nat) : M (apic D) unit :=
  match fuel with
  | O => out_of_fuel
  | S f =>
      let! v := lapicr Reg.ICRLO in
      if Z.land v DELIVS =? 0 then ret tt else wait_delivs f
  end.

Definition lapicinit (fuel : nat) : M (apic D) unit :=
  let! s := get in
  if lapic s =? 0 then ret tt
  else
    do! lapicw Reg.SVR (Z.lor ENABLE (T_IRQ0 + IRQ_SPURIOUS)) in
    do! lapicw Reg.TDCR X1 in
    do! lapicw Reg.TIMER (Z.lor PERIODIC (T_IRQ0 + IRQ_TIMER)) in
    do! lapicw Reg.TICR 10000000 in
    do! lapicw Reg.LINT0 MASKED in
    do! lapicw Reg.LINT1 MASKED in
    let! ver := lapicr Reg.VER in
    do! (if 4 <=? Z.land (Z.shiftr ver 16) 0xFF then lapicw Reg.PCINT MASKED else ret tt) in
    do! lapicw Reg.ERROR (T_IRQ0 + IRQ_ERROR) in
    do! lapicw Reg.ESR 0 in
    do! lapicw Reg.ESR 0 in
    do! lapicw Reg.EOI 0 in
    do! lapicw Reg.ICRHI 0 in
    do! lapicw Reg.ICRLO (Z.lor (Z.lor BCAST INIT) LEVEL) in
    do! wait_delivs fuel in
    lapicw Reg.TPR 0.

Definition lapicid : M (apic D) Z :=
  let! s := get in
  if lapic s =? 0 then ret 0
  else let! v := lapicr Reg.ID in ret (Z.shiftr v 24).

Definition lapiceoi : M (apic D) unit :=
  let! s := get in
  if lapic s =? 0 then ret tt else lapicw Reg.EOI 0.

Definition microdelay (us : Z) : M (apic D) unit := ret tt.

Definition lapicstartap (apicid addr : Z) : M (apic D) unit :=
  do! writes (outb CMOS_PORT 0xF) in
  do! writes (outb (CMOS_PORT + 1) 0x0A) in
  let wrv := P2V (Z.lor (Z.shiftl 0x40 4) 0x67) in
  do! writes (wr16 wrv 0) in
  do! writes (wr16 (wrv + 2) (u16 (Z.shiftr addr 4))) in
  do! lapicw Reg.ICRHI (Z.shiftl apicid 24) in
  do! lapicw Reg.ICRLO (Z.lor (Z.lor INIT LEVEL) ASSERT) in
  do! microdelay 200 in
  do! lapicw Reg.ICRLO (Z.lor INIT LEVEL) in
  do! microdelay 100 in
  let startup :=
    do! lapicw Reg.ICRHI (Z.shiftl apicid 24) in
    do! lapicw Reg.ICRLO (Z.lor STARTUP (Z.shiftr addr 12)) in
    microdelay 200 in
  do! startup in
  startup.

Definition cmos_read (reg : Z) : M (apic D) Z :=
  do! writes (outb CMOS_PORT reg) in
  do! microdelay 200 in
  reads (inb CMOS_RETURN).

Definition fill_rtcdate : M (apic D) rtcdate :=
  let! second := cmos_read SECS in
  let! minute := cmos_read MINS in
  let! hour := cmos_read HOURS in
  let! day := cmos_read DAY in
  let! month := cmos_read MONTH in
  let! year := cmos_read YEAR in
  ret {| second := second; minute := minute; hour := hour; day := day; month := month; year := year |}.

Fixpoint cmostime_loop (fuel : nat) : M (apic D) rtcdate :=
  match fuel with
  | O => out_of_fuel
  | S f =>
      let! t1 := fill_rtcdate in
      let! a := cmos_read CMOS_STATA in
      if negb (Z.land a CMOS_UIP =? 0) then cmostime_loop f
      else
        let! t2 := fill_rtcdate in
        if decide (t1 = t2) then ret t1 else cmostime_loop f
  end.

Definition CONV (x : Z) : Z := Z.shiftr x 4 * 10 + Z.land x 0xf.

Definition cmostime (fuel : nat) : M (apic D) rtcdate :=
  let! sb := cmos_read CMOS_STATB in
  let bcd := Z.land sb (Z.shiftl 1 2) =? 0 in
  let! t1 := cmostime_loop fuel in
  let t1 :=
    if bcd then
      {| second := CONV (second t1); minute := CONV (minute t1); hour := CONV (hour t1);
         day := CONV (day t1); month := CONV (month t1); year := CONV (year t1) |}
    else t1 in
  ret {| second := second t1; minute := minute t1; hour := hour t1;
         day := day t1; month := month t1; year := u32 (year t1 + 2000) |}.

(** ** ioapic.c *)

Definition ioapicread (reg : Z) : M (apic D) Z :=
  do! writes (wr IOAPIC reg) in
  reads (rd (IOAPIC + IO_DATA)).

Definition ioapicwrite (reg data : Z) : M (apic D) unit :=
  do! writes (wr IOAPIC reg) in
  writes (wr (IOAPIC + IO_DATA) data).

(** The loop of [ioapicinit], for [n] entries from [i] on. *)
Fixpoint disable_from (n : nat) (i : Z) : M (apic D) unit :=
  match n with
  | O => ret tt
  | S n =>
      do! ioapicwrite (REG_TABLE + 2 * i) (Z.lor INT_DISABLED (T_IRQ0 + i)) in
      do! ioapicwrite (REG_TABLE + 2 * i + 1) 0 in
      disable_from n (i + 1)
  end.

Definition ioapicinit : M (apic D) unit :=
  let! ver := ioapicread REG_VER in
  let maxintr := Z.land (Z.shiftr ver 16) 0xFF in
  let! id := ioapicread REG_ID in
  let id := Z.shiftr id 24 in
  let! s := get in
  do! (if negb (id =? ioapicid s)
       then say "ioapicinit: id isn't equal to ioapicid; not a MP" else ret tt) in
  disable_from (Z.to_nat (maxintr + 1)) 0.

Definition ioapicenable (irq cpunum : Z) : M (apic D) unit :=
  do! ioapicwrite (REG_TABLE + 2 * irq) (u32 (T_IRQ0 + irq)) in
  ioapicwrite (REG_TABLE + 2 * irq + 1) (u32 (Z.shiftl cpunum 24)).

(** ** picirq.c *)

Definition picinit : M (apic D) unit :=
  do! writes (outb (IO_PIC1 + 1) 0xFF) in
  writes (outb (IO_PIC2 + 1) 0xFF).
End Code.
