(* ===== verification/ApicSpec.v ===== *)
(** * The clock and the routes of interrupts

    The clock changes while it is read, and [cmostime] returns a date it
    showed at one moment.  The redirection table of the I/O APIC has the
    routes that were enabled and no others. *)

From Stdlib Require Import ZifyNat.
From S2P Require Import Prelude Param Memory Apic.

(** ** The clock *)

(** The registers of a date. *)
Definition date_reg (t : rtcdate) (r : Z) : Z :=
  if r =? SECS then second t else if r =? MINS then minute t else if r =? HOURS then hour t
  else if r =? DAY then day t else if r =? MONTH then month t else year t.
Definition is_date_reg (r : Z) : Prop := r ∈ [SECS; MINS; HOURS; DAY; MONTH; YEAR].

(** A real time clock: time passes with the reads of its registers.  After
    so many reads it shows a date, in two decimal digits or binary.  While it
    is busy with an update the registers of the date hold anything.  It
    announces an update ahead: once the flag reads clear, the six reads that
    follow are over before the next update begins. *)
Class RtcSpec (D : Type) `{ApicOps D} := {
  nreads : D -> nat;
  selected : D -> Z;
  shows : nat -> rtcdate;
  busy : nat -> bool;
  updating : nat -> bool;
  decimal : bool;
  enc (v : Z) : Z := if decimal then v / 10 * 16 + v mod 10 else v;
  rtc_select d r : selected (outb CMOS_PORT r d) = r /\ nreads (outb CMOS_PORT r d) = nreads d;
  rtc_next d : nreads (inb CMOS_RETURN d).2 = S (nreads d);
  rtc_date d : is_date_reg (selected d) -> busy (nreads d) = false ->
    (inb CMOS_RETURN d).1 = enc (date_reg (shows (nreads d)) (selected d));
  rtc_stata d : selected d = CMOS_STATA -> Z.testbit (inb CMOS_RETURN d).1 7 = updating (nreads d);
  rtc_statb d : selected d = CMOS_STATB -> Z.testbit (inb CMOS_RETURN d).1 2 = negb decimal;
  rtc_digits n r : 0 <= date_reg (shows n) r < 100;
  rtc_ahead n j : updating n = false -> (n <= j <= n + 6)%nat -> busy j = false /\ shows j = shows n
}.

(** Within [k] reads there are 26 in which no update is announced. *)
Definition rests (u : nat -> bool) (k : nat) : Prop :=
  forall n, exists m, (n <= m <= n + k)%nat /\ forall j, (m <= j < m + 26)%nat -> u j = false.

Lemma CONV_dec v : 0 <= v < 100 -> CONV (v / 10 * 16 + v mod 10) = v.
Proof.
  intros Hv. unfold CONV. rewrite Z.shiftr_div_pow2 by lia. change 0xf with (Z.ones 4). rewrite Z.land_ones by lia.
  change (2 ^ 4) with 16. zify; Z.to_euclidean_division_equations; lia.
Qed.

Section Clock.
Context {D : Type} `{RtcSpec D}.

Definition clk (s : apic D) : nat := nreads (dev s).

Lemma cmos_read_run reg (s : apic D) :
  exists v s', cmos_read reg s = Ok (v, s') /\ clk s' = S (clk s) /\
    (is_date_reg reg -> busy (clk s) = false -> v = enc (date_reg (shows (clk s)) reg)) /\
    (reg = CMOS_STATA -> Z.testbit v 7 = updating (clk s)) /\
    (reg = CMOS_STATB -> Z.testbit v 2 = negb decimal).
Proof.
  set (d := outb CMOS_PORT reg (dev s)). destruct (rtc_select (dev s) reg) as [E1 E2]. fold d in E1, E2.
  exists (inb CMOS_RETURN d).1, (set_dev (inb CMOS_RETURN d).2 (set_dev d s)). split.
  - unfold cmos_read, microdelay, writes, reads. mrun. done.
  - unfold clk. cbn [dev set_dev]. rewrite rtc_next, E2. split_and!; [done|..].
    + intros Hr Hb. rewrite rtc_date, E1, E2; by rewrite ?E1, ?E2.
    + intros ->. by rewrite rtc_stata, E2.
    + intros ->. by apply rtc_statb.
Qed.

Definition map_date (f : Z -> Z) (t : rtcdate) : rtcdate :=
  {| second := f (second t); minute := f (minute t); hour := f (hour t);
     day := f (day t); month := f (month t); year := f (year t) |}.

(** In the six reads from [n] on the registers hold the date of read [m]. *)
Definition still (n m : nat) : Prop :=
  forall j, (n <= j < n + 6)%nat -> busy j = false /\ shows j = shows m.

(** A date read register by register: anything, unless the clock is still. *)
Lemma fill_rtcdate_run (s : apic D) :
  exists t s', fill_rtcdate s = Ok (t, s') /\ clk s' = (clk s + 6)%nat /\
    forall m, still (clk s) m -> t = map_date enc (shows m).
Proof.
  unfold fill_rtcdate.
  destruct (cmos_read_run SECS s) as (v1 & s1 & E1 & C1 & R1 & _). rewrite (bind_Ok _ _ _ _ _ E1).
  destruct (cmos_read_run MINS s1) as (v2 & s2 & E2 & C2 & R2 & _). rewrite (bind_Ok _ _ _ _ _ E2).
  destruct (cmos_read_run HOURS s2) as (v3 & s3 & E3 & C3 & R3 & _). rewrite (bind_Ok _ _ _ _ _ E3).
  destruct (cmos_read_run DAY s3) as (v4 & s4 & E4 & C4 & R4 & _). rewrite (bind_Ok _ _ _ _ _ E4).
  destruct (cmos_read_run MONTH s4) as (v5 & s5 & E5 & C5 & R5 & _). rewrite (bind_Ok _ _ _ _ _ E5).
  destruct (cmos_read_run YEAR s5) as (v6 & s6 & E6 & C6 & R6 & _). rewrite (bind_Ok _ _ _ _ _ E6).
  eexists _, s6. split; [reflexivity|]. split; [lia|]. intros m Hs. unfold map_date. f_equal.
  all: match goal with R : is_date_reg _ -> busy (clk ?x) = false -> ?v = _ |- ?v = _ =>
    destruct (Hs (clk x) ltac:(lia)) as [Hb Hd]; rewrite R, Hd;
    [done|apply list_elem_of_In; vm_compute; tauto|done] end.
Qed.

Definition dec (v : Z) : Z := if decimal then CONV v else v.

Lemma dec_enc n : map_date dec (map_date enc (shows n)) = shows n.
Proof.
  assert (H1 : forall r, dec (enc (date_reg (shows n) r)) = date_reg (shows n) r).
  { intros r. unfold dec, enc. destruct decimal; [|done]. apply CONV_dec, rtc_digits. }
  pose proof (H1 SECS). pose proof (H1 MINS). pose proof (H1 HOURS). pose proof (H1 DAY). pose proof (H1 MONTH).
  pose proof (H1 YEAR). unfold map_date. cbn [second minute hour day month year] in *.
  unfold date_reg in *. vm_compute (_ =? _) in *. destruct (shows n). cbn in *. congruence.
Qed.

(** After the flag has read clear. *)
Lemma clear_still n : updating n = false -> still (S n) n.
Proof. intros Hu j Hj. apply rtc_ahead; [done|lia]. Qed.

(** While no update is announced. *)
Lemma rest_still m n : (forall j, (m <= j < m + 26)%nat -> updating j = false) ->
  (m <= n)%nat -> (n + 6 < m + 26)%nat -> still n n.
Proof. intros Hr Hn Hm j Hj. apply rtc_ahead; [apply Hr; lia|lia]. Qed.

(** From read [m] on no update is announced for 26 reads. *)
Lemma cmostime_loop_ok m fuel : forall s : apic D,
  (forall j, (m <= j < m + 26)%nat -> updating j = false) ->
  (clk s <= m + 13)%nat -> (1 <= fuel)%nat -> (m + 7 <= clk s + 7 * fuel)%nat ->
  exists k s', cmostime_loop fuel s = Ok (map_date enc (shows k), s') /\ (clk s <= k < clk s')%nat.
Proof.
  induction fuel as [|fuel IH]; intros s Hrest Hlate Hf Hfuel; [lia|]. cbn [cmostime_loop].
  destruct (fill_rtcdate_run s) as (t1 & s1 & E1 & C1 & T1). rewrite (bind_Ok _ _ _ _ _ E1).
  destruct (cmos_read_run CMOS_STATA s1) as (a & s2 & E2 & C2 & _ & U2 & _). rewrite (bind_Ok _ _ _ _ _ E2).
  specialize (U2 eq_refl). rewrite <- has_bit in U2 by lia. unfold has in U2. change (2 ^ 7) with CMOS_UIP in U2. rewrite U2.
  destruct (updating (clk s1)) eqn:Eu.
  - destruct (decide (m <= clk s)%nat) as [Hm|Hm]; [rewrite Hrest in Eu by lia; done|].
    destruct (IH s2 Hrest) as (k & s' & E & Hk); [lia..|]. exists k, s'. split; [done|lia].
  - destruct (fill_rtcdate_run s2) as (t2 & s3 & E3 & C3 & T2). rewrite (bind_Ok _ _ _ _ _ E3).
    apply clear_still in Eu. rewrite <- C2 in Eu. apply T2 in Eu. destruct (decide (t1 = t2)) as [Heq|Hne].
    + exists (clk s1), s3. split; [|lia]. by rewrite Heq, Eu.
    + destruct (decide (m <= clk s)%nat) as [Hm|Hm].
      * destruct Hne. rewrite Eu, (T1 (clk s)) by (apply (rest_still m); [done|lia..]). f_equal.
        symmetry. apply rtc_ahead; [apply Hrest; lia|lia].
      * destruct (IH s3 Hrest) as (k & s' & E & Hk); [lia..|]. exists k, s'. split; [done|lia].
Qed.

(** [cmostime] returns a date the clock showed during the call (C40), in
    whichever of its two formats the clock gives its numbers, though the
    registers are read one after the other and hold anything during an
    update: on a clock that announces its updates six reads ahead, and that
    within every [k] reads announces none for 26, the call ends. *)
Theorem cmostime_spec k fuel (s : apic D) :
  rests updating k -> (k + 7 <= 7 * fuel)%nat ->
  exists n s', cmostime fuel s =
      Ok ({| second := second (shows n); minute := minute (shows n); hour := hour (shows n);
             day := day (shows n); month := month (shows n); year := year (shows n) + 2000 |}, s') /\
    (clk s <= n < clk s')%nat.
Proof.
  intros Hrest Hfuel. unfold cmostime.
  destruct (cmos_read_run CMOS_STATB s) as (sb & s1 & E1 & C1 & _ & _ & B1). rewrite (bind_Ok _ _ _ _ _ E1).
  specialize (B1 eq_refl). rewrite <- has_bit in B1 by lia. unfold has in B1.
  destruct (Hrest (clk s1)) as (m & Hm & Hr).
  destruct (cmostime_loop_ok m fuel s1 Hr) as (n & s' & E & Hn); [lia..|]. rewrite (bind_Ok _ _ _ _ _ E).
  exists n, s'. split; [|lia]. pose proof (dec_enc n) as Hd. unfold dec in Hd. change (Z.shiftl 1 2) with (2 ^ 2).
  assert (Hy : u32 (year (shows n) + 2000) = year (shows n) + 2000).
  { apply u32_small. pose proof (rtc_digits n YEAR) as Hy. change (date_reg (shows n) YEAR) with (year (shows n)) in Hy. lia. }
  pose proof (f_equal second Hd). pose proof (f_equal minute Hd). pose proof (f_equal hour Hd).
  pose proof (f_equal day Hd). pose proof (f_equal month Hd). pose proof (f_equal year Hd).
  destruct (Z.land sb (2 ^ 2) =? 0), decimal; try done; unfold ret; cbn [map_date second minute hour day month year] in *;
    do 3 f_equal; congruence.
Qed.
End Clock.

(** ** The redirection table of the I/O APIC *)

(** An I/O APIC: a register is selected, then read or written. *)
Class IoApicSpec (D : Type) `{ApicOps D} := {
  io_sel : D -> Z;
  io_reg : D -> Z -> Z;
  io_select d r : io_sel (wr IOAPIC r d) = r /\ forall q, io_reg (wr IOAPIC r d) q = io_reg d q;
  io_write d v : REG_TABLE <= io_sel d ->
    forall q, io_reg (wr (IOAPIC + IO_DATA) v d) q = if decide (q = io_sel d) then v else io_reg d q;
  io_read d : (rd (IOAPIC + IO_DATA) d).1 = io_reg d (io_sel d) /\
    forall q, io_reg (rd (IOAPIC + IO_DATA) d).2 q = io_reg d q
}.

Section Routes.
Context {D : Type} `{IoApicSpec D}.

Definition ioreg (s : apic D) (q : Z) : Z := io_reg (dev s) q.
(** The two registers of interrupt [i]. *)
Definition entry (s : apic D) (i : Z) : Z * Z := (ioreg s (REG_TABLE + 2 * i), ioreg s (REG_TABLE + 2 * i + 1)).
Definition maxintr (s : apic D) : Z := Z.land (Z.shiftr (ioreg s REG_VER) 16) 0xFF.

Lemma ioapicread_run reg (s : apic D) :
  exists s', ioapicread reg s = Ok (ioreg s reg, s') /\ forall q, ioreg s' q = ioreg s q.
Proof.
  set (d := wr IOAPIC reg (dev s)). destruct (io_select (dev s) reg) as [E1 E2]. fold d in E1, E2.
  destruct (io_read d) as [E3 E4]. exists (set_dev (rd (IOAPIC + IO_DATA) d).2 (set_dev d s)). split.
  - unfold ioapicread, writes, reads. mrun. cbn [dev set_dev]. fold d. by rewrite E3, E1, E2.
  - intros q. unfold ioreg. cbn [dev set_dev]. by rewrite E4, E2.
Qed.

Lemma ioapicwrite_run reg v (s : apic D) : REG_TABLE <= reg ->
  exists s', ioapicwrite reg v s = Ok (tt, s') /\ forall q, ioreg s' q = if decide (q = reg) then v else ioreg s q.
Proof.
  intros Hr. set (d := wr IOAPIC reg (dev s)). destruct (io_select (dev s) reg) as [E1 E2]. fold d in E1, E2.
  exists (set_dev (wr (IOAPIC + IO_DATA) v d) (set_dev d s)). split.
  - unfold ioapicwrite, writes. mrun. done.
  - intros q. unfold ioreg. cbn [dev set_dev]. by rewrite io_write, E1, E2 by lia.
Qed.

(** Both registers of an entry written. *)
Lemma entry_write i v w (s : apic D) : 0 <= i ->
  exists s1 s', ioapicwrite (REG_TABLE + 2 * i) v s = Ok (tt, s1) /\
    ioapicwrite (REG_TABLE + 2 * i + 1) w s1 = Ok (tt, s') /\
    forall j, entry s' j = if decide (j = i) then (v, w) else entry s j.
Proof.
  intros Hi. destruct (ioapicwrite_run (REG_TABLE + 2 * i) v s) as (s1 & E1 & R1); [lia|].
  destruct (ioapicwrite_run (REG_TABLE + 2 * i + 1) w s1) as (s2 & E2 & R2); [lia|].
  exists s1, s2. split_and!; [done..|]. intros j. unfold entry. rewrite !R2, !R1. repeat case_decide; f_equal; lia.
Qed.

Lemma disable_from_run n : forall i (s : apic D), 0 <= i ->
  exists s', disable_from n i s = Ok (tt, s') /\
    forall j, entry s' j = if decide (i <= j < i + Z.of_nat n) then (Z.lor INT_DISABLED (T_IRQ0 + j), 0) else entry s j.
Proof.
  induction n as [|n IH]; intros i s Hi; cbn [disable_from].
  { exists s. split; [done|]. intros j. rewrite decide_False by lia. done. }
  destruct (entry_write i (Z.lor INT_DISABLED (T_IRQ0 + i)) 0 s Hi) as (s1 & s2 & E1 & E2 & R2).
  destruct (IH (i + 1) s2) as (s' & E3 & R3); [lia|]. exists s'.
  rewrite (bind_Ok _ _ _ _ _ E1), (bind_Ok _ _ _ _ _ E2). split; [done|]. intros j. rewrite R3, R2.
  repeat case_decide; try lia; try done. by subst.
Qed.

Fixpoint enable_all (routes : list (Z * Z)) : M (apic D) unit :=
  match routes with
  | [] => ret tt
  | (irq, cpu) :: routes => do! ioapicenable irq cpu in enable_all routes
  end.

(** The processor interrupt [i] goes to: the last one it was enabled for. *)
Fixpoint route (routes : list (Z * Z)) (i : Z) (old : option Z) : option Z :=
  match routes with
  | [] => old
  | (irq, cpu) :: routes => route routes i (if irq =? i then Some cpu else old)
  end.

Definition entry_for (i : Z) (r : option Z) : Z * Z :=
  match r with
  | Some cpu => (T_IRQ0 + i, cpu * 2 ^ 24)
  | None => (Z.lor INT_DISABLED (T_IRQ0 + i), 0)
  end.

Definition good_route (n : Z) (r : Z * Z) : Prop := 0 <= r.1 <= n /\ 0 <= r.2 < 256.

Lemma enable_all_run n routes : n < 256 -> forall (s : apic D) (f : Z -> option Z),
  Forall (good_route n) routes -> (forall i, 0 <= i <= n -> entry s i = entry_for i (f i)) ->
  exists s', enable_all routes s = Ok (tt, s') /\
    forall i, 0 <= i <= n -> entry s' i = entry_for i (route routes i (f i)).
Proof.
  intros Hn. induction routes as [|[irq cpu] routes IH]; intros s f Hr Hs; cbn [enable_all route]; [by exists s|].
  apply Forall_cons in Hr as [[H1 H2] Hr]. cbn [fst snd] in H1, H2.
  destruct (entry_write irq (u32 (T_IRQ0 + irq)) (u32 (Z.shiftl cpu 24)) s) as (s1 & s2 & E1 & E2 & R2); [lia|].
  destruct (IH s2 (fun i => if irq =? i then Some cpu else f i) Hr) as (s' & E & R).
  - intros i Hi. rewrite R2. destruct (Z.eqb_spec irq i) as [->|Hne]; [|by rewrite decide_False by congruence; apply Hs].
    rewrite decide_True by done. rewrite Z.shiftl_mul_pow2, !u32_small by (unfold T_IRQ0; lia). done.
  - exists s'. unfold ioapicenable. rewrite bind_bind, (bind_Ok _ _ _ _ _ E1), (bind_Ok _ _ _ _ _ E2). done.
Qed.

(** After [ioapicinit] and any calls of [ioapicenable], each interrupt is
    routed to the processor it was last enabled for, and the ones that were
    not are disabled. *)
Theorem ioapic_routes routes (s : apic D) : Forall (good_route (maxintr s)) routes ->
  exists s', (do! ioapicinit in enable_all routes) s = Ok (tt, s') /\
    forall i, 0 <= i <= maxintr s -> entry s' i = entry_for i (route routes i None).
Proof.
  intros Hr. destruct (ioapicread_run REG_VER s) as (s1 & E1 & R1). destruct (ioapicread_run REG_ID s1) as (s2 & E2 & R2).
  assert (Hm : 0 <= maxintr s < 256).
  { unfold maxintr. change 0xFF with (Z.ones 8). rewrite Z.land_ones by lia. apply Z.mod_pos_bound. lia. }
  unfold ioapicinit. rewrite bind_bind, (bind_Ok _ _ _ _ _ E1), bind_bind, (bind_Ok _ _ _ _ _ E2), bind_bind, bind_get, bind_bind.
  fold (maxintr s). set (t := if negb _ then say _ else _).
  assert (Ht : exists s3, t s2 = Ok (tt, s3)) by (subst t; destruct (negb _); by eexists).
  destruct Ht as (s3 & E3). rewrite (bind_Ok _ _ _ _ _ E3).
  destruct (disable_from_run (Z.to_nat (maxintr s + 1)) 0 s3) as (s4 & E4 & R4); [lia|]. rewrite (bind_Ok _ _ _ _ _ E4).
  apply (enable_all_run (maxintr s) routes (proj2 Hm) s4 (fun _ => None)); [done|].
  intros i Hi. rewrite R4, decide_True by lia. done.
Qed.
End Routes.

(** ** A clock *)

(** The selected register and the number of reads; the update at the end of
    the year takes reads 17 to 19, and is announced from read 11 on. *)
Record demo_clock := { dk_sel : Z; dk_reads : nat }.
Definition demo_date (n : nat) : rtcdate :=
  if (n <? 20)%nat then {| second := 59; minute := 59; hour := 23; day := 31; month := 12; year := 25 |}
  else {| second := 0; minute := 0; hour := 0; day := 1; month := 1; year := 26 |}.
Definition within (a b n : nat) : bool := (a <=? n)%nat && (n <? b)%nat.
Definition demo_read (d : demo_clock) : Z :=
  if dk_sel d =? CMOS_STATA then if within 11 20 (dk_reads d) then 128 else 0
  else if dk_sel d =? CMOS_STATB then 2
  else if within 17 20 (dk_reads d) then 255
  else let v := date_reg (demo_date (dk_reads d)) (dk_sel d) in v / 10 * 16 + v mod 10.

#[export] Instance demo_ops : ApicOps demo_clock := {|
  rd := fun _ d => (0, d); wr := fun _ _ d => d; wr16 := fun _ _ d => d;
  inb := fun _ d => (demo_read d, {| dk_sel := dk_sel d; dk_reads := S (dk_reads d) |});
  outb := fun _ r d => {| dk_sel := r; dk_reads := dk_reads d |}
|}.

Lemma demo_date_reg r : is_date_reg r -> r <> CMOS_STATA /\ r <> CMOS_STATB.
Proof. unfold is_date_reg. rewrite !elem_of_cons, elem_of_nil. intros Hr. destruct_or! Hr; subst; done. Qed.

Lemma demo_digits n r : 0 <= date_reg (demo_date n) r < 100.
Proof. unfold demo_date, date_reg. destruct (n <? 20)%nat; repeat case_match; cbn; lia. Qed.

Lemma demo_ahead n j : within 11 20 n = false -> (n <= j <= n + 6)%nat ->
  within 17 20 j = false /\ demo_date j = demo_date n.
Proof.
  unfold within, demo_date. intros Hn Hj.
  destruct (Nat.leb_spec 11 n), (Nat.ltb_spec n 20), (Nat.leb_spec 17 j), (Nat.ltb_spec j 20);
    cbn [andb] in *; try lia; try done.
Qed.

#[export, refine] Instance demo_spec : RtcSpec demo_clock := {|
  nreads := dk_reads; selected := dk_sel; shows := demo_date;
  busy := within 17 20; updating := within 11 20; decimal := true
|}.
Proof.
  - done.
  - done.
  - intros d [H1 H2]%demo_date_reg Hb. cbn [inb demo_ops fst]. unfold demo_read.
    by rewrite (proj2 (Z.eqb_neq _ _) H1), (proj2 (Z.eqb_neq _ _) H2), Hb.
  - intros d E. cbn [inb demo_ops fst]. unfold demo_read. rewrite E. cbn [Z.eqb]. by destruct (within _ _ _).
  - intros d E. cbn [inb demo_ops fst]. unfold demo_read. by rewrite E.
  - apply demo_digits.
  - apply demo_ahead.
Defined.

Definition demo_start : apic demo_clock :=
  {| lapic := 0; ioapicid := 0; said := []; dev := {| dk_sel := 0; dk_reads := 5 |} |}.

(** The call begins at the end of the old year and ends in the new one. *)
Lemma cmostime_spec_witness :
  exists n s', cmostime 4 demo_start =
      Ok ({| second := second (shows n); minute := minute (shows n); hour := hour (shows n);
             day := day (shows n); month := month (shows n); year := year (shows n) + 2000 |}, s') /\
    (clk demo_start <= n < clk s')%nat.
Proof.
  apply (cmostime_spec 20 4 demo_start).
  - intros n. exists (Nat.max n 20). split; [lia|]. intros j Hj. cbn [updating demo_spec]. unfold within.
    destruct (Nat.ltb_spec j 20); [lia|]. by rewrite andb_false_r.
  - lia.
Defined.
