(* ===== verification/Mkfs.v ===== *)
(** * The builder of the file system image (mkfs.c)

    The image is a list of sectors, and a host file the chunks its reads
    deliver.  A failed assertion and an exit with an error are [Panic].  The
    host is little-endian. *)

From S2P Require Import Prelude Param Bytes Memory Log Blocks Fs.

Definition NINODES : Z := 200.
Definition nbitmap : Z := FSSIZE / (BSIZE * 8) + 1.
Definition ninodeblocks : Z := NINODES / IPB + 1.
Definition nlog : Z := LOGSIZE.
Definition nmeta : Z := 2 + nlog + ninodeblocks + nbitmap.
Definition nblocks : Z := FSSIZE - nmeta.

Definition zeroes : blk := replicate (Z.to_nat BSIZE) 0.

Record mkst := { img : list blk; freeinode : Z; freeblock : Z }.
Definition set_img (v : list blk) (s : mkst) : mkst :=
  {| img := v; freeinode := freeinode s; freeblock := freeblock s |}.
Definition set_freeinode (v : Z) (s : mkst) : mkst :=
  {| img := img s; freeinode := v; freeblock := freeblock s |}.
Definition set_freeblock (v : Z) (s : mkst) : mkst :=
  {| img := img s; freeinode := freeinode s; freeblock := v |}.

(** The bytes of [x] in Intel order, read as a number. *)
Definition xshort (x : Z) : Z := of_le (to_le 2 x).
Definition xint (x : Z) : Z := of_le (to_le 4 x).

Definition mksb : superblock :=
  {| sb_size := xint FSSIZE; sb_nblocks := xint nblocks; sb_ninodes := xint NINODES; sb_nlog := xint nlog;
     sb_logstart := xint 2; sb_inodestart := xint (2 + nlog); sb_bmapstart := xint (2 + nlog + ninodeblocks) |}.

(** A write past the end leaves zeros in between. *)
Definition wsect (sec : Z) (buf : blk) : M mkst unit :=
  modify (fun s =>
    let n := Z.to_nat sec in
    set_img (if (n <? length (img s))%nat then <[n := buf]> (img s)
             else img s ++ replicate (n - length (img s)) zeroes ++ [buf]) s).

Definition rsect (sec : Z) : M mkst blk :=
  let! s := get in
  match img s !! Z.to_nat sec with
  | Some b => ret b
  | None => panic "read"
  end.

Definition winode (inum : Z) (ip : dinode) : M mkst unit :=
  let bn := IBLOCK inum mksb in
  let! buf := rsect bn in
  wsect bn (set_dinode (Z.to_nat (inum mod IPB)) ip buf).

Definition rinode (inum : Z) : M mkst dinode :=
  let bn := IBLOCK inum mksb in
  let! buf := rsect bn in
  ret (get_dinode (Z.to_nat (inum mod IPB)) buf).

Definition ialloc (type : Z) : M mkst Z :=
  let! s := get in
  let inum := freeinode s in
  do! modify (set_freeinode (u32 (freeinode s + 1))) in
  do! winode inum
    {| d_type := xshort type; d_major := 0; d_minor := 0; d_nlink := xshort 1; d_size := xint 0;
       d_addrs := replicate 13 0 |} in
  ret inum.

(** The loop of [balloc]: the first [used] bits are set. *)
Fixpoint balloc_bits (used : nat) (buf : blk) : blk :=
  match used with
  | O => buf
  | S n =>
      let buf := balloc_bits n buf in
      let i := Z.of_nat n in
      <[Z.to_nat (i / 8) := Z.lor (buf !!! Z.to_nat (i / 8)) (Z.shiftl 1 (i mod 8))]> buf
  end.

Definition balloc (used : Z) : M mkst unit :=
  if negb (used <? BSIZE * 8) then panic "assert"
  else wsect (sb_bmapstart mksb) (balloc_bits (Z.to_nat used) zeroes).

(** [freeblock++] *)
Definition next_block : M mkst Z :=
  let! s := get in
  do! modify (set_freeblock (u32 (freeblock s + 1))) in
  ret (freeblock s).

(** The entry [j] of the indirect block [ib], allocated if there is none. *)
Definition append_entry (ib : Z) (j : nat) : M mkst Z :=
  let! indirect := rsect ib in
  let! indirect :=
    (if getw indirect j =? 0 then
       let! b := next_block in
       let indirect := setw indirect j (xint b) in
       do! wsect ib indirect in
       ret indirect
     else ret indirect) in
  ret (xint (getw indirect j)).

(** The block of [iappend] for the position [fbn] in the file, allocated if
    there is none yet, and the inode with it. *)
Definition append_block (din : dinode) (fbn : Z) : M mkst (Z * dinode) :=
  if fbn <? NDIRECT then
    let! din :=
      (if xint (d_addrs din !!! Z.to_nat fbn) =? 0 then
         let! b := next_block in ret (set_addr (Z.to_nat fbn) (xint b) din)
       else ret din) in
    ret (xint (d_addrs din !!! Z.to_nat fbn), din)
  else
    let! din :=
      (if xint (d_addrs din !!! Z.to_nat NDIRECT) =? 0 then
         let! b := next_block in ret (set_addr (Z.to_nat NDIRECT) (xint b) din)
       else ret din) in
    let! x := append_entry (xint (d_addrs din !!! Z.to_nat NDIRECT)) (Z.to_nat (fbn - NDIRECT)) in
    ret (x, din).

(** The loop of [iappend]; [p] are the bytes left, [off] the end of the file
    so far. *)
Fixpoint iappend_loop (fuel : nat) (din : dinode) (off : Z) (p : list Z) : M mkst (dinode * Z) :=
  match p with
  | [] => ret (din, off)
  | _ =>
      match fuel with
      | O => out_of_fuel
      | S f =>
          let fbn := off / BSIZE in
          if negb (fbn <? MAXFILE) then panic "assert"
          else
            let! (x, din) := append_block din fbn in
            let n1 := Z.min (Z.of_nat (length p)) ((fbn + 1) * BSIZE - off) in
            let! buf := rsect x in
            let o := Z.to_nat (off - fbn * BSIZE) in
            do! wsect x (take o buf ++ take (Z.to_nat n1) p ++ drop (o + Z.to_nat n1) buf) in
            iappend_loop f din (off + n1) (drop (Z.to_nat n1) p)
      end
  end.

Definition iappend (inum : Z) (p : list Z) : M mkst unit :=
  let! din := rinode inum in
  let off := xint (d_size din) in
  let! (din, off) := iappend_loop (length p) din off p in
  winode inum (set_size (xint off) din).

(** ** main *)

(** The sectors of zeros, and the super block. *)
Fixpoint write_zeroes (n : nat) (i : Z) : M mkst unit :=
  match n with
  | O => ret tt
  | S n => do! wsect i zeroes in write_zeroes n (i + 1)
  end.

Definition sb_block : blk :=
  let w := [sb_size mksb; sb_nblocks mksb; sb_ninodes mksb; sb_nlog mksb; sb_logstart mksb;
            sb_inodestart mksb; sb_bmapstart mksb] in
  concat (to_le 4 <$> w) ++ replicate (Z.to_nat BSIZE - 28) 0.

Definition dot : list Z := 46 :: replicate 13 0.
Definition dotdot : list Z := 46 :: 46 :: replicate 12 0.

(** The name a file gets: without the leading underscore. *)
Definition strip (name : list Z) : list Z :=
  match name with
  | c :: l => if c =? 95 then l else name
  | [] => []
  end.
Definition name_bytes (name : list Z) : list Z := Str.strncpy (cstr (strip name)) 0 (Z.to_nat DIRSIZ).

Fixpoint append_chunks (inum : Z) (cs : list (list Z)) : M mkst unit :=
  match cs with
  | [] => ret tt
  | c :: cs => do! iappend inum c in append_chunks inum cs
  end.

(** One file: its name on the command line, and the chunks of its contents if
    it can be opened. *)
Definition add_file (rootino : Z) (f : list Z * option (list (list Z))) : M mkst unit :=
  if existsb (Z.eqb 47) f.1 then panic "assert"
  else
    match f.2 with
    | None => panic "open"
    | Some cs =>
        let! inum := ialloc T_FILE in
        do! iappend rootino (mk_dirent (xshort inum) (name_bytes f.1)) in
        append_chunks inum cs
    end.

Fixpoint add_files (rootino : Z) (fs : list (list Z * option (list (list Z)))) : M mkst unit :=
  match fs with
  | [] => ret tt
  | f :: fs => do! add_file rootino f in add_files rootino fs
  end.

(** The image file is open and empty. *)
Definition mkfs (fs : list (list Z * option (list (list Z)))) : M mkst unit :=
  do! modify (set_freeblock nmeta) in
  do! write_zeroes (Z.to_nat FSSIZE) 0 in
  do! wsect 1 sb_block in
  let! rootino := ialloc T_DIR in
  if negb (rootino =? ROOTINO) then panic "assert"
  else
    do! iappend rootino (mk_dirent (xshort rootino) dot) in
    do! iappend rootino (mk_dirent (xshort rootino) dotdot) in
    do! add_files rootino fs in
    let! din := rinode rootino in
    let off := xint (d_size din) in
    let off := u32 ((off / BSIZE + 1) * BSIZE) in
    do! winode rootino (set_size (xint off) din) in
    let! s := get in
    balloc (freeblock s).

Definition mkst0 : mkst := {| img := []; freeinode := 1; freeblock := 0 |}.
