(* ===== verification/MkfsSpec.v ===== *)
(** * The image mkfs builds

    Every file is on the image with its contents, in blocks of its own; the
    free map and the super block agree, so the kernel finds the file system
    well-formed and reads the files as they were. *)

From Stdlib Require Import ZifyNat.
From S2P Require Import Prelude Param Bytes Memory Sleeplock Log LogInv Blocks Fs FsInodes FsBlocks FsFiles Mkfs.

Lemma xint_small x : 0 <= x < 2 ^ 32 -> xint x = x.
Proof. intros Hx. unfold xint. rewrite of_to_le. by apply Z.mod_small. Qed.
Lemma xshort_small x : 0 <= x < 2 ^ 16 -> xshort x = x.
Proof. intros Hx. unfold xshort. rewrite of_to_le. by apply Z.mod_small. Qed.

(** ** Files *)

(** A file: its bytes, its blocks in order, and its indirect block. *)
Record ghost := { g_type : Z; g_data : list Z; g_blocks : list nat; g_ind : option nat }.

Definition g_addr (g : ghost) (j : nat) : nat := default 0%nat (g_blocks g !! j).
Definition g_addrs (g : ghost) : list Z :=
  ((fun j => Z.of_nat (g_addr g j)) <$> seq 0 12) ++ [Z.of_nat (default 0%nat (g_ind g))].
Definition used (g : ghost) : list nat := g_blocks g ++ option_list (g_ind g).
Definition all_used (gs : list ghost) : list nat := concat (used <$> gs).

Definition bytes_of (im : list blk) (bs : list nat) : list Z := concat ((fun b => im !!! b) <$> bs).

Record file_ok (im : list blk) (g : ghost) : Prop := {
  fo_len : (length (g_blocks g) <= 140)%nat;
  fo_fit : (length (g_data g) <= 512 * length (g_blocks g))%nat;
  fo_data : bytes_of im (g_blocks g) =
    g_data g ++ replicate (512 * length (g_blocks g) - length (g_data g)) 0;
  fo_ind : match g_ind g with
           | None => (length (g_blocks g) <= 12)%nat
           | Some b => forall j, (j < 128)%nat -> getw (im !!! b) j = Z.of_nat (g_addr g (12 + j))
           end
}.

(** The blocks from [fb] on are free and zero; the blocks before it, after the
    metadata, belong to one file each. *)
Record data_inv (gs : list ghost) (im : list blk) (fb : nat) : Prop := {
  di_len : length im = 1000%nat;
  di_size b : (b < 1000)%nat -> length (im !!! b) = 512%nat;
  di_files : Forall (file_ok im) gs;
  di_nodup : NoDup (all_used gs);
  di_range : Forall (fun b => 59 <= b < fb)%nat (all_used gs);
  di_count : fb = (59 + length (all_used gs))%nat;
  di_top : (fb <= 1000)%nat;
  di_zero b : (fb <= b < 1000)%nat -> im !!! b = zeroes
}.

Lemma all_used_app l1 g l2 : all_used (l1 ++ g :: l2) ≡ₚ used g ++ all_used (l1 ++ l2).
Proof.
  unfold all_used. rewrite !fmap_app, fmap_cons, !concat_app. cbn [concat]. solve_Permutation.
Qed.

Lemma file_frame im im' g : (forall b, b ∈ used g -> im' !!! b = im !!! b) -> file_ok im g -> file_ok im' g.
Proof.
  intros Hb [H1 H2 H3 H4]. unfold used in Hb. split; [done|done| |].
  - rewrite <- H3. unfold bytes_of. f_equal. apply list_fmap_ext. intros i b Hi. apply Hb, elem_of_app. left.
    by eapply list_elem_of_lookup_2.
  - destruct (g_ind g) as [b|]; [|done]. intros j Hj. rewrite Hb; [by apply H4|]. apply elem_of_app. right. cbn. set_solver.
Qed.

(** A change of one file, that may take the next free blocks. *)
Lemma inv_step l1 g l2 im im' fb g' k :
  data_inv (l1 ++ g :: l2) im fb -> length im' = 1000%nat ->
  (forall b, (b < 1000)%nat -> length (im' !!! b) = 512%nat) ->
  (forall b, b ∉ used g -> im' !!! b = im !!! b) ->
  used g' ≡ₚ seq fb k ++ used g -> (fb + k <= 1000)%nat -> file_ok im' g' ->
  data_inv (l1 ++ g' :: l2) im' (fb + k).
Proof.
  intros [I1 I2 I3 I4 I5 I6 I7 I8] L1 L2 Hsame Hu Hk Hg.
  assert (Hp : all_used (l1 ++ g' :: l2) ≡ₚ seq fb k ++ all_used (l1 ++ g :: l2)).
  { rewrite !all_used_app, Hu. by rewrite app_assoc. }
  assert (Hdisj : forall h b, h ∈ l1 ++ l2 -> b ∈ used h -> b ∉ used g).
  { intros h b Hh Hb Hbg. rewrite all_used_app in I4. apply NoDup_app in I4 as (_ & I4 & _). apply (I4 b Hbg).
    unfold all_used. rewrite list_elem_of_In, in_concat. exists (used h). rewrite <- !list_elem_of_In.
    split; [by apply list_elem_of_fmap_2|done]. }
  split; try done.
  - apply Forall_app in I3 as [F1 F2]. apply Forall_cons in F2 as [_ F2].
    assert (F : Forall (file_ok im') (l1 ++ l2)).
    { assert (F0 : Forall (file_ok im) (l1 ++ l2)) by by apply Forall_app. rewrite Forall_forall in *.
      intros h Hh. apply (file_frame im); [|by apply F0]. intros b Hb. apply Hsame. by eapply Hdisj. }
    apply Forall_app in F as [F3 F4]. apply Forall_app. split; [done|]. by constructor.
  - rewrite Hp. apply NoDup_app. split; [apply NoDup_seq|]. split; [|done]. intros b Hb. apply elem_of_seq in Hb.
    intros Hin. rewrite Forall_forall in I5. specialize (I5 b Hin). cbn in I5. lia.
  - rewrite Hp. apply Forall_app. split; [|eapply Forall_impl; [exact I5|]; cbn; lia].
    apply Forall_forall. intros b Hb. apply elem_of_seq in Hb. lia.
  - rewrite Hp, length_app, length_seq. lia.
  - intros b Hb. rewrite Hsame; [apply I8; lia|]. intros Hin.
    rewrite all_used_app in I5. apply Forall_app in I5 as [I5 _]. rewrite Forall_forall in I5. specialize (I5 b Hin). cbn in I5. lia.
Qed.

(** ** Blocks of a file *)

Definition push (b : nat) (g : ghost) : ghost :=
  {| g_type := g_type g; g_data := g_data g; g_blocks := g_blocks g ++ [b]; g_ind := g_ind g |}.
Definition with_ind (b : nat) (g : ghost) : ghost :=
  {| g_type := g_type g; g_data := g_data g; g_blocks := g_blocks g; g_ind := Some b |}.

Lemma g_addr_push b g j :
  g_addr (push b g) j = if decide (j = length (g_blocks g)) then b else g_addr g j.
Proof.
  unfold g_addr, push. cbn [g_blocks]. case_decide as E.
  - subst. by rewrite list_lookup_middle.
  - destruct (decide (j < length (g_blocks g))%nat); [by rewrite lookup_app_l|].
    by rewrite !lookup_ge_None_2 by (rewrite ?length_app; cbn; lia).
Qed.

Lemma addrs_length g : length (g_addrs g) = 13%nat.
Proof. unfold g_addrs. by rewrite length_app, length_fmap, length_seq. Qed.

Lemma addrs_direct g j : (j < 12)%nat -> g_addrs g !!! j = Z.of_nat (g_addr g j).
Proof.
  intros Hj. unfold g_addrs. rewrite lookup_total_app_l by (rewrite length_fmap, length_seq; lia).
  apply list_lookup_total_correct. rewrite list_lookup_fmap, lookup_seq_lt by done. done.
Qed.

Lemma addrs_ind g : g_addrs g !!! 12%nat = Z.of_nat (default 0%nat (g_ind g)).
Proof. done. Qed.

Lemma addrs_push b g : (length (g_blocks g) < 12)%nat ->
  <[length (g_blocks g) := Z.of_nat b]> (g_addrs g) = g_addrs (push b g).
Proof.
  intros Hl. unfold g_addrs. rewrite insert_app_l by (rewrite length_fmap, length_seq; lia). f_equal.
  apply list_eq. intros j. rewrite list_lookup_insert, length_fmap, length_seq, !list_lookup_fmap.
  destruct (decide (j < 12)%nat) as [Hj|Hj].
  - rewrite lookup_seq_lt by done. cbn [fmap option_fmap option_map]. rewrite g_addr_push.
    repeat case_decide; try lia; done.
  - rewrite lookup_seq_ge by lia. case_decide; [lia|done].
Qed.

Lemma addrs_push_ind b g : (12 <= length (g_blocks g))%nat -> g_addrs (push b g) = g_addrs g.
Proof.
  intros Hl. unfold g_addrs. f_equal. apply list_fmap_ext. intros i j Hj. apply lookup_seq in Hj as [-> Hj].
  rewrite g_addr_push, decide_False by lia. done.
Qed.

Lemma addrs_with_ind b g : <[12%nat := Z.of_nat b]> (g_addrs g) = g_addrs (with_ind b g).
Proof. unfold g_addrs. by rewrite insert_app_r_alt by (rewrite length_fmap, length_seq; lia). Qed.

Lemma getw_zeroes j : getw zeroes j = 0.
Proof.
  unfold getw, getn, zeroes. rewrite drop_replicate, take_replicate.
  generalize (4 `min` (Z.to_nat BSIZE - 4 * j))%nat. intros n. induction n as [|n IH]; [done|]. cbn [replicate of_le]. by rewrite IH.
Qed.

Lemma bytes_push im bs b : bytes_of im (bs ++ [b]) = bytes_of im bs ++ im !!! b.
Proof. unfold bytes_of. rewrite fmap_app, concat_app. cbn. by rewrite app_nil_r. Qed.

Lemma bytes_frame im b x bs : b ∉ bs -> bytes_of (<[b := x]> im) bs = bytes_of im bs.
Proof.
  intros Hb. unfold bytes_of. f_equal. apply list_fmap_ext. intros i c Hi.
  rewrite list_lookup_total_insert_ne; [done|]. intros <-. apply Hb. by eapply list_elem_of_lookup_2.
Qed.

Lemma push_data im b g : file_ok im g -> im !!! b = zeroes ->
  bytes_of im (g_blocks (push b g)) =
  g_data g ++ replicate (512 * length (g_blocks (push b g)) - length (g_data g)) 0.
Proof.
  intros [_ H2 H3 _] Hz. cbn [push g_blocks]. rewrite bytes_push, H3, Hz, length_app, <- app_assoc. f_equal.
  unfold zeroes. change (Z.to_nat BSIZE) with 512%nat. rewrite <- replicate_add. f_equal. cbn [length]. lia.
Qed.

(** A fresh block at the end, listed in the inode. *)
Lemma push_direct im b g : file_ok im g -> im !!! b = zeroes -> g_ind g = None -> (length (g_blocks g) < 12)%nat ->
  file_ok im (push b g).
Proof.
  intros Hg Hz Hi Hl. pose proof (push_data im b g Hg Hz) as Hd. destruct Hg as [H1 H2 _ _].
  split; [| |exact Hd|]; cbn [push g_blocks g_ind g_data]; rewrite ?length_app, ?Hi; cbn [length]; lia.
Qed.

(** A fresh block at the end, listed in the indirect block. *)
Lemma push_indirect im b ib g : file_ok im g -> im !!! b = zeroes -> g_ind g = Some ib -> ib ∉ g_blocks g -> b <> ib ->
  (12 <= length (g_blocks g) < 140)%nat -> (ib < length im)%nat -> length (im !!! ib) = 512%nat -> (b < 1000)%nat ->
  file_ok (<[ib := setw (im !!! ib) (length (g_blocks g) - 12) (Z.of_nat b)]> im) (push b g).
Proof.
  intros Hg Hz Hi Hn Hne Hl Hib Hlen Hb. pose proof (push_data im b g Hg Hz) as Hd. destruct Hg as [H1 H2 _ H4].
  rewrite Hi in H4. split; cbn [push g_blocks g_ind g_data] in *.
  - rewrite length_app. cbn. lia.
  - rewrite length_app. cbn. lia.
  - rewrite bytes_frame; [exact Hd|]. set_solver.
  - rewrite Hi. intros j Hj. rewrite list_lookup_total_insert_eq by done. rewrite getw_setw by lia.
    fold (push b g). rewrite g_addr_push. destruct (decide (length (g_blocks g) - 12 = j)%nat).
    + rewrite decide_True by lia. apply u32_small. lia.
    + rewrite decide_False by lia. by apply H4.
Qed.

Lemma with_ind_ok im b g : file_ok im g -> im !!! b = zeroes -> (length (g_blocks g) <= 12)%nat ->
  file_ok im (with_ind b g).
Proof.
  intros [H1 H2 H3 _] Hz Hl. split; [done|done|done|]. cbn [with_ind g_ind]. intros j Hj. rewrite Hz, getw_zeroes.
  unfold g_addr. by rewrite lookup_ge_None_2 by (cbn; lia).
Qed.

(** ** Reading and writing sectors *)

Definition holds (gs : list ghost) (s : mkst) : Prop :=
  data_inv gs (img s) (Z.to_nat (freeblock s)) /\ 0 <= freeblock s.
(** The metadata and the number of inodes stay. *)
Definition keeps (s s' : mkst) : Prop :=
  freeinode s' = freeinode s /\ forall b, (b < 59)%nat -> img s' !!! b = img s !!! b.

Lemma keeps_trans s1 s2 s3 : keeps s1 s2 -> keeps s2 s3 -> keeps s1 s3.
Proof. intros [H1 H2] [H3 H4]. split; [congruence|]. intros b Hb. by rewrite H4, H2. Qed.

Lemma rsect_run b s : (b < length (img s))%nat -> rsect (Z.of_nat b) s = Ok (img s !!! b, s).
Proof.
  intros Hb. unfold rsect. mrun. rewrite Nat2Z.id. destruct (lookup_lt_is_Some_2 _ _ Hb) as [x E].
  by rewrite E, (list_lookup_total_correct _ _ _ E).
Qed.

Lemma wsect_run b x s : (b < length (img s))%nat ->
  wsect (Z.of_nat b) x s = Ok (tt, set_img (<[b := x]> (img s)) s).
Proof.
  intros Hb. unfold wsect, modify. rewrite Nat2Z.id. by destruct (Nat.ltb_spec b (length (img s))); [|lia].
Qed.

Lemma next_block_run gs s : holds gs s -> freeblock s < 2 ^ 31 ->
  next_block s = Ok (freeblock s, set_freeblock (freeblock s + 1) s).
Proof. intros [_ H] Hl. unfold next_block. mrun. by rewrite u32_small by lia. Qed.

Lemma holds_fresh gs s : holds gs s -> freeblock s < 1000 -> img s !!! Z.to_nat (freeblock s) = zeroes.
Proof. intros [Hi Hf] Hl. apply (di_zero _ _ _ Hi). lia. Qed.

Lemma holds_range gs g s b : holds gs s -> g ∈ gs -> b ∈ used g -> (59 <= b < 1000)%nat /\ Z.of_nat b < freeblock s.
Proof.
  intros [Hi Hf] Hg Hb. pose proof (di_top _ _ _ Hi). pose proof (di_range _ _ _ Hi) as Hr. rewrite Forall_forall in Hr.
  assert (Hin : b ∈ all_used gs).
  { unfold all_used. rewrite list_elem_of_In, in_concat. exists (used g). rewrite <- !list_elem_of_In.
    split; [by apply list_elem_of_fmap_2|done]. }
  specialize (Hr b Hin). cbn in Hr. lia.
Qed.

Lemma holds_file l1 g l2 s : holds (l1 ++ g :: l2) s -> file_ok (img s) g /\ NoDup (used g).
Proof.
  intros [Hi _]. split.
  - pose proof (di_files _ _ _ Hi) as H. apply Forall_app in H as [_ H]. by apply Forall_cons in H as [H _].
  - pose proof (di_nodup _ _ _ Hi) as H. rewrite all_used_app in H. by apply NoDup_app in H as [H _].
Qed.

Lemma holds_len gs s b : holds gs s -> (b < 1000)%nat -> length (img s) = 1000%nat /\ length (img s !!! b) = 512%nat.
Proof. intros [Hi _] Hb. split; [exact (di_len _ _ _ Hi)|by apply (di_size _ _ _ Hi)]. Qed.

(** The next free block goes to a file. *)
Lemma holds_take l1 g l2 s g' im : holds (l1 ++ g :: l2) s -> freeblock s < 1000 -> length im = 1000%nat ->
  (forall b, (b < 1000)%nat -> length (im !!! b) = 512%nat) -> (forall b, b ∉ used g -> im !!! b = img s !!! b) ->
  used g' ≡ₚ Z.to_nat (freeblock s) :: used g -> file_ok im g' ->
  holds (l1 ++ g' :: l2) (set_img im (set_freeblock (freeblock s + 1) s)).
Proof.
  intros [Hi Hf] Hl L1 L2 Hs Hu Hg. split; [|cbn; lia]. cbn [set_freeblock set_img img freeblock].
  replace (Z.to_nat (freeblock s + 1)) with (Z.to_nat (freeblock s) + 1)%nat by lia.
  apply (inv_step l1 g l2 (img s)); try done. lia.
Qed.

Lemma sizes_insert gs s b x : holds gs s -> (b < 1000)%nat -> length x = 512%nat ->
  length (<[b := x]> (img s)) = 1000%nat /\
  forall c, (c < 1000)%nat -> length (<[b := x]> (img s) !!! c) = 512%nat.
Proof.
  intros H Hb Hx. destruct (holds_len _ _ b H Hb) as [L1 _]. split; [by rewrite length_insert|]. intros c Hc.
  destruct (decide (c = b)) as [->|]; [by rewrite list_lookup_total_insert_eq by lia|].
  rewrite list_lookup_total_insert_ne by done. by apply (holds_len _ _ c H).
Qed.

(** A block of a file is written. *)
Lemma holds_write l1 g l2 s g' b x : holds (l1 ++ g :: l2) s -> b ∈ used g -> length x = 512%nat ->
  used g' = used g -> file_ok (<[b := x]> (img s)) g' -> holds (l1 ++ g' :: l2) (set_img (<[b := x]> (img s)) s).
Proof.
  intros H Hb Hx Hu Hg. destruct (holds_range _ g s b H) as [Hr _]; [set_solver|done|].
  destruct (sizes_insert _ _ b x H) as [L1 L2]; [lia|done|]. destruct H as [Hi Hf]. split; [|done]. cbn [set_img img freeblock].
  rewrite <- (Nat.add_0_r (Z.to_nat (freeblock s))). apply (inv_step l1 g l2 (img s)); try done.
  - intros c Hc. apply list_lookup_total_insert_ne. intros ->. by apply Hc.
  - by rewrite Hu.
  - pose proof (di_top _ _ _ Hi). lia.
Qed.

(** The indirect block is there exactly when it is needed. *)
Definition tight_ind (g : ghost) : Prop := g_ind g = None <-> (length (g_blocks g) <= 12)%nat.
Definition with_addrs (g : ghost) (x : dinode) : dinode :=
  {| d_type := d_type x; d_major := d_major x; d_minor := d_minor x; d_nlink := d_nlink x; d_size := d_size x;
     d_addrs := g_addrs g |}.

(** [g'] is [g] with at most one more block. *)
Record grown (g g' : ghost) (fbn x : nat) : Prop := {
  gr_type : g_type g' = g_type g;
  gr_data : g_data g' = g_data g;
  gr_at : g_blocks g' !! fbn = Some x;
  gr_len : length (g_blocks g') = Nat.max (length (g_blocks g)) (S fbn);
  gr_tight : tight_ind g'
}.

Lemma addr_some gs s g j : holds gs s -> g ∈ gs -> (j < length (g_blocks g))%nat ->
  exists b, g_blocks g !! j = Some b /\ g_addr g j = b /\ (59 <= b < 1000)%nat.
Proof.
  intros H Hg Hj. destruct (lookup_lt_is_Some_2 _ _ Hj) as [b Hb]. exists b. split; [done|]. unfold g_addr. rewrite Hb.
  split; [done|]. apply (holds_range gs g s b H Hg). apply elem_of_app. left. by eapply list_elem_of_lookup_2.
Qed.

Lemma addr_none g j : (length (g_blocks g) <= j)%nat -> g_addr g j = 0%nat.
Proof. intros Hj. unfold g_addr. by rewrite lookup_ge_None_2. Qed.

Lemma grown_push g b : length (g_blocks g) <> 12%nat -> tight_ind g -> grown g (push b g) (length (g_blocks g)) b.
Proof.
  intros H12 Ht. split; cbn [push g_blocks g_type g_data]; [done|done|by rewrite list_lookup_middle| |].
  - rewrite length_app. cbn. lia.
  - unfold tight_ind in *. cbn [push g_blocks g_ind]. rewrite Ht, length_app. cbn. lia.
Qed.

Lemma append_entry_old ib j s v : (ib < length (img s))%nat -> getw (img s !!! ib) j = Z.of_nat v ->
  (0 < v < 1000)%nat -> append_entry (Z.of_nat ib) j s = Ok (Z.of_nat v, s).
Proof.
  intros Hib Hv Hr. unfold append_entry. rewrite (bind_Ok _ _ _ _ _ (rsect_run ib s Hib)), Hv.
  destruct (Z.eqb_spec (Z.of_nat v) 0); [lia|]. rewrite bind_ret, Hv, xint_small by lia. done.
Qed.

Lemma append_entry_new gs ib j s : holds gs s -> (ib < 1000)%nat -> (j < 128)%nat -> getw (img s !!! ib) j = 0 ->
  freeblock s < 1000 ->
  append_entry (Z.of_nat ib) j s =
  Ok (freeblock s, set_img (<[ib := setw (img s !!! ib) j (freeblock s)]> (img s)) (set_freeblock (freeblock s + 1) s)).
Proof.
  intros H Hib Hj Hv Hr. destruct (holds_len _ _ ib H Hib) as [L1 L2]. unfold append_entry.
  rewrite (bind_Ok _ _ _ _ _ (rsect_run ib s ltac:(lia))), Hv. change (0 =? 0) with true. cbv iota. rewrite bind_bind.
  rewrite (bind_Ok _ _ _ _ _ (next_block_run _ s H ltac:(lia))), bind_bind, xint_small by (destruct H; lia).
  rewrite (bind_Ok _ _ _ _ _ (wsect_run ib _ (set_freeblock (freeblock s + 1) s) ltac:(cbn; lia))), bind_ret. cbn [img set_freeblock].
  rewrite getw_setw, decide_True, u32_small, xint_small by (destruct H; lia). done.
Qed.

Lemma append_entry_ok l1 g l2 s ib fbn : holds (l1 ++ g :: l2) s -> g_ind g = Some ib ->
  (12 <= fbn < 140)%nat -> (12 <= length (g_blocks g))%nat -> (fbn <= length (g_blocks g))%nat ->
  (fbn = length (g_blocks g) -> freeblock s < 1000) ->
  exists s' g' x, append_entry (Z.of_nat ib) (fbn - 12) s = Ok (Z.of_nat x, s') /\
    holds (l1 ++ g' :: l2) s' /\ keeps s s' /\ grown g g' fbn x /\ g_addrs g' = g_addrs g.
Proof.
  intros H Hind Hfbn H12 Hle Hroom. assert (Hg : g ∈ l1 ++ g :: l2) by set_solver.
  destruct (holds_file _ _ _ _ H) as [Hok Hnd].
  assert (Hiu : ib ∈ used g) by (unfold used; rewrite Hind; set_solver).
  destruct (holds_range _ g s ib H Hg Hiu) as [Hib Hlt]. destruct (holds_len _ _ ib H) as [L1 L2]; [lia|].
  assert (He : getw (img s !!! ib) (fbn - 12) = Z.of_nat (g_addr g fbn)).
  { pose proof (fo_ind _ _ Hok) as Hi. rewrite Hind in Hi. rewrite Hi by lia. do 2 f_equal. lia. }
  destruct (decide (fbn = length (g_blocks g))) as [E|E].
  - specialize (Hroom E). rewrite addr_none in He by lia. set (b := Z.to_nat (freeblock s)).
    assert (Hb : freeblock s = Z.of_nat b) by (destruct H; lia).
    destruct (sizes_insert _ _ ib (setw (img s !!! ib) (fbn - 12) (Z.of_nat b)) H) as [S1 S2]; [lia|rewrite setw_length; lia|].
    eexists _, (push b g), b. split_and!.
    + rewrite (append_entry_new _ ib _ s H) by lia. rewrite Hb at 1. done.
    + rewrite Hb at 1. apply (holds_take l1 g); try done.
      * intros c Hc. apply list_lookup_total_insert_ne. intros ->. by apply Hc.
      * unfold used, push. cbn [g_blocks g_ind]. fold b. solve_Permutation.
      * rewrite E. apply push_indirect; try lia; try done; [by apply (holds_fresh _ _ H)|].
        unfold used in Hnd. rewrite Hind in Hnd. apply NoDup_app in Hnd as (_ & Hn & _). intros Hin. apply (Hn _ Hin). set_solver.
    + split; [done|]. intros c Hc. cbn [img set_img]. apply list_lookup_total_insert_ne. lia.
    + rewrite E. split; cbn [push g_blocks g_type g_data]; [done|done|by rewrite list_lookup_middle|rewrite length_app; cbn; lia|].
      unfold tight_ind. cbn [push g_blocks g_ind]. rewrite Hind, length_app. cbn. split; [done|lia].
    + by apply addrs_push_ind.
  - destruct (addr_some _ _ _ fbn H Hg) as (b & Hb1 & Hb2 & Hb3); [lia|]. exists s, g, b. rewrite Hb2 in He. split_and!.
    + apply append_entry_old; [lia|done|lia].
    + done.
    + done.
    + split; [done|done|done|lia|]. unfold tight_ind. rewrite Hind. split; [done|lia].
    + done.
Qed.

Lemma with_addrs_id g x : d_addrs x = g_addrs g -> with_addrs g x = x.
Proof. intros H. unfold with_addrs. rewrite <- H. by destruct x. Qed.

Lemma set_addr_with g g' j v x : <[j := v]> (g_addrs g) = g_addrs g' -> d_addrs x = g_addrs g ->
  set_addr j v x = with_addrs g' x.
Proof. intros H Hd. unfold set_addr, with_addrs. by rewrite Hd, H. Qed.

Lemma set_img_id s : set_img (img s) s = s.
Proof. by destruct s. Qed.

(** A free block is taken without a write. *)
Lemma holds_take_clean l1 g l2 s g' : holds (l1 ++ g :: l2) s -> freeblock s < 1000 ->
  used g' ≡ₚ Z.to_nat (freeblock s) :: used g -> file_ok (img s) g' ->
  holds (l1 ++ g' :: l2) (set_freeblock (freeblock s + 1) s).
Proof.
  intros H Hl Hu Hg. rewrite <- (set_img_id (set_freeblock _ s)). apply (holds_take l1 g); try done.
  - by apply (holds_len _ _ 0%nat H ltac:(lia)).
  - intros b Hb. by apply (holds_len _ _ b H).
Qed.

Lemma append_direct_ok l1 g l2 s din fbn : holds (l1 ++ g :: l2) s -> tight_ind g -> d_addrs din = g_addrs g ->
  (fbn <= length (g_blocks g))%nat -> (fbn < 12)%nat -> (fbn = length (g_blocks g) -> freeblock s < 1000) ->
  exists s' g' x, append_block din (Z.of_nat fbn) s = Ok ((Z.of_nat x, with_addrs g' din), s') /\
    holds (l1 ++ g' :: l2) s' /\ keeps s s' /\ grown g g' fbn x.
Proof.
  intros H Ht Hd Hle H12 Hroom. assert (Hg : g ∈ l1 ++ g :: l2) by set_solver.
  unfold append_block. change NDIRECT with 12. destruct (Z.ltb_spec (Z.of_nat fbn) 12); [|lia].
  rewrite Nat2Z.id, Hd, addrs_direct by done. destruct (decide (fbn = length (g_blocks g))) as [E|E].
  - rewrite addr_none by lia. change (xint (Z.of_nat 0) =? 0) with true. cbv iota. rewrite bind_bind. specialize (Hroom E).
    rewrite (bind_Ok _ _ _ _ _ (next_block_run _ s H ltac:(lia))), bind_ret, (xint_small (freeblock s)) by (destruct H; lia).
    set (b := Z.to_nat (freeblock s)). assert (Hb : freeblock s = Z.of_nat b) by (destruct H; lia).
    rewrite (set_addr_with g (push b g)); [|by rewrite Hb, E; apply addrs_push; lia|done].
    cbn [with_addrs d_addrs]. rewrite addrs_direct, g_addr_push, decide_True, xint_small by lia.
    exists (set_freeblock (freeblock s + 1) s), (push b g), b. split_and!; [done| |done|].
    + apply (holds_take_clean l1 g); try done.
      * unfold used, push. cbn [g_blocks g_ind]. fold b. solve_Permutation.
      * apply push_direct; [by apply (holds_file _ _ _ _ H)|by apply (holds_fresh _ _ H)|apply Ht; lia|lia].
    + rewrite E. apply grown_push; [lia|done].
  - destruct (addr_some _ _ _ fbn H Hg) as (b & Hb1 & Hb2 & Hb3); [lia|]. rewrite Hb2, xint_small by lia.
    destruct (Z.eqb_spec (Z.of_nat b) 0); [lia|]. rewrite bind_ret, Hd, addrs_direct, Hb2, xint_small by lia.
    exists s, g, b. rewrite with_addrs_id by done. split_and!; [done..|]. split; [done|done|done|lia|done].
Qed.

Lemma append_block_ok l1 g l2 s din fbn : holds (l1 ++ g :: l2) s -> tight_ind g -> d_addrs din = g_addrs g ->
  (fbn <= length (g_blocks g))%nat -> (fbn < 140)%nat ->
  (fbn = length (g_blocks g) -> freeblock s + (if decide (fbn = 12%nat) then 1 else 0) < 1000) ->
  exists s' g' x, append_block din (Z.of_nat fbn) s = Ok ((Z.of_nat x, with_addrs g' din), s') /\
    holds (l1 ++ g' :: l2) s' /\ keeps s s' /\ grown g g' fbn x.
Proof.
  intros H Ht Hd Hle H140 Hroom. destruct (decide (fbn < 12)%nat) as [H12|H12].
  { apply append_direct_ok; try done. intros E. specialize (Hroom E). rewrite decide_False in Hroom; lia. }
  assert (Hg : g ∈ l1 ++ g :: l2) by set_solver.
  unfold append_block. change NDIRECT with 12. destruct (Z.ltb_spec (Z.of_nat fbn) 12); [lia|].
  change (Z.to_nat 12) with 12%nat. replace (Z.to_nat (Z.of_nat fbn - 12)) with (fbn - 12)%nat by lia. rewrite Hd, addrs_ind.
  destruct (g_ind g) as [ib|] eqn:Ei; cbn [from_option id].
  - destruct (holds_range _ g s ib H Hg) as [Hib _]; [unfold used; rewrite Ei; set_solver|].
    rewrite xint_small by lia. destruct (Z.eqb_spec (Z.of_nat ib) 0); [lia|].
    rewrite bind_ret, Hd, addrs_ind, Ei. cbn [from_option id]. rewrite xint_small by lia.
    assert (12 < length (g_blocks g))%nat by (destruct (decide (length (g_blocks g) <= 12)%nat) as [Hl|]; [apply Ht in Hl; congruence|lia]).
    destruct (append_entry_ok l1 g l2 s ib fbn H Ei) as (s' & g' & x & E1 & E2 & E3 & E4 & E5); [lia..| |].
    { intros E. specialize (Hroom E). case_decide; lia. }
    exists s', g', x. rewrite (bind_Ok _ _ _ _ _ E1). split_and!; [|done..].
    by rewrite with_addrs_id by congruence.
  - assert (Hl : (length (g_blocks g) <= 12)%nat) by by apply Ht. assert (E : fbn = 12%nat) by lia. subst fbn.
    specialize (Hroom ltac:(lia)). rewrite decide_True in Hroom by done.
    change (xint (Z.of_nat 0) =? 0) with true. cbv iota. rewrite bind_bind.
    rewrite (bind_Ok _ _ _ _ _ (next_block_run _ s H ltac:(lia))), bind_ret, (xint_small (freeblock s)) by (destruct H; lia).
    set (b := Z.to_nat (freeblock s)). assert (Hb : freeblock s = Z.of_nat b) by (destruct H; lia).
    rewrite (set_addr_with g (with_ind b g)); [|by rewrite Hb; apply addrs_with_ind|done].
    cbn [with_addrs d_addrs]. rewrite addrs_ind. cbn [with_ind g_ind from_option id]. rewrite xint_small by lia.
    assert (H' : holds (l1 ++ with_ind b g :: l2) (set_freeblock (freeblock s + 1) s)).
    { apply (holds_take_clean l1 g); [done|lia| |].
      - unfold used, with_ind. cbn [g_blocks g_ind]. rewrite Ei. fold b. cbn [option_list]. solve_Permutation.
      - apply with_ind_ok; [by apply (holds_file _ _ _ _ H)|apply (holds_fresh _ _ H); lia|done]. }
    destruct (append_entry_ok l1 (with_ind b g) l2 _ b 12 H' eq_refl) as (s' & g' & x & E1 & E2 & E3 & E4 & E5); cbn; [lia..|].
    exists s', g', x. rewrite (bind_Ok _ _ _ _ _ E1). split_and!; [|done| |].
    + unfold with_addrs. by rewrite E5.
    + by apply (keeps_trans _ (set_freeblock (freeblock s + 1) s)).
    + by destruct E4.
Qed.

(** ** Bytes at the end of a file *)

Definition nblk (n : nat) : nat := ((n + 511) / 512)%nat.
(** The blocks a file of [n] bytes takes. *)
Definition cost (n : nat) : nat := (nblk n + if decide (12 < nblk n)%nat then 1 else 0)%nat.
Record tight (g : ghost) : Prop := {
  t_ind : tight_ind g; t_len : length (g_blocks g) = nblk (length (g_data g))
}.

Lemma used_cost g : tight g -> length (used g) = cost (length (g_data g)).
Proof.
  intros [[H1 H2] H3]. unfold used, cost. rewrite length_app, <- H3. destruct (g_ind g) as [b|] eqn:E; cbn.
  - case_decide; [lia|]. specialize (H2 ltac:(lia)). done.
  - case_decide; [|lia]. specialize (H1 eq_refl). lia.
Qed.

Lemma free_cost l1 g l2 s : holds (l1 ++ g :: l2) s -> tight g ->
  freeblock s = Z.of_nat (59 + cost (length (g_data g)) + length (all_used (l1 ++ l2))).
Proof.
  intros [Hi Hf] Ht. pose proof (di_count _ _ _ Hi) as Hc. rewrite all_used_app, length_app, used_cost in Hc by done. lia.
Qed.

Lemma cost_mono m n : (m <= n)%nat -> (cost m <= cost n)%nat.
Proof.
  intros H. assert (nblk m <= nblk n)%nat by (apply Nat.Div0.div_le_mono; lia). unfold cost. repeat case_decide; lia.
Qed.

Lemma fill_list (A B data piece : list Z) z o : A ++ B = data ++ replicate z 0 -> (length A <= length data)%nat ->
  o = (length data - length A)%nat -> (length piece <= z)%nat ->
  A ++ take o B ++ piece ++ drop (o + length piece) B = (data ++ piece) ++ replicate (z - length piece) 0.
Proof.
  intros H Hl Ho Hz. assert (Hd : data = A ++ drop (length A) data).
  { rewrite <- (take_drop (length A) data) at 1. f_equal. apply (f_equal (take (length A))) in H.
    by rewrite take_app_length, take_app_le in H by done. }
  set (D := drop (length A) data) in *. rewrite Hd, <- app_assoc in H. apply app_inv_head in H. subst B.
  assert (HD : length D = o) by (subst D; rewrite length_drop; lia).
  rewrite Hd, <- !app_assoc. do 2 f_equal; [by apply take_app_length'|]. f_equal.
  rewrite drop_app, HD, drop_ge by lia. replace (o + length piece - o)%nat with (length piece) by lia.
  by rewrite drop_replicate.
Qed.

Definition grow (p : list Z) (g : ghost) : ghost :=
  {| g_type := g_type g; g_data := g_data g ++ p; g_blocks := g_blocks g; g_ind := g_ind g |}.

Lemma bytes_length im bs : (forall b, b ∈ bs -> length (im !!! b) = 512%nat) ->
  length (bytes_of im bs) = (512 * length bs)%nat.
Proof.
  unfold bytes_of. induction bs as [|b bs IH]; intros H; [done|]. cbn. rewrite length_app, H, IH by set_solver. lia.
Qed.

(** The last block of a file filled further. *)
Lemma grow_ok im g x fbn piece : file_ok im g -> NoDup (used g) -> (forall b, b ∈ used g -> (b < length im)%nat) ->
  (forall b, b ∈ used g -> length (im !!! b) = 512%nat) -> g_blocks g !! fbn = Some x ->
  length (g_blocks g) = S fbn -> fbn = (length (g_data g) / 512)%nat ->
  (length (g_data g) mod 512 + length piece <= 512)%nat ->
  let o := (length (g_data g) mod 512)%nat in
  let blk := take o (im !!! x) ++ piece ++ drop (o + length piece) (im !!! x) in
  length blk = 512%nat /\ file_ok (<[x := blk]> im) (grow piece g).
Proof.
  intros [H1 H2 H3 H4] Hnd Hlen Hsz Hx Hl Hf Hp o blk.
  assert (Hxu : x ∈ used g) by (apply elem_of_app; left; by eapply list_elem_of_lookup_2).
  assert (Hblk : length blk = 512%nat).
  { subst blk o. rewrite !length_app, length_take, length_drop, Hsz by done. lia. }
  assert (Hbs : g_blocks g = take fbn (g_blocks g) ++ [x]).
  { rewrite <- (take_S_r _ _ _ Hx). by rewrite take_ge by lia. }
  unfold used in Hnd. rewrite Hbs in Hnd. apply NoDup_app in Hnd as (Hnd & Hni & _). apply NoDup_app in Hnd as (_ & Hnd & _).
  assert (Hxb : x ∉ take fbn (g_blocks g)) by (intros Hin; apply (Hnd x Hin); by apply list_elem_of_singleton).
  assert (HA : length (bytes_of im (take fbn (g_blocks g))) = (512 * fbn)%nat).
  { rewrite bytes_length, length_take; [lia|]. intros b Hb. apply Hsz, elem_of_app. left.
    apply (subseteq_take fbn). done. }
  split; [done|]. split; cbn [grow g_blocks g_data g_ind]; [done| | |].
  - rewrite length_app. pose proof (Nat.div_mod_eq (length (g_data g)) 512). lia.
  - rewrite Hbs at 1. rewrite bytes_push, bytes_frame, list_lookup_total_insert_eq by (try done; by apply Hlen).
    subst blk. rewrite Hbs, bytes_push in H3 at 1. pose proof (Nat.div_mod_eq (length (g_data g)) 512).
    rewrite (fill_list _ _ _ _ _ o H3); [|lia|lia|lia]. do 2 f_equal. rewrite length_app. lia.
  - destruct (g_ind g) as [ib|] eqn:Ei; [|done]. intros j Hj. rewrite list_lookup_total_insert_ne; [by apply H4|].
    intros ->. apply (Hni ib); [apply elem_of_app; right|]; by apply list_elem_of_singleton.
Qed.

Lemma tight_grow g g' fbn x piece : tight g -> grown g g' fbn x -> fbn = (length (g_data g) / 512)%nat ->
  piece <> [] -> (length (g_data g) mod 512 + length piece <= 512)%nat -> tight (grow piece g').
Proof.
  intros [_ Hl] [_ Hd _ Hlen Ht] Hf Hp Ho. split; [exact Ht|]. cbn [grow g_blocks g_data]. rewrite Hlen, Hl, Hd, length_app, Hf.
  assert (length piece <> 0)%nat by (by destruct piece). unfold nblk. dlia.
Qed.

Lemma fill_ok l1 g l2 s x fbn piece o : holds (l1 ++ g :: l2) s -> g_blocks g !! fbn = Some x ->
  length (g_blocks g) = S fbn -> fbn = (length (g_data g) / 512)%nat -> o = (length (g_data g) mod 512)%nat ->
  (o + length piece <= 512)%nat ->
  (x < length (img s))%nat /\
  exists s', wsect (Z.of_nat x) (take o (img s !!! x) ++ piece ++ drop (o + length piece) (img s !!! x)) s = Ok (tt, s') /\
    holds (l1 ++ grow piece g :: l2) s' /\ keeps s s'.
Proof.
  intros H Hx Hl Hf -> Ho. assert (Hin : g ∈ l1 ++ g :: l2) by (apply elem_of_app; right; left).
  assert (Hxu : x ∈ used g) by (apply elem_of_app; left; by eapply list_elem_of_lookup_2).
  destruct (holds_range _ _ _ _ H Hin Hxu) as [Hr _]. destruct (holds_len _ _ x H) as [Li Lx]; [lia|].
  split; [lia|]. destruct (holds_file _ _ _ _ H) as [Hok Hnd].
  destruct (grow_ok (img s) g x fbn piece Hok Hnd) as [Hb Hg]; try done.
  - intros b Hb. rewrite Li. by apply (holds_range _ _ _ _ H Hin Hb).
  - intros b Hb. apply (holds_len _ _ b H). by apply (holds_range _ _ _ _ H Hin Hb).
  - eexists. split; [apply wsect_run; lia|]. split; [by apply (holds_write l1 g)|]. split; [done|].
    intros b Hb'. cbn [img set_img]. apply list_lookup_total_insert_ne. lia.
Qed.

Lemma iappend_room l1 g l2 s fbn n : holds (l1 ++ g :: l2) s -> tight g -> (0 < n)%nat ->
  fbn = (length (g_data g) / 512)%nat ->
  (59 + cost (length (g_data g) + n) + length (all_used (l1 ++ l2)) <= 1000)%nat ->
  fbn = length (g_blocks g) -> freeblock s + (if decide (fbn = 12%nat) then 1 else 0) < 1000.
Proof.
  intros H Ht Hn Hf Hroom E. rewrite (free_cost _ _ _ _ H Ht). rewrite (t_len _ Ht) in E.
  pose proof (cost_mono (length (g_data g) + 1) (length (g_data g) + n) ltac:(lia)).
  assert (nblk (length (g_data g) + 1) = S fbn) by (subst fbn; unfold nblk in *; dlia).
  unfold cost in *. rewrite <- E. repeat case_decide; lia.
Qed.

(** One round of the loop. *)
Lemma iappend_round l1 g l2 s din p : holds (l1 ++ g :: l2) s -> tight g -> d_addrs din = g_addrs g ->
  (1 <= length p)%nat -> (length (g_data g) + length p <= 140 * 512)%nat ->
  (59 + cost (length (g_data g) + length p) + length (all_used (l1 ++ l2)) <= 1000)%nat ->
  let L := length (g_data g) in let fbn := (L / 512)%nat in let o := (L mod 512)%nat in
  let n1 := Nat.min (length p) (512 - o) in
  exists s1 s' g1 x, append_block din (Z.of_nat fbn) s = Ok ((Z.of_nat x, with_addrs g1 din), s1) /\
    rsect (Z.of_nat x) s1 = Ok (img s1 !!! x, s1) /\
    wsect (Z.of_nat x) (take o (img s1 !!! x) ++ take n1 p ++ drop (o + n1) (img s1 !!! x)) s1 = Ok (tt, s') /\
    holds (l1 ++ grow (take n1 p) g1 :: l2) s' /\ keeps s s' /\ tight (grow (take n1 p) g1) /\
    g_data g1 = g_data g /\ g_type g1 = g_type g.
Proof.
  intros H Ht Hd Hp Hmax Hroom L fbn o n1.
  destruct (append_block_ok l1 g l2 s din fbn H (t_ind _ Ht) Hd) as (s1 & g1 & x & E1 & H1 & K1 & G1).
  { rewrite (t_len _ Ht). subst fbn L. unfold nblk. dlia. }
  { subst fbn L. dlia. }
  { by apply (iappend_room l1 g l2 s fbn (length p)). }
  assert (Hlen : length (take n1 p) = n1) by (rewrite length_take; subst n1; lia).
  assert (Ho : (o + n1 <= 512)%nat) by (subst n1 o; dlia).
  pose proof (gr_data _ _ _ _ G1) as Gd.
  assert (Hl1 : length (g_blocks g1) = S fbn).
  { rewrite (gr_len _ _ _ _ G1), (t_len _ Ht). subst fbn L. unfold nblk. dlia. }
  destruct (fill_ok l1 g1 l2 s1 x fbn (take n1 p) o H1 (gr_at _ _ _ _ G1)) as (Hx & s' & E2 & H2 & K2);
    [done|by rewrite Gd|by rewrite Gd|lia|].
  rewrite Hlen in E2. exists s1, s', g1, x. split_and!; [done|by apply rsect_run|done|done| | |done|by destruct G1].
  - by apply (keeps_trans _ s1).
  - apply (tight_grow g _ fbn x); [done|done|done| |fold L; fold o; lia].
    intros E. rewrite E in Hlen. cbn in Hlen. subst n1 o. dlia.
Qed.

Lemma iappend_loop_ok l1 l2 fuel : forall p g s din,
  holds (l1 ++ g :: l2) s -> tight g -> d_addrs din = g_addrs g -> (length p <= fuel)%nat ->
  (length (g_data g) + length p <= 140 * 512)%nat ->
  (59 + cost (length (g_data g) + length p) + length (all_used (l1 ++ l2)) <= 1000)%nat ->
  exists s' g', iappend_loop fuel din (Z.of_nat (length (g_data g))) p s =
      Ok ((with_addrs g' din, Z.of_nat (length (g_data g'))), s') /\
    holds (l1 ++ g' :: l2) s' /\ keeps s s' /\ tight g' /\ g_data g' = g_data g ++ p /\ g_type g' = g_type g.
Proof.
  induction fuel as [|fuel IH]; intros p g s din H Ht Hd Hfuel Hmax Hroom.
  { destruct p; [|cbn in Hfuel; lia]. exists s, g. rewrite app_nil_r, with_addrs_id by done. done. }
  destruct (decide (p = [])) as [->|Hp0]; [exists s, g; rewrite app_nil_r, with_addrs_id by done; done|].
  assert (Hp : (1 <= length p)%nat) by (destruct p; [done|cbn; lia]).
  destruct (iappend_round l1 g l2 s din p H Ht Hd Hp Hmax Hroom) as (s1 & s2 & g1 & x & E1 & E2 & E3 & H2 & K2 & T2 & Gd & Gt).
  set (L := length (g_data g)) in *. set (n1 := Nat.min (length p) (512 - L mod 512)) in *.
  assert (Hn : (1 <= n1 <= length p)%nat) by (subst n1; dlia).
  destruct (IH (drop n1 p) (grow (take n1 p) g1) s2 (with_addrs g1 din) H2 T2 eq_refl) as (s' & g' & E4 & H4 & K4 & T4 & D4 & Y4).
  { rewrite length_drop. lia. }
  { cbn [grow g_data]. rewrite Gd, length_app, length_take, length_drop. fold L. lia. }
  { cbn [grow g_data]. rewrite Gd, length_app, length_take, length_drop. fold L.
    replace (L + n1 `min` length p + (length p - n1))%nat with (L + length p)%nat by lia. done. }
  cbn [grow g_data] in E4, D4. rewrite Gd, length_app, length_take in E4. fold L in E4.
  exists s', g'. split_and!; [|done|by apply (keeps_trans _ s2)|done| |by rewrite Y4].
  - destruct p as [|c p']; [done|]. cbn [iappend_loop]. set (p := c :: p') in *.
    replace (Z.of_nat L / BSIZE) with (Z.of_nat (L / 512)) by (change BSIZE with 512; dlia). change MAXFILE with 140.
    destruct (Z.ltb_spec (Z.of_nat (L / 512)) 140); [|dlia]. cbn [negb].
    rewrite (bind_Ok _ _ _ _ _ E1), (bind_Ok _ _ _ _ _ E2).
    replace (Z.min (Z.of_nat (length p)) ((Z.of_nat (L / 512) + 1) * BSIZE - Z.of_nat L)) with (Z.of_nat n1)
      by (subst n1; change BSIZE with 512; dlia).
    replace (Z.of_nat L - Z.of_nat (L / 512) * BSIZE) with (Z.of_nat (L mod 512)) by (change BSIZE with 512; dlia).
    rewrite !Nat2Z.id, (bind_Ok _ _ _ _ _ E3).
    replace (Z.of_nat L + Z.of_nat n1) with (Z.of_nat (L + n1 `min` length p)) by lia. exact E4.
  - rewrite D4, Gd, <- app_assoc, take_drop. done.
Qed.

(** ** Inodes and the whole image *)

Definition dz : dinode :=
  {| d_type := 0; d_major := 0; d_minor := 0; d_nlink := 0; d_size := 0; d_addrs := replicate 13 0 |}.
Definition din_of (g : ghost) : dinode :=
  {| d_type := g_type g; d_major := 0; d_minor := 0; d_nlink := 1; d_size := Z.of_nat (length (g_data g));
     d_addrs := g_addrs g |}.
Definition inode_at (im : list blk) (i : nat) : dinode := get_dinode (i mod 8) (im !!! (32 + i / 8)%nat).
(** Inode [i] where the files are [gs]. *)
Definition ino (gs : list ghost) (i : nat) : dinode :=
  if i is S k then default dz (din_of <$> gs !! k) else dz.

Record full (gs : list ghost) (s : mkst) : Prop := {
  f_holds : holds gs s;
  f_tight : Forall tight gs;
  f_short : Forall (fun g => is_short (g_type g)) gs;
  f_count : freeinode s = Z.of_nat (S (length gs));
  f_ino i : (i < 208)%nat -> inode_at (img s) i = ino gs i;
  f_sb : img s !!! 1%nat = sb_block;
  f_low b : (b < 32)%nat -> b <> 1%nat -> img s !!! b = zeroes
}.

(** A write to the metadata does not touch the files. *)
Lemma holds_meta gs s b x : holds gs s -> (b < 59)%nat -> length x = 512%nat ->
  holds gs (set_img (<[b := x]> (img s)) s).
Proof.
  intros H Hb Hx. destruct (sizes_insert gs s b x H ltac:(lia) Hx) as [L1 L2]. destruct H as [[I1 I2 I3 I4 I5 I6 I7 I8] Hf].
  split; [|done]. cbn [set_img img freeblock]. split; try done.
  - rewrite Forall_forall in *. intros g Hg. apply (file_frame (img s)); [|by apply I3]. intros c Hc.
    destruct (holds_range gs g s c) as [Hr _]; [|done|done|]; [|apply list_lookup_total_insert_ne; lia].
    split; [|done]. split; try done; by rewrite Forall_forall.
  - intros c Hc. rewrite list_lookup_total_insert_ne by lia. apply I8. lia.
Qed.

Lemma IBLOCK_nat i : IBLOCK (Z.of_nat i) mksb = Z.of_nat (32 + i / 8) /\ Z.to_nat (Z.of_nat i mod IPB) = (i mod 8)%nat.
Proof. unfold IBLOCK. change (sb_inodestart mksb) with 32. change IPB with 8. split; dlia. Qed.

Lemma rinode_run gs s i : holds gs s -> (i < 208)%nat -> rinode (Z.of_nat i) s = Ok (inode_at (img s) i, s).
Proof.
  intros H Hi. destruct (IBLOCK_nat i) as [E1 E2]. unfold rinode. rewrite E1, E2.
  assert (Hb : (32 + i / 8 < 1000)%nat) by dlia. destruct (holds_len _ _ _ H Hb) as [L _].
  rewrite (bind_Ok _ _ _ _ _ (rsect_run (32 + i / 8) s ltac:(rewrite L; exact Hb))). done.
Qed.

Lemma winode_ok gs s i x : holds gs s -> (i < 208)%nat -> in_range x ->
  exists s', winode (Z.of_nat i) x s = Ok (tt, s') /\ holds gs s' /\ freeinode s' = freeinode s /\
    freeblock s' = freeblock s /\
    (forall j, (j < 208)%nat -> inode_at (img s') j = if decide (j = i) then x else inode_at (img s) j) /\
    forall b, (b < 32)%nat -> img s' !!! b = img s !!! b.
Proof.
  intros H Hi Hx. destruct (IBLOCK_nat i) as [E1 E2]. unfold winode. rewrite E1, E2.
  assert (Hb : (32 + i / 8 < 59)%nat) by dlia. destruct (holds_len _ _ (32 + i / 8) H) as [L Lb]; [lia|].
  assert (Hm : (i mod 8 < 8)%nat) by dlia.
  rewrite (bind_Ok _ _ _ _ _ (rsect_run (32 + i / 8) s ltac:(rewrite L; lia))), wsect_run by lia. eexists. split; [done|].
  split; [|split; [done|split; [done|split]]].
  - apply holds_meta; [done|done|]. apply set_dinode_length; [done|done|apply Hx].
  - intros j Hj. unfold inode_at. cbn [img set_img]. assert (Hmj : (j mod 8 < 8)%nat) by dlia.
    destruct (decide (j / 8 = i / 8)%nat) as [E|E].
    + rewrite E, list_lookup_total_insert_eq by lia. case_decide as Eji; [by subst j; apply get_set_dinode|].
      apply get_set_dinode_ne; try done; [|apply Hx]. intros Em. apply Eji. clear - E Em. dlia.
    + rewrite list_lookup_total_insert_ne by lia. case_decide as Eji; [by subst|done].
  - intros b Hb'. cbn [img set_img]. apply list_lookup_total_insert_ne. lia.
Qed.

Lemma din_range gs s g : holds gs s -> g ∈ gs -> is_short (g_type g) -> (length (g_data g) <= 140 * 512)%nat ->
  in_range (din_of g).
Proof.
  intros H Hg Ht Hl. split; cbn [din_of d_type d_major d_minor d_nlink d_size d_addrs];
    [done|unfold is_short; lia..|lia|by rewrite addrs_length|].
  - unfold g_addrs. apply Forall_app. split.
    + apply Forall_fmap, Forall_forall. intros j _. cbn. destruct (decide (j < length (g_blocks g))%nat) as [Hj|Hj].
      * destruct (addr_some gs s g j H Hg Hj) as (b & _ & -> & Hb). lia.
      * rewrite addr_none by lia. lia.
    + apply Forall_singleton. destruct (g_ind g) as [b|] eqn:E; cbn [from_option id]; [|lia].
      destruct (holds_range gs g s b H Hg); [|lia]. unfold used. rewrite E. apply elem_of_app. right. by apply list_elem_of_singleton.
Qed.

Lemma ino_change l1 g g' l2 j : ino (l1 ++ g' :: l2) j =
  if decide (j = S (length l1)) then din_of g' else ino (l1 ++ g :: l2) j.
Proof.
  unfold ino. destruct j as [|k]; [done|]. case_decide as E.
  - injection E as ->. by rewrite list_lookup_middle.
  - destruct (decide (k < length l1)%nat); [by rewrite !lookup_app_l|]. rewrite !lookup_app_r by lia.
    destruct (k - length l1)%nat eqn:Ek; [lia|]. done.
Qed.

Lemma Forall_swap {A} (P : A -> Prop) l1 x y l2 : Forall P (l1 ++ x :: l2) -> P y -> Forall P (l1 ++ y :: l2).
Proof. intros H Hy. apply Forall_app in H as [H1 H2]. apply Forall_cons in H2 as [_ H2]. apply Forall_app. split; [done|]. by constructor. Qed.

Lemma iappend_ok l1 g l2 s p : full (l1 ++ g :: l2) s -> (length l1 < 207)%nat ->
  (length (g_data g) + length p <= 140 * 512)%nat ->
  (59 + cost (length (g_data g) + length p) + length (all_used (l1 ++ l2)) <= 1000)%nat ->
  exists s' g', iappend (Z.of_nat (S (length l1))) p s = Ok (tt, s') /\ full (l1 ++ g' :: l2) s' /\
    g_data g' = g_data g ++ p /\ g_type g' = g_type g.
Proof.
  intros [H Ht Hs Hc Hi Hb Hlow] Hi1 Hmax Hroom. assert (Hg : g ∈ l1 ++ g :: l2) by (apply elem_of_app; right; left).
  assert (Htg : tight g) by (rewrite Forall_forall in Ht; by apply Ht).
  assert (Hsg : is_short (g_type g)) by (rewrite Forall_forall in Hs; by apply Hs).
  destruct (iappend_loop_ok l1 l2 (length p) p g s (din_of g) H Htg eq_refl (le_n _) Hmax Hroom)
    as (s1 & g' & E1 & H1 & [K1 K2] & T1 & D1 & Y1).
  assert (Hl' : (length (g_data g') <= 140 * 512)%nat) by (rewrite D1, length_app; done).
  destruct (winode_ok _ s1 (S (length l1)) (din_of g') H1) as (s' & E2 & H2 & F2 & B2 & I2 & L2); [lia| |].
  { apply (din_range _ s1 g' H1); [apply elem_of_app; right; left|by rewrite Y1|done]. }
  exists s', g'. split_and!; [| |done|done].
  - unfold iappend. rewrite (bind_Ok _ _ _ _ _ (rinode_run _ s (S (length l1)) H ltac:(lia))), Hi by lia.
    replace (ino (l1 ++ g :: l2) (S (length l1))) with (din_of g) by (unfold ino; by rewrite list_lookup_middle).
    cbn [din_of d_size]. rewrite xint_small by lia. rewrite (bind_Ok _ _ _ _ _ E1), xint_small by lia.
    rewrite <- E2. f_equal. unfold set_size, with_addrs, din_of. cbn. by rewrite Y1.
  - split; [done|by apply (Forall_swap _ _ g)|apply (Forall_swap _ _ g); [done|by rewrite Y1]| | | |].
    + rewrite F2, K1, Hc, !length_app. done.
    + intros j Hj. rewrite I2 by done. rewrite (ino_change l1 g). case_decide; [done|]. rewrite <- Hi by done.
      unfold inode_at. f_equal. apply K2. dlia.
    + rewrite L2, K2 by lia. done.
    + intros b Hb1 Hb2. rewrite L2, K2 by lia. by apply Hlow.
Qed.

Definition fresh (t : Z) : ghost := {| g_type := t; g_data := []; g_blocks := []; g_ind := None |}.

Lemma tight_fresh t : tight (fresh t).
Proof. split; [split; [intros _; apply Nat.le_0_l|done]|reflexivity]. Qed.

Lemma ialloc_ok gs s t : full gs s -> (length gs < 207)%nat -> 0 <= t < 2 ^ 15 ->
  exists s', ialloc t s = Ok (Z.of_nat (S (length gs)), s') /\ full (gs ++ [fresh t]) s'.
Proof.
  intros [H Ht Hs Hc Hi Hb Hlow] Hg Hr. unfold ialloc. rewrite bind_get, bind_modify, Hc.
  set (s1 := set_freeinode (u32 (Z.of_nat (S (length gs)) + 1)) s).
  assert (H0 : holds (gs ++ [fresh t]) s1).
  { destruct H as [[I1 I2 I3 I4 I5 I6 I7 I8] Hf]. split; [|done]. subst s1. cbn [set_freeinode img freeblock].
    assert (Hu : all_used (gs ++ [fresh t]) = all_used gs).
    { unfold all_used. rewrite fmap_app, concat_app. cbn. apply app_nil_r. }
    split; rewrite ?Hu; try done. apply Forall_app. split; [done|]. apply Forall_singleton. split; cbn; [lia|lia|done|lia]. }
  destruct (winode_ok _ s1 (S (length gs)) (din_of (fresh t)) H0) as (s' & E2 & H2 & F2 & B2 & I2 & L2); [lia| |].
  { apply (din_range _ s1 _ H0); [apply elem_of_app; right; by apply list_elem_of_singleton|unfold is_short; cbn [fresh g_type]; lia|apply Nat.le_0_l]. }
  exists s'. rewrite (bind_Ok _ _ _ tt s'); [split; [done|]|].
  - split; [done|apply Forall_app; split; [done|]; apply Forall_singleton, tight_fresh| | | | |].
    + apply Forall_app; split; [done|]. apply Forall_singleton. unfold is_short. cbn. lia.
    + rewrite F2. subst s1. cbn. rewrite length_app, u32_small by lia. cbn. lia.
    + intros j Hj. rewrite I2 by done. change (img s1) with (img s). case_decide as E.
      * subst j. unfold ino. by rewrite list_lookup_middle.
      * rewrite Hi by done. unfold ino. destruct j as [|k]; [done|]. destruct (decide (k < length gs)%nat); [by rewrite lookup_app_l|].
        by rewrite !lookup_ge_None_2 by (rewrite ?length_app; cbn; lia).
    + by rewrite L2 by lia.
    + intros b Hb1 Hb2. rewrite L2 by lia. by apply Hlow.
  - rewrite <- E2. f_equal. rewrite xshort_small by lia. done.
Qed.

(** ** The files of the command line *)

Lemma append_chunks_ok l1 l2 cs : forall g s, full (l1 ++ g :: l2) s -> (length l1 < 207)%nat ->
  (length (g_data g) + length (concat cs) <= 140 * 512)%nat ->
  (59 + cost (length (g_data g) + length (concat cs)) + length (all_used (l1 ++ l2)) <= 1000)%nat ->
  exists s' g', append_chunks (Z.of_nat (S (length l1))) cs s = Ok (tt, s') /\ full (l1 ++ g' :: l2) s' /\
    g_data g' = g_data g ++ concat cs /\ g_type g' = g_type g.
Proof.
  induction cs as [|c cs IH]; intros g s H Hl Hmax Hroom.
  { exists s, g. cbn [concat append_chunks]. by rewrite app_nil_r. }
  cbn [concat append_chunks] in *. rewrite length_app in *.
  pose proof (cost_mono (length (g_data g) + length c) (length (g_data g) + (length c + length (concat cs))) ltac:(lia)).
  destruct (iappend_ok l1 g l2 s c H Hl) as (s1 & g1 & E1 & H1 & D1 & Y1); [lia|lia|].
  destruct (IH g1 s1 H1 Hl) as (s' & g' & E2 & H2 & D2 & Y2); [rewrite D1, length_app, <- ?Nat.add_assoc; done..|].
  exists s', g'. rewrite (bind_Ok _ _ _ _ _ E1). split_and!; [done|done| |congruence]. by rewrite D2, D1, <- app_assoc.
Qed.

(** The entries of the files in the root directory, from inode [k] on. *)
Fixpoint dir_entries (k : nat) (names : list (list Z)) : list Z :=
  match names with
  | [] => []
  | n :: names => mk_dirent (Z.of_nat k) (name_bytes n) ++ dir_entries (S k) names
  end.

Definition opened (f : list Z * list (list Z)) : list Z * option (list (list Z)) := (f.1, Some f.2).
Definition contents (f : list Z * list (list Z)) : list Z := concat f.2.
Definition files_cost (files : list (list Z * list (list Z))) : nat :=
  sum_list ((fun f => cost (length (contents f))) <$> files).
(** A name without slashes, and contents that fit in a file. *)
Definition good_file (f : list Z * list (list Z)) : Prop :=
  existsb (Z.eqb 47) f.1 = false /\ (length (contents f) <= 140 * 512)%nat.
Definition is_file (f : list Z * list (list Z)) (g : ghost) : Prop :=
  g_type g = T_FILE /\ g_data g = contents f.

Lemma mk_dirent_length k n : length (mk_dirent k (name_bytes n)) = 16%nat.
Proof. unfold mk_dirent, name_bytes. rewrite length_app, to_le_length, length_strncpy. done. Qed.

Lemma dir_entries_length k names : length (dir_entries k names) = (16 * length names)%nat.
Proof.
  revert k. induction names as [|n names IH]; intros k; [done|]. cbn [dir_entries length].
  rewrite length_app, mk_dirent_length, IH. lia.
Qed.

Lemma all_used_cons g gs : length (all_used (g :: gs)) = (length (used g) + length (all_used gs))%nat.
Proof. unfold all_used. rewrite fmap_cons. cbn [concat]. by rewrite length_app. Qed.
Lemma all_used_snoc g gs : length (all_used (gs ++ [g])) = (length (used g) + length (all_used gs))%nat.
Proof. unfold all_used. rewrite fmap_app, concat_app, length_app. cbn. rewrite app_nil_r. lia. Qed.

Lemma add_file_ok r gs s f : full (r :: gs) s -> (length gs < 206)%nat -> good_file f ->
  (length (g_data r) + 16 <= 140 * 512)%nat ->
  (59 + cost (length (g_data r) + 16) + length (all_used gs) + cost (length (contents f)) <= 1000)%nat ->
  exists s' r' g, add_file 1 (opened f) s = Ok (tt, s') /\ full (r' :: gs ++ [g]) s' /\
    g_data r' = g_data r ++ mk_dirent (Z.of_nat (S (S (length gs)))) (name_bytes f.1) /\ g_type r' = g_type r /\ is_file f g.
Proof.
  intros H Hl [Hn Hc] Hr Hroom. unfold add_file, opened. cbn [fst snd]. rewrite Hn.
  destruct (ialloc_ok _ s T_FILE H) as (s1 & E1 & H1); [cbn; lia|done|]. rewrite (bind_Ok _ _ _ _ _ E1). cbn [length].
  rewrite xshort_small by lia.
  pose proof (mk_dirent_length (Z.of_nat (S (S (length gs)))) f.1) as Hde. set (de := mk_dirent _ _) in *.
  destruct (iappend_ok [] r (gs ++ [fresh T_FILE]) s1 de H1) as (s2 & r' & E2 & H2 & D2 & Y2); [cbn; lia|by rewrite Hde| |].
  { cbn [app]. rewrite Hde, all_used_snoc. change (length (used (fresh T_FILE))) with 0%nat. lia. }
  change 1 with (Z.of_nat (S (length (@nil ghost)))) at 1. rewrite (bind_Ok _ _ _ _ _ E2).
  destruct (append_chunks_ok (r' :: gs) [] f.2 (fresh T_FILE) s2 H2) as (s3 & g & E3 & H3 & D3 & Y3); [cbn; lia|exact Hc| |].
  { rewrite app_nil_r, all_used_cons, used_cost, D2, length_app, Hde.
    - cbn [fresh g_data length Nat.add]. fold (contents f). lia.
    - pose proof (f_tight _ _ H2) as Ht. by apply Forall_cons in Ht as [Ht _]. }
  exists s3, r', g. split_and!; [exact E3|exact H3|done|done|by split].
Qed.

Lemma add_files_ok files : forall r gs s, full (r :: gs) s -> (length gs + length files < 207)%nat ->
  Forall good_file files -> (length (g_data r) + 16 * length files <= 140 * 512)%nat ->
  (59 + cost (length (g_data r) + 16 * length files) + length (all_used gs) + files_cost files <= 1000)%nat ->
  exists s' r' gs', add_files 1 (opened <$> files) s = Ok (tt, s') /\ full (r' :: gs ++ gs') s' /\
    g_data r' = g_data r ++ dir_entries (S (S (length gs))) (fst <$> files) /\ g_type r' = g_type r /\
    Forall2 is_file files gs'.
Proof.
  induction files as [|f files IH]; intros r gs s H Hl Hf Hr Hroom.
  { exists s, r, []. cbn [fmap list_fmap add_files dir_entries]. rewrite !app_nil_r. split_and!; done. }
  apply Forall_cons in Hf as [Hf Hfs]. cbn [length] in Hl, Hr, Hroom.
  assert (Hcs : files_cost (f :: files) = (cost (length (contents f)) + files_cost files)%nat) by done. rewrite Hcs in Hroom.
  pose proof (cost_mono (length (g_data r) + 16) (length (g_data r) + 16 * S (length files)) ltac:(lia)).
  destruct (add_file_ok r gs s f H) as (s1 & r1 & g & E1 & H1 & D1 & Y1 & F1); [lia|done|lia|lia|].
  assert (Hlr : length (g_data r1) = (length (g_data r) + 16)%nat) by by rewrite D1, length_app, mk_dirent_length.
  assert (Htg : tight g).
  { pose proof (f_tight _ _ H1) as Ht. apply Forall_cons in Ht as [_ Ht]. apply Forall_app in Ht as [_ Ht].
    by rewrite Forall_singleton in Ht. }
  destruct (IH r1 (gs ++ [g]) s1 H1) as (s' & r' & gs' & E2 & H2 & D2 & Y2 & F2); [rewrite length_app; cbn; lia|done|lia| |].
  { rewrite all_used_snoc, used_cost, (proj2 F1), Hlr by done.
    replace (length (g_data r) + 16 + 16 * length files)%nat with (length (g_data r) + 16 * S (length files))%nat by lia. lia. }
  exists s', r', (g :: gs'). cbn [fmap list_fmap add_files]. rewrite (bind_Ok _ _ _ _ _ E1). split_and!.
  - exact E2.
  - by rewrite <- app_assoc in H2.
  - rewrite D2, D1, <- app_assoc, length_app, Nat.add_1_r. done.
  - congruence.
  - by constructor.
Qed.

(** ** The empty image *)

Lemma write_zeroes_ok n : forall s i, length (img s) = i ->
  write_zeroes n (Z.of_nat i) s = Ok (tt, set_img (img s ++ replicate n zeroes) s).
Proof.
  induction n as [|n IH]; intros s i Hl; cbn [write_zeroes replicate].
  { by rewrite app_nil_r, set_img_id. }
  assert (E : wsect (Z.of_nat i) zeroes s = Ok (tt, set_img (img s ++ [zeroes]) s)).
  { unfold wsect, modify. rewrite Nat2Z.id, Hl. destruct (Nat.ltb_spec i i); [lia|]. by rewrite Nat.sub_diag. }
  rewrite (bind_Ok _ _ _ _ _ E). replace (Z.of_nat i + 1) with (Z.of_nat (S i)) by lia.
  rewrite IH by (cbn [img set_img]; rewrite length_app; cbn; lia). cbn [img set_img]. by rewrite <- app_assoc.
Qed.

Definition empty_image : mkst :=
  {| img := <[1%nat := sb_block]> (replicate 1000 zeroes); freeinode := 1; freeblock := 59 |}.

Lemma get_dinode_zeroes k : (k < 8)%nat -> get_dinode k zeroes = dz.
Proof. intros Hk. do 8 (destruct k as [|k]; [reflexivity|]). lia. Qed.

Lemma empty_at b : (b < 1000)%nat -> b <> 1%nat -> img empty_image !!! b = zeroes.
Proof.
  intros Hb Hne. unfold empty_image, img. rewrite list_lookup_total_insert_ne by congruence.
  by apply lookup_total_replicate_2.
Qed.

Lemma empty_sb : img empty_image !!! 1%nat = sb_block.
Proof. unfold empty_image, img. apply list_lookup_total_insert_eq. rewrite length_replicate. lia. Qed.

Lemma empty_holds : holds [] empty_image.
Proof.
  split; [|apply Z.leb_le; reflexivity]. change (Z.to_nat (freeblock empty_image)) with 59%nat. split.
  - unfold empty_image, img. by rewrite length_insert, length_replicate.
  - intros b Hb. destruct (decide (b = 1%nat)) as [->|]; [by rewrite empty_sb|by rewrite empty_at].
  - apply Forall_nil_2.
  - apply NoDup_nil_2.
  - apply Forall_nil_2.
  - reflexivity.
  - apply Nat.leb_le. reflexivity.
  - intros b Hb. apply empty_at; lia.
Qed.

Lemma empty_full : full [] empty_image.
Proof.
  split; [apply empty_holds|apply Forall_nil_2|apply Forall_nil_2|reflexivity| |apply empty_sb|].
  - intros i Hi. unfold inode_at. rewrite empty_at, get_dinode_zeroes by dlia. unfold ino. by destruct i.
  - intros b Hb Hne. apply empty_at; [lia|done].
Qed.

(** ** The free map *)

Lemma insert_alter {A} `{Inhabited A} (f : A -> A) k (l : list A) : <[k := f (l !!! k)]> l = alter f k l.
Proof.
  apply list_eq. intros j. rewrite list_lookup_insert, list_lookup_alter. destruct (decide (k = j)) as [->|Hne].
  - destruct (decide (j < length l)%nat) as [Hl|Hl].
    + rewrite decide_True by done. destruct (lookup_lt_is_Some_2 _ _ Hl) as [x E].
      by rewrite (list_lookup_total_correct _ _ _ E), E.
    + rewrite decide_False by tauto. by rewrite lookup_ge_None_2 by lia.
  - rewrite decide_False by tauto. done.
Qed.

Lemma balloc_bits_ok n : Z.of_nat n <= BPB ->
  length (balloc_bits n zeroes) = 512%nat /\
  forall bi, 0 <= bi < BPB -> bit_free (balloc_bits n zeroes) bi = (Z.of_nat n <=? bi).
Proof.
  induction n as [|n IH]; intros Hn; cbn [balloc_bits].
  - split; [done|]. intros bi Hbi. change BPB with 4096 in Hbi. unfold bit_free, zeroes.
    rewrite lookup_total_replicate_2 by (change (Z.to_nat BSIZE) with 512%nat; dlia). cbn. symmetry. apply Z.leb_le. lia.
  - destruct IH as [L1 L2]; [lia|]. rewrite (insert_alter (fun x => Z.lor x (Z.shiftl 1 (Z.of_nat n mod 8)))).
    fold (bitmask (Z.of_nat n)). fold (bit_set (balloc_bits n zeroes) (Z.of_nat n)). split.
    + unfold bit_set. by rewrite length_alter.
    + intros bi Hbi. rewrite bit_free_set, L2 by (try done; lia).
      case_decide; destruct (Z.leb_spec (Z.of_nat n) bi), (Z.leb_spec (Z.of_nat (S n)) bi); try done; lia.
Qed.

(** ** main *)

Definition rsize (r : ghost) : Z := (Z.of_nat (length (g_data r)) / BSIZE + 1) * BSIZE.

(** The finished image: the root directory is [r], the files are [gs]. *)
Record built (r : ghost) (gs : list ghost) (s : mkst) : Prop := {
  b_holds : holds (r :: gs) s;
  b_tight : Forall tight (r :: gs);
  b_ino i : (i < 208)%nat ->
    inode_at (img s) i = if decide (i = 1%nat) then set_size (rsize r) (din_of r) else ino (r :: gs) i;
  b_sb : img s !!! 1%nat = sb_block;
  b_low b : (b < 32)%nat -> b <> 1%nat -> img s !!! b = zeroes;
  b_map : img s !!! 58%nat = balloc_bits (Z.to_nat (freeblock s)) zeroes
}.

Definition root_entries (names : list (list Z)) : list Z :=
  mk_dirent 1 dot ++ mk_dirent 1 dotdot ++ dir_entries 2 names.

Lemma balloc_run gs s : holds gs s ->
  Mkfs.balloc (freeblock s) s =
  Ok (tt, set_img (<[58%nat := balloc_bits (Z.to_nat (freeblock s)) zeroes]> (img s)) s).
Proof.
  intros H. pose proof (di_top _ _ _ (proj1 H)). unfold Mkfs.balloc. change (BSIZE * 8) with 4096.
  destruct (Z.ltb_spec (freeblock s) 4096); [|lia]. cbn [negb]. change (sb_bmapstart mksb) with (Z.of_nat 58).
  apply wsect_run. rewrite (proj1 (holds_len _ _ 58 H ltac:(lia))). lia.
Qed.

(** From the fixing of the size of the root directory on. *)
Lemma finish_ok r gs s : full (r :: gs) s -> (length (g_data r) <= 139 * 512)%nat ->
  exists s',
    (let! din := rinode 1 in
     let off := xint (d_size din) in
     let off := u32 ((off / BSIZE + 1) * BSIZE) in
     do! winode 1 (set_size (xint off) din) in
     let! s := get in
     Mkfs.balloc (freeblock s)) s = Ok (tt, s') /\ built r gs s'.
Proof.
  intros [H Ht Hs Hc Hi Hb Hlow] Hl. assert (Hin : r ∈ r :: gs) by left.
  assert (Hrs : 0 <= rsize r < 2 ^ 31) by (unfold rsize; change BSIZE with 512; dlia).
  assert (Hrg : in_range (din_of r)).
  { apply (din_range _ s r H Hin); [|lia]. by apply Forall_cons in Hs as [Hs _]. }
  destruct (winode_ok _ s 1 (set_size (rsize r) (din_of r)) H) as (s1 & E1 & H1 & F1 & B1 & I1 & L1); [lia| |].
  { destruct Hrg as [R1 R2 R3 R4 R5 R6 R7]. split; try done. cbn [set_size d_size]. lia. }
  exists (set_img (<[58%nat := balloc_bits (Z.to_nat (freeblock s1)) zeroes]> (img s1)) s1). split.
  - change (rinode 1) with (rinode (Z.of_nat 1)). change (winode 1) with (winode (Z.of_nat 1)). rewrite (bind_Ok _ _ _ _ _ (rinode_run _ s 1 H ltac:(lia))), Hi by lia.
    cbn [ino lookup list_lookup fmap option_fmap option_map from_option id din_of d_size].
    rewrite (xint_small (Z.of_nat _)) by lia. fold (rsize r). rewrite u32_small, xint_small by lia. fold (din_of r).
    rewrite (bind_Ok _ _ _ _ _ E1), bind_get. by apply (balloc_run (r :: gs)).
  - destruct (balloc_bits_ok (Z.to_nat (freeblock s1))) as [Lb _].
    { pose proof (di_top _ _ _ (proj1 H1)). change BPB with 4096. lia. }
    split; [by apply holds_meta; [|lia|]|done| | | |]; cbn [img set_img].
    + intros i Hi'. unfold inode_at. cbn [img set_img]. rewrite list_lookup_total_insert_ne by dlia.
      fold (inode_at (img s1) i). rewrite I1 by done. case_decide; [done|by apply Hi].
    + rewrite list_lookup_total_insert_ne, L1 by lia. done.
    + intros b Hb1 Hb2. rewrite list_lookup_total_insert_ne, L1 by lia. by apply Hlow.
    + rewrite list_lookup_total_insert_eq; [done|]. rewrite (proj1 (holds_len _ _ 58 H1 ltac:(lia))). lia.
Qed.

Lemma mkfs_run files : (length files <= 198)%nat -> Forall good_file files ->
  (59 + cost (32 + 16 * length files) + files_cost files <= 1000)%nat ->
  exists s r gs, mkfs (opened <$> files) mkst0 = Ok (tt, s) /\ built r gs s /\
    g_data r = root_entries (fst <$> files) /\ g_type r = T_DIR /\ Forall2 is_file files gs.
Proof.
  intros Hn Hf Hroom. unfold mkfs. rewrite bind_modify. change nmeta with 59.
  rewrite (bind_Ok _ _ _ _ _ (write_zeroes_ok (Z.to_nat FSSIZE) (set_freeblock 59 mkst0) 0 eq_refl)).
  cbn [img set_freeblock mkst0 app]. change (Z.to_nat FSSIZE) with 1000%nat.
  set (s0 := set_img _ _). assert (E0 : wsect (Z.of_nat 1) sb_block s0 = Ok (tt, empty_image)).
  { rewrite wsect_run; [done|]. subst s0. cbn [img set_img]. rewrite length_replicate. lia. }
  change (wsect 1) with (wsect (Z.of_nat 1)). rewrite (bind_Ok _ _ _ _ _ E0).
  destruct (ialloc_ok [] empty_image T_DIR empty_full) as (s1 & E1 & H1); [cbn; lia|done|].
  rewrite (bind_Ok _ _ _ _ _ E1). change (Z.of_nat (S (length (@nil ghost)))) with 1. change (1 =? ROOTINO) with true. cbn [negb].
  change (xshort 1) with 1. cbn [app] in H1.
  destruct (iappend_ok [] (fresh T_DIR) [] s1 (mk_dirent 1 dot) H1) as (s2 & r2 & E2 & H2 & D2 & Y2); [cbn; lia| | |].
  { apply Nat.leb_le. reflexivity. }
  { apply Nat.leb_le. vm_compute. reflexivity. }
  cbn [fresh g_data g_type app] in D2, Y2.
  destruct (iappend_ok [] r2 [] s2 (mk_dirent 1 dotdot) H2) as (s3 & r3 & E3 & H3 & D3 & Y3); [cbn; lia| | |].
  { rewrite D2. apply Nat.leb_le. reflexivity. }
  { rewrite D2. apply Nat.leb_le. vm_compute. reflexivity. }
  change (Z.of_nat (S (length (@nil ghost)))) with 1 in E2, E3.
  rewrite (bind_Ok _ _ _ _ _ E2), (bind_Ok _ _ _ _ _ E3).
  assert (L3 : length (g_data r3) = 32%nat) by by rewrite D3, D2.
  destruct (add_files_ok files r3 [] s3 H3) as (s4 & r & gs & E4 & H4 & D4 & Y4 & F4); [cbn; lia|done|lia|rewrite L3; change (length (all_used [])) with 0%nat; lia|].
  rewrite (bind_Ok _ _ _ _ _ E4).
  destruct (finish_ok r gs s4 H4) as (s5 & E5 & H5).
  { rewrite D4, length_app, L3, dir_entries_length, length_fmap. lia. }
  exists s5, r, gs. split_and!; [exact E5|done| |congruence|done].
  rewrite D4, D3, D2, <- app_assoc. done.
Qed.
