(* ===== verification/MkfsImage.v ===== *)
(** * The kernel's view of the image mkfs builds

    On the image the super block, the log, the free map and the inodes are
    well-formed as the kernel needs them, and reading a file in the way the
    kernel does gives its contents. *)

From Stdlib Require Import ZifyNat.
From S2P Require Import Prelude Param Bytes Memory Sleeplock Log LogInv Blocks Fs FsInodes FsBlocks FsFiles Mkfs MkfsSpec.

(** ** Reading a file *)

(** A view of the blocks after the log, with none held. *)
Record sees (im : list blk) (V : dview) : Prop := {
  se_lo : dv_lo V = 32;
  se_n : dv_n V = 1000;
  se_held : dv_held V = ∅;
  se_at b : (32 <= b < 1000)%nat -> dv V (Z.of_nat b) = im !!! b
}.

Lemma bytes_at im bs k r b : (forall c, c ∈ bs -> length (im !!! c) = 512%nat) -> bs !! k = Some b -> (r < 512)%nat ->
  bytes_of im bs !!! (512 * k + r)%nat = (im !!! b) !!! r.
Proof.
  revert k. induction bs as [|c bs IH]; intros k Hs Hk Hr; [done|]. unfold bytes_of. cbn [fmap list_fmap concat].
  fold (bytes_of im bs). assert (Hc : length (im !!! c) = 512%nat) by (apply Hs; left). destruct k as [|k].
  - injection Hk as ->. rewrite Nat.mul_0_r, Nat.add_0_l. apply lookup_total_app_l. lia.
  - rewrite lookup_total_app_r by lia. replace (512 * S k + r - length (im !!! c))%nat with (512 * k + r)%nat by lia.
    apply IH; [|done|done]. intros d Hd. apply Hs. by right.
Qed.

Section Read.
Context (gs : list ghost) (s : mkst) (V : dview) (g : ghost) (d : dinode).
Hypothesis (H : holds gs s) (Hg : g ∈ gs) (Ht : tight_ind g) (Hf : file_ok (img s) g) (HV : sees (img s) V)
  (Hd : d_addrs d = g_addrs g).

Lemma ind_some : (12 < length (g_blocks g))%nat -> exists ib, g_ind g = Some ib /\ (59 <= ib < 1000)%nat.
Proof.
  intros Hl. destruct (g_ind g) as [ib|] eqn:E; [|destruct Ht as [Ht1 _]; specialize (Ht1 E); lia].
  exists ib. split; [done|]. apply (holds_range gs g s ib H Hg). unfold used. rewrite E. apply elem_of_app. right.
  by apply list_elem_of_singleton.
Qed.

Lemma blkaddr_at k : (k < length (g_blocks g))%nat -> blkaddr V d (Z.of_nat k) = Z.of_nat (g_addr g k).
Proof.
  intros Hk. unfold blkaddr. change NDIRECT with 12. rewrite Hd. destruct (Z.ltb_spec (Z.of_nat k) 12).
  - rewrite Nat2Z.id. apply addrs_direct. lia.
  - destruct ind_some as (ib & E & Hib); [lia|]. pose proof (fo_ind _ _ Hf) as Hi. pose proof (fo_len _ _ Hf). rewrite E in Hi.
    change (Z.to_nat 12) with 12%nat. rewrite addrs_ind, E. cbn [from_option id]. rewrite (se_at _ _ HV) by lia.
    rewrite Hi by lia. do 2 f_equal. lia.
Qed.

Lemma fread_at n : (n <= 512 * length (g_blocks g))%nat -> fread V d 0 n = take n (bytes_of (img s) (g_blocks g)).
Proof.
  intros Hn. assert (Hs : forall c, c ∈ g_blocks g -> length (img s !!! c) = 512%nat).
  { intros c Hc. apply (holds_len gs s c H). apply (holds_range gs g s c H Hg). apply elem_of_app. by left. }
  assert (Hl : length (bytes_of (img s) (g_blocks g)) = (512 * length (g_blocks g))%nat) by by apply bytes_length.
  apply list_eq_same_length with n; unfold fread.
  - by rewrite length_take, Hl, Nat.min_l.
  - by rewrite length_fmap, length_seq.
  - intros i x y Hi Hx Hy. rewrite list_lookup_fmap, lookup_seq_lt in Hx by done. injection Hx as <-.
    rewrite lookup_take in Hy. rewrite decide_True in Hy by done. apply list_lookup_total_correct in Hy as <-. cbn [Nat.add].
    unfold fbyte. rewrite Z.add_0_l. change BSIZE with 512.
    replace (Z.of_nat i / 512) with (Z.of_nat (i / 512)) by dlia. replace (Z.to_nat (Z.of_nat i mod 512)) with (i mod 512)%nat by dlia.
    assert (Hk : (i / 512 < length (g_blocks g))%nat) by dlia. rewrite blkaddr_at by done.
    destruct (addr_some gs s g (i / 512) H Hg Hk) as (b & Hb & -> & Hr). rewrite (se_at _ _ HV) by lia.
    rewrite (Nat.div_mod_eq i 512) at 2. symmetry. apply bytes_at; [done|done|dlia].
Qed.

Lemma wf_at ip : i_dev ip = ROOTDEV -> i_d ip = d -> 0 <= d_size d <= Z.of_nat (512 * length (g_blocks g)) -> wf_file V ip.
Proof.
  intros Hdev Hi Hs. pose proof (fo_len _ _ Hf). split; rewrite ?Hi; unfold isize; rewrite ?Hi; [done| | |].
  - change (MAXFILE * BSIZE) with 71680. lia.
  - intros k Hk Hlt. change BSIZE with 512 in Hlt. replace k with (Z.of_nat (Z.to_nat k)) by lia. rewrite blkaddr_at by lia.
    destruct (addr_some gs s g (Z.to_nat k) H Hg) as (b & _ & -> & Hb); [lia|].
    unfold good_blk. rewrite (se_n _ _ HV), (se_held _ _ HV). split; [lia|set_solver].
  - change (NDIRECT * BSIZE) with 6144. intros Hlt. destruct ind_some as (ib & E & Hib); [lia|].
    rewrite Hd. change (Z.to_nat NDIRECT) with 12%nat. rewrite addrs_ind, E. cbn [from_option id].
    unfold good_blk. rewrite (se_n _ _ HV), (se_held _ _ HV). split; [lia|set_solver].
Qed.
End Read.

(** ** The file system *)

Definition on_disk (V : dview) (i : nat) : dinode :=
  get_dinode (Z.to_nat (Z.of_nat i mod IPB)) (dv V (IBLOCK (Z.of_nat i) mksb)).

(** Inode [i] is a file of type [t] with contents [data], that the kernel can
    read. *)
Record file_on (V : dview) (i : nat) (t : Z) (data : list Z) : Prop := {
  fn_type : d_type (on_disk V i) = t;
  fn_nlink : d_nlink (on_disk V i) = 1;
  fn_size : d_size (on_disk V i) = Z.of_nat (length data);
  fn_wf ip : i_dev ip = ROOTDEV -> i_d ip = on_disk V i -> wf_file V ip;
  fn_read : fread V (on_disk V i) 0 (length data) = data
}.

(** Zeros up to the end of the last block. *)
Definition pad (l : list Z) : list Z := l ++ replicate ((length l / 512 + 1) * 512 - length l) 0.

Definition file_block (V : dview) (i k : nat) : Z := blkaddr V (on_disk V i) (Z.of_nat k).
Definition has_block (V : dview) (i k : nat) : Prop := Z.of_nat k * BSIZE < d_size (on_disk V i).

(** The first free block. *)
Definition first_free (files : list (list Z * list (list Z))) : nat :=
  (59 + cost (32 + 16 * length files) + files_cost files)%nat.

Record fs_ok (files : list (list Z * list (list Z))) (V : dview) : Prop := {
  fk_sb : wf_sb mksb V;
  fk_free b : 0 <= b < FSSIZE -> bfreeV V mksb b = (Z.of_nat (first_free files) <=? b);
  fk_root : file_on V 1 T_DIR (pad (root_entries (fst <$> files)));
  fk_files i f : files !! i = Some f -> file_on V (2 + i) T_FILE (contents f);
  fk_inodes i : i = 0%nat \/ (2 + length files <= i < 200)%nat -> itypeV V mksb (Z.of_nat i) = 0;
  fk_own i j k l : (1 <= i < 2 + length files)%nat -> (1 <= j < 2 + length files)%nat -> has_block V i k -> has_block V j l ->
    bfreeV V mksb (file_block V i k) = false /\ (file_block V i k = file_block V j l -> i = j /\ k = l)
}.

Record image_ok (files : list (list Z * list (list Z))) (im : list blk) : Prop := {
  io_len : length im = Z.to_nat FSSIZE;
  io_disk : wf_disk 2 LOGSIZE im;
  io_log : hdr_n 2 im = 0;
  io_sb : sb_of_block (im !!! 1%nat) = mksb;
  io_fs V : sees im V -> fs_ok files V
}.

Lemma concat_inj (ls : list (list nat)) : forall i j a b x xs ys, NoDup (concat ls) -> ls !! i = Some xs -> ls !! j = Some ys ->
  xs !! a = Some x -> ys !! b = Some x -> i = j /\ a = b.
Proof.
  assert (Hin : forall (l : list (list nat)) i xs a x, l !! i = Some xs -> xs !! a = Some x -> x ∈ concat l).
  { intros l i xs a x Hi Ha. rewrite list_elem_of_In, in_concat. exists xs. rewrite <- !list_elem_of_In.
    split; by eapply list_elem_of_lookup_2. }
  induction ls as [|l ls IH]; intros i j a b x xs ys Hn Hi Hj Ha Hb; [done|].
  cbn [concat] in Hn. apply NoDup_app in Hn as (N1 & N2 & N3). destruct i as [|i], j as [|j]; cbn in Hi, Hj.
  - injection Hi as <-. injection Hj as <-. split; [done|]. exact (NoDup_lookup l a b x N1 Ha Hb).
  - injection Hi as <-. destruct (N2 x); [by eapply list_elem_of_lookup_2|by eapply Hin].
  - injection Hj as <-. destruct (N2 x); [by eapply list_elem_of_lookup_2|by eapply Hin].
  - destruct (IH i j a b x xs ys) as [-> ->]; done.
Qed.

Section Image.
Context (files : list (list Z * list (list Z))) (s : mkst) (r : ghost) (gs : list ghost).
Hypothesis (B : built r gs s) (Hr : g_data r = root_entries (fst <$> files)) (Hty : g_type r = T_DIR)
  (HF : Forall2 is_file files gs) (Hn : (length files <= 198)%nat) (Hfull : ((2 + length files) mod 32 <> 0)%nat).

Lemma root_len : length (g_data r) = (32 + 16 * length files)%nat.
Proof.
  rewrite Hr. unfold root_entries. rewrite !length_app, dir_entries_length, length_fmap.
  change (length (mk_dirent 1 dot)) with 16%nat. change (length (mk_dirent 1 dotdot)) with 16%nat. lia.
Qed.

Lemma gs_len : length gs = length files.
Proof. symmetry. by eapply Forall2_length. Qed.

Lemma all_used_cost : length (all_used gs) = files_cost files.
Proof.
  pose proof (b_tight _ _ _ B) as Ht. apply Forall_cons in Ht as [_ Ht]. clear - HF Ht.
  induction HF as [|f g files gs [_ Hd] HF' IH]; [done|]. apply Forall_cons in Ht as [Hg Ht].
  rewrite all_used_cons, IH, used_cost, Hd by done. done.
Qed.

Lemma free_at : freeblock s = Z.of_nat (first_free files).
Proof.
  destruct (b_holds _ _ _ B) as [Hi Hf]. pose proof (di_count _ _ _ Hi) as Hc. pose proof (b_tight _ _ _ B) as Ht.
  apply Forall_cons in Ht as [Ht _]. rewrite all_used_cons, used_cost, root_len, all_used_cost in Hc by done.
  unfold first_free. lia.
Qed.

Lemma image_disk : length (img s) = 1000%nat /\ wf_disk 2 LOGSIZE (img s) /\ hdr_n 2 (img s) = 0 /\
  sb_of_block (img s !!! 1%nat) = mksb.
Proof.
  pose proof (b_holds _ _ _ B) as H. destruct (holds_len _ _ 0 H ltac:(lia)) as [L _].
  assert (Hsb : sb_of_block (img s !!! 1%nat) = mksb) by (rewrite (b_sb _ _ _ B); vm_compute; reflexivity).
  assert (Hl : hdr_n 2 (img s) = 0) by (unfold hdr_n; rewrite (b_low _ _ _ B) by lia; reflexivity).
  split_and!; [done| |done|done].
  apply wf_empty; [lia|done|rewrite L; split; [apply Z.leb_le|apply Z.ltb_lt]; reflexivity| |by rewrite Hsb|done].
  apply Forall_lookup. intros b x Hb. pose proof (lookup_lt_Some _ _ _ Hb). apply list_lookup_total_correct in Hb as <-.
  apply (holds_len _ _ b H). lia.
Qed.

Context (V : dview).
Hypothesis (HV : sees (img s) V).

Lemma on_disk_at i : (i < 208)%nat -> on_disk V i = inode_at (img s) i.
Proof.
  intros Hi. destruct (IBLOCK_nat i) as [E1 E2]. unfold on_disk, inode_at. rewrite E1, E2, (se_at _ _ HV) by dlia. done.
Qed.

Lemma free_map b : 0 <= b < FSSIZE -> bfreeV V mksb b = (Z.of_nat (first_free files) <=? b).
Proof.
  change FSSIZE with 1000. intros Hb. unfold bfreeV, BBLOCK. change (sb_bmapstart mksb) with 58. change BPB with 4096.
  rewrite Z.div_small, Z.mod_small by lia. change (0 + 58) with (Z.of_nat 58). rewrite (se_at _ _ HV) by lia.
  pose proof (di_top _ _ _ (proj1 (b_holds _ _ _ B))). pose proof (proj2 (b_holds _ _ _ B)).
  destruct (balloc_bits_ok (Z.to_nat (freeblock s))) as [_ Hm]; [change BPB with 4096; lia|].
  rewrite (b_map _ _ _ B), Hm by (change BPB with 4096; lia). by rewrite free_at, Nat2Z.id.
Qed.

Lemma image_sb : wf_sb mksb V.
Proof.
  split; rewrite ?(se_lo _ _ HV), ?(se_n _ _ HV); try (vm_compute; done); try (split; vm_compute; done).
  intros b Hb. rewrite free_map by done. unfold first_free. intros Hle%Z.leb_le. change (datastart mksb) with 59. lia.
Qed.

(** Inode [S i] holds the file [g], with [sz] bytes. *)
Lemma ghost_at i g : (r :: gs) !! i = Some g ->
  (i < 208)%nat /\ g ∈ r :: gs /\ tight g /\ file_ok (img s) g /\ d_addrs (on_disk V (S i)) = g_addrs g /\
  d_type (on_disk V (S i)) = g_type g /\ d_nlink (on_disk V (S i)) = 1 /\
  d_size (on_disk V (S i)) = if decide (i = 0%nat) then rsize r else Z.of_nat (length (g_data g)).
Proof.
  intros Hi. pose proof (lookup_lt_Some _ _ _ Hi) as Hl. cbn [length] in Hl. rewrite gs_len in Hl.
  assert (Hin : g ∈ r :: gs) by by eapply list_elem_of_lookup_2.
  split; [lia|]. split; [done|]. split; [pose proof (b_tight _ _ _ B) as Ht; rewrite Forall_forall in Ht; by apply Ht|].
  split; [pose proof (di_files _ _ _ (proj1 (b_holds _ _ _ B))) as Ht; rewrite Forall_forall in Ht; by apply Ht|].
  rewrite on_disk_at, (b_ino _ _ _ B) by lia. destruct i as [|i].
  - injection Hi as <-. rewrite !decide_True by done. done.
  - rewrite !decide_False by done. unfold ino. by rewrite Hi.
Qed.

Lemma root_blocks : length (g_blocks r) = (length (g_data r) / 512 + 1)%nat.
Proof.
  pose proof (b_tight _ _ _ B) as Ht. apply Forall_cons in Ht as [[_ ->] _]. rewrite root_len. unfold nblk. dlia.
Qed.

Lemma size_le i g : (r :: gs) !! i = Some g ->
  0 <= d_size (on_disk V (S i)) <= Z.of_nat (512 * length (g_blocks g)).
Proof.
  intros Hi. destruct (ghost_at i g Hi) as (_ & _ & Ht & Hf & _ & _ & _ & ->). pose proof (fo_fit _ _ Hf).
  case_decide as E; [|lia]. subst i. injection Hi as <-. rewrite root_blocks. unfold rsize. change BSIZE with 512. dlia.
Qed.

Lemma image_file_on i g n : (r :: gs) !! i = Some g -> d_size (on_disk V (S i)) = Z.of_nat n ->
  file_on V (S i) (g_type g) (take n (bytes_of (img s) (g_blocks g))).
Proof.
  intros Hi Hn'. pose proof (size_le i g Hi) as Hs. pose proof (b_holds _ _ _ B) as H.
  destruct (ghost_at i g Hi) as (_ & Hg & Ht & Hf & Ha & Hty' & Hl & _).
  assert (Hlen : length (take n (bytes_of (img s) (g_blocks g))) = n).
  { rewrite length_take, bytes_length; [lia|]. intros c Hc. apply (holds_len _ s c H).
    apply (holds_range _ g s c H Hg). apply elem_of_app. by left. }
  split; rewrite ?Hlen; try done.
  - intros ip H1 H2. apply (wf_at _ s V g _ H Hg (t_ind _ Ht) Hf HV Ha ip H1 H2 Hs).
  - apply (fread_at _ s V g _ H Hg (t_ind _ Ht) Hf HV Ha). lia.
Qed.

Lemma image_root : file_on V 1 T_DIR (pad (root_entries (fst <$> files))).
Proof.
  destruct (ghost_at 0 r eq_refl) as (_ & _ & _ & Hf & _ & _ & _ & Hs). cbn [decide] in Hs.
  rewrite <- Hr, <- Hty. pose proof (fo_data _ _ Hf) as Hd. rewrite root_blocks in Hd.
  replace (pad (g_data r)) with (take ((length (g_data r) / 512 + 1) * 512) (bytes_of (img s) (g_blocks r))).
  - apply image_file_on; [done|]. rewrite Hs, decide_True by done. unfold rsize. change BSIZE with 512. dlia.
  - rewrite Hd, take_ge; [unfold pad; do 2 f_equal; lia|]. rewrite length_app, length_replicate. dlia.
Qed.

Lemma image_file i f : files !! i = Some f -> file_on V (2 + i) T_FILE (contents f).
Proof.
  intros Hi. destruct (Forall2_lookup_l _ _ _ _ _ HF Hi) as (g & Hg & Ht & Hd).
  destruct (ghost_at (S i) g Hg) as (_ & _ & _ & Hf & _ & _ & _ & Hs). rewrite decide_False in Hs by done.
  rewrite <- Ht, <- Hd. replace (g_data g) with (take (length (g_data g)) (bytes_of (img s) (g_blocks g))).
  - by apply image_file_on.
  - rewrite (fo_data _ _ Hf). apply take_app_length.
Qed.

Lemma image_free_inode i : i = 0%nat \/ (2 + length files <= i < 200)%nat -> itypeV V mksb (Z.of_nat i) = 0.
Proof.
  intros Hi. change (d_type (on_disk V i) = 0). rewrite on_disk_at, (b_ino _ _ _ B), decide_False by lia.
  destruct i as [|i]; [done|]. unfold ino. by rewrite lookup_ge_None_2 by (cbn [length]; rewrite gs_len; lia).
Qed.

Lemma file_block_at i k : (1 <= i < 2 + length files)%nat -> has_block V i k ->
  exists g b, (r :: gs) !! (i - 1)%nat = Some g /\ used g !! k = Some b /\ file_block V i k = Z.of_nat b /\
    Z.of_nat b < Z.of_nat (first_free files) /\ (59 <= b < 1000)%nat.
Proof.
  intros Hi Hk. destruct (lookup_lt_is_Some_2 (r :: gs) (i - 1)) as [g Hg]; [cbn [length]; rewrite gs_len; lia|].
  pose proof (size_le _ _ Hg) as Hs. destruct (ghost_at _ _ Hg) as (_ & Hin & Ht & Hf & Ha & _).
  replace (S (i - 1)) with i in * by lia. unfold has_block in Hk. change BSIZE with 512 in Hk.
  pose proof (b_holds _ _ _ B) as H. destruct (addr_some _ s g k H Hin) as (b & Hb & E & Hr'); [lia|].
  assert (Hu : used g !! k = Some b) by (unfold used; apply lookup_app_l_Some; done).
  exists g, b. split_and!; [done|done| | |lia|lia].
  - unfold file_block. rewrite (blkaddr_at _ s V g _ H Hin (t_ind _ Ht) Hf HV Ha) by lia. by rewrite E.
  - rewrite <- free_at. apply (holds_range _ g s b H Hin). by eapply list_elem_of_lookup_2.
Qed.

Lemma image_own i j k l : (1 <= i < 2 + length files)%nat -> (1 <= j < 2 + length files)%nat ->
  has_block V i k -> has_block V j l ->
  bfreeV V mksb (file_block V i k) = false /\ (file_block V i k = file_block V j l -> i = j /\ k = l).
Proof.
  intros Hi Hj Hk Hl. destruct (file_block_at i k Hi Hk) as (g & b & G1 & G2 & -> & G4 & G5).
  destruct (file_block_at j l Hj Hl) as (g' & b' & G1' & G2' & -> & _). split.
  - rewrite free_map by (change FSSIZE with 1000; lia). apply Z.leb_gt. lia.
  - intros <-%Nat2Z.inj. pose proof (di_nodup _ _ _ (proj1 (b_holds _ _ _ B))) as Hnd. unfold all_used in Hnd.
    destruct (concat_inj _ (i - 1) (j - 1) k l b (used g) (used g') Hnd) as [E ->]; [by rewrite list_lookup_fmap, ?G1, ?G1'..|done|done|].
    split; [lia|done].
Qed.

Lemma image_fs : fs_ok files V.
Proof.
  split; [apply image_sb|apply free_map|apply image_root|apply image_file|apply image_free_inode|apply image_own].
Qed.
End Image.

Lemma mkfs_ok files : (length files <= 198)%nat -> Forall good_file files ->
  (first_free files <= 1000)%nat -> ((2 + length files) mod 32 <> 0)%nat ->
  exists s, mkfs (opened <$> files) mkst0 = Ok (tt, s) /\ image_ok files (img s).
Proof.
  intros Hn Hf Hroom Hfull. destruct (mkfs_run files Hn Hf Hroom) as (s & r & gs & E & B & D & Y & F).
  exists s. split; [done|]. assert (I : _ /\ _ /\ _ /\ _) by by eapply (image_disk files s r gs).
  destruct I as (I1 & I2 & I3 & I4). split; [done..|].
  intros V HV. by apply (image_fs files s r gs).
Qed.

(** mkfs builds the file system of its arguments (C16).  For at most 198 files
    with names without slashes, whose contents fit in files and on the disk,
    and whose directory entries do not fill their blocks exactly, [mkfs] ends
    without a failed assertion, and on the image the kernel sees: an empty log,
    the super block, a free map that marks exactly the blocks of the metadata
    and of the files; the root directory with the entries [.], [..] and one per
    file, followed by empty ones; every file with its contents, readable, in
    inode 2, 3, and so on; the other inodes free; and no block in two places. *)
Theorem mkfs_spec files : (length files <= 198)%nat -> Forall good_file files ->
  (first_free files <= 1000)%nat -> ((2 + length files) mod 32 <> 0)%nat ->
  exists s, mkfs (opened <$> files) mkst0 = Ok (tt, s) /\ image_ok files (img s).
Proof. apply mkfs_ok. Qed.

(** Two files: the first takes its name without the underscore and is read in
    two pieces, the second is longer than the direct blocks hold. *)
Definition demo_files : list (list Z * list (list Z)) :=
  [([95; 108; 115], [replicate 512 7; [1; 2; 3]]); ([98], replicate 14 (replicate 512 9))].

Lemma mkfs_spec_witness : exists s, mkfs (opened <$> demo_files) mkst0 = Ok (tt, s) /\ image_ok demo_files (img s).
Proof.
  apply (mkfs_spec demo_files).
  - apply Nat.leb_le. reflexivity.
  - do 2 (apply Forall_cons_2; [split; [reflexivity|apply Nat.leb_le; vm_compute; reflexivity]|]). apply Forall_nil_2.
  - apply Nat.leb_le. vm_compute. reflexivity.
  - discriminate.
Defined.
