(* ===== verification/BootImage.v ===== *)
(** * The disk image, read by the kernel (mkfs.c and fs.c together)

    The kernel starts on the image that mkfs writes: [binit] of [main], the
    working directory of [userinit], [iinit] and [initlog] of [forkret].  An
    operation then resolves a path from the root and reads the file, through
    the log, the buffer cache and the inode cache: what is read is what mkfs
    was given. *)

From S2P Require Import Prelude Param Bytes Sleeplock Bio BioInv BioSpec Log LogInv LogCrash Blocks LogBlocks.
From S2P Require Import Memory Fs FsInodes FsBlocks FsFiles FsPath Mkfs MkfsSpec MkfsImage.

(** ** The entries of the root directory *)

Definition entries (names : list (list Z)) : list (list Z) :=
  mk_dirent 1 dot :: mk_dirent 1 dotdot ::
  imap (fun k n => mk_dirent (Z.of_nat (2 + k)) (name_bytes n)) names.

Definition no_entry : list Z := replicate 16 0.

Lemma dir_entries_concat k names :
  dir_entries k names = concat (imap (fun i n => mk_dirent (Z.of_nat (k + i)) (name_bytes n)) names).
Proof.
  revert k. induction names as [|n names IH]; intros k; [done|].
  cbn [dir_entries imap concat]. rewrite Nat.add_0_r, IH. do 2 f_equal.
  apply imap_ext. intros i x _. unfold compose. do 2 f_equal. lia.
Qed.

Lemma zeros_concat k : replicate (16 * k) (0 : Z) = concat (replicate k no_entry).
Proof.
  induction k as [|k IH]; [done|]. replace (16 * S k)%nat with (16 + 16 * k)%nat by lia.
  rewrite replicate_add, IH. done.
Qed.

(** The directory's data is a sequence of entries. *)
Lemma root_chunks names :
  exists z, pad (root_entries names) = concat (entries names ++ replicate z no_entry).
Proof.
  assert (Hl : length (root_entries names) = (16 * (2 + length names))%nat).
  { unfold root_entries. rewrite !length_app, dir_entries_length.
    change (length (mk_dirent 1 dot)) with 16%nat. change (length (mk_dirent 1 dotdot)) with 16%nat. lia. }
  exists (32 * (length (root_entries names) / 512 + 1) - (2 + length names))%nat.
  unfold pad. rewrite concat_app. f_equal.
  - unfold root_entries, entries. cbn [concat]. by rewrite dir_entries_concat.
  - rewrite <- zeros_concat. f_equal. rewrite Hl. dlia.
Qed.

Lemma chunk_at (ls : list (list Z)) j x :
  Forall (fun l => length l = 16%nat) ls -> ls !! j = Some x ->
  take 16 (drop (16 * j) (concat ls)) = x.
Proof.
  intros HF. revert j. induction HF as [|l ls Hl HF IH]; intros j Hj; [done|].
  cbn [concat]. destruct j as [|j].
  - injection Hj as ->. rewrite Nat.mul_0_r, drop_0. rewrite <- Hl. apply take_app_length.
  - replace (16 * S j)%nat with (length l + 16 * j)%nat by lia.
    rewrite drop_app_add. by apply IH.
Qed.

Lemma entries_16 names z : Forall (fun l => length l = 16%nat) (entries names ++ replicate z no_entry).
Proof.
  apply Forall_app. split; [|by apply Forall_replicate].
  do 2 (apply Forall_cons_2; [done|]). apply Forall_lookup. intros i x Hx.
  rewrite list_lookup_imap in Hx. destruct (names !! i); [|done]. injection Hx as <-.
  apply mk_dirent_length.
Qed.

Lemma fread_sub V d data off n :
  fread V d 0 (length data) = data -> (off + n <= length data)%nat ->
  fread V d (Z.of_nat off) n = take n (drop off data).
Proof.
  intros Hd Hn. rewrite <- Hd at 1.
  replace (length data) with (off + (n + (length data - off - n)))%nat at 1 by lia.
  rewrite !fread_app, Z.add_0_l. rewrite drop_app_length'.
  - rewrite take_app_length'; [done|]. unfold fread. by rewrite length_fmap, length_seq.
  - unfold fread. by rewrite length_fmap, length_seq.
Qed.

Lemma mk_dirent_inum k n : 0 <= k < 2 ^ 16 -> de_inum (mk_dirent k n) = k.
Proof.
  intros Hk. unfold de_inum, mk_dirent, getn. rewrite drop_0, take_app_length'.
  - rewrite of_to_le. by apply Z.mod_small.
  - by rewrite to_le_length.
Qed.

Lemma mk_dirent_name k n : length n = 14%nat -> de_name (mk_dirent k n) = n.
Proof.
  intros Hn. unfold de_name, mk_dirent. rewrite drop_app_length'.
  - by rewrite <- Hn, firstn_all.
  - by rewrite to_le_length.
Qed.

Lemma fname_stored n : Forall (fun c => c <> 0) (strip n) -> fname (name_bytes n) = take 14 (strip n).
Proof.
  intros Hn. unfold fname, name_bytes. change (Z.to_nat DIRSIZ) with 14%nat.
  rewrite cprefix_strncpy, <- (cprefix_nonzero (strip n) [] 14) by done.
  apply cprefix_shift. intros k _. unfold cstr. rewrite !Nat.add_0_l.
  destruct (decide (k < length (strip n))%nat).
  - by rewrite app_nth1.
  - rewrite app_nth2, nth_overflow by lia. by destruct (k - length (strip n))%nat as [|[|?]].
Qed.

Lemma find_idx_seq {A} (P : nat -> bool) (Q : A -> bool) (l : list A) k :
  (forall j x, l !! j = Some x -> P (k + j)%nat = Q x) ->
  find_idx P (seq k (length l)) = find_idx Q l.
Proof.
  revert k. induction l as [|x l IH]; intros k H; [done|]. cbn [length seq find_idx].
  pose proof (H 0%nat x eq_refl) as H0. rewrite Nat.add_0_r in H0. rewrite H0.
  destruct (Q x); [done|]. rewrite IH; [done|].
  intros j y Hj. rewrite <- (H (S j) y Hj). f_equal. lia.
Qed.

(** Whether an entry is for [e]. *)
Definition entry_for (e x : list Z) : bool :=
  negb (de_inum x =? 0) && bool_decide (take 14 e = fname (de_name x)).

(** The name of a file on the image: the programs of the build have an
    underscore before it. *)
Definition listed (n : list Z) : list Z := if n is 95 :: n' then n' else n.

Lemma strip_listed n : strip n = listed n.
Proof.
  destruct n as [|c n]; [done|]. cbn [strip]. destruct (Z.eqb_spec c 95) as [->|Hc]; [done|].
  unfold listed. repeat (case_match; try done).
Qed.

(** Whether the file [n] has the name [e], of which 14 characters count. *)
Definition stored_as (e n : list Z) : bool := bool_decide (take 14 e = take 14 (listed n)).

Lemma find_stored e names z k :
  (k + length names < 1000)%nat -> (0 < k)%nat ->
  Forall (fun n => Forall (fun c => c <> 0) (strip n)) names ->
  find_idx (entry_for e)
    (imap (fun i n => mk_dirent (Z.of_nat (k + i)) (name_bytes n)) names ++ replicate z no_entry) =
  find_idx (stored_as e) names.
Proof.
  intros Hk H0 HF. revert k Hk H0. induction HF as [|n names Hn HF IH]; intros k Hk H0.
  - induction z as [|z IHz]; [done|]. cbn. unfold fmap in IHz. cbn in IHz. by rewrite IHz.
  - cbn [imap app find_idx length] in *. unfold entry_for at 1. rewrite Nat.add_0_r.
    rewrite mk_dirent_inum, mk_dirent_name, fname_stored by (done || apply length_strncpy || lia).
    rewrite strip_listed. fold (stored_as e n). destruct (Z.eqb_spec (Z.of_nat k) 0); [lia|]. cbn [negb andb].
    destruct (stored_as e n); [done|]. rewrite <- (IH (S k)) by lia. do 3 f_equal.
    apply imap_ext. intros i x _. unfold compose. do 2 f_equal. lia.
Qed.

(** ** The directory tree of the image *)

Section Tree.
Context (files : list (list Z * list (list Z))) (V : dview).
Hypothesis (HF : fs_ok files V) (Hn : (length files <= 198)%nat)
  (Hnul : Forall (fun f => Forall (fun c => c <> 0) (strip f.1)) files).

Lemma live_file i t data :
  (1 <= i < 2 + length files)%nat -> file_on V i t data -> t <> 0 ->
  (t = T_DIR -> Z.of_nat (length data) mod 16 = 0) -> live V mksb (Z.of_nat i).
Proof.
  intros Hi [F1 F2 F3 F4 _] Ht Hd. change (on_disk V i) with (dino V mksb (Z.of_nat i)) in *.
  split; rewrite ?F1, ?F2, ?F3; auto.
  change (sb_ninodes mksb) with 200. lia.
Qed.

Lemma root_length z : pad (root_entries (fst <$> files)) = concat (entries (fst <$> files) ++ replicate z no_entry) ->
  length (pad (root_entries (fst <$> files))) = (16 * length (entries (fst <$> files) ++ replicate z no_entry))%nat.
Proof.
  intros ->. pose proof (entries_16 (fst <$> files) z) as H. induction H as [|l ls Hl H IH]; [done|].
  cbn [concat length]. rewrite length_app. lia.
Qed.

Lemma live_root : live V mksb ROOTINO.
Proof.
  apply (live_file 1 _ _ ltac:(lia) (fk_root _ _ HF)); [done|]. intros _.
  destruct (root_chunks (fst <$> files)) as (z & E). rewrite (root_length z E). dlia.
Qed.

Lemma live_files i f : files !! i = Some f -> live V mksb (Z.of_nat (2 + i)).
Proof.
  intros Hi. pose proof (lookup_lt_Some _ _ _ Hi).
  by apply (live_file (2 + i) _ _ ltac:(lia) (fk_files _ _ HF i f Hi)).
Qed.

(** What the root directory has at each entry. *)
Lemma root_dent : exists z, let l := entries (fst <$> files) ++ replicate z no_entry in
  Z.to_nat (d_size (dino V mksb ROOTINO) / 16) = length l /\
  forall j x, l !! j = Some x -> dent V (dino V mksb ROOTINO) j = x.
Proof.
  destruct (root_chunks (fst <$> files)) as (z & E). exists z. cbv zeta.
  pose proof (root_length z E) as Hl. pose proof (fk_root _ _ HF) as [_ _ F3 _ F5].
  change (on_disk V 1) with (dino V mksb ROOTINO) in *.
  split; [rewrite F3, Hl; dlia|]. intros j x Hj. pose proof (lookup_lt_Some _ _ _ Hj) as Hlt.
  unfold dent. replace (16 * Z.of_nat j) with (Z.of_nat (16 * j)) by lia.
  rewrite (fread_sub _ _ _ _ _ F5) by lia. rewrite E. apply chunk_at; [apply entries_16|done].
Qed.

Lemma entry_num z x :
  x ∈ entries (fst <$> files) ++ replicate z no_entry ->
  de_inum x = 0 \/ de_inum x = ROOTINO \/
  exists k, (k < length files)%nat /\ de_inum x = Z.of_nat (2 + k).
Proof.
  intros [Hx|Hx]%elem_of_app; [|apply elem_of_replicate in Hx as [-> _]; by left].
  right. unfold entries in Hx.
  apply elem_of_cons in Hx as [->|[->|Hx]%elem_of_cons]; [by left..|]. right.
  apply list_elem_of_lookup in Hx as [k Hk]. rewrite list_lookup_imap in Hk.
  destruct ((fst <$> files) !! k) as [n|] eqn:En; [|done]. injection Hk as <-.
  apply lookup_lt_Some in En. rewrite length_fmap in En. exists k. split; [done|].
  apply mk_dirent_inum. lia.
Qed.

Lemma image_dirs : wf_dirs V mksb.
Proof.
  intros n e m HL Ht He. assert (n = ROOTINO) as ->.
  { pose proof (lv_num _ _ _ HL) as Hr. change (sb_ninodes mksb) with 200 in Hr.
    destruct (decide (n = ROOTINO)) as [|Hne]; [done|]. change ROOTINO with 1 in Hne. exfalso.
    replace n with (Z.of_nat (Z.to_nat n)) in * by lia.
    destruct (decide (Z.to_nat n = 0 \/ 2 + length files <= Z.to_nat n)%nat) as [Hf|Hf].
    - apply (lv_type _ _ _ HL). apply (fk_inodes _ _ HF). lia.
    - destruct (lookup_lt_is_Some_2 files (Z.to_nat n - 2)) as [f Hf1]; [lia|].
      pose proof (fn_type _ _ _ _ (fk_files _ _ HF _ f Hf1)) as Ht1.
      replace (2 + (Z.to_nat n - 2))%nat with (Z.to_nat n) in Ht1 by lia.
      change (on_disk V (Z.to_nat n)) with (dino V mksb (Z.of_nat (Z.to_nat n))) in Ht1.
      rewrite Ht1 in Ht. done. }
  destruct root_dent as (z & Hl & Hd). cbv zeta in *. unfold entry_of in He.
  destruct (find_idx _ _) as [j|] eqn:E; [|done]. injection He as He.
  apply find_idx_Some in E as (j' & Hj & Hnm & _). apply lookup_seq in Hj as [-> Hj].
  rewrite Hl in Hj. apply lookup_lt_is_Some_2 in Hj as [x Hx].
  cbn [Nat.add] in *. unfold names in Hnm. rewrite (Hd j x Hx) in *.
  apply andb_true_iff in Hnm as [Hz%negb_true_iff%Z.eqb_neq _].
  apply list_elem_of_lookup_2, entry_num in Hx. rewrite <- He.
  destruct Hx as [Hx|[Hx|(k & Hk & Hx)]]; [done|rewrite Hx; apply live_root|].
  rewrite Hx. destruct (lookup_lt_is_Some_2 files k Hk) as [f Hf]. by apply (live_files k f).
Qed.

(** Looking up a name in the root directory. *)
Lemma root_lookup e :
  take 14 e <> [46] -> take 14 e <> [46; 46] ->
  entry_of V mksb ROOTINO e = (fun k => Z.of_nat (2 + k)) <$> find_idx (stored_as e) (fst <$> files).
Proof.
  intros H1 H2. destruct root_dent as (z & Hl & Hd). cbv zeta in *. unfold entry_of. rewrite Hl.
  rewrite (find_idx_seq _ (entry_for e)).
  2: { intros j x Hj. unfold names. cbn [Nat.add]. by rewrite (Hd j x Hj). }
  unfold entries. cbn [app find_idx]. unfold entry_for at 1 2.
  change (fname (de_name (mk_dirent 1 dot))) with [46].
  change (fname (de_name (mk_dirent 1 dotdot))) with [46; 46].
  rewrite !bool_decide_false by done. rewrite !andb_false_r.
  rewrite find_stored; [|rewrite length_fmap; lia|lia|by apply Forall_fmap].
  destruct (find_idx (stored_as e) _) as [k|] eqn:E; [|done].
  change (Some (de_inum (dent V (dino V mksb ROOTINO) (S (S k)))) = Some (Z.of_nat (2 + k))). f_equal.
  apply find_idx_Some in E as (n & Hk & _).
  rewrite (Hd (S (S k)) (mk_dirent (Z.of_nat (2 + k)) (name_bytes n))).
  - apply lookup_lt_Some in Hk. rewrite length_fmap in Hk. apply mk_dirent_inum. lia.
  - unfold entries. cbn [app lookup list_lookup]. apply lookup_app_l_Some.
    by rewrite list_lookup_imap, Hk.
Qed.

End Tree.

(** ** Starting the kernel on the image *)

Section Boot.
Variable devsw : Z -> device logst.

(** The file system's part of the start: [main] calls [binit] and [userinit],
    which takes the root as the working directory; the first process to run
    calls [iinit] and [initlog]. *)
Definition fs_start : M (fsst logst) (option nat) :=
  do! dio (io binit) in
  let! cwd := namei devsw 0 [SLASH] in
  do! iinit ROOTDEV in
  do! dio (initlog ROOTDEV) in
  ret cwd.

(** An operation that reads the file of a path. *)
Definition read_path (cwd : nat) (path : list Z) : M (fsst logst) (option (list Z)) :=
  do! dio begin_op in
  let! r := namei devsw cwd path in
  match r with
  | None => ret None
  | Some i =>
      do! ilock i in
      let! s := get in
      let! (n, bytes) := readi devsw i 0 (isize (iat s i)) in
      ret (Some bytes)
  end.

(** The kernel's data when the machine starts with disk [im]. *)
Definition power_on (im : list blk) (pid : Z) : fsst logst :=
  {| fs_b := log0 (boot im pid); fs_sb := sb_of_block zero_block; icache := icache0;
     fs_pid := pid |}.

(** The inode cache with the working directory of the first process. *)
Definition icache1 : list inode := <[0%nat := FsPath.fresh ROOTDEV ROOTINO inode0]> icache0.

Lemma namei_root (s : fsst logst) :
  icache s = icache0 -> namei devsw 0 [SLASH] s = Ok (Some 0%nat, set_icache icache1 s).
Proof.
  intros Hs. unfold namei, namex. change (SLASH =? SLASH) with true. cbv iota.
  unfold iget. rewrite !bind_bind, bind_get, Hs.
  replace (find_idx (fun ip => (0 <? ref ip) && (i_dev ip =? ROOTDEV) && (inum ip =? ROOTINO)) icache0)
    with (None : option nat) by (vm_compute; reflexivity).
  replace (find_idx (fun ip => ref ip =? 0) icache0) with (Some 0%nat) by (vm_compute; reflexivity).
  rewrite bind_bind. unfold iupd. rewrite bind_modify, Hs. rewrite bind_ret.
  cbn [length namex_loop]. change (skipelem [SLASH] _) with (None : option (list Z * list Z)).
  cbv iota. rewrite bind_ret. unfold ret. do 3 f_equal.
Qed.

Lemma readsb_lift (s : fsst logst) d x b :
  Log.readsb d (lb (fs_b s)) = Ok (x, b) ->
  Fs.readsb d s = Ok (x, set_b (set_lb b (fs_b s)) s).
Proof.
  unfold Log.readsb, Fs.readsb. intros E.
  apply bind_inv in E as (i & b1 & E1 & E). apply bind_inv in E as (y & b2 & E2 & E).
  apply bind_inv in E as ([] & b3 & E3 & E). injection E2 as <- <-. injection E as <- <-.
  rewrite (bind_Ok _ _ _ _ _ (dio_Ok (io (Bio.bread d 1)) s i _ (io_Ok _ (fs_b s) _ _ E1))).
  rewrite (bind_Ok _ _ _ _ _ (bufd_run _ i)).
  by rewrite (bind_Ok _ _ _ _ _ (dio_Ok (io (Bio.brelse i)) (set_b (set_lb b1 (fs_b s)) s) tt _
    (io_Ok _ (set_lb b1 (fs_b s)) _ _ E3))).
Qed.

Lemma iinit_run (s : fsst logst) x b :
  icache s = icache1 -> Log.readsb ROOTDEV (lb (fs_b s)) = Ok (x, b) ->
  iinit ROOTDEV s = Ok (tt, {| fs_b := set_lb b (fs_b s); fs_sb := x; icache := icache1;
                               fs_pid := fs_pid s |}).
Proof.
  intros Hs Hx. unfold iinit. rewrite bind_modify, Hs.
  replace ((fun ip => set_ilock initsleeplock ip) <$> icache1) with icache1 by (vm_compute; reflexivity).
  by rewrite (bind_Ok _ _ _ _ _ (readsb_lift (set_icache icache1 s) ROOTDEV x b Hx)).
Qed.

Lemma fs_start_ok im pid :
  length im = 1000%nat -> wf_disk 2 LOGSIZE im -> hdr_n 2 im = 0 ->
  sb_of_block (im !!! 1%nat) = mksb ->
  exists g V, fs_start (power_on im pid) =
      Ok (Some 0%nat, {| fs_b := g; fs_sb := mksb; icache := icache1; fs_pid := pid |}) /\
    begin_op g = Ok (tt, set_ops 1 false g) /\ log_rep (set_ops 1 false g) V /\
    rroom V /\ sees im V.
Proof.
  intros Hlen HW Hlog Hsb.
  destruct (binit_ok im pid) as (b0 & E0 & HB0 & D0 & T0 & C0).
  { intros b Hb. pose proof (wd_blocks _ _ _ HW) as W4. rewrite Forall_forall in W4. by apply W4. }
  destruct (LogCrash.readsb_ok _ _ _ HB0) as (b1 & l1 & E1 & HB1 & [D1 T1 C1]);
    [unfold BioInv.nblocks; rewrite D0, Hlen; lia|].
  change (im !!! Z.to_nat 1) with (im !!! 1%nat) in E1. rewrite Hsb in E1.
  destruct (initlog_ok 2 LOGSIZE im b1 l1 HW HB1 ltac:(congruence))
    as (g & v & l & new & E & HT & _ & _ & Hd & HL & Ho & Hc).
  exists g, {| dv := v; dv_held := ∅; dv_mod := ∅; dv_log := []; dv_open := true;
    dv_lo := 32; dv_n := 1000; dv_cap := LOGSIZE - 1 |}. split_and!.
  - unfold fs_start. rewrite (bind_Ok _ _ _ _ _ (dio_Ok (io binit) (power_on im pid) tt _
      (io_Ok binit (log0 (boot im pid)) _ _ E0))).
    rewrite (bind_Ok _ _ _ _ _ (namei_root (set_b (set_lb b0 (log0 (boot im pid))) (power_on im pid)) eq_refl)).
    erewrite bind_Ok by (apply iinit_run; [reflexivity|exact E1]).
    erewrite bind_Ok by (apply dio_Ok; exact E). done.
  - pose proof (tx_n _ _ _ _ _ _ _ HT) as Hn.
    destruct (begin_op_ok g) as [[_ [Hx|Hx]]|[Hx _]].
    + congruence.
    + rewrite Hn, Ho in Hx. vm_compute in Hx. done.
    + rewrite Hx, Ho, Hc. done.
  - apply (txn_ops _ _ _ _ _ _ _ 1 false) in HT. exists 2, l.
    cbn [dv dv_held dv_mod dv_log dv_open dv_lo dv_n dv_cap].
    replace (LOGSIZE - 1 + 1) with LOGSIZE by lia. split_and!; [done|done| |done|].
    + unfold BioInv.nblocks. cbn [lb set_ops]. rewrite HL, Hlen. done.
    + intros n Hn _ _. apply (bi_disk _ _ _ _ _ (tx_bio _ _ _ _ _ _ _ HT));
        [|apply not_elem_of_empty].
      unfold BioInv.nblocks. cbn [lb set_ops]. rewrite HL, Hlen. lia.
  - split; [|done]. cbn [dv_log dv_held length]. rewrite size_empty. done.
  - split; [done..|]. intros b Hb. cbn [dv].
    assert (Hh : home 2 LOGSIZE im (Z.of_nat b)) by (unfold home; rewrite Hlen; change LOGSIZE with 30; lia).
    rewrite (proj2 (Hd _ Hh)), logical_none by done. by rewrite Nat2Z.id.
Qed.

Lemma icache1_ok V :
  coherent V mksb icache1 /\ (2 <= nfree icache1)%nat /\
  icache1 !! 0%nat = Some (FsPath.fresh ROOTDEV ROOTINO inode0).
Proof.
  assert (HC0 : coherent V mksb icache0).
  { split; [apply icache0_ok|..]; intros i x [-> _]%lookup_replicate; done. }
  destruct (coherent_insert V mksb icache0 0 inode0 (FsPath.fresh ROOTDEV ROOTINO inode0)) as [HC _];
    auto; try done.
  { intros j z [-> _]%lookup_replicate _. done. }
  split_and!; [done|apply Nat.leb_le; vm_compute; reflexivity|reflexivity].
Qed.

Lemma elems_one e cur :
  Forall (fun c => c <> 0 /\ c <> SLASH) e -> elems cur e = flush (cur ++ e).
Proof.
  intros He. revert cur. induction He as [|c e [_ Hc] He IH]; intros cur; cbn [elems].
  - by rewrite app_nil_r.
  - destruct (Z.eqb_spec c SLASH); [done|]. by rewrite IH, <- app_assoc.
Qed.

Lemma strip_nul n : Forall (fun c => c <> 0) n -> Forall (fun c => c <> 0) (strip n).
Proof. intros H. destruct H as [|c n Hc H]; [done|]. cbn. destruct (c =? 95); [done|by constructor]. Qed.

(** Reading an inode that a walk has led to. *)
Lemma read_inode V l0 (s : fsst logst) i k t data :
  mounted V mksb s -> rroom V -> dv_held V = ∅ -> wf_sb mksb V ->
  at_inode V mksb l0 (icache s) i (Z.of_nat k) -> file_on V k t data -> t <> T_DEV ->
  exists s', (do! ilock i in
    let! s := get in
    let! (n, bytes) := readi devsw i 0 (isize (iat s i)) in
    ret (Some bytes)) s = Ok (Some data, s').
Proof.
  intros HM Hr Hh HW HA HO Ht.
  destruct (enter V mksb Hr Hh HW l0 s i _ HM HA) as (b & x & l & HRb & HI & E). mrun E. mrun.
  set (s1 := set_b b _). set (x1 := set_ilock (held (fs_pid s)) x).
  assert (Hi : icache s1 !! i = Some x1).
  { cbn [s1 icache set_b set_icache]. unfold with_lock.
    by rewrite list_lookup_alter_eq, (in_x _ _ _ _ _ _ _ HI). }
  assert (Hx1 : i_d x1 = on_disk V k) by exact (in_d _ _ _ _ _ _ _ HI).
  pose proof (fn_wf _ _ _ _ HO x1 (in_dev _ _ _ _ _ _ _ HI) Hx1) as HF.
  assert (Hs : isize x1 = Z.of_nat (length data)) by (unfold isize; rewrite Hx1; apply HO).
  pose proof (wfi_size V x1 HF) as Hsz. change (MAXFILE * BSIZE) with 71680 in Hsz.
  assert (Hip : iat s1 i = x1) by (by apply list_lookup_total_correct).
  rewrite Hip, Hs.
  pose proof (readi_ok devsw s1 V i x1 0 (Z.of_nat (length data)) HRb Hr Hi HF) as Hrd.
  rewrite decide_True in Hrd by (rewrite Hs; lia).
  destruct Hrd as (b' & E' & _); [unfold itype; by rewrite Hx1, (fn_type _ _ _ _ HO)|lia|lia|].
  mrun E'. exists (set_b b' s1). replace (rlen _ _ _) with (Z.of_nat (length data)) by (unfold rlen; lia).
  rewrite Nat2Z.id, Hx1, (fn_read _ _ _ _ HO). done.
Qed.

Lemma read_path_ok files im V g pid e :
  (length files <= 198)%nat -> Forall (fun f => Forall (fun c => c <> 0) f.1) files ->
  fs_ok files V -> sees im V -> rroom V ->
  begin_op g = Ok (tt, set_ops 1 false g) -> log_rep (set_ops 1 false g) V ->
  e <> [] -> Forall (fun c => c <> 0 /\ c <> SLASH) e -> take 14 e <> [46] -> take 14 e <> [46; 46] ->
  exists s', read_path 0 (SLASH :: e)
      {| fs_b := g; fs_sb := mksb; icache := icache1; fs_pid := pid |} =
    Ok ((fun k => contents (files !!! k)) <$> find_idx (stored_as e) (fst <$> files), s').
Proof.
  intros Hn Hnul HF HV Hr Hb HR He Hc H1 H2. pose proof (fk_sb _ _ HF) as HW.
  pose proof (se_held _ _ HV) as Hh.
  assert (Hnul' : Forall (fun f : list Z * list (list Z) => Forall (fun c => c <> 0) (strip f.1)) files)
    by (eapply Forall_impl; [exact Hnul|]; intros f; apply strip_nul).
  unfold read_path. erewrite bind_Ok by (apply dio_Ok; exact Hb).
  set (s1 := set_b (set_ops 1 false g) _).
  destruct (icache1_ok V) as (HC & H2f & H0).
  assert (HM : mounted V mksb s1) by done.
  assert (Hcwd : has_cwd V mksb icache1 0).
  { split; [by apply (live_root files)|]. eexists. split; [exact H0|]. split; [done|].
    by apply (live_root files). }
  destruct (namex_ok devsw V mksb Hr Hh HW (image_dirs files V HF Hn) false s1 0 (SLASH :: e)
    (replicate (Z.to_nat DIRSIZ) 0) HM HC H2f Hcwd) as (r & nm & b & l & E & HRb & Hwalk & _);
    [constructor; [done|]; eapply Forall_impl; [exact Hc|]; by intros c [? _]|done|].
  assert (En : namei devsw 0 (SLASH :: e) s1 = Ok (r, set_b b (set_icache l s1)))
    by (unfold namei; by rewrite (bind_Ok _ _ _ _ _ E)).
  rewrite (bind_Ok _ _ _ _ _ En). clear E En.
  cbn [elems] in Hwalk. change (SLASH =? SLASH) with true in Hwalk. cbv iota in Hwalk.
  cbn [flush app] in Hwalk. rewrite (elems_one e [] Hc) in Hwalk.
  destruct e as [|c e0] eqn:Ee; [done|]. rewrite <- Ee in *.
  replace (flush ([] ++ e)) with [e] in Hwalk by (by rewrite Ee).
  change (start (icache s1) 0 (SLASH :: e)) with ROOTINO in Hwalk. cbn [walk andb] in Hwalk.
  replace (d_type (dino V mksb ROOTINO) =? T_DIR) with true in Hwalk
    by (symmetry; apply Z.eqb_eq; exact (fn_type _ _ _ _ (fk_root _ _ HF))).
  rewrite (root_lookup files V HF Hn Hnul' e H1 H2) in Hwalk.
  destruct (find_idx (stored_as e) (fst <$> files)) as [k|] eqn:Ek.
  - destruct r as [i|]; [|done].
    change (at_inode V mksb icache1 l i (Z.of_nat (2 + k))) in Hwalk.
    apply find_idx_lt in Ek. rewrite length_fmap in Ek.
    destruct (lookup_lt_is_Some_2 files k Ek) as [f Hf].
    destruct (read_inode V icache1 (set_b b (set_icache l s1)) i (2 + k) T_FILE (contents f))
      as (s' & E'); [done|done|done|done|exact Hwalk|by apply (fk_files _ _ HF)|done|].
    exists s'. rewrite E'. cbn. by rewrite (list_lookup_total_correct _ _ _ Hf).
  - destruct r as [i|]; [done|]. eexists. reflexivity.
Qed.

(** (C17) The kernel reads what mkfs wrote. On the image that [mkfs] makes of
    its files, with names that are C strings, the kernel starts: [binit], the
    root as the working directory, [iinit] and [initlog] succeed. Then reading
    a path [/e] returns, through [namei], [ilock] and [readi], the contents of
    the first file whose name, without the underscore and cut to 14 characters,
    is [e], and nothing exactly when no file has that name. *)
Theorem boot_reads_files files :
  (length files <= 198)%nat -> Forall good_file files -> (first_free files <= 1000)%nat ->
  ((2 + length files) mod 32 <> 0)%nat ->
  Forall (fun f => Forall (fun c => c <> 0) f.1) files ->
  exists m, mkfs (opened <$> files) mkst0 = Ok (tt, m) /\
  forall pid, exists s, fs_start (power_on (img m) pid) = Ok (Some 0%nat, s) /\
  forall e, e <> [] -> Forall (fun c => c <> 0 /\ c <> SLASH) e ->
    take 14 e <> [46] -> take 14 e <> [46; 46] ->
    exists s', read_path 0 (SLASH :: e) s =
      Ok ((fun k => contents (files !!! k)) <$> find_idx (stored_as e) (fst <$> files), s').
Proof.
  intros Hn Hg Hf Hm Hnul. destruct (mkfs_ok files Hn Hg Hf Hm) as (m & E & [I1 I2 I3 I4 I5]).
  exists m. split; [done|]. intros pid.
  destruct (fs_start_ok (img m) pid I1 I2 I3 I4) as (g & V & Es & Hb & HR & Hr & HV).
  eexists. split; [exact Es|]. intros e He Hc H1 H2.
  by apply (read_path_ok files (img m) V g pid e Hn Hnul (I5 V HV) HV Hr Hb HR).
Qed.

End Boot.

(** The two files of [demo_files]: [_ls] is read as [/ls]. *)
Lemma boot_reads_files_witness :
  exists m s s', mkfs (opened <$> demo_files) mkst0 = Ok (tt, m) /\
    read_path (fun _ => {| dev_read := None; dev_write := None |}) 0 [47; 108; 115] s =
      Ok (Some (replicate 512 7 ++ [1; 2; 3]), s').
Proof.
  destruct (boot_reads_files (fun _ => {| dev_read := None; dev_write := None |}) demo_files)
    as (m & E & H).
  - apply Nat.leb_le. reflexivity.
  - do 2 (apply Forall_cons_2; [split; [reflexivity|apply Nat.leb_le; vm_compute; reflexivity]|]). apply Forall_nil_2.
  - apply Nat.leb_le. vm_compute. reflexivity.
  - discriminate.
  - do 2 (apply Forall_cons_2; [repeat constructor; discriminate|]). apply Forall_nil_2.
  - destruct (H 1) as (s & _ & Hr).
    destruct (Hr [108; 115] ltac:(discriminate) ltac:(repeat constructor; discriminate)
      ltac:(discriminate) ltac:(discriminate)) as (s' & E').
    exists m, s, s'. split; [exact E|]. exact E'.
Defined.
